(* ===== verification/_CoqProject ===== *)
-Q . S2P
Prelude.v
Abnf.v
AbnfFacts.v
AbnfSearch.v
SipGrammar.v
SipGrammarFacts.v
CoreStrings.v
SipLines.v
SipParser.v
SipHeaders.v
SipMessage.v
SipMessageFacts.v
SipRoundtrip.v
SipConsume.v
SipResponse.v
TransactionTimers.v
Transaction.v
ClientFsm.v
ServerFsm.v
FsmLogic.v
FsmFacts.v
FsmOnce.v
FsmSchedule.v
FsmAck.v
Dispatch.v
DispatchFacts.v
DispatchSteps.v
DispatchTheorems.v
CMem.v
DnsName.v
DnsNameFacts.v
DnsTextFacts.v
DnsParse.v
DnsParseFacts.v
DnsLoops.v
DnsQueries.v
DnsRecords.v
DnsTheorems.v
StunMessage.v
StunFacts.v
StunParseFacts.v
StunServer.v
StunClient.v
StunExchange.v
StunNat.v
StunTheorems.v
SdpText.v
SdpHeaders.v
SdpMedia.v
SdpSession.v
SdpMediaFacts.v
SdpCoherence.v
SdpOps.v
SdpSessionFacts.v
SdpStore.v
SdpTheorems.v
IceCandidate.v
SbcSdp.v
SbcSdpTheorems.v
IpAddress.v
SipXor.v
RtpPacket.v
RtpPacketFacts.v
RtpQueue.v
RtpProxy.v
RtpProxyFacts.v
RtpRelay.v
RtpSession.v
RtpSessionFacts.v
RtpSessionSafe.v
RtpExchange.v
RtpAnswer.v
RtpSessionTheorems.v
Json.v
JsonTheorems.v
RtpRecord.v
RtpRestore.v
RtpManager.v
RtpManagerTheorems.v
