(* ===== verification/Prelude.v ===== *)
(** * Verification of the SIP core of oss_core

    ** The program

    oss_core is a C++ library for SIP servers.  This development models the path
    a SIP message takes through it, the DNS code with which it finds the next hop,
    the STUN code with which it finds its own address, and the session descriptions
    that it carries and rewrites:

    - a grammar of parser combinators (include/OSS/ABNF, src/abnf) that recognises
      the productions of RFC 3261 in NUL-terminated buffers;
    - the header classes (src/sipparser/SIPFrom.cpp, SIPCSeq.cpp, SIPVia.cpp,
      SIPRequestLine.cpp, SIPStatusLine.cpp, SIPParser.cpp) that read and edit
      header texts with these rules;
    - the message object (src/sipparser/SIPMessage.cpp, SIPHeaderTokens.cpp) that
      frames messages on a stream, parses, edits, classifies and writes them and
      creates responses;
    - the transactions (src/sipfsm/SIPTransaction.cpp, SIPFsm.cpp) with their four
      state machines (SIPIct.cpp, SIPNict.cpp, SIPIst.cpp, SIPNist.cpp), which
      retransmit, acknowledge, time out and report to the transaction user;
    - the dispatcher and its four transaction pools (SIPFSMDispatch.cpp,
      SIPTransactionPool.cpp), which route what the transport reads to a
      transaction and create and remove transactions;
    - the names and replies of the DNS resolver (src/udns/udns_dn.c,
      udns_parse.c, udns_rr_a.c, udns_rr_mx.c, udns_rr_srv.c, udns_rr_ptr.c,
      udns_rr_naptr.c, udns_rr_txt.c);
    - STUN: the message format (src/stun/STUNProto.cpp), the server
      (include/OSS/STUN/VovidaSTUN.inl and VovidaUDP.inl) and the client that
      detects NATs (src/stun/STUNClient.cpp);
    - session descriptions (src/sdp): header lines, media descriptions with their
      cached values, sessions and ICE candidates; and the functions with which the
      session border controller rewrites them (src/sbc/SBCSDPBehavior.cpp);
    - the RTP proxy (src/rtp): packets and the queue that resizes them, the relay
      between two legs, the sessions that rewrite offers and answers so that the
      media passes through relays, the manager of sessions and the records it keeps
      of them on servers (src/persistent/RedisClient.cpp), over addresses (src/net/IPAddress.cpp) and with
      the enciphering of packets (src/siptransport/SIPXOR.cpp);
    - JSON documents (include/OSS/JSON), their reader and their writer.

    ** The files

    Prelude: strings as lists of characters, signed [char] values, tribools,
    notations, tactics, the shared lemmas on lists.

    Abnf, AbnfFacts, AbnfSearch: the combinator templates.  A rule maps the rest
    of a buffer to the number of characters it moves the pointer; [None] is a
    pointer behind the terminating NUL, so that staying in the buffer is a
    theorem.  [Safe], [SafeNE] and [CharClass] are the interfaces that the
    grammar is proved against.

    SipGrammar, SipGrammarFacts: every rule class of the grammar with its name,
    memory safety, the language of tokens, addresses and URIs, and the agreement of
    [parseTokens] with [parse].

    CoreStrings: std::string, src/utl/CoreUtils.cpp and the outcomes of C++ code
    ([outcome]: a value, an exception, undefined behaviour).  [BoostString] is
    the interface of the Boost string algorithms with their documented laws.

    SipLines, SipParser, SipHeaders: start lines, escaping and quoting, and the
    accessors of CSeq, Via, From and To.

    SipMessage, SipMessageFacts, SipRoundtrip, SipConsume, SipResponse: the
    message object as a record of the class's members; its header map as an
    implementation of lists of values; parser and serializer; the incremental
    reader [consume]; classification, identifiers and [createResponse].

    TransactionTimers, Transaction, ClientFsm, ServerFsm: the transaction set (a
    parent and its branches), a heap of messages and a trace of the calls that
    leave the component, in a state monad with exceptions; one definition per
    handler of the four machines.  [Env] gives the answers of transport and user
    as functions of the trace.

    FsmLogic, FsmFacts, FsmOnce, FsmSchedule, FsmAck: a program logic for
    handlers (a relation is kept by a handler when its parts keep it), and the
    properties of all runs of a transaction set.

    Dispatch, DispatchFacts, DispatchSteps, DispatchTheorems: the pools, routing,
    delivery and sending; the steps of a dispatcher and the invariant of its
    pools.  [ExpireCache] is the interface of Poco's expiring cache.

    CMem, DnsName, DnsNameFacts, DnsTextFacts, DnsParse, DnsParseFacts, DnsLoops, DnsQueries,
    DnsRecords, DnsTheorems: the C code on byte buffers.  Pointers are
    offsets, and an access outside a buffer or a read of bytes never written is
    a [Fault].

    StunMessage, StunFacts, StunParseFacts: messages, their encoding as a relation
    between a writer and the bytes it writes ([Writes]), and the parser on any
    buffer.  StunServer: the answer to a request and one round of the server over
    [UdpWorld], which says what the system calls return; a failed assertion is an
    [Abort].  StunClient: the client as a record of its members, with what the
    network delivers as an argument.  StunExchange, StunNat, StunTheorems: client
    and server connected by a network with the rules of a NAT.

    SdpText, SdpHeaders, SdpMedia, SdpSession: the text functions, the state
    machine that reads header lines, every accessor of a media description, and
    the session whose media are pointers into a store.  [BoostText] is the
    interface of boost::split and boost::lexical_cast with their documented laws.
    SdpMediaFacts, SdpCoherence, SdpOps, SdpSessionFacts, SdpStore, SdpTheorems: a media
    description as a [view] of seven values; [coherent] says that the cache agrees
    with the header lines.  IceCandidate: candidates.  SbcSdp, SbcSdpTheorems: the
    rewriting of sessions.

    IpAddress: an address with its port; [AsioAddress] is the interface of the
    address texts of boost::asio.  SipXor: the ciphers on the arrays of packets.

    RtpPacket, RtpPacketFacts, RtpQueue: a packet as an array of bytes
    with a size, the queue with its two lists, and the stream that passes through
    it.  RtpProxy, RtpProxyFacts, RtpRelay: a relay as a record of the members of the
    class, with what its pending receives will do; its handlers are steps over
    events (datagrams, cancelled receives, turns of the thread of a resizer).
    RtpSession: the session of three pairs of relays; its handlers are actions on a
    world of ports, session, description and attributes that return, throw or abort.
    RtpSessionFacts, RtpSessionSafe: a program logic for actions and what every
    handler keeps.  RtpExchange, RtpAnswer, RtpSessionTheorems: the effect of a first
    offer and of its answer, and the media that is relayed afterwards.

    Json, JsonTheorems: elements, writer, scanner and parser; [DoubleText]
    is the interface of the text of numbers.

    RtpRecord, RtpRestore: the record of a session, the document it is written to, the
    servers that keep it ([RedisServer] is the interface of one of them), and the session
    that is made of it.  RtpManager, RtpManagerTheorems: the manager with the list of
    sessions and the counts of monitored routes; its requests, its house keeping and what
    happens at its relays are the steps of its runs.

    ** What the theorems show

    Transactions: a client transaction reports at most one final result to its
    user; a terminated transaction is final; every transaction set is bounded by
    its lifetime timer; timers A, E and G send the number of copies and use the
    intervals of RFC 3261; the first error response is acknowledged, and the
    ACK has the required content.

    Dispatcher: in every run the pools hold live transactions of their own kind
    under their own identifier, and each leaves when its lifetime timer expires; a
    message changes at most one transaction, responses and ACKs create none; an
    INVITE that comes within 60 seconds after the end of its transaction is
    ignored; a response reaches the transaction that sent the request, through
    the text written by the peer.

    Messages: what [commitData] writes is read back by [parse] and by [consume], to
    the last byte and however the stream is cut; the header operations refine
    operations on lists of values and keep the header map well formed; responses
    carry the headers of their request and its transaction identifier.

    Grammar and headers: the rules applied to message buffers never leave them;
    the languages of the deciding rules; no accessor leaves its buffer; what a
    setter stores its getter reads.

    DNS: all loops end on every input; [dns_getdn] decodes compressed names;
    text and wire form of a name are inverse; the sizes announced are the sizes
    written; the record parsers return the records that answer the query, inside
    the block they allocate, for replies whose names fit; the names of SRV and
    reverse queries.

    STUN: a well-formed message is read back as it was encoded; the parser stays
    inside its buffers on every datagram whose error attributes have a proper
    length; the answer of the server to a test of the client carries the mapped
    and the alternate address, from the socket the test asks for; over a NAT with a
    given mapping and filter the client reports its kind, unless the filter is one
    by address alone; the request for a mapped address ends.

    Session descriptions: any sequence of operations on a media description keeps
    its cache in agreement with its text and has the effect of the specification on
    its values; a printed session is read back; the constructor of a session ends
    on every text; an attribute of a payload is read as it was set; with the
    property set, no IPv6 address is left in the descriptions the session border
    controller looks at, and forced addresses and ports reach the media of their
    type.

    RTP proxy: whatever requests a session gets, with whatever descriptions, every
    handler returns or throws and the states follow the table of the class; a first
    offer is presented with the addresses and the ports of relays that are open; after
    the answer the media of each side is sent to the address the other side has given;
    a stream that is resized keeps its samples in their order; an enciphered packet is
    deciphered to what it was.  In every run of a manager the number of its sessions is
    bounded, the counts of routes are those of the sessions in the list, a step changes
    the session it is for and no other, and the house keeping removes the inactive
    sessions only.  A session that was saved is restored with its state and its relays, and a
    manager that is started anew has it in its list.

    JSON: the reader ends on every text, and reads back what the writer has written.

    Some theorems state what the code does where it departs from its intent:
    the terminator [dns_getdn] writes behind its buffer, the compressed question
    that breaks the size of a result, the malformed start line read out of range,
    the assertions and the short attribute with which a datagram stops the STUN
    server, the restricted NAT that is not detected, the attributes of payloads
    that are confused, the datagram that makes a leg of a relay deaf, the
    restored session that ignores a new offer, the text that
    fails an assertion of the JSON reader.
    They are concrete inputs or exact conditions.

    ** Bounds

    Integers are [Z], reduced to their width where the code stores them in one
    (the 16 and 32 bit fields of DNS records and STUN messages, the unsigned length of a body, signed
    [char]).  Loops of the grammar have the number of rounds of their template
    argument.  The loops that have none are given fuel: the searches and the loops
    over a buffer get one round more than the buffer has bytes; [dns_getdn] gets
    101 jumps and 255 bytes, since each round uses up a jump or writes a byte; the
    loops over the records of a reply get one round more than the header counts.
    DnsLoops and [consume_loop_total] of AbnfSearch show that this is enough.
    The attributes of a STUN message get one round more than the message has bytes;
    the rounds of the NAT detection are bounded by the time given to it ([10] per
    second, and the count starts again when test 1 is answered), those of
    [createSingleSocket] by its timeout in milliseconds; the constructor of a
    session gets one round more than the text has characters.
    The loop that empties a resizing queue gets one round more than the queue has
    packets and bytes, the one that opens a pair of relays as many as there are pairs
    of ports.  The scanner of JSON gets one round more than the text has characters,
    the parser two for each token and two more ([enough]).
    [string_replace] takes its fuel as an argument.  Runs of transactions and of
    the dispatcher are sequences of steps without a bound.

    ** Not modelled

    Locks and threads: handlers run one after the other, as the mutexes of the
    classes arrange.  Logging.  Sockets, TLS and web sockets (src/siptransport,
    src/net), which the transport parameters stand for.  The reSIPprocate bridge
    and the stream and file readers of SIPMessage.  The header
    classes SIPURI, SIPContact, SIPRoute, SIPReplaces and authorization.  The
    resolver core of src/udns, which is socket code, and its command line tools.
    Of STUN, host names, the opening of sockets, the test client of VovidaSTUN.inl
    and the message authentication code of builds with OpenSSL; the parser and
    encoder that VovidaSTUN.inl repeats from STUNProto.cpp are modelled once.  Of
    the RTP proxy, state files (the state of sessions is kept in Redis here), the remote
    calls of the manager, its threads and timers, the capture reader and SRTP.  The rest of the session border controller, the B2BUA, scripting and persistence
    are applications of this core or wrappers around third-party libraries. *)

From stdpp Require Export base list strings gmap.
From Stdlib Require Export Ascii ZArith Lia.
#[global] Set Default Goal Selector "!".
Open Scope Z_scope.

(** ** Characters and strings

    A [std::string], and the object a [const char*] points into, is a list of
    8-bit characters.  The C++ [char] of the supported targets is signed, so
    comparisons such as [*t >= 0x21] are comparisons of [schar]. *)
Abbreviation str := (list ascii).

(** String literals of the source: [# "INVITE"] is the [str] of that text. *)
Definition lit (s : string) : str := String.list_ascii_of_string s.
Notation "# s" := (lit s%string) (at level 8, s at level 0, format "# s").

(** The value of a [char] promoted to [int]. *)
Definition schar (c : ascii) : Z :=
  let n := Z.of_N (N_of_ascii c) in if n <? 128 then n else n - 256.

(** The value of an [unsigned char]. *)
Definition uchar (c : ascii) : Z := Z.of_N (N_of_ascii c).

(** The [char] with a given 8-bit pattern. *)
Definition chr (z : Z) : ascii := ascii_of_N (Z.to_N (z mod 256)).

(** Dereferencing a pointer into a NUL-terminated buffer: the empty suffix is
    the terminator. *)
Definition deref (t : str) : Z :=
  match t with
  | [] => 0
  | c :: _ => schar c
  end.

(** Characters used by name. *)
Definition CR : ascii := chr 13.
Definition LF : ascii := chr 10.
Definition CRLF : str := [CR; LF].

(** ** boost::tribool *)
Inductive tribool :=
| TTrue
| TFalse
| TIndet.

#[export] Instance tribool_eq_dec : EqDecision tribool.
Proof. solve_decision. Defined.

(** Conversion in a boolean context: [if (t)]. *)
Definition tb_true (t : tribool) : bool :=
  match t with TTrue => true | _ => false end.

(** [!t], itself a tribool. *)
Definition tb_not (t : tribool) : tribool :=
  match t with TTrue => TFalse | TFalse => TTrue | TIndet => TIndet end.

(** [x != y] on tribools: indeterminate as soon as one side is. *)
Definition tb_neq (x y : tribool) : tribool :=
  match x, y with
  | TIndet, _ | _, TIndet => TIndet
  | TTrue, TTrue | TFalse, TFalse => TFalse
  | _, _ => TTrue
  end.

Definition tb_of_bool (b : bool) : tribool := if b then TTrue else TFalse.

(** ** Machine integers *)

(** [unsigned long] and [size_t] arithmetic wraps modulo 2^64, [unsigned int]
    modulo 2^32. *)
Definition u64 (z : Z) : Z := z mod 2 ^ 64.
Definition u32 (z : Z) : Z := z mod 2 ^ 32.
Definition u16 (z : Z) : Z := z mod 2 ^ 16.

(** ** Record update

    [r <| proj := v |>] is the record [r] with one field changed.  A record type
    declares its eta expansion; the setter of a field replaces the field's
    projection in it. *)
Class Settable (R : Type) := eta : R -> R.
Class Setter {R T : Type} (proj : R -> T) := update : (T -> T) -> R -> R.

Ltac build_setter :=
  match goal with
  | |- @Setter ?R ?T ?proj =>
      let inst := constr:(_ : Settable R) in
      let e := eval hnf in inst in
      match eval pattern proj in e with
      | ?u _ =>
          let s := eval cbv beta in (fun (f : T -> T) (r : R) => u (fun r' => f (proj r')) r) in
          exact s
      end
  end.
#[export] Hint Extern 0 (Setter _) => build_setter : typeclass_instances.

Declare Scope record_scope.
Delimit Scope record_scope with rec.
Notation "r <| proj := v |>" := (@update _ _ proj _ (fun _ => v) r)
  (at level 1, left associativity, proj at level 99, v at level 200) : record_scope.
Open Scope record_scope.

(** ** Automation *)

Create HintDb oss discriminated.
Create Rewrite HintDb oss.

(** Case analysis on the scrutinee of a [match] or [if] of the goal. *)
Ltac brk :=
  match goal with
  | |- context [match ?x with _ => _ end] =>
      lazymatch x with
      | context [match _ with _ => _ end] => fail
      | _ => destruct x eqn:?
      end
  end.

(** The same for a hypothesis. *)
Ltac brk_in H :=
  match type of H with
  | context [match ?x with _ => _ end] =>
      lazymatch x with
      | context [match _ with _ => _ end] => fail
      | _ => destruct x eqn:?
      end
  end.

(** Boolean comparisons of the source turned into propositions. *)
Ltac bools :=
  repeat match goal with
  | H : (_ && _)%bool = true |- _ => apply andb_true_iff in H as [? ?]
  | H : (_ || _)%bool = false |- _ => apply orb_false_iff in H as [? ?]
  | H : negb _ = true |- _ => apply negb_true_iff in H
  | H : negb _ = false |- _ => apply negb_false_iff in H
  | H : (_ =? _)%nat = true |- _ => apply Nat.eqb_eq in H
  | H : (_ =? _)%nat = false |- _ => apply Nat.eqb_neq in H
  | H : (_ <? _)%nat = true |- _ => apply Nat.ltb_lt in H
  | H : (_ <? _)%nat = false |- _ => apply Nat.ltb_ge in H
  | H : (_ <=? _)%nat = true |- _ => apply Nat.leb_le in H
  | H : (_ <=? _)%nat = false |- _ => apply Nat.leb_gt in H
  | H : (_ =? _) = true |- _ => apply Z.eqb_eq in H
  | H : (_ =? _) = false |- _ => apply Z.eqb_neq in H
  | H : (_ <? _) = true |- _ => apply Z.ltb_lt in H
  | H : (_ <? _) = false |- _ => apply Z.ltb_ge in H
  | H : (_ <=? _) = true |- _ => apply Z.leb_le in H
  | H : (_ <=? _) = false |- _ => apply Z.leb_gt in H
  end.

(** ** Lemmas on characters *)

Lemma N_of_ascii_lt c : (N_of_ascii c < 256)%N.
Proof. destruct c as [[] [] [] [] [] [] [] []]; vm_compute; reflexivity. Qed.

Lemma schar_range c : -128 <= schar c < 128.
Proof.
  unfold schar. pose proof (N_of_ascii_lt c).
  destruct (Z.ltb_spec (Z.of_N (N_of_ascii c)) 128); lia.
Qed.

Lemma uchar_range c : 0 <= uchar c < 256.
Proof. unfold uchar. pose proof (N_of_ascii_lt c). lia. Qed.

Lemma uchar_inj c d : uchar c = uchar d -> c = d.
Proof.
  unfold uchar. intros H. apply N2Z.inj in H.
  rewrite <- (ascii_N_embedding c), <- (ascii_N_embedding d). by f_equal.
Qed.

Lemma schar_inj c d : schar c = schar d -> c = d.
Proof.
  intros H. apply uchar_inj. pose proof (uchar_range c). pose proof (uchar_range d).
  revert H. unfold schar, uchar in *.
  destruct (Z.ltb_spec (Z.of_N (N_of_ascii c)) 128),
    (Z.ltb_spec (Z.of_N (N_of_ascii d)) 128); lia.
Qed.

Lemma uchar_chr z : uchar (chr z) = z mod 256.
Proof.
  unfold uchar, chr. pose proof (Z.mod_pos_bound z 256).
  rewrite N_ascii_embedding; lia.
Qed.

Lemma deref_nonzero t : deref t <> 0 -> exists c t', t = c :: t' /\ deref t = schar c.
Proof. destruct t as [|c t]; [done|]. intros _. by exists c, t. Qed.

(** ** Checking a property of all 256 characters by evaluation *)

Definition all_ascii : list ascii := map ascii_of_nat (seq 0 256).

Lemma all_ascii_complete c : In c all_ascii.
Proof.
  apply in_map_iff. exists (nat_of_ascii c). split; [apply ascii_nat_embedding|].
  apply in_seq. split; [lia|]. apply nat_ascii_bounded.
Qed.

Lemma ascii_forallb (p : ascii -> bool) : forallb p all_ascii = true -> forall c, p c = true.
Proof. intros H c. rewrite forallb_forall in H. apply H, all_ascii_complete. Qed.

(** Two boolean predicates that agree on every character. *)
Lemma ascii_pred_ext (p q : ascii -> bool) :
  forallb (fun c => Bool.eqb (p c) (q c)) all_ascii = true -> forall c, p c = q c.
Proof. intros H c. apply Bool.eqb_prop. by apply (ascii_forallb _ H). Qed.

(** Implications between predicates on characters. *)
Lemma ascii_pred_impl (p q : ascii -> bool) :
  forallb (fun c => implb (p c) (q c)) all_ascii = true ->
  forall c, p c = true -> q c = true.
Proof.
  intros H c Hp. pose proof (ascii_forallb _ H c) as Hc. simpl in Hc. by rewrite Hp in Hc.
Qed.

#[global] Opaque all_ascii.
