(* ===== verification/Abnf.v ===== *)
(** * The ABNF parser combinators

    Models include/OSS/ABNF/ABNFBaseRule.h, ABNFLRSequence.h, ABNFAnyOf.h,
    ABNFLoopUntil.h, ABNFStringLiteral.h and the character rules of ABNFParser.h
    and src/abnf/ABNFParser.cpp.

    A rule is an object with a [parse] method from pointer to pointer.  The pointer
    argument is the suffix of the NUL-terminated buffer it points to, the
    returned pointer is the number of characters it lies ahead of the argument.
    [None] is a pointer moved past the terminating NUL, whose next dereference
    is undefined behaviour: the library's own pointer arithmetic is the only
    thing that keeps a parse inside its buffer, so staying inside is a theorem
    and not a convention of the model.  Template rules are functions on rules. *)

From S2P Require Import Prelude.
Open Scope nat_scope.

(** ** ABNFBaseRuleIdentifiable: what a rule exposes to its users.

    [isOptional] is the flag as the enclosing sequence reads it, after the call
    of [parse] (ABNFLoopUntil sets it in [parse]); [isNull] is the outcome of
    [typeid(rule) == typeid(ABNFLRNullRule)]. *)
Record rule := Rule {
  parse : str -> option nat;
  isOptional : bool;
  isNull : bool
}.

(** [++t]. *)
Definition advance (t : str) : option nat :=
  match t with
  | [] => None
  | _ :: _ => Some 1
  end.

(** A rule that tests the current character and steps over it. *)
Definition charRule (p : Z -> bool) : rule :=
  Rule (fun t => if p (deref t) then advance t else Some 0) false false.

(** [ABNFEvaluate<Rule>::operator()]: the whole C string satisfies the rule. *)
Definition ABNFEvaluate (r : rule) (t : str) : option bool :=
  offSet ← parse r t;
  Some (deref (drop offSet t) =? 0)%Z.

(** A rule class of src/abnf whose [parse] forwards to a file-static parser: a
    rule of its own, never optional and never the null rule. *)
Definition forwards (r : rule) : rule := Rule (parse r) false false.

(** ** Character rules *)

Definition ABNFOctet : rule := charRule (fun c => 0 <=? c)%Z.
Definition ABNFChar : rule := charRule (fun c => (1 <=? c) && (c <=? 127))%Z.
Definition ABNFCharPrintable : rule := charRule (fun c => (33 <=? c) && (c <=? 126))%Z.
Definition ABNFCharAlpha : rule :=
  charRule (fun c => ((65 <=? c) && (c <=? 90)) || ((97 <=? c) && (c <=? 122)))%Z.
Definition ABNFCharDigit : rule := charRule (fun c => (48 <=? c) && (c <=? 57))%Z.
Definition ABNFCharControl : rule :=
  charRule (fun c => ((0 <=? c) && (c <=? 31)) || (c =? 127))%Z.
Definition ABNFCharHex : rule :=
  charRule (fun c => ((48 <=? c) && (c <=? 57)) || ((65 <=? c) && (c <=? 70))
                     || ((97 <=? c) && (c <=? 102)))%Z.

(** [ABNFCharComparison<literal>]. *)
Definition ABNFCharComparison (literal : Z) : rule := charRule (fun c => c =? literal)%Z.

(** [ABNFRange<minValue, maxValue>], with the disjunction of the source. *)
Definition ABNFRange (minValue maxValue : Z) : rule :=
  charRule (fun c => (minValue <=? c) || (c <=? maxValue))%Z.

(** The [char _value[50]] member of the literal rules. *)
Definition value50 (cs : list Z) : list Z := take 50 (cs ++ replicate 50 0%Z).

(** [ABNFAnyOfChars<c0, ..., c49>]. *)
Fixpoint anyOfChars_loop (value : list Z) (t : str) : option nat :=
  match value with
  | [] => Some 0
  | v :: value =>
      if (deref t =? 0)%Z then Some 0
      else if (deref t =? v)%Z then advance t
      else anyOfChars_loop value t
  end.

Definition ABNFAnyOfChars (cs : list Z) : rule :=
  Rule (anyOfChars_loop (value50 cs)) false false.

(** ** String literals *)

(** One comparison of [ABNFStringLiteral]: [value] is [_value[i..49]], [off] the
    distance of [t] from the start. *)
Fixpoint literal_loop (same : Z -> Z -> bool) (value : list Z) (t : str) (off : nat)
    : option nat :=
  match value with
  | [] => Some 0
  | v :: value =>
      if (deref t =? 0)%Z then Some 0
      else if same (deref t) v then
        match t with
        | [] => None
        | _ :: t' =>
            if (hd 0%Z value =? 0)%Z then Some (S off)
            else literal_loop same value t' (S off)
        end
      else Some 0
  end.

(** The caseless comparison of the source, on [int]s. *)
Definition same_caseless (c v : Z) : bool :=
  ((c =? v) || (c =? v - 32) || (c =? v + 32))%Z.

Definition ABNFStringLiteral (cs : list Z) : rule :=
  Rule (fun t => literal_loop same_caseless (value50 cs) t 0) false false.

Definition ABNFStrictStringLiteral (cs : list Z) : rule :=
  Rule (fun t => literal_loop Z.eqb (value50 cs) t 0) false false.

(** ** Optional and null rules *)

Definition ABNFLROptional (r : rule) : rule :=
  Rule (fun t => if (deref t =? 0)%Z then Some 0 else parse r t) true false.

Definition ABNFLRNullRule : rule := Rule (fun _ => Some 0) false true.

(** ** Left-to-right sequences *)

(** The unrolled body of [ABNFLRSequence2] ... [ABNFLRSequence6]: [Some None] is
    [return startIter], [Some (Some n)] is [return t] after [n] characters. *)
Fixpoint lr_parse (rs : list rule) (t : str) : option (option nat) :=
  match rs with
  | [] => Some (Some 0)
  | r :: rs =>
      n ← parse r t;
      if (n =? 0) && negb (isOptional r) then Some None
      else
        o ← lr_parse rs (drop n t);
        Some (option_map (Nat.add n) o)
  end.

Definition lrSequence (rs : list rule) : rule :=
  Rule (fun t => option_map (default 0) (lr_parse rs t)) false false.

Definition ABNFLRSequence2 (r0 r1 : rule) : rule := lrSequence [r0; r1].
Definition ABNFLRSequence3 (r0 r1 r2 : rule) : rule := lrSequence [r0; r1; r2].
Definition ABNFLRSequence4 (r0 r1 r2 r3 : rule) : rule := lrSequence [r0; r1; r2; r3].
Definition ABNFLRSequence5 (r0 r1 r2 r3 r4 : rule) : rule :=
  lrSequence [r0; r1; r2; r3; r4].
Definition ABNFLRSequence6 (r0 r1 r2 r3 r4 r5 : rule) : rule :=
  lrSequence [r0; r1; r2; r3; r4; r5].

(** [parseTokens] of the same templates.  The result is the returned offset and
    the strings pushed on [tokens]; those pushed before a failure stay there. *)
Fixpoint lr_tokens (rs : list rule) (t : str) : option (option nat * list str) :=
  match rs with
  | [] => Some (Some 0, [])
  | r :: rs =>
      n ← parse r t;
      if (n =? 0) && negb (isOptional r) then Some (None, [])
      else
        '(o, toks) ← lr_tokens rs (drop n t);
        Some (option_map (Nat.add n) o, take n t :: toks)
  end.

Definition lrParseTokens (rs : list rule) (t : str) : option (nat * list str) :=
  '(o, toks) ← lr_tokens rs t;
  Some (default 0 o, toks).

(** [ABNFLRSequence16]: the sixteen slots are tried until the first null rule;
    a loop that runs through all sixteen falls out of the [for] and returns
    [startIter]. *)
Fixpoint lr16_parse (rs : list rule) (t : str) : option (option nat) :=
  match rs with
  | [] => Some None
  | r :: rs =>
      if isNull r then Some (Some 0)
      else
        n ← parse r t;
        if (n =? 0) && negb (isOptional r) then Some None
        else
          o ← lr16_parse rs (drop n t);
          Some (option_map (Nat.add n) o)
  end.

Definition pad16 (rs : list rule) : list rule := take 16 (rs ++ replicate 16 ABNFLRNullRule).

Definition ABNFLRSequence16 (rs : list rule) : rule :=
  Rule (fun t => option_map (default 0) (lr16_parse (pad16 rs) t)) false false.

(** ** Alternatives *)

Definition ABNFAnyOf (r0 r1 : rule) : rule :=
  Rule (fun t =>
    if (deref t =? 0)%Z then Some 0
    else
      n ← parse r0 t;
      if negb (n =? 0) then Some n
      else
        m ← parse r1 t;
        if negb (m =? 0) then Some m else Some 0) false false.

(** The [for]/[switch] of [ABNFAnyOfMultiple3], [4], [5] and [16]. *)
Fixpoint anyOf_loop (rs : list rule) (t : str) : option nat :=
  match rs with
  | [] => Some 0
  | r :: rs =>
      if isNull r then Some 0
      else
        n ← parse r t;
        if negb (n =? 0) then Some n else anyOf_loop rs t
  end.

Definition anyOfMultiple (rs : list rule) : rule := Rule (anyOf_loop rs) false false.
Definition ABNFAnyOfMultiple3 (r0 r1 r2 : rule) : rule := anyOfMultiple [r0; r1; r2].
Definition ABNFAnyOfMultiple4 (r0 r1 r2 r3 : rule) : rule := anyOfMultiple [r0; r1; r2; r3].
Definition ABNFAnyOfMultiple5 (r0 r1 r2 r3 r4 : rule) : rule :=
  anyOfMultiple [r0; r1; r2; r3; r4].
Definition ABNFAnyOfMultiple16 (rs : list rule) : rule := anyOfMultiple (pad16 rs).

(** ** Iteration *)

(** [ABNFLoopExitChars<c0, ..., c9>::exit_rule]: parameters that are not given
    are NUL, so a loop with fewer than ten exit characters also exits on NUL. *)
Definition exit_rule (cs : list Z) (t : str) : bool :=
  existsb (fun c => deref t =? c)%Z (take 10 (cs ++ replicate 10 0%Z)).

Definition ABNFLoopExitIfNul : list Z := [0%Z].

(** The [for] loop of [ABNFLoopUntil]: iterations done and characters consumed. *)
Fixpoint loop_iter (r : rule) (x_trait : list Z) (fuel : nat) (t : str)
    : option (nat * nat) :=
  match fuel with
  | 0 => Some (0, 0)
  | S fuel =>
      if exit_rule x_trait t then Some (0, 0)
      else
        n ← parse r t;
        if n =? 0 then Some (0, 0)
        else
          '(i, m) ← loop_iter r x_trait fuel (drop n t);
          Some (S i, n + m)
  end.

Definition ABNFLoopUntil (r : rule) (x_trait : list Z) (MinSize MaxSize : nat) : rule :=
  Rule (fun t =>
    if (deref t =? 0)%Z then Some 0
    else
      '(i, n) ← loop_iter r x_trait MaxSize t;
      if i <? MinSize then Some 0 else Some n) (MinSize =? 0) false.

(** [ABNFLoopUntil::parseTokens]: one token per iteration. *)
Fixpoint loop_tokens (r : rule) (x_trait : list Z) (fuel : nat) (t : str)
    : option (nat * nat * list str) :=
  match fuel with
  | 0 => Some (0, 0, [])
  | S fuel =>
      if exit_rule x_trait t then Some (0, 0, [])
      else
        n ← parse r t;
        if n =? 0 then Some (0, 0, [])
        else
          '(i, m, toks) ← loop_tokens r x_trait fuel (drop n t);
          Some (S i, n + m, take n t :: toks)
  end.

Definition loopParseTokens (r : rule) (x_trait : list Z) (MinSize MaxSize : nat) (t : str)
    : option (nat * list str) :=
  '(i, n, toks) ← loop_tokens r x_trait MaxSize t;
  if i <? MinSize then Some (0, toks) else Some (n, toks).

#[global] Typeclasses Opaque
  charRule forwards ABNFOctet ABNFChar
  ABNFCharPrintable ABNFCharAlpha ABNFCharDigit ABNFCharControl
  ABNFCharHex ABNFCharComparison ABNFRange ABNFAnyOfChars
  ABNFStringLiteral ABNFStrictStringLiteral ABNFLROptional ABNFLRNullRule
  lrSequence ABNFLRSequence2 ABNFLRSequence3 ABNFLRSequence4
  ABNFLRSequence5 ABNFLRSequence6 ABNFLRSequence16 ABNFAnyOf
  anyOfMultiple ABNFAnyOfMultiple3 ABNFAnyOfMultiple4 ABNFAnyOfMultiple5
  ABNFAnyOfMultiple16 ABNFLoopUntil.
