(* ===== verification/AbnfFacts.v ===== *)
(** * Properties of the ABNF combinators

    Three interfaces that the grammar proofs are stated against, as classes
    indexed by the rule: [Safe] (a parse never leaves its buffer), [SafeNE] (the
    same on a buffer that is not at its end) and [CharClass] (the rule accepts
    exactly one character of a class).  The instances follow the templates, so
    the properties of a grammar rule are found by instance resolution. *)

From S2P Require Import Prelude Abnf.
Open Scope nat_scope.

(** A parse that stays inside the buffer. *)
Definition in_buffer (r : rule) (t : str) : Prop :=
  exists n, parse r t = Some n /\ n <= length t.

Class Safe (r : rule) : Prop := safe : forall t, in_buffer r t.
Class SafeNE (r : rule) : Prop := safe_ne : forall t, t <> [] -> in_buffer r t.

(** A rule that always consumes when there is something to consume. *)
Class Consumes (r : rule) : Prop :=
  consumes : forall t, t <> [] -> exists n, parse r t = Some n /\ 1 <= n <= length t.

(** The rule accepts one character, of class [p]. *)
Class CharClass (r : rule) (p : Z -> bool) : Prop :=
  char_class : forall t, parse r t =
    match t with
    | [] => Some 0
    | c :: _ => Some (if p (schar c) then 1 else 0)
    end.

#[export] Hint Mode CharClass ! - : typeclass_instances.

(** The longest prefix of [t], of at most [max] characters, all of class [p]. *)
Fixpoint span (p : Z -> bool) (max : nat) (t : str) : nat :=
  match max, t with
  | S max, c :: t => if p (schar c) then S (span p max t) else 0
  | _, _ => 0
  end.

(** Goal-directed unfolding of the definition at the head of a rule. *)
Ltac head_of t := lazymatch t with ?f _ => head_of f | _ => t end.
Ltac unfold_rule :=
  match goal with
  | |- Safe ?r => let h := head_of r in unfold h
  | |- SafeNE ?r => let h := head_of r in unfold h
  | |- Consumes ?r => let h := head_of r in unfold h
  | |- CharClass ?r _ => let h := head_of r in unfold h
  end.

(** ** Character classes *)

Lemma charRule_class p : p 0%Z = false -> CharClass (charRule p) p.
Proof. intros Hp [|c t]; simpl; [by rewrite Hp|]. by destruct (p (schar c)). Qed.

#[export] Hint Extern 0 (CharClass (charRule _) _) =>
  (apply charRule_class; reflexivity) : typeclass_instances.

Lemma anyOfChars_loop_eq value t :
  anyOfChars_loop value t =
    match t with
    | [] => Some 0
    | c :: _ => Some (if negb (schar c =? 0)%Z && existsb (Z.eqb (schar c)) value then 1 else 0)
    end.
Proof.
  induction value as [|v value IH]; destruct t as [|c t]; simpl; try done.
  { by rewrite andb_false_r. }
  simpl in IH. destruct (schar c =? 0)%Z eqn:E; simpl; [done|].
  destruct (schar c =? v)%Z; simpl; [done|]. by rewrite IH.
Qed.

#[export] Instance any_of_chars_class cs : CharClass (ABNFAnyOfChars cs)
  (fun c => negb (c =? 0)%Z && existsb (Z.eqb c) (value50 cs)).
Proof. intros t. apply anyOfChars_loop_eq. Qed.

#[export] Instance any_of_class r0 r1 p0 p1 :
  CharClass r0 p0 -> CharClass r1 p1 ->
  CharClass (ABNFAnyOf r0 r1) (fun c => negb (c =? 0)%Z && (p0 c || p1 c)).
Proof.
  intros H0 H1 [|c t]; cbn [parse ABNFAnyOf deref]; [done|].
  destruct (schar c =? 0)%Z; simpl; [done|]. rewrite H0. simpl.
  destruct (p0 (schar c)); simpl; [done|]. rewrite H1. simpl.
  by destruct (p1 (schar c)).
Qed.

#[export] Instance any_of_multiple_nil_class : CharClass (anyOfMultiple []) (fun _ => false).
Proof. by intros [|c t]. Qed.

Lemma any_of_multiple_class r rs p q :
  isNull r = false -> CharClass r p -> CharClass (anyOfMultiple rs) q ->
  CharClass (anyOfMultiple (r :: rs)) (fun c => p c || q c).
Proof.
  intros Hn H1 H2 t. simpl. rewrite Hn, H1. specialize (H2 t). simpl in H2.
  destruct t as [|c t]; simpl; [done|]. by destruct (p (schar c)).
Qed.

#[export] Hint Extern 1 (CharClass (anyOfMultiple (_ :: _)) _) =>
  (eapply any_of_multiple_class; [reflexivity| |]) : typeclass_instances.

#[export] Instance forwards_class r p : CharClass r p -> CharClass (forwards r) p.
Proof. intros H t. apply (H t). Qed.

(** ** In-buffer instances *)

#[export] Instance safe_safe_ne r : Safe r -> SafeNE r.
Proof. intros H t _. apply H. Qed.

#[export] Instance consumes_safe_ne r : Consumes r -> SafeNE r.
Proof. intros H t Ht. destruct (H t Ht) as (n & ? & ?). exists n. split; [done|lia]. Qed.

Lemma charRule_safe p : p 0%Z = false -> Safe (charRule p).
Proof.
  intros Hp [|c t]; unfold in_buffer; simpl; [rewrite Hp; exists 0; split; [done|lia]|].
  destruct (p (schar c)); eexists; (split; [done|]); simpl; lia.
Qed.

#[export] Instance charRule_safe_ne p : SafeNE (charRule p).
Proof.
  intros [|c t] Ht; [done|]. unfold in_buffer; simpl.
  destruct (p (schar c)); eexists; (split; [done|]); simpl; lia.
Qed.

#[export] Hint Extern 0 (Safe (charRule _)) =>
  (apply charRule_safe; reflexivity) : typeclass_instances.

Lemma char_class_safe r p : CharClass r p -> Safe r.
Proof.
  intros H t. unfold in_buffer. rewrite H. destruct t as [|c t]; [exists 0; split; [done|lia]|].
  destruct (p (schar c)); eexists; (split; [done|]); simpl; lia.
Qed.

#[export] Instance any_of_chars_safe cs : Safe (ABNFAnyOfChars cs).
Proof. eapply char_class_safe, _. Qed.

#[export] Instance forwards_safe r : Safe r -> Safe (forwards r).
Proof. intros H t. apply (H t). Qed.
#[export] Instance forwards_safe_ne r : SafeNE r -> SafeNE (forwards r).
Proof. intros H t. apply (H t). Qed.
#[export] Instance forwards_consumes r : Consumes r -> Consumes (forwards r).
Proof. intros H t. apply (H t). Qed.

(** [ABNFRange] with a lower bound not above the upper one accepts every
    character, whatever its bounds. *)
Lemma range_always lo hi c : (lo <= hi)%Z -> ((lo <=? c) || (c <=? hi))%Z = true.
Proof. intros H. apply orb_true_iff. rewrite !Z.leb_le. lia. Qed.

Lemma range_consumes lo hi : (lo <=? hi)%Z = true -> Consumes (ABNFRange lo hi).
Proof.
  intros H [|c t] Ht; [done|]. apply Z.leb_le in H. exists 1. simpl.
  rewrite range_always by done. split; [done|lia].
Qed.

#[export] Hint Extern 0 (Consumes (ABNFRange _ _)) =>
  (apply range_consumes; reflexivity) : typeclass_instances.

Lemma literal_loop_safe same value t off n :
  literal_loop same value t off = Some n -> n <= off + length t.
Proof.
  revert t off. induction value as [|v value IH]; intros t off; simpl.
  { intros [= <-]. lia. }
  destruct (deref t =? 0)%Z; [intros [= <-]; lia|].
  destruct (same (deref t) v); [|intros [= <-]; lia].
  destruct t as [|c t]; [done|]. destruct (hd 0%Z value =? 0)%Z; simpl.
  - intros [= <-]. lia.
  - intros H. apply IH in H. lia.
Qed.

Lemma literal_loop_some same value t off : exists n, literal_loop same value t off = Some n.
Proof.
  revert t off. induction value as [|v value IH]; intros t off; simpl; [eauto|].
  destruct (deref t =? 0)%Z eqn:E; [eauto|]. destruct t as [|c t]; [done|].
  destruct (same _ v); [|eauto]. destruct (hd 0%Z value =? 0)%Z; eauto.
Qed.

#[export] Instance literal_safe cs : Safe (ABNFStringLiteral cs).
Proof.
  intros t. destruct (literal_loop_some same_caseless (value50 cs) t 0) as [n Hn].
  exists n. split; [done|]. by apply literal_loop_safe in Hn.
Qed.

#[export] Instance strict_literal_safe cs : Safe (ABNFStrictStringLiteral cs).
Proof.
  intros t. destruct (literal_loop_some Z.eqb (value50 cs) t 0) as [n Hn].
  exists n. split; [done|]. by apply literal_loop_safe in Hn.
Qed.

#[export] Instance optional_safe r : SafeNE r -> Safe (ABNFLROptional r).
Proof.
  intros H [|c t]; unfold in_buffer; cbn [parse ABNFLROptional deref].
  { exists 0. split; [done|lia]. }
  destruct (schar c =? 0)%Z; [exists 0; split; [done|lia]|]. by apply H.
Qed.

#[export] Instance any_of_safe r0 r1 : SafeNE r0 -> SafeNE r1 -> Safe (ABNFAnyOf r0 r1).
Proof.
  intros H0 H1 [|c t]; unfold in_buffer; cbn [parse ABNFAnyOf deref].
  { exists 0. split; [done|lia]. }
  destruct (schar c =? 0)%Z; [exists 0; split; [done|lia]|].
  destruct (H0 (c :: t)) as (n & -> & ?); [done|]. simpl.
  destruct (n =? 0); simpl; [|by exists n].
  destruct (H1 (c :: t)) as (m & -> & ?); [done|]. simpl.
  destruct (m =? 0); simpl; [exists 0; split; [done|lia]|by exists m].
Qed.

(** An alternative after one that always consumes is never tried. *)
#[export] Instance any_of_safe_left r0 r1 : Consumes r0 -> Safe (ABNFAnyOf r0 r1) | 5.
Proof.
  intros H0 [|c t]; unfold in_buffer; cbn [parse ABNFAnyOf deref].
  { exists 0. split; [done|lia]. }
  destruct (schar c =? 0)%Z; [exists 0; split; [done|lia]|].
  destruct (H0 (c :: t)) as (n & -> & ?); [done|]. simpl in *.
  destruct n; [lia|]. exists (S n). split; [done|lia].
Qed.

#[export] Instance any_of_multiple_nil_safe : Safe (anyOfMultiple []).
Proof. intros t. exists 0. split; [done|lia]. Qed.

Lemma any_of_loop_in_buffer r rs t :
  in_buffer r t -> in_buffer (anyOfMultiple rs) t -> in_buffer (anyOfMultiple (r :: rs)) t.
Proof.
  intros (n & Hn & Hl) H. unfold in_buffer; simpl. destruct (isNull r).
  { exists 0. split; [done|lia]. }
  rewrite Hn. simpl. destruct (n =? 0); simpl; [exact H|by exists n].
Qed.

#[export] Instance any_of_multiple_safe r rs :
  Safe r -> Safe (anyOfMultiple rs) -> Safe (anyOfMultiple (r :: rs)).
Proof. intros ?? t. by apply any_of_loop_in_buffer. Qed.

#[export] Instance any_of_multiple_safe_ne r rs :
  SafeNE r -> SafeNE (anyOfMultiple rs) -> SafeNE (anyOfMultiple (r :: rs)).
Proof. intros H1 H2 t Ht. apply any_of_loop_in_buffer; [by apply H1|by apply H2]. Qed.

(** The first alternative that always consumes settles the choice. *)
Lemma any_of_multiple_consumes_here r rs :
  isNull r = false -> Consumes r -> Consumes (anyOfMultiple (r :: rs)).
Proof.
  intros Hn H t Ht. destruct (H t Ht) as (n & Hp & Hl). exists n. simpl.
  rewrite Hn, Hp. simpl. destruct n; [lia|]. by split.
Qed.

Lemma any_of_multiple_consumes_later r rs :
  isNull r = false -> SafeNE r -> Consumes (anyOfMultiple rs) ->
  Consumes (anyOfMultiple (r :: rs)).
Proof.
  intros Hn H1 H2 t Ht. destruct (H1 t Ht) as (n & Hp & Hl). simpl.
  rewrite Hn, Hp. simpl. destruct n; simpl; [by apply H2|].
  exists (S n). split; [done|lia].
Qed.

#[export] Hint Extern 1 (Consumes (anyOfMultiple (_ :: _))) =>
  (apply any_of_multiple_consumes_here; [reflexivity|]) : typeclass_instances.
#[export] Hint Extern 2 (Consumes (anyOfMultiple (_ :: _))) =>
  (apply any_of_multiple_consumes_later; [reflexivity| |]) : typeclass_instances.

(** ** Sequences *)

Lemma lr_parse_cons_in_buffer r rs t :
  in_buffer r t -> (forall t', exists o, lr_parse rs t' = Some o /\ default 0 o <= length t') ->
  exists o, lr_parse (r :: rs) t = Some o /\ default 0 o <= length t.
Proof.
  intros (n & Hn & Hl) H. simpl. rewrite Hn. simpl.
  destruct ((n =? 0) && negb (isOptional r)); [exists None; simpl; split; [done|lia]|].
  destruct (H (drop n t)) as (o & -> & Ho). simpl. eexists; split; [done|].
  rewrite length_drop in Ho. destruct o; simpl in *; lia.
Qed.

Lemma lr_parse_in_buffer rs t :
  Forall Safe rs -> exists o, lr_parse rs t = Some o /\ default 0 o <= length t.
Proof.
  intros H. revert t. induction H as [|r rs Hr _ IH]; intros t.
  { exists (Some 0). simpl. split; [done|lia]. }
  by apply lr_parse_cons_in_buffer.
Qed.

Lemma lr_in_buffer rs t :
  (exists o, lr_parse rs t = Some o /\ default 0 o <= length t) -> in_buffer (lrSequence rs) t.
Proof. intros (o & Ho & Hl). exists (default 0 o). simpl. by rewrite Ho. Qed.

#[export] Instance lr_sequence_nil_safe : Safe (lrSequence []).
Proof. intros t. exists 0. split; [done|lia]. Qed.

(** Instances on the list, so that resolution walks it. *)
Class SafeList (rs : list rule) : Prop := safe_list : Forall Safe rs.

#[export] Instance safe_list_nil : SafeList [].
Proof. constructor. Qed.
#[export] Instance safe_list_cons r rs : Safe r -> SafeList rs -> SafeList (r :: rs).
Proof. by constructor. Qed.

#[export] Instance lr_sequence_safe rs : SafeList rs -> Safe (lrSequence rs).
Proof. intros H t. by apply lr_in_buffer, lr_parse_in_buffer. Qed.

#[export] Instance lr_sequence_safe_ne r rs :
  SafeNE r -> SafeList rs -> SafeNE (lrSequence (r :: rs)).
Proof.
  intros H1 H2 t Ht. apply lr_in_buffer, lr_parse_cons_in_buffer; [by apply H1|].
  intros t'. by apply lr_parse_in_buffer.
Qed.

(** ** Iteration *)

Lemma exit_rule_nul cs : length cs <= 9 -> exit_rule cs [] = true.
Proof.
  intros H. unfold exit_rule. apply existsb_exists. exists 0%Z. split; [|done].
  apply list_elem_of_In, list_elem_of_lookup. exists (length cs).
  rewrite lookup_take_lt by lia. rewrite lookup_app_r by lia.
  rewrite Nat.sub_diag. done.
Qed.

Lemma loop_iter_in_buffer r x fuel t :
  exit_rule x [] = true -> SafeNE r ->
  exists i n, loop_iter r x fuel t = Some (i, n) /\ n <= length t /\ i <= n.
Proof.
  intros Hx Hr. revert t. induction fuel as [|fuel IH]; intros t; simpl.
  { exists 0, 0. repeat split; lia. }
  destruct t as [|c t]; [rewrite Hx; exists 0, 0; repeat split; lia|].
  destruct (exit_rule x (c :: t)); [exists 0, 0; repeat split; lia|].
  destruct (Hr (c :: t)) as (n & -> & Hn); [done|]. simpl.
  destruct (n =? 0) eqn:E; [exists 0, 0; repeat split; lia|]. bools.
  destruct (IH (drop n (c :: t))) as (i & m & -> & Hm & Hi). simpl.
  rewrite length_drop in Hm. simpl in *. exists (S i), (n + m).
  repeat split; lia.
Qed.

Lemma loop_until_safe r x mn mx :
  exit_rule x [] = true -> SafeNE r -> Safe (ABNFLoopUntil r x mn mx).
Proof.
  intros Hx Hr t. unfold in_buffer; cbn [parse ABNFLoopUntil].
  destruct (deref t =? 0)%Z; [exists 0; split; [done|lia]|].
  destruct (loop_iter_in_buffer r x mx t Hx Hr) as (i & n & -> & Hn & _). simpl.
  destruct (i <? mn); [exists 0; split; [done|lia]|by exists n].
Qed.

#[export] Hint Extern 1 (Safe (ABNFLoopUntil _ _ _ _)) =>
  (apply loop_until_safe; [reflexivity|]) : typeclass_instances.

#[export] Hint Extern 9 (Safe _) => (progress unfold_rule) : typeclass_instances.
#[export] Hint Extern 9 (SafeNE _) => (progress unfold_rule) : typeclass_instances.
#[export] Hint Extern 9 (Consumes _) => (progress unfold_rule) : typeclass_instances.
#[export] Hint Extern 9 (CharClass _ _) => (progress unfold_rule) : typeclass_instances.

(** ** Loops over a character class *)

(** The exit test of a loop, on the current character. *)
Definition exit_char (cs : list Z) (c : Z) : bool :=
  existsb (Z.eqb c) (take 10 (cs ++ replicate 10 0%Z)).

Lemma exit_rule_char cs t : exit_rule cs t = exit_char cs (deref t).
Proof. done. Qed.

(** The class of characters a loop goes on through. *)
Definition loop_class (x : list Z) (p : Z -> bool) (c : Z) : bool := negb (exit_char x c) && p c.

Lemma loop_iter_span r p x fuel t :
  CharClass r p -> exit_char x 0 = true ->
  loop_iter r x fuel t = Some (span (loop_class x p) fuel t, span (loop_class x p) fuel t).
Proof.
  intros Hr Hx. revert t. induction fuel as [|fuel IH]; intros t; [done|]. simpl.
  rewrite exit_rule_char. destruct t as [|c t]; simpl; [by rewrite Hx|].
  rewrite Hr. unfold loop_class at 1 3.
  destruct (exit_char x (schar c)); simpl; [done|].
  destruct (p (schar c)); simpl; [|done]. by rewrite IH.
Qed.

(** [ABNFLoopUntil] over a character class is the longest run of the class, or
    nothing when that run is shorter than the minimum. *)
Lemma loop_until_span r p x mn mx t :
  CharClass r p -> exit_char x 0 = true ->
  parse (ABNFLoopUntil r x mn mx) t =
    Some (let k := span (loop_class x p) mx t in if k <? mn then 0 else k).
Proof.
  intros Hr Hx. cbn [parse ABNFLoopUntil].
  destruct (deref t =? 0)%Z eqn:E.
  - assert (span (loop_class x p) mx t = 0) as ->.
    { destruct t as [|c t], mx; simpl in *; try done. bools. rewrite E.
      unfold loop_class. by rewrite Hx. }
    by destruct (0 <? mn).
  - rewrite (loop_iter_span r p) by done. simpl. by destruct (_ <? mn).
Qed.

Lemma span_le p mx t : span p mx t <= mx /\ span p mx t <= length t.
Proof.
  revert t. induction mx as [|mx IH]; intros [|c t]; simpl; try lia.
  destruct (p (schar c)); [|lia]. specialize (IH t). lia.
Qed.

(** With a minimum of one, the minimum test changes nothing. *)
Lemma at_least_one k : (if k <? 1 then 0 else k) = k.
Proof. by destruct k. Qed.

Lemma span_ext p q mx t : (forall c, p (schar c) = q (schar c)) -> span p mx t = span q mx t.
Proof.
  intros H. revert t. induction mx as [|mx IH]; intros [|c t]; simpl; try done.
  rewrite H, IH. done.
Qed.

Lemma span_forall p mx t : Forall (fun c => p (schar c) = true) (take (span p mx t) t).
Proof.
  revert t. induction mx as [|mx IH]; intros [|c t]; simpl; try constructor.
  destruct (p (schar c)) eqn:E; simpl; constructor; auto.
Qed.

(** A run of the class that is followed by something outside it, or that fills
    the loop, is what the loop takes. *)
Lemma span_app p mx w rest :
  Forall (fun c => p (schar c) = true) w -> length w <= mx ->
  (length w = mx \/ match rest with [] => True | c :: _ => p (schar c) = false end) ->
  span p mx (w ++ rest) = length w.
Proof.
  intros Hw. revert mx. induction Hw as [|c w Hc _ IH]; intros mx Hl Hr; simpl.
  - destruct mx, rest; try done. simpl. destruct Hr as [| ->]; done.
  - destruct mx; [simpl in Hl; lia|]. simpl. rewrite Hc. f_equal. apply IH; simpl in *; [lia|].
    destruct Hr; [left; lia|by right].
Qed.

(** ** parseTokens against parse *)

Lemma lr_tokens_parse rs t :
  lr_parse rs t = option_map fst (lr_tokens rs t).
Proof.
  revert t. induction rs as [|r rs IH]; intros t; [done|]. simpl.
  destruct (parse r t) as [n|]; simpl; [|done].
  destruct ((n =? 0) && negb (isOptional r)); [done|].
  rewrite IH. by destruct (lr_tokens rs (drop n t)) as [[o toks]|].
Qed.

Lemma lr_tokens_concat rs t n toks :
  lr_tokens rs t = Some (Some n, toks) ->
  length toks = length rs /\ concat toks = take n t.
Proof.
  revert t n toks. induction rs as [|r rs IH]; intros t n toks; simpl.
  { intros [= <- <-]. done. }
  destruct (parse r t) as [k|]; simpl; [|done].
  destruct ((k =? 0) && negb (isOptional r)); [done|].
  destruct (lr_tokens rs (drop k t)) as [[[m|] toks']|] eqn:E; simpl; try done.
  intros [= <- <-]. apply IH in E as [<- E]. simpl. split; [done|].
  rewrite E. apply take_take_drop.
Qed.

Lemma loop_tokens_iter r x fuel t :
  loop_iter r x fuel t = option_map fst (loop_tokens r x fuel t).
Proof.
  revert t. induction fuel as [|fuel IH]; intros t; [done|]. simpl.
  destruct (exit_rule x t); [done|]. destruct (parse r t) as [n|]; simpl; [|done].
  destruct (n =? 0); [done|]. rewrite IH.
  by destruct (loop_tokens r x fuel (drop n t)) as [[[i m] toks]|].
Qed.

Lemma loop_tokens_concat r x fuel t i n toks :
  loop_tokens r x fuel t = Some (i, n, toks) ->
  length toks = i /\ concat toks = take n t.
Proof.
  revert t i n toks. induction fuel as [|fuel IH]; intros t i n toks; simpl.
  { intros [= <- <- <-]. done. }
  destruct (exit_rule x t); [intros [= <- <- <-]; done|].
  destruct (parse r t) as [k|]; simpl; [|done].
  destruct (k =? 0); [intros [= <- <- <-]; done|].
  destruct (loop_tokens r x fuel (drop k t)) as [[[j m] toks']|] eqn:E; simpl; [|done].
  intros [= <- <- <-]. apply IH in E as [<- E]. simpl. split; [done|].
  rewrite E. apply take_take_drop.
Qed.

(** ** Inversion of successful parses *)

(** Move a pointer over a known prefix. *)
Ltac drops := cbn [skipn]; rewrite ?drop_0, ?drop_app_length.
Ltac drops_in H := cbn [skipn] in H; rewrite ?drop_0, ?drop_app_length in H.

(** A C string without NUL inside. *)
Definition nul_free (t : str) : Prop := Forall (fun c => schar c <> 0%Z) t.

Lemma nul_free_deref t : nul_free t -> deref t = 0%Z -> t = [].
Proof. intros H. destruct H as [|c t Hc _]; [done|]. intros E. by destruct Hc. Qed.

Lemma nul_free_app s t : nul_free (s ++ t) <-> nul_free s /\ nul_free t.
Proof. apply Forall_app. Qed.

Lemma nul_free_drop n t : nul_free t -> nul_free (drop n t).
Proof. apply Forall_drop. Qed.

(** [ABNFEvaluate] on a C string: the rule consumes all of it. *)
Lemma evaluate_true r t :
  nul_free t -> ABNFEvaluate r t = Some true <->
  exists n, parse r t = Some n /\ length t <= n.
Proof.
  intros Hf. unfold ABNFEvaluate. split.
  - destruct (parse r t) as [n|]; simpl; [|done]. intros [= E]. apply Z.eqb_eq in E.
    apply nul_free_deref in E; [|by apply nul_free_drop].
    exists n. split; [done|]. apply (f_equal length) in E. rewrite length_drop in E. simpl in E. lia.
  - intros (n & -> & Hn). simpl. by rewrite drop_ge by lia.
Qed.

Lemma lr_sequence_success rs t n :
  parse (lrSequence rs) t = Some n -> n <> 0 -> lr_parse rs t = Some (Some n).
Proof.
  simpl. destruct (lr_parse rs t) as [[m|]|]; simpl; try done; intros [= ->]; done.
Qed.

Lemma lr_parse_cons_inv r rs t n :
  lr_parse (r :: rs) t = Some (Some n) ->
  exists k m, parse r t = Some k /\ (k = 0 -> isOptional r = true) /\
    lr_parse rs (drop k t) = Some (Some m) /\ n = k + m.
Proof.
  simpl. destruct (parse r t) as [k|]; simpl; [|done].
  destruct ((k =? 0) && negb (isOptional r)) eqn:E; [done|].
  destruct (lr_parse rs (drop k t)) as [[m|]|] eqn:Em; simpl; try done. intros [= <-].
  exists k, m. split; [done|]. split; [|by split]. intros ->. simpl in E.
  by apply negb_false_iff in E.
Qed.

(** A sequence element that is not optional consumed something. *)
Lemma lr_parse_cons_inv_req r rs t n :
  lr_parse (r :: rs) t = Some (Some n) -> isOptional r = false ->
  exists k m, parse r t = Some k /\ k <> 0 /\ lr_parse rs (drop k t) = Some (Some m) /\
    n = k + m.
Proof.
  intros H Ho. apply lr_parse_cons_inv in H as (k & m & ? & Hk & ? & ?).
  exists k, m. repeat split; try done. intros ->. rewrite Hk in Ho; done.
Qed.

(** The converse: how a sequence succeeds. *)
Lemma lr_parse_cons r rs t k m :
  parse r t = Some k -> (k = 0 -> isOptional r = true) ->
  lr_parse rs (drop k t) = Some (Some m) -> lr_parse (r :: rs) t = Some (Some (k + m)).
Proof.
  intros Hp Ho Hr. simpl. rewrite Hp. simpl. rewrite Hr. simpl.
  destruct k; simpl; [by rewrite Ho|done].
Qed.

Lemma char_class_pos r p t n :
  CharClass r p -> parse r t = Some n -> n <> 0 ->
  exists c t', t = c :: t' /\ p (schar c) = true /\ n = 1.
Proof.
  intros H. rewrite H. destruct t as [|c t]; [by intros [= <-]|].
  intros [= <-]. destruct (p (schar c)) eqn:E; [|done]. by exists c, t.
Qed.

Lemma char_class_here r p c t : CharClass r p -> p (schar c) = true -> parse r (c :: t) = Some 1.
Proof. intros H Hp. rewrite H. by rewrite Hp. Qed.

(** The loop swallows the whole string exactly when every character is of the
    class and there are not too many. *)
Lemma span_full p mx t :
  length t <= span p mx t <-> Forall (fun c => p (schar c) = true) t /\ length t <= mx.
Proof.
  split.
  - intros H. pose proof (span_le p mx t). pose proof (span_forall p mx t) as Hf.
    rewrite take_ge in Hf by lia. split; [done|lia].
  - intros [Hf Hl]. rewrite <- (app_nil_r t) at 2. rewrite span_app; [done|done|done|by right].
Qed.

(** What a loop with a minimum of one found. *)
Lemma span_split p mx t : span p mx t <> 0 ->
  exists w rest, t = w ++ rest /\ Forall (fun c => p (schar c) = true) w /\
    length w = span p mx t /\ 1 <= length w <= mx.
Proof.
  intros H. pose proof (span_le p mx t). exists (take (span p mx t) t), (drop (span p mx t) t).
  rewrite take_drop, length_take. repeat split; [apply span_forall|lia..].
Qed.

(** ** String literals *)

(** The literal is a prefix of the text, character by character. *)
Fixpoint literal_match (same : Z -> Z -> bool) (cs : list Z) (t : str) : bool :=
  match cs, t with
  | [], _ => true
  | v :: cs, c :: t => negb (schar c =? 0)%Z && same (schar c) v && literal_match same cs t
  | _ :: _, [] => false
  end.

Lemma literal_loop_match same cs k t off :
  cs <> [] -> Forall (fun v => v <> 0%Z) cs ->
  literal_loop same (cs ++ replicate k 0%Z) t off =
    Some (if literal_match same cs t then off + length cs else 0).
Proof.
  intros Hne Hcs. revert t off. induction Hcs as [|v cs Hv Hcs IH]; intros t off; [done|].
  simpl. destruct t as [|c t]; simpl; [done|].
  destruct (schar c =? 0)%Z; simpl; [done|]. destruct (same (schar c) v); simpl; [|done].
  destruct cs as [|v' cs].
  - assert (hd 0%Z (replicate k 0%Z) = 0%Z) as E by (by destruct k). simpl. rewrite E. simpl.
    f_equal. lia.
  - inversion Hcs; subst. cbn [hd app]. destruct (v' =? 0)%Z eqn:E; [bools; done|].
    change (v' :: cs ++ replicate k 0%Z) with ((v' :: cs) ++ replicate k 0%Z).
    rewrite IH by done. destruct (literal_match same (v' :: cs) t); [|done].
    f_equal. simpl. lia.
Qed.

Lemma value50_eq cs : length cs <= 50 -> value50 cs = cs ++ replicate (50 - length cs) 0%Z.
Proof.
  intros H. unfold value50. rewrite take_app, take_ge by done. f_equal.
  rewrite take_replicate. f_equal. lia.
Qed.

Lemma string_literal_parse cs t :
  cs <> [] -> Forall (fun v => v <> 0%Z) cs -> length cs <= 50 ->
  parse (ABNFStringLiteral cs) t =
    Some (if literal_match same_caseless cs t then length cs else 0).
Proof.
  intros H1 H2 H3. cbn [parse ABNFStringLiteral]. rewrite value50_eq by done.
  by rewrite literal_loop_match.
Qed.

Lemma strict_string_literal_parse cs t :
  cs <> [] -> Forall (fun v => v <> 0%Z) cs -> length cs <= 50 ->
  parse (ABNFStrictStringLiteral cs) t =
    Some (if literal_match Z.eqb cs t then length cs else 0).
Proof.
  intros H1 H2 H3. cbn [parse ABNFStrictStringLiteral]. rewrite value50_eq by done.
  by rewrite literal_loop_match.
Qed.

(** ** What a rule can consume

    [Within P r]: every character [r] steps over satisfies [P]. *)
Class Within (P : ascii -> bool) (r : rule) : Prop :=
  within : forall t n, parse r t = Some n -> Forall (fun c => P c = true) (take n t).

Class WithinList (P : ascii -> bool) (rs : list rule) : Prop := within_list : Forall (Within P) rs.

Section within.
Context (P : ascii -> bool).

Lemma char_class_within r p :
  CharClass r p -> forallb (fun c => implb (p (schar c)) (P c)) all_ascii = true -> Within P r.
Proof.
  intros Hr Hp t n. rewrite Hr. destruct t as [|c t]; intros [= <-]; [constructor|].
  destruct (p (schar c)) eqn:E; simpl; [|constructor]. constructor; [|constructor].
  by apply (ascii_pred_impl _ _ Hp).
Qed.

Lemma charRule_within p :
  forallb (fun c => implb (p (schar c)) (P c)) all_ascii = true -> Within P (charRule p).
Proof.
  intros Hp t n. simpl. destruct (p (deref t)) eqn:E; [|by intros [= <-]; constructor].
  destruct t as [|c t]; simpl; [done|]. intros [= <-]. simpl. constructor; [|constructor].
  by apply (ascii_pred_impl _ _ Hp).
Qed.

Lemma literal_match_within same cs t :
  forallb (fun v => forallb (fun c => implb (same (schar c) v) (P c)) all_ascii) cs = true ->
  literal_match same cs t = true -> Forall (fun c => P c = true) (take (length cs) t).
Proof.
  revert t. induction cs as [|v cs IH]; intros t Hc Hm; [constructor|].
  destruct t as [|c t]; [constructor|]. cbn [literal_match forallb] in *. bools.
  cbn [length take]. constructor; [|by apply IH].
  by apply (ascii_pred_impl (fun c => same (schar c) v) P).
Qed.

Lemma string_literal_within cs :
  cs <> [] -> forallb (fun v => negb (v =? 0)%Z) cs = true -> length cs <= 50 ->
  forallb (fun v => forallb (fun c => implb (same_caseless (schar c) v) (P c)) all_ascii) cs
    = true ->
  Within P (ABNFStringLiteral cs).
Proof.
  intros H1 H2 H3 H4 t n. rewrite string_literal_parse; [|done| |done].
  - intros [= <-]. destruct (literal_match _ cs t) eqn:E; [|constructor].
    by apply (literal_match_within same_caseless).
  - rewrite forallb_forall in H2. apply List.Forall_forall. intros v Hv.
    specialize (H2 v Hv). by bools.
Qed.

Lemma strict_string_literal_within cs :
  cs <> [] -> forallb (fun v => negb (v =? 0)%Z) cs = true -> length cs <= 50 ->
  forallb (fun v => forallb (fun c => implb (schar c =? v)%Z (P c)) all_ascii) cs = true ->
  Within P (ABNFStrictStringLiteral cs).
Proof.
  intros H1 H2 H3 H4 t n. rewrite strict_string_literal_parse; [|done| |done].
  - intros [= <-]. destruct (literal_match _ cs t) eqn:E; [|constructor].
    by apply (literal_match_within Z.eqb).
  - rewrite forallb_forall in H2. apply List.Forall_forall. intros v Hv.
    specialize (H2 v Hv). by bools.
Qed.

#[local] Lemma take_add_within t n m :
  Forall (fun c => P c = true) (take n t) -> Forall (fun c => P c = true) (take m (drop n t)) ->
  Forall (fun c => P c = true) (take (n + m) t).
Proof. intros H1 H2. rewrite <- take_take_drop. by apply Forall_app. Qed.

#[export] Instance forwards_within r : Within P r -> Within P (forwards r).
Proof. intros H t. apply (H t). Qed.

#[export] Instance optional_within r : Within P r -> Within P (ABNFLROptional r).
Proof.
  intros H t n. simpl. destruct (deref t =? 0)%Z; [intros [= <-]; constructor|apply H].
Qed.

#[export] Instance any_of_within r0 r1 : Within P r0 -> Within P r1 -> Within P (ABNFAnyOf r0 r1).
Proof.
  intros H0 H1 t n. simpl. destruct (deref t =? 0)%Z; [intros [= <-]; constructor|].
  destruct (parse r0 t) as [k|] eqn:E0; simpl; [|done].
  destruct (k =? 0); simpl; [|intros [= <-]; by apply H0].
  destruct (parse r1 t) as [m|] eqn:E1; simpl; [|done].
  destruct (m =? 0); simpl; intros [= <-]; [constructor|by apply H1].
Qed.

#[export] Instance within_list_nil : WithinList P [].
Proof. constructor. Qed.
#[export] Instance within_list_cons r rs : Within P r -> WithinList P rs -> WithinList P (r :: rs).
Proof. by constructor. Qed.

#[export] Instance any_of_multiple_within rs : WithinList P rs -> Within P (anyOfMultiple rs).
Proof.
  intros H t n. simpl. induction H as [|r rs Hr _ IH]; simpl; [intros [= <-]; constructor|].
  destruct (isNull r); [intros [= <-]; constructor|].
  destruct (parse r t) as [k|] eqn:E; simpl; [|done].
  destruct (k =? 0); simpl; [done|]. intros [= <-]. by apply Hr.
Qed.

Lemma lr_parse_within rs t n :
  WithinList P rs -> lr_parse rs t = Some (Some n) -> Forall (fun c => P c = true) (take n t).
Proof.
  intros H. revert t n. induction H as [|r rs Hr _ IH]; intros t n.
  { intros [= <-]. constructor. }
  intros Hp. apply lr_parse_cons_inv in Hp as (k & m & Hk & _ & Hm & ->).
  apply take_add_within; [by apply Hr|by apply IH].
Qed.

#[export] Instance lr_sequence_within rs : WithinList P rs -> Within P (lrSequence rs).
Proof.
  intros H t n Hp. destruct n as [|n]; [constructor|].
  apply lr_sequence_success in Hp; [|done]. by apply (lr_parse_within rs).
Qed.

#[export] Instance loop_until_within r x mn mx : Within P r -> Within P (ABNFLoopUntil r x mn mx).
Proof.
  intros H t n. cbn [parse ABNFLoopUntil].
  destruct (deref t =? 0)%Z; [intros [= <-]; constructor|].
  destruct (loop_iter r x mx t) as [[i m]|] eqn:E; simpl; [|done].
  destruct (i <? mn); intros [= <-]; [constructor|]. revert t i m E.
  induction mx as [|mx IH]; intros t i m; simpl; [intros [= <- <-]; constructor|].
  destruct (exit_rule x t); [intros [= <- <-]; constructor|].
  destruct (parse r t) as [k|] eqn:Ek; simpl; [|done].
  destruct (k =? 0); [intros [= <- <-]; constructor|].
  destruct (loop_iter r x mx (drop k t)) as [[j l]|] eqn:El; simpl; [|done].
  intros [= <- <-]. apply take_add_within; [by apply H|by apply (IH _ j)].
Qed.
End within.

#[export] Hint Extern 0 (Within _ (charRule _)) =>
  (apply charRule_within; vm_compute; reflexivity) : typeclass_instances.
#[export] Hint Extern 0 (Within _ (ABNFAnyOfChars _)) =>
  (eapply char_class_within; [apply _|vm_compute; reflexivity]) : typeclass_instances.
#[export] Hint Extern 0 (Within _ (ABNFStringLiteral _)) =>
  (apply string_literal_within; [discriminate|vm_compute; reflexivity|vm_compute; lia|
    vm_compute; reflexivity]) : typeclass_instances.
#[export] Hint Extern 0 (Within _ (ABNFStrictStringLiteral _)) =>
  (apply strict_string_literal_within; [discriminate|vm_compute; reflexivity|vm_compute; lia|
    vm_compute; reflexivity]) : typeclass_instances.
#[export] Hint Extern 9 (Within _ ?r) =>
  (let h := head_of r in progress unfold h) : typeclass_instances.

#[global] Arguments span : simpl never.

(** [ABNFCharComparison] succeeds on its character only. *)
Lemma comparison_pos v t n :
  parse (ABNFCharComparison (schar v)) t = Some n -> n <> 0 ->
  exists t', t = v :: t' /\ n = 1.
Proof.
  simpl. destruct (deref t =? schar v)%Z eqn:E; [|by intros [= <-]].
  destruct t as [|c t]; simpl; [done|]. intros [= <-] _. simpl in E. bools.
  apply schar_inj in E as ->. by exists t.
Qed.

#[global] Arguments lr_parse : simpl never.
#[global] Arguments loop_iter : simpl never.
#[global] Arguments literal_loop : simpl never.

(** The defining equations, for stepwise rewriting. *)
Lemma loop_iter_S r x fuel t :
  loop_iter r x (S fuel) t =
    if exit_char x (deref t) then Some (0, 0)
    else
      n ← parse r t;
      if n =? 0 then Some (0, 0)
      else '(i, m) ← loop_iter r x fuel (drop n t); Some (S i, n + m).
Proof. rewrite <- exit_rule_char. reflexivity. Qed.

Lemma lr_parse_eq r rs t :
  lr_parse (r :: rs) t =
    n ← parse r t;
    if (n =? 0) && negb (isOptional r) then Some None
    else o ← lr_parse rs (drop n t); Some (option_map (Nat.add n) o).
Proof. reflexivity. Qed.

Lemma lr_sequence_parse rs t : parse (lrSequence rs) t = option_map (default 0) (lr_parse rs t).
Proof. reflexivity. Qed.
