(* ===== verification/AbnfSearch.v ===== *)
(** * Searching with rules and strings

    Models ABNFWhileNot.h, ABNFFindMatch.h, [findNextIterFromRule] of
    ABNFBaseRule.h and [findNextIterFromString], [findLastIterFromString] of
    src/abnf/ABNFParser.cpp: the primitives with which the header parsers of
    src/sipparser locate brackets, parameters and list separators. *)

From S2P Require Import Prelude Abnf AbnfFacts.
Open Scope nat_scope.

(** ** ABNFWhileNot<Rule, consumeRule> *)

(** The inner [while]: apply the rule until it stops consuming. *)
Fixpoint consume_loop (r : rule) (fuel : nat) (t : str) : option nat :=
  match fuel with
  | 0 => None
  | S fuel =>
      n ← parse r t;
      if n =? 0 then Some 0
      else
        m ← consume_loop r fuel (drop n t);
        Some (n + m)
  end.

(** The outer [while], at distance [off] from the start; [t] is not at the end.
    The inner loop has one iteration more than there are characters. *)
Fixpoint while_not (r : rule) (consumeRule : bool) (t : str) (off : nat) : option nat :=
  match t with
  | [] => None
  | _ :: t' =>
      n ← parse r t;
      if n =? 0 then
        if (deref t' =? 0)%Z then Some 0 else while_not r consumeRule t' (S off)
      else if consumeRule then
        m ← consume_loop r (S (length t)) t;
        Some (off + m)
      else Some off
  end.

Definition ABNFWhileNot (r : rule) (consumeRule : bool) : rule :=
  Rule (fun t => if (deref t =? 0)%Z then Some 0 else while_not r consumeRule t 0) false false.

(** [findNextIterFromRule<Rule>]: as ABNFWhileNot with [consumeRule], without
    the test for an empty string. *)
Definition findNextIterFromRule (r : rule) (t : str) : option nat := while_not r true t 0.

(** ** ABNFFindMatch and ABNFStrictFindMatch *)

(** The scanning loop: [i] indexes [_value]; after a mismatch [i] is set to 0
    and then incremented by the [for]. *)
Fixpoint find_match_loop (same : Z -> Z -> bool) (value : list Z) (i : nat) (t : str) (off : nat)
    : nat :=
  match t with
  | [] => 0
  | c :: t =>
      if (schar c =? 0)%Z then 0
      else if 50 <=? i then 0
      else if same (schar c) (nth i value 0%Z) then
        if (S i <? 50) && negb (nth (S i) value 0 =? 0)%Z
        then find_match_loop same value (S i) t (S off)
        else S off
      else find_match_loop same value 1 t (S off)
  end.

Definition ABNFFindMatch (cs : list Z) : rule :=
  Rule (fun t => Some (find_match_loop same_caseless (value50 cs) 0 t 0)) false false.
Definition ABNFStrictFindMatch (cs : list Z) : rule :=
  Rule (fun t => Some (find_match_loop Z.eqb (value50 cs) 0 t 0)) false false.

(** ** findNextIterFromString *)

(** [char c_ = c <= 90 ? c + 32 : c - 32]. *)
Definition flip_case (c : Z) : Z := (if c <=? 90 then c + 32 else c - 32)%Z.
Definition same_flip (c v : Z) : bool := ((c =? v) || (flip_case c =? v))%Z.

(** [needle[i]], with the NUL that [std::string] keeps at the end. *)
Definition at_needle (needle : str) (i : nat) : Z := deref (drop i needle).

Fixpoint find_next_loop (needle : str) (i : nat) (t : str) (off : nat) : nat :=
  match t with
  | [] => 0
  | c :: t =>
      if (schar c =? 0)%Z then 0
      else if same_flip (schar c) (at_needle needle i) then
        if negb (at_needle needle (S i) =? 0)%Z
        then find_next_loop needle (S i) t (S off)
        else S off
      else find_next_loop needle 0 t (S off)
  end.

Definition findNextIterFromString (needle : str) (hayStack : str) : nat :=
  if length needle =? 0 then 0 else find_next_loop needle 0 hayStack 0.

(** ** findLastIterFromString *)

(** The backward scan: [pos] is the distance of [t] from the start of the
    haystack, [i] the needle index, both at the top of an iteration. *)
Fixpoint find_last_loop (needle hay : str) (i pos : nat) : nat :=
  match pos with
  | 0 => 0
  | S pos' =>
      if (deref (drop pos hay) =? at_needle needle i)%Z then
        match i with
        | 0 => pos + length needle
        | S i' => find_last_loop needle hay i' pos'
        end
      else find_last_loop needle hay (length needle - 1) pos'
  end.

(** [strlen]. *)
Fixpoint strlen (t : str) : nat :=
  match t with
  | [] => 0
  | c :: t => if (schar c =? 0)%Z then 0 else S (strlen t)
  end.

Definition findLastIterFromString (needle hayStack : str) : nat :=
  if length needle =? 0 then 0
  else find_last_loop needle hayStack (length needle - 1) (strlen hayStack).

#[global] Typeclasses Opaque ABNFWhileNot ABNFFindMatch ABNFStrictFindMatch.

(** ** ABNFWhileNot finds the first match *)

(** The rule does not match at the head of [t]. *)
Definition no_match (r : rule) (t : str) : Prop := parse r t = Some 0.

Lemma consume_loop_total r fuel t :
  Safe r -> length t < fuel -> exists n, consume_loop r fuel t = Some n /\ n <= length t.
Proof.
  intros Hr. revert t. induction fuel as [|fuel IH]; intros t Hf; [lia|]. simpl.
  destruct (Hr t) as (n & -> & Hn). simpl.
  destruct (n =? 0) eqn:E; [exists 0; split; [done|lia]|]. bools.
  destruct (IH (drop n t)) as (m & -> & Hm); [rewrite length_drop; lia|].
  simpl. rewrite length_drop in Hm. exists (n + m). split; [done|lia].
Qed.

#[export] Instance while_not_safe r b : Safe r -> Safe (ABNFWhileNot r b).
Proof.
  intros Hr t. unfold in_buffer. cbn [parse ABNFWhileNot].
  destruct (deref t =? 0)%Z eqn:E; [exists 0; split; [done|lia]|].
  assert (forall t off, (deref t =? 0)%Z = false ->
    exists n, while_not r b t off = Some n /\ n <= off + length t) as H; [|by apply (H t 0)].
  clear t E. induction t as [|c t IH]; intros off E; [done|]. cbn [while_not].
  destruct (Hr (c :: t)) as (n & -> & Hn). simpl.
  destruct (n =? 0).
  - destruct (deref t =? 0)%Z eqn:Et; [exists 0; split; [done|lia]|].
    destruct (IH (S off) eq_refl) as (m & -> & Hm). exists m. split; [done|]. simpl. lia.
  - destruct b; [|exists off; split; [done|lia]].
    destruct (consume_loop_total r (S (length (c :: t))) (c :: t)) as (m & Hm & Hl); [done|lia|].
    simpl in Hm. rewrite Hm. simpl. exists (off + m). split; [done|]. simpl in *. lia.
Qed.

Lemma while_not_spec r t off :
  Safe r -> nul_free t -> t <> [] ->
  exists k, while_not r false t off = Some k /\
  ((exists i, k = off + i /\ i < length t /\ (forall j, j < i -> no_match r (drop j t)) /\
      ~ no_match r (drop i t)) \/
   (k = 0 /\ forall j, j < length t -> no_match r (drop j t))).
Proof.
  intros Hr Hf. revert off. induction Hf as [|c t Hc Hf IH]; intros off Hne; [done|].
  cbn [while_not]. destruct (Hr (c :: t)) as (n & Hn & _). rewrite Hn. simpl.
  destruct (n =? 0) eqn:E; bools.
  2:{ exists off. split; [done|]. left. exists 0. repeat split; [lia|simpl; lia|lia|].
      unfold no_match. rewrite drop_0, Hn. congruence. }
  subst n. destruct (deref t =? 0)%Z eqn:Et; bools.
  - apply nul_free_deref in Et as ->; [|done]. exists 0. split; [done|]. right. split; [done|].
    intros [|j] Hj; [done|]. simpl in Hj. lia.
  - destruct (IH (S off)) as (k & -> & Hk); [by intros ->|]. exists k. split; [done|].
    destruct Hk as [(i & -> & Hi & Hbefore & Hat) | [-> Hnone]]; [left|right].
    + exists (S i). split; [lia|]. split; [simpl; lia|]. split; [|done].
      intros [|j] Hj; [done|]. apply Hbefore. lia.
    + split; [done|]. intros [|j] Hj; [done|]. apply Hnone. simpl in Hj. lia.
Qed.

(** [ABNFWhileNot<Rule>] without [consumeRule] returns the offset of the
    first position at which the rule matches, or 0 when it matches nowhere: the
    scan terminates, never leaves the string and skips no match. *)
Theorem while_not_first r t :
  Safe r -> nul_free t -> t <> [] ->
  exists k, parse (ABNFWhileNot r false) t = Some k /\ k < length t /\
    (forall j, j < k -> no_match r (drop j t)) /\
    (no_match r (drop k t) -> k = 0 /\ forall j, j < length t -> no_match r (drop j t)).
Proof.
  intros Hr Hf Hne. cbn [parse ABNFWhileNot].
  destruct (deref t =? 0)%Z eqn:E; bools; [by apply nul_free_deref in E|].
  destruct (while_not_spec r t 0 Hr Hf Hne) as (k & -> & Hk). exists k. split; [done|].
  destruct Hk as [(i & -> & Hi & Hb & Ha) | [-> Hn]].
  - simpl. split; [done|]. split; [done|]. done.
  - assert (0 < length t) by (destruct t; simpl; [done|lia]).
    split; [done|]. split; [lia|]. done.
Qed.

Lemma while_not_first_witness :
  exists k, parse (ABNFWhileNot (ABNFCharComparison (schar "@")) false) (# "bob@host") = Some k /\
    k < 8 /\ k = 3.
Proof.
  destruct (while_not_first (ABNFCharComparison (schar "@")) (# "bob@host"))
    as (k & Hk & Hl & _); [apply _|repeat constructor; done|done|].
  exists k. split; [exact Hk|]. split; [exact Hl|].
  vm_compute in Hk. congruence.
Defined.

(** ** findNextIterFromString *)

(** [w] is an occurrence of [needle] up to [same_flip]. *)
Definition occurs (w needle : str) : Prop :=
  Forall2 (fun c v => same_flip (schar c) (schar v) = true) w needle.

Lemma at_needle_cons needle i v :
  needle !! i = Some v -> at_needle needle i = schar v.
Proof. intros H. unfold at_needle. by rewrite (drop_S _ _ _ H). Qed.

(** Invariant of the scan: the [i] characters before the cursor match the
    first [i] of the needle. *)
Lemma find_next_loop_sound needle i t off pre w :
  nul_free needle -> i < length needle ->
  off = length pre + length w -> occurs w (take i needle) ->
  find_next_loop needle i t off <> 0 ->
  exists pre' w' rest, pre ++ w ++ t = pre' ++ w' ++ rest /\ occurs w' needle /\
    find_next_loop needle i t off = length pre' + length w'.
Proof.
  intros Hn. revert i off pre w. induction t as [|c t IH]; intros i off pre w Hi -> Hw; [done|].
  cbn [find_next_loop]. destruct (schar c =? 0)%Z; [done|].
  destruct (lookup_lt_is_Some_2 needle i Hi) as [v Hv].
  rewrite (at_needle_cons _ _ _ Hv). destruct (same_flip (schar c) (schar v)) eqn:Es.
  - assert (occurs (w ++ [c]) (take (S i) needle)) as Hw'.
    { rewrite (take_S_r _ _ _ Hv). apply Forall2_app; [done|by constructor]. }
    destruct (at_needle needle (S i) =? 0)%Z eqn:Ea; simpl; bools.
    + intros _. exists pre, (w ++ [c]), t. rewrite <- !app_assoc. split; [done|].
      split; [|rewrite length_app; simpl; lia].
      apply nul_free_deref in Ea; [|by apply nul_free_drop].
      apply (f_equal length) in Ea. rewrite length_drop in Ea. simpl in Ea.
      rewrite take_ge in Hw' by lia. done.
    + intros Hr. assert (S i < length needle).
      { destruct (decide (S i < length needle)); [done|]. unfold at_needle in Ea.
        rewrite drop_ge in Ea by lia. done. }
      destruct (IH (S i) (S (length pre + length w)) pre (w ++ [c])) as (p & u & s & E & Ho & Hl);
        [done|rewrite length_app; simpl; lia|done|done|].
      exists p, u, s. rewrite <- E, <- !app_assoc. done.
  - intros Hr. destruct (IH 0 (S (length pre + length w)) (pre ++ w ++ [c]) [])
      as (p & u & s & E & Ho & Hl); [lia|rewrite !length_app; simpl; lia|constructor|done|].
    exists p, u, s. rewrite <- E. simpl. rewrite <- !app_assoc. done.
Qed.

Lemma find_next_loop_match needle i w t off :
  nul_free needle -> nul_free w -> i < length needle -> occurs w (drop i needle) ->
  find_next_loop needle i (w ++ t) off = off + length w.
Proof.
  intros Hn Hw. revert i off. induction Hw as [|c w Hc Hw IH]; intros i off Hi Ho.
  - apply Forall2_nil_inv_l in Ho. apply (f_equal length) in Ho. rewrite length_drop in Ho.
    simpl in Ho. lia.
  - destruct (lookup_lt_is_Some_2 needle i Hi) as [v Hv]. rewrite (drop_S _ _ _ Hv) in Ho.
    apply Forall2_cons in Ho as [Hs Ho]. simpl.
    destruct (schar c =? 0)%Z eqn:E; bools; [done|].
    rewrite (at_needle_cons _ _ _ Hv), Hs.
    destruct (at_needle needle (S i) =? 0)%Z eqn:Ea; simpl; bools.
    + apply nul_free_deref in Ea; [|by apply nul_free_drop]. rewrite Ea in Ho.
      apply Forall2_nil_inv_r in Ho as ->. simpl. lia.
    + rewrite IH; [lia| |done]. destruct (decide (S i < length needle)); [done|].
      unfold at_needle in Ea. rewrite drop_ge in Ea by lia. done.
Qed.

(** The scan passes over characters that do not begin the needle. *)
Lemma find_next_loop_skip needle pre t off :
  Forall (fun c => same_flip (schar c) (at_needle needle 0) = false) pre -> nul_free pre ->
  find_next_loop needle 0 (pre ++ t) off = find_next_loop needle 0 t (off + length pre).
Proof.
  intros Hp Hf. revert off. induction Hp as [|c pre Hc Hp IH]; intros off; simpl; [f_equal; lia|].
  apply Forall_cons in Hf as [Hz Hf].
  destruct (schar c =? 0)%Z eqn:E; bools; [done|]. rewrite Hc, IH by done. f_equal. lia.
Qed.

Lemma find_next_loop_gt needle i t off :
  find_next_loop needle i t off <> 0 -> off < find_next_loop needle i t off.
Proof.
  revert i off. induction t as [|c t IH]; intros i off; simpl; [done|].
  destruct (schar c =? 0)%Z; [done|]. destruct (same_flip _ _); [destruct (negb _)|].
  - intros H. specialize (IH _ _ H). lia.
  - lia.
  - intros H. specialize (IH _ _ H). lia.
Qed.

(** What lies behind the occurrence does not matter. *)
Lemma find_next_loop_prefix needle i t off x :
  find_next_loop needle i t off <> 0 ->
  find_next_loop needle i (take (find_next_loop needle i t off - off) t ++ x) off =
    find_next_loop needle i t off.
Proof.
  revert i off. induction t as [|c t IH]; intros i off; simpl; [done|].
  destruct (schar c =? 0)%Z eqn:E0; [done|]. destruct (same_flip _ _) eqn:Es; [destruct (negb _) eqn:En|].
  - intros H. pose proof (find_next_loop_gt _ _ _ _ H). specialize (IH _ _ H).
    destruct (find_next_loop needle (S i) t (S off) - off) as [|k] eqn:Ek; [lia|]. simpl.
    rewrite E0, Es, En.
    by replace k with (find_next_loop needle (S i) t (S off) - S off) by lia.
  - intros _. replace (S off - off) with 1 by lia. simpl. by rewrite E0, Es, En.
  - intros H. pose proof (find_next_loop_gt _ _ _ _ H). specialize (IH _ _ H).
    destruct (find_next_loop needle 0 t (S off) - off) as [|k] eqn:Ek; [lia|]. simpl.
    rewrite E0, Es.
    by replace k with (find_next_loop needle 0 t (S off) - S off) by lia.
Qed.

(** A text without the needle, then a character that is in no part of it: the
    search starts again behind it. *)
Lemma find_next_loop_absent needle i t off c x :
  nul_free t -> schar c <> 0%Z -> (forall j, same_flip (schar c) (at_needle needle j) = false) ->
  find_next_loop needle i t off = 0 ->
  find_next_loop needle i (t ++ c :: x) off = find_next_loop needle 0 x (S (off + length t)).
Proof.
  intros Hf Hc Hm. revert i off. induction Hf as [|d t Hd Hf IH]; intros i off; simpl.
  - intros _. destruct (schar c =? 0)%Z eqn:E; bools; [done|]. rewrite Hm. f_equal. lia.
  - destruct (schar d =? 0)%Z eqn:E; bools; [done|]. destruct (same_flip _ _); [destruct (negb _)|].
    + intros H. rewrite IH by done. f_equal. lia.
    + done.
    + intros H. rewrite IH by done. f_equal. lia.
Qed.

(** A non-zero result of [findNextIterFromString] is the offset just behind
    an occurrence of the needle, and an occurrence that is preceded by no
    character like the needle's first is always found (characters compare up
    to the +/-32 folding of [same_flip]). *)
Theorem find_next_correct needle hay :
  nul_free needle -> needle <> [] ->
  (findNextIterFromString needle hay <> 0 ->
   exists pre w rest, hay = pre ++ w ++ rest /\ occurs w needle /\
     findNextIterFromString needle hay = length pre + length w) /\
  (forall pre w rest, hay = pre ++ w ++ rest -> occurs w needle -> nul_free (pre ++ w) ->
     Forall (fun c => same_flip (schar c) (at_needle needle 0) = false) pre ->
     findNextIterFromString needle hay = length pre + length w).
Proof.
  intros Hn Hne. assert (0 < length needle) by (destruct needle; simpl; [done|lia]).
  unfold findNextIterFromString. destruct (length needle =? 0) eqn:E; bools; [lia|].
  split.
  - intros Hr. apply (find_next_loop_sound needle 0 hay 0 [] []); by try constructor.
  - intros pre w rest -> Ho [Hp Hw]%nul_free_app Hskip.
    rewrite find_next_loop_skip by done. rewrite find_next_loop_match; [lia|done..|].
    by rewrite drop_0.
Qed.

Lemma find_next_correct_witness :
  nul_free (# ";tag=") /\
  findNextIterFromString (# ";tag=") (# "<sip:bob@h>;tag=12") = length (# "<sip:bob@h>") + 5.
Proof.
  assert (nul_free (# ";tag=")) as Hn by (repeat constructor; done). split; [done|].
  apply (proj2 (find_next_correct (# ";tag=") (# "<sip:bob@h>;tag=12") Hn ltac:(done))
           (# "<sip:bob@h>") (# ";tag=") (# "12")); [done|..].
  - repeat constructor.
  - repeat constructor; done.
  - repeat constructor.
Defined.

(** Two ways in which [findNextIterFromString] misses its purpose: the
    folding, applied to characters that are no letters, lets the needle [";"]
    match the bracket that opens an IPv6 host; and the scan does not look again
    at the character that broke a partial match, so [";tag="] is not found
    behind a doubled semicolon. *)
Theorem find_next_misses :
  findNextIterFromString (# ";") (# "SIP/2.0/UDP [2001:db8::9]:5060;branch=z9hG4bK") = 13 /\
  findNextIterFromString (# ";tag=") (# "<sip:bob@h>;;tag=12") = 0.
Proof. split; reflexivity. Qed.

(** ** findLastIterFromString *)

Lemma drop_lookup_deref (t : str) i c : t !! i = Some c -> deref (drop i t) = schar c.
Proof. intros H. by rewrite (drop_S _ _ _ H). Qed.

Lemma find_last_loop_char c hay pos :
  find_last_loop [c] hay 0 pos = 0 /\
    (forall i, 0 < i -> i <= pos -> deref (drop i hay) <> schar c) \/
  exists i, 0 < i <= pos /\ deref (drop i hay) = schar c /\
    (forall j, i < j -> j <= pos -> deref (drop j hay) <> schar c) /\
    find_last_loop [c] hay 0 pos = S i.
Proof.
  induction pos as [|pos IH]; [left; split; [done|lia]|]. cbn [find_last_loop].
  change (at_needle [c] 0) with (schar c). change (length [c] - 1) with 0.
  destruct (deref (drop (S pos) hay) =? schar c)%Z eqn:E; bools.
  - right. exists (S pos). split; [lia|]. split; [done|]. split; [lia|]. simpl; lia.
  - destruct IH as [[H0 H] | (i & Hi & Hd & Hj & H)]; [left|right].
    + split; [done|]. intros i Hp Hi. destruct (decide (i = S pos)) as [->|]; [done|]. apply H; lia.
    + exists i. split; [lia|]. split; [done|]. split; [|done]. intros j Hij Hjp.
      destruct (decide (j = S pos)) as [->|]; [done|]. apply Hj; lia.
Qed.

Lemma strlen_nul_free t : nul_free t -> strlen t = length t.
Proof. induction 1 as [|c t Hc Ht IH]; simpl; [done|]. brk; bools; [done|]. by rewrite IH. Qed.

(** With a one-character needle [findLastIterFromString] returns the offset
    behind its last occurrence.  Position 0 is never examined, so an occurrence
    there counts as none. *)
Theorem find_last_char c hay :
  nul_free hay -> schar c <> 0%Z ->
  findLastIterFromString [c] hay = 0 /\ (forall i, 0 < i -> hay !! i <> Some c) \/
  exists i, 0 < i /\ hay !! i = Some c /\ (forall j, i < j -> hay !! j <> Some c) /\
    findLastIterFromString [c] hay = S i.
Proof.
  intros Hf Hc. unfold findLastIterFromString. cbn [length Nat.eqb]. rewrite strlen_nul_free by done.
  assert (forall j, hay !! j = Some c -> j <= length hay /\ deref (drop j hay) = schar c) as Hin.
  { intros j Hj. split; [apply lookup_lt_Some in Hj; lia|by apply drop_lookup_deref]. }
  destruct (find_last_loop_char c hay (length hay)) as [[H0 H] | (i & Hi & Hd & Hj & H)];
    [left|right].
  - split; [done|]. intros i Hi Hl. apply Hin in Hl as [Hl Hd]. by apply (H i).
  - exists i. split; [lia|]. split; [|split; [|done]].
    + destruct (hay !! i) as [d|] eqn:Hl.
      * rewrite (drop_lookup_deref _ _ _ Hl) in Hd. f_equal. by apply schar_inj.
      * apply lookup_ge_None in Hl. rewrite drop_ge in Hd by done. done.
    + intros j Hij Hl. apply Hin in Hl as [Hl Hd']. by apply (Hj j).
Qed.

Lemma find_last_char_witness :
  nul_free (# "@a@b") /\
  (findLastIterFromString ["@"%char] (# "@a@b") = 0 /\ (forall i, 0 < i -> (# "@a@b") !! i <> Some "@"%char) \/
   exists i, 0 < i /\ (# "@a@b") !! i = Some "@"%char /\
     (forall j, i < j -> (# "@a@b") !! j <> Some "@"%char) /\
     findLastIterFromString ["@"%char] (# "@a@b") = S i).
Proof.
  assert (nul_free (# "@a@b")) as Hf by (repeat constructor; done). split; [done|].
  apply (find_last_char "@"%char (# "@a@b") Hf). done.
Defined.
