(* ===== verification/SipGrammar.v ===== *)
(** * The SIP grammar

    The typedefs of include/OSS/ABNF/ABNFParser.h and ABNFSIPRules.h and the
    rule classes of src/abnf, one definition per rule, with the source's names.
    A rule class keeps its own identity ([forwards]): it is not optional even
    when the parser it forwards to is.  A class that also offers [parseTokens]
    has its sequence as a list, [<name>_rules]. *)

From S2P Require Import Prelude Abnf.
Open Scope nat_scope.

(** Character constants of template arguments. *)
Definition ch (c : ascii) : Z := schar c.
Definition chars (s : string) : list Z := map schar (lit s).

(** ** ABNFParser.h *)

Definition ABNFCharHTab := ABNFCharComparison 9.
Definition ABNFCharCR := ABNFCharComparison 13.
Definition ABNFCharLF := ABNFCharComparison 10.
Definition ABNFCharCRLF := ABNFLRSequence2 ABNFCharCR ABNFCharLF.
Definition ABNFCharSpace := ABNFCharComparison 32.
Definition ABNFCharDQuote := ABNFCharComparison 34.
Definition ABNFCharBit := ABNFAnyOf (ABNFCharComparison 48) (ABNFCharComparison 49).
Definition ABNFCharNewLine := ABNFAnyOf ABNFCharCR ABNFCharLF.
Definition ABNFCharWhiteSpace := ABNFAnyOf ABNFCharSpace ABNFCharHTab.
Definition ABNFCharWhiteSpaceOrNewLine := ABNFAnyOf ABNFCharNewLine ABNFCharWhiteSpace.
Definition ABNFZeroOrMoreWhiteSpaces :=
  ABNFLoopUntil ABNFCharWhiteSpace ABNFLoopExitIfNul 0 256.
Definition ABNFOneOrMoreWhiteSpaces :=
  ABNFLoopUntil ABNFCharWhiteSpace ABNFLoopExitIfNul 1 256.
Definition ABNFZeroOrMoreWhiteSpacesEndedByCRLF :=
  ABNFLRSequence2 ABNFZeroOrMoreWhiteSpaces ABNFCharCRLF.
Definition ABNFCharAlphaNumeric := ABNFAnyOf ABNFCharAlpha ABNFCharDigit.
Definition ABNFCharLCaseA2F := ABNFRange 97 102.
Definition ABNFCharLCaseHex := ABNFAnyOf ABNFCharDigit ABNFCharLCaseA2F.

(** ** ABNFSIPRules.h *)

Definition ABNF_SIP_SP := ABNFCharSpace.
Definition ABNF_SIP_CRLF := ABNFCharCRLF.
Definition ABNF_SIP_HTAB := ABNFCharHTab.
Definition ABNF_SIP_DQUOTE := ABNFCharDQuote.
Definition ABNF_SIP_HEXDIG := ABNFCharHex.
Definition ABNF_SIP_alphanum := ABNFCharAlphaNumeric.
Definition ABNF_SIP_LWS :=
  ABNFLRSequence2 (ABNFLROptional ABNFZeroOrMoreWhiteSpacesEndedByCRLF) ABNFOneOrMoreWhiteSpaces.
Definition ABNF_SIP_SWS := ABNFLROptional ABNF_SIP_LWS.
Definition ABNF_SIP_HCOLON :=
  ABNFLRSequence3 ABNFZeroOrMoreWhiteSpaces (ABNFCharComparison (ch ":")) ABNF_SIP_SWS.
Definition ABNF_SIP_STAR :=
  ABNFLRSequence3 ABNF_SIP_SWS (ABNFCharComparison (ch "*")) ABNF_SIP_SWS.
Definition ABNF_SIP_SLASH :=
  ABNFLRSequence3 ABNF_SIP_SWS (ABNFCharComparison (ch "/")) ABNF_SIP_SWS.
Definition ABNF_SIP_EQUAL :=
  ABNFLRSequence3 ABNF_SIP_SWS (ABNFCharComparison (ch "=")) ABNF_SIP_SWS.
Definition ABNF_SIP_LPAREN :=
  ABNFLRSequence3 ABNF_SIP_SWS (ABNFCharComparison (ch "(")) ABNF_SIP_SWS.
Definition ABNF_SIP_RPAREN :=
  ABNFLRSequence3 ABNF_SIP_SWS (ABNFCharComparison (ch ")")) ABNF_SIP_SWS.
Definition ABNF_SIP_LAQUOT := ABNFLRSequence2 ABNF_SIP_SWS (ABNFCharComparison (ch "<")).
Definition ABNF_SIP_RAQUOT := ABNFLRSequence2 (ABNFCharComparison (ch ">")) ABNF_SIP_SWS.
Definition ABNF_SIP_COMMA :=
  ABNFLRSequence3 ABNF_SIP_SWS (ABNFCharComparison (ch ",")) ABNF_SIP_SWS.
Definition ABNF_SIP_SEMI :=
  ABNFLRSequence3 ABNF_SIP_SWS (ABNFCharComparison (ch ";")) ABNF_SIP_SWS.
Definition ABNF_SIP_COLON :=
  ABNFLRSequence3 ABNF_SIP_SWS (ABNFCharComparison (ch ":")) ABNF_SIP_SWS.
Definition ABNF_SIP_LDQUOT := ABNFLRSequence2 ABNF_SIP_SWS ABNF_SIP_DQUOTE.
Definition ABNF_SIP_RDQUOT := ABNFLRSequence2 ABNF_SIP_DQUOTE ABNF_SIP_SWS.
Definition ABNF_SIP_UTF8_CONT := ABNFRange 128 191.
Definition ABNF_SIP_escaped := ABNFLRSequence2 (ABNFCharComparison (ch "%")) ABNF_SIP_HEXDIG.
Definition ABNF_SIP_reserved := ABNFAnyOfChars (chars ";/?:@&=+$,").
Definition ABNF_SIP_mark := ABNFAnyOfChars (chars "-_.!~*'/").
Definition ABNF_SIP_header_mark := ABNFAnyOfChars (chars ";=-_.!~*'/").
Definition ABNF_SIP_unreserved := ABNFAnyOf ABNF_SIP_alphanum ABNF_SIP_mark.
Definition ABNF_SIP_header_unreserved := ABNFAnyOf ABNF_SIP_alphanum ABNF_SIP_header_mark.
Definition ABNF_SIP_user_unreserved := ABNFAnyOfChars (chars "&=+$,;?/").
Definition ABNF_SIP_ALPHA := ABNFCharAlpha.
Definition ABNF_SIP_DIGIT := ABNFCharDigit.
Definition ABNF_SIP_param_unreserved := ABNFAnyOfChars (chars "[]/:&+$").
Definition ABNF_SIP_paramchar :=
  ABNFAnyOfMultiple3 ABNF_SIP_param_unreserved ABNF_SIP_unreserved ABNF_SIP_escaped.
Definition ABNF_SIP_pname := ABNFLoopUntil ABNF_SIP_paramchar ABNFLoopExitIfNul 1 1024.
Definition ABNF_SIP_pvalue := ABNF_SIP_pname.
Definition ABNF_SIP_hnv_unreserved := ABNFAnyOfChars (chars "[]/?:+$").
Definition ABNF_SIP_hparamchar :=
  ABNFAnyOfMultiple3 ABNF_SIP_hnv_unreserved ABNF_SIP_header_unreserved ABNF_SIP_escaped.
Definition ABNF_SIP_hnparamchar :=
  ABNFAnyOfMultiple3 ABNF_SIP_hnv_unreserved ABNF_SIP_unreserved ABNF_SIP_escaped.
Definition ABNF_SIP_hname := ABNFLoopUntil ABNF_SIP_hnparamchar ABNFLoopExitIfNul 1 1024.
Definition ABNF_SIP_hvalue := ABNFLoopUntil ABNF_SIP_hparamchar ABNFLoopExitIfNul 0 1024.
Definition ABNF_SIP_uric :=
  ABNFAnyOfMultiple3 ABNF_SIP_reserved ABNF_SIP_unreserved ABNF_SIP_escaped.
Definition ABNF_SIP_query := ABNFLoopUntil ABNF_SIP_uric ABNFLoopExitIfNul 0 1024.
Definition ABNF_SIP_uric_no_slash :=
  ABNFAnyOfMultiple3 ABNF_SIP_unreserved ABNF_SIP_escaped (ABNFAnyOfChars (chars ";?:@&=+$,")).
Definition ABNF_SIP_pchar :=
  ABNFAnyOfMultiple3 ABNF_SIP_unreserved ABNF_SIP_escaped (ABNFAnyOfChars (chars ":@&=+$,")).
Definition ABNF_SIP_param := ABNFLoopUntil ABNF_SIP_pchar ABNFLoopExitIfNul 0 1024.

(** ** Tokens and text *)

Definition ABNFSIPToken := forwards
  (ABNFLoopUntil (ABNFAnyOf ABNF_SIP_alphanum (ABNFAnyOfChars (chars "-.!%*_+`'~")))
     ABNFLoopExitIfNul 1 1024).

Definition ABNFSIPMethod := forwards ABNFSIPToken.

Definition utf8_seq (lo hi : Z) (n : nat) : rule :=
  ABNFLRSequence2 (ABNFRange lo hi) (ABNFLoopUntil ABNF_SIP_UTF8_CONT ABNFLoopExitIfNul n n).

Definition ABNFSIPUtf8NonAscii := forwards
  (ABNFAnyOfMultiple5 (utf8_seq 192 223 1) (utf8_seq 224 239 2) (utf8_seq 240 247 3)
     (utf8_seq 248 251 4) (utf8_seq 252 253 5)).

Definition ABNFSIPTextUtf8Char := forwards (ABNFAnyOf (ABNFRange 33 126) ABNFSIPUtf8NonAscii).

Definition ABNFSIPTextUtf8Trim := forwards
  (ABNFLRSequence2
     (ABNFLoopUntil ABNFSIPTextUtf8Char ABNFLoopExitIfNul 1 1024)
     (ABNFLoopUntil
        (ABNFLRSequence2 (ABNFLoopUntil ABNF_SIP_LWS ABNFLoopExitIfNul 0 1024)
           ABNFSIPTextUtf8Char)
        ABNFLoopExitIfNul 0 1024)).

Definition ABNFSIPQdText := forwards
  (ABNFAnyOfMultiple5 ABNF_SIP_LWS (ABNFCharComparison 33) (ABNFRange 35 91)
     (ABNFRange 93 126) ABNFSIPUtf8NonAscii).

Definition ABNFSIPQuotedPair := forwards
  (ABNFLRSequence2 (ABNFCharComparison (ch "\"))
     (ABNFAnyOfMultiple3 (ABNFRange 0 9) (ABNFRange 11 12) (ABNFRange 14 127))).

Definition ABNFSIPQuotedString := forwards
  (ABNFLRSequence4 ABNF_SIP_SWS ABNF_SIP_DQUOTE
     (ABNFLoopUntil (ABNFAnyOf ABNFSIPQdText ABNFSIPQuotedPair) [34%Z] 0 1024)
     ABNF_SIP_DQUOTE).

(** ** Hosts *)

Definition ABNFSIPHex4 := forwards (ABNFLoopUntil ABNF_SIP_HEXDIG ABNFLoopExitIfNul 1 4).

Definition ABNFSIPHexSeq := forwards
  (ABNFLRSequence2 ABNFSIPHex4
     (ABNFLoopUntil (ABNFLRSequence2 (ABNFCharComparison (ch ":")) ABNFSIPHex4)
        ABNFLoopExitIfNul 0 1024)).

Definition ABNFSIPHexPart := forwards
  (ABNFAnyOfMultiple3
     (ABNFLRSequence2 (ABNFStrictStringLiteral (chars "::")) (ABNFLROptional ABNFSIPHexSeq))
     (ABNFLRSequence3 ABNFSIPHexSeq (ABNFStrictStringLiteral (chars "::"))
        (ABNFLROptional ABNFSIPHexSeq))
     ABNFSIPHexSeq).

(** [1*3DIGIT] and ["." 1*3DIGIT]. *)
Definition dec_octet := ABNFLoopUntil ABNF_SIP_DIGIT ABNFLoopExitIfNul 1 3.
Definition dot_octet := ABNFLRSequence2 (ABNFCharComparison (ch ".")) dec_octet.

Definition ABNFSIPIPV4Address := forwards
  (ABNFLRSequence4 dec_octet dot_octet dot_octet dot_octet).

Definition ABNFSIPIPV6Address := forwards
  (ABNFLRSequence2 ABNFSIPHexPart (ABNFLROptional (ABNFLRSequence3 dot_octet dot_octet dot_octet))).

Definition ABNF_SIP_IPv6reference :=
  ABNFLRSequence3 (ABNFCharComparison (ch "[")) ABNFSIPIPV6Address (ABNFCharComparison (ch "]")).

Definition ABNFSIPDomainLabel := forwards
  (ABNFLoopUntil
     (ABNFAnyOfMultiple3 ABNF_SIP_alphanum (ABNFCharComparison (ch "-"))
        (ABNFCharComparison (ch "_")))
     ABNFLoopExitIfNul 0 1024).

Definition ABNFSIPTopLabel := forwards
  (ABNFAnyOf
     (ABNFLRSequence2 ABNF_SIP_ALPHA
        (ABNFLoopUntil (ABNFAnyOf ABNF_SIP_alphanum (ABNFCharComparison (ch "-")))
           ABNFLoopExitIfNul 0 1024))
     ABNF_SIP_ALPHA).

Definition ABNFSIPHostName := forwards
  (ABNFLRSequence2
     (ABNFLoopUntil (ABNFLRSequence2 ABNFSIPDomainLabel (ABNFCharComparison (ch ".")))
        ABNFLoopExitIfNul 0 1024)
     (ABNFLRSequence2 ABNFSIPTopLabel (ABNFLROptional (ABNFCharComparison (ch "."))))).

Definition ABNFSIPHost := forwards
  (ABNFAnyOfMultiple3 ABNFSIPHostName ABNFSIPIPV4Address ABNF_SIP_IPv6reference).

Definition ABNFSIPPort := forwards (ABNFLoopUntil ABNF_SIP_DIGIT ABNFLoopExitIfNul 1 10).

Definition ABNFSIPHostPort_rules :=
  [ABNFSIPHost; ABNFLROptional (ABNFLRSequence2 (ABNFCharComparison (ch ":")) ABNFSIPPort)].
Definition ABNFSIPHostPort := forwards (lrSequence ABNFSIPHostPort_rules).

(** ** URIs *)

Definition ABNFSIPScheme := forwards
  (ABNFLRSequence2 ABNF_SIP_ALPHA
     (ABNFLoopUntil (ABNFAnyOfMultiple3 ABNF_SIP_ALPHA ABNF_SIP_DIGIT (ABNFAnyOfChars (chars "+-.")))
        ABNFLoopExitIfNul 0 1024)).

Definition ABNFSIPUser := forwards
  (ABNFLoopUntil
     (ABNFAnyOfMultiple3 ABNF_SIP_unreserved ABNF_SIP_escaped ABNF_SIP_user_unreserved)
     (chars "@:") 1 1024).

Definition ABNFSIPPassword := forwards
  (ABNFLoopUntil
     (ABNFAnyOfMultiple3 ABNF_SIP_unreserved ABNF_SIP_escaped (ABNFAnyOfChars (chars "&=+$,")))
     (chars "@") 0 1024).

Definition ABNFSIPUserInfo_rules :=
  [ABNFSIPUser;
   ABNFLROptional (ABNFLRSequence2 (ABNFCharComparison (ch ":")) ABNFSIPPassword);
   ABNFCharComparison (ch "@")].
Definition ABNFSIPUserInfo := forwards (lrSequence ABNFSIPUserInfo_rules).

Definition ABNFSIPURIParameter := forwards
  (ABNFLRSequence2 ABNF_SIP_pname
     (ABNFLROptional (ABNFLRSequence2 (ABNFCharComparison (ch "=")) ABNF_SIP_pvalue))).

Definition uri_parameter_item :=
  ABNFLRSequence2 (ABNFCharComparison (ch ";")) ABNFSIPURIParameter.
Definition ABNFSIPURIParameters := forwards
  (ABNFLoopUntil uri_parameter_item ABNFLoopExitIfNul 0 1024).

Definition ABNFSIPURIHeader := forwards
  (ABNFLRSequence3 ABNF_SIP_hname (ABNFCharComparison (ch "=")) ABNF_SIP_hvalue).

Definition ABNFSIPURIHeaders_rules :=
  [ABNFCharComparison (ch "?"); ABNFSIPURIHeader;
   ABNFLoopUntil (ABNFLRSequence2 (ABNFCharComparison (ch "&")) ABNFSIPURIHeader)
     ABNFLoopExitIfNul 0 1024].
Definition ABNFSIPURIHeaders := forwards (lrSequence ABNFSIPURIHeaders_rules).

Definition ABNFSIPURI_rules :=
  [ABNFLRSequence2 ABNFSIPScheme (ABNFCharComparison (ch ":"));
   ABNFLROptional ABNFSIPUserInfo;
   ABNFSIPHostPort;
   ABNFLROptional ABNFSIPURIParameters;
   ABNFLROptional ABNFSIPURIHeaders].
Definition ABNFSIPURI := forwards (lrSequence ABNFSIPURI_rules).

Definition ABNFSIPRegName := forwards
  (ABNFLoopUntil
     (ABNFAnyOfMultiple3 ABNF_SIP_unreserved ABNF_SIP_escaped (ABNFAnyOfChars (chars "$,;:@&=+")))
     ABNFLoopExitIfNul 1 1024).

Definition ABNFSIPSrvr := forwards
  (ABNFLRSequence2
     (ABNFLROptional (ABNFLRSequence2 ABNFSIPUserInfo (ABNFCharComparison (ch "@"))))
     ABNFSIPHostPort).

Definition ABNFSIPAuthority := forwards (ABNFAnyOf ABNFSIPSrvr ABNFSIPRegName).

Definition ABNFSIPSegment := forwards
  (ABNFLRSequence2 ABNF_SIP_param
     (ABNFLoopUntil (ABNFLRSequence2 (ABNFCharComparison (ch ";")) ABNF_SIP_param)
        ABNFLoopExitIfNul 0 1024)).

Definition ABNFSIPPathSegments := forwards
  (ABNFLRSequence2 ABNFSIPSegment
     (ABNFLoopUntil (ABNFLRSequence2 (ABNFCharComparison (ch "/")) ABNFSIPSegment)
        ABNFLoopExitIfNul 0 1024)).

Definition ABNF_SIP_abs_path :=
  ABNFLRSequence2 (ABNFCharComparison (ch "/")) ABNFSIPPathSegments.

Definition ABNFSIPNetPath := forwards
  (ABNFLRSequence3 (ABNFStrictStringLiteral (chars "//")) ABNFSIPAuthority
     (ABNFLROptional ABNF_SIP_abs_path)).

Definition ABNFSIPHierPart_rules :=
  [ABNFAnyOf ABNFSIPNetPath ABNF_SIP_abs_path;
   ABNFLROptional (ABNFLRSequence2 (ABNFCharComparison (ch "?")) ABNF_SIP_query)].
Definition ABNFSIPHierPart := forwards (lrSequence ABNFSIPHierPart_rules).

Definition ABNFSIPOpaquePart := forwards
  (ABNFLRSequence2 ABNF_SIP_uric_no_slash
     (ABNFLoopUntil ABNF_SIP_uric ABNFLoopExitIfNul 0 1024)).

Definition ABNFSIPAbsoluteURI_rules :=
  [ABNFLRSequence2 ABNFSIPScheme (ABNFCharComparison (ch ":"));
   ABNFAnyOf ABNFSIPHierPart ABNFSIPOpaquePart].
Definition ABNFSIPAbsoluteURI := forwards (lrSequence ABNFSIPAbsoluteURI_rules).

Definition ABNFSIPRequestURI := forwards (ABNFAnyOf ABNFSIPURI ABNFSIPAbsoluteURI).

Definition ABNF_SIP_addr_spec := ABNFAnyOf ABNFSIPURI ABNFSIPAbsoluteURI.

(** ** Start lines *)

(** [1*DIGIT], bounded at twenty digits. *)
Definition version_number := ABNFLoopUntil ABNF_SIP_DIGIT ABNFLoopExitIfNul 1 20.
Definition ABNFSIPVersion := forwards
  (ABNFLRSequence4 (ABNFStringLiteral (chars "SIP/")) version_number
     (ABNFCharComparison (ch ".")) version_number).

Definition ABNFSIPStatusCode := forwards (ABNFLoopUntil ABNF_SIP_DIGIT ABNFLoopExitIfNul 3 3).

Definition ABNFSIPReasonPhrase := forwards
  (ABNFLoopUntil
     (ABNFAnyOf
        (ABNFAnyOfMultiple5 ABNF_SIP_reserved ABNF_SIP_unreserved ABNF_SIP_escaped
           ABNFSIPUtf8NonAscii ABNF_SIP_UTF8_CONT)
        (ABNFAnyOf ABNF_SIP_SP ABNF_SIP_HTAB))
     [13%Z; 10%Z] 0 1024).

Definition ABNFSIPRequestLine_rules :=
  [ABNFSIPMethod; ABNF_SIP_SP; ABNFSIPRequestURI; ABNF_SIP_SP; ABNFSIPVersion;
   ABNFLROptional ABNF_SIP_CRLF].
Definition ABNFSIPRequestLine := forwards (lrSequence ABNFSIPRequestLine_rules).

Definition ABNFSIPStatusLine_rules :=
  [ABNFSIPVersion; ABNF_SIP_SP; ABNFSIPStatusCode; ABNF_SIP_SP; ABNFSIPReasonPhrase;
   ABNFLROptional ABNF_SIP_CRLF].
Definition ABNFSIPStatusLine := forwards (lrSequence ABNFSIPStatusLine_rules).

Definition ABNFSNPPRequestLine_rules :=
  [ABNFSIPMethod; ABNF_SIP_SP;
   ABNFLoopUntil ABNFSIPTextUtf8Char [13%Z] 0 4096;
   ABNFLROptional ABNF_SIP_CRLF].
Definition ABNFSNPPRequestLine := forwards (lrSequence ABNFSNPPRequestLine_rules).

(** ** Header values *)

Definition ABNFSIPDisplayName := forwards
  (ABNFAnyOf ABNFSIPQuotedString
     (ABNFLoopUntil (ABNFLRSequence2 ABNFSIPToken (ABNFLROptional ABNF_SIP_LWS))
        ABNFLoopExitIfNul 0 1024)).

Definition ABNFSIPNameAddr_rules :=
  [ABNFLROptional ABNFSIPDisplayName; ABNF_SIP_LAQUOT; ABNF_SIP_addr_spec; ABNF_SIP_RAQUOT].
Definition ABNFSIPNameAddr := forwards (lrSequence ABNFSIPNameAddr_rules).

Definition ABNF_SIP_gen_value := ABNFAnyOf ABNFSIPQuotedString ABNFSIPToken.

Definition ABNFSIPGenericParam_rules :=
  [ABNFSIPToken; ABNFLRSequence2 ABNF_SIP_EQUAL ABNF_SIP_gen_value].
Definition ABNFSIPGenericParam := forwards (lrSequence ABNFSIPGenericParam_rules).

Definition generic_param_item := ABNFLRSequence2 ABNF_SIP_SEMI ABNFSIPGenericParam.
Definition ABNFSIPGenericParams := forwards
  (ABNFLoopUntil generic_param_item ABNFLoopExitIfNul 0 2048).

Definition ABNFSIPContactParam_rules :=
  [ABNFAnyOf ABNFSIPNameAddr ABNF_SIP_addr_spec; ABNFLROptional ABNFSIPGenericParams].
Definition ABNFSIPContactParam := forwards (lrSequence ABNFSIPContactParam_rules).

Definition ABNFSIPFromSpec_rules :=
  [ABNFAnyOf ABNFSIPNameAddr ABNF_SIP_addr_spec; ABNFLROptional ABNFSIPGenericParams].
Definition ABNFSIPFromSpec := forwards (lrSequence ABNFSIPFromSpec_rules).

Definition ABNFSIPCSeq_rules :=
  [ABNFLROptional (ABNFLRSequence2 (ABNFStringLiteral (chars "CSeq")) ABNF_SIP_HCOLON);
   ABNFLoopUntil ABNF_SIP_DIGIT ABNFLoopExitIfNul 1 1024;
   ABNF_SIP_LWS;
   ABNFSIPMethod].
Definition ABNFSIPCSeq := forwards (lrSequence ABNFSIPCSeq_rules).

Definition ABNFSIPTransportParam := forwards
  (ABNFAnyOfMultiple5 (ABNFStringLiteral (chars "udp")) (ABNFStringLiteral (chars "tcp"))
     (ABNFStringLiteral (chars "sctp")) (ABNFStringLiteral (chars "tls")) ABNFSIPToken).

Definition ABNFSIPUserParam := forwards
  (ABNFLRSequence2 (ABNFStringLiteral (chars "user="))
     (ABNFAnyOfMultiple3 (ABNFStringLiteral (chars "phone")) (ABNFStringLiteral (chars "ip"))
        ABNFSIPToken)).

Definition ABNFSIPMethodParam := forwards
  (ABNFLRSequence2 (ABNFStringLiteral (chars "method=")) ABNFSIPMethod).

(** Instance resolution does not compare rules up to unfolding: a goal about a
    rule is met by the instance of that rule or by one explicit unfolding. *)
#[global] Typeclasses Opaque
  ABNFCharHTab ABNFCharCR ABNFCharLF ABNFCharCRLF ABNFCharSpace ABNFCharDQuote ABNFCharBit
  ABNFCharNewLine ABNFCharWhiteSpace ABNFCharWhiteSpaceOrNewLine ABNFZeroOrMoreWhiteSpaces
  ABNFOneOrMoreWhiteSpaces ABNFZeroOrMoreWhiteSpacesEndedByCRLF ABNFCharAlphaNumeric
  ABNFCharLCaseA2F ABNFCharLCaseHex ABNF_SIP_SP ABNF_SIP_CRLF ABNF_SIP_HTAB ABNF_SIP_DQUOTE
  ABNF_SIP_HEXDIG ABNF_SIP_alphanum ABNF_SIP_LWS ABNF_SIP_SWS ABNF_SIP_HCOLON ABNF_SIP_STAR
  ABNF_SIP_SLASH ABNF_SIP_EQUAL ABNF_SIP_LPAREN ABNF_SIP_RPAREN ABNF_SIP_LAQUOT ABNF_SIP_RAQUOT
  ABNF_SIP_COMMA ABNF_SIP_SEMI ABNF_SIP_COLON ABNF_SIP_LDQUOT ABNF_SIP_RDQUOT
  ABNF_SIP_UTF8_CONT ABNF_SIP_escaped ABNF_SIP_reserved ABNF_SIP_mark ABNF_SIP_header_mark
  ABNF_SIP_unreserved ABNF_SIP_header_unreserved ABNF_SIP_user_unreserved ABNF_SIP_ALPHA
  ABNF_SIP_DIGIT ABNF_SIP_param_unreserved ABNF_SIP_paramchar ABNF_SIP_pname ABNF_SIP_pvalue
  ABNF_SIP_hnv_unreserved ABNF_SIP_hparamchar ABNF_SIP_hnparamchar ABNF_SIP_hname
  ABNF_SIP_hvalue ABNF_SIP_uric ABNF_SIP_query ABNF_SIP_uric_no_slash ABNF_SIP_pchar
  ABNF_SIP_param ABNFSIPToken ABNFSIPMethod utf8_seq ABNFSIPUtf8NonAscii ABNFSIPTextUtf8Char
  ABNFSIPTextUtf8Trim ABNFSIPQdText ABNFSIPQuotedPair ABNFSIPQuotedString ABNFSIPHex4
  ABNFSIPHexSeq ABNFSIPHexPart dec_octet dot_octet ABNFSIPIPV4Address ABNFSIPIPV6Address
  ABNF_SIP_IPv6reference ABNFSIPDomainLabel ABNFSIPTopLabel ABNFSIPHostName ABNFSIPHost
  ABNFSIPPort ABNFSIPHostPort ABNFSIPScheme ABNFSIPUser ABNFSIPPassword ABNFSIPUserInfo
  ABNFSIPURIParameter uri_parameter_item ABNFSIPURIParameters ABNFSIPURIHeader
  ABNFSIPURIHeaders ABNFSIPURI ABNFSIPRegName ABNFSIPSrvr ABNFSIPAuthority ABNFSIPSegment
  ABNFSIPPathSegments ABNF_SIP_abs_path ABNFSIPNetPath ABNFSIPHierPart ABNFSIPOpaquePart
  ABNFSIPAbsoluteURI ABNFSIPRequestURI ABNF_SIP_addr_spec version_number ABNFSIPVersion
  ABNFSIPStatusCode ABNFSIPReasonPhrase ABNFSIPRequestLine ABNFSIPStatusLine
  ABNFSNPPRequestLine ABNFSIPDisplayName ABNFSIPNameAddr ABNF_SIP_gen_value ABNFSIPGenericParam
  generic_param_item ABNFSIPGenericParams ABNFSIPContactParam ABNFSIPFromSpec ABNFSIPCSeq
  ABNFSIPTransportParam ABNFSIPUserParam ABNFSIPMethodParam.
