(* ===== verification/SipGrammarFacts.v ===== *)
(** * Theorems about the SIP grammar

    Memory safety of every rule class of src/abnf that the rest of the library
    applies to a message buffer, the languages of the rules that decide how an
    address or a token is read, and the places where the accepted language is
    not the one the rule documents. *)

From S2P Require Import Prelude Abnf AbnfFacts SipGrammar.
Open Scope nat_scope.

(** ** Instances, in dependency order, so that resolution stops at named rules *)

#[export] Instance s_LWS : Safe ABNF_SIP_LWS. Proof. apply _. Qed.
#[export] Instance s_SWS : Safe ABNF_SIP_SWS. Proof. apply _. Qed.
#[export] Instance s_unreserved : Safe ABNF_SIP_unreserved. Proof. apply _. Qed.
#[export] Instance s_escaped : Safe ABNF_SIP_escaped. Proof. apply _. Qed.
#[export] Instance s_pname : Safe ABNF_SIP_pname. Proof. apply _. Qed.
#[export] Instance s_hname : Safe ABNF_SIP_hname. Proof. apply _. Qed.
#[export] Instance s_hvalue : Safe ABNF_SIP_hvalue. Proof. apply _. Qed.
#[export] Instance s_uric : Safe ABNF_SIP_uric. Proof. apply _. Qed.
#[export] Instance s_Token : Safe ABNFSIPToken. Proof. apply _. Qed.
#[export] Instance s_Method : Safe ABNFSIPMethod. Proof. apply _. Qed.
#[export] Instance s_Utf8NonAscii : SafeNE ABNFSIPUtf8NonAscii. Proof. apply _. Qed.
#[export] Instance s_TextUtf8Char : Safe ABNFSIPTextUtf8Char. Proof. apply _. Qed.
#[export] Instance s_TextUtf8Trim : Safe ABNFSIPTextUtf8Trim. Proof. apply _. Qed.
#[export] Instance c_QdText : Consumes ABNFSIPQdText. Proof. apply _. Qed.
#[export] Instance s_QuotedString : Safe ABNFSIPQuotedString. Proof. apply _. Qed.
#[export] Instance s_Hex4 : Safe ABNFSIPHex4. Proof. apply _. Qed.
#[export] Instance s_HexSeq : Safe ABNFSIPHexSeq. Proof. apply _. Qed.
#[export] Instance s_HexPart : Safe ABNFSIPHexPart. Proof. apply _. Qed.
#[export] Instance s_IPV4 : Safe ABNFSIPIPV4Address. Proof. apply _. Qed.
#[export] Instance s_IPV6 : Safe ABNFSIPIPV6Address. Proof. apply _. Qed.
#[export] Instance s_DomainLabel : Safe ABNFSIPDomainLabel. Proof. apply _. Qed.
#[export] Instance s_TopLabel : Safe ABNFSIPTopLabel. Proof. apply _. Qed.
#[export] Instance s_HostName : Safe ABNFSIPHostName. Proof. apply _. Qed.
#[export] Instance s_Host : Safe ABNFSIPHost. Proof. apply _. Qed.
#[export] Instance s_Port : Safe ABNFSIPPort. Proof. apply _. Qed.
#[export] Instance s_HostPort : Safe ABNFSIPHostPort. Proof. apply _. Qed.
#[export] Instance s_Scheme : Safe ABNFSIPScheme. Proof. apply _. Qed.
#[export] Instance s_User : Safe ABNFSIPUser. Proof. apply _. Qed.
#[export] Instance s_Password : Safe ABNFSIPPassword. Proof. apply _. Qed.
#[export] Instance s_UserInfo : Safe ABNFSIPUserInfo. Proof. apply _. Qed.
#[export] Instance s_URIParameter : Safe ABNFSIPURIParameter. Proof. apply _. Qed.
#[export] Instance s_URIParameters : Safe ABNFSIPURIParameters. Proof. apply _. Qed.
#[export] Instance s_URIHeader : Safe ABNFSIPURIHeader. Proof. apply _. Qed.
#[export] Instance s_URIHeaders : Safe ABNFSIPURIHeaders. Proof. apply _. Qed.
#[export] Instance s_URI : Safe ABNFSIPURI. Proof. apply _. Qed.
#[export] Instance s_RegName : Safe ABNFSIPRegName. Proof. apply _. Qed.
#[export] Instance s_Srvr : Safe ABNFSIPSrvr. Proof. apply _. Qed.
#[export] Instance s_Authority : Safe ABNFSIPAuthority. Proof. apply _. Qed.
#[export] Instance s_Segment : Safe ABNFSIPSegment. Proof. apply _. Qed.
#[export] Instance s_PathSegments : Safe ABNFSIPPathSegments. Proof. apply _. Qed.
#[export] Instance s_NetPath : Safe ABNFSIPNetPath. Proof. apply _. Qed.
#[export] Instance s_HierPart : Safe ABNFSIPHierPart. Proof. apply _. Qed.
#[export] Instance s_OpaquePart : Safe ABNFSIPOpaquePart. Proof. apply _. Qed.
#[export] Instance s_AbsoluteURI : Safe ABNFSIPAbsoluteURI. Proof. apply _. Qed.
#[export] Instance s_RequestURI : Safe ABNFSIPRequestURI. Proof. apply _. Qed.
#[export] Instance s_addr_spec : Safe ABNF_SIP_addr_spec. Proof. apply _. Qed.
#[export] Instance s_Version : Safe ABNFSIPVersion. Proof. apply _. Qed.
#[export] Instance s_StatusCode : Safe ABNFSIPStatusCode. Proof. apply _. Qed.
#[export] Instance s_ReasonPhrase : Safe ABNFSIPReasonPhrase. Proof. apply _. Qed.
#[export] Instance s_RequestLine : Safe ABNFSIPRequestLine. Proof. apply _. Qed.
#[export] Instance s_StatusLine : Safe ABNFSIPStatusLine. Proof. apply _. Qed.
#[export] Instance s_SNPPRequestLine : Safe ABNFSNPPRequestLine. Proof. apply _. Qed.
#[export] Instance s_DisplayName : Safe ABNFSIPDisplayName. Proof. apply _. Qed.
#[export] Instance s_NameAddr : Safe ABNFSIPNameAddr. Proof. apply _. Qed.
#[export] Instance s_GenericParam : Safe ABNFSIPGenericParam. Proof. apply _. Qed.
#[export] Instance s_GenericParams : Safe ABNFSIPGenericParams. Proof. apply _. Qed.
#[export] Instance s_ContactParam : Safe ABNFSIPContactParam. Proof. apply _. Qed.
#[export] Instance s_FromSpec : Safe ABNFSIPFromSpec. Proof. apply _. Qed.
#[export] Instance s_CSeq : Safe ABNFSIPCSeq. Proof. apply _. Qed.
#[export] Instance s_TransportParam : Safe ABNFSIPTransportParam. Proof. apply _. Qed.
#[export] Instance s_UserParam : Safe ABNFSIPUserParam. Proof. apply _. Qed.
#[export] Instance s_MethodParam : Safe ABNFSIPMethodParam. Proof. apply _. Qed.

(** ** Character classes of the grammar *)

Definition is_digit (c : Z) : bool := ((48 <=? c) && (c <=? 57))%Z.
Definition is_alpha (c : Z) : bool :=
  (((65 <=? c) && (c <=? 90)) || ((97 <=? c) && (c <=? 122)))%Z.

(** The characters of an RFC 3261 token. *)
Definition token_char (c : Z) : bool :=
  is_alpha c || is_digit c || existsb (Z.eqb c) (chars "-.!%*_+`'~").

#[export] Instance cc_digit : CharClass ABNF_SIP_DIGIT is_digit.
Proof. by apply charRule_class. Qed.
#[export] Instance cc_alpha : CharClass ABNF_SIP_ALPHA is_alpha.
Proof. by apply charRule_class. Qed.

(** The rules of src/abnf that the parsers of src/sipparser, src/net and src/sdp
    hand a whole buffer to. *)
Definition sip_entry_rules : list rule :=
  [ABNFSIPToken; ABNFSIPMethod; ABNFSIPTextUtf8Char; ABNFSIPTextUtf8Trim;
   ABNFSIPQuotedString; ABNFSIPHex4; ABNFSIPHexSeq; ABNFSIPHexPart; ABNFSIPIPV4Address;
   ABNFSIPIPV6Address; ABNFSIPDomainLabel; ABNFSIPTopLabel; ABNFSIPHostName; ABNFSIPHost;
   ABNFSIPPort; ABNFSIPHostPort; ABNFSIPScheme; ABNFSIPUser; ABNFSIPPassword;
   ABNFSIPUserInfo; ABNFSIPURIParameter; ABNFSIPURIParameters; ABNFSIPURIHeader;
   ABNFSIPURIHeaders; ABNFSIPURI; ABNFSIPRegName; ABNFSIPSrvr; ABNFSIPAuthority;
   ABNFSIPSegment; ABNFSIPPathSegments; ABNFSIPNetPath; ABNFSIPHierPart;
   ABNFSIPOpaquePart; ABNFSIPAbsoluteURI; ABNFSIPRequestURI; ABNFSIPVersion;
   ABNFSIPStatusCode; ABNFSIPReasonPhrase; ABNFSIPRequestLine; ABNFSIPStatusLine;
   ABNFSNPPRequestLine; ABNFSIPDisplayName; ABNFSIPNameAddr; ABNFSIPGenericParam;
   ABNFSIPGenericParams; ABNFSIPContactParam; ABNFSIPFromSpec; ABNFSIPCSeq;
   ABNFSIPTransportParam; ABNFSIPUserParam; ABNFSIPMethodParam; ABNF_SIP_pname;
   ABNF_SIP_pvalue; ABNF_SIP_hname; ABNF_SIP_hvalue; ABNF_SIP_addr_spec].


(** ** Languages *)

Lemma token_parse t : parse ABNFSIPToken t = Some (span token_char 1024 t).
Proof.
  unfold ABNFSIPToken. cbn [parse forwards].
  erewrite loop_until_span; [|apply _|reflexivity]. f_equal.
  erewrite span_ext; [|apply (ascii_pred_ext (fun c => _ (schar c)) (fun c => token_char (schar c))); vm_compute; reflexivity].
  apply at_least_one.
Qed.

(** The language of a token.  On a C string, [ABNFEvaluate<ABNFSIPToken>] is
    true exactly when every character is an RFC 3261 token character and there
    are at most 1024 of them: the loop bound is the only deviation, and the
    empty string passes the test although the rule asks for one character. *)
Theorem token_language t :
  nul_free t ->
  ABNFEvaluate ABNFSIPToken t = Some true <->
  Forall (fun c => token_char (schar c) = true) t /\ length t <= 1024.
Proof.
  intros Hf. rewrite evaluate_true by done. rewrite <- span_full. split.
  - intros (n & Hn & Hl). rewrite token_parse in Hn. by apply (inj Some) in Hn as <-.
  - intros Hl. exists (span token_char 1024 t). by rewrite token_parse.
Qed.

(** The witness of [token_language]: a method name is a token. *)
Lemma token_language_witness : ABNFEvaluate ABNFSIPToken #"INVITE" = Some true.
Proof.
  apply token_language.
  - repeat constructor; discriminate.
  - split; [repeat constructor|vm_compute; lia].
Defined.

(** One to three digits. *)
Definition octet (w : str) : Prop :=
  Forall (fun c => is_digit (schar c) = true) w /\ 1 <= length w <= 3.

Lemma digits_parse mn mx t :
  parse (ABNFLoopUntil ABNF_SIP_DIGIT ABNFLoopExitIfNul mn mx) t =
    Some (let k := span is_digit mx t in if k <? mn then 0 else k).
Proof.
  erewrite loop_until_span; [|apply _|reflexivity].
  erewrite span_ext; [done|].
  apply (ascii_pred_ext (fun c => _ (schar c)) (fun c => is_digit (schar c))).
  vm_compute. reflexivity.
Qed.

Lemma dec_octet_parse t : parse dec_octet t = Some (span is_digit 3 t).
Proof. unfold dec_octet. rewrite digits_parse. cbv zeta. by rewrite at_least_one. Qed.

(** What follows an octet does not continue it. *)
Definition octet_stop (w rest : str) : Prop :=
  length w = 3 \/ match rest with [] => True | c :: _ => is_digit (schar c) = false end.

Lemma dec_octet_app w rest : octet w -> octet_stop w rest ->
  parse dec_octet (w ++ rest) = Some (length w).
Proof.
  intros [Hw Hl] Hs. rewrite dec_octet_parse. by rewrite span_app by (done || lia).
Qed.

Lemma dot_octet_inv t n : parse dot_octet t = Some n -> n <> 0 ->
  exists w rest, t = "."%char :: w ++ rest /\ octet w /\ n = S (length w).
Proof.
  intros H Hn. apply lr_sequence_success in H; [|done].
  apply lr_parse_cons_inv_req in H as (k & m & H1 & Hk & H2 & ->); [|done].
  apply comparison_pos in H1 as (t' & -> & ->); [|done]. drops_in H2.
  apply lr_parse_cons_inv_req in H2 as (k & m' & H1 & Hk' & [= <-] & ->); [|done].
  rewrite dec_octet_parse in H1. apply (inj Some) in H1 as <-.
  destruct (span_split _ _ _ Hk') as (w & rest & -> & ? & Hw & ?).
  exists w, rest. split; [done|]. split; [by split|]. rewrite Hw. lia.
Qed.

Lemma dot_octet_app w rest : octet w -> octet_stop w rest ->
  parse dot_octet ("."%char :: w ++ rest) = Some (S (length w)).
Proof.
  intros Hw Hs. assert (lr_parse [ABNFCharComparison (ch "."); dec_octet] ("."%char :: w ++ rest)
    = Some (Some (1 + (length w + 0)))) as H.
  { apply lr_parse_cons; [done|done|]. apply lr_parse_cons; [by apply dec_octet_app| |done].
    destruct Hw. lia. }
  unfold dot_octet, ABNFLRSequence2, lrSequence. cbn [parse]. rewrite H. simpl. f_equal. lia.
Qed.

(** An address as the grammar documents it. *)
Definition ipv4_text (a b c d : str) : str :=
  a ++ "."%char :: b ++ "."%char :: c ++ "."%char :: d.

(** The language of IPv4address.  [ABNFEvaluate<ABNFSIPIPV4Address>], which
    decides whether a host is an address everywhere in the library, is true
    exactly on four groups of one to three digits separated by dots. *)
Theorem ipv4_language t :
  nul_free t -> t <> [] ->
  ABNFEvaluate ABNFSIPIPV4Address t = Some true <->
  exists a b c d, octet a /\ octet b /\ octet c /\ octet d /\ t = ipv4_text a b c d.
Proof.
  intros Hf Ht. rewrite evaluate_true by done. split.
  - intros (n & Hn & Hl). apply lr_sequence_success in Hn; [|destruct t; simpl in *; [done|lia]].
    apply lr_parse_cons_inv_req in Hn as (ka & m & Ha & Hka & Hn & ->); [|done].
    rewrite dec_octet_parse in Ha. apply (inj Some) in Ha as <-.
    destruct (span_split _ _ _ Hka) as (a & ta & -> & Ha & Hla & Hla'). rewrite <- Hla in *.
    rewrite drop_app_length in Hn.
    apply lr_parse_cons_inv_req in Hn as (kb & m' & Hb & Hkb & Hn & ->); [|done].
    apply dot_octet_inv in Hb as (b & tb & -> & Hb & ->); [|done].
    drops_in Hn.
    apply lr_parse_cons_inv_req in Hn as (kc & m'' & Hc & Hkc & Hn & ->); [|done].
    apply dot_octet_inv in Hc as (c & tc & -> & Hc & ->); [|done].
    drops_in Hn.
    apply lr_parse_cons_inv_req in Hn as (kd & m''' & Hd & Hkd & [= <-] & ->); [|done].
    apply dot_octet_inv in Hd as (d & td & -> & Hd & ->); [|done].
    repeat (rewrite ?length_app in Hl; cbn [length] in Hl).
    assert (td = []) as -> by (apply length_zero_iff_nil; lia).
    exists a, b, c, d. unfold ipv4_text. rewrite app_nil_r.
    split; [by split|]. by do 3 (split; [done|]).
  - intros (a & b & c & d & Ha & Hb & Hc & Hd & ->). unfold ipv4_text.
    eexists. split; [|reflexivity].
    assert (forall w rest, octet_stop w ("."%char :: rest)) as Hs by (by right).
    assert (octet_stop d []) as Hsd by (by right).
    pose proof (dec_octet_app a _ Ha (Hs a (b ++ "."%char :: c ++ "."%char :: d))) as Pa.
    pose proof (dot_octet_app b _ Hb (Hs b (c ++ "."%char :: d))) as Pb.
    pose proof (dot_octet_app c _ Hc (Hs c d)) as Pc.
    pose proof (dot_octet_app d _ Hd Hsd) as Pd. rewrite app_nil_r in Pd.
    assert (1 <= length a /\ 1 <= length b /\ 1 <= length c /\ 1 <= length d) as Hpos
      by (destruct Ha, Hb, Hc, Hd; lia).
    cbn [parse forwards ABNFSIPIPV4Address ABNFLRSequence4 lrSequence].
    erewrite (lr_parse_cons dec_octet); [|exact Pa|lia|].
    2:{ rewrite drop_app_length. eapply lr_parse_cons; [exact Pb|lia|]. drops. eapply lr_parse_cons; [exact Pc|lia|]. drops. eapply lr_parse_cons; [exact Pd|lia|]. reflexivity. }
    simpl. f_equal. repeat (rewrite ?length_app; cbn [length]). lia.
Qed.

(** The witness of [ipv4_language]. *)
Lemma ipv4_language_witness :
  exists a b c d, octet a /\ octet b /\ octet c /\ octet d /\
    #"192.168.1.1" = ipv4_text a b c d.
Proof.
  apply ipv4_language; [repeat constructor; discriminate|discriminate|vm_compute; reflexivity].
Defined.

(** ** Start lines *)

(** No space before position [n], a space at [n]. *)
Definition first_space (n : nat) (t : str) : Prop :=
  Forall (fun c => c <> " "%char) (take n t) /\ exists t', drop n t = " "%char :: t'.

Lemma first_space_unique n m t : first_space n t -> first_space m t -> n = m.
Proof.
  intros [Hn (tn & En)] [Hm (tm & Em)].
  assert (forall i j ti, Forall (fun c => c <> " "%char) (take j t) ->
    drop i t = " "%char :: ti -> j <= i) as H.
  { intros i j ti Hj Ei. destruct (decide (j <= i)) as [|Hlt]; [done|exfalso].
    rewrite Forall_lookup in Hj. apply (Hj i " "%char); [|done].
    rewrite lookup_take_lt by lia. rewrite <- (Nat.add_0_r i), <- lookup_drop. by rewrite Ei. }
  pose proof (H n m tn Hm En). pose proof (H m n tm Hn Em). lia.
Qed.

(** Not a space. *)
Definition no_space (c : ascii) : bool := negb (schar c =? 32)%Z.

#[export] Instance version_no_space : Within no_space ABNFSIPVersion.
Proof. apply _. Qed.
#[export] Instance method_no_space : Within no_space ABNFSIPMethod.
Proof. apply _. Qed.

(** A first element without spaces, then a space: the space is the first one. *)
Lemma first_word r rs t n :
  Within no_space r -> isOptional r = false ->
  lr_parse (r :: ABNF_SIP_SP :: rs) t = Some (Some n) ->
  exists k m, parse r t = Some k /\ first_space k t /\ lr_parse rs (drop (S k) t) = Some (Some m).
Proof.
  intros Hw Ho H. apply lr_parse_cons_inv_req in H as (k & m & Hk & Hk0 & H & ->); [|done].
  apply lr_parse_cons_inv_req in H as (k' & m' & Hs & Hs0 & H & ->); [|done].
  apply (comparison_pos " "%char) in Hs as (t' & Et & ->); [|done].
  rewrite drop_drop in H. rewrite Nat.add_1_r in H. exists k, m'. split; [done|]. split; [|done].
  split; [|by exists t']. eapply Forall_impl; [by apply Hw|]. intros c Hc ->. done.
Qed.

Lemma request_uri_alpha t n :
  parse ABNFSIPRequestURI t = Some n -> n <> 0 ->
  exists c t', t = c :: t' /\ is_alpha (schar c) = true.
Proof.
  assert (forall rs k, lr_parse (ABNFLRSequence2 ABNFSIPScheme (ABNFCharComparison (ch ":")) :: rs) t
    = Some (Some k) -> exists c t', t = c :: t' /\ is_alpha (schar c) = true) as Hsch.
  { intros rs k H. apply lr_parse_cons_inv_req in H as (k1 & ? & H & Hk1 & _ & _); [|done].
    apply lr_sequence_success in H; [|done].
    apply lr_parse_cons_inv_req in H as (k2 & ? & H & Hk2 & _ & _); [|done].
    apply lr_sequence_success in H; [|done].
    apply lr_parse_cons_inv_req in H as (k3 & ? & H & Hk3 & _ & _); [|done].
    apply (char_class_pos _ _ _ _ cc_alpha) in H as (c & t' & -> & Hc & _); [|done].
    by exists c, t'. }
  simpl. destruct (deref t =? 0)%Z; [by intros [= <-]|].
  destruct (lr_parse ABNFSIPURI_rules t) as [[[|k]|]|] eqn:E; simpl; try done;
    [| intros _ _; by apply (Hsch _ _ E) |];
  (destruct (lr_parse ABNFSIPAbsoluteURI_rules t) as [[[|k']|]|] eqn:E'; simpl; try done;
    [by intros [= <-] | intros _ _; by apply (Hsch _ _ E') | by intros [= <-]]).
Qed.

Lemma status_code_digit t n :
  parse ABNFSIPStatusCode t = Some n -> n <> 0 ->
  exists c t', t = c :: t' /\ is_digit (schar c) = true.
Proof.
  unfold ABNFSIPStatusCode. cbn [parse forwards]. rewrite digits_parse. cbv zeta.
  destruct t as [|c t]; [by intros [= <-]|]. unfold span at 1.
  destruct (is_digit (schar c)) eqn:E; [by exists c, t|]. by intros [= <-].
Qed.

Lemma start_lines_disjoint t :
  nul_free t -> t <> [] ->
  ABNFEvaluate ABNFSIPRequestLine t = Some true ->
  ABNFEvaluate ABNFSIPStatusLine t <> Some true.
Proof.
  intros Hf Ht Hreq Hst.
  apply evaluate_true in Hreq as (n & Hn & Hln); [|done].
  apply evaluate_true in Hst as (m & Hm & Hlm); [|done].
  apply lr_sequence_success in Hn; [|destruct t; [done|simpl in Hln; lia]].
  apply lr_sequence_success in Hm; [|destruct t; [done|simpl in Hlm; lia]].
  apply first_word in Hn as (k & n' & _ & Hk & Hn); [|apply _|done].
  apply first_word in Hm as (k' & m' & _ & Hk' & Hm); [|apply _|done].
  pose proof (first_space_unique _ _ _ Hk Hk') as <-.
  apply lr_parse_cons_inv_req in Hn as (? & ? & Hu & Hu0 & _ & _); [|done].
  apply lr_parse_cons_inv_req in Hm as (? & ? & Hc & Hc0 & _ & _); [|done].
  apply request_uri_alpha in Hu as (c & t1 & E1 & Ha); [|done].
  apply status_code_digit in Hc as (d & t2 & E2 & Hd); [|done].
  rewrite E1 in E2. injection E2 as -> _. revert Ha Hd. unfold is_alpha, is_digit. lia.
Qed.

(** A start line is never both.  No C string is accepted both by the
    request-line test and by the status-line test that [SIPMessage::isRequest]
    and [isResponse] are decided by. *)
Theorem start_line_exclusive t :
  nul_free t -> t <> [] ->
  ABNFEvaluate ABNFSIPRequestLine t = Some true ->
  ABNFEvaluate ABNFSIPStatusLine t <> Some true.
Proof. apply start_lines_disjoint. Qed.

(** The witness of [start_line_exclusive]. *)
Lemma start_line_exclusive_witness :
  ABNFEvaluate ABNFSIPRequestLine #"BYE sip:a@b SIP/2.0" = Some true /\
  ABNFEvaluate ABNFSIPStatusLine #"BYE sip:a@b SIP/2.0" <> Some true.
Proof.
  split; [vm_compute; reflexivity|].
  apply start_line_exclusive; [repeat constructor; discriminate|discriminate|].
  vm_compute; reflexivity.
Defined.

(** ** Quoted strings *)

(** A loop whose body takes one character at a time, up to an exit character. *)
Lemma loop_iter_ones r x fuel w c rest :
  Forall (fun c => exit_char x (schar c) = false /\ forall t, parse r (c :: t) = Some 1) w ->
  length w <= fuel -> exit_char x (schar c) = true ->
  loop_iter r x fuel (w ++ c :: rest) = Some (length w, length w).
Proof.
  intros Hw. revert fuel. induction Hw as [|d w [Hd Hp] Hw IH]; intros fuel Hf Hc.
  - destruct fuel; [done|]. rewrite loop_iter_S. simpl. by rewrite Hc.
  - destruct fuel; [simpl in Hf; lia|]. simpl app. rewrite loop_iter_S. simpl deref.
    rewrite Hd, Hp. simpl. rewrite drop_0, IH; [done| |done]. simpl in Hf. lia.
Qed.

(** Characters that begin no linear white space. *)
Definition plain (c : ascii) : Prop :=
  schar c <> 0%Z /\ schar c <> 32%Z /\ schar c <> 9%Z /\ schar c <> 13%Z.

Lemma lws_plain c t : plain c -> parse ABNF_SIP_LWS (c :: t) = Some 0.
Proof.
  intros (H0 & Hs & Ht & Hc).
  assert (forall mn mx, parse (ABNFLoopUntil ABNFCharWhiteSpace ABNFLoopExitIfNul mn mx) (c :: t)
    = Some 0) as Hw.
  { intros mn mx. cbn [parse ABNFLoopUntil]. brk; [done|].
    destruct mx as [|mx]; [simpl; by brk|]. rewrite loop_iter_S.
    brk; [simpl; by brk|]. cbn [parse ABNFCharWhiteSpace ABNFAnyOf]. simpl deref in *.
    cbn. repeat brk; bools; try done; lia. }
  assert (parse ABNFZeroOrMoreWhiteSpacesEndedByCRLF (c :: t) = Some 0) as Hz.
  { unfold ABNFZeroOrMoreWhiteSpacesEndedByCRLF, ABNFLRSequence2. rewrite lr_sequence_parse, lr_parse_eq.
    rewrite (Hw 0 256 : parse ABNFZeroOrMoreWhiteSpaces (c :: t) = Some 0). simpl.
    rewrite lr_parse_eq. unfold ABNFCharCRLF, ABNFLRSequence2.
    rewrite lr_sequence_parse, (lr_parse_eq ABNFCharCR). cbn. brk; bools; [lia|done]. }
  unfold ABNF_SIP_LWS, ABNFLRSequence2. rewrite lr_sequence_parse, lr_parse_eq.
  cbn [parse ABNFLROptional]. simpl deref. brk; bools; [done|]. rewrite Hz. simpl.
  rewrite lr_parse_eq.
  by rewrite (Hw 1 256 : parse ABNFOneOrMoreWhiteSpaces (c :: t) = Some 0).
Qed.

Lemma qdtext_plain c t : plain c -> parse ABNFSIPQdText (c :: t) = Some 1.
Proof.
  intros Hp. unfold ABNFSIPQdText, ABNFAnyOfMultiple5. cbn [parse forwards anyOfMultiple anyOf_loop].
  rewrite (lws_plain c t Hp). cbn. destruct (schar c =? 33)%Z; simpl; [done|].
  by rewrite (range_always 35 91).
Qed.

(** The quote character. *)
Definition dquote : ascii := Ascii.ascii_of_nat 34.

(** A quoted string ends at the first quote.  Whatever stands between two
    quotes, backslashes included, the rule takes exactly the text up to the
    second quote: [qdtext] also takes the backslash, so quoted-pair is never
    reached and an escaped quote closes the string. *)
Theorem quoted_string_first_quote w rest :
  Forall (fun c => plain c /\ schar c <> 34%Z) w -> length w <= 1024 ->
  parse ABNFSIPQuotedString (dquote :: w ++ dquote :: rest) = Some (length w + 2).
Proof.
  intros Hw Hl. unfold ABNFSIPQuotedString, ABNFLRSequence4. cbn [parse forwards].
  rewrite lr_sequence_parse, lr_parse_eq.
  unfold ABNF_SIP_SWS. cbn [parse ABNFLROptional]. 
  rewrite lws_plain by (by vm_compute). simpl.
  rewrite lr_parse_eq. simpl. rewrite drop_0, lr_parse_eq.
  cbn [parse ABNFLoopUntil]. 
  rewrite loop_iter_ones; [..|done|done].
  2:{ eapply Forall_impl; [exact Hw|]. intros c [Hp Hq]. split.
      - unfold exit_char. simpl. destruct Hp. repeat brk; bools; try done; lia.
      - intros t. cbn [parse ABNFAnyOf]. brk; [destruct Hp; simpl in *; bools; lia|].
        by rewrite qdtext_plain. }
  assert (deref (w ++ dquote :: rest) <> 0%Z) as H0.
  { destruct w as [|c w]; [done|]. apply Forall_cons in Hw as [[[? _] _] _]. done. }
  destruct (deref (w ++ dquote :: rest) =? 0)%Z eqn:E; bools; [done|]. simpl.
  rewrite andb_false_r, drop_app_length, lr_parse_eq. simpl. f_equal. lia.
Qed.

(** The witness of [quoted_string_first_quote]: of a display name with an
    escaped quote only the part up to that quote is taken. *)
Lemma quoted_string_first_quote_witness :
  parse ABNFSIPQuotedString (dquote :: #"a\" ++ dquote :: #"b" ++ [dquote]) = Some 4.
Proof.
  apply (quoted_string_first_quote #"a\" (#"b" ++ [dquote])); [|vm_compute; lia].
  repeat constructor; vm_compute; discriminate.
Defined.

(** ** Ranges and literals *)

(** ABNFRange is no range.  The bounds are joined by a disjunction, so the
    rule takes every character and, at the end of the string, steps over the
    terminator; a quoted-pair whose backslash ends the string leaves the
    buffer. *)
Theorem range_takes_all lo hi c t :
  (lo <= hi)%Z ->
  parse (ABNFRange lo hi) (c :: t) = Some 1 /\ parse (ABNFRange lo hi) [] = None /\
  parse ABNFSIPQuotedPair #"\" = None.
Proof.
  intros H. cbn [parse ABNFRange charRule]. rewrite !range_always by done. by split_and!.
Qed.

(** The witness of [range_takes_all]. *)
Lemma range_takes_all_witness :
  parse (ABNFRange 35 91) [dquote] = Some 1 /\ parse (ABNFRange 35 91) [] = None /\
  parse ABNFSIPQuotedPair #"\" = None.
Proof. apply range_takes_all. lia. Defined.


Lemma literal_match_spec same cs t :
  nul_free t ->
  literal_match same cs t = true <->
  exists w rest, t = w ++ rest /\ Forall2 (fun c v => same (schar c) v = true) w cs.
Proof.
  intros Hf. revert t Hf. induction cs as [|v cs IH]; intros t Hf; simpl.
  - split; [intros _; by exists [], t|done].
  - destruct Hf as [|c t Hc Hf].
    + split; [done|]. intros (w & rest & E & H). inversion H; subst. done.
    + destruct (schar c =? 0)%Z eqn:E0; bools; [done|]. simpl.
      destruct (same (schar c) v) eqn:E; simpl; [rewrite IH by done|]; split.
      * intros (w & rest & -> & H). exists (c :: w), rest. by split; [|constructor].
      * intros (w & rest & Ew & H). inversion H; subst. injection Ew as -> ->. by exists l, rest.
      * done.
      * intros (w & rest & Ew & H). inversion H; subst. injection Ew as -> ->. congruence.
Qed.

(** The language of a caseless literal.  [ABNFStringLiteral] takes its
    literal exactly when the text begins with characters that each equal the
    literal's or differ from it by 32 in either direction, and takes nothing
    otherwise.  For lower-case letters this is case folding. *)
Theorem string_literal_language cs t :
  cs <> [] -> Forall (fun v => v <> 0%Z) cs -> length cs <= 50 -> nul_free t ->
  exists n, parse (ABNFStringLiteral cs) t = Some n /\ (n = length cs \/ n = 0) /\
    (n <> 0 <-> exists w rest, t = w ++ rest /\
       Forall2 (fun c v => same_caseless (schar c) v = true) w cs).
Proof.
  intros Hne Hcs Hl Hf. rewrite string_literal_parse by done. eexists. split; [done|].
  rewrite <- literal_match_spec by done.
  destruct (literal_match same_caseless cs t); [|split; [by right|done]].
  split; [by left|]. split; [done|]. intros _. by destruct cs.
Qed.

(** The witness of [string_literal_language]. *)
Lemma string_literal_language_witness :
  exists n, parse (ABNFStringLiteral (chars "udp")) #"UDP" = Some n /\ (n = 3 \/ n = 0) /\
    (n <> 0 <-> exists w rest, #"UDP" = w ++ rest /\
       Forall2 (fun c v => same_caseless (schar c) v = true) w (chars "udp")).
Proof.
  apply (string_literal_language (chars "udp") #"UDP");
    [discriminate|repeat constructor; discriminate|vm_compute; lia|
     repeat constructor; discriminate].
Defined.

Lemma lr_tokens_agree rs t n toks :
  lrParseTokens rs t = Some (n, toks) -> n <> 0 ->
  parse (lrSequence rs) t = Some n /\ length toks = length rs /\ concat toks = take n t.
Proof.
  unfold lrParseTokens. rewrite lr_sequence_parse, lr_tokens_parse.
  destruct (lr_tokens rs t) as [[[k|] toks']|] eqn:E; simpl; try done.
  - intros [= <- <-] _. apply lr_tokens_concat in E. done.
  - intros [= <- <-] ?. done.
Qed.

(** [parseTokens] cuts what [parse] accepts.  For the grammar's sequences a
    successful [parseTokens] consumes what [parse] consumes, pushes one token per
    element of the sequence, optional ones included, and the tokens put
    together are the consumed text: nothing is lost between tokens. *)
Theorem parse_tokens_partition :
  Forall (fun rs => forall t n toks, lrParseTokens rs t = Some (n, toks) -> n <> 0 ->
      parse (lrSequence rs) t = Some n /\ length toks = length rs /\ concat toks = take n t)
    [ABNFSIPHostPort_rules; ABNFSIPUserInfo_rules; ABNFSIPURIHeaders_rules; ABNFSIPURI_rules;
     ABNFSIPHierPart_rules; ABNFSIPAbsoluteURI_rules; ABNFSIPRequestLine_rules;
     ABNFSIPStatusLine_rules; ABNFSNPPRequestLine_rules; ABNFSIPNameAddr_rules;
     ABNFSIPGenericParam_rules; ABNFSIPContactParam_rules; ABNFSIPFromSpec_rules;
     ABNFSIPCSeq_rules].
Proof. repeat (apply Forall_cons_2; [apply lr_tokens_agree|]). by apply Forall_nil. Qed.

(** The witness of [parse_tokens_partition]. *)
Lemma parse_tokens_partition_witness :
  concat (cons #"example.com" (cons #":5060" nil)) = take 16 #"example.com:5060;lr".
Proof.
  apply (Forall_inv parse_tokens_partition #"example.com:5060;lr" 16
           (cons #"example.com" (cons #":5060" nil))); [vm_compute; reflexivity|lia].
Defined.

(** ** What can stand in a URI *)

(** Visible ASCII other than the characters that delimit a URI in a header. *)
Definition uri_char (c : ascii) : bool :=
  ((33 <=? schar c) && (schar c <=? 126))%Z &&
  negb (existsb (Z.eqb (schar c)) [34; 60; 62; 92; 94; 96; 123; 124; 125]%Z).

#[export] Instance w_unreserved : Within uri_char ABNF_SIP_unreserved. Proof. apply _. Qed.
#[export] Instance w_escaped : Within uri_char ABNF_SIP_escaped. Proof. apply _. Qed.
#[export] Instance w_pname : Within uri_char ABNF_SIP_pname. Proof. apply _. Qed.
#[export] Instance w_uric : Within uri_char ABNF_SIP_uric. Proof. apply _. Qed.
#[export] Instance w_HexSeq : Within uri_char ABNFSIPHexSeq. Proof. apply _. Qed.
#[export] Instance w_HexPart : Within uri_char ABNFSIPHexPart. Proof. apply _. Qed.
#[export] Instance w_Host : Within uri_char ABNFSIPHost. Proof. apply _. Qed.
#[export] Instance w_HostPort : Within uri_char ABNFSIPHostPort. Proof. apply _. Qed.
#[export] Instance w_Scheme : Within uri_char ABNFSIPScheme. Proof. apply _. Qed.
#[export] Instance w_UserInfo : Within uri_char ABNFSIPUserInfo. Proof. apply _. Qed.
#[export] Instance w_URIHeaders : Within uri_char ABNFSIPURIHeaders. Proof. apply _. Qed.
#[export] Instance w_URI : Within uri_char ABNFSIPURI. Proof. apply _. Qed.
#[export] Instance w_PathSegments : Within uri_char ABNFSIPPathSegments. Proof. apply _. Qed.
#[export] Instance w_HierPart : Within uri_char ABNFSIPHierPart. Proof. apply _. Qed.
#[export] Instance w_OpaquePart : Within uri_char ABNFSIPOpaquePart. Proof. apply _. Qed.
#[export] Instance w_AbsoluteURI : Within uri_char ABNFSIPAbsoluteURI. Proof. apply _. Qed.
#[export] Instance w_RequestURI : Within uri_char ABNFSIPRequestURI. Proof. apply _. Qed.
#[export] Instance w_addr_spec : Within uri_char ABNF_SIP_addr_spec. Proof. apply _. Qed.

(** An accepted URI cannot break out of its header.  Every character the
    Request-URI or the addr-spec rule steps over is visible ASCII and none of
    the quote, the angle brackets, the backslash or the braces: no white
    space, no line break and no delimiter of the name-addr form. *)
Theorem uri_chars t n :
  parse ABNFSIPRequestURI t = Some n \/ parse ABNF_SIP_addr_spec t = Some n ->
  Forall (fun c => uri_char c = true) (take n t).
Proof. intros [H|H]; [by apply (w_RequestURI t n)|by apply (w_addr_spec t n)]. Qed.

(** The witness of [uri_chars]: a URI is cut before the line break. *)
Lemma uri_chars_witness :
  Forall (fun c => uri_char c = true) (take 9 (#"sip:a@b.c" ++ CRLF ++ #"Evil: x")).
Proof. apply (uri_chars (#"sip:a@b.c" ++ CRLF ++ #"Evil: x") 9). left. vm_compute. reflexivity. Defined.

(** Where the accepted language is not the documented one.  The folding
    accepts a version with O for the slash, and 3 for the S of SIP; an escape takes one hexadecimal
    digit of the two it documents; a parenthesis is not a mark and a slash is;
    a parameter without a value is no generic-param; an empty reason phrase
    makes the status line fail. *)
Theorem grammar_divergences :
  ABNFEvaluate ABNFSIPRequestLine #"INVITE sip:bob@example.com SIPO2.0" = Some true /\
  ABNFEvaluate ABNFSIPVersion #"3IP/2.0" = Some true /\
  parse ABNF_SIP_escaped #"%4a" = Some 2 /\
  parse ABNF_SIP_mark #"(" = Some 0 /\ parse ABNF_SIP_mark #"/" = Some 1 /\
  parse ABNFSIPGenericParam #"lr" = Some 0 /\
  ABNFEvaluate ABNFSIPStatusLine #"SIP/2.0 200 " = Some false.
Proof. by vm_compute. Qed.
