(* ===== verification/CoreStrings.v ===== *)
(** * Strings of the C++ standard library, Boost.String and CoreUtils

    The member functions of [std::string] and the C character functions the
    parsers use, the Boost string algorithms as an interface ([BoostString]:
    operations of a library that is not part of the repository, with their
    documented behaviour as laws), the string helpers of src/utl/CoreUtils.cpp,
    and the outcomes of code that can throw or leave its buffer. *)

From S2P Require Import Prelude Abnf AbnfFacts AbnfSearch.
Open Scope nat_scope.

(** ** Outcomes

    [UB] is undefined behaviour (a pointer past the end of its buffer, an
    integer conversion without a defined result), [Throw] an exception. *)
Inductive exn :=
| SIPParserException (what : string)
| SIPException (what : string)
| BadFunctionCall
| OutOfRange.

Inductive outcome (A : Type) :=
| Ret (a : A)
| Throw (e : exn)
| UB.
Arguments Ret {_} _.
Arguments Throw {_} _.
Arguments UB {_}.

#[export] Instance outcome_ret : MRet outcome := @Ret.
#[export] Instance outcome_bind : MBind outcome := fun A B f m =>
  match m with
  | Ret a => f a
  | Throw e => Throw e
  | UB => UB
  end.

(** A parse whose pointer may leave the buffer. *)
Definition checked {A} (o : option A) : outcome A :=
  match o with Some a => Ret a | None => UB end.

(** ** std::string *)

Definition npos : Z := (2 ^ 64 - 1)%Z.

Fixpoint is_prefix (key s : str) : bool :=
  match key, s with
  | [], _ => true
  | k :: key, c :: s => Ascii.eqb k c && is_prefix key s
  | _ :: _, [] => false
  end.

(** [s.find(key)]: the first position. *)
Fixpoint str_find (key s : str) : option nat :=
  if is_prefix key s then Some 0
  else match s with
       | [] => None
       | _ :: s => option_map S (str_find key s)
       end.

(** [s.rfind(key)]: the last position. *)
Fixpoint str_rfind (key s : str) : option nat :=
  match s with
  | [] => if is_prefix key s then Some 0 else None
  | _ :: s' =>
      match str_rfind key s' with
      | Some i => Some (S i)
      | None => if is_prefix key s then Some 0 else None
      end
  end.

(** What a [std::string] constructed from [s.c_str() + n] holds: the text up to
    the first NUL. *)
Definition cstr (s : str) : str := take (strlen s) s.

(** ** Characters *)

(** [isspace] and [tolower], [toupper] in the C locale. *)
Definition isspace (c : ascii) : bool :=
  ((9 <=? schar c) && (schar c <=? 13) || (schar c =? 32))%Z.
Definition isspace_b (c : ascii) : Prop := isspace c = true.
Definition tolower (c : ascii) : ascii :=
  if ((65 <=? schar c) && (schar c <=? 90))%Z then chr (schar c + 32) else c.
Definition toupper (c : ascii) : ascii :=
  if ((97 <=? schar c) && (schar c <=? 122))%Z then chr (schar c - 32) else c.

(** ** atoi *)

Definition digit_val (c : ascii) : option Z :=
  if ((48 <=? schar c) && (schar c <=? 57))%Z then Some (schar c - 48)%Z else None.

Fixpoint atoi_digits (acc : Z) (s : str) : Z :=
  match s with
  | [] => acc
  | c :: s =>
      match digit_val c with
      | Some d => atoi_digits (10 * acc + d) s
      | None => acc
      end
  end.

Fixpoint skip_space (s : str) : str :=
  match s with
  | c :: s' => if isspace c then skip_space s' else s
  | [] => []
  end.

Definition atoi_value (s : str) : Z :=
  match skip_space s with
  | c :: s' =>
      if Ascii.eqb c "-" then (- atoi_digits 0 s')%Z
      else if Ascii.eqb c "+" then atoi_digits 0 s'
      else atoi_digits 0 (c :: s')
  | [] => 0%Z
  end.

(** [atoi]; a value that does not fit an [int] is undefined behaviour. *)
Definition atoi (s : str) : outcome Z :=
  let v := atoi_value s in
  if ((- 2 ^ 31 <=? v) && (v <? 2 ^ 31))%Z then Ret v else UB.

(** ** Decimal printing: [operator<<] and [lexical_cast] of unsigned numbers *)

Definition digit_char (d : nat) : ascii := ascii_of_nat (48 + d).

Fixpoint print_digits (fuel : nat) (n : nat) (acc : str) : str :=
  match fuel with
  | 0 => acc
  | S fuel =>
      let acc := digit_char (n mod 10) :: acc in
      if n / 10 =? 0 then acc else print_digits fuel (n / 10) acc
  end.

(** One digit more than there can be. *)
Definition string_from_number (n : nat) : str := print_digits (S n) n [].

(** ** The Boost string algorithms *)

(** No white space at either end. *)
Definition trimmed (s : str) : Prop :=
  match s with [] => True | c :: _ => isspace c = false end /\
  match last s with None => True | Some c => isspace c = false end.

Definition is_sep (seps : str) (c : ascii) : bool := existsb (Ascii.eqb c) seps.
Definition sep_free (seps w : str) : Prop := Forall (fun c => is_sep seps c = false) w.

Class BoostString := {
  to_lower : str -> str;
  to_upper : str -> str;
  trim : str -> str;
  (** [boost::tokenizer] over [boost::char_separator(seps)]. *)
  tokenizer : str -> str -> list str;

  to_lower_map : forall s, to_lower s = map tolower s;
  to_upper_map : forall s, to_upper s = map toupper s;
  trim_removes : forall s, trimmed (trim s) /\
    exists a b, s = a ++ trim s ++ b /\ Forall isspace_b a /\ Forall isspace_b b;
  tokenizer_nil : forall seps, tokenizer seps [] = [];
  tokenizer_sep : forall seps c s, is_sep seps c = true ->
    tokenizer seps (c :: s) = tokenizer seps s;
  tokenizer_end : forall seps w, w <> [] -> sep_free seps w -> tokenizer seps w = [w];
  tokenizer_word : forall seps w c s, w <> [] -> sep_free seps w -> is_sep seps c = true ->
    tokenizer seps (w ++ c :: s) = w :: tokenizer seps s
}.

(** ** CoreUtils.cpp *)

Section core_utils.
Context {boost : BoostString}.

Definition find_is (n : nat) (o : option nat) : bool :=
  match o with Some i => i =? n | None => false end.

Definition string_starts_with (s key : str) : bool := find_is 0 (str_find (cstr key) s).

Definition string_caseless_starts_with (s key_ : str) : bool :=
  let key := to_lower (cstr key_) in
  let lstr := to_lower s in
  find_is 0 (str_find key lstr).

Definition string_ends_with (s key : str) : bool :=
  find_is (length s - strlen key) (str_rfind (cstr key) s).

Definition string_caseless_ends_with (s key : str) : bool :=
  let lstr := to_lower s in
  find_is (length lstr - strlen key) (str_rfind (cstr key) lstr).

Definition string_to_lower (s : str) : str := to_lower s.
Definition string_to_upper (s : str) : str := to_upper s.

Definition string_left (s : str) (size : nat) : str :=
  if length s <=? size then s else take size s.

Definition string_left_until (s key : str) : str :=
  match str_find (cstr key) s with
  | Some i => take i s
  | None => s
  end.

Definition string_right (s : str) (size : nat) : str :=
  if length s <=? size then s else drop (length s - size) s.

(** The [while] of [string_replace] on the part of [str] from [pos] on; [None]
    when the rounds do not suffice. *)
Fixpoint replace_loop (what with_ : str) (fuel : nat) (s : str) : option str :=
  match fuel with
  | 0 => None
  | S fuel =>
      match str_find what s with
      | Some i =>
          s' ← replace_loop what with_ fuel (drop (i + length what) s);
          Some (take i s ++ with_ ++ s')
      | None => Some s
      end
  end.

Definition string_replace (fuel : nat) (s what with_ : str) : option str :=
  replace_loop (cstr what) (cstr with_) fuel s.

(** [string_to_js_hash], on [unsigned int]. *)
Definition js_hash_step (hash : Z) (c : ascii) : Z :=
  Z.lxor hash (u32 (u32 (Z.shiftl hash 5) + schar c + Z.shiftr hash 2)).
Definition string_to_js_hash (s : str) : Z := fold_left js_hash_step s 1315423911%Z.

End core_utils.

(** ** A reference instance *)

Definition ref_ltrim (s : str) : str := skip_space s.
Definition ref_trim (s : str) : str := rev (skip_space (rev (skip_space s))).

(** [cur] is the token being read. *)
Fixpoint ref_tokens (seps cur s : str) : list str :=
  match s with
  | [] => match cur with [] => [] | _ => [cur] end
  | c :: s =>
      if is_sep seps c then
        match cur with
        | [] => ref_tokens seps [] s
        | _ => cur :: ref_tokens seps [] s
        end
      else ref_tokens seps (cur ++ [c]) s
  end.

(** ** Facts *)

Lemma cstr_nul_free s : nul_free s -> cstr s = s.
Proof. intros H. unfold cstr. rewrite strlen_nul_free by done. by rewrite take_ge. Qed.

Lemma strlen_le s : strlen s <= length s.
Proof. induction s as [|c s IH]; simpl; [done|]. brk; lia. Qed.

Lemma cstr_is_nul_free s : nul_free (cstr s).
Proof.
  unfold cstr. induction s as [|c s IH]; simpl; [constructor|].
  brk; simpl; [constructor|]. bools. by constructor.
Qed.

Lemma is_prefix_spec key s : is_prefix key s = true <-> exists rest, s = key ++ rest.
Proof.
  revert s. induction key as [|k key IH]; intros s; simpl.
  - split; [by exists s|done].
  - destruct s as [|c s]; [split; [done|by intros [? [=]]]|].
    rewrite andb_true_iff, Ascii.eqb_eq, IH. split.
    + intros [-> [rest ->]]. by exists rest.
    + intros [rest [= -> ->]]. eauto.
Qed.

Lemma find_unfold key s :
  str_find key s = if is_prefix key s then Some 0
               else match s with [] => None | _ :: s => option_map S (str_find key s) end.
Proof. by destruct s. Qed.

(** [find] returns the first occurrence. *)
Lemma find_some key s i :
  str_find key s = Some i ->
  is_prefix key (drop i s) = true /\ forall j, j < i -> is_prefix key (drop j s) = false.
Proof.
  revert i. induction s as [|c s IH]; intros i; rewrite find_unfold;
    (destruct (is_prefix key _) eqn:E; [intros [= <-]; split; [done|lia]|]); [done|].
  destruct (str_find key s) as [k|]; [|done]. intros [= <-].
  destruct (IH k) as [H1 H2]; [done|]. split; [done|].
  intros [|j] Hj; [done|]. simpl. apply H2. lia.
Qed.

Lemma find_none key s i : str_find key s = None -> i <= length s -> is_prefix key (drop i s) = false.
Proof.
  revert i. induction s as [|c s IH]; intros i; rewrite find_unfold;
    (destruct (is_prefix key _) eqn:E; [done|]).
  - intros _ Hi. destruct i; [done|]. simpl in Hi. lia.
  - destruct (str_find key s) eqn:Ef; [done|]. intros _ Hi.
    destruct i as [|i]; [done|]. simpl. apply IH; [done|]. simpl in Hi. lia.
Qed.

Lemma find_first key pre rest :
  (forall j, j < length pre -> is_prefix key (drop j (pre ++ key ++ rest)) = false) ->
  str_find key (pre ++ key ++ rest) = Some (length pre).
Proof.
  induction pre as [|c pre IH]; intros H.
  - rewrite find_unfold. simpl. replace (is_prefix key (key ++ rest)) with true; [done|].
    symmetry. apply is_prefix_spec. by exists rest.
  - rewrite find_unfold. pose proof (H 0) as H0. rewrite drop_0 in H0.
    rewrite H0 by (simpl; lia). simpl. rewrite IH; [done|].
    intros j Hj. apply (H (S j)). simpl. lia.
Qed.

Lemma find_le key s i : str_find key s = Some i -> i + length key <= length s.
Proof.
  revert i. induction s as [|c s IH]; intros i; rewrite find_unfold;
    (destruct (is_prefix key _) eqn:E;
      [intros [= <-]; apply is_prefix_spec in E as [rest E];
       apply (f_equal length) in E; rewrite length_app in E; lia|]); [done|].
  destruct (str_find key s) as [k|]; [|done]. intros [= <-]. specialize (IH k eq_refl). simpl. lia.
Qed.

Lemma find_is_zero key s : find_is 0 (str_find key s) = is_prefix key s.
Proof.
  rewrite find_unfold. destruct (is_prefix key s); [done|].
  destruct s; [done|]. by destruct (str_find key _).
Qed.

Lemma rfind_some key s i : str_rfind key s = Some i -> i <= length s /\ is_prefix key (drop i s) = true.
Proof.
  revert i. induction s as [|c s IH]; intros i; simpl.
  - destruct (is_prefix key []) eqn:E; [|done]. intros [= <-]. done.
  - destruct (str_rfind key s) as [k|].
    + intros [= <-]. destruct (IH k) as [? ?]; [done|]. split; [simpl; lia|done].
    + destruct (is_prefix key (c :: s)) eqn:E; [|done]. intros [= <-]. split; [lia|done].
Qed.

Lemma rfind_last key s i :
  i <= length s -> is_prefix key (drop i s) = true -> exists j, str_rfind key s = Some j /\ i <= j.
Proof.
  revert i. induction s as [|c s IH]; intros i Hi Hp; simpl in *.
  - assert (i = 0) as -> by lia. rewrite drop_0 in Hp. rewrite Hp. by exists 0.
  - destruct i as [|i].
    + rewrite drop_0 in Hp. destruct (str_rfind key s) as [k|]; [exists (S k); split; [done|lia]|].
      rewrite Hp. by exists 0.
    + destruct (IH i) as (j & -> & Hj); [lia|done|]. exists (S j). split; [done|lia].
Qed.

(** The prefix and suffix tests.  [string_starts_with] and
    [string_ends_with], written with [find] and [rfind], decide whether the key
    is a prefix, or a suffix, of the string. *)
Theorem starts_ends_with s key :
  nul_free key ->
  (string_starts_with s key = true <-> exists rest, s = key ++ rest) /\
  (string_ends_with s key = true <-> exists pre, s = pre ++ key).
Proof.
  intros Hk. unfold string_starts_with, string_ends_with.
  rewrite cstr_nul_free, strlen_nul_free by done. rewrite find_is_zero. split; [apply is_prefix_spec|].
  split.
  - destruct (str_rfind key s) as [i|] eqn:E; [|done]. simpl. intros Hi. bools. subst i.
    apply rfind_some in E as [Hl [rest Hr]%is_prefix_spec].
    pose proof (f_equal length Hr) as Hlen. rewrite length_drop, length_app in Hlen.
    exists (take (length s - length key) s).
    destruct rest; [|destruct key; simpl in *; [|lia]].
    + rewrite app_nil_r in Hr. rewrite <- (take_drop (length s - length key) s) at 1. by rewrite Hr.
    + rewrite Nat.sub_0_r, drop_all in Hr. done.
  - intros [pre ->]. rewrite length_app, Nat.add_sub.
    destruct (rfind_last key (pre ++ key) (length pre)) as (j & Hj & Hle).
    + rewrite length_app. lia.
    + rewrite drop_app_length. apply is_prefix_spec. exists []. by rewrite app_nil_r.
    + rewrite Hj. simpl. apply Nat.eqb_eq.
      apply rfind_some in Hj as [Hl [rest Hr]%is_prefix_spec]. apply (f_equal length) in Hr.
      rewrite length_app in Hl. rewrite length_drop, !length_app in Hr. lia.
Qed.

(** The witness of [starts_ends_with]: the test behind [isResponseTo]. *)
Lemma starts_ends_with_witness :
  nul_free #"invite" /\ exists pre, #"314159 invite" = pre ++ #"invite".
Proof.
  assert (nul_free #"invite") as Hk by (repeat constructor; discriminate). split; [done|].
  apply (proj2 (starts_ends_with #"314159 invite" #"invite" Hk)). reflexivity.
Defined.

(** [string_replace] with an empty [what] finds it at every position. *)
Lemma replace_loop_empty with_ fuel s : replace_loop [] with_ fuel s = None.
Proof.
  revert s. induction fuel as [|fuel IH]; intros s; [done|]. cbn [replace_loop].
  rewrite find_unfold. simpl. rewrite drop_0. by rewrite IH.
Qed.

Lemma replace_loop_total what with_ fuel s :
  what <> [] -> length s < fuel -> exists s', replace_loop what with_ fuel s = Some s'.
Proof.
  intros Hw. revert s. induction fuel as [|fuel IH]; intros s Hf; [lia|]. cbn [replace_loop].
  destruct (str_find what s) as [i|] eqn:E; [|by eexists].
  pose proof (find_le _ _ _ E). destruct what as [|c what]; [done|]. simpl in *.
  destruct (IH (drop (i + S (length what)) s)) as [s' ->].
  - rewrite length_drop. lia.
  - by eexists.
Qed.

(** When [string_replace] returns.  With something to look for the loop
    ends within one round more than the string has characters; with an empty
    [what] no number of rounds suffices. *)
Theorem string_replace_returns s what with_ :
  nul_free what ->
  (what <> [] -> exists s', string_replace (S (length s)) s what with_ = Some s') /\
  (what = [] -> forall fuel, string_replace fuel s what with_ = None).
Proof.
  intros Hw. unfold string_replace. rewrite (cstr_nul_free what) by done. split.
  - intros Hne. apply replace_loop_total; [done|lia].
  - intros -> fuel. apply replace_loop_empty.
Qed.

(** The witness of [string_replace_returns]. *)
Lemma string_replace_returns_witness :
  nul_free #"%20" /\ exists s', string_replace 10 #"a%20b%20c" #"%20" #" " = Some s'.
Proof.
  assert (nul_free #"%20") as Hw by (repeat constructor; discriminate). split; [done|].
  apply (proj1 (string_replace_returns #"a%20b%20c" #"%20" #" " Hw)). discriminate.
Defined.

(** *** The laws determine the operations *)

Lemma skip_space_app a s : Forall isspace_b a -> skip_space (a ++ s) = skip_space s.
Proof. induction 1 as [|c a Hc _ IH]; simpl; [done|]. unfold isspace_b in Hc. by rewrite Hc. Qed.

Lemma skip_space_head c s : isspace c = false -> skip_space (c :: s) = c :: s.
Proof. intros H. simpl. by rewrite H. Qed.

Lemma skip_space_split s :
  exists a, s = a ++ skip_space s /\ Forall isspace_b a /\
    match skip_space s with [] => True | c :: _ => isspace c = false end.
Proof.
  induction s as [|c s (a & Hs & Ha & Hh)]; simpl; [exists []; repeat split; constructor|].
  destruct (isspace c) eqn:E.
  - exists (c :: a). rewrite Hs at 1. split; [done|]. split; [by constructor|done].
  - exists []. split; [done|]. split; [constructor|done].
Qed.

(** A decomposition into white space, trimmed text and white space is unique. *)
Lemma ref_trim_unique a x b :
  Forall isspace_b a -> Forall isspace_b b -> trimmed x -> ref_trim (a ++ x ++ b) = x.
Proof.
  intros Ha Hb [Hh Hl]. unfold ref_trim. rewrite skip_space_app by done.
  destruct x as [|c x].
  - rewrite app_nil_l. rewrite <- (app_nil_r b), skip_space_app by done. done.
  - rewrite <- app_comm_cons, skip_space_head by done. rewrite app_comm_cons, rev_app_distr.
    rewrite skip_space_app by (by apply Forall_rev in Hb).
    destruct (last (c :: x)) as [d|] eqn:E; [|by apply last_None in E].
    apply last_Some in E as [l ->]. rewrite rev_app_distr. simpl. rewrite Hl. simpl.
    by rewrite rev_involutive.
Qed.

Lemma trimmed_rev s : trimmed (rev s) <-> trimmed s.
Proof.
  unfold trimmed. destruct s as [|c s]; [done|].
  assert (last (rev (c :: s)) = Some c) as -> by (simpl; by rewrite last_snoc).
  destruct (last (c :: s)) as [d|] eqn:E; [|by apply last_None in E].
  apply last_Some in E as [l E]. rewrite E, rev_app_distr. simpl. tauto.
Qed.

Lemma ref_trim_removes s : trimmed (ref_trim s) /\
  exists a b, s = a ++ ref_trim s ++ b /\ Forall isspace_b a /\ Forall isspace_b b.
Proof.
  destruct (skip_space_split s) as (a & Hs & Ha & Hh).
  destruct (skip_space_split (rev (skip_space s))) as (b & Hr & Hb & Ht).
  assert (skip_space s = ref_trim s ++ rev b) as Hd.
  { unfold ref_trim. rewrite <- rev_app_distr, <- Hr. by rewrite rev_involutive. }
  split.
  - unfold ref_trim at 1. apply trimmed_rev. split; [done|].
    rewrite Hd in Hh. unfold ref_trim in Hh.
    destruct (skip_space (rev (skip_space s))) as [|c x] eqn:E; [done|].
    destruct (last (c :: x)) as [d|] eqn:El; [|done].
    apply last_Some in El as [l El]. rewrite El, rev_app_distr in Hh. exact Hh.
  - exists a, (rev b). split; [by rewrite <- Hd|]. split; [done|]. by apply Forall_rev.
Qed.

Lemma ref_tokens_free seps cur w s :
  sep_free seps w -> ref_tokens seps cur (w ++ s) = ref_tokens seps (cur ++ w) s.
Proof.
  intros Hw. revert cur. induction Hw as [|c w Hc _ IH]; intros cur; simpl.
  - by rewrite app_nil_r.
  - rewrite Hc, IH. f_equal. by rewrite <- app_assoc.
Qed.

(** The interface can be met. *)
#[export, refine] Instance boost_reference : BoostString := {
  to_lower := map tolower;
  to_upper := map toupper;
  trim := ref_trim;
  tokenizer := fun seps s => ref_tokens seps [] s
}.
Proof.
  - done.
  - done.
  - apply ref_trim_removes.
  - done.
  - intros seps c s Hc. simpl. by rewrite Hc.
  - intros seps w Hne Hw. rewrite <- (app_nil_r w) at 1. rewrite ref_tokens_free by done.
    simpl. by destruct w.
  - intros seps w c s Hne Hw Hc. rewrite ref_tokens_free by done. simpl. rewrite Hc.
    by destruct w.
Defined.

Lemma tolower_idem c : tolower (tolower c) = tolower c.
Proof.
  apply Ascii.eqb_eq, (ascii_forallb (fun c => Ascii.eqb (tolower (tolower c)) (tolower c))).
  vm_compute. reflexivity.
Qed.

Section boost_facts.
Context {boost : BoostString}.

Lemma trim_eq s : trim s = ref_trim s.
Proof.
  destruct (trim_removes s) as (Ht & a & b & Hs & Ha & Hb).
  rewrite Hs at 2. by rewrite ref_trim_unique.
Qed.

Lemma trim_id s : trimmed s -> trim s = s.
Proof.
  intros H. rewrite trim_eq. rewrite <- (app_nil_r s) at 1. by apply (ref_trim_unique [] s []).
Qed.

Lemma trim_lead a s : Forall isspace_b a -> trimmed s -> trim (a ++ s) = s.
Proof.
  intros Ha H. rewrite trim_eq. rewrite <- (app_nil_r s) at 1. by apply (ref_trim_unique a s []).
Qed.

Lemma tokenizer_eq seps s : tokenizer seps s = ref_tokens seps [] s.
Proof.
  assert (forall n s, length s <= n -> tokenizer seps s = ref_tokens seps [] s) as H;
    [|by apply (H (length s))].
  clear s. induction n as [|n IH]; intros s Hn.
  { destruct s; [|simpl in Hn; lia]. apply tokenizer_nil. }
  assert (exists w rest, s = w ++ rest /\ sep_free seps w /\
    match rest with [] => True | c :: _ => is_sep seps c = true end) as (w & rest & -> & Hw & Hr).
  { clear. induction s as [|c s (w & rest & -> & Hw & Hr)]; [exists [], []; repeat constructor|].
    destruct (is_sep seps c) eqn:E.
    - exists [], (c :: w ++ rest). repeat split; [constructor|done].
    - exists (c :: w), rest. split; [done|]. split; [by constructor|done]. }
  rewrite ref_tokens_free by done. rewrite app_nil_l.
  destruct rest as [|c rest].
  - rewrite app_nil_r. destruct w; [apply tokenizer_nil|]. simpl. by apply tokenizer_end.
  - simpl. rewrite Hr. rewrite length_app in Hn. simpl in Hn. destruct w as [|d w].
    + simpl. rewrite tokenizer_sep by done. apply IH. lia.
    + rewrite tokenizer_word by done. f_equal. apply IH. lia.
Qed.

Lemma tokenizer_seps seps brk s :
  Forall (fun c => is_sep seps c = true) brk -> tokenizer seps (brk ++ s) = tokenizer seps s.
Proof. induction 1; [done|]. rewrite <- app_comm_cons, tokenizer_sep by done. done. Qed.

(** Lines of text separated by line breaks are the tokens. *)
Lemma tokenizer_line seps w brk s :
  w <> [] -> sep_free seps w -> brk <> [] -> Forall (fun c => is_sep seps c = true) brk ->
  tokenizer seps (w ++ brk ++ s) = w :: tokenizer seps s.
Proof.
  intros Hw Hf Hb Hs. destruct Hs as [|c brk Hc Hs]; [done|]. rewrite <- app_comm_cons.
  rewrite tokenizer_word by done. by rewrite tokenizer_seps.
Qed.

Lemma to_lower_idem s : to_lower (to_lower s) = to_lower s.
Proof. rewrite !to_lower_map, map_map. apply map_ext. apply tolower_idem. Qed.

End boost_facts.
