(* ===== verification/SipLines.v ===== *)
(** * Start lines as objects

    src/sipparser/SIPRequestLine.cpp and SIPStatusLine.cpp: the three fields of a
    start line.  Both classes find the fields with the same searches for a blank;
    the static functions are modelled on the text, [None] being the return value
    [false], and the member setters on the object's data. *)

From S2P Require Import Prelude Abnf AbnfFacts AbnfSearch CoreStrings.
Open Scope nat_scope.

(** [findNextIterFromString(" ", s)]: behind the first blank. *)
Definition after_blank (s : str) : option nat :=
  let offSet := findNextIterFromString #" " s in
  if offSet =? 0 then None else Some offSet.

(** Behind the second one. *)
Definition after_two (s : str) : option (nat * nat) :=
  match after_blank s with
  | None => None
  | Some first =>
      match after_blank (drop first s) with
      | None => None
      | Some second => Some (first, first + second)
      end
  end.

Module SIPRequestLine.

Definition EMPTY_REQUEST_LINE : str := #"INVALID sip:invalid SIP/2.0".
Definition check_empty (data : str) : str := if length data =? 0 then EMPTY_REQUEST_LINE else data.

Definition getMethod (rline : str) : option str :=
  match after_blank rline with
  | None => None
  | Some offSet => Some (take (offSet - 1) rline)
  end.

Definition setMethod (rline method : str) : option str :=
  match after_blank rline with
  | None => None
  | Some offSet => Some (cstr method ++ #" " ++ cstr (drop offSet rline))
  end.

Definition getURI (rline : str) : option str :=
  match after_two rline with
  | None => None
  | Some (methodOffset, uriOffset) =>
      Some (take (uriOffset - 1 - methodOffset) (drop methodOffset rline))
  end.

Definition setURI (rline uri : str) : option str :=
  match after_two rline with
  | None => None
  | Some (methodOffset, uriOffset) =>
      Some (take methodOffset rline ++ cstr uri ++ #" " ++ cstr (drop uriOffset rline))
  end.

Definition getVersion (rline : str) : option str :=
  match after_two rline with
  | None => None
  | Some (_, uriOffset) => Some (cstr (drop uriOffset rline))
  end.

Definition setVersion (rline version : str) : option str :=
  match after_two rline with
  | None => None
  | Some (_, uriOffset) => Some (take uriOffset rline ++ cstr version)
  end.

(** The member setters leave the data alone when the argument is empty, and
    replace empty data first. *)
Definition member_set (set : str -> str -> option str) (data arg : str) : str :=
  if length (cstr arg) =? 0 then data
  else default (check_empty data) (set (check_empty data) arg).

End SIPRequestLine.

Module SIPStatusLine.

Definition EMPTY_STATUS_LINE : str := #"SIP/2.0 0 INVALID".
Definition check_empty (data : str) : str := if length data =? 0 then EMPTY_STATUS_LINE else data.

Definition getVersion (sline : str) : option str :=
  match after_blank sline with
  | None => None
  | Some versionOffSet => Some (take (versionOffSet - 1) sline)
  end.

Definition setVersion (sline version : str) : option str :=
  if length (cstr version) =? 0 then None
  else
    match after_blank sline with
    | None => None
    | Some versionOffSet => Some (cstr version ++ #" " ++ cstr (drop versionOffSet sline))
    end.

Definition getStatusCode (sline : str) : option str :=
  match after_two sline with
  | None => None
  | Some (versionOffSet, statusCodeOffSet) =>
      Some (take (statusCodeOffSet - 1 - versionOffSet) (drop versionOffSet sline))
  end.

Definition setStatusCode (sline statusCode : str) : option str :=
  match after_two sline with
  | None => None
  | Some (versionOffSet, statusCodeOffSet) =>
      Some (take versionOffSet sline ++ cstr statusCode ++ #" " ++ cstr (drop statusCodeOffSet sline))
  end.

Definition getReasonPhrase (sline : str) : option str :=
  match after_two sline with
  | None => None
  | Some (_, statusCodeOffSet) => Some (cstr (drop statusCodeOffSet sline))
  end.

Definition setReasonPhrase (sline reasonPhrase : str) : option str :=
  match after_two sline with
  | None => None
  | Some (_, statusCodeOffSet) => Some (take statusCodeOffSet sline ++ cstr reasonPhrase)
  end.

End SIPStatusLine.

(** ** The fields of a line of three fields *)

Definition blank_free (w : str) : Prop := nul_free w /\ Forall (fun c => c <> " "%char) w.

Definition three (a b c : str) : str := a ++ #" " ++ b ++ #" " ++ c.

Lemma same_flip_blank c : schar c <> 0%Z -> c <> " "%char -> same_flip (schar c) 32 = false.
Proof.
  intros H0 Hb. unfold same_flip, flip_case. pose proof (schar_range c).
  assert (schar c <> 32%Z). { intros E. apply Hb, schar_inj. by rewrite E. }
  destruct (schar c <=? 90)%Z eqn:E; bools; apply orb_false_iff; split; apply Z.eqb_neq; lia.
Qed.

Lemma after_blank_at a x : blank_free a -> after_blank (a ++ #" " ++ x) = Some (S (length a)).
Proof.
  intros [Hf Hb]. unfold after_blank, findNextIterFromString. cbn [length lit String.list_ascii_of_string Nat.eqb].
  rewrite find_next_loop_skip; [|apply Forall_forall; intros c Hc; apply same_flip_blank|done].
  - reflexivity.
  - unfold nul_free in Hf. rewrite Forall_forall in Hf. by apply Hf.
  - rewrite Forall_forall in Hb. by apply Hb.
Qed.

Lemma drop_past (a : str) x : drop (S (length a)) (a ++ #" " ++ x) = x.
Proof. rewrite app_assoc. apply drop_app_length'. rewrite length_app. simpl. lia. Qed.

Lemma after_two_at a b c : blank_free a -> blank_free b ->
  after_two (three a b c) = Some (S (length a), S (length a) + S (length b)).
Proof.
  intros Ha Hb. unfold after_two, three. rewrite after_blank_at by done.
  rewrite drop_past. by rewrite after_blank_at.
Qed.

Lemma three_drop2 a b c : drop (S (length a) + S (length b)) (three a b c) = c.
Proof. unfold three. rewrite <- drop_drop, drop_past. apply drop_past. Qed.

Lemma three_take2 a b c : take (S (length a) + S (length b)) (three a b c) = a ++ #" " ++ b ++ #" ".
Proof.
  unfold three. replace (a ++ #" " ++ b ++ #" " ++ c) with ((a ++ #" " ++ b ++ #" ") ++ c)
    by (rewrite <- !app_assoc; done).
  rewrite take_app_length'; [done|]. rewrite !length_app. simpl. lia.
Qed.

Lemma three_take1 a b c : take (S (length a)) (three a b c) = a ++ #" ".
Proof.
  unfold three. replace (a ++ #" " ++ b ++ #" " ++ c) with ((a ++ #" ") ++ b ++ #" " ++ c)
    by (rewrite <- !app_assoc; done).
  rewrite take_app_length'; [done|]. rewrite length_app. simpl. lia.
Qed.

Lemma three_mid a b c : take (S (length a) + S (length b) - 1 - S (length a)) (drop (S (length a)) (three a b c)) = b.
Proof.
  unfold three. rewrite drop_past. replace (_ - 1 - _) with (length b) by lia.
  by rewrite take_app_length'.
Qed.

Lemma nul_free_join b c : nul_free b -> nul_free c -> nul_free (b ++ #" " ++ c).
Proof. intros. apply nul_free_app; split; [done|]. apply nul_free_app; split; [|done]. by repeat constructor. Qed.

(** Start lines.  On a line of three fields separated by single blanks the
    accessors of SIPRequestLine and SIPStatusLine read the fields, and each
    setter replaces its own field and leaves the other two as they are. *)
Theorem start_line_fields a b c x :
  blank_free a -> blank_free b -> nul_free c -> nul_free x ->
  let line := three a b c in
  SIPRequestLine.getMethod line = Some a /\ SIPRequestLine.getURI line = Some b /\
  SIPRequestLine.getVersion line = Some c /\
  SIPRequestLine.setMethod line x = Some (three x b c) /\
  SIPRequestLine.setURI line x = Some (three a x c) /\
  SIPRequestLine.setVersion line x = Some (three a b x) /\
  SIPStatusLine.getVersion line = Some a /\ SIPStatusLine.getStatusCode line = Some b /\
  SIPStatusLine.getReasonPhrase line = Some c /\
  (x <> [] -> SIPStatusLine.setVersion line x = Some (three x b c)) /\
  SIPStatusLine.setStatusCode line x = Some (three a x c) /\
  SIPStatusLine.setReasonPhrase line x = Some (three a b x).
Proof.
  intros Ha Hb Hc Hx line.
  assert (after_blank line = Some (S (length a))) as H1 by (by apply after_blank_at).
  assert (after_two line = Some (S (length a), S (length a) + S (length b))) as H2 by (by apply after_two_at).
  assert (drop (S (length a)) line = b ++ #" " ++ c) as H3 by apply drop_past.
  assert (take (S (length a) - 1) line = a) as H4
    by (replace (S (length a) - 1) with (length a) by lia; by apply take_app_length').
  pose proof (three_drop2 a b c : drop _ line = c) as H5.
  pose proof (three_take2 a b c : take _ line = _) as H6.
  pose proof (three_take1 a b c : take _ line = _) as H7.
  pose proof (three_mid a b c : take _ (drop _ line) = _) as H8.
  pose proof (cstr_nul_free x Hx) as Ex. pose proof (cstr_nul_free c Hc) as Ec.
  pose proof (cstr_nul_free _ (nul_free_join b c (proj1 Hb) Hc)) as Ebc.
  unfold SIPRequestLine.getMethod, SIPRequestLine.getURI, SIPRequestLine.getVersion,
    SIPRequestLine.setMethod, SIPRequestLine.setURI, SIPRequestLine.setVersion,
    SIPStatusLine.getVersion, SIPStatusLine.getStatusCode, SIPStatusLine.getReasonPhrase,
    SIPStatusLine.setVersion, SIPStatusLine.setStatusCode, SIPStatusLine.setReasonPhrase.
  rewrite H1, H2, H4, H5, H6, H7, H8, H3, Ex, Ec, Ebc. unfold three. rewrite <- !app_assoc.
  split_and!; try done. intros Hne. by destruct x.
Qed.

Lemma start_line_fields_witness :
  SIPRequestLine.setMethod #"INVITE sip:a SIP/2.0" #"CANCEL" = Some #"CANCEL sip:a SIP/2.0" /\
  blank_free #"INVITE".
Proof.
  assert (blank_free #"INVITE") as H1 by (split; repeat constructor; done).
  assert (blank_free #"sip:a") as H2 by (split; repeat constructor; done).
  split; [|done].
  exact (proj1 (proj2 (proj2 (proj2
    (start_line_fields #"INVITE" #"sip:a" #"SIP/2.0" #"CANCEL" H1 H2
       ltac:(repeat constructor; done) ltac:(repeat constructor; done)))))).
Defined.
