(* ===== verification/SipParser.v ===== *)
(** * SIPParser

    src/sipparser/SIPParser.cpp: the character tests, percent escaping, quoting
    and the table of reason phrases that the header and message classes
    inherit. *)

From S2P Require Import Prelude Abnf AbnfFacts AbnfSearch CoreStrings.
Open Scope nat_scope.

(** ** Characters *)

Definition isChar (c : ascii) : bool := ((0 <=? schar c) && (schar c <=? 127))%Z.
Definition isCtl (c : ascii) : bool :=
  ((0 <=? schar c) && (schar c <=? 31) || (schar c =? 127))%Z.
Definition isDigit (c : ascii) : bool := ((48 <=? schar c) && (schar c <=? 57))%Z.

(** [isxdigit] and the value of a hexadecimal digit as [unescape] computes it. *)
Definition isxdigit (c : ascii) : bool :=
  (isDigit c || ((65 <=? schar c) && (schar c <=? 70)) || ((97 <=? schar c) && (schar c <=? 102)))%Z.
Definition xdigit_val (c : ascii) : Z :=
  (if isDigit c then schar c - 48 else schar (toupper c) - 65 + 10)%Z.

(** ** Escaping *)

Definition safeChars : str :=
  #"abcdefghijklmnopqrstuvwxyzABCDEFGHIJKLMNOPQRSTUVWXYZ0123456789$-_.!*'(),+#".

(** [strspn]. *)
Fixpoint strspn (s accept : str) : nat :=
  match s with
  | c :: s => if is_sep accept c then S (strspn s accept) else 0
  | [] => 0
  end.

(** [sprintf("%%%02X", c)]. *)
Definition hex_digit (d : Z) : ascii := chr (if d <? 10 then 48 + d else 55 + d)%Z.
Definition escaped (c : ascii) : str :=
  ["%"%char; hex_digit (uchar c / 16); hex_digit (uchar c mod 16)].

(** The [while] of [escape]; [s] is the text from [offSet] on, which is also
    [str[pos+1]] at the head of the loop. *)
Fixpoint escape_loop (fuel : nat) (validChars s : str) : str :=
  match fuel with
  | 0 => []
  | S fuel =>
      let k := strspn s validChars in
      match drop k s with
      | c :: tail => take k s ++ escaped c ++ escape_loop fuel validChars tail
      | [] => take k s
      end
  end.

(** Every round consumes a character of [str]; the last finds the end. *)
Definition escape (s : str) (validChars : option str) : str :=
  let s := cstr s in
  escape_loop (S (length s)) (match validChars with None => safeChars | Some v => v end) s.

(** The [while] of [unescape] on the part of [result] that follows the last
    percent sign.  [result[pos+2]] is read also when [pos] is the last
    position, where it is out of range. *)
Fixpoint unescape_loop (s : str) : outcome str :=
  match s with
  | [] => Ret []
  | c :: s' =>
      if Ascii.eqb c "%" then
        match s' with
        | [] => UB
        | d1 :: d2 :: s'' =>
            if isxdigit d1 && isxdigit d2 then
              r ← unescape_loop s'';
              Ret (chr (xdigit_val d2 + Z.shiftl (xdigit_val d1) 4) :: r)
            else
              r ← unescape_loop s';
              Ret (c :: r)
        | _ =>
            r ← unescape_loop s';
            Ret (c :: r)
        end
      else
        r ← unescape_loop s';
        Ret (c :: r)
  end.

Definition unescape (s : str) : outcome str := unescape_loop (cstr s).

(** ** Quoting *)

(** [OSS::string_trim] of CoreUtils.cpp: white space off the front, then off
    the back. *)
Definition string_trim (s : str) : str := rev (skip_space (rev (skip_space s))).

(** [s[i]] of a [std::string]: the terminator is readable, what follows is not. *)
Definition at_index (s : str) (i : nat) : outcome Z :=
  if i <=? length s then Ret (deref (drop i s)) else UB.

(** [s[s.size() - 1]]: for the empty string the index wraps around. *)
Definition at_last (s : str) : outcome Z :=
  match length s with 0 => UB | S n => at_index s n end.

Definition unquoteString (quotedString : str) : outcome str :=
  let s := string_trim quotedString in
  front ← at_index s 0;
  if (front =? 34)%Z then
    back ← at_last s;
    if (back =? 34)%Z then Ret (take (length s - 2) (drop 1 s)) else Ret s
  else Ret s.

Definition enquoteString (quotedString : str) : outcome str :=
  let s := string_trim quotedString in
  front ← at_index s 0;
  if negb (front =? 34)%Z then
    back ← at_last s;
    if negb (back =? 34)%Z then Ret ([chr 34] ++ s ++ [chr 34]) else Ret s
  else Ret s.

(** ** Reason phrases *)

Definition reason_table : list (Z * string) :=
  [(100, "Trying"); (180, "Ringing"); (181, "Call Is Being Forwarded"); (182, "Queued");
   (183, "Session Progress"); (200, "OK"); (202, "Accepted"); (300, "Multiple Choices");
   (301, "Moved Permanently"); (302, "Moved Temporarily"); (305, "Use Proxy");
   (380, "Alternative Service"); (400, "Bad Request"); (401, "Unauthorized");
   (402, "Payment Required"); (403, "Forbidden"); (404, "Not Found");
   (405, "Method Not Allowed"); (406, "Not Acceptable");
   (407, "Proxy Authentication Required"); (408, "Request Timeout"); (409, "Conflict");
   (410, "Gone"); (411, "Length Required"); (412, "Conditional Request Failed");
   (413, "Request Entity Too Large"); (414, "Request-URI Too Large");
   (415, "Unsupported Media Type"); (416, "Unsupported Uri Scheme"); (420, "Bad Extension");
   (422, "Session Interval Too Small"); (423, "Interval Too Short");
   (480, "Temporarily not available"); (481, "Call Leg/Transaction Does Not Exist");
   (482, "Loop Detected"); (483, "Too Many Hops"); (484, "Address Incomplete");
   (485, "Ambiguous"); (486, "Busy Here"); (487, "Request Cancelled");
   (488, "Not Acceptable Here"); (489, "Bad Event"); (491, "Request Pending");
   (500, "Internal Server Error"); (501, "Not Implemented"); (502, "Bad Gateway");
   (503, "Service Unavailable"); (504, "Gateway Time-out");
   (505, "SIP Version not supported"); (600, "Busy Everywhere"); (603, "Decline");
   (604, "Does not exist anywhere"); (606, "Not Acceptable")]%Z%string.

Fixpoint reason_lookup (code : Z) (l : list (Z * string)) : option string :=
  match l with
  | [] => None
  | (c, s) :: l => if (c =? code)%Z then Some s else reason_lookup code l
  end.

(** The [if] ladder: the class is [statusCode / 100] (C++ division truncates);
    a code without a phrase of its own takes the one of its class. *)
Definition getReasonPhrase (statusCode : Z) (reasonPhrase : str) : str :=
  if negb (length reasonPhrase =? 0) then reasonPhrase
  else
    let i := Z.quot statusCode 100 in
    if ((1 <=? i) && (i <=? 6))%Z then
      match reason_lookup statusCode reason_table with
      | Some s => lit s
      | None =>
          match reason_lookup (100 * i) reason_table with
          | Some s => lit s
          | None => []
          end
      end
    else #"Reason Unknown".

(** ** Round trip *)

Lemma strspn_all accept s : Forall (fun c => is_sep accept c = true) (take (strspn s accept) s).
Proof. induction s as [|c s IH]; simpl; [constructor|]. brk; simpl; [by constructor|constructor]. Qed.

(** Escaping one character at a time. *)
Lemma escape_loop_map fuel validChars s :
  length s < fuel ->
  escape_loop fuel validChars s =
    concat (map (fun c => if is_sep validChars c then [c] else escaped c) s).
Proof.
  assert (forall k s, strspn s validChars = k ->
    concat (map (fun c => if is_sep validChars c then [c] else escaped c) s) =
    take k s ++ concat (map (fun c => if is_sep validChars c then [c] else escaped c) (drop k s)) /\
    match drop k s with c :: _ => is_sep validChars c = false | [] => True end) as Hk.
  { induction k as [|k IH]; intros [|c s']; simpl; try done; destruct (is_sep validChars c) eqn:E;
      try done. intros [= H]. apply IH in H as [-> H]. done. }
  revert s. induction fuel as [|fuel IH]; intros s Hf; [lia|]. cbn [escape_loop].
  destruct (Hk _ s eq_refl) as [-> Hc].
  destruct (drop (strspn s validChars) s) as [|c tail] eqn:Ed; simpl; [by rewrite app_nil_r|].
  rewrite Hc, IH; [done|]. apply (f_equal length) in Ed. rewrite length_drop in Ed. simpl in Ed. lia.
Qed.

(** Decoding an escape gives the character back. *)
Lemma escaped_digits c :
  isxdigit (hex_digit (uchar c / 16)) && isxdigit (hex_digit (uchar c mod 16)) = true /\
  chr (xdigit_val (hex_digit (uchar c mod 16)) +
       Z.shiftl (xdigit_val (hex_digit (uchar c / 16))) 4) = c.
Proof.
  pose proof (ascii_forallb (fun c =>
    isxdigit (hex_digit (uchar c / 16)) && isxdigit (hex_digit (uchar c mod 16)) &&
    Ascii.eqb (chr (xdigit_val (hex_digit (uchar c mod 16)) +
       Z.shiftl (xdigit_val (hex_digit (uchar c / 16))) 4)) c) ltac:(vm_compute; reflexivity) c) as H.
  apply andb_true_iff in H as [H1 H2]. split; [done|]. by apply Ascii.eqb_eq.
Qed.

Lemma unescape_escaped c s :
  unescape_loop (escaped c ++ s) = r ← unescape_loop s; Ret (c :: r).
Proof.
  destruct (escaped_digits c) as [H1 H2]. unfold escaped. simpl. by rewrite H1, H2.
Qed.

Lemma escape_nul_free validChars s :
  nul_free s -> nul_free (concat (map (fun c => if is_sep validChars c then [c] else escaped c) s)).
Proof.
  induction 1 as [|c s Hc Hs IH]; simpl; [constructor|]. apply nul_free_app. split; [|done].
  destruct (is_sep validChars c); [by repeat constructor|].
  pose proof (ascii_forallb (fun c => forallb (fun d => negb (schar d =? 0)%Z) (escaped c))
    ltac:(vm_compute; reflexivity) c) as H.
  apply List.Forall_forall. intros d Hd. rewrite forallb_forall in H.
  specialize (H d Hd). simpl in H. by bools.
Qed.

(** Escaping is undone by unescaping.  For every C string and every set of
    characters left alone that does not contain the percent sign,
    [unescape(escape(s))] is [s], and it never reads past the end. *)
Theorem escape_roundtrip s validChars :
  nul_free s -> is_sep (match validChars with None => safeChars | Some v => v end) "%" = false ->
  unescape (escape s validChars) = Ret s.
Proof.
  intros Hs Hp. unfold unescape, escape. rewrite (cstr_nul_free s) by done.
  rewrite escape_loop_map by lia. rewrite cstr_nul_free by (by apply escape_nul_free).
  set (v := match validChars with None => safeChars | Some v => v end) in *. clearbody v.
  induction Hs as [|c s Hc Hs IH]; simpl; [done|].
  destruct (is_sep v c) eqn:E.
  - simpl. destruct (Ascii.eqb c "%") eqn:Ec; [apply Ascii.eqb_eq in Ec; congruence|].
    by rewrite IH.
  - rewrite unescape_escaped, IH. done.
Qed.

(** The witness of [escape_roundtrip]. *)
Lemma escape_roundtrip_witness : unescape (escape #"a b%c" None) = Ret #"a b%c".
Proof. apply escape_roundtrip; [repeat constructor; discriminate|reflexivity]. Defined.

(** Two out-of-range reads.  [unescape] on a string that ends in a percent
    sign, and [enquoteString] on a string of white space only, index past the
    string. *)
Theorem parser_out_of_range s :
  nul_free s -> Forall (fun c => c <> "%"%char) s ->
  unescape (s ++ #"%") = UB /\ enquoteString [] = UB /\ enquoteString #"   " = UB.
Proof.
  intros Hs Hp. split; [|done]. unfold unescape. rewrite cstr_nul_free.
  2:{ apply nul_free_app. split; [done|]. by repeat constructor. }
  clear Hs. induction Hp as [|c s Hc _ IH]; [done|].
  rewrite <- app_comm_cons. cbn [unescape_loop].
  destruct (Ascii.eqb c "%") eqn:E; [by apply Ascii.eqb_eq in E|]. by rewrite IH.
Qed.

(** The witness of [parser_out_of_range]. *)
Lemma parser_out_of_range_witness :
  unescape (#"100" ++ #"%") = UB /\ enquoteString [] = UB /\ enquoteString #"   " = UB.
Proof. apply parser_out_of_range; repeat constructor; discriminate. Defined.

(** Every status code has a phrase.  Without a phrase of the caller's the
    table yields one for every code, so that the status line of a response is
    never built with an empty reason phrase, which the grammar rejects. *)
Theorem reason_phrase_nonempty statusCode reasonPhrase :
  getReasonPhrase statusCode reasonPhrase <> [].
Proof.
  unfold getReasonPhrase. destruct reasonPhrase as [|c r]; [|done].
  cbn [length Nat.eqb negb]. cbv zeta. destruct ((1 <=? _) && _)%Z eqn:E; [|done].
  assert (forall code l s, reason_lookup code l = Some s -> In s (map snd l)) as Hin.
  { intros code l. induction l as [|[k w] l IH]; intros s; simpl; [done|].
    destruct (k =? code)%Z; [intros [= ->]; by left|]. intros H. right. by apply IH. }
  assert (forall s, In s (map snd reason_table) -> lit s <> []) as Hne.
  { apply List.Forall_forall. repeat constructor; discriminate. }
  destruct (reason_lookup statusCode reason_table) eqn:E1; [by apply Hne, (Hin _ _ _ E1)|].
  bools. assert (Z.quot statusCode 100 = 1 \/ Z.quot statusCode 100 = 2 \/ Z.quot statusCode 100 = 3 \/
    Z.quot statusCode 100 = 4 \/ Z.quot statusCode 100 = 5 \/ Z.quot statusCode 100 = 6)%Z as Hi by lia.
  destruct Hi as [->|[->|[->|[->|[->| ->]]]]]; discriminate.
Qed.
