(* ===== verification/SipHeaders.v ===== *)
(** * Header fields: CSeq, Via, From and To

    The static accessors of src/sipparser/SIPCSeq.cpp, SIPVia.cpp and
    SIPFrom.cpp.  Each works on the header's text; an accessor that returns
    [bool] and fills a reference is a function to [outcome (option str)], where
    [Ret None] is [false] with the reference untouched. *)

From S2P Require Import Prelude Abnf AbnfFacts AbnfSearch SipGrammar SipGrammarFacts CoreStrings.
From S2P Require Import SipParser.
Open Scope nat_scope.

(** ** Shared steps *)

(** A finder or rule applied to [s.c_str()]: the offset it returns. *)
Definition run (r : rule) (s : str) : outcome nat := checked (parse r s).

(** [parseTokens] of a sequence on an empty token vector. *)
Definition run_tokens (rs : list rule) (s : str) : outcome (list str) :=
  '(_, toks) ← checked (lrParseTokens rs s);
  Ret toks.

(** A member function that returns the filled string. *)
Definition filled (o : outcome (option str)) : outcome str :=
  v ← o;
  Ret (default [] v).

(** The value of [key] in [s]: the text a pvalue takes behind the key. *)
Definition value_after (key s : str) : outcome (option str) :=
  let start := findNextIterFromString key s in
  if start =? 0 then Ret None
  else
    n ← run ABNF_SIP_pvalue (drop start s);
    if n =? 0 then Ret None else Ret (Some (take n (drop start s))).

(** Replace the value behind [key] in [s], or append the parameter. *)
Definition set_value (key paramName paramValue s : str) : str :=
  let offSet := findNextIterFromString key s in
  if offSet =? 0 then s ++ #";" ++ paramName ++ #"=" ++ paramValue
  else
    let front := take offSet s in
    let front := if Ascii.eqb (default "="%char (last front)) "=" then front else front ++ #"=" in
    let tailOffSet := findNextIterFromString #";" (drop offSet s) in
    front ++ paramValue ++
      (if tailOffSet =? 0 then [] else cstr (drop (tailOffSet - 1) (drop offSet s))).

(** [pnameVerify(paramName) && pvalueVerify(paramValue)]. *)
Definition verify_param (paramName paramValue : str) : outcome bool :=
  a ← checked (ABNFEvaluate ABNF_SIP_pname paramName);
  b ← checked (ABNFEvaluate ABNF_SIP_pvalue paramValue);
  Ret (a && b).

(** ** SIPCSeq *)

Module SIPCSeq.

Definition lwsFinder_1 := ABNFWhileNot ABNF_SIP_LWS false.
Definition lwsFinder_2 := ABNFWhileNot ABNF_SIP_LWS true.

Section cseq.
Context {boost : BoostString}.

Definition getMethod (cseq : str) : outcome (option str) :=
  offSet ← run lwsFinder_2 cseq;
  if offSet =? 0 then Ret None
  else Ret (Some (string_to_upper (cstr (drop offSet cseq)))).

Definition setMethod (cseq method : str) : outcome (option str) :=
  offSet ← run lwsFinder_2 cseq;
  if offSet =? 0 then Ret None
  else Ret (Some (take offSet cseq ++ cstr method)).

Definition getNumber (cseq : str) : outcome (option str) :=
  offSet ← run lwsFinder_1 cseq;
  if offSet =? 0 then Ret None
  else Ret (Some (take offSet cseq)).

Definition setNumber (cseq number : str) : outcome (option str) :=
  offSet ← run lwsFinder_1 cseq;
  if offSet =? 0 then Ret None
  else Ret (Some (number ++ cstr (drop offSet cseq))).

End cseq.
End SIPCSeq.

(** ** SIPVia *)

Module SIPVia.

(** [sent-protocol = protocol-name SLASH protocol-version SLASH transport]. *)
Definition sent_protocol : list rule :=
  [ABNFSIPToken; ABNF_SIP_SLASH; ABNFSIPToken; ABNF_SIP_SLASH; ABNFSIPToken].
Definition sent_by : list rule := [lrSequence sent_protocol; ABNF_SIP_LWS; ABNFSIPHostPort].

Section via.
Context {boost : BoostString}.

Definition getSentBy (via : str) : outcome (option str) :=
  tokens ← run_tokens sent_by via;
  match tokens with
  | [_; _; hostport] => Ret (Some hostport)
  | _ => Ret None
  end.

Definition setSentBy (via hostPort : str) : outcome (option str) :=
  tokens ← run_tokens sent_by via;
  match tokens with
  | [protocol; _; _] =>
      let params := findNextIterFromString #";" via in
      Ret (Some (protocol ++ #" " ++ hostPort ++
        (if params =? 0 then #";branch=unset" else #";" ++ cstr (drop params via))))
  | _ => Ret None
  end.

Definition getTransport (via : str) : outcome (option str) :=
  tokens ← run_tokens sent_protocol via;
  match tokens with
  | [_; _; _; _; transport] => Ret (Some (string_to_upper transport))
  | _ => Ret None
  end.

(** [via.size() - newData.size()] is a [size_t]: it wraps when the new text is
    the longer one, and then the whole via is the tail. *)
Definition setTransport (via transport : str) : str :=
  let newData := #"SIP/2.0/" ++ transport in
  newData ++
    (if length via <? length newData then via
     else string_right via (length via - length newData)).

Definition getParam (via paramName : str) : outcome (option str) :=
  if length via =? 0 then Ret None else value_after (paramName ++ #"=") via.

Definition getBranch (via : str) : outcome (option str) := getParam via #"branch".
Definition getReceived (via : str) : outcome (option str) := getParam via #"received".

(** The key: [rport] may stand without a value. *)
Definition param_key (paramName : str) : str :=
  let key := to_lower paramName in
  if decide (key = #"rport") then key else key ++ #"=".

Definition hasParam (via paramName : str) : bool :=
  negb (findNextIterFromString (param_key paramName) via =? 0).

(** [getRPort]: the flag is true also when the parameter has no value. *)
Definition getRPort (via : str) : outcome (bool * option str) :=
  v ← getParam via #"rport";
  match v with
  | Some p => Ret (true, Some p)
  | None => Ret (hasParam via #"rport", None)
  end.

Definition setParam (via paramName paramValue : str) : outcome str :=
  ok ← verify_param paramName paramValue;
  if negb ok then Throw (SIPParserException "ABNF Syntax Exception")
  else Ret (set_value (param_key paramName) paramName paramValue via).

(** [countElements]: commas, one at a time; each round passes at least one
    character. *)
Fixpoint count_loop (fuel : nat) (s : str) : nat :=
  match fuel with
  | 0 => 0
  | S fuel =>
      let n := findNextIterFromString #"," s in
      if n =? 0 then 0 else S (count_loop fuel (drop n s))
  end.
Definition countElements (via : str) : nat := count_loop (S (length via)) via + 1.

Fixpoint split_loop (fuel : nat) (s : str) : list str :=
  match fuel with
  | 0 => []
  | S fuel =>
      let n := findNextIterFromString #"," s in
      if n =? 0 then [cstr s]
      else take (n - 1) s :: split_loop fuel (skip_space (drop n s))
  end.
Definition splitElements (via : str) : list str := split_loop (S (length via)) via.

Definition getTopVia (hVia : str) : str :=
  let n := findNextIterFromString #"," hVia in
  if n =? 0 then cstr hVia else take (n - 1) hVia.

(** [popTopVia]: the remaining text and the popped element.  The character
    behind the comma is skipped; when the comma is the last character the
    pointer moves past the terminator. *)
Definition popTopVia (hVia : str) : outcome (str * str) :=
  let n := findNextIterFromString #"," hVia in
  if n =? 0 then Ret ([], cstr hVia)
  else if n <? length hVia then Ret (cstr (drop (S n) hVia), take (n - 1) hVia)
  else UB.

Definition getBottomVia (hVia : str) : option str :=
  if findNextIterFromString #"," hVia =? 0 then Some (string_trim (cstr hVia))
  else
    let n := findLastIterFromString #"," hVia in
    if n =? 0 then None
    else Some (string_trim (cstr (drop n hVia))).

End via.
End SIPVia.

(** ** SIPFrom, also SIPTo, SIPReferTo and SIPReferredBy *)

Module SIPFrom.

Definition laquotFinder_0 := ABNFWhileNot ABNF_SIP_LAQUOT false.
Definition laquotFinder_1 := ABNFWhileNot ABNF_SIP_LAQUOT true.
Definition raquotFinder_0 := ABNFWhileNot ABNF_SIP_RAQUOT false.
Definition raquotFinder_1 := ABNFWhileNot ABNF_SIP_RAQUOT true.
Definition uriParamsFinder := ABNFWhileNot ABNFSIPURIParameters false.

Definition EMPTY_URI : str := #"sip:invalid".
Definition check_empty (data : str) : str := if length data =? 0 then EMPTY_URI else data.

Section from.
Context {boost : BoostString}.

Definition getDisplayName (from : str) : outcome (option str) :=
  offSet ← run laquotFinder_0 from;
  if offSet =? 0 then Ret None else Ret (Some (take offSet from)).

Definition display_name_needs_quote (displayName : str) : bool :=
  match displayName with
  | [] => false
  | c :: _ => if (schar c =? 34)%Z then false else existsb isspace displayName
  end.

(** The display name, quoted when it has to be, and the opening bracket. *)
Definition name_prefix (displayName : str) : str :=
  (if display_name_needs_quote displayName then [chr 34] ++ displayName ++ [chr 34]
   else displayName) ++
  (if length displayName =? 0 then #"<" else #" <").

Definition setDisplayName (from displayName : str) : outcome (option str) :=
  let displayName := cstr displayName in
  fsTokens ← run_tokens ABNFSIPFromSpec_rules from;
  match fsTokens with
  | [spec; params] =>
      '(offSet, naTokens) ← checked (lrParseTokens ABNFSIPNameAddr_rules spec);
      match offSet, naTokens with
      | S _, [_; _; addr; _] => Ret (Some (name_prefix displayName ++ addr ++ #">" ++ params))
      | _, _ =>
          paramsOffSet ← run uriParamsFinder spec;
          if paramsOffSet =? 0 then
            Ret (Some (name_prefix displayName ++ spec ++ #">" ++ params))
          else
            Ret (Some (name_prefix displayName ++ take paramsOffSet spec ++ #">" ++
                       cstr (drop paramsOffSet spec)))
      end
  | _ => Ret None
  end.

(** The addr-spec in front of the header parameters, when there are no angle
    brackets, with the offset of its parameters (0 when it has none). *)
Definition bare_addr_spec (from : str) : outcome (option (str * nat)) :=
  fsTokens ← run_tokens ABNFSIPFromSpec_rules from;
  match fsTokens with
  | [spec; _] =>
      addrSpecOffSet ← run ABNF_SIP_addr_spec spec;
      if addrSpecOffSet =? 0 then Ret None
      else
        let addrSpec := take addrSpecOffSet spec in
        paramsOffSet ← run uriParamsFinder addrSpec;
        Ret (Some (addrSpec, paramsOffSet))
  | _ => Ret None
  end.

Definition getURI (from : str) : outcome (option str) :=
  laQuotOffSet ← run laquotFinder_1 from;
  if laQuotOffSet =? 0 then
    b ← bare_addr_spec from;
    Ret (match b with
         | None => None
         | Some (addrSpec, n) => Some (if n =? 0 then addrSpec else take n addrSpec)
         end)
  else
    n ← run raquotFinder_0 (drop laQuotOffSet from);
    if n =? 0 then Ret None else Ret (Some (take n (drop laQuotOffSet from))).

Definition setURI (from uri : str) : outcome (option str) :=
  let uri := cstr uri in
  if length uri =? 0 then Ret None
  else
    laQuotOffSet ← run laquotFinder_1 from;
    if laQuotOffSet =? 0 then
      b ← bare_addr_spec from;
      Ret (match b with
           | None => None
           | Some (addrSpec, n) => Some (if n =? 0 then uri else uri ++ cstr (drop n addrSpec))
           end)
    else
      fsTokens ← run_tokens ABNFSIPFromSpec_rules from;
      match fsTokens with
      | [_; params] =>
          enclosure ← run laquotFinder_1 uri;
          if negb (enclosure =? 0) then Ret (Some (uri ++ params))
          else
            n ← run raquotFinder_0 (drop laQuotOffSet from);
            if n =? 0 then Ret None
            else Ret (Some (take laQuotOffSet from ++ uri ++ cstr (drop (laQuotOffSet + n) from)))
      | _ => Ret None
      end.

Definition getHeaderParams (from : str) : outcome (option str) :=
  raQuotOffSet ← run raquotFinder_1 from;
  if negb (raQuotOffSet =? 0) then Ret (Some (cstr (drop raQuotOffSet from)))
  else
    b ← bare_addr_spec from;
    Ret (match b with
         | None => None
         | Some (addrSpec, n) => if n =? 0 then None else Some (cstr (drop n addrSpec))
         end).

Definition setHeaderParams (from headerParams : str) : outcome (option str) :=
  raQuotOffSet ← run raquotFinder_1 from;
  if negb (raQuotOffSet =? 0) then Ret (Some (take raQuotOffSet from ++ cstr headerParams))
  else
    b ← bare_addr_spec from;
    Ret (match b with
         | None => None
         | Some (addrSpec, n) =>
             Some (if n =? 0 then from ++ cstr headerParams
                   else take n addrSpec ++ cstr headerParams)
         end).

Definition getHeaderParamEx (headerParams paramName : str) : outcome (option str) :=
  value_after (paramName ++ #"=") headerParams.

Definition getHeaderParam (from paramName : str) : outcome (option str) :=
  headerParams ← getHeaderParams from;
  match headerParams with
  | None => Ret None
  | Some p => getHeaderParamEx p paramName
  end.

Definition setHeaderParamEx (headerParams paramName paramValue : str) : outcome str :=
  ok ← verify_param paramName paramValue;
  if negb ok then Throw (SIPParserException "ABNF Syntax Error")
  else Ret (set_value (to_lower paramName ++ #"=") paramName paramValue headerParams).

(** The static [setHeaderParam]: the result of [getHeaderParams] is not looked
    at; without parameters the text starts empty. *)
Definition setHeaderParam (from paramName paramValue : str) : outcome (option str) :=
  headerParams ← getHeaderParams from;
  headerParams ← setHeaderParamEx (default [] headerParams) paramName paramValue;
  setHeaderParams from headerParams.

Definition getTag (from : str) : outcome str := filled (getHeaderParam from #"tag").

(** The member [setHeaderParam]: an empty header becomes [EMPTY_URI] first; the
    data is kept when the static function returns false. *)
Definition mSetHeaderParam (data paramName paramValue : str) : outcome str :=
  let data := check_empty data in
  r ← setHeaderParam data paramName paramValue;
  Ret (default data r).

Definition setTag (data tag : str) : outcome str := mSetHeaderParam data #"tag" tag.

Definition isEmpty (data : str) : bool := (length data =? 0) || bool_decide (data = EMPTY_URI).

End from.
End SIPFrom.

(** ** Memory safety of the accessors *)

Definition defined {A} (o : outcome A) : Prop := o <> UB.

Lemma run_safe r s : Safe r -> exists n, run r s = Ret n /\ n <= length s.
Proof. intros Hr. destruct (Hr s) as (n & Hn & Hl). exists n. unfold run. by rewrite Hn. Qed.

Lemma lr_tokens_safe rs s : SafeList rs -> exists n toks, lrParseTokens rs s = Some (n, toks).
Proof.
  intros Hrs. destruct (lr_sequence_safe rs Hrs s) as (n & Hn & _).
  rewrite lr_sequence_parse, lr_tokens_parse in Hn. unfold lrParseTokens.
  destruct (lr_tokens rs s) as [[o toks]|]; [|done]. simpl. eauto.
Qed.

Lemma run_tokens_safe rs s : SafeList rs -> exists toks, run_tokens rs s = Ret toks.
Proof.
  intros Hrs. destruct (lr_tokens_safe rs s Hrs) as (n & toks & H).
  exists toks. unfold run_tokens. by rewrite H.
Qed.

Lemma evaluate_safe r s : Safe r -> exists b, ABNFEvaluate r s = Some b.
Proof. intros Hr. destruct (Hr s) as (n & Hn & _). unfold ABNFEvaluate. rewrite Hn. by eexists. Qed.

#[export] Instance s_fromspec_rules : SafeList ABNFSIPFromSpec_rules.
Proof. unfold ABNFSIPFromSpec_rules. apply _. Qed.
#[export] Instance s_nameaddr_rules : SafeList ABNFSIPNameAddr_rules.
Proof. unfold ABNFSIPNameAddr_rules. apply _. Qed.
#[export] Instance s_sent_protocol : SafeList SIPVia.sent_protocol.
Proof. unfold SIPVia.sent_protocol. apply _. Qed.
#[export] Instance s_sent_by : SafeList SIPVia.sent_by.
Proof. unfold SIPVia.sent_by. apply _. Qed.
#[export] Instance s_pvalue : Safe ABNF_SIP_pvalue. Proof. apply _. Qed.

(** Step through an accessor: every parse it makes returns. *)
Ltac total :=
  repeat first
    [ match goal with
      | |- context [run ?r ?s] =>
          let n := fresh "n" in
          destruct (run_safe r s ltac:(apply _)) as (n & -> & ?); simpl
      | |- context [run_tokens ?rs ?s] =>
          let toks := fresh "toks" in
          destruct (run_tokens_safe rs s ltac:(apply _)) as (toks & ->); simpl
      | |- context [lrParseTokens ?rs ?s] =>
          destruct (lr_tokens_safe rs s ltac:(apply _)) as (? & ? & ->); simpl
      | |- context [ABNFEvaluate ?r ?s] =>
          destruct (evaluate_safe r s ltac:(apply _)) as (? & ->); simpl
      end
    | progress brk; simpl ];
  try done.

Section safety.
Context {boost : BoostString}.

Lemma value_after_defined key s : exists v, value_after key s = Ret v.
Proof. unfold value_after. total; eauto. Qed.

Lemma bare_addr_spec_defined from : exists v, SIPFrom.bare_addr_spec from = Ret v.
Proof. unfold SIPFrom.bare_addr_spec. total; eauto. Qed.

Lemma get_header_params_defined from : exists v, SIPFrom.getHeaderParams from = Ret v.
Proof.
  unfold SIPFrom.getHeaderParams, SIPFrom.raquotFinder_1.
  destruct (bare_addr_spec_defined from) as [v ->]. total; eauto.
Qed.

Lemma set_header_params_defined from p : exists v, SIPFrom.setHeaderParams from p = Ret v.
Proof.
  unfold SIPFrom.setHeaderParams, SIPFrom.raquotFinder_1.
  destruct (bare_addr_spec_defined from) as [v ->]. total; eauto.
Qed.

Lemma set_header_param_defined from p v : defined (SIPFrom.setHeaderParam from p v).
Proof.
  unfold defined, SIPFrom.setHeaderParam, SIPFrom.setHeaderParamEx, verify_param.
  destruct (get_header_params_defined from) as [hp ->]. simpl. total.
  all: match goal with |- context [SIPFrom.setHeaderParams ?f ?q] =>
    by destruct (set_header_params_defined f q) as [? ->] end.
Qed.

(** No accessor of CSeq, Via or From leaves its buffer.  Whatever the text
    of the header and the arguments, each accessor returns or throws; the
    finders, the token parsers and the pvalue parser they are made of stay
    inside the string.  [popTopVia] is the exception and not in the list. *)
Theorem accessors_defined (h a b : str) :
  Forall (fun o => o <> UB)
    [SIPCSeq.getMethod h; SIPCSeq.setMethod h a; SIPCSeq.getNumber h; SIPCSeq.setNumber h a;
     SIPVia.getSentBy h; SIPVia.setSentBy h a; SIPVia.getTransport h; SIPVia.getParam h a;
     SIPFrom.getDisplayName h; SIPFrom.setDisplayName h a; SIPFrom.getURI h; SIPFrom.setURI h a;
     SIPFrom.getHeaderParams h; SIPFrom.setHeaderParams h a; SIPFrom.getHeaderParam h a;
     SIPFrom.setHeaderParam h a b] /\
  SIPVia.setParam h a b <> UB /\ SIPVia.getRPort h <> UB.
Proof.
  destruct (bare_addr_spec_defined h) as [v Hv]. destruct (get_header_params_defined h) as [hp Hhp].
  split; [|split].
  - repeat (apply Forall_cons_2); try (by apply Forall_nil).
    1-4: unfold SIPCSeq.getMethod, SIPCSeq.setMethod, SIPCSeq.getNumber, SIPCSeq.setNumber,
      SIPCSeq.lwsFinder_1, SIPCSeq.lwsFinder_2; total.
    1-3: unfold SIPVia.getSentBy, SIPVia.setSentBy, SIPVia.getTransport; total.
    + unfold SIPVia.getParam. brk; [done|].
      by destruct (value_after_defined (a ++ #"=") h) as [? ->].
    + unfold SIPFrom.getDisplayName, SIPFrom.laquotFinder_0; total.
    + unfold SIPFrom.setDisplayName, SIPFrom.uriParamsFinder; total.
    + unfold SIPFrom.getURI, SIPFrom.laquotFinder_1, SIPFrom.raquotFinder_0. rewrite Hv. total.
    + unfold SIPFrom.setURI, SIPFrom.laquotFinder_1, SIPFrom.raquotFinder_0. rewrite Hv. total.
    + by rewrite Hhp.
    + by destruct (set_header_params_defined h a) as [? ->].
    + unfold SIPFrom.getHeaderParam, SIPFrom.getHeaderParamEx. rewrite Hhp. simpl. brk; [|done].
      match goal with |- context [value_after ?k ?s] =>
        by destruct (value_after_defined k s) as [? ->] end.
    + apply set_header_param_defined.
  - unfold SIPVia.setParam, verify_param. total.
  - unfold SIPVia.getRPort, SIPVia.getParam. brk; [done|].
    destruct (value_after_defined (#"rport" ++ #"=") h) as [? ->]. simpl. by brk.
Qed.

End safety.

(** ** Setting and getting a parameter *)

(** Hexadecimal digits. *)
Definition is_hex (c : Z) : bool :=
  (is_digit c || ((65 <=? c) && (c <=? 70)) || ((97 <=? c) && (c <=? 102)))%Z.
#[export] Instance cc_hex : CharClass ABNF_SIP_HEXDIG is_hex.
Proof. by apply charRule_class. Qed.

(** Appending text does not change a successful parse. *)
Definition local (r : rule) : Prop :=
  forall t n x, t <> [] -> parse r t = Some n -> n <> 0 -> parse r (t ++ x) = Some n.

Lemma char_class_app r p c t x : CharClass r p -> parse r ((c :: t) ++ x) = parse r (c :: t).
Proof. intros H. rewrite !H. done. Qed.

Lemma escaped_local : local ABNF_SIP_escaped.
Proof.
  intros t n x _ H Hn. apply lr_sequence_success in H; [|done].
  apply lr_parse_cons_inv_req in H as (k & m & H1 & Hk & H2 & ->); [|done].
  apply comparison_pos in H1 as (t' & -> & ->); [|done]. drops_in H2.
  apply lr_parse_cons_inv_req in H2 as (k & m' & H1 & Hk' & [= <-] & ->); [|done].
  apply (char_class_pos _ _ _ _ cc_hex) in H1 as (c & t'' & -> & Hc & ->); [|done].
  assert (lr_parse [ABNFCharComparison (ch "%"); ABNF_SIP_HEXDIG] (("%"%char :: c :: t'') ++ x)
    = Some (Some (1 + (1 + 0)))) as E.
  { apply lr_parse_cons; [done|done|]. apply lr_parse_cons; [|done|done].
    simpl app. drops. by apply (char_class_here _ _ _ _ cc_hex). }
  unfold ABNF_SIP_escaped, ABNFLRSequence2. rewrite lr_sequence_parse, E. done.
Qed.

Lemma any_of_class_local r p rs :
  CharClass r p -> local (anyOfMultiple rs) -> local (anyOfMultiple (r :: rs)).
Proof.
  intros Hr Hrs [|c t] n x Hne; [done|]. cbn [parse anyOfMultiple anyOf_loop].
  destruct (isNull r); [done|]. rewrite (char_class_app r p c t x Hr).
  destruct (parse r (c :: t)) as [k|]; simpl; [|done]. destruct (negb (k =? 0)); [done|].
  apply (Hrs (c :: t)). done.
Qed.

Lemma any_of_last_local r : isNull r = false -> local r -> local (anyOfMultiple [r]).
Proof.
  intros Hn Hr t n x Hne. cbn [parse anyOfMultiple anyOf_loop]. rewrite Hn.
  destruct (parse r t) as [k|] eqn:E; simpl; [|done].
  destruct (k =? 0) eqn:Ek; simpl; [by intros [= <-]|]. intros [= <-] Hk.
  rewrite (Hr t k x Hne E Hk). simpl. by rewrite Ek.
Qed.

Lemma paramchar_local : local ABNF_SIP_paramchar.
Proof.
  unfold ABNF_SIP_paramchar, ABNFAnyOfMultiple3.
  eapply any_of_class_local; [apply _|]. eapply any_of_class_local; [apply _|].
  apply any_of_last_local; [done|apply escaped_local].
Qed.

Lemma paramchar_semi x : parse ABNF_SIP_paramchar (";"%char :: x) = Some 0.
Proof.
  unfold ABNF_SIP_paramchar, ABNFAnyOfMultiple3. cbn [parse anyOfMultiple anyOf_loop].
  assert (forall r p, CharClass r p -> p 59%Z = false -> parse r (";"%char :: x) = Some 0) as H.
  { intros r p Hr Hp. rewrite Hr. change (schar ";") with 59%Z. by rewrite Hp. }
  erewrite (H ABNF_SIP_param_unreserved); [|apply _|reflexivity].
  erewrite (H ABNF_SIP_unreserved); [|apply _|reflexivity]. reflexivity.
Qed.

(** Where a parameter value ends. *)
Definition value_stop (x : str) : Prop := match x with [] => True | c :: _ => c = ";"%char end.

Lemma loop_iter_app fuel w x i :
  loop_iter ABNF_SIP_paramchar ABNFLoopExitIfNul fuel w = Some (i, length w) -> value_stop x ->
  loop_iter ABNF_SIP_paramchar ABNFLoopExitIfNul fuel (w ++ x) = Some (i, length w).
Proof.
  intros H Hx. revert w i H. induction fuel as [|fuel IH]; intros w i H.
  { injection H as <- E. destruct w; done. }
  rewrite loop_iter_S in H |- *. destruct w as [|c w].
  - injection H as <-. destruct x as [|d x]; [done|]. simpl in Hx. subst d.
    rewrite app_nil_l, paramchar_semi. done.
  - change (deref ((c :: w) ++ x)) with (deref (c :: w)). destruct (exit_char _ _); [done|].
    destruct (parse ABNF_SIP_paramchar (c :: w)) as [k|] eqn:E; [|discriminate H].
    cbn [mbind option_bind] in H |- *. destruct (k =? 0) eqn:Ek; [discriminate H|]. bools.
    rewrite (paramchar_local (c :: w) k x ltac:(discriminate) E Ek). cbn [mbind option_bind].
    destruct (k =? 0) eqn:Ek'; [bools; done|].
    destruct (loop_iter _ _ fuel (drop k (c :: w))) as [[j m]|] eqn:Ej; [|done].
    injection H as <- Hm.
    assert (k <= length (c :: w)) as Hk.
    { assert (Safe ABNF_SIP_paramchar) as Hs by apply _.
      destruct (Hs (c :: w)) as (k' & E' & Hk'). rewrite E in E'. injection E' as <-. done. }
    assert (m = length (drop k (c :: w))) as -> by (rewrite length_drop; simpl in *; lia).
    rewrite drop_app_le by done. rewrite (IH _ _ Ej). simpl.
    rewrite length_drop. do 2 f_equal. simpl in *. lia.
Qed.

(** A verified value is read back whole. *)
Lemma pvalue_app v x :
  nul_free v -> v <> [] -> ABNFEvaluate ABNF_SIP_pvalue v = Some true -> value_stop x ->
  parse ABNF_SIP_pvalue (v ++ x) = Some (length v).
Proof.
  intros Hf Hne Hv Hx. apply evaluate_true in Hv as (n & Hn & Hl); [|done].
  destruct v as [|c v]; [done|]. unfold ABNF_SIP_pvalue, ABNF_SIP_pname in *.
  cbn [parse ABNFLoopUntil] in *. apply Forall_cons in Hf as [Hc Hf].
  change (deref ((c :: v) ++ x)) with (schar c). change (deref (c :: v)) with (schar c) in Hn.
  destruct (schar c =? 0)%Z eqn:E0; bools; [done|].
  destruct (loop_iter _ _ _ (c :: v)) as [[i m]|] eqn:E; [|done]. simpl in Hn.
  destruct (i <? 1) eqn:Ei; [injection Hn as <-; simpl in Hl; lia|]. injection Hn as ->.
  destruct (loop_iter_in_buffer ABNF_SIP_paramchar ABNFLoopExitIfNul 1024 (c :: v))
    as (i' & n' & E' & Hn' & _); [done|apply _|]. rewrite E in E'. injection E' as <- <-.
  assert (n = length (c :: v)) as -> by lia.
  rewrite (loop_iter_app _ _ _ _ E Hx). simpl. by rewrite Ei.
Qed.

(** A parameter name of lower-case letters. *)
Definition param_name (name : str) : Prop :=
  name <> [] /\ Forall (fun c => (97 <= schar c <= 122)%Z) name.

(** No character that the folding takes for a semicolon or an equals sign. *)
Definition unfolded (s : str) : Prop :=
  Forall (fun c => (schar c <> 27 /\ schar c <> 29 /\ schar c <> 91 /\ schar c <> 93)%Z) s.

Lemma same_flip_semi c :
  (schar c <> 27 /\ schar c <> 29 /\ schar c <> 91 /\ schar c <> 93)%Z ->
  same_flip (schar c) 59 = true -> c = ";"%char.
Proof.
  intros Hc H. apply schar_inj. change (schar ";") with 59%Z.
  unfold same_flip, flip_case in H. apply orb_true_iff in H as [H|H]; [lia|]. revert H. brk; lia.
Qed.

Lemma same_flip_equal c :
  (schar c <> 27 /\ schar c <> 29 /\ schar c <> 91 /\ schar c <> 93)%Z ->
  same_flip (schar c) 61 = true -> c = "="%char.
Proof.
  intros Hc H. apply schar_inj. change (schar "=") with 61%Z.
  unfold same_flip, flip_case in H. apply orb_true_iff in H as [H|H]; [lia|]. revert H. brk; lia.
Qed.

(** A semicolon is in no part of a key. *)
Lemma semi_not_in_key name j :
  param_name name -> same_flip (schar ";") (at_needle (name ++ #"=") j) = false.
Proof.
  intros [_ Hn]. unfold at_needle. change (schar ";") with 59%Z.
  destruct (drop j (name ++ #"=")) as [|c t] eqn:E; [done|]. simpl.
  assert ((97 <= schar c <= 122)%Z \/ schar c = 61%Z) as Hc.
  { assert (c ∈ name ++ #"=") as Hin.
    { apply (list_elem_of_lookup_2 _ j). rewrite <- (Nat.add_0_r j), <- lookup_drop. by rewrite E. }
    apply elem_of_app in Hin as [Hin|Hin].
    - left. rewrite Forall_forall in Hn. by apply Hn.
    - right. apply list_elem_of_singleton in Hin. by subst. }
  unfold same_flip. change (flip_case 59) with 91%Z.
  apply orb_false_iff; split; apply Z.eqb_neq; lia.
Qed.

Lemma key_nul_free name : param_name name -> nul_free (name ++ #"=").
Proof.
  intros [_ Hn]. apply nul_free_app. split; [|by repeat constructor].
  eapply Forall_impl; [exact Hn|]. simpl. lia.
Qed.

Lemma occurs_refl s : occurs s s.
Proof.
  unfold occurs. induction s as [|c s IH]; constructor; [|done].
  unfold same_flip. by rewrite Z.eqb_refl.
Qed.

Lemma find_next_eq needle s : needle <> [] -> findNextIterFromString needle s = find_next_loop needle 0 s 0.
Proof. by destruct needle. Qed.

(** Splitting a text at the first occurrence of a key. *)
Lemma find_key_split name s :
  param_name name -> unfolded s -> findNextIterFromString (name ++ #"=") s <> 0 ->
  exists front, take (findNextIterFromString (name ++ #"=") s) s = front ++ #"=" /\
    findNextIterFromString (name ++ #"=") s = length (front ++ #"=").
Proof.
  intros Hn Hu. assert (name ++ #"=" <> []) as Hk by (by destruct name).
  rewrite find_next_eq by done. intros HF.
  destruct (find_next_loop_sound (name ++ #"=") 0 s 0 [] [])
    as (pre & w & rest & Hs & Ho & Hl); [by apply key_nul_free| |done|constructor|done|].
  { destruct name; simpl; lia. }
  simpl in Hs. rewrite Hl, Hs. rewrite app_assoc, take_app_length'; [|by rewrite length_app].
  apply Forall2_app_inv_r in Ho as (w1 & w2 & _ & Hw2 & ->).
  apply Forall2_cons_inv_r in Hw2 as (c & w3 & Hc & Hw3 & ->).
  apply Forall2_nil_inv_r in Hw3 as ->.
  assert (c = "="%char) as ->.
  { apply same_flip_equal; [|done]. apply (proj1 (Forall_forall _ _) Hu).
    rewrite Hs, !elem_of_app, list_elem_of_singleton. auto. }
  exists (pre ++ w1). rewrite <- app_assoc. split; [done|]. rewrite !length_app. simpl. lia.
Qed.

(** The text from the next semicolon on. *)
Lemma tail_stop s :
  unfolded s ->
  value_stop (if findNextIterFromString #";" s =? 0 then []
              else cstr (drop (findNextIterFromString #";" s - 1) s)).
Proof.
  intros Hu. destruct (findNextIterFromString #";" s =? 0) eqn:E; [done|]. bools.
  rewrite find_next_eq in * by done.
  destruct (find_next_loop_sound #";" 0 s 0 [] [])
    as (pre & w & rest & Hs & Ho & Hl); [by repeat constructor|simpl; lia|done|constructor|done|].
  apply Forall2_cons_inv_r in Ho as (c & w3 & Hc & Hw3 & ->).
  apply Forall2_nil_inv_r in Hw3 as ->. simpl in Hs.
  assert (c = ";"%char) as ->.
  { apply same_flip_semi; [|done]. apply (proj1 (Forall_forall _ _) Hu).
    rewrite Hs, elem_of_app, elem_of_cons. auto. }
  rewrite Hl, Hs. replace (length pre + length [";"%char] - 1) with (length pre) by (simpl; lia).
  rewrite drop_app_length. done.
Qed.

Lemma unfolded_drop n s : unfolded s -> unfolded (drop n s).
Proof. apply Forall_drop. Qed.

(** The value that was set is the value that is found. *)
Lemma set_value_get name value s :
  param_name name -> nul_free s -> unfolded s ->
  nul_free value -> value <> [] -> ABNFEvaluate ABNF_SIP_pvalue value = Some true ->
  value_after (name ++ #"=") (set_value (name ++ #"=") name value s) = Ret (Some value).
Proof.
  intros Hn Hs Hu Hv Hv0 Hp. set (key := name ++ #"=").
  assert (key <> []) as Hk by (subst key; by destruct name).
  assert (exists pre x, set_value key name value s = pre ++ value ++ x /\ value_stop x /\
    findNextIterFromString key (pre ++ value ++ x) = length pre /\ pre <> []) as
    (pre & x & -> & Hx & Hf & Hpre).
  { unfold set_value. destruct (findNextIterFromString key s =? 0) eqn:E; bools.
    - exists (s ++ #";" ++ key), []. rewrite app_nil_r.
      split; [subst key; by rewrite <- !app_assoc|]. split; [done|].
      rewrite find_next_eq in * by done. rewrite <- !app_assoc. split; [|by destruct s].
      change (s ++ #";" ++ key ++ value) with (s ++ ";"%char :: (key ++ value)).
      rewrite find_next_loop_absent; [|done|done|intros j; by apply semi_not_in_key|done].
      rewrite find_next_loop_match; [rewrite !length_app; simpl; lia| | | |].
      + by apply key_nul_free.
      + by apply key_nul_free.
      + destruct key; [done|simpl; lia].
      + rewrite drop_0. apply occurs_refl.
    - set (n := findNextIterFromString key s) in *.
      destruct (find_key_split name s Hn Hu E) as (front & Hfront & Hlen).
      fold key n in Hfront, Hlen.
      rewrite Hfront. change #"=" with ["="%char] at 1. rewrite last_snoc. simpl (Ascii.eqb _ _).
      eexists (front ++ #"="), _. split; [by rewrite <- !app_assoc|].
      split; [by apply tail_stop, unfolded_drop|]. split; [|by destruct front].
      rewrite <- Hfront. unfold n. rewrite !find_next_eq by done.
      rewrite <- (Nat.sub_0_r (find_next_loop key 0 s 0)) at 1.
      rewrite find_next_loop_prefix by (rewrite <- find_next_eq by done; exact E).
      rewrite <- (find_next_eq key s) by done. fold n. by rewrite Hfront. }
  unfold value_after. rewrite Hf. destruct (length pre =? 0) eqn:E; bools; [by destruct pre|].
  rewrite drop_app_length. unfold run. rewrite pvalue_app by done. simpl.
  destruct value; [done|]. simpl. by rewrite take_app_length.
Qed.

Section params.
Context {boost : BoostString}.

Lemma to_lower_name name : param_name name -> to_lower name = name.
Proof.
  intros [_ Hn]. rewrite to_lower_map. induction Hn as [|c name Hc _ IH]; simpl; [done|].
  rewrite IH. unfold tolower. brk; [bools; lia|done].
Qed.

(** What is set is what is read.  After [SIPVia::setParam], and after
    [SIPFrom::setHeaderParamEx], of a verified value the corresponding getter
    returns exactly that value, whether the parameter was there before or not
    (for a name of lower-case letters other than rport, on a text without the
    four characters the search folds onto the delimiters). *)
Theorem param_set_get h name value :
  param_name name -> name <> #"rport" -> nul_free h -> unfolded h ->
  nul_free value -> value <> [] ->
  ABNFEvaluate ABNF_SIP_pname name = Some true -> ABNFEvaluate ABNF_SIP_pvalue value = Some true ->
  (exists h', SIPVia.setParam h name value = Ret h' /\ SIPVia.getParam h' name = Ret (Some value)) /\
  (exists h', SIPFrom.setHeaderParamEx h name value = Ret h' /\
     SIPFrom.getHeaderParamEx h' name = Ret (Some value)).
Proof.
  intros Hn Hr Hs Hu Hv Hv0 Hpn Hpv.
  pose proof (set_value_get name value h Hn Hs Hu Hv Hv0 Hpv) as H.
  unfold SIPVia.setParam, SIPFrom.setHeaderParamEx, verify_param, SIPVia.param_key.
  rewrite to_lower_name by done. rewrite decide_False by done. rewrite Hpn, Hpv.
  cbn [mbind outcome_bind checked andb negb].
  split; eexists; (split; [done|]); [|exact H].
  unfold SIPVia.getParam. destruct (length _ =? 0) eqn:E; [|exact H].
  apply Nat.eqb_eq, nil_length_inv in E. rewrite E in H. revert H.
  unfold value_after. rewrite find_next_eq by (by destruct name). done.
Qed.

End params.

(** The witness of [param_set_get]. *)
Lemma param_set_get_witness :
  exists h', SIPVia.setParam (boost := boost_reference) #"SIP/2.0/UDP a.b;branch=z1;rport" #"branch" #"z9" = Ret h' /\
    SIPVia.getParam h' #"branch" = Ret (Some #"z9").
Proof.
  apply (param_set_get (boost := boost_reference) #"SIP/2.0/UDP a.b;branch=z1;rport" #"branch" #"z9");
    try (vm_compute; reflexivity); try discriminate;
    repeat constructor; vm_compute; congruence.
Defined.

(** The witness of [accessors_defined]. *)
Lemma accessors_defined_witness :
  SIPVia.setParam (boost := boost_reference) #"SIP/2.0/UDP a" #"branch" #"z" <> UB /\
  SIPVia.getRPort (boost := boost_reference) #"SIP/2.0/UDP a" <> UB.
Proof.
  exact (proj2 (accessors_defined (boost := boost_reference) #"SIP/2.0/UDP a" #"branch" #"z")).
Defined.

(** Taking the top Via off a list.  With a blank behind the comma
    [popTopVia] splits the list; without one it drops the first character of
    what remains, and when the comma ends the text it reads past the end. *)
Theorem pop_top_via a b :
  nul_free a -> Forall (fun c => same_flip (schar c) 44 = false) a -> nul_free b ->
  SIPVia.popTopVia (a ++ #", " ++ b) = Ret (b, a) /\
  (forall c, SIPVia.popTopVia (a ++ #"," ++ c :: b) = Ret (b, a)) /\
  SIPVia.popTopVia (a ++ #",") = UB.
Proof.
  intros Ha Hc Hb.
  assert (forall t, findNextIterFromString #"," (a ++ #"," ++ t) = S (length a)) as Hf.
  { intros t. rewrite find_next_eq by done. rewrite find_next_loop_skip by done. done. }
  assert (forall c, SIPVia.popTopVia (a ++ #"," ++ c :: b) = Ret (b, a)) as Hp.
  { intros c. unfold SIPVia.popTopVia. rewrite Hf. cbv zeta. simpl (S _ =? 0).
    destruct (S (length a) <? _) eqn:E; bools; [|rewrite !length_app in E; simpl in E; lia].
    change (a ++ #"," ++ c :: b) with (a ++ [","%char; c] ++ b).
    rewrite app_assoc, drop_app_length' by (rewrite length_app; simpl; lia).
    rewrite cstr_nul_free by done. rewrite <- app_assoc. simpl.
    by rewrite Nat.sub_0_r, take_app_length. }
  split; [apply (Hp " "%char)|]. split; [exact Hp|].
  unfold SIPVia.popTopVia. rewrite <- (app_nil_r #","), Hf. cbv zeta. simpl (S _ =? 0).
  destruct (S (length a) <? _) eqn:E; bools; [rewrite length_app in E; simpl in E; lia|done].
Qed.

(** The witness of [pop_top_via]: the next Via loses its first letter. *)
Lemma pop_top_via_witness :
  SIPVia.popTopVia #"SIP/2.0/UDP a,SIP/2.0/UDP b" = Ret (#"IP/2.0/UDP b", #"SIP/2.0/UDP a").
Proof.
  apply (proj1 (proj2 (pop_top_via #"SIP/2.0/UDP a" #"IP/2.0/UDP b"
    ltac:(repeat constructor; discriminate) ltac:(repeat constructor)
    ltac:(repeat constructor; discriminate))) "S"%char).
Defined.

(** Replacing the transport.  [setTransport] replaces the transport of a
    Via when the new one is as long as the old one.  It counts characters
    instead of looking for the old one: a shorter transport keeps the end of the
    old one, a longer one eats into the sent-by. *)
Theorem set_transport_length old new rest :
  length old = length new ->
  SIPVia.setTransport (#"SIP/2.0/" ++ old ++ rest) new = #"SIP/2.0/" ++ new ++ rest /\
  SIPVia.setTransport #"SIP/2.0/UDP host;branch=z" #"WS" = #"SIP/2.0/WSP host;branch=z" /\
  SIPVia.setTransport #"SIP/2.0/TCP host;branch=z" #"SCTP" = #"SIP/2.0/SCTPhost;branch=z".
Proof.
  intros Hl. split; [|done]. unfold SIPVia.setTransport. cbv zeta.
  rewrite !length_app, Hl. destruct (_ <? _) eqn:E; bools; [lia|].
  unfold string_right. rewrite !length_app, Hl.
  replace (length #"SIP/2.0/" + (length new + length rest) - (length #"SIP/2.0/" + length new))
    with (length rest) by lia.
  destruct (_ <=? _) eqn:E'; bools; [simpl in E'; lia|].
  replace (length #"SIP/2.0/" + (length new + length rest) - length rest)
    with (length (#"SIP/2.0/" ++ old)) by (rewrite length_app, Hl; lia).
  by rewrite (app_assoc _ old rest), drop_app_length, <- app_assoc.
Qed.

(** The witness of [set_transport_length]. *)
Lemma set_transport_length_witness :
  SIPVia.setTransport #"SIP/2.0/UDP h" #"TLS" = #"SIP/2.0/TLS h".
Proof. exact (proj1 (set_transport_length #"UDP" #"TLS" #" h" eq_refl)). Defined.
