(* ===== verification/SipMessage.v ===== *)
(** * SIPMessage

    src/sipparser/SIPMessage.cpp and SIPHeaderTokens.cpp: the message object,
    its parser and serializer, the header list operations, the incremental
    reader and the classification of start lines.  The object is a record with
    the members of the class; a method that changes it returns the new record.
    The locks and the opaque user data are not part of the state. *)

From S2P Require Import Prelude Abnf AbnfFacts AbnfSearch SipGrammar CoreStrings SipParser.
From S2P Require Import SipHeaders.
From stdpp Require Import sorting.
Open Scope nat_scope.

(** ** SIPHeaderTokens: a vector of values with its header's name and rank *)

Record SIPHeaderTokens := Tokens {
  values : list str;
  rawHeaderName : str;
  headerOffSet : Z
}.

(** The default constructor. *)
Definition emptyTokens : SIPHeaderTokens := Tokens [] [] npos.

Definition set_values (t : SIPHeaderTokens) (vs : list str) : SIPHeaderTokens :=
  Tokens vs (rawHeaderName t) (headerOffSet t).

Definition push_back (t : SIPHeaderTokens) (v : str) : SIPHeaderTokens :=
  set_values t (values t ++ [v]).

(** [push_front]: clear, push the new value, push the old ones. *)
Definition push_front (t : SIPHeaderTokens) (v : str) : SIPHeaderTokens :=
  fold_left push_back (values t) (push_back (set_values t []) v).

(** ** The message *)

Inductive ConsumeState :=
| IDLE
| START_LINE_PARSE
| EXPECTING_NEW_LINE_1
| HEADER_LINE_START
| HEADER_LWS
| HEADER_NAME
| HEADER_VALUE
| EXPECTING_NEW_LINE_2
| EXPECTING_NEW_LINE_3
| EXPECTING_BODY.

#[export] Instance consume_state_eq_dec : EqDecision ConsumeState.
Proof. solve_decision. Defined.

Abbreviation SIPHeaderList := (gmap str SIPHeaderTokens).

Record SIPMessage := Msg {
  m_data : str;
  m_finalized : bool;
  m_startLine : str;
  m_body : str;
  m_badHeaders : list str;
  m_headers : SIPHeaderList;
  m_headerOffSet : Z;
  m_expectedBodyLen : Z;
  m_isResponse : tribool;
  m_isRequest : tribool;
  m_consumeState : ConsumeState;
  m_idleBuffer : str;
  m_properties : gmap str str
}.

(** [SIPMessage::SIPMessage()]. *)
Definition newMessage : SIPMessage :=
  Msg [] true [] [] [] ∅ 0 0 TIndet TIndet IDLE [] ∅.

(** The copy constructor: reader state, idle bytes and properties are not
    copied. *)
Definition copyMessage (m : SIPMessage) : SIPMessage :=
  Msg (m_data m) (m_finalized m) (m_startLine m) (m_body m) (m_badHeaders m) (m_headers m)
    (m_headerOffSet m) (m_expectedBodyLen m) (m_isResponse m) (m_isRequest m) IDLE [] ∅.

(** [operator=(const SIPMessage&)]: swap with a copy; the members that [swap]
    leaves out stay. *)
Definition assignMessage (this copy : SIPMessage) : SIPMessage :=
  Msg (m_data copy) (m_finalized copy) (m_startLine copy) (m_body copy) (m_badHeaders copy)
    (m_headers copy) (m_headerOffSet copy) (m_expectedBodyLen copy) (m_isResponse copy)
    (m_isRequest copy) (m_consumeState this) (m_idleBuffer this) (m_properties this).

(** Assignments to members. *)
Definition set_data (m : SIPMessage) (d : str) : SIPMessage :=
  Msg d (m_finalized m) (m_startLine m) (m_body m) (m_badHeaders m) (m_headers m)
    (m_headerOffSet m) (m_expectedBodyLen m) (m_isResponse m) (m_isRequest m)
    (m_consumeState m) (m_idleBuffer m) (m_properties m).
Definition set_finalized (m : SIPMessage) (b : bool) : SIPMessage :=
  Msg (m_data m) b (m_startLine m) (m_body m) (m_badHeaders m) (m_headers m)
    (m_headerOffSet m) (m_expectedBodyLen m) (m_isResponse m) (m_isRequest m)
    (m_consumeState m) (m_idleBuffer m) (m_properties m).
Definition set_startLine (m : SIPMessage) (s : str) : SIPMessage :=
  Msg (m_data m) (m_finalized m) s (m_body m) (m_badHeaders m) (m_headers m)
    (m_headerOffSet m) (m_expectedBodyLen m) (m_isResponse m) (m_isRequest m)
    (m_consumeState m) (m_idleBuffer m) (m_properties m).
Definition set_body (m : SIPMessage) (b : str) : SIPMessage :=
  Msg (m_data m) (m_finalized m) (m_startLine m) b (m_badHeaders m) (m_headers m)
    (m_headerOffSet m) (m_expectedBodyLen m) (m_isResponse m) (m_isRequest m)
    (m_consumeState m) (m_idleBuffer m) (m_properties m).
Definition set_headers (m : SIPMessage) (h : SIPHeaderList) (off : Z) : SIPMessage :=
  Msg (m_data m) (m_finalized m) (m_startLine m) (m_body m) (m_badHeaders m) h
    off (m_expectedBodyLen m) (m_isResponse m) (m_isRequest m)
    (m_consumeState m) (m_idleBuffer m) (m_properties m).
Definition set_kind (m : SIPMessage) (resp req : tribool) : SIPMessage :=
  Msg (m_data m) (m_finalized m) (m_startLine m) (m_body m) (m_badHeaders m) (m_headers m)
    (m_headerOffSet m) (m_expectedBodyLen m) resp req
    (m_consumeState m) (m_idleBuffer m) (m_properties m).
Definition set_consume (m : SIPMessage) (s : ConsumeState) (len : Z) (idle : str) : SIPMessage :=
  Msg (m_data m) (m_finalized m) (m_startLine m) (m_body m) (m_badHeaders m) (m_headers m)
    (m_headerOffSet m) len (m_isResponse m) (m_isRequest m) s idle (m_properties m).
Definition set_properties (m : SIPMessage) (p : gmap str str) : SIPMessage :=
  Msg (m_data m) (m_finalized m) (m_startLine m) (m_body m) (m_badHeaders m) (m_headers m)
    (m_headerOffSet m) (m_expectedBodyLen m) (m_isResponse m) (m_isRequest m)
    (m_consumeState m) (m_idleBuffer m) p.

Definition CRCR : str := [CR; CR].
Definition LFLF : str := [LF; LF].
Definition CRLFCRLF : str := [CR; LF; CR; LF].

Section message.
Context {boost : BoostString}.

(** ** Parsing *)

(** [hdrGetExpandedForm]. *)
Definition compact_forms : list (string * string) :=
  [("a", "Accept-Contact"); ("b", "Referred-By"); ("c", "Content-Type");
   ("e", "Content-Encoding"); ("f", "From"); ("i", "Call-ID"); ("k", "Supported");
   ("l", "Content-Length"); ("m", "Contact"); ("o", "Event"); ("r", "Refer-To");
   ("s", "Subject"); ("t", "To"); ("u", "Allow-Events"); ("v", "Via")]%string.

Fixpoint expand (h : str) (forms : list (string * string)) : option str :=
  match forms with
  | [] => None
  | (c, e) :: forms => if decide (h = lit c) then Some (lit e) else expand h forms
  end.

Definition hdrGetExpandedForm (header : str) : str :=
  default header (expand (to_lower header) compact_forms).

(** The loop that erases leading line breaks and bytes that are no characters. *)
Fixpoint strip_lead (d : str) : str :=
  match d with
  | c :: d' =>
      if negb (isChar c) || Ascii.eqb c CR || Ascii.eqb c LF then strip_lead d' else d
  | [] => []
  end.

(** One token of [headerTokenize]; the state is [lines] and [previousLine]. *)
Definition tokenize_line (st : list str * str) (currentLine : str) : list str * str :=
  let '(lines, previousLine) := st in
  if match currentLine with [] => false | c :: _ => isspace c end then
    let currentLine := trim previousLine ++ #" " ++ trim currentLine in
    (removelast lines ++ [currentLine], currentLine)
  else (lines ++ [currentLine], currentLine).

(** [headerTokenize]: [None] is [false]. *)
Definition headerTokenize (theString : str) : option (list str) :=
  if length theString =? 0 then None
  else
    let '(lines, _) := fold_left tokenize_line (tokenizer CRLF theString) ([], []) in
    if length lines =? 0 then None else Some lines.

(** [headerSplit]: name and value around the first colon, trimmed. *)
Definition headerSplit (header : str) : option (str * str) :=
  match str_find #":" header with
  | None => None
  | Some nameBound => Some (trim (take nameBound header), trim (drop (nameBound + 1) header))
  end.

(** [messageSplit(message, headers, body)]: the stripped message, the header
    part and the body when there is one; [None] when the message is empty. *)
Definition messageSplit (message : str) : option (str * str * option str) :=
  if length message =? 0 then None
  else
    let message := strip_lead message in
    let '(offSet, boundaryLen) :=
      match str_find CRLFCRLF message with
      | Some i => (Some i, 4)
      | None =>
          match str_find CRCR message with
          | Some i => (Some i, 2)
          | None => (str_find LFLF message, 2)
          end
      end in
    match offSet with
    | None => Some (message, message, None)
    | Some i =>
        let headers := take i message in
        let body :=
          if length headers + boundaryLen <? length message
          then Some (drop (i + boundaryLen) message) else None in
        Some (message, headers, body)
    end.

(** One header line of [parse]; the state is [_badHeaders], [_headers] and
    [_headerOffSet]. *)
Definition parse_header (st : list str * SIPHeaderList * Z) (header : str)
    : list str * SIPHeaderList * Z :=
  let '(bad, headers, off) := st in
  match headerSplit header with
  | None => (bad ++ [header], headers, off)
  | Some (rawName, headerValue) =>
      let headerName := to_lower (hdrGetExpandedForm rawName) in
      match headers !! headerName with
      | None =>
          (bad, <[headerName := Tokens [headerValue] rawName off]> headers, u64 (off + 1))
      | Some tokens => (bad, <[headerName := push_back tokens headerValue]> headers, off)
      end
  end.

(** [SIPMessage::parse(std::string& data)] with [data] aliasing [_data]. *)
Definition parseMessage (m : SIPMessage) : SIPMessage :=
  if length (m_data m) =? 0 then m
  else
    let data := strip_lead (m_data m) in
    let cleared st bod bad hs off fin d :=
      Msg d fin st bod bad hs off 0 TIndet TIndet (m_consumeState m) (m_idleBuffer m)
        (m_properties m) in
    match messageSplit data with
    | None => cleared [] [] [] ∅ 0%Z true data
    | Some (data, rawHeaders, body) =>
        let body := default [] body in
        match headerTokenize rawHeaders with
        | None => cleared [] body [] ∅ 0%Z true data
        | Some [] => cleared [] body [] ∅ 0%Z false data
        | Some (startLine :: lines) =>
            let '(bad, hs, off) := fold_left parse_header lines ([], ∅, 0%Z) in
            cleared startLine body bad hs off true data
        end
    end.

(** [SIPMessage::SIPMessage(const std::string& packet)]; the state of the
    incremental reader is left uninitialised by the constructor. *)
Definition fromPacket (packet : str) (uninitialised : ConsumeState) : SIPMessage :=
  parseMessage (Msg packet false [] [] [] ∅ 0 0 TIndet TIndet uninitialised [] ∅).

(** ** Header access *)

Definition hdrPresent (m : SIPMessage) (headerName : str) : nat :=
  if negb (m_finalized m) then 0
  else
    match m_headers m !! to_lower headerName with
    | None => 0
    | Some tokens => length (values tokens)
    end.

Definition hdrGetSize (m : SIPMessage) (headerName : str) : nat := hdrPresent m headerName.

Definition hdrGet (m : SIPMessage) (headerName : str) (index : nat) : str :=
  if negb (m_finalized m) then []
  else
    match m_headers m !! to_lower headerName with
    | None => []
    | Some tokens => default [] (values tokens !! index)
    end.

(** A new entry at the end of the message. *)
Definition new_header (m : SIPMessage) (headerName headerValue : str) : SIPMessage :=
  set_headers m
    (<[to_lower headerName := Tokens [headerValue] headerName (m_headerOffSet m)]> (m_headers m))
    (u64 (m_headerOffSet m + 1)).

(** Replace the entry of a header. *)
Definition put_header (m : SIPMessage) (headerName : str) (tokens : SIPHeaderTokens) : SIPMessage :=
  set_headers m (<[to_lower headerName := tokens]> (m_headers m)) (m_headerOffSet m).

Definition erase_header (m : SIPMessage) (headerName : str) : SIPMessage :=
  set_headers m (delete (to_lower headerName) (m_headers m)) (m_headerOffSet m).

(** [hdrSet(headerName, headerValue)]. *)
Definition hdrSet (m : SIPMessage) (headerName headerValue : str) : bool * SIPMessage :=
  if negb (m_finalized m) || (length headerValue =? 0) then (false, m)
  else
    match m_headers m !! to_lower headerName with
    | None => (true, new_header m headerName headerValue)
    | Some tokens =>
        if length (values tokens) =? 0 then (true, new_header m headerName headerValue)
        else (true, put_header m headerName (set_values tokens (<[0 := headerValue]> (values tokens))))
    end.

(** [hdrSet(headerName, headerValue, index)]: [operator[]] of the map inserts a
    default entry for an absent header before the size is tested. *)
Definition hdrSetIndex (m : SIPMessage) (headerName headerValue : str) (index : nat)
    : bool * SIPMessage :=
  if negb (m_finalized m) || (length headerValue =? 0) then (false, m)
  else
    match m_headers m !! to_lower headerName with
    | None =>
        if index =? 0 then (true, new_header m headerName headerValue)
        else (false, put_header m headerName emptyTokens)
    | Some tokens =>
        if (length (values tokens) =? 0) || (length (values tokens) <=? index) then (false, m)
        else
          (true, put_header m headerName (set_values tokens (<[index := headerValue]> (values tokens))))
    end.

Definition hdrRemove (m : SIPMessage) (headerName : str) : bool * SIPMessage :=
  if negb (m_finalized m) then (false, m)
  else
    match m_headers m !! to_lower headerName with
    | None => (false, m)
    | Some tokens =>
        if 1 <? length (values tokens) then (false, m) else (true, erase_header m headerName)
    end.

Definition hdrListAppend (m : SIPMessage) (name value : str) : bool * SIPMessage :=
  if negb (m_finalized m) || (length value =? 0) then (false, m)
  else
    match m_headers m !! to_lower name with
    | None => (true, new_header m name value)
    | Some tokens => (true, put_header m name (push_back tokens value))
    end.

Definition hdrListPrepend (m : SIPMessage) (name value : str) : bool * SIPMessage :=
  if negb (m_finalized m) || (length value =? 0) then (false, m)
  else
    match m_headers m !! to_lower name with
    | None => (true, new_header m name value)
    | Some tokens => (true, put_header m name (push_front tokens value))
    end.

Definition hdrListPopFront (m : SIPMessage) (headerName : str) : str * SIPMessage :=
  if negb (m_finalized m) then ([], m)
  else
    match m_headers m !! to_lower headerName with
    | None => ([], m)
    | Some tokens =>
        match values tokens with
        | [] => ([], erase_header m headerName)
        | [front] => (front, erase_header m headerName)
        | front :: rest => (front, put_header m headerName (set_values tokens rest))
        end
    end.

Definition hdrListRemove (m : SIPMessage) (headerName : str) : bool * SIPMessage :=
  if negb (m_finalized m) then (false, m)
  else
    match m_headers m !! to_lower headerName with
    | None => (false, m)
    | Some _ => (true, erase_header m headerName)
    end.

Definition hdrListBottom (m : SIPMessage) (headerName : str) : str :=
  let count := hdrGetSize m headerName in
  if count =? 0 then [] else hdrGet m headerName (count - 1).

(** ** Serialising *)

(** The order of [std::map<std::string, ...>]. *)
Fixpoint str_leb (a b : str) : bool :=
  match a, b with
  | [], _ => true
  | _ :: _, [] => false
  | c :: a, d :: b => (uchar c <? uchar d)%Z || ((uchar c =? uchar d)%Z && str_leb a b)
  end.

Definition key_order (p q : str * SIPHeaderTokens) : Prop := str_leb p.1 q.1 = true.
Definition offset_order (p q : Z * SIPHeaderTokens) : Prop := (p.1 <= q.1)%Z.

#[export] Instance key_order_dec p q : Decision (key_order p q).
Proof. unfold key_order. apply _. Defined.
#[export] Instance offset_order_dec p q : Decision (offset_order p q).
Proof. unfold offset_order. apply _. Defined.

(** [sortedHeaders]: filled in the order of the header map, so that of two
    entries with one offset the later one stays. *)
Definition sortedHeaders (h : SIPHeaderList) : gmap Z SIPHeaderTokens :=
  fold_left (fun s p => <[headerOffSet p.2 := p.2]> s) (merge_sort key_order (map_to_list h)) ∅.

Definition commit_order (h : SIPHeaderList) : list SIPHeaderTokens :=
  map snd (merge_sort offset_order (map_to_list (sortedHeaders h))).

Definition print_value (raw v : str) : str :=
  if length v =? 0 then [] else raw ++ #": " ++ v ++ CRLF.
Definition print_header (t : SIPHeaderTokens) : str :=
  concat (map (print_value (rawHeaderName t)) (values t)).

(** [commitData(std::string& data)]: the text it writes. *)
Definition commitText (m : SIPMessage) : str :=
  m_startLine m ++ CRLF ++ concat (map print_header (commit_order (m_headers m))) ++ CRLF ++ m_body m.

Definition commitData (m : SIPMessage) : SIPMessage := set_data m (commitText m).

(** [getHeaderNames]: the keys of the header map. *)
Definition getHeaderNames (m : SIPMessage) : gset str := dom (m_headers m).

(** ** Body, start line and properties *)

Definition setData (m : SIPMessage) (d : str) : SIPMessage := set_data (set_finalized m false) d.
Definition getBody (m : SIPMessage) : str := m_body m.
Definition setBody (m : SIPMessage) (b : str) : SIPMessage := set_body m b.
Definition getStartLine (m : SIPMessage) : str := m_startLine m.
Definition setStartLine (m : SIPMessage) (s : str) : SIPMessage := set_startLine m s.

Definition updateLength (m : SIPMessage) : SIPMessage :=
  snd (hdrSet m #"Content-Length" (string_from_number (length (m_body m)))).

Definition setProperty (m : SIPMessage) (property value : str) : SIPMessage :=
  if length property =? 0 then m else set_properties m (<[property := value]> (m_properties m)).
Definition getProperty (m : SIPMessage) (property : str) : option str :=
  if length property =? 0 then None else m_properties m !! property.
Definition clearProperties (m : SIPMessage) : SIPMessage := set_properties m ∅.

End message.
