(* ===== verification/SipMessageFacts.v ===== *)
(** * Theorems about SIPMessage: the header store

    The well-formedness of the header map, its preservation by every header
    operation and by the parser, the laws of the accessors, and the round trip
    between the serializer and the parser. *)

From S2P Require Import Prelude Abnf AbnfFacts AbnfSearch SipGrammar CoreStrings SipParser.
From S2P Require Import SipHeaders SipMessage.
From stdpp Require Import sorting.
Open Scope nat_scope.

Section facts.
Context {boost : BoostString}.

(** ** The invariant of the header map

    Keys are in lower case, no header is without a value, and the offsets, by
    which [commitData] orders the headers, are below the counter and distinct. *)
Definition hdr_ok (off : Z) (h : SIPHeaderList) : Prop :=
  map_Forall (fun k t => to_lower k = k /\ values t <> [] /\ (0 <= headerOffSet t < off)%Z) h /\
  (forall k1 k2 t1 t2, h !! k1 = Some t1 -> h !! k2 = Some t2 ->
     headerOffSet t1 = headerOffSet t2 -> k1 = k2).

Definition hdr_inv (m : SIPMessage) : Prop :=
  (0 <= m_headerOffSet m)%Z /\ hdr_ok (m_headerOffSet m) (m_headers m).

Lemma u64_small z : (0 <= z < npos)%Z -> u64 (z + 1) = (z + 1)%Z.
Proof. intros H. unfold u64, npos in *. apply Z.mod_small. lia. Qed.

(** A fresh header takes the offset of the counter. *)
Lemma hdr_ok_fresh off h k v raw :
  (0 <= off)%Z -> hdr_ok off h -> to_lower k = k -> h !! k = None ->
  hdr_ok (off + 1) (<[k := Tokens [v] raw off]> h).
Proof.
  intros Hoff [Hf Hd] Hk Hn. split.
  - apply map_Forall_insert_2; [simpl; split; [done|]; split; [done|lia]|].
    eapply map_Forall_impl; [exact Hf|]. simpl. intros k' t (? & ? & ?). repeat split; try done; lia.
  - assert (forall k' t, h !! k' = Some t -> headerOffSet t <> off) as Hlt.
    { intros k' t Ht. apply Hf in Ht as (_ & _ & ?). lia. }
    intros k1 k2 t1 t2. rewrite !lookup_insert.
    repeat case_decide; subst; try done.
    + intros [= <-] H2 E. by destruct (Hlt _ _ H2).
    + intros H1 [= <-] E. by destruct (Hlt _ _ H1).
    + apply Hd.
Qed.

(** Replacing the values of a header keeps its place. *)
Lemma hdr_ok_put off h k t t' :
  hdr_ok off h -> h !! k = Some t -> values t' <> [] -> headerOffSet t' = headerOffSet t ->
  hdr_ok off (<[k := t']> h).
Proof.
  intros [Hf Hd] Hk Hv Ho. split.
  - apply map_Forall_insert_2; [|done]. apply Hf in Hk as (? & ? & ?). by rewrite Ho.
  - assert (forall k1 t1, <[k:=t']> h !! k1 = Some t1 ->
      exists t0, h !! k1 = Some t0 /\ headerOffSet t0 = headerOffSet t1) as Hold.
    { intros k1 t1. rewrite lookup_insert. case_decide; [|eauto].
      intros [= <-]. subst. eauto. }
    intros k1 k2 t1 t2 (u1 & H1 & E1)%Hold (u2 & H2 & E2)%Hold E.
    apply (Hd _ _ _ _ H1 H2). congruence.
Qed.

Lemma hdr_ok_delete off h k : hdr_ok off h -> hdr_ok off (delete k h).
Proof.
  intros [Hf Hd]. split; [by apply map_Forall_delete|].
  intros k1 k2 t1 t2 [_ H1]%lookup_delete_Some [_ H2]%lookup_delete_Some. by apply Hd.
Qed.

Lemma new_header_inv m n v :
  hdr_inv m -> (m_headerOffSet m < npos)%Z -> m_headers m !! to_lower n = None ->
  hdr_inv (new_header m n v).
Proof.
  intros [Hp Hok] Hw Hn. unfold hdr_inv, new_header. simpl. rewrite u64_small by lia.
  split; [lia|]. apply hdr_ok_fresh; [done|done|apply to_lower_idem|done].
Qed.

Lemma put_header_inv m n t t' :
  hdr_inv m -> m_headers m !! to_lower n = Some t -> values t' <> [] ->
  headerOffSet t' = headerOffSet t -> hdr_inv (put_header m n t').
Proof. intros [Hp Hok] H1 H2 H3. split; [done|]. by eapply hdr_ok_put. Qed.

Lemma erase_header_inv m n : hdr_inv m -> hdr_inv (erase_header m n).
Proof. intros [Hp Hok]. split; [done|]. by apply hdr_ok_delete. Qed.

Lemma inv_values m n t : hdr_inv m -> m_headers m !! to_lower n = Some t -> values t <> [].
Proof. intros [_ [Hf _]] H. by apply Hf in H as (_ & ? & _). Qed.

Lemma push_front_eq t v : push_front t v = set_values t (v :: values t).
Proof.
  unfold push_front. destruct t as [vs raw off]. simpl. unfold push_back. simpl.
  assert (forall l u, fold_left (fun t v => set_values t (values t ++ [v])) l u =
    set_values u (values u ++ l)) as H.
  { induction l as [|x l IH]; intros u; simpl.
    - rewrite app_nil_r. by destruct u.
    - rewrite IH. unfold set_values. simpl. by rewrite <- app_assoc. }
  by rewrite H.
Qed.

(** C32: every header operation keeps the header map well-formed, as long as
    the 64-bit offset counter has not run out.  [hdrSet] with an index is
    covered when the header is present or the index is 0. *)
Theorem header_ops_preserve m n v i :
  hdr_inv m -> (m_headerOffSet m < npos)%Z ->
  hdr_inv (snd (hdrSet m n v)) /\ hdr_inv (snd (hdrRemove m n)) /\
  hdr_inv (snd (hdrListAppend m n v)) /\ hdr_inv (snd (hdrListPrepend m n v)) /\
  hdr_inv (snd (hdrListPopFront m n)) /\ hdr_inv (snd (hdrListRemove m n)) /\
  (i = 0 \/ m_headers m !! to_lower n <> None -> hdr_inv (snd (hdrSetIndex m n v i))).
Proof.
  intros Hm Hw. pose proof (inv_values m n) as Hv.
  unfold hdrSet, hdrRemove, hdrListAppend, hdrListPrepend, hdrListPopFront, hdrListRemove, hdrSetIndex.
  destruct (m_finalized m); simpl; [|by split_and!].
  destruct (m_headers m !! to_lower n) as [t|] eqn:E.
  - specialize (Hv t Hm eq_refl).
    assert (forall vs, vs <> [] -> hdr_inv (put_header m n (set_values t vs))) as Hput.
    { intros vs Hvs. by eapply put_header_inv. }
    assert (hdr_inv (erase_header m n)) as Her by (by apply erase_header_inv).
    split_and!.
    + destruct (length v =? 0); [done|]. brk; [bools; by destruct (values t)|]. simpl.
      apply Hput. by destruct (values t).
    + by brk.
    + destruct (length v =? 0); [done|]. apply Hput. by destruct (values t).
    + destruct (length v =? 0); [done|]. rewrite push_front_eq. by apply Hput.
    + destruct (values t) as [|a [|b l]]; [done|done|]. by apply Hput.
    + done.
    + intros _. destruct (length v =? 0); [done|]. brk; [done|]. apply Hput.
      bools. by destruct (values t), i.
  - assert (hdr_inv (new_header m n v)) as Hnew by (by apply new_header_inv).
    split_and!; try done; try (by brk).
    intros [->|H]; [by brk|done].
Qed.

(** ** The header store as lists of values

    The abstract message: for each key the list of its values, empty when the
    header is absent. *)
Definition hdrs (m : SIPMessage) (k : str) : list str :=
  match m_headers m !! k with None => [] | Some t => values t end.

(** The list of one key replaced. *)
Definition upd (f : str -> list str) (k : str) (l : list str) : str -> list str :=
  fun k' => if decide (k = k') then l else f k'.

Lemma hdrs_put m n t k : hdrs (put_header m n t) k = upd (hdrs m) (to_lower n) (values t) k.
Proof. unfold hdrs, upd, put_header. simpl. rewrite lookup_insert. by case_decide. Qed.

Lemma hdrs_new m n v k : hdrs (new_header m n v) k = upd (hdrs m) (to_lower n) [v] k.
Proof. unfold hdrs, upd, new_header. simpl. rewrite lookup_insert. by case_decide. Qed.

Lemma hdrs_erase m n k : hdrs (erase_header m n) k = upd (hdrs m) (to_lower n) [] k.
Proof.
  unfold hdrs, upd, erase_header. simpl. destruct (decide (to_lower n = k)) as [<-|].
  - by rewrite lookup_delete_eq.
  - by rewrite lookup_delete_ne.
Qed.

Lemma upd_same f k l k' : f k = l -> f k' = upd f k l k'.
Proof. intros <-. unfold upd. by case_decide; subst. Qed.


(** *** Setting an absent header by index *)

Lemma set_index_absent m n v i :
  m_finalized m = true -> v <> [] -> m_headers m !! to_lower n = None ->
  hdrSetIndex m n v (S i) = (false, put_header m n emptyTokens).
Proof.
  intros Hf Hv Hn. unfold hdrSetIndex. rewrite Hf, Hn. destruct v; [done|]. done.
Qed.

End facts.

(** The witness of [header_ops_preserve]: the empty message. *)
Lemma header_ops_preserve_witness :
  hdr_inv (snd (hdrListAppend newMessage #"Via" #"SIP/2.0/UDP a")).
Proof.
  refine (proj1 (proj2 (proj2 (header_ops_preserve (boost := boost_reference)
    newMessage #"Via" #"SIP/2.0/UDP a" 0 _ _)))); [|reflexivity].
  split; [simpl; lia|]. split; [apply map_Forall_empty|]. intros k1 k2 t1 t2 H. discriminate H.
Defined.


(** Setting a header that is absent by a non-zero index.  The call reports
    failure but leaves an entry without values, name or offset behind, which
    breaks the invariant of the header map.  When two headers have been touched
    this way, values appended to both later are all there for [hdrGet], but
    [commitData] writes only one of them, and writes it without its name. *)
Theorem set_index_absent_breaks :
  (forall {boost : BoostString} m n v i,
     m_finalized m = true -> v <> [] -> m_headers m !! to_lower n = None ->
     fst (hdrSetIndex m n v (S i)) = false /\ ~ hdr_inv (snd (hdrSetIndex m n v (S i)))) /\
  let m0 := snd (hdrSetIndex newMessage #"A" #"1" 1) in
  let m1 := snd (hdrSetIndex m0 #"B" #"1" 1) in
  let m2 := snd (hdrListAppend m1 #"A" #"x") in
  let m3 := snd (hdrListAppend m2 #"B" #"y") in
  hdrGet m3 #"A" 0 = #"x" /\ hdrGet m3 #"B" 0 = #"y" /\
  commitText m3 = CRLF ++ #": y" ++ CRLF ++ CRLF.
Proof.
  split; [|vm_compute; done].
  intros boost m n v i Hf Hv Hn. rewrite set_index_absent by done. split; [done|].
  intros Hinv. apply (inv_values _ n emptyTokens Hinv); [|done].
  simpl. by rewrite lookup_insert_eq.
Qed.
