(* ===== verification/SipRoundtrip.v ===== *)
(** * The round trip between commitData and parse

    What [SIPMessage::commitData] writes for a well-formed message is read back
    by [SIPMessage::parse] as the same message, and written again as the same
    text; [parse] itself always leaves a well-formed header map. *)

From S2P Require Import Prelude Abnf AbnfFacts AbnfSearch SipGrammar CoreStrings SipParser.
From S2P Require Import SipHeaders SipMessage SipMessageFacts.
From stdpp Require Import sorting.
Open Scope nat_scope.

(** ** The order in which headers are written *)

Definition by_offset (t u : SIPHeaderTokens) : Prop := (headerOffSet t < headerOffSet u)%Z.

Lemma sorted_fold (l : list (str * SIPHeaderTokens)) (s : gmap Z SIPHeaderTokens) o :
  (forall p q, p ∈ l -> q ∈ l -> headerOffSet p.2 = headerOffSet q.2 -> p.2 = q.2) ->
  (forall p, p ∈ l -> s !! headerOffSet p.2 = None) ->
  forall t, fold_left (fun s p => <[headerOffSet p.2 := p.2]> s) l s !! o = Some t <->
    (exists k, (k, t) ∈ l /\ headerOffSet t = o) \/ s !! o = Some t.
Proof.
  revert s. induction l as [|[k u] l IH] using rev_ind; intros s Hd Hs t.
  { simpl. split; [by right|]. intros [(k & H & _)|H]; [by apply not_elem_of_nil in H|done]. }
  rewrite fold_left_app. simpl. rewrite lookup_insert. case_decide as E.
  - subst o. split.
    + intros [= <-]. left. exists k. split; [|done]. apply elem_of_app. right. by apply list_elem_of_singleton.
    + intros [(k' & Hin & Eo)|Hin].
      * f_equal. symmetry. apply (Hd (k', t) (k, u)); [done| |done].
        apply elem_of_app. right. by apply list_elem_of_singleton.
      * pose proof (Hs (k, u)) as Hn. simpl in Hn. rewrite Hn in Hin; [done|]. apply elem_of_app. right. by apply list_elem_of_singleton.
  - rewrite IH.
    + split; (intros [(k' & Hin & Eo)|Hin]; [left|by right]).
      * exists k'. split; [|done]. apply elem_of_app. by left.
      * apply elem_of_app in Hin as [Hin|Hin]; [by exists k'|].
        apply list_elem_of_singleton in Hin. by injection Hin as -> ->.
    + intros p q Hp Hq. apply Hd; apply elem_of_app; by left.
    + intros p Hp. apply Hs. apply elem_of_app; by left.
Qed.

Section order_facts.
Context {boost : BoostString}.

Lemma sorted_lookup off h o t :
  hdr_ok off h -> sortedHeaders h !! o = Some t <-> exists k, h !! k = Some t /\ headerOffSet t = o.
Proof.
  intros [Hf Hd]. unfold sortedHeaders.
  assert (forall p, p ∈ merge_sort key_order (map_to_list h) <-> h !! p.1 = Some p.2) as Hin.
  { intros [k u]. rewrite merge_sort_Permutation, elem_of_map_to_list. done. }
  rewrite sorted_fold.
  - split.
    + intros [(k & H & E)|H]; [|done]. apply Hin in H. by exists k.
    + intros (k & H & E). left. exists k. split; [|done]. by apply Hin.
  - intros [k1 t1] [k2 t2] H1%Hin H2%Hin E. simpl in *.
    pose proof (Hd _ _ _ _ H1 H2 E) as ->. congruence.
  - done.
Qed.

Lemma commit_order_sorted off h : hdr_ok off h -> StronglySorted by_offset (commit_order h).
Proof.
  intros Hok. unfold commit_order.
  assert (forall p, p ∈ merge_sort offset_order (map_to_list (sortedHeaders h)) ->
    headerOffSet p.2 = p.1) as Hp.
  { intros [o t]. rewrite merge_sort_Permutation, elem_of_map_to_list. simpl.
    rewrite (sorted_lookup off) by done. by intros (k & _ & ?). }
  assert (NoDup (map fst (merge_sort offset_order (map_to_list (sortedHeaders h))))) as Hnd.
  { rewrite merge_sort_Permutation. apply NoDup_fst_map_to_list. }
  assert (StronglySorted offset_order (merge_sort offset_order (map_to_list (sortedHeaders h)))) as Hs.
  { apply StronglySorted_merge_sort; [intros p q r; unfold offset_order; lia|].
    intros p q. unfold offset_order. lia. }
  revert Hp Hnd. induction Hs as [|[o t] l Hl IH Hall]; intros Hp Hnd; simpl; constructor.
  - apply IH; [intros p Hin; apply Hp; by right|]. by apply NoDup_cons in Hnd as [_ ?].
  - apply Forall_map, Forall_forall. intros [o' t'] Hin. unfold by_offset. simpl.
    pose proof (Hp (o, t) (list_elem_of_here _ _)) as E1.
    pose proof (Hp (o', t') (list_elem_of_further _ _ _ Hin)) as E2. simpl in E1, E2.
    rewrite Forall_forall in Hall. specialize (Hall _ Hin). unfold offset_order in Hall. simpl in Hall.
    apply NoDup_cons in Hnd as [Hni _]. simpl in Hni.
    assert (o <> o') by (intros ->; apply Hni; apply list_elem_of_fmap; by exists (o', t')). lia.
Qed.

Lemma commit_order_elem off h t :
  hdr_ok off h -> t ∈ commit_order h <-> exists k, h !! k = Some t.
Proof.
  intros Hok. unfold commit_order. rewrite list_elem_of_fmap. split.
  - intros ([o u] & -> & Hin). rewrite merge_sort_Permutation, elem_of_map_to_list in Hin.
    apply (sorted_lookup off) in Hin as (k & ? & _); [|done]. by exists k.
  - intros (k & Hk). exists (headerOffSet t, t). split; [done|].
    rewrite merge_sort_Permutation, elem_of_map_to_list. apply (sorted_lookup off); [done|]. by exists k.
Qed.

Lemma by_offset_nodup l : StronglySorted by_offset l -> NoDup l.
Proof.
  induction 1 as [|t l Hl IH Hall]; constructor; [|done]. intros Hin.
  rewrite Forall_forall in Hall. specialize (Hall _ Hin). unfold by_offset in Hall. lia.
Qed.

(** The order is determined by the headers and their offsets. *)
Lemma commit_order_unique off h l :
  hdr_ok off h -> StronglySorted by_offset l -> (forall t, t ∈ l <-> exists k, h !! k = Some t) ->
  commit_order h = l.
Proof.
  intros Hok Hs Hin. pose proof (commit_order_sorted _ _ Hok) as Hc.
  eapply StronglySorted_unique_strong; [|exact Hc|exact Hs|].
  - intros t u _ _. unfold by_offset. lia.
  - apply NoDup_Permutation; [by apply by_offset_nodup..|].
    intros t. rewrite (commit_order_elem off) by done. by rewrite Hin.
Qed.

End order_facts.

(** ** Lines *)

(** A line of a message: not empty, without line breaks. *)
Definition is_line (w : str) : Prop := w <> [] /\ sep_free CRLF w.

(** The lines behind the first one. *)
Definition more_lines (ls : list str) : str := concat (map (fun l => CRLF ++ l) ls).

Lemma lines_shift ls x :
  CRLF ++ concat (map (fun l => l ++ CRLF) ls) ++ x = more_lines ls ++ CRLF ++ x.
Proof.
  unfold more_lines. induction ls as [|l ls IH]; [done|]. cbn [map concat].
  rewrite <- !app_assoc. by rewrite <- IH.
Qed.

Lemma not_cr c : is_sep CRLF c = false -> Ascii.eqb CR c = false.
Proof.
  intros Hc. rewrite Ascii.eqb_sym. unfold is_sep, CRLF in Hc. cbn [existsb] in Hc.
  by apply orb_false_iff in Hc as [? _].
Qed.

Lemma find_skip w x :
  sep_free CRLF w ->
  str_find CRLFCRLF (w ++ x) = option_map (Nat.add (length w)) (str_find CRLFCRLF x).
Proof.
  induction 1 as [|c w Hc _ IH]; [simpl; by destruct (str_find CRLFCRLF x)|].
  rewrite <- app_comm_cons, find_unfold. apply not_cr in Hc.
  unfold CRLFCRLF at 1. cbn [is_prefix]. rewrite Hc. cbn [andb]. rewrite IH.
  by destruct (str_find CRLFCRLF x).
Qed.

Lemma find_break c x :
  is_sep CRLF c = false ->
  str_find CRLFCRLF (CRLF ++ c :: x) = option_map (Nat.add 2) (str_find CRLFCRLF (c :: x)).
Proof.
  intros Hc%not_cr. unfold CRLF. cbn [app]. rewrite find_unfold, (find_unfold _ (LF :: _)).
  unfold CRLFCRLF at 1 2. cbn [is_prefix]. rewrite Hc, !andb_false_r. cbn [andb].
  change (Ascii.eqb CR LF) with false. cbn [andb].
  by destruct (str_find CRLFCRLF (c :: x)).
Qed.

(** The blank line is found behind the last header line. *)
Lemma find_blank_line ls x :
  Forall is_line ls ->
  str_find CRLFCRLF (more_lines ls ++ CRLFCRLF ++ x) = Some (length (more_lines ls)).
Proof.
  induction 1 as [|l ls [Hne Hl] _ IH]; [done|].
  unfold more_lines. cbn [map concat]. fold (more_lines ls). rewrite <- !app_assoc.
  destruct Hl as [|c w Hc Hw]; [done|]. rewrite <- app_comm_cons, find_break by done.
  rewrite app_comm_cons, find_skip by (by constructor).
  rewrite IH. simpl. f_equal. rewrite length_app. lia.
Qed.

Section roundtrip.
Context {boost : BoostString}.

Lemma crlf_seps : Forall (fun c => is_sep CRLF c = true) CRLF.
Proof. by repeat constructor. Qed.

Lemma tokenizer_lines l ls :
  is_line l -> Forall is_line ls -> tokenizer CRLF (l ++ more_lines ls) = l :: ls.
Proof.
  intros Hl Hls. revert l Hl. induction Hls as [|a ls Ha _ IH]; intros l [Hne Hl].
  - unfold more_lines. simpl. rewrite app_nil_r. by apply tokenizer_end.
  - unfold more_lines. cbn [map concat]. fold (more_lines ls). rewrite <- app_assoc.
    rewrite tokenizer_line; [by rewrite IH|done..|apply crlf_seps].
Qed.

(** A line that does not continue the one before it. *)
Definition own_line (w : str) : Prop :=
  match w with [] => True | c :: _ => isspace c = false end.

Lemma tokenize_own ls acc prev :
  Forall own_line ls -> exists prev', fold_left tokenize_line ls (acc, prev) = (acc ++ ls, prev').
Proof.
  intros Hls. revert acc prev. induction Hls as [|l ls Hl _ IH]; intros acc prev; simpl.
  - exists prev. by rewrite app_nil_r.
  - assert (tokenize_line (acc, prev) l = (acc ++ [l], l)) as E.
    { unfold tokenize_line. destruct l as [|c l]; [done|]. simpl in Hl. by rewrite Hl. }
    simpl in E. rewrite E. destruct (IH (acc ++ [l]) l) as [p ->]. exists p. by rewrite <- app_assoc.
Qed.

Lemma header_tokenize_lines l ls :
  is_line l -> Forall is_line ls -> own_line l -> Forall own_line ls ->
  headerTokenize (l ++ more_lines ls) = Some (l :: ls).
Proof.
  intros Hl Hls Ho Hos. unfold headerTokenize.
  destruct (length (l ++ more_lines ls) =? 0) eqn:E; bools.
  { rewrite length_app in E. destruct Hl as [Hne _]. destruct l; [done|]. simpl in E. lia. }
  rewrite tokenizer_lines by done.
  destruct (tokenize_own (l :: ls) [] []) as [p ->]; [by constructor|]. done.
Qed.

(** ** Header lines *)

Definition wf_name (raw : str) : Prop :=
  trimmed raw /\ sep_free CRLF raw /\ Forall (fun c => Ascii.eqb ":" c = false) raw.
Definition wf_value (v : str) : Prop := v <> [] /\ trimmed v /\ sep_free CRLF v.

Definition header_line (raw v : str) : str := raw ++ #": " ++ v.

Lemma find_colon raw x :
  Forall (fun c => Ascii.eqb ":" c = false) raw -> str_find #":" (raw ++ #":" ++ x) = Some (length raw).
Proof.
  induction 1 as [|c raw Hc _ IH]; [done|]. rewrite <- app_comm_cons, find_unfold.
  change (#":") with [":"%char] at 1. cbn [is_prefix]. rewrite Hc. cbn [andb]. by rewrite IH.
Qed.

Lemma header_split_line raw v :
  wf_name raw -> wf_value v -> headerSplit (header_line raw v) = Some (raw, v).
Proof.
  intros (Ht & _ & Hc) (_ & Hv & _). unfold headerSplit, header_line.
  change (#": " ++ v) with (#":" ++ #" " ++ v). rewrite find_colon by done.
  rewrite take_app_length, trim_id by done.
  rewrite Nat.add_1_r. change (#":" ++ #" " ++ v) with ([":"%char] ++ #" " ++ v).
  rewrite app_assoc, drop_app_length' by (rewrite length_app; simpl; lia).
  rewrite trim_lead; [done|by repeat constructor|done].
Qed.

Lemma header_line_ok raw v :
  wf_name raw -> wf_value v -> is_line (header_line raw v) /\ own_line (header_line raw v).
Proof.
  intros ([Hh _] & Hr & _) (_ & _ & Hv). unfold header_line. split; [split|].
  - by destruct raw.
  - apply Forall_app. split; [done|]. apply Forall_app. split; [by repeat constructor|done].
  - by destruct raw.
Qed.

(** The key under which a header is stored. *)
Definition hdr_key (t : SIPHeaderTokens) : str := to_lower (hdrGetExpandedForm (rawHeaderName t)).

Definition wf_tokens (t : SIPHeaderTokens) : Prop :=
  wf_name (rawHeaderName t) /\ values t <> [] /\ Forall wf_value (values t).

Definition header_lines (t : SIPHeaderTokens) : list str :=
  map (header_line (rawHeaderName t)) (values t).

(** The values of one header, parsed after the first. *)
Lemma parse_more_values t u raw vs bad hs off :
  wf_name raw -> Forall wf_value vs -> to_lower (hdrGetExpandedForm raw) = hdr_key t ->
  hs !! hdr_key t = Some u ->
  fold_left parse_header (map (header_line raw) vs) (bad, hs, off) =
    (bad, <[hdr_key t := set_values u (values u ++ vs)]> hs, off).
Proof.
  intros Hr Hvs Hk. revert u hs. induction Hvs as [|v vs Hv _ IH]; intros u hs Hu; simpl.
  - rewrite app_nil_r. rewrite insert_id; [done|]. by destruct u.
  - rewrite header_split_line by done. rewrite Hk, Hu.
    rewrite (IH (push_back u v)); [|by rewrite lookup_insert_eq].
    rewrite insert_insert_eq. do 3 f_equal. unfold push_back, set_values. simpl. by rewrite <- app_assoc.
Qed.

(** A header of the serialized text, read back: it takes the next offset. *)
Definition renumber (t : SIPHeaderTokens) (off : Z) : SIPHeaderTokens :=
  Tokens (values t) (rawHeaderName t) off.

Lemma parse_header_lines t bad hs off :
  wf_tokens t -> hs !! hdr_key t = None ->
  fold_left parse_header (header_lines t) (bad, hs, off) =
    (bad, <[hdr_key t := renumber t off]> hs, u64 (off + 1)).
Proof.
  intros (Hr & Hne & Hvs) Hn. unfold header_lines, renumber.
  destruct Hvs as [|v vs Hv Hvs]; [done|]. cbn [map fold_left].
  assert (parse_header (bad, hs, off) (header_line (rawHeaderName t) v) =
    (bad, <[hdr_key t := Tokens [v] (rawHeaderName t) off]> hs, u64 (off + 1))) as ->.
  { unfold parse_header. rewrite header_split_line by done.
    fold (hdr_key t). by rewrite Hn. }
  rewrite (parse_more_values t (Tokens [v] (rawHeaderName t) off)); [|done..|by rewrite lookup_insert_eq].
  by rewrite insert_insert_eq.
Qed.

(** The headers of a list stored one after the other. *)
Fixpoint store_all (l : list SIPHeaderTokens) (hs : SIPHeaderList) (off : Z) : SIPHeaderList :=
  match l with
  | [] => hs
  | t :: l => store_all l (<[hdr_key t := renumber t off]> hs) (off + 1)
  end.

Fixpoint numbered (l : list SIPHeaderTokens) (off : Z) : list SIPHeaderTokens :=
  match l with
  | [] => []
  | t :: l => renumber t off :: numbered l (off + 1)
  end.

Lemma parse_all_lines l bad hs off :
  Forall wf_tokens l -> NoDup (map hdr_key l) -> (forall t, t ∈ l -> hs !! hdr_key t = None) ->
  (0 <= off)%Z -> (off + Z.of_nat (length l) <= npos)%Z ->
  fold_left parse_header (concat (map header_lines l)) (bad, hs, off) =
    (bad, store_all l hs off, (off + Z.of_nat (length l))%Z).
Proof.
  intros Hl. revert hs off. induction Hl as [|t l Ht _ IH]; intros hs off Hnd Hn Ho Hw.
  - simpl. by rewrite Z.add_0_r.
  - cbn [map concat]. rewrite fold_left_app. rewrite parse_header_lines by (try done; apply Hn; by left).
    cbn [map] in Hnd. apply NoDup_cons in Hnd as [Hni Hnd]. cbn [length] in Hw.
    rewrite u64_small by lia. rewrite IH; [cbn [store_all length]; f_equal; lia|done| |lia|lia].
    intros u Hu. rewrite lookup_insert_ne; [apply Hn; by right|].
    intros E. apply Hni. rewrite E. by apply list_elem_of_fmap_2.
Qed.

Lemma numbered_offsets l off u :
  u ∈ numbered l off -> (off <= headerOffSet u < off + Z.of_nat (length l))%Z.
Proof.
  revert off. induction l as [|t l IH]; intros off; simpl; [by intros ?%not_elem_of_nil|].
  intros [->|H]%elem_of_cons; [simpl; lia|]. apply IH in H. lia.
Qed.

Lemma numbered_sorted l off : StronglySorted by_offset (numbered l off).
Proof.
  revert off. induction l as [|t l IH]; intros off; simpl; constructor; [done|].
  apply Forall_forall. intros u Hu. apply numbered_offsets in Hu. unfold by_offset. simpl. lia.
Qed.

Lemma numbered_elem l off t : t ∈ l -> exists o, renumber t o ∈ numbered l off.
Proof.
  revert off. induction l as [|u l IH]; intros off; [by intros ?%not_elem_of_nil|].
  intros [->|H]%elem_of_cons; simpl; [exists off; by left|].
  destruct (IH (off + 1)%Z H) as [o Ho]. exists o. by right.
Qed.

Lemma numbered_inv l off u : u ∈ numbered l off -> exists t, t ∈ l /\ u = renumber t (headerOffSet u).
Proof.
  revert off. induction l as [|t l IH]; intros off; simpl; [by intros ?%not_elem_of_nil|].
  intros [->|H]%elem_of_cons; [exists t; split; [by left|done]|].
  apply IH in H as (s & ? & ?). exists s. split; [by right|done].
Qed.

Lemma store_all_lookup l hs off k u :
  NoDup (map hdr_key l) ->
  store_all l hs off !! k = Some u <->
  (u ∈ numbered l off /\ hdr_key u = k) \/ (hs !! k = Some u /\ k ∉ map hdr_key l).
Proof.
  revert hs off. induction l as [|t l IH]; intros hs off Hnd; simpl.
  { split; [intros H; right; split; [done|apply not_elem_of_nil]|].
    intros [[H _]|[H _]]; [by apply not_elem_of_nil in H|done]. }
  cbn [map] in Hnd. apply NoDup_cons in Hnd as [Hni Hnd]. rewrite IH by done.
  rewrite elem_of_cons, not_elem_of_cons. split.
  - intros [[H E]|[H E]]; [left; split; [by right|done]|].
    rewrite lookup_insert in H. case_decide as Ek; [|right; done].
    injection H as <-. left. split; [by left|done].
  - intros [[[->|H] E]|[H [E Hk]]].
    + right. rewrite <- E. split; [apply lookup_insert_eq|done].
    + by left.
    + right. rewrite lookup_insert_ne by done. done.
Qed.

Lemma print_lines t :
  Forall wf_value (values t) -> print_header t = concat (map (fun l => l ++ CRLF) (header_lines t)).
Proof.
  intros H. unfold print_header, header_lines. rewrite map_map. f_equal.
  induction H as [|v vs [Hv _] _ IH]; [done|]. cbn [map]. rewrite IH. f_equal.
  unfold print_value, header_line. destruct v; [done|]. cbn [length Nat.eqb]. by rewrite <- !app_assoc.
Qed.

Lemma print_all_lines l :
  Forall wf_tokens l ->
  concat (map print_header l) = concat (map (fun l => l ++ CRLF) (concat (map header_lines l))).
Proof.
  induction 1 as [|t l (_ & _ & Hv) _ IH]; [done|]. cbn [map concat].
  rewrite map_app, concat_app, IH, print_lines by done. done.
Qed.

Lemma strict_length l a b :
  StronglySorted by_offset l -> (forall t, t ∈ l -> (a <= headerOffSet t < b)%Z) -> (a <= b)%Z ->
  (Z.of_nat (length l) <= b - a)%Z.
Proof.
  intros Hs. revert a. induction Hs as [|t l Hs IH Hall]; intros a Hb Hab; simpl; [lia|].
  assert (Hbt := Hb t (list_elem_of_here _ _)).
  specialize (IH (headerOffSet t + 1)%Z). rewrite Forall_forall in Hall.
  assert (Z.of_nat (length l) <= b - (headerOffSet t + 1))%Z; [|lia]. apply IH; [|lia].
  intros u Hu. pose proof (Hall u Hu). pose proof (Hb u (list_elem_of_further _ _ _ Hu)).
  unfold by_offset in *. lia.
Qed.

(** ** Well-formed messages *)

Definition wf_start (s : str) : Prop :=
  sep_free CRLF s /\ match s with [] => False | c :: _ => isChar c = true /\ isspace c = false end.

Record wf_message (m : SIPMessage) : Prop := {
  wf_inv : hdr_inv m;
  wf_counter : (m_headerOffSet m < npos)%Z;
  wf_startLine : wf_start (m_startLine m);
  wf_headers : map_Forall (fun k t => wf_tokens t /\ hdr_key t = k) (m_headers m)
}.

#[export] Instance trimmed_dec s : Decision (trimmed s).
Proof. unfold trimmed. destruct s as [|c s], (last _); apply _. Defined.
#[export] Instance wf_start_dec s : Decision (wf_start s).
Proof. unfold wf_start, sep_free. destruct s; apply _. Defined.
#[export] Instance wf_value_dec v : Decision (wf_value v).
Proof. unfold wf_value, sep_free. apply _. Defined.
#[export] Instance wf_tokens_dec t : Decision (wf_tokens t).
Proof. unfold wf_tokens, wf_name, sep_free. apply _. Defined.

(** The headers of a message as a list: well-formedness can be computed. *)
Definition wf_entry (off : Z) (kt : str * SIPHeaderTokens) : Prop :=
  to_lower (fst kt) = fst kt /\ (0 <= headerOffSet (snd kt) < off)%Z /\ wf_tokens (snd kt) /\ hdr_key (snd kt) = fst kt.

Lemma wf_message_check m :
  let l := map_to_list (m_headers m) in
  (0 <= m_headerOffSet m < npos)%Z -> wf_start (m_startLine m) ->
  Forall (wf_entry (m_headerOffSet m)) l -> NoDup ((fun kt => headerOffSet (snd kt)) <$> l) -> wf_message m.
Proof.
  intros l Ho Hs Hl Hn. rewrite Forall_forall in Hl.
  assert (forall k t, m_headers m !! k = Some t -> wf_entry (m_headerOffSet m) (k, t)) as Hw
    by (intros k t Ht; apply Hl; by apply elem_of_map_to_list).
  split; [split; [lia|split]|lia|done|].
  - intros k t Ht. destruct (Hw k t Ht) as (H1 & H2 & (_ & H3 & _) & _). done.
  - intros k1 k2 t1 t2 H1 H2 E.
    apply elem_of_map_to_list, list_elem_of_lookup in H1 as [i Hi].
    apply elem_of_map_to_list, list_elem_of_lookup in H2 as [j Hj].
    assert (i = j) as ->; [|congruence].
    apply (NoDup_lookup _ i j (headerOffSet t1) Hn).
    + by rewrite list_lookup_fmap; subst l; rewrite Hi.
    + rewrite list_lookup_fmap. subst l. rewrite Hj. simpl. by rewrite E.
  - intros k t Ht. destruct (Hw k t Ht) as (_ & _ & H3 & H4). done.
Qed.

Section one_message.
Context (m : SIPMessage) (Hwf : wf_message m).
Let l := commit_order (m_headers m).

Lemma commit_elem t : t ∈ l <-> m_headers m !! hdr_key t = Some t.
Proof.
  destruct Hwf as [[_ Hok] _ _ Hh]. unfold l.
  rewrite (commit_order_elem (m_headerOffSet m)) by done. split; [|by eexists].
  intros [k Hk]. pose proof (Hh _ _ Hk) as [_ <-]. done.
Qed.

Lemma commit_wf : Forall wf_tokens l.
Proof.
  apply Forall_forall. intros t Ht%commit_elem. destruct Hwf as [_ _ _ Hh].
  by apply Hh in Ht as [? _].
Qed.

Lemma commit_keys : NoDup (map hdr_key l).
Proof.
  destruct Hwf as [[_ Hok] _ _ _].
  apply NoDup_fmap_2_strong; [|by eapply by_offset_nodup, commit_order_sorted].
  intros t u Ht%commit_elem Hu%commit_elem E. rewrite E in Ht. congruence.
Qed.

Lemma commit_length : (Z.of_nat (length l) <= npos)%Z.
Proof.
  destruct Hwf as [[H0 Hok] Hw _ _].
  assert (Z.of_nat (length l) <= m_headerOffSet m - 0)%Z; [|lia].
  apply strict_length; [by eapply commit_order_sorted| |done].
  intros t Ht%commit_elem. destruct Hok as [Hf _]. by apply Hf in Ht as (_ & _ & ?).
Qed.

(** The stored headers: the same lists under new offsets. *)
Definition stored : SIPHeaderList := store_all l ∅ 0.

Lemma stored_lookup k u :
  stored !! k = Some u <-> u ∈ numbered l 0 /\ hdr_key u = k.
Proof.
  unfold stored. rewrite store_all_lookup by apply commit_keys. split; [|by left].
  by intros [?|[? _]].
Qed.

Lemma stored_ok : hdr_ok (Z.of_nat (length l)) stored.
Proof.
  split.
  - intros k u [Hu <-]%stored_lookup. pose proof (numbered_offsets _ _ _ Hu).
    split; [apply to_lower_idem|]. split; [|lia].
    apply numbered_inv in Hu as (t & Ht & ->). simpl.
    pose proof commit_wf as Hw. rewrite Forall_forall in Hw. by apply Hw in Ht as (_ & ? & _).
  - intros k1 k2 t1 t2 [H1 <-]%stored_lookup [H2 <-]%stored_lookup E. f_equal.
    pose proof (numbered_sorted l 0) as Hs. revert H1 H2. generalize (numbered l 0) Hs.
    induction 1 as [|t n Hn IH Hall]; [by intros ?%not_elem_of_nil|].
    rewrite Forall_forall in Hall. unfold by_offset in Hall.
    intros [->|H1]%elem_of_cons [->|H2]%elem_of_cons; [done| | |by apply IH].
    + specialize (Hall _ H2). lia.
    + specialize (Hall _ H1). lia.
Qed.

Lemma stored_order : commit_order stored = numbered l 0.
Proof.
  apply (commit_order_unique _ _ _ stored_ok); [apply numbered_sorted|].
  intros t. split; [intros Ht; exists (hdr_key t); by apply stored_lookup|].
  by intros [k [? _]%stored_lookup].
Qed.

Lemma stored_values k :
  match stored !! k, m_headers m !! k with
  | Some u, Some t => values u = values t /\ rawHeaderName u = rawHeaderName t
  | None, None => True
  | _, _ => False
  end.
Proof.
  destruct (stored !! k) as [u|] eqn:Eu.
  - apply stored_lookup in Eu as [Hu <-]. apply numbered_inv in Hu as (t & Ht%commit_elem & ->).
    unfold hdr_key in *. simpl in *. by rewrite Ht.
  - destruct (m_headers m !! k) as [t|] eqn:Et; [|done].
    assert (hdr_key t = k) as <- by (destruct Hwf as [_ _ _ Hh]; by apply Hh in Et as [_ ?]).
    apply commit_elem, (numbered_elem _ 0) in Et as [o Ho].
    assert (stored !! hdr_key t = Some (renumber t o)); [|congruence].
    by apply stored_lookup.
Qed.

Lemma print_numbered off : map print_header (numbered l off) = map print_header l.
Proof.
  generalize l off. clear. intros l. induction l as [|t l IH]; intros off; [done|].
  cbn [numbered map]. by rewrite IH.
Qed.

(** The text of a message as its lines. *)
Definition all_lines : list str := concat (map header_lines l).

Lemma commit_text_lines :
  commitText m = m_startLine m ++ more_lines all_lines ++ CRLFCRLF ++ m_body m.
Proof.
  unfold commitText. fold l. rewrite print_all_lines by apply commit_wf. fold all_lines.
  by rewrite lines_shift.
Qed.

Lemma all_lines_ok : Forall is_line all_lines /\ Forall own_line all_lines.
Proof.
  unfold all_lines. pose proof commit_wf as Hw. induction Hw as [|t n (Hr & _ & Hv) _ [IH1 IH2]].
  { split; constructor. }
  cbn [map concat]. rewrite !Forall_app.
  assert (Forall (fun x => is_line x /\ own_line x) (header_lines t)) as Hl.
  { unfold header_lines. apply Forall_map. eapply Forall_impl; [exact Hv|].
    intros v Hvv. by apply header_line_ok. }
  split; (split; [|done]); (eapply Forall_impl; [exact Hl|]); by intros x [? ?].
Qed.

End one_message.

Lemma strip_lead_id s : wf_start s -> forall x, strip_lead (s ++ x) = s ++ x.
Proof.
  intros [_ H] x. destruct s as [|c s]; [done|]. destruct H as [Hc Hs].
  rewrite <- app_comm_cons. cbn [strip_lead]. rewrite Hc. cbn [negb orb].
  destruct (Ascii.eqb c CR) eqn:E; [apply Ascii.eqb_eq in E as ->; done|].
  destruct (Ascii.eqb c LF) eqn:E'; [apply Ascii.eqb_eq in E' as ->; done|]. done.
Qed.

Lemma message_split_lines s ls body :
  wf_start s -> Forall is_line ls ->
  messageSplit (s ++ more_lines ls ++ CRLFCRLF ++ body) =
    Some (s ++ more_lines ls ++ CRLFCRLF ++ body, s ++ more_lines ls,
          if length body =? 0 then None else Some body).
Proof.
  intros Hs Hls. unfold messageSplit.
  destruct (length _ =? 0) eqn:E; [bools; destruct Hs as [_ Hs]; by destruct s|]. clear E.
  rewrite strip_lead_id by done. cbv zeta.
  rewrite find_skip by (by destruct Hs). rewrite find_blank_line by done. cbn [option_map].
  rewrite <- length_app, app_assoc, take_app_length.
  replace (length (s ++ more_lines ls) + 4) with (length ((s ++ more_lines ls) ++ CRLFCRLF))
    by (rewrite !length_app; simpl; lia).
  rewrite (app_assoc _ CRLFCRLF body), drop_app_length.
  rewrite (length_app _ body). do 2 f_equal.
  destruct body; cbn [length Nat.eqb]; [rewrite Nat.add_0_r, Nat.ltb_irrefl; done|].
  by rewrite (proj2 (Nat.ltb_lt _ _)) by lia.
Qed.

(** The message that is parsed from the text of [m]. *)
Lemma parse_text m0 m :
  wf_message m -> m_data m0 = commitText m ->
  parseMessage m0 =
    Msg (commitText m) true (m_startLine m) (m_body m) [] (stored m)
      (Z.of_nat (length (commit_order (m_headers m))))
      0 TIndet TIndet (m_consumeState m0) (m_idleBuffer m0) (m_properties m0).
Proof.
  intros Hwf Hd. pose proof Hwf as [_ _ Hs _]. pose proof (all_lines_ok m Hwf) as [Hl Ho].
  unfold parseMessage. rewrite Hd, commit_text_lines by done.
  destruct (length _ =? 0) eqn:E; [bools; destruct Hs as [_ Hs]; by destruct (m_startLine m)|]. clear E.
  rewrite strip_lead_id by done. rewrite message_split_lines by done.
  assert (is_line (m_startLine m) /\ own_line (m_startLine m)) as [Hsl Hso].
  { destruct Hs as [Hs Hc]. split; [split; [by destruct (m_startLine m)|done]|].
    destruct (m_startLine m); [done|]. by destruct Hc. }
  rewrite header_tokenize_lines by done.
  unfold all_lines. rewrite parse_all_lines; [|by apply commit_wf|by apply commit_keys|done|done|].
  - unfold stored. rewrite Z.add_0_l. f_equal. by destruct (m_body m).
  - pose proof (commit_length m Hwf). lia.
Qed.

(** Its headers. *)
Lemma parse_text_headers m0 m :
  wf_message m -> m_data m0 = commitText m ->
  m_finalized (parseMessage m0) = true /\ m_startLine (parseMessage m0) = m_startLine m /\
  forall k, hdrs (parseMessage m0) k = hdrs m k.
Proof.
  intros Hwf Hd. rewrite (parse_text m0 m Hwf Hd). split_and!; try done.
  intros k. unfold hdrs. cbn. pose proof (stored_values m Hwf k) as H.
  destruct (stored m !! k), (m_headers m !! k); try done. by destruct H.
Qed.

(** C8: what is written is read back.  For a well-formed message (start line
    and header lines without line breaks, trimmed names and values, each header
    under the key of its name) parsing the text that [commitData] writes gives a
    message with the same start line and body, the same header names and values
    in the same order and no bad headers, and committing that message writes
    the same text again. *)
Theorem commit_parse_roundtrip m :
  wf_message m ->
  let m' := parseMessage (commitData m) in
  m_finalized m' = true /\ m_startLine m' = m_startLine m /\ m_body m' = m_body m /\
  m_badHeaders m' = [] /\ (forall k, hdrs m' k = hdrs m k) /\
  map rawHeaderName (commit_order (m_headers m')) = map rawHeaderName (commit_order (m_headers m)) /\
  hdr_inv m' /\ commitText m' = commitText m.
Proof.
  intros Hwf. cbv zeta. destruct (parse_text_headers (commitData m) m Hwf eq_refl) as (Hf & Hs & Hk).
  rewrite (parse_text (commitData m) m Hwf eq_refl) in Hk |- *. cbn. rewrite (stored_order m Hwf). split_and!; try done.
  - generalize (commit_order (m_headers m)) 0%Z. intros l. induction l as [|t l IH]; intros o; [done|].
    cbn. by rewrite IH.
  - split; [cbn; lia|]. apply (stored_ok m Hwf).
  - unfold commitText. by rewrite (print_numbered m 0).
Qed.

(** ** Parsing leaves a well-formed header map *)

Lemma parse_header_ok bad hs off line :
  hdr_ok off hs -> (0 <= off < npos)%Z ->
  match parse_header (bad, hs, off) line with
  | (_, hs', off') => hdr_ok off' hs' /\ (off <= off' <= off + 1)%Z
  end.
Proof.
  intros Hok Hoff. unfold parse_header. destruct (headerSplit line) as [[raw v]|]; [|split; [done|lia]].
  destruct (hs !! _) as [t|] eqn:E.
  - split; [|lia]. eapply hdr_ok_put; [done|done| |done]. simpl. by destruct (values t).
  - rewrite u64_small by done. split; [|lia].
    apply hdr_ok_fresh; [lia|done|apply to_lower_idem|done].
Qed.

Lemma parse_headers_ok ls bad hs off :
  hdr_ok off hs -> (0 <= off)%Z -> (off + Z.of_nat (length ls) <= npos)%Z ->
  match fold_left parse_header ls (bad, hs, off) with
  | (_, hs', off') => hdr_ok off' hs' /\ (0 <= off')%Z
  end.
Proof.
  revert bad hs off. induction ls as [|l ls IH]; intros bad hs off Hok Ho Hl; [done|].
  cbn [fold_left length] in *. pose proof (parse_header_ok bad hs off l Hok) as H.
  destruct (parse_header (bad, hs, off) l) as [[bad' hs'] off']. destruct H as [H1 H2]; [lia|].
  apply IH; [done|lia|lia].
Qed.

Lemma ref_tokens_length seps s cur : length (ref_tokens seps cur s) <= length s + 1.
Proof.
  revert cur. induction s as [|c s IH]; intros cur; simpl; [destruct cur; simpl; lia|].
  destruct (is_sep seps c); [destruct cur|]; simpl.
  - specialize (IH []). lia.
  - specialize (IH []). lia.
  - specialize (IH (cur ++ [c])). lia.
Qed.

Lemma tokenize_length ls acc prev :
  length (fold_left tokenize_line ls (acc, prev)).1 <= length acc + length ls.
Proof.
  revert acc prev. induction ls as [|l ls IH]; intros acc prev; [simpl; lia|]. cbn [fold_left].
  assert (exists acc' prev', tokenize_line (acc, prev) l = (acc', prev') /\ length acc' <= S (length acc))
    as (acc' & prev' & -> & Hl).
  { unfold tokenize_line. destruct (match l with [] => false | c :: _ => isspace c end);
      eexists _, _; (split; [done|]); rewrite length_app; simpl; [|lia].
    rewrite removelast_firstn_len, length_take. lia. }
  specialize (IH acc' prev'). simpl. lia.
Qed.

Lemma header_tokenize_length s ls : headerTokenize s = Some ls -> length ls <= length s + 1.
Proof.
  unfold headerTokenize. destruct (length s =? 0); [done|].
  pose proof (tokenize_length (tokenizer CRLF s) [] []) as H.
  destruct (fold_left tokenize_line _ _) as [lines prev]. simpl in H.
  destruct (length lines =? 0); [done|]. intros [= <-].
  rewrite tokenizer_eq in H. pose proof (ref_tokens_length CRLF s []). lia.
Qed.

Lemma strip_lead_length d : length (strip_lead d) <= length d.
Proof. induction d as [|c d IH]; [done|]. cbn [strip_lead length]. brk; simpl; lia. Qed.

Lemma message_split_length d d' hs b : messageSplit d = Some (d', hs, b) -> length hs <= length d.
Proof.
  unfold messageSplit. destruct (length d =? 0); [done|]. cbv zeta.
  pose proof (strip_lead_length d).
  destruct (match str_find CRLFCRLF _ with Some i => _ | None => _ end) as [[i|] n];
    intros [= <- <- <-]; [rewrite length_take|]; lia.
Qed.

(** C33: parsing any packet leaves a well-formed header map.  Whatever the
    bytes, the headers that [parse] stores are in lower case, none is without a
    value, and their offsets are distinct and below the counter. *)
Theorem parse_hdr_inv m :
  m_data m <> [] -> (Z.of_nat (length (m_data m)) < npos)%Z -> hdr_inv (parseMessage m).
Proof.
  intros Hne Hlen. unfold parseMessage.
  destruct (length (m_data m) =? 0) eqn:E; [bools; by destruct (m_data m)|]. clear E.
  assert (hdr_ok 0 ∅) as H0.
  { split; [apply map_Forall_empty|]. intros k1 k2 t1 t2 H. by rewrite lookup_empty in H. }
  destruct (messageSplit (strip_lead (m_data m))) as [[[d hs] b]|] eqn:Es; [|by split].
  apply message_split_length in Es. pose proof (strip_lead_length (m_data m)).
  destruct (headerTokenize hs) as [[|start ls]|] eqn:Et; [by split| |by split].
  apply header_tokenize_length in Et. simpl in Et.
  pose proof (parse_headers_ok ls [] ∅ 0 H0) as Hp.
  destruct (fold_left parse_header ls ([], ∅, 0%Z)) as [[bad hs'] off].
  destruct Hp as [Hp1 Hp2]; [lia|lia|]. by split.
Qed.

End roundtrip.

(** A small request. *)
Definition sample : SIPMessage :=
  set_body (set_startLine
    (new_header (new_header newMessage #"Via" #"SIP/2.0/UDP a") #"To" #"<sip:b@h>")
    #"OPTIONS sip:b@h SIP/2.0") #"x".

Lemma sample_wf : wf_message sample.
Proof.
  split.
  - assert (hdr_inv newMessage) as H0.
    { split; [simpl; lia|]. split; [apply map_Forall_empty|]. intros k1 k2 t1 t2 H. discriminate H. }
    apply (new_header_inv (new_header newMessage #"Via" #"SIP/2.0/UDP a") #"To" #"<sip:b@h>");
      [|reflexivity|reflexivity].
    by apply new_header_inv.
  - reflexivity.
  - split; [repeat constructor|by split].
  - repeat (apply map_Forall_insert_2; [split; [|reflexivity];
      repeat split; repeat constructor; discriminate|]). apply map_Forall_empty.
Qed.

(** The witness of [commit_parse_roundtrip]. *)
Lemma commit_parse_roundtrip_witness :
  commitText (parseMessage (boost := boost_reference) (commitData sample)) = commitText sample.
Proof.
  exact (proj2 (proj2 (proj2 (proj2 (proj2 (proj2 (proj2
    (commit_parse_roundtrip (boost := boost_reference) sample sample_wf)))))))).
Defined.

(** The witness of [parse_hdr_inv]. *)
Lemma parse_hdr_inv_witness :
  hdr_inv (parseMessage (boost := boost_reference) (set_data newMessage #"BYE sip:a@b SIP/2.0")).
Proof. apply parse_hdr_inv; [discriminate|vm_compute; reflexivity]. Defined.
