(* ===== verification/SipConsume.v ===== *)
(** * The incremental reader

    [SIPMessage::consume] and [consumeOne]: a character-driven state machine
    that frames messages on a byte stream, hands the header part to [parse] and
    then counts the body.  The theorems say that the result does not depend on
    how the stream is cut into reads, that the text a well-formed message is
    written as is consumed to its last byte and not further, and what the
    counting of the body trusts. *)

From S2P Require Import Prelude Abnf AbnfFacts AbnfSearch SipGrammar CoreStrings SipParser.
From S2P Require Import SipHeaders SipMessage SipMessageFacts SipRoundtrip.
Open Scope nat_scope.

(** ** consumeOne *)

(** [_data.push_back(input)], with the state set to [s]. *)
Definition push_data (m : SIPMessage) (s : ConsumeState) (input : ascii) : SIPMessage :=
  set_consume (set_data m (m_data m ++ [input])) s (m_expectedBodyLen m) (m_idleBuffer m).

(** [!isChar(input) || isCtl(input)]. *)
Definition bad_char (input : ascii) : bool := negb (isChar input) || isCtl input.

Definition is_blank (input : ascii) : bool := Ascii.eqb input " " || (schar input =? 9)%Z.

(** A [tribool] with the message after the call. *)
Abbreviation consumed := (outcome (tribool * SIPMessage)).

Section consume.
Context {boost : BoostString}.

(** The end of the header part: parse it and find out about the body. *)
Definition consume_headers (m : SIPMessage) : consumed :=
  let m := parseMessage m in
  let clen := hdrGet m #"Content-Length" 0 in
  if negb (length clen =? 0) then
    len ← atoi (cstr clen);
    let m := set_consume m (m_consumeState m) (u64 len) (m_idleBuffer m) in
    if (0 <? m_expectedBodyLen m)%Z then
      Ret (TIndet, set_finalized (set_consume m EXPECTING_BODY (m_expectedBodyLen m) (m_idleBuffer m)) false)
    else Ret (tb_of_bool (m_finalized m), m)
  else Ret (tb_of_bool (m_finalized m), m).

(** One character of the body. *)
Definition consume_body (m : SIPMessage) (input : ascii) : consumed :=
  let m := set_body m (m_body m ++ [input]) in
  if (Z.of_nat (length (m_body m)) <? m_expectedBodyLen m)%Z then Ret (TIndet, m)
  else Ret (TTrue, set_finalized (commitData m) true).

(** The [switch] on the state. *)
Definition consume_switch (m : SIPMessage) (input : ascii) : consumed :=
  match m_consumeState m with
  | IDLE => Ret (TFalse, m)
  | START_LINE_PARSE =>
      if Ascii.eqb input CR then Ret (TIndet, push_data m EXPECTING_NEW_LINE_1 input)
      else if bad_char input then Ret (TFalse, m)
      else Ret (TIndet, push_data m START_LINE_PARSE input)
  | EXPECTING_NEW_LINE_1 =>
      if Ascii.eqb input LF then Ret (TIndet, push_data m HEADER_LINE_START input)
      else Ret (TFalse, m)
  | HEADER_LINE_START =>
      if Ascii.eqb input CR then Ret (TIndet, push_data m EXPECTING_NEW_LINE_3 input)
      else if is_blank input then Ret (TIndet, push_data m HEADER_LWS input)
      else if bad_char input then Ret (TFalse, m)
      else Ret (TIndet, push_data m HEADER_NAME input)
  | HEADER_LWS =>
      if Ascii.eqb input CR then Ret (TIndet, push_data m EXPECTING_NEW_LINE_2 input)
      else if is_blank input then Ret (TIndet, push_data m HEADER_LWS input)
      else if isCtl input then Ret (TFalse, m)
      else Ret (TIndet, push_data m HEADER_VALUE input)
  | HEADER_NAME =>
      if Ascii.eqb input ":" then Ret (TIndet, push_data m HEADER_VALUE input)
      else if bad_char input then Ret (TFalse, m)
      else Ret (TIndet, push_data m HEADER_NAME input)
  | HEADER_VALUE =>
      if Ascii.eqb input CR then Ret (TIndet, push_data m EXPECTING_NEW_LINE_2 input)
      else if bad_char input then Ret (TFalse, m)
      else Ret (TIndet, push_data m HEADER_VALUE input)
  | EXPECTING_NEW_LINE_2 =>
      if Ascii.eqb input LF then Ret (TIndet, push_data m HEADER_LINE_START input)
      else Ret (TFalse, m)
  | EXPECTING_NEW_LINE_3 =>
      let m := push_data m EXPECTING_NEW_LINE_3 input in
      if Ascii.eqb input LF then consume_headers m else Ret (TFalse, m)
  | EXPECTING_BODY => consume_body m input
  end.

Definition consumeOne (m : SIPMessage) (input : ascii) : consumed :=
  if decide (m_consumeState m = IDLE) then
    if negb (isChar input) || Ascii.eqb input CR || Ascii.eqb input LF then
      Ret (TIndet, set_consume m IDLE (m_expectedBodyLen m) (m_idleBuffer m ++ [input]))
    else
      consume_switch
        (set_consume (set_data m []) START_LINE_PARSE (m_expectedBodyLen m) (m_idleBuffer m)) input
  else consume_switch m input.

(** ** consume *)

(** The loop of [consume]: the result, the number of characters taken and the
    message. *)
Fixpoint consume_chars (m : SIPMessage) (s : str) (n : nat) : outcome (tribool * nat * SIPMessage) :=
  match s with
  | [] => Ret (TIndet, n, m)
  | c :: s =>
      '(result, m) ← consumeOne m c;
      match result with
      | TIndet => consume_chars m s (S n)
      | _ => Ret (result, S n, m)
      end
  end.

Definition consume (m : SIPMessage) (s : str) : outcome (tribool * nat * SIPMessage) :=
  consume_chars (set_finalized m false) s 0.

(** ** Cutting the stream *)

(** While the reader asks for more the message is not finalized. *)
Lemma consume_one_pending m c m' :
  m_finalized m = false -> consumeOne m c = Ret (TIndet, m') -> m_finalized m' = false.
Proof.
  intros Hf. unfold consumeOne.
  assert (forall m, m_finalized m = false -> consume_switch m c = Ret (TIndet, m') ->
    m_finalized m' = false) as Hsw.
  { clear m Hf. intros m Hf. unfold consume_switch.
    assert (forall s b, Ret (TIndet, push_data m s b) = Ret (TIndet, m') -> m_finalized m' = false) as Hp
      by (by intros s b [= <-]).
    assert (forall b x, Ret (tb_of_bool b, x) = Ret (TIndet, m') -> m_finalized m' = false) as Hb
      by (intros [] x; discriminate).
    destruct (m_consumeState m) eqn:Es; try (by repeat brk; try discriminate; apply Hp).
    - brk; [|discriminate]. unfold consume_headers. cbv zeta. destruct (negb _); [|apply Hb].
      destruct (atoi _); simpl; try discriminate. destruct (_ <? _)%Z; [by intros [= <-]|apply Hb].
    - unfold consume_body. brk; [by intros [= <-]|discriminate]. }
  case_decide; [brk; [by intros [= <-]|]|]; by apply Hsw.
Qed.

Lemma consume_chars_pending m s n n' m' :
  m_finalized m = false -> consume_chars m s n = Ret (TIndet, n', m') ->
  m_finalized m' = false /\ n' = n + length s.
Proof.
  revert m n. induction s as [|c s IH]; intros m n Hf; simpl.
  - intros [= <- <-]. split; [done|lia].
  - destruct (consumeOne m c) as [[r m1]| |] eqn:E; simpl; try discriminate.
    destruct r; try discriminate. intros H. apply IH in H as [? ->]; [split; [done|lia]|].
    by eapply consume_one_pending.
Qed.

Lemma consume_chars_app m a b n :
  consume_chars m (a ++ b) n =
    '(r, n', m') ← consume_chars m a n;
    match r with TIndet => consume_chars m' b n' | _ => Ret (r, n', m') end.
Proof.
  revert m n. induction a as [|c a IH]; intros m n; simpl; [done|].
  destruct (consumeOne m c) as [[r m1]| |]; simpl; [|done|done].
  destruct r; simpl; [done|done|apply IH].
Qed.

Lemma consume_chars_shift m s n :
  consume_chars m s n =
    '(r, k, m') ← consume_chars m s 0; Ret (r, n + k, m').
Proof.
  revert m n. induction s as [|c s IH]; intros m n; simpl; [by rewrite Nat.add_0_r|].
  destruct (consumeOne m c) as [[r m1]| |]; simpl; [|done|done].
  destruct r; simpl; [by rewrite Nat.add_1_r|by rewrite Nat.add_1_r|].
  rewrite IH, (IH m1 1). destruct (consume_chars m1 s 0) as [[[r k] m2]| |]; simpl; [|done|done].
  by rewrite Nat.add_succ_r.
Qed.

(** C7: the reader does not depend on how the stream is cut.  Consuming two
    chunks one after the other, the second only when the first leaves the
    message incomplete, gives the result, the message and the number of
    characters taken of consuming them at once. *)
Theorem consume_chunks m a b :
  consume m (a ++ b) =
    '(r, n, m') ← consume m a;
    match r with
    | TIndet => '(r2, n2, m2) ← consume m' b; Ret (r2, n + n2, m2)
    | _ => Ret (r, n, m')
    end.
Proof.
  unfold consume. rewrite consume_chars_app.
  destruct (consume_chars (set_finalized m false) a 0) as [[[r n] m1]| |] eqn:E; simpl; [|done|done].
  destruct r; [done|done|].
  apply consume_chars_pending in E as [Hf _]; [|done].
  rewrite consume_chars_shift.
  assert (set_finalized m1 false = m1) as -> by (destruct m1; simpl in *; by subst). done.
Qed.

(** ** Reading what was written *)

Definition text_char (c : ascii) : Prop := bad_char c = false.

(** The message after a run of characters was pushed. *)
Definition fed (m : SIPMessage) (w : str) (s : ConsumeState) : SIPMessage :=
  set_consume (set_data m (m_data m ++ w)) s (m_expectedBodyLen m) (m_idleBuffer m).

Lemma push_fed m s c : push_data m s c = fed m [c] s.
Proof. done. Qed.

Lemma fed_fed m a b s s' : fed (fed m a s) b s' = fed m (a ++ b) s'.
Proof. unfold fed, set_consume, set_data. simpl. by rewrite <- app_assoc. Qed.

Lemma text_not_cr c : text_char c -> Ascii.eqb c CR = false.
Proof.
  intros H. destruct (Ascii.eqb c CR) eqn:E; [|done]. apply Ascii.eqb_eq in E as ->. discriminate H.
Qed.

(** One character that keeps the state pending. *)
Lemma consume_step m c x n m' :
  m_consumeState m <> IDLE -> consume_switch m c = Ret (TIndet, m') ->
  consume_chars m (c :: x) n = consume_chars m' x (S n).
Proof. intros Hs H. cbn [consume_chars]. unfold consumeOne. rewrite decide_False, H by done. done. Qed.

(** A run of characters that a state takes without leaving it. *)
Lemma consume_run s m w x n :
  s <> IDLE -> m_consumeState m = s ->
  (forall m c, c ∈ w -> m_consumeState m = s -> consume_switch m c = Ret (TIndet, push_data m s c)) ->
  consume_chars m (w ++ x) n = consume_chars (fed m w s) x (n + length w).
Proof.
  intros Hs. revert m n. induction w as [|c w IH]; intros m n Hm Hstep.
  - simpl. rewrite Nat.add_0_r. unfold fed. rewrite app_nil_r.
    destruct m; simpl in *. by subst.
  - rewrite <- app_comm_cons. rewrite (consume_step _ _ _ _ (push_data m s c));
      [|by rewrite Hm|apply Hstep; [by left|done]].
    rewrite IH; [|done|intros m' c' Hc'; apply Hstep; by right].
    rewrite push_fed, fed_fed. simpl. by rewrite Nat.add_succ_r.
Qed.

Lemma consume_start m s x :
  wf_start s -> Forall text_char s -> m_consumeState m = IDLE -> m_data m = [] ->
  consume_chars m (s ++ x) 0 = consume_chars (fed m s START_LINE_PARSE) x (length s).
Proof.
  intros [_ Hc] Ht Hm Hd. destruct s as [|c s]; [done|]. destruct Hc as [Hch Hsp].
  apply Forall_cons in Ht as [Htc Ht]. rewrite <- app_comm_cons. cbn [consume_chars].
  unfold consumeOne. rewrite decide_True by done. rewrite Hch, text_not_cr by done. cbn [negb orb].
  destruct (Ascii.eqb c LF) eqn:E; [apply Ascii.eqb_eq in E as ->; discriminate Htc|].
  unfold consume_switch. cbn [m_consumeState set_consume]. rewrite text_not_cr by done.
  unfold text_char in Htc. rewrite Htc. cbn [mbind outcome_bind].
  set (m1 := push_data _ _ c).
  assert (m1 = fed m [c] START_LINE_PARSE) as ->.
  { subst m1. unfold push_data, fed, set_consume, set_data. simpl. by rewrite Hd. }
  rewrite (consume_run START_LINE_PARSE); [by rewrite fed_fed|done|done|].
  intros m' d Hin Hs'. rewrite Forall_forall in Ht. specialize (Ht d Hin).
  unfold consume_switch. rewrite Hs', text_not_cr by done. unfold text_char in Ht. by rewrite Ht.
Qed.

(** A line break between lines. *)
Lemma consume_break s m x n :
  (s = START_LINE_PARSE \/ s = HEADER_VALUE) -> m_consumeState m = s ->
  consume_chars m (CRLF ++ x) n = consume_chars (fed m CRLF HEADER_LINE_START) x (n + 2).
Proof.
  intros Hs Hm. unfold CRLF. cbn [app].
  assert (exists s', (s' = EXPECTING_NEW_LINE_1 \/ s' = EXPECTING_NEW_LINE_2) /\
    consume_switch m CR = Ret (TIndet, push_data m s' CR)) as (s' & Hs' & H).
  { unfold consume_switch. rewrite Hm. destruct Hs as [-> | ->];
      [exists EXPECTING_NEW_LINE_1|exists EXPECTING_NEW_LINE_2]; (split; [auto|done]). }
  rewrite (consume_step _ _ _ _ (push_data m s' CR)); [|rewrite Hm; by destruct Hs; subst|done].
  rewrite (consume_step _ _ _ _ (push_data (push_data m s' CR) HEADER_LINE_START LF)).
  - rewrite !push_fed, fed_fed. f_equal. lia.
  - by destruct Hs'; subst.
  - unfold consume_switch. simpl. by destruct Hs'; subst.
Qed.

(** Names and values the reader lets through. *)
Definition wire_name (raw : str) : Prop := wf_name raw /\ raw <> [] /\ Forall text_char raw.
Definition wire_value (v : str) : Prop := wf_value v /\ Forall text_char v.

Lemma consume_header_line m raw v x n :
  wire_name raw -> wire_value v -> m_consumeState m = HEADER_LINE_START ->
  consume_chars m (header_line raw v ++ CRLF ++ x) n =
    consume_chars (fed m (header_line raw v ++ CRLF) HEADER_LINE_START) x
      (n + length (header_line raw v) + 2).
Proof.
  intros (([Hh _] & _ & Hcol) & Hne & Hr) [_ Hv] Hm. unfold header_line.
  destruct raw as [|c raw]; [done|]. apply Forall_cons in Hr as [Hc Hr].
  apply Forall_cons in Hcol as [_ Hcol]. rewrite <- !app_assoc, <- app_comm_cons.
  rewrite (consume_step _ _ _ _ (push_data m HEADER_NAME c)).
  2: by rewrite Hm.
  2:{ unfold consume_switch. rewrite Hm, text_not_cr by done.
      assert (is_blank c = false) as ->.
      { unfold is_blank. unfold isspace in Hh. apply orb_false_iff in Hh as [H1 H2].
        apply orb_false_iff. split; [|lia]. destruct (Ascii.eqb c " ") eqn:E; [|done].
        apply Ascii.eqb_eq in E as ->. discriminate H2. }
      unfold text_char in Hc. by rewrite Hc. }
  rewrite (consume_run HEADER_NAME); [|done|done|].
  2:{ intros m' d Hin Hs. rewrite Forall_forall in Hr, Hcol. specialize (Hr d Hin).
      specialize (Hcol d Hin). unfold consume_switch. rewrite Hs.
      rewrite Ascii.eqb_sym, Hcol. unfold text_char in Hr. by rewrite Hr. }
  change (#": " ++ v ++ CRLF ++ x) with (":"%char :: (#" " ++ v) ++ CRLF ++ x).
  rewrite (consume_step _ _ _ _ (push_data (fed (push_data m HEADER_NAME c) raw HEADER_NAME)
    HEADER_VALUE ":")); [|done|done].
  rewrite (consume_run HEADER_VALUE); [|done|done|].
  2:{ intros m' d Hin Hs. assert (text_char d) as Hd.
      { apply elem_of_app in Hin as [Hin|Hin].
        - apply list_elem_of_singleton in Hin. by subst.
        - rewrite Forall_forall in Hv. by apply Hv. }
      unfold consume_switch. rewrite Hs, text_not_cr by done. unfold text_char in Hd. by rewrite Hd. }
  rewrite (consume_break HEADER_VALUE); [|by right|done].
  rewrite !push_fed, !fed_fed. f_equal.
  rewrite !length_app. simpl. lia.
Qed.

Lemma consume_header_lines m ls x n :
  Forall (fun l => exists raw v, l = header_line raw v /\ wire_name raw /\ wire_value v) ls ->
  m_consumeState m = HEADER_LINE_START ->
  consume_chars m (concat (map (fun l => l ++ CRLF) ls) ++ x) n =
    consume_chars (fed m (concat (map (fun l => l ++ CRLF) ls)) HEADER_LINE_START) x
      (n + length (concat (map (fun l => l ++ CRLF) ls))).
Proof.
  intros Hls. revert m n. induction Hls as [|l ls (raw & v & -> & Hr & Hv) _ IH]; intros m n Hm.
  - simpl. rewrite Nat.add_0_r. unfold fed. rewrite app_nil_r. destruct m; simpl in *. by subst.
  - cbn [map concat]. rewrite <- !app_assoc. rewrite consume_header_line by done.
    rewrite IH by done. rewrite fed_fed, <- !app_assoc. f_equal. rewrite !length_app. simpl. lia.
Qed.

(** The blank line. *)
Lemma consume_blank m x n :
  m_consumeState m = HEADER_LINE_START ->
  consume_chars m (CRLF ++ x) n =
    '(r, m') ← consume_headers (fed m CRLF EXPECTING_NEW_LINE_3);
    match r with TIndet => consume_chars m' x (S (S n)) | _ => Ret (r, S (S n), m') end.
Proof.
  intros Hm. unfold CRLF. cbn [app].
  rewrite (consume_step _ _ _ _ (push_data m EXPECTING_NEW_LINE_3 CR));
    [|by rewrite Hm|by unfold consume_switch; rewrite Hm].
  cbn [consume_chars]. unfold consumeOne. rewrite decide_False by done.
  unfold consume_switch. cbn [m_consumeState push_data set_consume].
  change (Ascii.eqb LF LF) with true. cbv iota zeta. by rewrite !push_fed, fed_fed.
Qed.

(** The body, counted to its last character. *)
Lemma consume_body_run m w x n :
  m_consumeState m = EXPECTING_BODY -> w <> [] ->
  m_expectedBodyLen m = Z.of_nat (length (m_body m) + length w) ->
  consume_chars m (w ++ x) n =
    Ret (TTrue, n + length w, set_finalized (commitData (set_body m (m_body m ++ w))) true).
Proof.
  revert m n. induction w as [|c w IH]; intros m n Hs Hne Hl; [done|].
  rewrite <- app_comm_cons. cbn [consume_chars]. unfold consumeOne.
  rewrite decide_False by (by rewrite Hs). unfold consume_switch. rewrite Hs. unfold consume_body.
  cbn [m_body set_body m_expectedBodyLen]. rewrite Hl, length_app. cbn [length].
  destruct w as [|d w].
  - rewrite (proj2 (Z.ltb_ge _ _)) by (cbn [length]; lia). simpl.
    by rewrite Nat.add_1_r.
  - rewrite (proj2 (Z.ltb_lt _ _)) by (cbn [length]; lia).
    cbn [mbind outcome_bind]. rewrite IH; [|done|done|].
    + unfold set_body. cbn [m_body]. rewrite <- app_assoc. simpl. do 3 f_equal. lia.
    + cbn [m_body set_body m_expectedBodyLen]. rewrite Hl, length_app. cbn [length]. lia.
Qed.

(** A message that can travel over a stream: well-formed, of printable
    characters, with a Content-Length that is the length of the body (or
    without both). *)
Record wire_message (m : SIPMessage) : Prop := {
  wm_wf : wf_message m;
  wm_start : Forall text_char (m_startLine m);
  wm_headers : map_Forall (fun _ t => wire_name (rawHeaderName t) /\ Forall wire_value (values t))
    (m_headers m);
  wm_length : (hdrs m #"content-length" = [] /\ m_body m = []) \/
    exists v vs, hdrs m #"content-length" = v :: vs /\
      atoi (cstr v) = Ret (Z.of_nat (length (m_body m)))
}.

Lemma wf_set_body m b : wf_message m -> wf_message (set_body m b).
Proof. by intros [? ? ? ?]. Qed.

Lemma wire_lines m :
  wire_message m ->
  Forall (fun l => exists raw v, l = header_line raw v /\ wire_name raw /\ wire_value v) (all_lines m).
Proof.
  intros [Hwf _ Hh _]. unfold all_lines. apply Forall_concat, Forall_map, Forall_forall.
  intros t Ht%(commit_elem m Hwf). apply Hh in Ht as [Hr Hv].
  unfold header_lines. apply Forall_map. eapply Forall_impl; [exact Hv|]. simpl. eauto.
Qed.

(** The header part of the text, read from the start. *)
Lemma consume_header_part m x :
  wire_message m ->
  consume newMessage (commitText (set_body m []) ++ x) =
    '(r, m') ← consume_headers
      (fed (set_finalized newMessage false) (commitText (set_body m [])) EXPECTING_NEW_LINE_3);
    match r with
    | TIndet => consume_chars m' x (length (commitText (set_body m [])))
    | _ => Ret (r, length (commitText (set_body m [])), m')
    end.
Proof.
  intros Hw. pose proof Hw as [Hwf Hst _ _]. pose proof (wire_lines m Hw) as Hl.
  assert (commitText (set_body m []) = m_startLine m ++ CRLF ++
    concat (map (fun l => l ++ CRLF) (all_lines m)) ++ CRLF) as ->.
  { unfold commitText. cbn [m_startLine m_headers m_body set_body].
    rewrite print_all_lines by (by apply commit_wf). fold (all_lines m). by rewrite app_nil_r. }
  unfold consume. rewrite <- !app_assoc.
  rewrite consume_start; [|by destruct Hwf|done|done|done].
  rewrite (consume_break START_LINE_PARSE); [|by left|done].
  rewrite consume_header_lines by done. rewrite consume_blank by done. rewrite !fed_fed, <- ?app_assoc.
  set (k := S (S _)). assert (k = length (m_startLine m ++ CRLF ++
    concat (map (fun l => l ++ CRLF) (all_lines m)) ++ CRLF)) as ->; [|done].
  subst k. rewrite !length_app. simpl. lia.
Qed.

Lemma stored_body m b : stored (set_body m b) = stored m.
Proof. done. Qed.

Lemma hdr_get_stored m0 m i :
  wf_message m -> m_finalized m0 = true -> m_headers m0 = stored m ->
  hdrGet m0 #"Content-Length" i = default [] (hdrs m #"content-length" !! i).
Proof.
  intros Hwf Hf Hh. unfold hdrGet. rewrite Hf, Hh. cbn [negb].
  assert (to_lower #"Content-Length" = #"content-length") as -> by (rewrite to_lower_map; done).
  pose proof (stored_values m Hwf #"content-length") as H. unfold hdrs.
  destruct (stored m !! _), (m_headers m !! _); try done. by destruct H as [-> _].
Qed.

Lemma commit_text_body m b : commitText (set_body m b) = commitText (set_body m []) ++ b.
Proof. unfold commitText. cbn [m_startLine m_headers m_body set_body]. by rewrite app_nil_r, <- !app_assoc. Qed.

Lemma atoi_range v z : atoi v = Ret z -> (- 2 ^ 31 <= z < 2 ^ 31)%Z.
Proof. unfold atoi. brk; [|done]. intros [= <-]. bools. lia. Qed.

(** The text of a stored message is the text of the original. *)
Lemma commit_text_stored m m0 :
  wf_message m -> m_startLine m0 = m_startLine m -> m_body m0 = m_body m -> m_headers m0 = stored m ->
  commitText m0 = commitText m.
Proof.
  intros Hwf Hs Hb Hh. unfold commitText. rewrite Hs, Hb, Hh, (stored_order m Hwf).
  by rewrite (print_numbered m 0).
Qed.

(** What reading the text of [m] leaves. *)
Definition read_back (m m' : SIPMessage) : Prop :=
  m_finalized m' = true /\ m_startLine m' = m_startLine m /\ m_body m' = m_body m /\
  (forall k, hdrs m' k = hdrs m k) /\ m_data m' = commitText m.

Lemma read_back_stored m m' :
  wf_message m -> m_finalized m' = true -> m_startLine m' = m_startLine m -> m_body m' = m_body m ->
  m_headers m' = stored m -> m_data m' = commitText m -> read_back m m'.
Proof.
  intros Hwf Hf Hs Hb Hh Hd. split_and!; try done. intros k. unfold hdrs. rewrite Hh.
  pose proof (stored_values m Hwf k) as H.
  destruct (stored m !! k), (m_headers m !! k); try done. by destruct H.
Qed.

(** C6: framing.  The text [commitData] writes for a message that can travel
    over a stream is consumed to its last byte and not further, whatever
    follows it on the stream; the reader then reports success and holds the
    same start line, headers and body, and the same text. *)
Theorem consume_frames m rest :
  wire_message m ->
  exists m', consume newMessage (commitText m ++ rest) = Ret (TTrue, length (commitText m), m') /\
    read_back m m'.
Proof.
  intros Hw. pose proof Hw as [Hwf _ _ Hlen].
  assert (commitText m = commitText (set_body m []) ++ m_body m) as Htext
    by (rewrite <- commit_text_body; by destruct m).
  enough (exists m', consume newMessage (commitText (set_body m []) ++ m_body m ++ rest) =
    Ret (TTrue, length (commitText (set_body m [])) + length (m_body m), m') /\ read_back m m')
    as (m' & H1 & H2).
  { exists m'. split; [|done]. by rewrite Htext, <- app_assoc, length_app. }
  rewrite consume_header_part by done.
  set (m0 := fed _ _ _). unfold consume_headers.
  rewrite (parse_text m0 (set_body m [])) by (try done; by apply wf_set_body).
  set (m1 := Msg _ _ _ _ _ _ _ _ _ _ _ _ _). cbv zeta.
  rewrite (hdr_get_stored m1 m 0) by done.
  assert (m_body m = [] -> read_back m m1) as Hnobody.
  { intros Hb. apply read_back_stored; try done. rewrite Htext, Hb, app_nil_r. done. }
  destruct Hlen as [[-> Hb]|(v & vs & Hcl & Hv)].
  - exists m1. cbn. rewrite Hb, Nat.add_0_r. split; [done|]. by apply Hnobody.
  - rewrite Hcl. change (default [] ((v :: vs) !! 0)) with v.
    assert (v <> []) as Hne.
    { unfold hdrs in Hcl. destruct (m_headers m !! _) as [t|] eqn:Et; [|done].
      destruct Hwf as [_ _ _ Hh]. apply Hh in Et as [(_ & _ & Ht) _]. rewrite Hcl in Ht.
      by apply Forall_cons in Ht as [[? _] _]. }
    destruct v as [|c v]; [done|]. cbn [length Nat.eqb negb].
    rewrite Hv. cbn [mbind outcome_bind]. apply atoi_range in Hv.
    cbn [m_expectedBodyLen set_consume]. unfold u64. rewrite Z.mod_small by lia.
    destruct (0 <? _)%Z eqn:E; bools.
    + cbn [mbind outcome_bind]. rewrite consume_body_run; [|done|by intros H; rewrite H in E|done].
      eexists. split; [done|]. apply read_back_stored; try done.
      by apply commit_text_stored.
    + assert (m_body m = []) as Hb by (apply length_zero_iff_nil; lia).
      cbn. rewrite Hb, Nat.add_0_r. eexists. split; [done|].
      destruct (Hnobody Hb) as (? & ? & ? & ? & ?). by split_and!.
Qed.
(** ** The length that is written is the length that is read *)

Lemma digit_val_char d : d < 10 -> digit_val (digit_char d) = Some (Z.of_nat d).
Proof. intros H. do 10 (destruct d as [|d]; [reflexivity|]). lia. Qed.

Lemma print_digits_value fuel n acc :
  n < fuel ->
  exists ds, print_digits fuel n acc = ds ++ acc /\
    match ds with
    | [] => False
    | c :: _ => isspace c = false /\ c <> "-"%char /\ c <> "+"%char
    end /\ nul_free ds /\
    exists k, forall a x, atoi_digits a (ds ++ x) = atoi_digits (a * k + Z.of_nat n) x.
Proof.
  revert n acc. induction fuel as [|fuel IH]; intros n acc Hf; [lia|]. cbn [print_digits].
  pose proof (Nat.mod_upper_bound n 10 ltac:(lia)) as Hm. pose proof (Nat.div_mod_eq n 10) as Hd.
  pose proof (digit_val_char (n mod 10) Hm) as Hv.
  assert (isspace (digit_char (n mod 10)) = false /\ digit_char (n mod 10) <> "-"%char /\
    digit_char (n mod 10) <> "+"%char /\ schar (digit_char (n mod 10)) <> 0%Z) as (H1 & H2 & H3 & H4).
  { revert Hm. generalize (n mod 10). intros d Hm.
    do 10 (destruct d as [|d]; [by split_and!|]). lia. }
  destruct (n / 10 =? 0) eqn:E; bools.
  - exists [digit_char (n mod 10)]. split; [done|]. split; [done|]. split; [by repeat constructor|].
    exists 10%Z. intros a x. cbn [app atoi_digits]. rewrite Hv. f_equal. lia.
  - destruct (IH (n / 10) (digit_char (n mod 10) :: acc)) as (ds & -> & Hds & Hnf & k & Hk).
    { assert (n / 10 < n); [apply Nat.div_lt; lia|lia]. }
    exists (ds ++ [digit_char (n mod 10)]). rewrite <- app_assoc. split; [done|].
    split; [by destruct ds|]. split; [apply nul_free_app; by repeat constructor|].
    exists (10 * k)%Z. intros a x. rewrite <- app_assoc, Hk. cbn [app atoi_digits].
    rewrite Hv. f_equal. lia.
Qed.

Lemma atoi_print n :
  (Z.of_nat n < 2 ^ 31)%Z ->
  string_from_number n <> [] /\ atoi (cstr (string_from_number n)) = Ret (Z.of_nat n).
Proof.
  intros Hn. unfold string_from_number.
  destruct (print_digits_value (S n) n []) as (ds & -> & Hds & Hnf & k & Hk); [lia|].
  rewrite app_nil_r, cstr_nul_free by done. destruct ds as [|c ds]; [done|]. split; [done|].
  destruct Hds as (Hs & H1 & H2).
  unfold atoi, atoi_value. rewrite skip_space_head by done.
  destruct (Ascii.eqb c "-") eqn:E1; [by apply Ascii.eqb_eq in E1|].
  destruct (Ascii.eqb c "+") eqn:E2; [by apply Ascii.eqb_eq in E2|].
  specialize (Hk 0%Z []). rewrite app_nil_r in Hk. rewrite Hk. cbn [atoi_digits].
  rewrite Z.mul_0_l, Z.add_0_l.
  destruct ((- 2 ^ 31 <=? _) && _)%Z eqn:E; [done|].
  exfalso. apply andb_false_iff in E as [E|E]; lia.
Qed.

(** [updateLength] writes the length the reader will read.  After the call
    the first Content-Length value is the decimal text of the body's length, and
    [atoi], by which the reader learns how much to wait for, gives that length
    back. *)
Theorem update_length_read m :
  m_finalized m = true -> (Z.of_nat (length (m_body m)) < 2 ^ 31)%Z ->
  atoi (cstr (hdrGet (updateLength m) #"Content-Length" 0)) = Ret (Z.of_nat (length (m_body m))).
Proof.
  intros Hf Hl. destruct (atoi_print _ Hl) as [Hne Ha].
  assert (hdrGet (updateLength m) #"Content-Length" 0 = string_from_number (length (m_body m))) as ->;
    [|done].
  unfold updateLength, hdrSet. rewrite Hf. cbn [negb orb].
  destruct (string_from_number _) as [|c ds]; [done|]. cbn [length Nat.eqb].
  destruct (m_headers m !! _) as [t|]; [destruct (values t) as [|a l] eqn:Ev|]; cbn [length Nat.eqb snd];
    unfold hdrGet; simpl; rewrite Hf, lookup_insert_eq; done.
Qed.

End consume.

(** A message with a body for the witnesses below. *)
Definition wire_sample : SIPMessage :=
  set_body (set_startLine
    (new_header (new_header newMessage #"Via" #"SIP/2.0/UDP a") #"Content-Length" #"2")
    #"OPTIONS sip:b@h SIP/2.0") #"hi".

Lemma wire_sample_ok : wire_message wire_sample.
Proof.
  assert (hdr_inv newMessage) as H0.
  { split; [simpl; lia|]. split; [apply map_Forall_empty|]. intros k1 k2 t1 t2 H. discriminate H. }
  split.
  - split.
    + apply (new_header_inv (new_header newMessage #"Via" #"SIP/2.0/UDP a") #"Content-Length" #"2");
        [|reflexivity|reflexivity].
      by apply new_header_inv.
    + reflexivity.
    + split; [repeat constructor|by split].
    + repeat (apply map_Forall_insert_2; [split; [|reflexivity];
        repeat split; repeat constructor; discriminate|]). apply map_Forall_empty.
  - repeat constructor.
  - repeat (apply map_Forall_insert_2;
      [repeat split; repeat constructor; discriminate|]). apply map_Forall_empty.
  - right. exists #"2", []. split; reflexivity.
Qed.

(** The witness of [consume_frames]. *)
Lemma consume_frames_witness :
  exists m', consume (boost := boost_reference) newMessage (commitText wire_sample ++ #"next") =
    Ret (TTrue, length (commitText wire_sample), m') /\ read_back wire_sample m'.
Proof. apply (consume_frames (boost := boost_reference) wire_sample #"next" wire_sample_ok). Defined.

(** The witness of [consume_chunks]. *)
Lemma consume_chunks_witness :
  consume (boost := boost_reference) newMessage (#"BYE sip:a" ++ #"@b SIP/2.0") =
    '(r, n, m') ← consume newMessage #"BYE sip:a";
    match r with
    | TIndet => '(r2, n2, m2) ← consume m' #"@b SIP/2.0"; Ret (r2, n + n2, m2)
    | _ => Ret (r, n, m')
    end.
Proof. apply consume_chunks. Defined.

(** The witness of [update_length_read]. *)
Lemma update_length_read_witness :
  atoi (cstr (hdrGet (updateLength (boost := boost_reference) wire_sample) #"Content-Length" 0)) = Ret 2%Z.
Proof. apply (update_length_read (boost := boost_reference) wire_sample); reflexivity. Defined.


(** A body that is not complete yet. *)
Lemma consume_body_pending {boost : BoostString} m x n :
  m_consumeState m = EXPECTING_BODY ->
  (Z.of_nat (length (m_body m) + length x) < m_expectedBodyLen m)%Z ->
  consume_chars m x n = Ret (TIndet, n + length x, set_body m (m_body m ++ x)).
Proof.
  revert m n. induction x as [|c x IH]; intros m n Hs Hl; cbn [consume_chars].
  - rewrite Nat.add_0_r, app_nil_r. by destruct m.
  - unfold consumeOne. rewrite decide_False by (by rewrite Hs). unfold consume_switch. rewrite Hs.
    unfold consume_body. cbn [m_body set_body m_expectedBodyLen]. cbn [length] in Hl.
    rewrite length_app, (proj2 (Z.ltb_lt _ _)) by (cbn [length]; lia). cbn [mbind outcome_bind].
    rewrite IH; [|done|cbn [m_body set_body m_expectedBodyLen]; rewrite length_app; cbn [length]; lia].
    unfold set_body. cbn [m_body]. rewrite <- app_assoc. simpl. do 3 f_equal. lia.
Qed.

Definition negative_length : str :=
  #"BYE sip:a@b SIP/2.0" ++ CRLF ++ #"Content-Length: -1" ++ CRLF ++ CRLF.

(** A negative Content-Length holds the connection.  The value is
    converted to an unsigned length, so the reader waits for 2^64-1 characters
    of body: whatever else arrives is taken as body and the message is never
    complete. *)
Theorem negative_length_pending x :
  (Z.of_nat (length x) < npos)%Z ->
  exists m', consume (boost := boost_reference) newMessage (negative_length ++ x) =
    Ret (TIndet, length negative_length + length x, m') /\ m_body m' = x.
Proof.
  intros Hx. unfold consume. rewrite consume_chars_app.
  assert (exists m1, consume_chars (boost := boost_reference) (set_finalized newMessage false)
      negative_length 0 = Ret (TIndet, length negative_length, m1) /\
    m_consumeState m1 = EXPECTING_BODY /\ m_body m1 = [] /\ m_expectedBodyLen m1 = npos)
    as (m1 & -> & Hs & Hb & He).
  { vm_compute. eexists. split; [reflexivity|]. by split_and!. }
  cbn [mbind outcome_bind]. rewrite consume_body_pending; [|done|by rewrite Hb, He].
  eexists. split; [done|]. simpl. by rewrite Hb.
Qed.

(** The witness of [negative_length_pending]. *)
Lemma negative_length_pending_witness :
  exists m', consume (boost := boost_reference) newMessage (negative_length ++ #"BYE") =
    Ret (TIndet, length negative_length + 3, m') /\ m_body m' = #"BYE".
Proof. apply (negative_length_pending #"BYE"). vm_compute. reflexivity. Defined.
