(* ===== verification/SipResponse.v ===== *)
(** * Classification of messages, identifiers and responses

    The predicates of SIPMessage on the start line ([isRequest], [isResponse]
    and their kin), the transaction and dialog identifiers, and the construction
    of responses; also the operations of SIPVia on the Via list of a message. *)

From S2P Require Import Prelude Abnf AbnfFacts AbnfSearch SipGrammar SipGrammarFacts CoreStrings.
From S2P Require Import SipParser SipHeaders SipMessage SipMessageFacts.
Open Scope nat_scope.

Definition HDR_FROM : str := #"From".
Definition HDR_TO : str := #"To".
Definition HDR_CALL_ID : str := #"Call-ID".
Definition HDR_CSEQ : str := #"CSeq".
Definition HDR_VIA : str := #"Via".
Definition HDR_CONTACT : str := #"Contact".
Definition HDR_RECORD_ROUTE : str := #"Record-Route".
Definition HDR_CONTENT_LENGTH : str := #"Content-Length".

(** [requestLineVerify] and [statusLineVerify]. *)
Definition requestLineVerify (s : str) : outcome bool := checked (ABNFEvaluate ABNFSIPRequestLine s).
Definition statusLineVerify (s : str) : outcome bool := checked (ABNFEvaluate ABNFSIPStatusLine s).

(** [operator<<(int)]. *)
Definition string_from_int (z : Z) : str :=
  if (z <? 0)%Z then #"-" ++ string_from_number (Z.to_nat (- z)) else string_from_number (Z.to_nat z).

Section response.
Context {boost : BoostString}.

(** ** Classification.  The predicates cache their answer in the message. *)

Abbreviation classified := (outcome (tribool * SIPMessage)).

Definition isRequest (m : SIPMessage) (method : option str) : classified :=
  match method with
  | Some method => Ret (tb_of_bool (string_caseless_starts_with (m_startLine m) method), m)
  | None =>
      if tb_true (tb_neq (m_isRequest m) TIndet) then Ret (m_isRequest m, m)
      else if length (m_startLine m) =? 0 then Ret (TFalse, m)
      else
        r ← requestLineVerify (m_startLine m);
        if (r : bool) then Ret (TTrue, set_kind m (m_isResponse m) TTrue)
        else
          s ← statusLineVerify (m_startLine m);
          if negb s then Ret (TIndet, m)
          else Ret (TFalse, set_kind m (m_isResponse m) TFalse)
  end.

Definition isResponse (m : SIPMessage) : classified :=
  if tb_true (tb_neq (m_isResponse m) TIndet) then Ret (m_isResponse m, m)
  else if length (m_startLine m) =? 0 then Throw (SIPParserException "ABNF Syntax Exception")
  else
    s ← statusLineVerify (m_startLine m);
    if (s : bool) then Ret (TTrue, set_kind m TTrue (m_isRequest m))
    else
      r ← requestLineVerify (m_startLine m);
      if negb r then Ret (TIndet, m)
      else Ret (TFalse, set_kind m TFalse (m_isRequest m)).

Definition isResponseTo (m : SIPMessage) (meth : str) : classified :=
  if length (m_startLine m) =? 0 then Ret (TFalse, m)
  else
    m ← (if tb_true (tb_not (m_isResponse m)) then
           s ← statusLineVerify (m_startLine m);
           Ret (set_kind m (tb_of_bool s) (m_isRequest m))
         else Ret m);
    if tb_true (m_isResponse m) then
      let cseq := hdrGet m HDR_CSEQ 0 in
      if length cseq =? 0 then Ret (TIndet, m)
      else
        Ret (tb_of_bool (string_ends_with (string_to_lower cseq) (string_to_lower (cstr meth))), m)
    else
      r ← requestLineVerify (m_startLine m);
      if negb r then Ret (TIndet, m)
      else Ret (TFalse, set_kind m TFalse (m_isRequest m)).

(** A predicate on the first digit of the status code, [_startLine[8]]. *)
Definition first_digit (m : SIPMessage) (p : Z -> bool) : classified :=
  '(checkResponse, m) ← isResponse m;
  if tb_true (tb_not checkResponse) then Ret (checkResponse, m)
  else
    c ← at_index (m_startLine m) 8;
    Ret (tb_of_bool (p c), m).

(** The class of a status code, as the [if] ladder of [isResponseFamily]. *)
Definition family_digit (responseCode : Z) : option Z :=
  if ((100 <=? responseCode) && (responseCode <=? 199))%Z then Some 49%Z
  else if ((200 <=? responseCode) && (responseCode <=? 299))%Z then Some 50%Z
  else if ((300 <=? responseCode) && (responseCode <=? 399))%Z then Some 51%Z
  else if ((400 <=? responseCode) && (responseCode <=? 499))%Z then Some 52%Z
  else if ((500 <=? responseCode) && (responseCode <=? 599))%Z then Some 53%Z
  else if ((600 <=? responseCode) && (responseCode <=? 699))%Z then Some 54%Z
  else None.

(** For a code outside 100 to 699 no comparison reads the start line. *)
Definition isResponseFamily (m : SIPMessage) (responseCode : Z) : classified :=
  match family_digit responseCode with
  | Some d => first_digit m (fun c => c =? d)%Z
  | None =>
      '(checkResponse, m) ← isResponse m;
      if tb_true (tb_not checkResponse) then Ret (checkResponse, m) else Ret (TFalse, m)
  end.

Definition isErrorResponse (m : SIPMessage) : classified :=
  first_digit m (fun c => (51 <=? c) && (c <=? 54))%Z.

Definition isFinalResponse (m : SIPMessage) : classified :=
  first_digit m (fun c => (50 <=? c) && (c <=? 54))%Z.

(** [is1xx] ... [is6xx]: with a code, a comparison with the text of the line. *)
Definition isNxx (family : Z) (m : SIPMessage) (code : Z) : classified :=
  if (code =? 0)%Z then isResponseFamily m family
  else Ret (tb_of_bool (string_starts_with (m_startLine m) (#"SIP/2.0 " ++ string_from_int code)), m).

Definition is1xx := isNxx 100.
Definition is2xx := isNxx 200.
Definition is3xx := isNxx 300.
Definition is4xx := isNxx 400.
Definition is5xx := isNxx 500.
Definition is6xx := isNxx 600.

(** ** Identifiers *)

Definition getMethod (m : SIPMessage) : outcome str := filled (SIPCSeq.getMethod (hdrGet m HDR_CSEQ 0)).

(** [getTransactionId]: [None] is [false]. *)
Definition getTransactionId (m : SIPMessage) (method_ : option str) : outcome (option str) :=
  let viaStr := hdrGet m HDR_VIA 0 in
  let callIdStr := hdrGet m HDR_CALL_ID 0 in
  let cseqStr := hdrGet m HDR_CSEQ 0 in
  if (length viaStr =? 0) || (length callIdStr =? 0) || (length cseqStr =? 0) then Ret None
  else
    method ← (match method_ with
              | None => filled (SIPCSeq.getMethod cseqStr)
              | Some method => Ret method
              end);
    number ← filled (SIPCSeq.getNumber cseqStr);
    if (length method =? 0) || (length number =? 0) then Ret None
    else
      id ← filled (SIPVia.getBranch viaStr);
      let id := if length id =? 0 then callIdStr else id in
      let method := to_lower method in
      let method := if decide (method = #"ack") then #"invite" else method in
      Ret (Some (method ++ number ++ id)).

Definition isMidDialog (m : SIPMessage) : outcome tribool :=
  fromTag ← SIPFrom.getTag (hdrGet m HDR_FROM 0);
  toTag ← SIPFrom.getTag (hdrGet m HDR_TO 0);
  if negb (length fromTag =? 0) && negb (length toTag =? 0) then Ret TTrue
  else if negb (length fromTag =? 0) && (length toTag =? 0) then Ret TFalse
  else Ret TIndet.

Definition getDialogId (m : SIPMessage) (asSender : bool) : outcome (str * SIPMessage) :=
  fromTag ← SIPFrom.getTag (hdrGet m HDR_FROM 0);
  toTag ← SIPFrom.getTag (hdrGet m HDR_TO 0);
  if (length fromTag =? 0) || (length toTag =? 0) then Ret ([], m)
  else if asSender then
    '(r, m) ← isResponse m;
    Ret (if tb_true r then toTag ++ fromTag else fromTag ++ toTag, m)
  else
    '(r, m) ← isRequest m None;
    Ret (if tb_true r then toTag ++ fromTag else fromTag ++ toTag, m).

(** ** Responses *)

(** Copy all values of a header from [src] to the end of [dst]. *)
Fixpoint copy_values (src dst : SIPMessage) (name : str) (err : string) (i count : nat)
    : outcome SIPMessage :=
  match count with
  | 0 => Ret dst
  | S count =>
      let v := hdrGet src name i in
      if length v =? 0 then Throw (SIPParserException err)
      else copy_values src (snd (hdrListAppend dst name v)) name err (S i) count
  end.

(** Copy one mandatory header. *)
Definition copy_header (src dst : SIPMessage) (name : str) (err : string) : outcome SIPMessage :=
  let v := hdrGet src name 0 in
  if length v =? 0 then Throw (SIPParserException err)
  else Ret (snd (hdrSet dst name v)).

(** From, To, Call-ID and CSeq of a response; [hTo] is the To header object. *)
Definition copy_dialog (src dst : SIPMessage) (hTo toTag : str) : outcome SIPMessage :=
  dst ← copy_header src dst HDR_FROM "Invalid From header";
  hTo ← (if length toTag =? 0 then Ret hTo else SIPFrom.mSetHeaderParam hTo #"tag" toTag);
  let dst := snd (hdrSet dst HDR_TO hTo) in
  dst ← copy_header src dst HDR_CALL_ID "Invalid CALL-ID header";
  copy_header src dst HDR_CSEQ "Invalid CSeq header".

Definition copy_vias (src dst : SIPMessage) : outcome SIPMessage :=
  if hdrGetSize src HDR_VIA =? 0 then Throw (SIPParserException "Invalid Via header")
  else copy_values src dst HDR_VIA "Invalid via header" 0 (hdrGetSize src HDR_VIA).

Definition copy_routes (src dst : SIPMessage) : outcome SIPMessage :=
  copy_values src dst HDR_RECORD_ROUTE "Invalid Record-Route header" 0 (hdrGetSize src HDR_RECORD_ROUTE).

Definition createResponse (m : SIPMessage) (statusCode : Z) (reasonPhrase toTag contact : str)
    : outcome (SIPMessage * SIPMessage) :=
  '(r, m) ← isRequest m None;
  if tb_true (tb_not r) then
    Throw (SIPParserException "Calling createResponse() for a response is illegal!!")
  else
    let to := hdrGet m HDR_TO 0 in
    if length to =? 0 then Throw (SIPParserException "Invalid To header.")
    else
      tag ← SIPFrom.getTag to;
      if negb (length tag =? 0) && negb (length toTag =? 0) && negb (bool_decide (tag = toTag)) then
        Throw (SIPParserException "To tag is already present in current request.")
      else
        let phrase := getReasonPhrase statusCode reasonPhrase in
        let response :=
          set_startLine newMessage (#"SIP/2.0 " ++ string_from_int statusCode ++ #" " ++ phrase) in
        response ← copy_dialog m response to toTag;
        let response :=
          if length contact =? 0 then response else snd (hdrListAppend response HDR_CONTACT contact) in
        response ← copy_vias m response;
        response ← copy_routes m response;
        let response := snd (hdrSet response HDR_CONTENT_LENGTH #"0") in
        Ret (commitData response, m).

(** [pFormatedResponse->_headers.erase(key)]. *)
Definition erase_key (m : SIPMessage) (k : str) : SIPMessage :=
  set_headers m (delete k (m_headers m)) (m_headerOffSet m).

Definition reformatResponse (m pResponse : SIPMessage) : outcome (SIPMessage * SIPMessage) :=
  '(r, m) ← isRequest m None;
  if tb_true (tb_not r) then
    Throw (SIPParserException "Calling createResponse() for a response is illegal!!")
  else
    let response := copyMessage pResponse in
    let to := hdrGet m HDR_TO 0 in
    if length to =? 0 then Throw (SIPParserException "Invalid To header.")
    else
      toTag ← SIPFrom.getTag (hdrGet response HDR_TO 0);
      response ← copy_dialog m response to toTag;
      let response := erase_key (erase_key response #"via") #"Via" in
      response ← copy_vias m response;
      let response := erase_key (erase_key response #"record-route") #"Record-Route" in
      response ← copy_routes m response;
      Ret (commitData response, m).

(** ** The Via list of a message: SIPVia::msg... *)

Definition msgGetTopVia (m : SIPMessage) : option str :=
  if hdrPresent m HDR_VIA =? 0 then None else Some (SIPVia.getTopVia (hdrGet m HDR_VIA 0)).

Definition msgPopTopVia (m : SIPMessage) : outcome (option str * SIPMessage) :=
  if hdrPresent m HDR_VIA =? 0 then Ret (None, m)
  else
    '(moreVia, topVia) ← SIPVia.popTopVia (hdrGet m HDR_VIA 0);
    let m := if length moreVia =? 0 then snd (hdrListPopFront m HDR_VIA)
             else snd (hdrSetIndex m HDR_VIA moreVia 0) in
    Ret (if length topVia =? 0 then None else Some topVia, m).

Definition msgAddVia (m : SIPMessage) (via : str) : bool * SIPMessage := hdrListPrepend m HDR_VIA via.
Definition msgClearVias (m : SIPMessage) : bool * SIPMessage := hdrListRemove m HDR_VIA.

Definition msgGetBottomVia (m : SIPMessage) : option str :=
  let count := hdrGetSize m HDR_VIA in
  if count =? 0 then None
  else
    let hVia := hdrGet m HDR_VIA (count - 1) in
    if length hVia =? 0 then None else SIPVia.getBottomVia hVia.

Definition msgGetTopViaSentBy (m : SIPMessage) : outcome (option str) :=
  match msgGetTopVia m with None => Ret None | Some via => SIPVia.getSentBy via end.
Definition msgGetTopViaTransport (m : SIPMessage) : outcome (option str) :=
  match msgGetTopVia m with None => Ret None | Some via => SIPVia.getTransport via end.
Definition msgGetBottomViaSentBy (m : SIPMessage) : outcome (option str) :=
  match msgGetBottomVia m with None => Ret None | Some via => SIPVia.getSentBy via end.
Definition msgGetBottomViaReceived (m : SIPMessage) : outcome (option str) :=
  match msgGetBottomVia m with None => Ret None | Some via => SIPVia.getReceived via end.
Definition msgGetBottomViaRPort (m : SIPMessage) : outcome (bool * option str) :=
  match msgGetBottomVia m with None => Ret (false, None) | Some via => SIPVia.getRPort via end.

(** ** Classification follows the start line *)

Lemma cache_ignored t : tb_true (tb_neq t TIndet) = false.
Proof. by destruct t. Qed.

Lemma verify_defined r s : Safe r -> exists b, checked (ABNFEvaluate r s) = Ret b /\
  (b = true <-> ABNFEvaluate r s = Some true).
Proof.
  intros Hr. destruct (evaluate_safe r s Hr) as [b ->]. exists b. split; [done|]. split; congruence.
Qed.

(** Classification follows the start line.  For every non-empty start line
    and whatever answer is cached, [isRequest] is true exactly when the line is
    a request line, [isResponse] is true exactly when it is a status line, and
    the two never contradict each other: one is the negation of the other, and
    both are indeterminate when the line is neither. *)
Theorem classification m :
  m_startLine m <> [] -> nul_free (m_startLine m) ->
  exists r m1 s m2, isRequest m None = Ret (r, m1) /\ isResponse m = Ret (s, m2) /\
    (r = TTrue <-> ABNFEvaluate ABNFSIPRequestLine (m_startLine m) = Some true) /\
    (s = TTrue <-> ABNFEvaluate ABNFSIPStatusLine (m_startLine m) = Some true) /\ s = tb_not r.
Proof.
  intros Hne Hf. unfold isRequest, isResponse, requestLineVerify, statusLineVerify.
  rewrite !cache_ignored. destruct (length (m_startLine m) =? 0) eqn:E; [bools; by destruct (m_startLine m)|].
  pose proof (start_lines_disjoint (m_startLine m) Hf Hne) as Hx.
  destruct (verify_defined ABNFSIPRequestLine (m_startLine m) ltac:(apply _)) as (b & -> & Hb).
  destruct (verify_defined ABNFSIPStatusLine (m_startLine m) ltac:(apply _)) as (c & -> & Hc).
  rewrite <- Hb, <- Hc in Hx. simpl.
  destruct b, c; simpl; eexists _, _, _, _; (split; [done|]); (split; [done|]); rewrite <- Hb, <- Hc;
    try (exfalso; by apply Hx); (split_and!; [by split|by split|done]).
Qed.

(** Two predicates that fail on what they are for.  On a freshly parsed
    message with a status line [isResponseTo] is indeterminate for every method,
    because the uncomputed cache is not recomputed; and [isErrorResponse] and
    [isFinalResponse] read past a start line of less than eight characters that
    is neither request nor status line. *)
Theorem predicate_faults m meth :
  m_startLine m <> [] -> nul_free (m_startLine m) -> m_isResponse m = TIndet ->
  (ABNFEvaluate ABNFSIPStatusLine (m_startLine m) = Some true ->
     isResponseTo m meth = Ret (TIndet, m)) /\
  (ABNFEvaluate ABNFSIPStatusLine (m_startLine m) <> Some true ->
   ABNFEvaluate ABNFSIPRequestLine (m_startLine m) <> Some true -> length (m_startLine m) < 8 ->
     isErrorResponse m = UB /\ isFinalResponse m = UB).
Proof.
  intros Hne Hf Hi. pose proof (start_lines_disjoint (m_startLine m) Hf Hne) as Hx.
  unfold isResponseTo, isErrorResponse, isFinalResponse, first_digit, isResponse,
    requestLineVerify, statusLineVerify.
  rewrite !cache_ignored, !Hi. destruct (length (m_startLine m) =? 0) eqn:E; [bools; by destruct (m_startLine m)|].
  destruct (verify_defined ABNFSIPRequestLine (m_startLine m) ltac:(apply _)) as (b & Eb & Hb).
  destruct (verify_defined ABNFSIPStatusLine (m_startLine m) ltac:(apply _)) as (c & Ec & Hc).
  rewrite <- Hb, <- Hc in Hx. rewrite <- Hb, <- Hc. split.
  - intros ->. destruct b; [by destruct (Hx eq_refl)|]. simpl. rewrite Hi. simpl. by rewrite Eb.
  - intros H1 H2 Hl. destruct b, c; try done. rewrite Ec. simpl. rewrite Eb. simpl. unfold at_index.
    destruct (8 <=? _) eqn:E8; bools; [lia|done].
Qed.

(** ** What a response copies *)

(** [dst] is parsed, holds the lists [f] and no header without a value. *)
Definition holds (dst : SIPMessage) (f : str -> list str) : Prop :=
  m_finalized dst = true /\ (forall k, hdrs dst k = f k) /\
  map_Forall (fun _ t => values t <> []) (m_headers dst).

Lemma holds_new : holds newMessage (fun _ => []).
Proof. split_and!; [done|done|apply map_Forall_empty]. Qed.

Lemma holds_startLine dst f s : holds dst f -> holds (set_startLine dst s) f.
Proof. done. Qed.

Lemma holds_put dst f n t :
  holds dst f -> values t <> [] -> holds (put_header dst n t) (upd f (to_lower n) (values t)).
Proof.
  intros (Hf & Hh & Hv) Ht. split_and!; [done| |by apply map_Forall_insert_2].
  intros k. rewrite hdrs_put. unfold upd. by case_decide.
Qed.

Lemma holds_fresh dst f n v :
  holds dst f -> holds (new_header dst n v) (upd f (to_lower n) [v]).
Proof.
  intros (Hf & Hh & Hv). split_and!; [done| |by apply map_Forall_insert_2].
  intros k. rewrite hdrs_new. unfold upd. by case_decide.
Qed.

Lemma holds_set dst f n v :
  holds dst f -> v <> [] ->
  holds (snd (hdrSet dst n v)) (upd f (to_lower n) (v :: tail (f (to_lower n)))).
Proof.
  intros Hd Hv0. pose proof Hd as (Hf & Hh & Hv). unfold hdrSet. rewrite Hf. destruct v as [|c v]; [done|].
  cbn [negb orb length Nat.eqb]. specialize (Hh (to_lower n)). unfold hdrs in Hh.
  destruct (m_headers dst !! to_lower n) as [t|] eqn:E; rewrite <- Hh; [|by apply holds_fresh].
  pose proof (Hv _ _ E) as Ht. destruct (values t) as [|a l] eqn:El; [done|]. cbn [length Nat.eqb snd].
  by apply (holds_put dst f n (set_values t ((c :: v) :: l))).
Qed.

Lemma holds_append dst f n v :
  holds dst f -> v <> [] ->
  holds (snd (hdrListAppend dst n v)) (upd f (to_lower n) (f (to_lower n) ++ [v])).
Proof.
  intros Hd Hv0. pose proof Hd as (Hf & Hh & Hv). unfold hdrListAppend. rewrite Hf. destruct v as [|c v]; [done|].
  cbn [negb orb length Nat.eqb]. specialize (Hh (to_lower n)). unfold hdrs in Hh.
  destruct (m_headers dst !! to_lower n) as [t|] eqn:E; rewrite <- Hh; [|by apply holds_fresh].
  apply (holds_put dst f n (push_back t (c :: v))); [done|]. simpl. by destruct (values t).
Qed.

Lemma hdr_get_hdrs m n i :
  m_finalized m = true -> hdrGet m n i = default [] (hdrs m (to_lower n) !! i).
Proof. intros Hf. unfold hdrGet, hdrs. rewrite Hf. simpl. by destruct (m_headers m !! _). Qed.

Lemma hdr_size_hdrs m n :
  m_finalized m = true -> hdrGetSize m n = length (hdrs m (to_lower n)).
Proof. intros Hf. unfold hdrGetSize, hdrPresent, hdrs. rewrite Hf. simpl. by destruct (m_headers m !! _). Qed.

Lemma holds_copy_header src dst f n err dst' :
  m_finalized src = true -> holds dst f -> copy_header src dst n err = Ret dst' ->
  exists v vs, hdrs src (to_lower n) = v :: vs /\ v <> [] /\
    holds dst' (upd f (to_lower n) (v :: tail (f (to_lower n)))).
Proof.
  intros Hf Hd. unfold copy_header. rewrite hdr_get_hdrs by done.
  destruct (hdrs src (to_lower n)) as [|[|c v] vs]; [done|done|]. cbn. intros [= <-].
  exists (c :: v), vs. split_and!; [done|done|]. by apply holds_set.
Qed.

Lemma holds_ext dst f g : holds dst f -> (forall k, f k = g k) -> holds dst g.
Proof. intros (H1 & H2 & H3) E. split_and!; [done| |done]. intros k. by rewrite H2. Qed.

Lemma holds_copy_values src n err i count dst f dst' :
  m_finalized src = true -> holds dst f -> i + count = length (hdrs src (to_lower n)) ->
  copy_values src dst n err i count = Ret dst' ->
  holds dst' (upd f (to_lower n) (f (to_lower n) ++ drop i (hdrs src (to_lower n)))).
Proof.
  intros Hf. revert i dst f. induction count as [|count IH]; intros i dst f Hd Hl; cbn [copy_values].
  - intros [= <-]. eapply holds_ext; [exact Hd|]. intros k. rewrite drop_ge by lia.
    rewrite app_nil_r. by apply upd_same.
  - rewrite hdr_get_hdrs by done.
    destruct (lookup_lt_is_Some_2 (hdrs src (to_lower n)) i) as [v Hv]; [lia|]. rewrite Hv. simpl.
    destruct v as [|c v]; [done|]. simpl. intros H.
    apply (IH (S i) _ (upd f (to_lower n) (f (to_lower n) ++ [c :: v]))) in H;
      [|by apply holds_append|lia].
    eapply holds_ext; [exact H|]. intros k. rewrite (drop_S _ _ _ Hv). unfold upd.
    repeat case_decide; try done. by rewrite <- app_assoc.
Qed.

Lemma is_request_same m r m1 :
  isRequest m None = Ret (r, m1) -> m_headers m1 = m_headers m /\ m_finalized m1 = m_finalized m.
Proof.
  unfold isRequest. rewrite cache_ignored. destruct (length _ =? 0); [by intros [= <- <-]|].
  destruct (requestLineVerify _) as [[]| |]; simpl; try done; [by intros [= <- <-]|].
  destruct (statusLineVerify _) as [[]| |]; simpl; try done; by intros [= <- <-].
Qed.

Lemma holds_set_any dst f n v :
  holds dst f -> exists l, holds (snd (hdrSet dst n v)) (upd f (to_lower n) l) /\
    (v <> [] -> l = v :: tail (f (to_lower n))).
Proof.
  intros Hd. destruct v as [|c v].
  - exists (f (to_lower n)). split; [|done]. unfold hdrSet. rewrite orb_true_r. simpl.
    eapply holds_ext; [exact Hd|]. intros k. by apply upd_same.
  - eexists. split; [by apply holds_set|done].
Qed.

(** The names in lower case. *)
Lemma lower_names :
  to_lower HDR_FROM = #"from" /\ to_lower HDR_TO = #"to" /\ to_lower HDR_CALL_ID = #"call-id" /\
  to_lower HDR_CSEQ = #"cseq" /\ to_lower HDR_VIA = #"via" /\ to_lower HDR_CONTACT = #"contact" /\
  to_lower HDR_RECORD_ROUTE = #"record-route" /\ to_lower HDR_CONTENT_LENGTH = #"content-length".
Proof. rewrite !to_lower_map. by split_and!. Qed.

(** The headers of the dialog: the first values of From, Call-ID and CSeq. *)
Definition dialog_headers (src : SIPMessage) (to : list str) (f : str -> list str) : str -> list str :=
  upd (upd (upd (upd f #"from" (take 1 (hdrs src #"from") ++ tail (f #"from"))) #"to" to)
    #"call-id" (take 1 (hdrs src #"call-id") ++ tail (f #"call-id")))
    #"cseq" (take 1 (hdrs src #"cseq") ++ tail (f #"cseq")).

Ltac upds := unfold dialog_headers, upd;
  repeat first [rewrite decide_True by reflexivity | rewrite decide_False by discriminate].

Lemma holds_copy_dialog src dst f hTo toTag dst' :
  m_finalized src = true -> holds dst f -> copy_dialog src dst hTo toTag = Ret dst' ->
  exists to, holds dst' (dialog_headers src to f) /\
    (toTag = [] -> hTo <> [] -> to = hTo :: tail (f #"to")).
Proof.
  intros Hf Hd. unfold copy_dialog. destruct lower_names as (L1 & L2 & L3 & L4 & _).
  destruct (copy_header src dst _ _) as [d1| |] eqn:E1; try done. cbn [mbind outcome_bind].
  destruct (holds_copy_header _ _ _ _ _ _ Hf Hd E1) as (v1 & vs1 & H1 & _ & Hd1). rewrite L1 in *.
  destruct (if length toTag =? 0 then _ else _) as [hTo'| |] eqn:Et; try done. cbn [mbind outcome_bind].
  destruct (holds_set_any d1 _ HDR_TO hTo' Hd1) as (to & Hd2 & Hto). rewrite L2 in *.
  destruct (copy_header src _ HDR_CALL_ID _) as [d3| |] eqn:E3; try done. cbn [mbind outcome_bind].
  destruct (holds_copy_header _ _ _ _ _ _ Hf Hd2 E3) as (v3 & vs3 & H3 & _ & Hd3). rewrite L3 in *.
  intros E4. destruct (holds_copy_header _ _ _ _ _ _ Hf Hd3 E4) as (v4 & vs4 & H4 & _ & Hd4).
  rewrite L4 in *. exists to. split.
  - eapply holds_ext; [exact Hd4|]. intros k. unfold dialog_headers. rewrite H1, H3, H4. simpl.
    unfold upd. repeat case_decide; done.
  - intros -> Hne. injection Et as <-. by rewrite Hto by done.
Qed.

Lemma holds_copy_vias src dst f dst' :
  m_finalized src = true -> holds dst f -> copy_vias src dst = Ret dst' ->
  holds dst' (upd f #"via" (f #"via" ++ hdrs src #"via")).
Proof.
  intros Hf Hd. unfold copy_vias. destruct (_ =? 0); [done|]. intros E.
  destruct lower_names as (_ & _ & _ & _ & L5 & _). rewrite <- L5.
  apply (holds_copy_values _ _ _ _ _ _ _ _ Hf Hd) in E; [done|]. by rewrite hdr_size_hdrs.
Qed.

Lemma holds_copy_routes src dst f dst' :
  m_finalized src = true -> holds dst f -> copy_routes src dst = Ret dst' ->
  holds dst' (upd f #"record-route" (f #"record-route" ++ hdrs src #"record-route")).
Proof.
  intros Hf Hd. unfold copy_routes. intros E.
  destruct lower_names as (_ & _ & _ & _ & _ & _ & L7 & _). rewrite <- L7.
  apply (holds_copy_values _ _ _ _ _ _ _ _ Hf Hd) in E; [done|]. by rewrite hdr_size_hdrs.
Qed.

Lemma hdr_get_finalized m n i : hdrGet m n i <> [] -> m_finalized m = true.
Proof. unfold hdrGet. by destruct (m_finalized m). Qed.

(** The lists a response is created with. *)
Lemma create_response_holds m code phrase toTag contact resp m1 :
  createResponse m code phrase toTag contact = Ret (resp, m1) ->
  m_finalized m = true /\ exists to, (toTag = [] -> to = take 1 (hdrs m #"to")) /\
    let f := dialog_headers m to (fun _ => []) in
    let f := if length contact =? 0 then f else upd f #"contact" [contact] in
    holds resp (upd (upd (upd f #"via" (hdrs m #"via")) #"record-route" (hdrs m #"record-route"))
      #"content-length" [ #"0" ]).
Proof.
  unfold createResponse. destruct (isRequest m None) as [[r m0]| |] eqn:Er; try done.
  cbn [mbind outcome_bind]. destruct (tb_true _); [done|].
  apply is_request_same in Er as [Eh Ef].
  assert (forall k, hdrs m0 k = hdrs m k) as Ek by (intros k; unfold hdrs; by rewrite Eh).
  destruct (hdrGet m0 HDR_TO 0) as [|c to] eqn:Eto; [done|]. cbn [length Nat.eqb].
  assert (m_finalized m0 = true) as Hf0 by (by apply (hdr_get_finalized m0 HDR_TO 0); rewrite Eto).
  destruct (SIPFrom.getTag (c :: to)) as [tag| |]; try done. cbn [mbind outcome_bind].
  destruct (_ && _ && _); [done|].
  destruct (copy_dialog _ _ _ _) as [d1| |] eqn:E1; try done. cbn [mbind outcome_bind].
  apply holds_copy_dialog with (f := fun _ => []) in E1 as (tov & Hd1 & Htov);
    [|done|apply holds_startLine, holds_new].
  destruct lower_names as (_ & L2 & _ & _ & _ & L6 & _ & L8).
  set (d2 := if length contact =? 0 then d1 else snd (hdrListAppend d1 HDR_CONTACT contact)).
  set (f := dialog_headers m0 tov (fun _ => [])) in Hd1.
  assert (holds d2 (if length contact =? 0 then f else upd f #"contact" [contact])) as Hd2.
  { subst d2. destruct contact as [|a contact]; [done|]. cbn [length Nat.eqb].
    pose proof (holds_append d1 f HDR_CONTACT (a :: contact) Hd1 ltac:(done)) as H. rewrite L6 in H.
    eapply holds_ext; [exact H|]. intros k. subst f. by upds. }
  destruct (copy_vias m0 d2) as [d3| |] eqn:E3; try done. cbn [mbind outcome_bind].
  apply holds_copy_vias with (1 := Hf0) (2 := Hd2) in E3.
  destruct (copy_routes m0 d3) as [d4| |] eqn:E4; try done. cbn [mbind outcome_bind].
  apply holds_copy_routes with (1 := Hf0) (2 := E3) in E4.
  intros [= <- _]. split; [congruence|]. exists tov. split.
  - intros ->. rewrite Htov by done. rewrite hdr_get_hdrs, L2, Ek in Eto by done.
    destruct (hdrs m #"to") as [|v vs]; [done|]. simpl in Eto. by rewrite Eto.
  - pose proof (holds_set d4 _ HDR_CONTENT_LENGTH #"0" E4 ltac:(done)) as H. rewrite L8 in H.
    eapply holds_ext; [exact H|]. intros k. subst f. unfold dialog_headers. rewrite !Ek.
    destruct (length contact =? 0); unfold upd; repeat case_decide; subst; try done;
      try discriminate; by rewrite ?app_nil_l.
Qed.

(** The start line stays as it was set. *)
Lemma hdr_set_start m n v : m_startLine (snd (hdrSet m n v)) = m_startLine m.
Proof. unfold hdrSet. repeat brk; done. Qed.
Lemma hdr_append_start m n v : m_startLine (snd (hdrListAppend m n v)) = m_startLine m.
Proof. unfold hdrListAppend. repeat brk; done. Qed.
Lemma copy_header_start src dst n err dst' :
  copy_header src dst n err = Ret dst' -> m_startLine dst' = m_startLine dst.
Proof. unfold copy_header. brk; [done|]. intros [= <-]. apply hdr_set_start. Qed.
Lemma copy_values_start src n err i count dst dst' :
  copy_values src dst n err i count = Ret dst' -> m_startLine dst' = m_startLine dst.
Proof.
  revert i dst. induction count as [|count IH]; intros i dst; cbn [copy_values]; [by intros [= <-]|].
  brk; [done|]. intros H. rewrite (IH _ _ H). apply hdr_append_start.
Qed.

Lemma copy_dialog_start src dst hTo toTag dst' :
  copy_dialog src dst hTo toTag = Ret dst' -> m_startLine dst' = m_startLine dst.
Proof.
  unfold copy_dialog.
  destruct (copy_header src dst _ _) as [d1| |] eqn:E1; try done. cbn [mbind outcome_bind].
  destruct (if length toTag =? 0 then _ else _) as [hTo'| |]; try done. cbn [mbind outcome_bind].
  destruct (copy_header src _ HDR_CALL_ID _) as [d3| |] eqn:E3; try done. cbn [mbind outcome_bind].
  intros E4. rewrite (copy_header_start _ _ _ _ _ E4), (copy_header_start _ _ _ _ _ E3), hdr_set_start.
  apply (copy_header_start _ _ _ _ _ E1).
Qed.

Lemma create_response_start m code phrase toTag contact resp m1 :
  createResponse m code phrase toTag contact = Ret (resp, m1) ->
  m_startLine resp = #"SIP/2.0 " ++ string_from_int code ++ #" " ++ getReasonPhrase code phrase.
Proof.
  unfold createResponse. destruct (isRequest m None) as [[r m0]| |]; try done.
  cbn [mbind outcome_bind]. destruct (tb_true _); [done|]. destruct (_ =? 0); [done|].
  destruct (SIPFrom.getTag _) as [tag| |]; try done. cbn [mbind outcome_bind].
  destruct (_ && _ && _); [done|].
  destruct (copy_dialog _ _ _ _) as [d1| |] eqn:E1; try done. cbn [mbind outcome_bind].
  set (d2 := if length contact =? 0 then d1 else snd (hdrListAppend d1 HDR_CONTACT contact)).
  assert (m_startLine d2 = m_startLine d1) as H2 by (subst d2; brk; [done|apply hdr_append_start]).
  destruct (copy_vias m0 d2) as [d3| |] eqn:E3; try done. cbn [mbind outcome_bind].
  destruct (copy_routes m0 d3) as [d4| |] eqn:E4; try done. cbn [mbind outcome_bind].
  intros [= <- _]. change (m_startLine (commitData ?d)) with (m_startLine d). rewrite hdr_set_start.
  unfold copy_vias in E3. destruct (_ =? 0) in E3; [done|]. unfold copy_routes in E4.
  rewrite (copy_values_start _ _ _ _ _ _ _ E4), (copy_values_start _ _ _ _ _ _ _ E3), H2.
  by rewrite (copy_dialog_start _ _ _ _ _ E1).
Qed.

(** C27: what a response carries.  Whenever [createResponse] returns, the
    response has the status line of the code and phrase, all Via and
    Record-Route values of the request in their order, its first From, Call-ID
    and CSeq, its To when no tag is added, and a Content-Length of 0. *)
Theorem create_response_carries m code phrase toTag contact resp m1 :
  createResponse m code phrase toTag contact = Ret (resp, m1) ->
  m_startLine resp = #"SIP/2.0 " ++ string_from_int code ++ #" " ++ getReasonPhrase code phrase /\
  hdrs resp #"via" = hdrs m #"via" /\ hdrs resp #"record-route" = hdrs m #"record-route" /\
  hdrs resp #"from" = take 1 (hdrs m #"from") /\ hdrs resp #"call-id" = take 1 (hdrs m #"call-id") /\
  hdrs resp #"cseq" = take 1 (hdrs m #"cseq") /\
  (toTag = [] -> hdrs resp #"to" = take 1 (hdrs m #"to")) /\
  hdrs resp #"content-length" = [ #"0" ].
Proof.
  intros H. split; [by eapply create_response_start|].
  apply create_response_holds in H as (Hf & to & Hto & _ & Hr & _). rewrite !Hr.
  split_and!; destruct (length contact =? 0); upds; by rewrite ?app_nil_r.
Qed.

(** The identifier depends on the first Via, Call-ID and CSeq only. *)
Lemma transaction_id_ext m m' method :
  m_finalized m = true -> m_finalized m' = true ->
  head (hdrs m' #"via") = head (hdrs m #"via") ->
  head (hdrs m' #"call-id") = head (hdrs m #"call-id") ->
  head (hdrs m' #"cseq") = head (hdrs m #"cseq") ->
  getTransactionId m' method = getTransactionId m method.
Proof.
  intros Hf Hf' Hv Hi Hc. destruct lower_names as (_ & _ & L3 & L4 & L5 & _).
  unfold getTransactionId. rewrite !hdr_get_hdrs by done. rewrite L3, L4, L5.
  rewrite !(fun l : list str => eq_sym (head_lookup l)). by rewrite Hv, Hi, Hc.
Qed.

(** What a response shares with its request for the identifier. *)
Lemma response_heads m code phrase toTag contact resp m1 :
  createResponse m code phrase toTag contact = Ret (resp, m1) ->
  m_finalized m = true /\ m_finalized resp = true /\
  forall k, k = #"via" \/ k = #"call-id" \/ k = #"cseq" -> head (hdrs resp k) = head (hdrs m k).
Proof.
  intros H. apply create_response_holds in H as (Hf & to & _ & Hr1 & Hr & _). split_and!; [done|done|].
  intros k Hk. rewrite Hr. destruct Hk as [->|[->| ->]]; destruct (length contact =? 0); upds; rewrite ?app_nil_r; try done.
  all: match goal with |- context [take 1 ?l] => by destruct l end.
Qed.

(** A response belongs to the transaction of its request.  The transaction
    identifier of a response made by [createResponse] is the identifier of the
    request, whatever the method it is asked for: the client that sent the
    request finds its transaction. *)
Theorem response_transaction_id m code phrase toTag contact resp m1 method :
  createResponse m code phrase toTag contact = Ret (resp, m1) ->
  getTransactionId resp method = getTransactionId m method.
Proof.
  intros H. apply response_heads in H as (Hf & Hr & Hh). apply transaction_id_ext; auto.
Qed.

End response.

(** A received response and a line that is neither. *)
Definition ringing : SIPMessage :=
  set_startLine (new_header newMessage HDR_CSEQ #"1 INVITE") #"SIP/2.0 180 Ringing".

(** The witness of [classification]. *)
Lemma classification_witness :
  exists r m1 s m2, isRequest (boost := boost_reference) ringing None = Ret (r, m1) /\
    isResponse ringing = Ret (s, m2) /\
    (r = TTrue <-> ABNFEvaluate ABNFSIPRequestLine #"SIP/2.0 180 Ringing" = Some true) /\
    (s = TTrue <-> ABNFEvaluate ABNFSIPStatusLine #"SIP/2.0 180 Ringing" = Some true) /\ s = tb_not r.
Proof. apply (classification ringing); [discriminate|repeat constructor; discriminate]. Defined.

(** The witness of [predicate_faults]. *)
Lemma predicate_faults_witness :
  isResponseTo (boost := boost_reference) ringing #"INVITE" = Ret (TIndet, ringing).
Proof.
  refine (proj1 (predicate_faults (boost := boost_reference) ringing #"INVITE" _ _ _) _);
    [discriminate|repeat constructor; discriminate|reflexivity|vm_compute; reflexivity].
Defined.

(** A request and the answer to it. *)
Definition sample_request : SIPMessage :=
  Eval vm_compute in
  fromPacket (boost := boost_reference)
    (#"INVITE sip:bob@example.com SIP/2.0" ++ CRLF ++
     #"Via: SIP/2.0/UDP a.example.com;branch=z9hG4bK1" ++ CRLF ++
     #"From: <sip:alice@example.com>;tag=1" ++ CRLF ++ #"To: <sip:bob@example.com>" ++ CRLF ++
     #"Call-ID: 42" ++ CRLF ++ #"CSeq: 7 INVITE" ++ CRLF ++ CRLF) IDLE.

Definition sample_response : outcome (SIPMessage * SIPMessage) :=
  createResponse (boost := boost_reference) sample_request 200 [] #"99" [].

(** The witness of [create_response_carries]. *)
Lemma create_response_carries_witness :
  exists resp m1, sample_response = Ret (resp, m1) /\ hdrs resp #"via" = hdrs sample_request #"via".
Proof.
  destruct sample_response as [[resp m1]| |] eqn:E; [|vm_compute in E; discriminate..].
  exists resp, m1. split; [reflexivity|]. exact (proj1 (proj2 (create_response_carries (boost := boost_reference)
    sample_request 200 [] #"99" [] resp m1 E))).
Defined.

(** The witness of [response_transaction_id]. *)
Lemma response_transaction_id_witness :
  exists resp m1, sample_response = Ret (resp, m1) /\
    getTransactionId (boost := boost_reference) resp None = Ret (Some #"invite7z9hG4bK1").
Proof.
  destruct sample_response as [[resp m1]| |] eqn:E; [|vm_compute in E; discriminate..].
  exists resp, m1. split; [reflexivity|].
  rewrite (response_transaction_id (boost := boost_reference) sample_request 200 [] #"99" []
    resp m1 None E). vm_compute. reflexivity.
Defined.
