(* ===== verification/TransactionTimers.v ===== *)
(** * SIPTransactionTimers

    src/sipfsm/SIPTransactionTimers.cpp: the RFC 3261 timer values, in
    milliseconds, with their defaults, and the numbers of Boost's [lexical_cast]
    that a timeout property or an Expires header is read with. *)

From S2P Require Import Prelude CoreStrings SipConsume.
Open Scope Z_scope.

Record SIPTransactionTimers := Timers {
  timerA : Z; timerB : Z; timerC : Z; timerD : Z; timerE : Z; timerF : Z; timerG : Z;
  timerH : Z; timerI : Z; timerJ : Z; timerK : Z; timerT1 : Z; timerT2 : Z; timerT4 : Z;
  timer_ICT_18x : Z; timer_ICT_2xx : Z
}.

Definition SECONDS (v : Z) : Z := v * 1000.
Definition MINUTE (v : Z) : Z := v * 60000.

Definition SIP_TIMER_T1_VAL : Z := 500.
Definition SIP_TIMER_T2_VAL : Z := SECONDS 4.
Definition SIP_TIMER_T4_VAL : Z := SECONDS 5.
Definition SIP_TIMER_B_VAL : Z := SIP_TIMER_T1_VAL * 64.

(** The default constructor. *)
Definition defaultTimers : SIPTransactionTimers := {|
  timerA := SIP_TIMER_T1_VAL;
  timerB := SIP_TIMER_B_VAL;
  timerC := MINUTE 3 + SECONDS 1;
  timerD := SECONDS 32 + SECONDS 1;
  timerE := SIP_TIMER_T1_VAL;
  timerF := SIP_TIMER_T1_VAL * 64;
  timerG := SIP_TIMER_T1_VAL;
  timerH := 64 * SIP_TIMER_T1_VAL;
  timerI := SIP_TIMER_T4_VAL;
  timerJ := 64 * SIP_TIMER_T1_VAL;
  timerK := SIP_TIMER_T4_VAL;
  timerT1 := SIP_TIMER_T1_VAL;
  timerT2 := SIP_TIMER_T2_VAL;
  timerT4 := SIP_TIMER_T4_VAL;
  timer_ICT_18x := SIP_TIMER_B_VAL;
  timer_ICT_2xx := SIP_TIMER_B_VAL * 2
|}.

(** ** lexical_cast<unsigned long> *)

(** [None] is the exception [bad_lexical_cast]. *)
Class BoostLexical := {
  lexical_ulong : str -> option Z;
  lexical_ulong_range : forall s n, lexical_ulong s = Some n -> 0 <= n < 2 ^ 64;
  lexical_ulong_print : forall n, Z.of_nat n < 2 ^ 64 ->
    lexical_ulong (string_from_number n) = Some (Z.of_nat n)
}.

(** [string_to_number<unsigned long>(str)]: 0 when the text is no number. *)
Definition string_to_number `{BoostLexical} (s : str) : Z := default 0 (lexical_ulong s).

(** Decimal digits only, and a value that fits. *)
Definition ref_lexical (s : str) : option Z :=
  if match s with [] => false | _ => forallb (fun c => bool_decide (is_Some (digit_val c))) s end then
    let v := atoi_digits 0 s in if (0 <=? v) && (v <? 2 ^ 64) then Some v else None
  else None.

Lemma print_digits_digits fuel n acc :
  forallb (fun c => bool_decide (is_Some (digit_val c))) acc = true ->
  forallb (fun c => bool_decide (is_Some (digit_val c))) (print_digits fuel n acc) = true.
Proof.
  revert n acc. induction fuel as [|fuel IH]; intros n acc Ha; simpl; [done|].
  assert (forallb (fun c => bool_decide (is_Some (digit_val c))) (digit_char (n mod 10) :: acc) = true) as Hc.
  { cbn [forallb]. rewrite Ha, (digit_val_char (n mod 10)); [done|].
    apply Nat.mod_upper_bound. lia. }
  destruct (_ =? 0)%nat; [exact Hc|by apply IH].
Qed.

#[export] Instance lexical_reference : BoostLexical.
Proof.
  refine {| lexical_ulong := ref_lexical |}.
  - intros s n. unfold ref_lexical. destruct s as [|c s]; [done|].
    destruct (forallb _ _); [|done]. destruct ((0 <=? _) && _) eqn:E; [|done].
    intros [= <-]. apply andb_true_iff in E as [H1 H2].
    split; [by apply Z.leb_le|by apply Z.ltb_lt].
  - intros n Hn. unfold ref_lexical, string_from_number.
    pose proof (print_digits_digits (S n) n [] eq_refl) as Hd.
    destruct (print_digits_value (S n) n []) as (ds & E & Hds & _ & k & Hk); [lia|].
    rewrite E, app_nil_r in Hd |- *. destruct ds as [|c ds]; [done|].
    rewrite Hd. specialize (Hk 0 []). rewrite app_nil_r in Hk. rewrite Hk. cbn [atoi_digits].
    destruct ((0 <=? _) && _) eqn:Eb; [f_equal; lia|].
    apply andb_false_iff in Eb as [Eb|Eb]; lia.
Defined.

Lemma string_to_number_range `{BoostLexical} s : 0 <= string_to_number s < 2 ^ 64.
Proof.
  unfold string_to_number. destruct (lexical_ulong s) as [n|] eqn:E; [|done].
  by apply lexical_ulong_range in E.
Qed.
