(* ===== verification/Transaction.v ===== *)
(** * SIPTransaction and SIPFsm: state and basic operations

    src/sipfsm/SIPTransaction.cpp and SIPFsm.cpp.  A transaction and the branches
    it forks into are one shared store: the parent, held by its pool, and the
    children it holds by To tag, each with its state machine; a child reaches its
    parent through a weak pointer.  Messages live in a heap and are passed by
    reference, as [SIPMessage::Ptr] is.  Code is written in a monad of this state
    with exceptions: what was changed before a [throw] stays changed.

    Calls out of the component (the transaction user's callbacks, the transport,
    the dispatcher) are events appended to a trace.  Answers the component
    receives from outside are functions of that trace, so that nothing is assumed
    about two calls giving the same answer.  The callbacks do not call back into
    the transaction; locks, logging and the XOR feature are left out. *)

From S2P Require Import Prelude CoreStrings SipHeaders SipMessage SipResponse TransactionTimers.
From stdpp Require Import sorting.
Open Scope Z_scope.

(** ** Timers *)

Inductive Timer :=
| TimerA | TimerB | TimerC | TimerD | TimerE | TimerF | TimerG | TimerH | TimerI | TimerJ
| TimerK | TimerClientExpires | TimerMaxLifetime | TimerRequestThrottle.

Definition all_timers : list Timer :=
  [TimerA; TimerB; TimerC; TimerD; TimerE; TimerF; TimerG; TimerH; TimerI; TimerJ; TimerK;
   TimerClientExpires; TimerMaxLifetime; TimerRequestThrottle].

#[export] Instance timer_eq_dec : EqDecision Timer.
Proof. solve_decision. Defined.

Definition timer_rank (t : Timer) : nat :=
  match t with
  | TimerA => 0 | TimerB => 1 | TimerC => 2 | TimerD => 3 | TimerE => 4 | TimerF => 5
  | TimerG => 6 | TimerH => 7 | TimerI => 8 | TimerJ => 9 | TimerK => 10
  | TimerClientExpires => 11 | TimerMaxLifetime => 12 | TimerRequestThrottle => 13
  end.

#[export] Instance timer_countable : Countable Timer.
Proof.
  refine (inj_countable timer_rank (fun n => all_timers !! n) _). by intros [].
Defined.

(** ** Addresses and transports *)

Inductive Protocol := UDP | TCP | TLS | WS | WSS | SCTP | UnknownTransport.

#[export] Instance protocol_eq_dec : EqDecision Protocol.
Proof. solve_decision. Defined.

(** What the transaction layer observes of an [OSS::Net::IPAddress]:
    [toString()], [isInaddrAny()], [getPort()] and [getProtocol()]. *)
Record IPAddress := Addr {
  ip_text : str;
  ip_any : bool;
  ip_port : Z;
  ip_protocol : Protocol
}.

(** [IPAddress()]: 0.0.0.0. *)
Definition noAddress : IPAddress := Addr #"0.0.0.0" true 0 UnknownTransport.

(** [isValid()]. *)
Definition isValid (a : IPAddress) : bool := negb (ip_any a).

Definition setPort (a : IPAddress) (p : Z) : IPAddress :=
  Addr (ip_text a) (ip_any a) p (ip_protocol a).

(** A [SIPTransportSession]; [tp_streamed] tells whether it is a
    SIPStreamedConnection. *)
Record Transport := Session {
  tp_reliable : bool;
  tp_endpoint : bool;
  tp_streamed : bool;
  tp_local : IPAddress;
  tp_remote : IPAddress;
  tp_identifier : Z;
  tp_lastReadCount : Z
}.

(** ** State *)

Inductive TransactionType := InviteClient | InviteServer | NonInviteServer | NonInviteClient.

#[export] Instance transaction_type_eq_dec : EqDecision TransactionType.
Proof. solve_decision. Defined.

Abbreviation msgref := nat.

(** The members of SIPFsm and of the four state machines; each machine uses its
    own. *)
Record SIPFsm := Fsm {
  f_type : TransactionType;
  f_pRequest : option msgref;
  f_timerProps : SIPTransactionTimers;
  f_timers : gmap Timer Z;
  f_timerAValue : Z;
  f_pAck : option msgref;
  f_timerEValue : Z;
  f_timerEMultiplier : Z;
  f_timerGValue : Z;
  f_pResponse : option msgref;
  f_transactionId : str;
  f_queuedMsg : option msgref;
  f_queuedTransport : option Transport;
  f_queuedRequestCounter : Z
}.

#[export] Instance settable_fsm : Settable SIPFsm := fun f =>
  Fsm (f_type f) (f_pRequest f) (f_timerProps f) (f_timers f) (f_timerAValue f) (f_pAck f)
    (f_timerEValue f) (f_timerEMultiplier f) (f_timerGValue f) (f_pResponse f) (f_transactionId f)
    (f_queuedMsg f) (f_queuedTransport f) (f_queuedRequestCounter f).

(** The constructors of SIPIct, SIPNict, SIPIst and SIPNist. *)
Definition newFsm (type : TransactionType) (props : SIPTransactionTimers) : SIPFsm :=
  Fsm type None props ∅ 0 None 0 0 0 None [] None None 0.

Definition TRN_STATE_IDLE : Z := 0.
Definition TRN_STATE_CHILD : Z := 252.
Definition TRN_STATE_TERMINATED : Z := 255.

(** The callbacks are present or not. *)
Record SIPTransaction := Trn {
  t_id : str;
  t_fsm : SIPFsm;
  t_transport : option Transport;
  t_transportService : bool;
  t_state : Z;
  t_localAddress : IPAddress;
  t_remoteAddress : IPAddress;
  t_sendAddress : IPAddress;
  t_dialogTarget : IPAddress;
  t_pInitialRequest : option msgref;
  t_hasTerminated : bool;
  t_hasSent2xx : bool;
  t_responseTU : bool;
  t_terminateCallback : bool;
  t_responseCallback : bool
}.

#[export] Instance settable_trn : Settable SIPTransaction := fun t =>
  Trn (t_id t) (t_fsm t) (t_transport t) (t_transportService t) (t_state t) (t_localAddress t)
    (t_remoteAddress t) (t_sendAddress t) (t_dialogTarget t) (t_pInitialRequest t)
    (t_hasTerminated t) (t_hasSent2xx t) (t_responseTU t) (t_terminateCallback t)
    (t_responseCallback t).

(** A transaction with its machine attached ([onAttachFSM] of the pools) and its
    identifier set. *)
Definition newTransaction (id : str) (type : TransactionType) (props : SIPTransactionTimers)
    : SIPTransaction :=
  Trn id (newFsm type props) None false TRN_STATE_IDLE noAddress noAddress noAddress noAddress
    None false false false false false.

(** A transaction of the store: the parent or the branch of a To tag.
    [isParent()] tells which. *)
Inductive who :=
| Parent
| Branch (tag : str).

#[export] Instance who_eq_dec : EqDecision who.
Proof. solve_decision. Defined.

Definition isParent (self : who) : bool := match self with Parent => true | Branch _ => false end.

(** Calls that leave the component. *)
Inductive event :=
| EvWrite (tp : Transport) (m : SIPMessage) (dest : option (str * Z))
| EvKeepAlive (tp : Transport)
| EvCreateTransport (transport : str)
| EvResolve (hostPort : str)
| EvSetPool (tp : Transport)
| EvSetCurrentTransaction (tp : Transport) (id : str)
| EvStop (tp : Transport)
| EvResponseTU (self : who) (error : option string) (m : option SIPMessage) (tp : option Transport)
| EvTerminateCallback
| EvResponseCallback (self : who) (m : SIPMessage) (tp : option Transport)
| EvThrottle (m : SIPMessage) (tp : Transport)
| EvRequestHandler (m : SIPMessage) (tp : Transport)
| EvRemoveTransaction (id : str)
| EvBlockIst (id : str)
| EvDispatchSend (m : SIPMessage) (localAddress remoteAddress : IPAddress)
| EvAckOr2xx (m : SIPMessage) (tp : Transport).

(** [w_parentLocks] tells whether the children's weak pointer to the parent can
    still be locked, [w_inPool] whether the pool holds the parent. *)
Record World := mkWorld {
  w_parent : SIPTransaction;
  w_branches : gmap str SIPTransaction;
  w_parentLocks : bool;
  w_inPool : bool;
  w_poolTimers : SIPTransactionTimers;
  w_msgs : gmap nat SIPMessage;
  w_trace : list event
}.

#[export] Instance settable_world : Settable World := fun w =>
  mkWorld (w_parent w) (w_branches w) (w_parentLocks w) (w_inPool w) (w_poolTimers w) (w_msgs w)
    (w_trace w).

(** What the component is told from outside. *)
Class Env := {
  (** [writeKeepAlive] of a transport. *)
  env_keepAlive : list event -> Transport -> bool;
  (** [SIPTransportService::createClientTransport]. *)
  env_createTransport : list event -> SIPMessage -> IPAddress -> IPAddress -> str -> str -> option Transport;
  (** [IPAddress::fromV4IPPort], a host name resolution. *)
  env_fromV4IPPort : list event -> str -> IPAddress;
  (** [getCurrentTransactionId] of a transport. *)
  env_currentTransaction : list event -> Transport -> str;
  (** The throttle callback of the dispatcher, when there is one. *)
  env_throttle : option (list event -> SIPMessage -> Transport -> Z);
  (** Whether the dispatcher has a request handler. *)
  env_requestHandler : bool
}.

(** ** The monad *)

Definition M (A : Type) : Type := World -> outcome A * World.

#[export] Instance M_ret : MRet M := fun A a w => (Ret a, w).
#[export] Instance M_bind : MBind M := fun A B f c w =>
  match c w with
  | (Ret a, w') => f a w'
  | (Throw e, w') => (Throw e, w')
  | (UB, w') => (UB, w')
  end.

Definition throw {A} (e : exn) : M A := fun w => (Throw e, w).
Definition undefined {A} : M A := fun w => (UB, w).
Definition skip : M unit := mret tt.
Definition lift {A} (o : outcome A) : M A := fun w => (o, w).
Definition get : M World := fun w => (Ret w, w).
Definition emit (e : event) : M unit := fun w => (Ret tt, w <| w_trace := e :: w_trace w |>).
Definition when (b : bool) (c : M unit) : M unit := if b then c else skip.

(** A shared pointer that is dereferenced. *)
Definition deref_ptr {A} (p : option A) : M A := match p with Some a => mret a | None => undefined end.

(** The transaction objects. *)
Definition lookup_trn (w : World) (self : who) : option SIPTransaction :=
  match self with Parent => Some (w_parent w) | Branch tag => w_branches w !! tag end.

Definition put_trn (w : World) (self : who) (t : SIPTransaction) : World :=
  match self with
  | Parent => w <| w_parent := t |>
  | Branch tag => w <| w_branches := <[tag := t]> (w_branches w) |>
  end.

Definition trn (self : who) : M SIPTransaction := fun w =>
  match lookup_trn w self with Some t => (Ret t, w) | None => (UB, w) end.

Definition modify (self : who) (f : SIPTransaction -> SIPTransaction) : M unit := fun w =>
  match lookup_trn w self with Some t => (Ret tt, put_trn w self (f t)) | None => (UB, w) end.

Definition fsm (self : who) : M SIPFsm := t ← trn self; mret (t_fsm t).

Definition modify_fsm (self : who) (f : SIPFsm -> SIPFsm) : M unit :=
  modify self (fun t => t <| t_fsm := f (t_fsm t) |>).

(** The messages. *)
Definition load (p : msgref) : M SIPMessage := fun w =>
  match w_msgs w !! p with Some m => (Ret m, w) | None => (UB, w) end.

Definition store (p : msgref) (m : SIPMessage) : M unit := fun w =>
  (Ret tt, w <| w_msgs := <[p := m]> (w_msgs w) |>).

Definition alloc (m : SIPMessage) : M msgref := fun w =>
  let p := infinite_fresh (map fst (map_to_list (w_msgs w))) in
  (Ret p, w <| w_msgs := <[p := m]> (w_msgs w) |>).

(** The pool's and the parent's maps. *)
Definition leave_pool : M unit := fun w => (Ret tt, w <| w_inPool := false |>).
Definition add_branch (tag : str) (t : SIPTransaction) : M unit := fun w =>
  (Ret tt, w <| w_branches := <[tag := t]> (w_branches w) |>).

(** A predicate of SIPMessage on the heap; it updates the message's caches. *)
Definition classify (f : SIPMessage -> outcome (tribool * SIPMessage)) (p : msgref) : M tribool :=
  m ← load p;
  '(r, m') ← lift (f m);
  store p m';;
  mret r.

(** The order of the branch map. *)
Definition tag_order (a b : str) : Prop := str_leb a b = true.
#[export] Instance tag_order_dec a b : Decision (tag_order a b).
Proof. unfold tag_order. apply _. Defined.

Section transaction.
Context {boost : BoostString} {env : Env}.

Definition msg_isRequest (p : msgref) : M tribool := classify (fun m => isRequest m None) p.
Definition msg_isRequestOf (p : msgref) (method : str) : M tribool :=
  classify (fun m => isRequest m (Some method)) p.
Definition msg_isResponse (p : msgref) : M tribool := classify isResponse p.
Definition msg_is1xx (p : msgref) : M bool := r ← classify (fun m => is1xx m 0) p; mret (tb_true r).
Definition msg_is2xx (p : msgref) : M bool := r ← classify (fun m => is2xx m 0) p; mret (tb_true r).
Definition msg_isErrorResponse (p : msgref) : M bool := r ← classify isErrorResponse p; mret (tb_true r).

(** [pRequest->createResponse(code, reason)] as a new message. *)
Definition msg_createResponse (p : msgref) (code : Z) (reason : str) : M msgref :=
  m ← load p;
  '(response, m') ← lift (createResponse m code reason [] []);
  store p m';;
  alloc response.

(** [SIPMessage::getToTag]. *)
Definition getToTag (m : SIPMessage) : outcome str :=
  let to := hdrGet m HDR_TO 0 in
  if (length to =? 0)%nat then Ret [] else SIPFrom.getTag to.

(** ** SIPFsm *)

Definition start_timer (self : who) (tm : Timer) (ms : Z) : M unit :=
  modify_fsm self (fun f => f <| f_timers := <[tm := ms]> (f_timers f) |>).
Definition cancel_timer (self : who) (tm : Timer) : M unit :=
  modify_fsm self (fun f => f <| f_timers := delete tm (f_timers f) |>).

(** [startTimerA(expire)] ... [startTimerK(expire)]: 0 stands for the default. *)
Definition start_default (self : who) (tm : Timer) (prop : SIPTransactionTimers -> Z) (expire : Z) : M unit :=
  cancel_timer self tm;;
  f ← fsm self;
  start_timer self tm (if expire =? 0 then prop (f_timerProps f) else expire).

Definition startTimerA (self : who) := start_default self TimerA timerA.
Definition startTimerB (self : who) := start_default self TimerB timerB.
Definition startTimerC (self : who) := start_default self TimerC timerC.
Definition startTimerD (self : who) := start_default self TimerD timerD.
Definition startTimerE (self : who) := start_default self TimerE timerE.
Definition startTimerF (self : who) := start_default self TimerF timerF.
Definition startTimerG (self : who) := start_default self TimerG timerG.
Definition startTimerH (self : who) := start_default self TimerH timerH.
Definition startTimerI (self : who) := start_default self TimerI timerI.
Definition startTimerJ (self : who) := start_default self TimerJ timerJ.
Definition startTimerK (self : who) := start_default self TimerK timerK.

Definition start_exact (self : who) (tm : Timer) (expire : Z) : M unit :=
  cancel_timer self tm;; start_timer self tm expire.
Definition startTimerClientExpires (self : who) := start_exact self TimerClientExpires.
Definition startTimerMaxLifetime (self : who) := start_exact self TimerMaxLifetime.
Definition startRequestThrottleTimer (self : who) := start_exact self TimerRequestThrottle.

Fixpoint cancel_each (self : who) (tms : list Timer) : M unit :=
  match tms with
  | [] => skip
  | tm :: tms => cancel_timer self tm;; cancel_each self tms
  end.
Definition cancelAllTimers (self : who) : M unit := cancel_each self all_timers.

(** [onTerminate]: only the invite server machine overrides it; its pool always
    has a dispatcher. *)
Definition onTerminate (self : who) : M unit :=
  f ← fsm self;
  match f_type f with
  | InviteServer => when (negb (length (f_transactionId f) =? 0)%nat) (emit (EvBlockIst (f_transactionId f)))
  | _ => skip
  end.

(** ** SIPTransaction *)

Definition getState (self : who) : M Z := t ← trn self; mret (t_state t).

Definition setState (self : who) (state : Z) : M unit :=
  t ← trn self;
  if t_state t =? state then skip
  else if negb (TRN_STATE_TERMINATED =? t_state t) then modify self (fun t => t <| t_state := state |>)
  else throw (SIPException "Invalid Transaction State").

(** [getParent()]: null for a parent, and for a child whose parent is gone. *)
Definition getParent (self : who) : M (option who) :=
  w ← get;
  mret (match self with
        | Parent => None
        | Branch _ => if w_parentLocks w then Some Parent else None
        end).

Definition with_parent (pParent : option who) (c : who -> M unit) : M unit :=
  match pParent with Some p => c p | None => skip end.

(** [_branches] of a transaction: only the parent has any. *)
Definition branches_of (self : who) (w : World) : gmap str SIPTransaction :=
  match self with Parent => w_branches w | Branch _ => ∅ end.

Definition getBranchCount (self : who) : M nat := w ← get; mret (size (branches_of self w)).

Definition is_active (t : SIPTransaction) : bool := negb (t_state t =? TRN_STATE_TERMINATED).
Definition getActiveBranchCount (self : who) : M nat :=
  w ← get;
  mret (length (filter (fun kt => is_active (snd kt) = true) (map_to_list (branches_of self w)))).

(** [isCompleted()] of the four machines. *)
Definition completed_state (type : TransactionType) : Z :=
  match type with NonInviteServer => 4 | _ => 3 end.
Definition isCompleted (t : SIPTransaction) : bool := completed_state (f_type (t_fsm t)) <=? t_state t.

Definition allBranchesCompleted (self : who) : M bool :=
  w ← get;
  mret (forallb (fun kt => isCompleted (snd kt)) (map_to_list (branches_of self w))).
Definition allBranchesTerminated (self : who) : M bool :=
  w ← get;
  mret (forallb (fun kt => negb (is_active (snd kt))) (map_to_list (branches_of self w))).

(** [terminate()] up to the part for parents; the result tells whether there was
    anything to do. *)
Definition terminate_self (self : who) : M bool :=
  t ← trn self;
  if t_hasTerminated t then mret false
  else
    setState self TRN_STATE_TERMINATED;;
    cancelAllTimers self;;
    onTerminate self;;
    modify self (fun t => t <| t_hasTerminated := true |>);;
    mret true.

(** The branches in the order of the map. *)
Definition branch_tags (w : World) : list str :=
  merge_sort tag_order (map fst (map_to_list (w_branches w))).

Fixpoint terminate_each (tags : list str) : M unit :=
  match tags with
  | [] => skip
  | tag :: tags => _ ← terminate_self (Branch tag); terminate_each tags
  end.

Definition terminate (self : who) : M unit :=
  done ← terminate_self self;
  when (done && isParent self)
    (w ← get;
     terminate_each (branch_tags w);;
     t ← trn Parent;
     when (t_terminateCallback t) (emit EvTerminateCallback);;
     emit (EvRemoveTransaction (t_id t));;
     leave_pool).

(** [if (_responseTU && TRN_STATE_TERMINATED != _state) _responseTU(...)]. *)
Definition report (self : who) (error : option string) (pMsg : option msgref) (tp : option Transport) : M unit :=
  t ← trn self;
  when (t_responseTU t && negb (TRN_STATE_TERMINATED =? t_state t))
    (match pMsg with
     | Some p => m ← load p; emit (EvResponseTU self error (Some m) tp)
     | None => emit (EvResponseTU self error None tp)
     end).

Definition informTU (self : who) (pMsg : msgref) (pTransport : Transport) : M unit :=
  report self None (Some pMsg) (Some pTransport).

(** The child that [findBranch] creates: [SIPTransaction(shared_from_this())],
    [onAttachFSM], and the members it then sets. *)
Definition newBranch (w : World) : SIPTransaction :=
  let p := w_parent w in
  let t := newTransaction (t_id p) (f_type (t_fsm p)) (w_poolTimers w) in
  t <| t_fsm := (t_fsm t) <| f_pRequest := f_pRequest (t_fsm p) |> |>
    <| t_pInitialRequest := t_pInitialRequest p |>
    <| t_responseCallback := t_responseCallback p |>
    <| t_responseTU := t_responseTU p |>.

Definition findBranch (self : who) (pRequest : msgref) : M (option who) :=
  match self with
  | Branch _ => mret None
  | Parent =>
      m ← load pRequest;
      branch ← lift (getToTag m);
      if (length branch =? 0)%nat then mret None
      else
        w ← get;
        match w_branches w !! branch with
        | Some _ => mret (Some (Branch branch))
        | None =>
            add_branch branch (newBranch w);;
            mret (Some (Branch branch))
        end
  end.

(** [transport()->writeMessage(...)] as the state machines call it. *)
Definition write_to (reliable : bool) (tp : Transport) (pMsg : msgref) (dest : IPAddress) : M unit :=
  m ← load pMsg;
  emit (EvWrite tp m (if reliable then None else Some (ip_text dest, ip_port dest))).

(** [handleTimeoutICT] and [handleTimeoutNICT]: they differ in the text of the
    error. *)
Definition handleTimeout (self : who) (error : string) : M unit :=
  t ← trn self;
  match t_transport t, t_pInitialRequest t with
  | Some tp, Some pInitialRequest =>
      pResponse ← msg_createResponse pInitialRequest 408 [];
      report self (Some error) (Some pResponse) (Some tp)
  | _, _ => report self (Some error) None None
  end;;
  match t_transport t with
  | Some tp => when (tp_reliable tp && tp_streamed tp) (emit (EvStop tp))
  | None => skip
  end.

(** [SIPFsm::handleDelayedTerminate]. *)
Definition handleDelayedTerminate (self : who) : M unit :=
  pParent ← getParent self;
  terminate self;;
  terminate self;;
  match pParent with
  | Some p =>
      activeBranches ← getActiveBranchCount p;
      when (activeBranches =? 0)%nat (terminate p)
  | None => if isParent self then skip else undefined
  end.

End transaction.
