(* ===== verification/ClientFsm.v ===== *)
(** * The client state machines

    src/sipfsm/SIPIct.cpp and SIPNict.cpp: the INVITE and the non-INVITE client
    transactions, one definition per handler.  [self] is the transaction that
    owns the machine; the machine of a transaction that no longer exists does
    nothing and is not modelled. *)

From S2P Require Import Prelude CoreStrings SipHeaders SipMessage SipResponse SipLines.
From S2P Require Import TransactionTimers Transaction.
Open Scope Z_scope.

Definition HDR_EXPIRES : str := #"Expires".
Definition HDR_CONTENT_TYPE : str := #"Content-Type".

(** The properties of [OSS::PropertyMap]. *)
Definition PROP_TransactionTimeout : str := #"transaction-timeout".
Definition PROP_ReliableTransportTransactionTimeout : str := #"reliable-transport-transaction-timeout".
Definition PROP_TargetTransport : str := #"target-transport".
Definition PROP_TransportId : str := #"transport-id".

(** [TRYING], [PROCEEDING] and [COMPLETED] have the same values in both. *)
Definition TRYING : Z := 1.
Definition PROCEEDING : Z := 2.
Definition COMPLETED : Z := 3.

Section client.
Context {boost : BoostString} {lexical : BoostLexical} {env : Env}.

(** [getProperty(name, s) && !s.empty()]. *)
Definition property_value (m : SIPMessage) (name : str) : option str :=
  match getProperty m name with
  | Some s => if (length s =? 0)%nat then None else Some s
  | None => None
  end.

(** The first retransmission interval: a 64th of the configured timeout, or the
    default. *)
Definition first_interval (m : SIPMessage) (def : Z) : Z :=
  match property_value m PROP_TransactionTimeout with
  | Some sTimeout => string_to_number (cstr sTimeout) / 64
  | None => def
  end.

(** [if (pParent) { pParent->fsm()->cancelTimerX(); ... }]. *)
Definition cancel_both (self : who) (pParent : option who) (tms : list Timer) : M unit :=
  cancel_each self tms;;
  with_parent pParent (fun p => cancel_each p tms).

(** Retransmit [_pRequest] to the remote address. *)
Definition write_request (self : who) : M unit :=
  t ← trn self;
  tp ← deref_ptr (t_transport t);
  p ← deref_ptr (f_pRequest (t_fsm t));
  write_to (tp_reliable tp) tp p (t_remoteAddress t).
End client.

Module SIPIct.
Section ict.
Context {boost : BoostString} {lexical : BoostLexical} {env : Env}.

Definition RELIABLE_TIMER_B_VALUE : Z := 5000.

Definition onSendMessage (self : who) (pMsg : msgref) : M bool :=
  state ← getState self;
  when (state =? TRN_STATE_IDLE)
    (startTimerMaxLifetime self 300000;;
     modify_fsm self (fun f => f <| f_pRequest := Some pMsg |>);;
     setState self TRYING;;
     m ← load pMsg;
     modify_fsm self (fun f => f <| f_timerAValue := first_interval m (timerA (f_timerProps f)) |>);;
     t ← trn self;
     tp ← deref_ptr (t_transport t);
     let v := f_timerAValue (t_fsm t) in
     (if negb (tp_reliable tp) then startTimerA self v;; startTimerB self (u64 (v * 64))
      else startTimerB self RELIABLE_TIMER_B_VALUE);;
     let expires := hdrGet m HDR_EXPIRES 0 in
     when (negb (length expires =? 0)%nat)
       (startTimerClientExpires self (u64 (string_to_number (cstr expires) * 1000))));;
  mret true.

(** The new ACK of [handleSendAck]; [None] when the request's start line has no
    blank. *)
Definition make_ack (request response : SIPMessage) : outcome (option SIPMessage) :=
  let ack := assignMessage newMessage request in
  match str_find #" " (m_startLine request) with
  | None => Ret None
  | Some methodPos =>
      let ack := set_startLine ack (#"ACK" ++ cstr (drop methodPos (m_startLine request))) in
      let ack := snd (hdrSet ack HDR_TO (hdrGet response HDR_TO 0)) in
      number ← filled (SIPCSeq.getNumber (hdrGet request HDR_CSEQ 0));
      let ack := snd (hdrSet ack HDR_CSEQ (number ++ #" ACK")) in
      let ack := set_body ack [] in
      let ack := snd (hdrRemove ack HDR_CONTENT_LENGTH) in
      let ack := snd (hdrRemove ack HDR_CONTENT_TYPE) in
      Ret (Some (commitData ack))
  end.

(** [if (!_pAck) { ... }]: the ACK, made once; [None] is the early [return], which
    leaves a copy of the request in [_pAck]. *)
Definition ack_message (self : who) (pMsg : msgref) : M (option msgref) :=
  f ← fsm self;
  match f_pAck f with
  | Some pAck => mret (Some pAck)
  | None =>
      pAck ← alloc newMessage;
      modify_fsm self (fun f => f <| f_pAck := Some pAck |>);;
      pRequest ← deref_ptr (f_pRequest f);
      request ← load pRequest;
      response ← load pMsg;
      store pAck (assignMessage newMessage request);;
      ack ← lift (make_ack request response);
      match ack with
      | Some ack => store pAck ack;; mret (Some pAck)
      | None => mret None
      end
  end.

Definition handleSendAck (self : who) (pMsg : msgref) (pTransport : Transport) (startTimer : bool) : M unit :=
  state ← getState self;
  if state =? TRN_STATE_TERMINATED then skip
  else
    setState self COMPLETED;;
    pAck ← ack_message self pMsg;
    match pAck with
    | None => skip
    | Some pAck =>
        t ← trn self;
        if tp_reliable pTransport then
          write_to true pTransport pAck (t_remoteAddress t);;
          setState self TRN_STATE_TERMINATED
        else
          when startTimer
            (startTimerD self 0;;
             write_to false pTransport pAck (t_remoteAddress t))
    end.

(** A 2xx in the states before COMPLETED. *)
Definition on2xx (self : who) (pParent : option who) (pMsg : msgref) (pTransport : Transport) : M unit :=
  cancel_both self pParent [TimerClientExpires];;
  informTU self pMsg pTransport;;
  setState self TRN_STATE_TERMINATED;;
  with_parent pParent (fun p => setState p TRN_STATE_TERMINATED).

(** An error response in the states before COMPLETED. *)
Definition onError (self : who) (pParent : option who) (pMsg : msgref) (pTransport : Transport) : M unit :=
  cancel_both self pParent [TimerClientExpires];;
  setState self COMPLETED;;
  informTU self pMsg pTransport;;
  handleSendAck self pMsg pTransport true.

(** The [switch] on the state. *)
Definition on_response (self : who) (pParent : option who) (pMsg : msgref) (pTransport : Transport) : M unit :=
  state ← getState self;
  if (state =? TRN_STATE_IDLE) || (state =? TRYING) then
    cancel_both self pParent [TimerA; TimerB];;
    is1xx ← msg_is1xx pMsg;
    if (is1xx : bool) then
      setState self PROCEEDING;;
      with_parent pParent (fun p =>
        s ← getState p; when (s <? PROCEEDING) (setState p PROCEEDING));;
      informTU self pMsg pTransport
    else
      is2xx ← msg_is2xx pMsg;
      if (is2xx : bool) then on2xx self pParent pMsg pTransport
      else
        isError ← msg_isErrorResponse pMsg;
        when isError (onError self pParent pMsg pTransport)
  else if state =? PROCEEDING then
    is1xx ← msg_is1xx pMsg;
    if (is1xx : bool) then informTU self pMsg pTransport
    else
      is2xx ← msg_is2xx pMsg;
      if (is2xx : bool) then on2xx self pParent pMsg pTransport
      else
        isError ← msg_isErrorResponse pMsg;
        when isError (onError self pParent pMsg pTransport)
  else
    when (state =? COMPLETED)
      (isError ← msg_isErrorResponse pMsg;
       when isError (handleSendAck self pMsg pTransport false)).

(** [!isResponse() || state == TERMINATED] is a tribool: true when the second
    operand is, or when the first is. *)
Definition onReceivedMessage (self : who) (pMsg : msgref) (pTransport : Transport) : M unit :=
  r ← msg_isResponse pMsg;
  state ← getState self;
  if tb_true (tb_not r) || (state =? TRN_STATE_TERMINATED) then skip
  else
    pParent ← getParent self;
    on_response self pParent pMsg pTransport;;
    state ← getState self;
    when (state =? TRN_STATE_TERMINATED)
      (terminate self;;
       with_parent pParent (fun p =>
         active ← getActiveBranchCount p;
         when (active =? 0)%nat (terminate p))).

(** Timer A. *)
Definition handleRetransmitInvite (self : who) : M unit :=
  state ← getState self;
  when (state =? TRYING)
    (write_request self;;
     modify_fsm self (fun f => f <| f_timerAValue := u64 (f_timerAValue f * 2) |>);;
     f ← fsm self;
     startTimerA self (f_timerAValue f)).

(** Timer B. *)
Definition handleInviteTimeout (self : who) : M unit :=
  cancel_timer self TimerA;;
  cancel_timer self TimerClientExpires;;
  handleTimeout self "ICT Timeout";;
  terminate self.

(** The CANCEL of [handleExpiresTimeout]. *)
Definition make_cancel (request : SIPMessage) : outcome SIPMessage :=
  let m := copyMessage request in
  let m := set_startLine m
    (SIPRequestLine.member_set SIPRequestLine.setMethod (m_startLine m) #"CANCEL") in
  let m := setBody m [] in
  let m := snd (hdrSet m HDR_CONTENT_LENGTH #"0") in
  let cseq := hdrGet m HDR_CSEQ 0 in
  r ← SIPCSeq.setMethod cseq #"CANCEL";
  let m := snd (hdrSet m HDR_CSEQ (default cseq r)) in
  Ret (commitData m).

(** The client expiry timer: no change of state. *)
Definition handleExpiresTimeout (self : who) : M unit :=
  t ← trn self;
  pRequest ← deref_ptr (f_pRequest (t_fsm t));
  request ← load pRequest;
  cancel ← lift (make_cancel request);
  emit (EvDispatchSend cancel (t_localAddress t) (t_remoteAddress t)).

End ict.
End SIPIct.

Module SIPNict.
Section nict.
Context {boost : BoostString} {lexical : BoostLexical} {env : Env}.

Definition RELIABLE_TIMER_F_VALUE : Z := 5000.

Definition onSendMessage (self : who) (pMsg : msgref) : M bool :=
  state ← getState self;
  if state =? TRN_STATE_IDLE then
    startTimerMaxLifetime self 300000;;
    modify_fsm self (fun f => f <| f_pRequest := Some pMsg |>);;
    setState self TRYING;;
    m ← load pMsg;
    modify_fsm self (fun f => f <| f_timerEValue := first_interval m (timerE (f_timerProps f)) |>);;
    t ← trn self;
    tp ← deref_ptr (t_transport t);
    let v := f_timerEValue (t_fsm t) in
    (if negb (tp_reliable tp) then startTimerE self v;; startTimerF self (u64 (v * 64))
     else
       startTimerF self
         (match property_value m PROP_ReliableTransportTransactionTimeout with
          | Some customTimeout => string_to_number (cstr customTimeout)
          | None => RELIABLE_TIMER_F_VALUE
          end));;
    mret true
  else mret false.

(** A final response: which timers stop, and what becomes of the parent, before
    the state changes. *)
Definition stop_timers (self : who) (pParent : option who) (is2xx : bool) : M unit :=
  let stop p := cancel_timer p TimerE;; cancel_timer p TimerF in
  if isParent self && negb is2xx then stop self
  else if negb (isParent self) && is2xx then
    stop self;;
    with_parent pParent (fun p => stop p;; setState p COMPLETED)
  else when (negb (isParent self) && negb is2xx)
    (stop self;;
     with_parent pParent (fun p =>
       n ← getBranchCount p;
       when (n =? 1)%nat (stop p;; setState p COMPLETED))).

Definition onFinal (self : who) (pParent : option who) (is2xx : bool) (pMsg : msgref) (pTransport : Transport) : M unit :=
  stop_timers self pParent is2xx;;
  setState self COMPLETED;;
  informTU self pMsg pTransport;;
  if negb (tp_reliable pTransport) then startTimerK self 0
  else
    setState self TRN_STATE_TERMINATED;;
    all ← allBranchesCompleted self;
    when (is2xx || all) (with_parent pParent (fun p => setState p TRN_STATE_TERMINATED)).

Definition on_response (self : who) (pParent : option who) (is2xx : bool) (pMsg : msgref) (pTransport : Transport) : M unit :=
  state ← getState self;
  if (state =? TRN_STATE_IDLE) || (state =? TRYING) then
    is1xx ← msg_is1xx pMsg;
    if (is1xx : bool) then
      setState self PROCEEDING;;
      when (negb (isParent self))
        (with_parent pParent (fun p =>
           s ← getState p; when (s <? PROCEEDING) (setState p PROCEEDING)));;
      informTU self pMsg pTransport
    else onFinal self pParent is2xx pMsg pTransport
  else when (state =? PROCEEDING)
    (is1xx ← msg_is1xx pMsg;
     if (is1xx : bool) then informTU self pMsg pTransport
     else onFinal self pParent is2xx pMsg pTransport).

Definition onReceivedMessage (self : who) (pMsg : msgref) (pTransport : Transport) : M unit :=
  state ← getState self;
  r ← msg_isResponse pMsg;
  if tb_true (tb_not r) || (state =? TRN_STATE_TERMINATED) || (state =? COMPLETED) then skip
  else
    is2xx ← msg_is2xx pMsg;
    pParent ← getParent self;
    on_response self pParent is2xx pMsg pTransport;;
    state ← getState self;
    when (state =? TRN_STATE_TERMINATED) (terminate self);;
    with_parent pParent (fun p =>
      s ← getState p; when (s =? TRN_STATE_TERMINATED) (terminate p)).

(** The next interval of timer E. *)
Definition next_interval (f : SIPFsm) (state : Z) : Z :=
  let props := f_timerProps f in
  if negb (state =? PROCEEDING) then
    if timerT2 props <? u64 (f_timerEValue f * f_timerEMultiplier f) then timerT2 props
    else u64 (timerT1 props * f_timerEMultiplier f)
  else timerT2 props.

(** Timer E. *)
Definition handleRetransmitRequest (self : who) : M unit :=
  state ← getState self;
  if state =? TRN_STATE_TERMINATED then skip
  else
    when (state <=? PROCEEDING)
      (write_request self;;
       modify_fsm self (fun f =>
         f <| f_timerEMultiplier := if f_timerEMultiplier f =? 0 then 2 else 4 |>);;
       state ← getState self;
       modify_fsm self (fun f => f <| f_timerEValue := next_interval f state |>);;
       f ← fsm self;
       startTimerE self (f_timerEValue f)).

(** Timer F. *)
Definition handleRequestTimeout (self : who) : M unit :=
  state ← getState self;
  if (state =? TRN_STATE_TERMINATED) || (state =? COMPLETED) then skip
  else
    cancel_timer self TimerK;;
    cancel_timer self TimerE;;
    cancel_timer self TimerF;;
    handleTimeout self "NICT Timeout";;
    terminate self.

End nict.
End SIPNict.
