(* ===== verification/ServerFsm.v ===== *)
(** * The server state machines and the message paths

    src/sipfsm/SIPIst.cpp and SIPNist.cpp, and the operations of
    src/sipfsm/SIPTransaction.cpp that send and receive messages through the
    machine of a transaction. *)

From S2P Require Import Prelude CoreStrings SipHeaders SipMessage SipResponse TransactionTimers.
From S2P Require Import Transaction ClientFsm.
Open Scope Z_scope.

Module SIPIst.
Definition QUEUED : Z := 1.
Definition PROCEEDING : Z := 2.
Definition COMPLETED : Z := 3.
Definition CONFIRMED : Z := 4.
Definition IST_QUEUE_RETRY_MAX : Z := 3.

Section ist.
Context {boost : BoostString} {env : Env}.

Definition onSendMessage (self : who) (pMsg : msgref) : M bool :=
  r ← msg_isResponse pMsg;
  if tb_true (tb_not r) then mret false
  else
    modify_fsm self (fun f => f <| f_pResponse := Some pMsg |>);;
    state ← getState self;
    when (state <=? PROCEEDING)
      (is1xx ← msg_is1xx pMsg;
       if (is1xx : bool) then skip
       else
         is2xx ← msg_is2xx pMsg;
         if (is2xx : bool) then
           modify self (fun t => t <| t_hasSent2xx := true |>);;
           setState self TRN_STATE_TERMINATED;;
           terminate self
         else
           setState self COMPLETED;;
           t ← trn self;
           tp ← deref_ptr (t_transport t);
           when (negb (tp_reliable tp))
             (modify_fsm self (fun f => f <| f_timerGValue := timerG (f_timerProps f) |>);;
              startTimerG self 0);;
           startTimerH self 0);;
    mret true.

(** Send [_pResponse] again. *)
Definition write_response (self : who) (pResponse : msgref) : M unit :=
  t ← trn self;
  tp ← deref_ptr (t_transport t);
  write_to (tp_reliable tp) tp pResponse (t_sendAddress t).

(** Timer G. *)
Definition handleRetransmitResponse (self : who) : M unit :=
  t ← trn self;
  match f_pResponse (t_fsm t) with
  | Some pResponse =>
      when (t_state t =? COMPLETED)
        (write_response self pResponse;;
         state ← getState self;
         when (negb (state =? TRN_STATE_TERMINATED))
           (modify_fsm self (fun f =>
              f <| f_timerGValue := if timerT2 (f_timerProps f) <? u64 (f_timerGValue f * 2)
                                    then timerT2 (f_timerProps f) else u64 (f_timerGValue f * 2) |>);;
            f ← fsm self;
            startTimerG self (f_timerGValue f)))
  | None => skip
  end.

(** Timer H. *)
Definition handleACKTimeout (self : who) : M unit := terminate self.

End ist.
End SIPIst.

Module SIPNist.
Definition QUEUED : Z := 1.
Definition TRYING : Z := 2.
Definition PROCEEDING : Z := 3.
Definition COMPLETED : Z := 4.
Definition NIST_QUEUE_RETRY_MAX : Z := 3.

Section nist.
Context {boost : BoostString} {env : Env}.

Definition onSendMessage (self : who) (pMsg : msgref) : M bool :=
  r ← msg_isResponse pMsg;
  if tb_true (tb_not r) then mret false
  else
    modify_fsm self (fun f => f <| f_pResponse := Some pMsg |>);;
    state ← getState self;
    when (state <=? PROCEEDING)
      (is1xx ← msg_is1xx pMsg;
       if (is1xx : bool) then setState self PROCEEDING
       else
         t ← trn self;
         tp ← deref_ptr (t_transport t);
         if negb (tp_reliable tp) then startTimerJ self 0;; setState self COMPLETED
         else terminate self);;
    mret true.

End nist.
End SIPNist.

Section paths.
Context {boost : BoostString} {lexical : BoostLexical} {env : Env}.

(** [_fsm->onSendMessage(pMsg)]. *)
Definition onSendMessage (self : who) (pMsg : msgref) : M bool :=
  f ← fsm self;
  match f_type f with
  | InviteClient => SIPIct.onSendMessage self pMsg
  | InviteServer => SIPIst.onSendMessage self pMsg
  | NonInviteClient => SIPNict.onSendMessage self pMsg
  | NonInviteServer => SIPNist.onSendMessage self pMsg
  end.

(** [writeMessage(pMsg)], and [writeMessage(pMsg, remoteAddress)] when there is an
    address. *)
Definition writeMessage (self : who) (pMsg : msgref) (remoteAddress : option IPAddress) : M unit :=
  t ← trn self;
  match t_transport t with
  | None => terminate self
  | Some tp =>
      w ← get;
      when (match remoteAddress with
            | None => negb (tp_endpoint tp) && tp_reliable tp &&
                      (length (env_currentTransaction (w_trace w) tp) =? 0)%nat
            | Some _ => false
            end)
        (emit (EvSetCurrentTransaction tp (t_id t)));;
      ok ← onSendMessage self pMsg;
      if (ok : bool) then
        t ← trn self;
        tp ← deref_ptr (t_transport t);
        m ← load pMsg;
        emit (EvWrite tp m ((fun a => (ip_text a, ip_port a)) <$> remoteAddress))
      else terminate self
  end.

(** [_transport = service->createClientTransport(...)]. *)
Definition create_transport (self : who) (pMsg : msgref) (localAddress remoteAddress : IPAddress)
    (transport transportId : str) : M unit :=
  m ← load pMsg;
  w ← get;
  emit (EvCreateTransport transport);;
  modify self (fun t => t <| t_transport :=
    env_createTransport (w_trace w) m localAddress remoteAddress transport transportId |>).

(** The same, telling the new transport its pool. *)
Definition connect (self : who) (pMsg : msgref) (localAddress remoteAddress : IPAddress)
    (transport transportId : str) : M unit :=
  create_transport self pMsg localAddress remoteAddress transport transportId;;
  t ← trn self;
  match t_transport t with Some tp => emit (EvSetPool tp) | None => skip end.

(** The transport a request is sent through. *)
Definition ensure_transport (self : who) (pRequest : msgref) (localAddress remoteAddress : IPAddress) : M unit :=
  t ← trn self;
  match t_transport t with
  | Some _ => skip
  | None =>
      if negb (t_transportService t) then
        terminate self;; throw (SIPException "Transport Not Ready!")
      else
        m ← load pRequest;
        match getProperty m PROP_TargetTransport with
        | Some transport =>
            connect self pRequest localAddress remoteAddress transport
              (default [] (getProperty m PROP_TransportId))
        | None =>
            transport ← lift (msgGetTopViaTransport m);
            match transport with
            | Some transport => connect self pRequest localAddress remoteAddress transport []
            | None => skip
            end
        end
  end.

Definition sendRequest (self : who) (pRequest : msgref) (localAddress remoteAddress : IPAddress)
    (callback terminateCallback : bool) : M unit :=
  r ← msg_isRequest pRequest;
  if tb_true (tb_not r) then
    terminate self;; throw (SIPException "Sending a RESPONSE using sendRequest() is illegal!")
  else
    modify self (fun t => t
      <| t_pInitialRequest := match t_pInitialRequest t with Some p => Some p | None => Some pRequest end |>
      <| t_responseTU := t_responseTU t || callback |>
      <| t_terminateCallback := t_terminateCallback t || terminateCallback |>
      <| t_localAddress := if ip_port (t_localAddress t) =? 0 then localAddress else t_localAddress t |>
      <| t_remoteAddress := if ip_port (t_remoteAddress t) =? 0 then remoteAddress else t_remoteAddress t |>);;
    ensure_transport self pRequest localAddress remoteAddress;;
    t ← trn self;
    match t_transport t with
    | None =>
        when (t_responseTU t)
          (pResponse ← msg_createResponse pRequest 408 #"Transport Creation Error";
           m ← load pResponse;
           emit (EvResponseTU self (Some "Transport Creation Error"%string) (Some m) None));;
        terminate self
    | Some tp =>
        if tp_reliable tp then
          m ← load pRequest;
          store pRequest (setProperty m PROP_TransportId (string_from_number (Z.to_nat (tp_identifier tp))));;
          writeMessage self pRequest None
        else writeMessage self pRequest (Some remoteAddress)
    end.

Definition sendAckFor2xx (self : who) (pAck : msgref) (dialogTarget : IPAddress) : M unit :=
  modify self (fun t => t <| t_dialogTarget :=
    if isValid (t_dialogTarget t) then t_dialogTarget t else dialogTarget |>);;
  t ← trn self;
  tp ← deref_ptr (t_transport t);
  writeMessage self pAck (if tp_reliable tp then None else Some dialogTarget).

(** [SIPVia::msgGetTopViaSentByAddress(pMsg, sentBy)]: the new value of [sentBy]. *)
Definition transport_protocol (transport : str) (p : Protocol) : Protocol :=
  if decide (transport = #"UDP") then UDP
  else if decide (transport = #"TCP") then TCP
  else if decide (transport = #"TLS") then TLS
  else if decide (transport = #"WS") then WS
  else if decide (transport = #"WSS") then WSS
  else if decide (transport = #"SCTP") then SCTP
  else p.

Definition top_via_address (m : SIPMessage) (sentBy : IPAddress) : M IPAddress :=
  match msgGetTopVia m with
  | None => mret sentBy
  | Some via =>
      address ← lift (SIPVia.getSentBy via);
      match address with
      | None => mret sentBy
      | Some address =>
          w ← get;
          emit (EvResolve (cstr address));;
          let a := env_fromV4IPPort (w_trace w) (cstr address) in
          if negb (isValid a) then mret a
          else
            transport ← lift (filled (SIPVia.getTransport via));
            mret (Addr (ip_text a) (ip_any a) (ip_port a) (transport_protocol transport (ip_protocol a)))
      end
  end.

Definition keep_alive (tp : Transport) : M bool :=
  w ← get;
  emit (EvKeepAlive tp);;
  mret (env_keepAlive (w_trace w) tp).

(** A reliable transport that cannot be written to: connect to the sent-by
    address of the top Via instead. *)
Definition reconnect (self : who) (pResponse : msgref) : M unit :=
  m ← load pResponse;
  t ← trn self;
  a ← top_via_address m (t_sendAddress t);
  modify self (fun t => t <| t_sendAddress := a |>);;
  t ← trn self;
  if isValid (t_localAddress t) && isValid a && bool_decide (ip_protocol a = TCP) then
    let a := if ip_port a =? 0 then setPort a 5060 else a in
    modify self (fun t => t <| t_sendAddress := a |>);;
    create_transport self pResponse (t_localAddress t) a #"TCP" [];;
    t ← trn self;
    match t_transport t with
    | None => terminate self
    | Some tp =>
        modify self (fun t => t <| t_localAddress := tp_local tp |>);;
        ok ← keep_alive tp;
        if (ok : bool) then writeMessage self pResponse None else terminate self
    end
  else terminate self.

(** [sendResponse] when this instance handles the response. *)
Definition respond (self : who) (pResponse : msgref) : M unit :=
  t ← trn self;
  m ← load pResponse;
  when (t_responseCallback t) (emit (EvResponseCallback self m (t_transport t)));;
  match t_transport t with
  | None => terminate self
  | Some tp =>
      if tp_reliable tp then
        ok ← keep_alive tp;
        if (ok : bool) then writeMessage self pResponse None else reconnect self pResponse
      else writeMessage self pResponse (Some (t_sendAddress t))
  end.

(** [sendResponse] up to the search for a branch. *)
Definition prepare_response (self : who) (pResponse : msgref) (sendAddress : IPAddress) : M unit :=
  r ← msg_isResponse pResponse;
  if tb_true (tb_not r) then throw (SIPException "Sending a REQUEST using sendResponse() is illegal!")
  else
    pParent ← getParent self;
    t ← trn self;
    match t_transport t, self with
    | None, Parent => throw (SIPException "Transport Not Ready!")
    | _, _ =>
        with_parent pParent (fun p =>
          pt ← trn p;
          modify self (fun t => t <| t_transport := t_transport pt |>));;
        modify self (fun t => t <| t_sendAddress :=
          if ip_port (t_sendAddress t) =? 0 then sendAddress else t_sendAddress t |>);;
        t ← trn self;
        when (negb (isValid (t_localAddress t)))
          (tp ← deref_ptr (t_transport t);
           modify self (fun t => t <| t_localAddress := tp_local tp |>));;
        with_parent pParent (fun p =>
          pt ← trn p;
          modify self (fun t => t
            <| t_transportService := t_transportService t || t_transportService pt |>
            <| t_responseCallback := t_responseCallback t || t_responseCallback pt |>))
    end.

(** A branch has no branches of its own, so the recursion of the source stops
    there. *)
Definition sendResponse (self : who) (pResponse : msgref) (sendAddress : IPAddress) : M unit :=
  prepare_response self pResponse sendAddress;;
  pBranch ← findBranch self pResponse;
  match pBranch with
  | Some b => prepare_response b pResponse sendAddress;; respond b pResponse
  | None => respond self pResponse
  end.

(** The request handed to the dispatcher's handler: the top Via gets the address
    the request came from when it asks for it. *)
Definition stamp_via (m : SIPMessage) (tp : Transport) : outcome SIPMessage :=
  '(top, m) ← msgPopTopVia m;
  let topVia := default [] top in
  '(wants, _) ← SIPVia.getRPort topVia;
  topVia ← (if (wants : bool) then
              v ← SIPVia.setParam topVia #"rport" (string_from_number (Z.to_nat (ip_port (tp_remote tp))));
              SIPVia.setParam v #"received" (ip_text (tp_remote tp))
            else Ret topVia);
  Ret (snd (msgAddVia m topVia)).

Definition call_handler (pMsg : msgref) (pTransport : Transport) : M unit :=
  when env_requestHandler
    (m ← load pMsg;
     m ← lift (stamp_via m pTransport);
     store pMsg m;;
     emit (EvRequestHandler m pTransport)).

(** The throttle callback: the delay, 0 when there is none. *)
Definition throttle (pMsg : msgref) (pTransport : Transport) : M Z :=
  match env_throttle with
  | None => mret 0
  | Some handler =>
      m ← load pMsg;
      w ← get;
      emit (EvThrottle m pTransport);;
      mret (handler (w_trace w) m pTransport)
  end.

(** A queued request is tried again: [true] when it may go on.  Retransmissions
    of the request are dropped, and after three retries it is refused. *)
Definition check_queued (self : who) (queued retryMax : Z) (pMsg : msgref) (pTransport : Transport) : M bool :=
  state ← getState self;
  if state =? queued then
    m ← load pMsg;
    match getProperty m #"queued-request" with
    | None => mret false
    | Some _ =>
        modify_fsm self (fun f => f <| f_queuedRequestCounter := f_queuedRequestCounter f + 1 |>);;
        f ← fsm self;
        if retryMax <? f_queuedRequestCounter f then
          q ← deref_ptr (f_queuedMsg f);
          pResponse ← msg_createResponse q 503 #"Resource/Channels Depleted";
          sendResponse self pResponse (tp_remote pTransport);;
          mret false
        else mret true
    end
  else mret true.

(** The request is kept for later. *)
Definition enqueue (self : who) (queued : Z) (pMsg : msgref) (pTransport : Transport) : M unit :=
  modify_fsm self (fun f => f <| f_queuedMsg := Some pMsg |> <| f_queuedTransport := Some pTransport |>);;
  m ← load pMsg;
  store pMsg (setProperty m #"queued-request" #"1");;
  setState self queued.

(** The first request of a server transaction, or a queued one that is tried
    again; [trying] is sent when the request is queued. *)
Definition accept (self : who) (queued next : Z) (trying : option str) (pMsg : msgref) (pTransport : Transport) : M unit :=
  state ← getState self;
  when (state =? TRN_STATE_IDLE)
    (modify_fsm self (fun f => f <| f_pRequest := Some pMsg |>);;
     startTimerMaxLifetime self 300000);;
  dispatchDelay ← throttle pMsg pTransport;
  if negb (dispatchDelay =? 0) then
    state ← getState self;
    when (state =? TRN_STATE_IDLE)
      (enqueue self queued pMsg pTransport;;
       match trying with
       | Some reason =>
           pResponse ← msg_createResponse pMsg 100 reason;
           sendResponse self pResponse (tp_remote pTransport)
       | None => skip
       end);;
    startRequestThrottleTimer self dispatchDelay
  else
    setState self next;;
    call_handler pMsg pTransport.

Definition ist_onReceivedMessage (self : who) (pMsg : msgref) (pTransport : Transport) : M unit :=
  t ← trn self;
  modify_fsm self (fun f => f <| f_transactionId :=
    if (length (f_transactionId f) =? 0)%nat then t_id t else f_transactionId f |>);;
  ok ← check_queued self SIPIst.QUEUED SIPIst.IST_QUEUE_RETRY_MAX pMsg pTransport;
  if negb ok then skip
  else
    r ← msg_isRequest pMsg;
    state ← getState self;
    if tb_true r && ((state =? TRN_STATE_IDLE) || (state =? SIPIst.QUEUED)) then
      accept self SIPIst.QUEUED SIPIst.PROCEEDING (Some #"Allocating Channel") pMsg pTransport
    else if state =? SIPIst.COMPLETED then
      isAck ← msg_isRequestOf pMsg #"ACK";
      if tb_true isAck then
        cancel_timer self TimerH;;
        t ← trn self;
        tp ← deref_ptr (t_transport t);
        if negb (tp_reliable tp) then
          setState self SIPIst.CONFIRMED;;
          cancel_timer self TimerG;;
          startTimerI self 0
        else
          setState self TRN_STATE_TERMINATED;;
          terminate self
      else
        r ← msg_isRequest pMsg;
        f ← fsm self;
        match f_pResponse f with
        | Some pResponse => when (tb_true r) (SIPIst.write_response self pResponse)
        | None => skip
        end
    else skip.

Definition nist_onReceivedMessage (self : who) (pMsg : msgref) (pTransport : Transport) : M unit :=
  ok ← check_queued self SIPNist.QUEUED SIPNist.NIST_QUEUE_RETRY_MAX pMsg pTransport;
  if negb ok then skip
  else
    state ← getState self;
    if (state =? TRN_STATE_IDLE) || (state =? SIPNist.QUEUED) then
      accept self SIPNist.QUEUED SIPNist.TRYING None pMsg pTransport
    else
      r ← msg_isRequest pMsg;
      f ← fsm self;
      match f_pResponse f with
      | Some pResponse => when (tb_true r) (SIPIst.write_response self pResponse)
      | None => skip
      end.

(** [_fsm->onReceivedMessage(pMsg, pTransport)]. *)
Definition fsm_onReceivedMessage (self : who) (pMsg : msgref) (pTransport : Transport) : M unit :=
  f ← fsm self;
  match f_type f with
  | InviteClient => SIPIct.onReceivedMessage self pMsg pTransport
  | InviteServer => ist_onReceivedMessage self pMsg pTransport
  | NonInviteClient => SIPNict.onReceivedMessage self pMsg pTransport
  | NonInviteServer => nist_onReceivedMessage self pMsg pTransport
  end.

(** The request throttle timer. *)
Definition handleDelayedDispatch (self : who) : M unit :=
  f ← fsm self;
  pMsg ← deref_ptr (f_queuedMsg f);
  pTransport ← deref_ptr (f_queuedTransport f);
  fsm_onReceivedMessage self pMsg pTransport.

(** SIPTransaction::onReceivedMessage up to the choice of the machine. *)
Definition note_message (self : who) (isAck : bool) (pMsg : msgref) (pTransport : Transport) : M unit :=
  r ← msg_isRequest pMsg;
  t ← trn self;
  when (tb_true r && negb isAck && match t_pInitialRequest t with None => true | Some _ => false end)
    (modify self (fun t => t <| t_pInitialRequest := Some pMsg |>));;
  match t_transport t with
  | None => modify self (fun t => t <| t_transport := Some pTransport |>);; emit (EvSetPool pTransport)
  | Some _ => skip
  end;;
  modify self (fun t => t
    <| t_localAddress := if isValid (t_localAddress t) then t_localAddress t else tp_local pTransport |>
    <| t_remoteAddress := if isValid (t_remoteAddress t) then t_remoteAddress t else tp_remote pTransport |>).

(** [onReceivedMessage] of a branch. *)
Definition branch_onReceivedMessage (self : who) (pMsg : msgref) (pTransport : Transport) : M unit :=
  isAck ← msg_isRequestOf pMsg #"ACK";
  note_message self (tb_true isAck) pMsg pTransport;;
  r ← msg_isRequest pMsg;
  when (tb_true (tb_not r) || tb_true isAck) (fsm_onReceivedMessage self pMsg pTransport).

(** SIPTransaction::onReceivedMessage of a parent. *)
Definition onReceivedMessage (pMsg : msgref) (pTransport : Transport) : M unit :=
  isAck ← msg_isRequestOf pMsg #"ACK";
  note_message Parent (tb_true isAck) pMsg pTransport;;
  r ← msg_isRequest pMsg;
  if tb_true r && negb (tb_true isAck) then fsm_onReceivedMessage Parent pMsg pTransport
  else
    when (tb_true (tb_not r) || tb_true isAck)
      (pBranch ← findBranch Parent pMsg;
       match pBranch with
       | Some b => branch_onReceivedMessage b pMsg pTransport
       | None => fsm_onReceivedMessage Parent pMsg pTransport
       end).

(** [handleConnectionError] for a failed write or connect. *)
Definition handleConnectionError (self : who) (message : str) : M unit :=
  t ← trn self;
  match t_transport t, t_pInitialRequest t with
  | Some tp, Some p =>
      pResponse ← msg_createResponse p 480 message;
      fsm_onReceivedMessage self pResponse tp
  | _, _ => skip
  end.

(** The handler of an expired timer; a machine that sets no callback for a timer
    calls an empty function object. *)
Definition handleTimer (self : who) (tm : Timer) : M unit :=
  f ← fsm self;
  match f_type f, tm with
  | InviteClient, TimerA => SIPIct.handleRetransmitInvite self
  | InviteClient, TimerB => SIPIct.handleInviteTimeout self
  | InviteClient, TimerD => handleDelayedTerminate self
  | InviteClient, TimerClientExpires => SIPIct.handleExpiresTimeout self
  | NonInviteClient, TimerE => SIPNict.handleRetransmitRequest self
  | NonInviteClient, TimerF => SIPNict.handleRequestTimeout self
  | NonInviteClient, TimerK => handleDelayedTerminate self
  | InviteServer, TimerG => SIPIst.handleRetransmitResponse self
  | InviteServer, TimerH => SIPIst.handleACKTimeout self
  | InviteServer, TimerI => handleDelayedTerminate self
  | InviteServer, TimerRequestThrottle => handleDelayedDispatch self
  | NonInviteServer, TimerJ => handleDelayedTerminate self
  | NonInviteServer, TimerRequestThrottle => handleDelayedDispatch self
  | _, TimerMaxLifetime => handleDelayedTerminate self
  | _, _ => throw BadFunctionCall
  end.

(** A pending timer expires. *)
Definition expire (self : who) (tm : Timer) : M unit :=
  cancel_timer self tm;; handleTimer self tm.

End paths.
