(* ===== verification/FsmLogic.v ===== *)
(** * Reasoning about transaction handlers

    Handlers are monadic code.  A relation between states is kept by a handler
    when it is kept by its parts; the classes [Frame] and [Ending] collect what a
    relation has to allow, and the lemmas here take every operation of the
    transaction layer apart once, for all relations.  The second half evaluates
    the basic operations exactly. *)

From S2P Require Import Prelude CoreStrings SipHeaders SipMessage SipResponse TransactionTimers.
From S2P Require Import Transaction ClientFsm ServerFsm.
From stdpp Require Import sorting.
Open Scope Z_scope.

(** ** Relations kept by a computation *)

(** [c] relates the states before and after it, whether it returns or throws;
    nothing is said after undefined behaviour. *)
Definition Keeps {A} (R : World -> World -> Prop) (c : M A) : Prop :=
  forall w, match c w with (UB, _) => True | (_, w') => R w w' end.

Create HintDb keeps discriminated.
#[global] Hint Constants Opaque : keeps.
#[global] Hint Variables Opaque : keeps.
#[export] Hint Extern 0 (PreOrder _) => typeclasses eauto : keeps.

Section keeps.
Context (R : World -> World -> Prop) `{!PreOrder R}.

Lemma keeps_ret {A} (a : A) : Keeps R (mret a).
Proof. intros w. simpl. reflexivity. Qed.
Lemma keeps_skip : Keeps R skip.
Proof. apply keeps_ret. Qed.
Lemma keeps_throw {A} e : Keeps R (throw (A := A) e).
Proof. intros w. simpl. reflexivity. Qed.
Lemma keeps_undefined {A} : Keeps R (undefined (A := A)).
Proof. done. Qed.
Lemma keeps_lift {A} (o : outcome A) : Keeps R (lift o).
Proof. intros w. unfold lift. destruct o; done || reflexivity. Qed.
Lemma keeps_get : Keeps R get.
Proof. intros w. simpl. reflexivity. Qed.
Lemma keeps_trn self : Keeps R (trn self).
Proof. intros w. unfold trn. destruct (lookup_trn w self); [reflexivity|done]. Qed.
Lemma keeps_load p : Keeps R (load p).
Proof. intros w. unfold load. destruct (w_msgs w !! p); [reflexivity|done]. Qed.

Lemma keeps_bind {A B} (c : M A) (f : A -> M B) :
  Keeps R c -> (forall a, Keeps R (f a)) -> Keeps R (c ≫= f).
Proof.
  intros Hc Hf w. specialize (Hc w). unfold mbind, M_bind. destruct (c w) as [[a|e|] w']; [|done|done].
  specialize (Hf a w'). destruct (f a w') as [[b|e|] w'']; [| |done]; by transitivity w'.
Qed.

Lemma keeps_when b c : (b = true -> Keeps R c) -> Keeps R (when b c).
Proof. intros H. unfold when. destruct b; [by apply H|apply keeps_skip]. Qed.
End keeps.

(** Invariants.  [Inv I]: the invariant is kept.  [Stay I L]: it is kept, and so is
    a local fact [L] that holds at the start.  [From I L]: it is kept when [L]
    holds at the start. *)
Section invariants.
Context (I L : World -> Prop).

Definition Inv (w w' : World) : Prop := I w -> I w'.
Definition Stay (w w' : World) : Prop := I w -> L w -> I w' /\ L w'.
Definition From (w w' : World) : Prop := I w -> L w -> I w'.

#[export] Instance inv_preorder : PreOrder Inv.
Proof. split; [by intros ??|]. intros w1 w2 w3 H1 H2 H. auto. Qed.
#[export] Instance stay_preorder : PreOrder Stay.
Proof. split; [by intros ??|]. intros w1 w2 w3 H1 H2 HI HL. destruct (H1 HI HL). auto. Qed.

Lemma stay_from {A} (c : M A) : Keeps Stay c -> Keeps From c.
Proof.
  intros H w. specialize (H w). destruct (c w) as [[a|e|] w']; [| |done]; intros HI HL; by apply H.
Qed.
Lemma inv_from {A} (c : M A) : Keeps Inv c -> Keeps From c.
Proof.
  intros H w. specialize (H w). destruct (c w) as [[a|e|] w']; [| |done]; intros HI HL; by apply H.
Qed.
Lemma from_bind {A B} (c : M A) (f : A -> M B) :
  Keeps Stay c -> (forall a, Keeps From (f a)) -> Keeps From (c ≫= f).
Proof.
  intros Hc Hf w. specialize (Hc w). unfold mbind, M_bind. destruct (c w) as [[a|e|] w']; [| |done].
  - specialize (Hf a w'). destruct (f a w') as [[b|e|] w'']; [| |done]; intros HI HL;
      destruct (Hc HI HL); by apply Hf.
  - intros HI HL. by apply Hc.
Qed.
Lemma from_when b c : (b = true -> Keeps From c) -> Keeps From (when b c).
Proof. intros H. destruct b; [by apply H|]. apply inv_from, keeps_skip, _. Qed.
End invariants.

(** The same as [keep], for [From]. *)
Ltac keep_from :=
  repeat first
    [ progress intros
    | solve [eauto 3 with keeps]
    | solve [apply stay_from; eauto 3 with keeps]
    | solve [apply inv_from; eauto 3 with keeps]
    | lazymatch goal with
      | |- Keeps _ (mbind _ _) => apply from_bind
      | |- Keeps _ (when _ _) => apply from_when
      | |- Keeps _ (if ?b then _ else _) => destruct b eqn:?
      | |- Keeps _ (match ?x with _ => _ end) => destruct x eqn:?
      | |- Keeps _ (let _ := _ in _) => cbv zeta
      | |- Keeps _ (with_parent _ _) => unfold with_parent
      end ].

#[export] Hint Resolve keeps_ret keeps_skip keeps_throw keeps_undefined keeps_lift keeps_get
  keeps_trn keeps_load : keeps.

(** Take a handler apart, down to operations with a lemma in the database. *)
Ltac keep :=
  repeat first
    [ progress intros
    | solve [eauto 3 with keeps]
    | lazymatch goal with
      | |- Keeps _ (mbind _ _) => apply keeps_bind; [apply _| |]
      | |- Keeps _ (when _ _) => apply keeps_when; [apply _|]
      | |- Keeps _ (if ?b then _ else _) => destruct b eqn:?
      | |- Keeps _ (match ?x with _ => _ end) => destruct x eqn:?
      | |- Keeps _ (let _ := _ in _) => cbv zeta
      | |- Keeps _ (with_parent _ _) => unfold with_parent
      end ].

(** ** What a relation has to allow *)

(** The calls of the transaction user's response callback for a transaction. *)
Definition tu_call (self : who) (e : event) : Prop :=
  match e with EvResponseTU s _ _ _ => s = self | _ => False end.
#[export] Instance tu_call_dec self e : Decision (tu_call self e).
Proof. destruct e; simpl; apply _. Defined.

(** The other calls, except those that end a transaction. *)
Definition plain (e : event) : Prop :=
  match e with EvResponseTU _ _ _ _ | EvRemoveTransaction _ | EvBlockIst _ => False | _ => True end.

(** An update that leaves alone what the state machines are about; a transaction
    identifier is set once. *)
Definition neutral_fsm (f : SIPFsm -> SIPFsm) : Prop := forall x,
  f_type (f x) = f_type x /\ f_timers (f x) = f_timers x /\
  (f_transactionId x <> [] -> f_transactionId (f x) = f_transactionId x).
Definition neutral (f : SIPTransaction -> SIPTransaction) : Prop := forall t,
  t_state (f t) = t_state t /\ t_hasTerminated (f t) = t_hasTerminated t /\ t_id (f t) = t_id t /\
  f_type (t_fsm (f t)) = f_type (t_fsm t) /\ f_timers (t_fsm (f t)) = f_timers (t_fsm t) /\
  (f_transactionId (t_fsm t) <> [] -> f_transactionId (t_fsm (f t)) = f_transactionId (t_fsm t)).

(** Operations that change no state and start no timer. *)
Class Frame (R : World -> World -> Prop) : Prop := {
  #[global] frame_preorder :: PreOrder R;
  frame_emit e : plain e -> Keeps R (emit e);
  frame_store p m : Keeps R (store p m);
  frame_alloc m : Keeps R (alloc m);
  frame_modify self f : neutral f -> Keeps R (modify self f);
  frame_cancel self tm : tm <> TimerMaxLifetime -> Keeps R (cancel_timer self tm)
}.

(** Ending a transaction and creating a branch. *)
Class Ending (R : World -> World -> Prop) : Prop := {
  #[global] ending_frame :: Frame R;
  ending_terminate self : Keeps R (terminate self);
  ending_branch w tag : w_branches w !! tag = None ->
    R w (w <| w_branches := <[tag := newBranch w]> (w_branches w) |>)
}.

#[export] Hint Extern 0 (Frame _) => typeclasses eauto : keeps.
#[export] Hint Extern 0 (Ending _) => typeclasses eauto : keeps.

Lemma frame_modify_fsm R `{Frame R} self f : neutral_fsm f -> Keeps R (modify_fsm self f).
Proof. intros Hf. apply frame_modify. intros t. simpl. by destruct (Hf (t_fsm t)) as (? & ? & ?). Qed.

(** The identifier is set when the first message arrives. *)
Lemma neutral_id id : neutral_fsm (fun f => f <| f_transactionId :=
  if (length (f_transactionId f) =? 0)%nat then id else f_transactionId f |>).
Proof. intros x. simpl. split; [done|]. split; [done|]. by destruct (f_transactionId x). Qed.

#[export] Hint Resolve frame_store frame_alloc ending_terminate : keeps.
#[export] Hint Extern 1 (Keeps _ (emit _)) => apply frame_emit; exact I : keeps.
#[export] Hint Extern 1 (Keeps _ (cancel_timer _ _)) => apply frame_cancel; done : keeps.
#[export] Hint Extern 1 (Keeps _ (modify_fsm _ _)) => apply frame_modify_fsm; [apply _|first [apply neutral_id|intros ?; done]] : keeps.
#[export] Hint Extern 2 (Keeps _ (modify _ _)) => apply frame_modify; intros ?; done : keeps.

Section frame.
Context {boost : BoostString} {lexical : BoostLexical} {env : Env}.
Context (R : World -> World -> Prop) `{!Frame R}.

Lemma k_classify f p : Keeps R (classify f p).
Proof. unfold classify. keep. Qed.
Hint Resolve k_classify : keeps.
Lemma k_isRequest p : Keeps R (msg_isRequest p).
Proof. apply k_classify. Qed.
Lemma k_isRequestOf p m : Keeps R (msg_isRequestOf p m).
Proof. apply k_classify. Qed.
Lemma k_isResponse p : Keeps R (msg_isResponse p).
Proof. apply k_classify. Qed.
Lemma k_is1xx p : Keeps R (msg_is1xx p).
Proof. unfold msg_is1xx. keep. Qed.
Lemma k_is2xx p : Keeps R (msg_is2xx p).
Proof. unfold msg_is2xx. keep. Qed.
Lemma k_isErrorResponse p : Keeps R (msg_isErrorResponse p).
Proof. unfold msg_isErrorResponse. keep. Qed.
Lemma k_createResponse p code reason : Keeps R (msg_createResponse p code reason).
Proof. unfold msg_createResponse. keep. Qed.
Lemma k_deref_ptr {A} (p : option A) : Keeps R (deref_ptr p).
Proof. unfold deref_ptr. keep. Qed.
Lemma k_fsm self : Keeps R (fsm self).
Proof. unfold fsm. keep. Qed.
Lemma k_getState self : Keeps R (getState self).
Proof. unfold getState. keep. Qed.
Lemma k_getParent self : Keeps R (getParent self).
Proof. unfold getParent. keep. Qed.
Lemma k_getBranchCount self : Keeps R (getBranchCount self).
Proof. unfold getBranchCount. keep. Qed.
Lemma k_getActiveBranchCount self : Keeps R (getActiveBranchCount self).
Proof. unfold getActiveBranchCount. keep. Qed.
Lemma k_allBranchesCompleted self : Keeps R (allBranchesCompleted self).
Proof. unfold allBranchesCompleted. keep. Qed.
Lemma k_write_to b tp p a : Keeps R (write_to b tp p a).
Proof. unfold write_to. keep. Qed.
Hint Resolve k_isRequest k_isRequestOf k_isResponse k_is1xx k_is2xx k_isErrorResponse k_createResponse
  k_deref_ptr k_fsm k_getState k_getParent k_getBranchCount k_getActiveBranchCount
  k_allBranchesCompleted k_write_to : keeps.

Lemma k_cancel_each self tms : TimerMaxLifetime ∉ tms -> Keeps R (cancel_each self tms).
Proof.
  induction tms as [|tm tms IH]; intros Hn; simpl; [keep|]. apply not_elem_of_cons in Hn as [H1 H2].
  apply keeps_bind; [apply _|by apply frame_cancel|]. intros _. by apply IH.
Qed.
Lemma k_cancel_both self p tms : TimerMaxLifetime ∉ tms -> Keeps R (cancel_both self p tms).
Proof.
  intros Hn. unfold cancel_both, with_parent. apply keeps_bind; [apply _|by apply k_cancel_each|].
  intros _. destruct p; [by apply k_cancel_each|keep].
Qed.

Lemma k_write_request self : Keeps R (write_request self).
Proof. unfold write_request. keep. Qed.
Lemma k_write_response self p : Keeps R (SIPIst.write_response self p).
Proof. unfold SIPIst.write_response. keep. Qed.
Lemma k_ack_message self p : Keeps R (SIPIct.ack_message self p).
Proof. unfold SIPIct.ack_message. keep. Qed.
Lemma k_handleExpiresTimeout self : Keeps R (SIPIct.handleExpiresTimeout self).
Proof. unfold SIPIct.handleExpiresTimeout. keep. Qed.
Lemma k_create_transport self p a b s i : Keeps R (create_transport self p a b s i).
Proof. unfold create_transport. keep. Qed.
Lemma k_top_via_address m a : Keeps R (top_via_address m a).
Proof. unfold top_via_address. keep. Qed.
Lemma k_keep_alive tp : Keeps R (keep_alive tp).
Proof. unfold keep_alive. keep. Qed.
Lemma k_prepare_response self p a : Keeps R (prepare_response self p a).
Proof. unfold prepare_response. keep. Qed.
Lemma k_call_handler p tp : Keeps R (call_handler p tp).
Proof. unfold call_handler. keep. Qed.
Lemma k_throttle p tp : Keeps R (throttle p tp).
Proof. unfold throttle. keep. Qed.
Lemma k_note_message self b p tp : Keeps R (note_message self b p tp).
Proof. unfold note_message. keep. Qed.
End frame.

#[export] Hint Resolve k_isRequest k_isRequestOf k_isResponse k_is1xx k_is2xx k_isErrorResponse k_createResponse
  k_deref_ptr k_fsm k_getState k_getParent k_getBranchCount k_getActiveBranchCount
  k_allBranchesCompleted k_write_to k_write_request k_write_response k_ack_message k_handleExpiresTimeout
  k_create_transport k_top_via_address k_keep_alive k_prepare_response k_call_handler k_throttle
  k_note_message : keeps.
#[export] Hint Extern 1 (Keeps _ (cancel_each _ _)) =>
  apply k_cancel_each; [apply _|by apply (bool_decide_unpack _)] : keeps.
#[export] Hint Extern 1 (Keeps _ (cancel_both _ _ _)) =>
  apply k_cancel_both; [apply _|by apply (bool_decide_unpack _)] : keeps.

(** A relation that allows every call but the user's and the parts of
    [terminate]. *)
Section make_ending.
Context (R : World -> World -> Prop) `{!Frame R}.
Hypothesis any_emit : forall e, (forall self, ~ tu_call self e) -> Keeps R (emit e).
Hypothesis pool_left : Keeps R leave_pool.
Hypothesis self_ended : forall self, Keeps R (terminate_self self).
Hint Resolve pool_left self_ended : keeps.
Hint Extern 1 (Keeps _ (emit _)) => apply any_emit; by intros ? [] : keeps.

Lemma k_terminate_each tags : Keeps R (terminate_each tags).
Proof. induction tags; simpl; keep. Qed.
Hint Resolve k_terminate_each : keeps.

(** What [terminate] does after [terminate_self]. *)
Lemma k_finish b : Keeps R (when b
  (w ← get; terminate_each (branch_tags w);; t ← trn Parent;
   when (t_terminateCallback t) (emit EvTerminateCallback);; emit (EvRemoveTransaction (t_id t));; leave_pool)).
Proof. keep. Qed.

Lemma make_ending :
  (forall w tag, w_branches w !! tag = None -> R w (w <| w_branches := <[tag := newBranch w]> (w_branches w) |>)) ->
  Ending R.
Proof.
  intros Hb. split; [apply _| |exact Hb]. intros self. unfold terminate.
  apply keeps_bind; [apply _|apply self_ended|]. intros b. apply k_finish.
Qed.
End make_ending.

Section ending.
Context {boost : BoostString} {lexical : BoostLexical} {env : Env}.
Context (R : World -> World -> Prop) `{!Ending R}.

Lemma k_handleDelayedTerminate self : Keeps R (handleDelayedTerminate self).
Proof. unfold handleDelayedTerminate. keep. Qed.

Lemma k_findBranch self p : Keeps R (findBranch self p).
Proof.
  unfold findBranch. destruct self; [|keep]. do 2 (apply keeps_bind; [apply _|keep|]; intros ?).
  destruct (_ =? 0)%nat; [keep|]. intros w. unfold mbind, M_bind, get. simpl.
  destruct (w_branches w !! _) eqn:E; [by apply (keeps_ret R)|by apply ending_branch].
Qed.

Hint Resolve k_findBranch : keeps.

(** Sending, for a relation that the machines' [onSendMessage] keeps. *)
Section sending.
Hypothesis send : forall self p, Keeps R (onSendMessage self p).
Hint Resolve send : keeps.

Lemma k_writeMessage self p a : Keeps R (writeMessage self p a).
Proof. unfold writeMessage. keep. Qed.
Hint Resolve k_writeMessage : keeps.
Lemma k_respond self p : Keeps R (respond self p).
Proof. unfold respond, reconnect. keep. Qed.
Hint Resolve k_respond : keeps.
Lemma k_sendResponse self p a : Keeps R (sendResponse self p a).
Proof. unfold sendResponse. keep. Qed.
Lemma k_sendAckFor2xx self p a : Keeps R (sendAckFor2xx self p a).
Proof. unfold sendAckFor2xx. keep. Qed.
Hint Resolve k_sendResponse : keeps.
Lemma k_check_queued self q n p tp : Keeps R (check_queued self q n p tp).
Proof. unfold check_queued. keep. Qed.
End sending.

(** Receiving, for a relation that the machines' [onReceivedMessage] keeps. *)
Section receiving.
Hypothesis receive : forall self p tp, Keeps R (fsm_onReceivedMessage self p tp).
Hint Resolve receive : keeps.

Lemma k_handleDelayedDispatch self : Keeps R (handleDelayedDispatch self).
Proof. unfold handleDelayedDispatch. keep. Qed.
Lemma k_onReceivedMessage p tp : Keeps R (onReceivedMessage p tp).
Proof. unfold onReceivedMessage, branch_onReceivedMessage. keep. Qed.
Lemma k_handleConnectionError self m : Keeps R (handleConnectionError self m).
Proof. unfold handleConnectionError. keep. Qed.
End receiving.
End ending.

#[export] Hint Resolve k_handleDelayedTerminate k_findBranch : keeps.

(** ** Every handler *)

(** What a relation has to allow beyond that for all handlers to keep it. *)
Class Machine (R : World -> World -> Prop) : Prop := {
  #[global] machine_ending :: Ending R;
  machine_setState self s : s <> TRN_STATE_IDLE -> Keeps R (setState self s);
  machine_report self error pMsg tp : Keeps R (report self error pMsg tp);
  machine_start_timer self tm ms : Keeps R (start_timer self tm ms);
  machine_start_exact self tm ms : Keeps R (start_exact self tm ms)
}.

#[export] Hint Extern 0 (Machine _) => typeclasses eauto : keeps.
#[export] Hint Resolve machine_report machine_start_timer machine_start_exact : keeps.
#[export] Hint Extern 1 (Keeps _ (setState _ _)) => apply machine_setState; by vm_compute : keeps.

Section machine.
Context {boost : BoostString} {lexical : BoostLexical} {env : Env}.
Context (R : World -> World -> Prop) `{!Machine R}.

Lemma m_start_default self tm prop ms : tm <> TimerMaxLifetime -> Keeps R (start_default self tm prop ms).
Proof. intros. unfold start_default. keep. Qed.
Hint Extern 1 (Keeps R (start_default _ _ _ _)) => apply m_start_default; done : keeps.
Lemma m_handleTimeout self e : Keeps R (handleTimeout self e).
Proof. unfold handleTimeout. keep. Qed.
Hint Resolve m_handleTimeout : keeps.

Lemma m_ict_onSendMessage self p : Keeps R (SIPIct.onSendMessage self p).
Proof.
  unfold SIPIct.onSendMessage, startTimerMaxLifetime, startTimerA, startTimerB, startTimerClientExpires. keep.
Qed.
Hint Resolve m_ict_onSendMessage : keeps.
Lemma m_handleSendAck self p tp b : Keeps R (SIPIct.handleSendAck self p tp b).
Proof. unfold SIPIct.handleSendAck, startTimerD. keep. Qed.
Hint Resolve m_handleSendAck : keeps.
Lemma m_ict_on_response self q p tp : Keeps R (SIPIct.on_response self q p tp).
Proof. unfold SIPIct.on_response, SIPIct.on2xx, SIPIct.onError, informTU. keep. Qed.
Hint Resolve m_ict_on_response : keeps.
Lemma m_ict_onReceivedMessage self p tp : Keeps R (SIPIct.onReceivedMessage self p tp).
Proof. unfold SIPIct.onReceivedMessage. keep. Qed.
Lemma m_ict_timers self : Keeps R (SIPIct.handleRetransmitInvite self) /\
  Keeps R (SIPIct.handleInviteTimeout self) /\ Keeps R (SIPIct.handleExpiresTimeout self).
Proof.
  unfold SIPIct.handleRetransmitInvite, SIPIct.handleInviteTimeout, SIPIct.handleExpiresTimeout, startTimerA.
  split_and!; keep.
Qed.

Lemma m_nict_onSendMessage self p : Keeps R (SIPNict.onSendMessage self p).
Proof. unfold SIPNict.onSendMessage, startTimerMaxLifetime, startTimerE, startTimerF. keep. Qed.
Lemma m_stop_timers self q b : Keeps R (SIPNict.stop_timers self q b).
Proof. unfold SIPNict.stop_timers. keep. Qed.
Hint Resolve m_ict_onReceivedMessage m_nict_onSendMessage m_stop_timers : keeps.
Lemma m_onFinal self q b p tp : Keeps R (SIPNict.onFinal self q b p tp).
Proof. unfold SIPNict.onFinal, informTU, startTimerK. keep. Qed.
Hint Resolve m_onFinal : keeps.
Lemma m_nict_on_response self q b p tp : Keeps R (SIPNict.on_response self q b p tp).
Proof. unfold SIPNict.on_response, informTU. keep. Qed.
Hint Resolve m_nict_on_response : keeps.
Lemma m_nict_onReceivedMessage self p tp : Keeps R (SIPNict.onReceivedMessage self p tp).
Proof. unfold SIPNict.onReceivedMessage. keep. Qed.
Lemma m_nict_timers self : Keeps R (SIPNict.handleRetransmitRequest self) /\
  Keeps R (SIPNict.handleRequestTimeout self).
Proof. unfold SIPNict.handleRetransmitRequest, SIPNict.handleRequestTimeout, startTimerE. split_and!; keep. Qed.

Lemma m_server_onSendMessage self p : Keeps R (SIPIst.onSendMessage self p) /\ Keeps R (SIPNist.onSendMessage self p).
Proof.
  unfold SIPIst.onSendMessage, SIPNist.onSendMessage, startTimerG, startTimerH, startTimerJ. split; keep.
Qed.
Lemma m_ist_timers self : Keeps R (SIPIst.handleRetransmitResponse self) /\ Keeps R (SIPIst.handleACKTimeout self).
Proof.
  unfold SIPIst.handleRetransmitResponse, SIPIst.handleACKTimeout, SIPIst.write_response, startTimerG. split; keep.
Qed.

Lemma m_onSendMessage self p : Keeps R (onSendMessage self p).
Proof. unfold onSendMessage. keep; apply m_server_onSendMessage. Qed.
Hint Resolve m_nict_onReceivedMessage m_onSendMessage : keeps.
Hint Extern 1 (Keeps R (check_queued _ _ _ _ _)) => apply (k_check_queued R m_onSendMessage) : keeps.
Hint Extern 1 (Keeps R (sendResponse _ _ _)) => apply (k_sendResponse R m_onSendMessage) : keeps.
Lemma m_accept self q n o p tp : q <> TRN_STATE_IDLE -> n <> TRN_STATE_IDLE -> Keeps R (accept self q n o p tp).
Proof.
  intros Hq Hn. pose proof (machine_setState (R := R) self q Hq). pose proof (machine_setState (R := R) self n Hn).
  unfold accept, enqueue, startTimerMaxLifetime, startRequestThrottleTimer. keep.
Qed.
Hint Extern 1 (Keeps R (accept _ _ _ _ _ _)) => apply m_accept; done : keeps.
Lemma m_fsm_onReceivedMessage self p tp : Keeps R (fsm_onReceivedMessage self p tp).
Proof.
  unfold fsm_onReceivedMessage, ist_onReceivedMessage, nist_onReceivedMessage, SIPIst.write_response, startTimerI. keep.
Qed.
Hint Resolve m_fsm_onReceivedMessage : keeps.
Lemma m_handleTimer self tm : Keeps R (handleTimer self tm).
Proof.
  pose proof (k_handleDelayedDispatch R m_fsm_onReceivedMessage).
  unfold handleTimer. keep; first [apply m_ict_timers|apply m_nict_timers|apply m_ist_timers].
Qed.


(** For a relation that allows the user to be called at any time: [sendRequest]
    does so when it cannot connect. *)
Section user_called.
Hypothesis tu : forall self error m tp, Keeps R (emit (EvResponseTU self error m tp)).
Hint Resolve tu : keeps.

Lemma m_sendRequest self p a b c d : Keeps R (sendRequest self p a b c d).
Proof.
  pose proof (k_writeMessage R (m_onSendMessage)). unfold sendRequest, ensure_transport, connect. keep.
Qed.
End user_called.
End machine.

#[export] Hint Resolve m_onSendMessage m_fsm_onReceivedMessage m_handleTimer m_handleTimeout : keeps.
#[export] Hint Extern 1 (Keeps _ (start_default _ _ _ _)) => apply m_start_default; [apply _|done] : keeps.
#[export] Hint Extern 1 (Keeps _ (sendResponse _ _ _)) => apply k_sendResponse; [apply _|apply m_onSendMessage, _] : keeps.

(** ** The store *)

Lemma lookup_put w s t s' :
  lookup_trn (put_trn w s t) s' = if decide (s = s') then Some t else lookup_trn w s'.
Proof.
  destruct s as [|a], s' as [|b]; simpl; try done.
  destruct (decide (a = b)) as [->|Hn].
  - rewrite decide_True by done. apply lookup_insert_eq.
  - rewrite decide_False by congruence. by apply lookup_insert_ne.
Qed.

Lemma put_put w s t t' : put_trn (put_trn w s t) s t' = put_trn w s t'.
Proof. destruct s as [|a]; simpl; [done|]. unfold update. simpl. by rewrite insert_insert_eq. Qed.

Lemma put_id w s t : lookup_trn w s = Some t -> put_trn w s t = w.
Proof.
  destruct w, s as [|a]; simpl; [by intros [= ->]|]. intros H. unfold update. simpl.
  by rewrite insert_id.
Qed.

Lemma put_trn_same w s t : w_trace (put_trn w s t) = w_trace w /\ w_inPool (put_trn w s t) = w_inPool w /\
  w_msgs (put_trn w s t) = w_msgs w /\ w_parentLocks (put_trn w s t) = w_parentLocks w.
Proof. by destruct s. Qed.

(** ** Exact evaluation *)

Lemma bind_run {A B} (c : M A) (f : A -> M B) w a w' : c w = (Ret a, w') -> (c ≫= f) w = f a w'.
Proof. intros E. unfold mbind, M_bind. by rewrite E. Qed.

Lemma trn_run w self t : lookup_trn w self = Some t -> trn self w = (Ret t, w).
Proof. intros E. unfold trn. by rewrite E. Qed.

Lemma modify_run w self t f : lookup_trn w self = Some t -> modify self f w = (Ret tt, put_trn w self (f t)).
Proof. intros E. unfold modify. by rewrite E. Qed.

Lemma lookup_put_eq w self t : lookup_trn (put_trn w self t) self = Some t.
Proof. rewrite lookup_put. by rewrite decide_True. Qed.

Lemma setState_run w self t s : lookup_trn w self = Some t ->
  setState self s w =
    if t_state t =? s then (Ret tt, w)
    else if t_state t =? TRN_STATE_TERMINATED then (Throw (SIPException "Invalid Transaction State"), w)
    else (Ret tt, put_trn w self (t <| t_state := s |>)).
Proof.
  intros E. unfold setState, mbind, M_bind, trn. rewrite E. destruct (t_state t =? s); [done|].
  rewrite Z.eqb_sym. destruct (_ =? _); simpl; [done|]. unfold modify. by rewrite E.
Qed.

Lemma fsm_run w self t : lookup_trn w self = Some t -> fsm self w = (Ret (t_fsm t), w).
Proof. intros E. unfold fsm. by rewrite (bind_run _ _ _ _ _ (trn_run _ _ _ E)). Qed.

Lemma getState_run w self t : lookup_trn w self = Some t -> getState self w = (Ret (t_state t), w).
Proof. intros E. unfold getState. by rewrite (bind_run _ _ _ _ _ (trn_run _ _ _ E)). Qed.

Lemma modify_fsm_run w self t f : lookup_trn w self = Some t ->
  modify_fsm self f w = (Ret tt, put_trn w self (t <| t_fsm := f (t_fsm t) |>)).
Proof. intros E. unfold modify_fsm. by rewrite (modify_run _ _ _ _ E). Qed.

(** The timers left when some are cancelled. *)
Definition without (tms : list Timer) (m : gmap Timer Z) : gmap Timer Z :=
  fold_left (fun m tm => delete tm m) tms m.

Definition set_timers (t : SIPTransaction) (m : gmap Timer Z) : SIPTransaction :=
  t <| t_fsm := (t_fsm t) <| f_timers := m |> |>.

Lemma cancel_each_run w self t tms : lookup_trn w self = Some t ->
  cancel_each self tms w = (Ret tt, put_trn w self (set_timers t (without tms (f_timers (t_fsm t))))).
Proof.
  revert w t. induction tms as [|tm tms IH]; intros w t E; simpl.
  - rewrite put_id; [done|]. rewrite E. by destruct t as [? []].
  - unfold mbind, M_bind, cancel_timer, modify_fsm, modify at 1. rewrite E.
    erewrite IH by (rewrite lookup_put, decide_True by done; reflexivity). by rewrite put_put.
Qed.

Lemma without_all m : without all_timers m = ∅.
Proof. apply map_eq. intros []; simpl; by simplify_map_eq. Qed.

(** A transaction after [terminate]. *)
Definition terminated_trn (t : SIPTransaction) : SIPTransaction :=
  (set_timers t ∅) <| t_state := TRN_STATE_TERMINATED |> <| t_hasTerminated := true |>.

(** What [onTerminate] reports. *)
Definition blocked_id (t : SIPTransaction) : option str :=
  match f_type (t_fsm t) with
  | InviteServer => if (length (f_transactionId (t_fsm t)) =? 0)%nat then None else Some (f_transactionId (t_fsm t))
  | _ => None
  end.
Definition note_blocked (w : World) (t : SIPTransaction) : World :=
  match blocked_id t with Some id => w <| w_trace := EvBlockIst id :: w_trace w |> | None => w end.

Lemma onTerminate_run w self t : lookup_trn w self = Some t -> onTerminate self w = (Ret tt, note_blocked w t).
Proof.
  intros E. unfold onTerminate, fsm. erewrite bind_run; [|erewrite bind_run by (by apply trn_run); reflexivity].
  unfold note_blocked, blocked_id. destruct (f_type _); try done. by destruct (_ =? 0)%nat.
Qed.

Lemma note_blocked_put w self t t' : note_blocked (put_trn w self t) t' = put_trn (note_blocked w t') self t.
Proof. unfold note_blocked. by destruct (blocked_id t'), self. Qed.

Lemma lookup_note_blocked w t self : lookup_trn (note_blocked w t) self = lookup_trn w self.
Proof. unfold note_blocked. by destruct (blocked_id t), self. Qed.

Lemma setState_term_run w self t : lookup_trn w self = Some t ->
  setState self TRN_STATE_TERMINATED w = (Ret tt, put_trn w self (t <| t_state := TRN_STATE_TERMINATED |>)).
Proof.
  intros E. rewrite (setState_run _ _ _ _ E). destruct (t_state t =? TRN_STATE_TERMINATED) eqn:Et; [|done].
  bools. rewrite put_id; [done|]. rewrite E. destruct t. simpl in Et. by subst.
Qed.

Lemma terminate_self_run w self t : lookup_trn w self = Some t ->
  terminate_self self w =
    if t_hasTerminated t then (Ret false, w)
    else (Ret true, put_trn (note_blocked w t) self (terminated_trn t)).
Proof.
  intros E. unfold terminate_self. rewrite (bind_run _ _ _ _ _ (trn_run _ _ _ E)).
  destruct (t_hasTerminated t); [done|].
  rewrite (bind_run _ _ _ _ _ (setState_term_run _ _ _ E)). unfold cancelAllTimers.
  erewrite bind_run; [|apply cancel_each_run, lookup_put_eq]. rewrite put_put, without_all.
  erewrite bind_run; [|apply onTerminate_run, lookup_put_eq].
  erewrite bind_run; [|apply modify_run; rewrite lookup_note_blocked; apply lookup_put_eq].
  rewrite note_blocked_put, put_put. reflexivity.
Qed.

Lemma modify_modify w self f g : (modify self f;; modify self g) w = modify self (fun t => g (f t)) w.
Proof.
  unfold mbind, M_bind. destruct (lookup_trn w self) as [t|] eqn:E.
  - rewrite !(modify_run _ _ _ _ E), (modify_run _ _ (f t)) by apply lookup_put_eq. by rewrite put_put.
  - unfold modify. by rewrite E.
Qed.

Lemma start_exact_run w self t tm ms : lookup_trn w self = Some t ->
  start_exact self tm ms w = (Ret tt, put_trn w self (set_timers t (<[tm := ms]> (delete tm (f_timers (t_fsm t)))))).
Proof.
  intros E. unfold start_exact, cancel_timer, start_timer, modify_fsm. rewrite modify_modify.
  by rewrite (modify_run _ _ _ _ E).
Qed.

(** [terminate] a second time does nothing. *)
Lemma terminate_again w self t : lookup_trn w self = Some t -> t_hasTerminated t = true ->
  terminate self w = (Ret tt, w).
Proof.
  intros E Hh. unfold terminate. erewrite bind_run; [|rewrite (terminate_self_run _ _ _ E), Hh; reflexivity].
  done.
Qed.

Lemma branch_tags_in w tag : tag ∈ branch_tags w <-> is_Some (w_branches w !! tag).
Proof.
  unfold branch_tags. rewrite merge_sort_Permutation, list_elem_of_fmap. split.
  - intros ([k t] & -> & H). apply elem_of_map_to_list in H. by exists t.
  - intros [t Ht]. exists (tag, t). split; [done|]. by apply elem_of_map_to_list.
Qed.

Lemma bind_inv {A B} (c : M A) (f : A -> M B) w r w' : (c ≫= f) w = (r, w') -> r <> UB ->
  (exists a w1, c w = (Ret a, w1) /\ f a w1 = (r, w')) \/ (exists e, c w = (Throw e, w') /\ r = Throw e).
Proof.
  unfold mbind, M_bind. intros E Hr. destruct (c w) as [[a|e|] w1]; simplify_eq; eauto.
Qed.

Lemma keeps_run {A} R (c : M A) w r w' : Keeps R c -> c w = (r, w') -> r <> UB -> R w w'.
Proof. intros H E Hr. specialize (H w). rewrite E in H. by destruct r. Qed.


Section steps.
Context {boost : BoostString} {lexical : BoostLexical} {env : Env}.

(** ** Steps *)

(** One action on a transaction set: the dispatcher delivers a message to a
    transaction its pool holds, a pending timer expires, the user sends through
    a transaction or ends it, the transport reports a failed connection; messages
    may change between two actions, and the parent may disappear once the pool
    no longer holds it. *)
Inductive step (w : World) : World -> Prop :=
| step_receive p tp r w' :
    w_inPool w = true -> onReceivedMessage p tp w = (r, w') -> r <> UB -> step w w'
| step_timer self tm t ms r w' :
    lookup_trn w self = Some t -> f_timers (t_fsm t) !! tm = Some ms ->
    expire self tm w = (r, w') -> r <> UB -> step w w'
| step_sendResponse self p a r w' : sendResponse self p a w = (r, w') -> r <> UB -> step w w'
| step_sendAckFor2xx self p a r w' : sendAckFor2xx self p a w = (r, w') -> r <> UB -> step w w'
| step_writeMessage self p a r w' : writeMessage self p a w = (r, w') -> r <> UB -> step w w'
| step_terminate self r w' : terminate self w = (r, w') -> r <> UB -> step w w'
| step_connectionError self m r w' : handleConnectionError self m w = (r, w') -> r <> UB -> step w w'
| step_messages msgs : step w (w <| w_msgs := msgs |>)
| step_parent_gone : w_inPool w = false -> step w (w <| w_parentLocks := false |>).

(** A relation that every part of a step keeps is kept by steps. *)
Lemma step_keeps (R : World -> World -> Prop) `{!Ending R} :
  (forall self p, Keeps R (onSendMessage self p)) ->
  (forall self p tp, Keeps R (fsm_onReceivedMessage self p tp)) ->
  (forall self tm t ms w r w', lookup_trn w self = Some t -> f_timers (t_fsm t) !! tm = Some ms ->
     expire self tm w = (r, w') -> r <> UB -> R w w') ->
  (forall w msgs, R w (w <| w_msgs := msgs |>)) ->
  (forall w, R w (w <| w_parentLocks := false |>)) ->
  forall w w', rtc step w w' -> R w w'.
Proof.
  intros send receive timer msgs gone w w'.
  induction 1 as [|w1 w2 w3 H _ IH]; [reflexivity|]. transitivity w2; [|exact IH]. clear IH.
  destruct H as [p tp r w' _ E Hr|self tm t ms r w' Ht Hp E Hr| | | | | | |].
  - eapply keeps_run; [by apply k_onReceivedMessage|done|done].
  - by eapply timer.
  - eapply keeps_run; [by apply k_sendResponse|done|done].
  - eapply keeps_run; [by apply k_sendAckFor2xx|done|done].
  - eapply keeps_run; [by apply k_writeMessage|done|done].
  - eapply keeps_run; [by apply ending_terminate|done|done].
  - eapply keeps_run; [by apply k_handleConnectionError|done|done].
  - apply msgs.
  - apply gone.
Qed.

(** Nothing is pending any more when an expired timer's handler runs. *)
Lemma k_expire R `{!PreOrder R} self tm : Keeps R (cancel_timer self tm) -> Keeps R (handleTimer self tm) ->
  Keeps R (expire self tm).
Proof. intros Hc Hh. unfold expire. keep. Qed.
End steps.
