(* ===== verification/FsmFacts.v ===== *)
(** * Facts about every transaction

    What holds of any run of a transaction set, whatever its machine: a
    terminated transaction is final, and the lifetime timer bounds it. *)

From S2P Require Import Prelude CoreStrings SipHeaders SipMessage SipResponse TransactionTimers.
From S2P Require Import Transaction ClientFsm ServerFsm FsmLogic.
From stdpp Require Import sorting.
Open Scope Z_scope.

(** ** The relation *)

(** What changes in a transaction only one way. *)
Definition t_mono (t t' : SIPTransaction) : Prop :=
  (t_state t = TRN_STATE_TERMINATED -> t_state t' = TRN_STATE_TERMINATED) /\
  (t_hasTerminated t = true -> t_hasTerminated t' = true) /\
  f_type (t_fsm t') = f_type (t_fsm t) /\ t_id t' = t_id t.

Definition tu_calls (self : who) (tr : list event) : list event := filter (tu_call self) tr.

(** A transaction that has run [terminate] is in the state TERMINATED. *)
Definition wf (w : World) : Prop :=
  forall self t, lookup_trn w self = Some t -> t_hasTerminated t = true -> t_state t = TRN_STATE_TERMINATED.

(** The lifetime timer of a transaction that has been started. *)
Definition lifetime (t : SIPTransaction) : option Z := f_timers (t_fsm t) !! TimerMaxLifetime.
Definition life (w : World) : Prop :=
  t_hasTerminated (w_parent w) = true \/
  (is_Some (lifetime (w_parent w)) /\ t_state (w_parent w) <> TRN_STATE_IDLE).

Record runs (w w' : World) : Prop := Runs {
  run_trn : forall self t, lookup_trn w self = Some t ->
    exists t', lookup_trn w' self = Some t' /\ t_mono t t' /\
      (t_state t = TRN_STATE_TERMINATED -> tu_calls self (w_trace w') = tu_calls self (w_trace w));
  run_wf : wf w -> wf w';
  run_life : life w -> life w';
  run_pool : w_inPool w = false -> w_inPool w' = false
}.

Lemma t_mono_refl t : t_mono t t.
Proof. done. Qed.
Lemma t_mono_trans t1 t2 t3 : t_mono t1 t2 -> t_mono t2 t3 -> t_mono t1 t3.
Proof. unfold t_mono. intros (?&?&?&?) (?&?&?&?). split_and!; [tauto|tauto|congruence|congruence]. Qed.

#[export] Instance runs_preorder : PreOrder runs.
Proof.
  split.
  - intros w. split; [|done|done|done]. intros self t H. exists t. by split_and!.
  - intros w1 w2 w3 [T1 W1 L1 P1] [T2 W2 L2 P2]. split; [|tauto|tauto|tauto].
    intros self t H. destruct (T1 _ _ H) as (t' & H' & M1 & U1). destruct (T2 _ _ H') as (t'' & H'' & M2 & U2).
    exists t''. split; [done|]. split; [by eapply t_mono_trans|].
    intros Ht. rewrite U2; [by apply U1|]. by apply M1.
Qed.

(** An update of a transaction that respects the relation. *)
Definition good_at (t t' : SIPTransaction) : Prop :=
  t_mono t t' /\ (t_state t <> TRN_STATE_IDLE -> t_state t' <> TRN_STATE_IDLE) /\
  (is_Some (lifetime t) -> is_Some (lifetime t')) /\
  (t_hasTerminated t' = true -> t_hasTerminated t = true).

Lemma runs_put w self t t' : lookup_trn w self = Some t -> good_at t t' -> runs w (put_trn w self t').
Proof.
  intros E (Hm & Hs & Hl & Hh). destruct (put_trn_same w self t') as (Etr & Ep & _).
  split; [| | |by rewrite Ep].
  - intros s u Hu. rewrite lookup_put, Etr. destruct (decide (self = s)) as [->|]; [|by exists u].
    exists t'. simplify_eq. done.
  - intros Hw s u. rewrite lookup_put. destruct (decide (self = s)) as [->|]; [|by apply Hw].
    intros [= <-] Ht. apply Hm. apply (Hw s); [done|]. by apply Hh.
  - destruct self as [|tag]; simpl in E |- *; [|done]. simplify_eq. unfold life. simpl.
    destruct Hm as (_ & Hm & _). intros [H|[H1 H2]]; [left; by apply Hm|right; split; auto].
Qed.

Lemma keeps_modify self f : (forall t, good_at t (f t)) -> Keeps runs (modify self f).
Proof.
  intros Hf w. unfold modify. destruct (lookup_trn w self) as [t|] eqn:E; [|done].
  by apply (runs_put _ _ t).
Qed.

Lemma keeps_emit e : (forall self, ~ tu_call self e) -> Keeps runs (emit e).
Proof.
  intros He w. simpl. split; [|done|done|done]. intros self t H. exists t. split; [done|]. split; [done|].
  intros _. simpl. unfold tu_calls. by rewrite filter_cons_False.
Qed.

Lemma keeps_store p m : Keeps runs (store p m).
Proof. intros w. simpl. split; [|done|done|done]. intros self t H. by exists t. Qed.
Lemma keeps_alloc m : Keeps runs (alloc m).
Proof. intros w. simpl. split; [|done|done|done]. intros self t H. by exists t. Qed.
Lemma keeps_leave_pool : Keeps runs leave_pool.
Proof. intros w. simpl. split; [|done|done|done]. intros self t H. by exists t. Qed.

Ltac good := intros; unfold good_at, t_mono, lifetime; simpl; split_and!; try done; try tauto.

Lemma keeps_timers self f :
  (forall x, is_Some (x !! TimerMaxLifetime) -> is_Some (f x !! TimerMaxLifetime)) ->
  Keeps runs (modify_fsm self (fun x => x <| f_timers := f (f_timers x) |>)).
Proof. intros Hf. apply keeps_modify. good; auto. Qed.

Lemma keeps_start_timer self tm ms : Keeps runs (start_timer self tm ms).
Proof.
  apply (keeps_timers self (fun m => <[tm := ms]> m)). intros x Hx.
  destruct (decide (tm = TimerMaxLifetime)) as [->|Hn].
  - rewrite lookup_insert_eq. by eexists.
  - by rewrite lookup_insert_ne.
Qed.

Lemma keeps_setState self s : s <> TRN_STATE_IDLE -> Keeps runs (setState self s).
Proof.
  intros Hs w. destruct (lookup_trn w self) as [t|] eqn:E.
  - rewrite (setState_run _ _ _ _ E). destruct (t_state t =? s); [reflexivity|].
    destruct (_ =? _) eqn:Et; [reflexivity|]. apply (runs_put _ _ t); [done|]. bools.
    unfold good_at, t_mono, lifetime. simpl. by split_and!.
  - unfold setState, mbind, M_bind, trn. by rewrite E.
Qed.

Lemma note_blocked_tu w t self : tu_calls self (w_trace (note_blocked w t)) = tu_calls self (w_trace w).
Proof.
  unfold note_blocked. destruct (blocked_id t); [|done]. unfold tu_calls. simpl.
  rewrite filter_cons_False; [done|]. by intros [].
Qed.

Lemma runs_terminated w self t : lookup_trn w self = Some t ->
  runs w (put_trn (note_blocked w t) self (terminated_trn t)).
Proof.
  intros E. destruct (put_trn_same (note_blocked w t) self (terminated_trn t)) as (Etr & Ep & _). split.
  - intros s u Hu. rewrite lookup_put, lookup_note_blocked, Etr, note_blocked_tu.
    destruct (decide (self = s)) as [->|]; [|by exists u]. simplify_eq. by exists (terminated_trn t).
  - intros Hw s u. rewrite lookup_put, lookup_note_blocked.
    destruct (decide (self = s)) as [->|]; [intros [= <-] _; reflexivity|apply Hw].
  - unfold life. destruct self; simpl; [by intros _; left|]. unfold note_blocked. by destruct (blocked_id t).
  - rewrite Ep. unfold note_blocked. by destruct (blocked_id t).
Qed.

Lemma keeps_terminate_self self : Keeps runs (terminate_self self).
Proof.
  intros w. destruct (lookup_trn w self) as [t|] eqn:E.
  - rewrite (terminate_self_run _ _ _ E). destruct (t_hasTerminated t); [reflexivity|by apply runs_terminated].
  - unfold terminate_self, mbind, M_bind, trn. by rewrite E.
Qed.

(** A new branch does not touch the others. *)
Lemma runs_add_branch w tag t : w_branches w !! tag = None -> t_hasTerminated t = false ->
  runs w (w <| w_branches := <[tag := t]> (w_branches w) |>).
Proof.
  intros E Hh. split; [| |done|done].
  - intros [|b] u Hu; simpl in Hu |- *; [by exists u|]. exists u. split; [|done].
    rewrite lookup_insert_ne; [done|]. congruence.
  - intros Hw [|b] u Hu; simpl in Hu; [by apply (Hw Parent)|]. apply lookup_insert_Some in Hu as [[_ <-]|[_ Hu]].
    + by rewrite Hh.
    + by apply (Hw (Branch b)).
Qed.

#[export] Instance runs_frame : Frame runs.
Proof.
  split.
  - apply _.
  - intros e He. apply keeps_emit. by destruct e; intros ? [].
  - intros p m w. split; [|done|done|done]. intros self t H. by exists t.
  - intros m w. split; [|done|done|done]. intros self t H. by exists t.
  - intros self f Hf. apply keeps_modify. intros t. destruct (Hf t) as (Es & Eh & Ei & Et & Em & _).
    unfold good_at, t_mono, lifetime. by rewrite Es, Eh, Ei, Et, Em.
  - intros self tm Hn. apply (keeps_timers self (delete tm)). intros x Hx. by rewrite lookup_delete_ne.
Qed.

#[export] Instance runs_ending : Ending runs.
Proof.
  apply make_ending.
  - apply _.
  - apply keeps_emit.
  - intros w. split; [|done|done|done]. intros self t H. by exists t.
  - apply keeps_terminate_self.
  - intros w tag E. by apply runs_add_branch.
Qed.


(** ** Calls of the transaction user *)

Lemma runs_tu w self t error m tp :
  lookup_trn w self = Some t -> t_state t <> TRN_STATE_TERMINATED ->
  runs w (w <| w_trace := EvResponseTU self error m tp :: w_trace w |>).
Proof.
  intros E Ht. split; [|done|done|done]. intros s u Hu. exists u. split; [done|]. split; [done|].
  intros Hs. unfold tu_calls. simpl. rewrite filter_cons_False; [done|]. simpl. intros ->. congruence.
Qed.

Lemma keeps_report self error pMsg tp : Keeps runs (report self error pMsg tp).
Proof.
  intros w. unfold report. destruct (lookup_trn w self) as [t|] eqn:E.
  - rewrite (bind_run _ _ _ _ _ (trn_run _ _ _ E)).
    destruct (t_responseTU t && _) eqn:Et; [|by apply (keeps_skip runs)]. bools. simpl.
    assert (t_state t <> TRN_STATE_TERMINATED) by congruence.
    destruct pMsg as [p|]; [|by apply (runs_tu _ _ t)].
    unfold mbind, M_bind, load. destruct (w_msgs w !! p); [|done]. by apply (runs_tu _ _ t).
  - unfold mbind, M_bind, trn. by rewrite E.
Qed.

Lemma keeps_start_exact self tm ms : Keeps runs (start_exact self tm ms).
Proof.
  intros w. unfold start_exact, cancel_timer, start_timer, modify_fsm. rewrite modify_modify.
  refine (keeps_modify self _ _ w). good. intros Hx.
  destruct (decide (tm = TimerMaxLifetime)) as [->|Hn].
  - rewrite lookup_insert_eq. by eexists.
  - by rewrite lookup_insert_ne, lookup_delete_ne.
Qed.

#[export] Instance runs_machine : Machine runs.
Proof.
  split; [apply _|apply keeps_setState|apply keeps_report|apply keeps_start_timer|apply keeps_start_exact].
Qed.

Section handlers.
Context {boost : BoostString} {lexical : BoostLexical} {env : Env}.

(** ** Termination of a whole set *)

Lemma terminate_branches_run tags w :
  (forall tag, tag ∈ tags -> is_Some (w_branches w !! tag)) ->
  exists w', terminate_each tags w = (Ret tt, w') /\ runs w w' /\ w_parent w' = w_parent w /\
    dom (w_branches w') = dom (w_branches w) /\
    (forall tag t, tag ∈ tags -> w_branches w' !! tag = Some t -> t_hasTerminated t = true).
Proof.
  revert w. induction tags as [|tag tags IH]; intros w Hin; simpl.
  - exists w. split; [done|]. split; [reflexivity|]. split; [done|]. split; [done|].
    intros x t Hx. by apply elem_of_nil in Hx.
  - destruct (Hin tag) as [t Ht]; [left|].
    assert (exists b w1, terminate_self (Branch tag) w = (Ret b, w1) /\ w_parent w1 = w_parent w /\
      dom (w_branches w1) = dom (w_branches w) /\
      exists t1, w_branches w1 !! tag = Some t1 /\ t_hasTerminated t1 = true) as (b & w1 & E & Ep & Ed & t1 & Ht1 & Hh1).
    { rewrite (terminate_self_run w (Branch tag) t Ht). destruct (t_hasTerminated t) eqn:Eh.
      - exists false, w. by eauto 6.
      - exists true. eexists. split; [reflexivity|]. simpl. unfold note_blocked.
        assert (forall m : gmap str SIPTransaction, m !! tag = Some t -> dom (<[tag:=terminated_trn t]> m) = dom m).
        { intros m Hm. rewrite dom_insert_L. apply elem_of_dom_2 in Hm. apply subseteq_union_1_L. by apply singleton_subseteq_l. }
        destruct (blocked_id t); simpl; (split; [done|]); (split; [by auto|]);
          exists (terminated_trn t); by rewrite lookup_insert_eq. }
    pose proof (keeps_terminate_self (Branch tag) w) as Hr. rewrite E in Hr.
    destruct (IH w1) as (w2 & E2 & R2 & P2 & D2 & T2).
    { intros x Hx. apply elem_of_dom. rewrite Ed. apply elem_of_dom, Hin. by right. }
    exists w2. rewrite (bind_run _ _ _ _ _ E). split; [done|]. split; [by transitivity w1|].
    split; [congruence|]. split; [congruence|].
    intros x u Hx Hu. apply elem_of_cons in Hx as [->|Hx]; [|by eapply T2].
    destruct (run_trn _ _ R2 (Branch tag) t1 Ht1) as (t2 & Ht2 & (_ & Hm & _) & _).
    simpl in Ht2. rewrite Hu in Ht2. simplify_eq. by apply Hm.
Qed.

(** [terminate] of a parent that was not terminated ends the whole set. *)
Lemma terminate_parent_run w : t_hasTerminated (w_parent w) = false ->
  exists w', terminate Parent w = (Ret tt, w') /\ runs w w' /\ w_inPool w' = false /\
    forall self t, lookup_trn w' self = Some t -> t_hasTerminated t = true.
Proof.
  intros Hh. pose proof (terminate_self_run w Parent _ eq_refl) as E. rewrite Hh in E.
  set (w1 := put_trn _ Parent _) in E.
  destruct (terminate_branches_run (branch_tags w1) w1) as (w2 & E2 & R2 & P2 & D2 & T2).
  { intros tag. by rewrite branch_tags_in. }
  assert (exists w', terminate Parent w = (Ret tt, w') /\ w_inPool w' = false /\
    w_parent w' = w_parent w2 /\ w_branches w' = w_branches w2) as (w' & E' & Hp & P' & B').
  { unfold terminate. rewrite (bind_run _ _ _ _ _ E). simpl. rewrite (bind_run _ _ _ _ _ (eq_refl : get w1 = _)).
    rewrite (bind_run _ _ _ _ _ E2). rewrite (bind_run _ _ _ _ _ (eq_refl : trn Parent w2 = _)).
    unfold when. destruct (t_terminateCallback _); eexists; (split; [reflexivity|]); done. }
  exists w'. split; [done|]. split; [|split; [done|]].
  - pose proof (ending_terminate (R := runs) Parent w) as Hk. by rewrite E' in Hk.
  - intros [|tag] t; simpl.
    + rewrite P', P2. by intros [= <-].
    + rewrite B'. intros Ht. apply (T2 tag); [|done]. apply branch_tags_in, elem_of_dom. rewrite <- D2.
      by eapply elem_of_dom_2.
Qed.

Lemma expire_lifetime_run w : exists w1 w',
  cancel_timer Parent TimerMaxLifetime w = (Ret tt, w1) /\ expire Parent TimerMaxLifetime w = (Ret tt, w') /\
  runs w1 w' /\ t_hasTerminated (w_parent w') = true /\
  (t_hasTerminated (w_parent w) = false -> w_inPool w' = false /\
     forall self t, lookup_trn w' self = Some t -> t_hasTerminated t = true).
Proof.
  set (w1 := put_trn w Parent (set_timers (w_parent w) (delete TimerMaxLifetime (f_timers (t_fsm (w_parent w)))))).
  assert (cancel_timer Parent TimerMaxLifetime w = (Ret tt, w1)) as E1 by done.
  assert (forall w2, terminate Parent w1 = (Ret tt, w2) -> t_hasTerminated (w_parent w2) = true ->
    expire Parent TimerMaxLifetime w = (Ret tt, w2)) as He.
  { intros w2 E2 Hh. unfold expire. rewrite (bind_run _ _ _ _ _ E1).
    transitivity (handleDelayedTerminate Parent w1).
    { unfold handleTimer, fsm. by destruct (f_type (t_fsm (w_parent w))) eqn:Et;
        (erewrite bind_run by reflexivity); simpl; rewrite Et. }
    unfold handleDelayedTerminate. rewrite (bind_run _ _ _ _ _ (eq_refl : getParent Parent w1 = _)).
    rewrite (bind_run _ _ _ _ _ E2).
    rewrite (bind_run _ _ _ _ _ (terminate_again w2 Parent _ eq_refl Hh)). done. }
  destruct (t_hasTerminated (w_parent w)) eqn:Eh.
  - exists w1, w1. split; [done|]. split; [apply He; [by eapply (terminate_again w1 Parent)|done]|].
    split; [reflexivity|]. by split.
  - destruct (terminate_parent_run w1) as (w2 & E2 & R2 & Hp & Ht); [done|].
    exists w1, w2. pose proof (Ht Parent _ eq_refl) as Hh. split; [done|]. split; [by apply He|]. done.
Qed.

Lemma keeps_expire self tm : (self, tm) <> (Parent, TimerMaxLifetime) -> Keeps runs (expire self tm).
Proof.
  intros Hn. unfold expire. apply keeps_bind; [apply _| |keep]. destruct (decide (tm = TimerMaxLifetime)) as [->|].
  - destruct self as [|tag]; [done|]. intros w. unfold cancel_timer, modify_fsm, modify.
    destruct (lookup_trn w (Branch tag)) as [t|] eqn:E; [|done]. split; [| |done|done].
    + intros s u Hu. rewrite lookup_put. destruct (decide _) as [<-|]; [|by exists u].
      eexists. split; [done|]. by simplify_eq.
    + intros Hw s u. rewrite lookup_put. destruct (decide _) as [<-|]; [|by apply Hw].
      intros [= <-] Hh. by apply (Hw (Branch tag) t).
  - by apply frame_cancel.
Qed.

Lemma expire_runs self tm t ms w r w' : lookup_trn w self = Some t -> f_timers (t_fsm t) !! tm = Some ms ->
  expire self tm w = (r, w') -> r <> UB -> runs w w'.
Proof.
  intros Ht _ E Hr.
  destruct (decide ((self, tm) = (Parent, TimerMaxLifetime))) as [[= -> ->]|Hn];
    [|by eapply keeps_run; [apply keeps_expire|..]].
  destruct (expire_lifetime_run w) as (w1 & w2 & E1 & E2 & [T2 W2 _ P2] & Hh & _).
  rewrite E in E2. simplify_eq. unfold cancel_timer, modify_fsm, modify in E1. simpl in E1. injection E1 as <-.
  split; [| |by left|done].
  - intros [|tag] u Hu; [|by apply (T2 (Branch tag))]. simpl in Hu. simplify_eq.
    destruct (T2 Parent _ eq_refl) as (t' & ? & ? & ?). by exists t'.
  - intros Hw. apply W2. intros [|tag] u; simpl; [intros [= <-]; apply (Hw Parent _ eq_refl)|apply (Hw (Branch tag))].
Qed.

Lemma steps_run w w' : rtc step w w' -> runs w w'.
Proof.
  apply step_keeps; [apply _| | | | |].
  - apply m_onSendMessage, _.
  - apply m_fsm_onReceivedMessage, _.
  - apply expire_runs.
  - intros u msgs. split; [|done|done|done]. intros self t Ht. by exists t.
  - intros u. split; [|done|done|done]. intros self t Ht. by exists t.
Qed.

(** ** The lifetime timer *)

Lemma life_after {A} (c : M A) w r w' : Keeps runs c -> c w = (r, w') -> r <> UB -> life w -> life w'.
Proof. intros Hc E Hr. by eapply run_life, keeps_run. Qed.

(** The first send of a client: timer, request and state are set before anything
    can fail. *)
Lemma life_begins {A} (tail : M A) w ms p s r w' :
  t_state (w_parent w) = TRN_STATE_IDLE -> s <> TRN_STATE_IDLE -> Keeps runs tail ->
  (startTimerMaxLifetime Parent ms;; modify_fsm Parent (fun f => f <| f_pRequest := p |>);;
   setState Parent s;; tail) w = (r, w') -> r <> UB -> life w'.
Proof.
  intros Hs Hn Ht E Hr. unfold startTimerMaxLifetime in E.
  rewrite (bind_run _ _ _ _ _ (start_exact_run w Parent _ _ _ eq_refl)) in E.
  rewrite (bind_run _ _ _ _ _ (modify_fsm_run _ Parent _ _ (lookup_put_eq _ _ _))), put_put in E.
  erewrite bind_run in E; [|rewrite (setState_run _ Parent _ s (lookup_put_eq _ _ _)); simpl; rewrite Hs;
    rewrite (proj2 (Z.eqb_neq _ _)) by (unfold TRN_STATE_IDLE in *; congruence); reflexivity].
  eapply life_after; [done|exact E|done|]. right. simpl. split; [|done].
  unfold lifetime. simpl. rewrite lookup_insert_eq. by eexists.
Qed.

Definition client_type (ty : TransactionType) : Prop := ty = InviteClient \/ ty = NonInviteClient.

Lemma client_starts w p r w' :
  client_type (f_type (t_fsm (w_parent w))) -> t_state (w_parent w) = TRN_STATE_IDLE ->
  onSendMessage Parent p w = (r, w') -> r <> UB -> life w'.
Proof.
  intros Hc Hs E Hr. unfold onSendMessage in E. rewrite (bind_run _ _ _ _ _ (fsm_run w Parent _ eq_refl)) in E.
  destruct Hc as [Hc|Hc]; rewrite Hc in E.
  - unfold SIPIct.onSendMessage in E. rewrite (bind_run _ _ _ _ _ (getState_run w Parent _ eq_refl)), Hs in E.
    apply bind_inv in E as [(a & w1 & E1 & E2)|(e & E1 & ->)]; [| |exact Hr].
    + injection E2 as _ <-. eapply life_begins in E1; [done|done|done| |done].
      unfold startTimerA, startTimerB, startTimerClientExpires. keep.
    + eapply life_begins in E1; [done|done|done| |done].
      unfold startTimerA, startTimerB, startTimerClientExpires. keep.
  - unfold SIPNict.onSendMessage in E. rewrite (bind_run _ _ _ _ _ (getState_run w Parent _ eq_refl)), Hs in E.
    eapply life_begins in E; [done|done|done| |done]. unfold startTimerE, startTimerF. keep.
Qed.

(** The same for a server, between its first two steps. *)
Definition timed_idle (w : World) : Prop :=
  is_Some (lifetime (w_parent w)) /\ t_state (w_parent w) = TRN_STATE_IDLE.

Lemma life_setState w s r w' : timed_idle w -> s <> TRN_STATE_IDLE ->
  setState Parent s w = (r, w') -> life w'.
Proof.
  intros [Hl Hs] Hn. rewrite (setState_run w Parent _ s eq_refl). rewrite Hs.
  rewrite (proj2 (Z.eqb_neq _ _)) by (unfold TRN_STATE_IDLE in *; congruence). simpl.
  intros [= _ <-]. by right.
Qed.

Lemma throttle_idle p tp w r w' : throttle p tp w = (r, w') -> r <> UB -> timed_idle w -> timed_idle w'.
Proof.
  unfold throttle. destruct env_throttle as [h|]; [|by intros [= <- <-]]. intros E Hr.
  apply bind_inv in E as [(m & w1 & E1 & E2)|(e & E1 & ->)]; [| |done].
  - unfold load in E1. destruct (w_msgs w !! p); simplify_eq. injection E2 as <- <-. done.
  - unfold load in E1. by destruct (w_msgs w !! p).
Qed.

Lemma life_bind {A B} (c : M A) (f : A -> M B) w r w' :
  (forall r1 w1, c w = (r1, w1) -> r1 <> UB -> life w1) -> (forall a, Keeps runs (f a)) ->
  (c ≫= f) w = (r, w') -> r <> UB -> life w'.
Proof.
  intros Hc Hf E Hr. apply bind_inv in E as [(a & w1 & E1 & E2)|(e & E1 & ->)]; [| |done].
  - eapply life_after; [apply (Hf a)|done|done|]. by eapply Hc.
  - by eapply Hc.
Qed.

Lemma enqueue_life q p tp w r w' : timed_idle w -> q <> TRN_STATE_IDLE ->
  enqueue Parent q p tp w = (r, w') -> r <> UB -> life w'.
Proof.
  intros H0 Hq E Hr. unfold enqueue in E. rewrite (bind_run _ _ _ _ _ (modify_fsm_run _ Parent _ _ eq_refl)) in E.
  apply bind_inv in E as [(m & w1 & E1 & E2)|(e & E1 & ->)]; [| |done].
  - unfold load in E1. destruct (_ !! p); simplify_eq.
    rewrite (bind_run (store _ _) _ _ tt _ eq_refl) in E2. by eapply life_setState in E2.
  - unfold load in E1. by destruct (_ !! p).
Qed.

Lemma server_starts w q n o p tp r w' :
  t_state (w_parent w) = TRN_STATE_IDLE -> q <> TRN_STATE_IDLE -> n <> TRN_STATE_IDLE ->
  accept Parent q n o p tp w = (r, w') -> r <> UB -> life w'.
Proof.
  intros Hs Hq Hn E Hr. unfold accept in E. rewrite (bind_run _ _ _ _ _ (getState_run w Parent _ eq_refl)), Hs in E.
  simpl in E. unfold startTimerMaxLifetime in E.
  erewrite bind_run in E by (rewrite (bind_run _ _ _ _ _ (modify_fsm_run _ Parent _ _ eq_refl)),
    (start_exact_run _ Parent _ _ _ (lookup_put_eq _ _ _)), put_put; reflexivity).
  match type of E with (_ ?w0) = _ => assert (timed_idle w0) as H0 end.
  { split; [|done]. unfold lifetime. simpl. rewrite lookup_insert_eq. by eexists. }
  apply bind_inv in E as [(d & w1 & E1 & E)|(e & E1 & ->)]; [| |done].
  - pose proof (throttle_idle _ _ _ _ _ E1 ltac:(done) H0) as H1. destruct (negb (d =? 0)).
    + rewrite (bind_run _ _ _ _ _ (getState_run w1 Parent _ eq_refl)), (proj2 H1) in E. cbn [Z.eqb TRN_STATE_IDLE when] in E.
      eapply life_bind; [| |exact E|done]; [|intros; unfold startRequestThrottleTimer; keep].
      intros r1 w2 E2 Hr1. eapply life_bind; [| |exact E2|done]; [|cbv beta; keep].
      intros r2 w3 E3 Hr2. eapply enqueue_life; [exact H1|exact Hq|exact E3|exact Hr2].
    + eapply life_bind; [| |exact E|done]; [|cbv beta; keep]. intros r1 w2 E2 _. eapply life_setState; [exact H1|exact Hn|exact E2].
  - exfalso. revert E1. unfold throttle. destruct env_throttle as [h|]; [|done].
    unfold mbind, M_bind, load. by destruct (_ !! p).
Qed.

(** The first message through the machine of a new parent: a client's request on
    its way out, a server's on its way in. *)
Inductive begins (w : World) : World -> Prop :=
| begins_client p r w' :
    client_type (f_type (t_fsm (w_parent w))) -> onSendMessage Parent p w = (r, w') -> r <> UB -> begins w w'
| begins_ist p tp r w' :
    accept Parent SIPIst.QUEUED SIPIst.PROCEEDING (Some #"Allocating Channel") p tp w = (r, w') -> r <> UB -> begins w w'
| begins_nist p tp r w' :
    accept Parent SIPNist.QUEUED SIPNist.TRYING None p tp w = (r, w') -> r <> UB -> begins w w'.

Lemma begins_life w w' : t_state (w_parent w) = TRN_STATE_IDLE -> begins w w' -> life w'.
Proof.
  intros Hs [p r ? Hc E Hr|p tp r ? E Hr|p tp r ? E Hr];
    [by eapply client_starts| |];
    (eapply server_starts; [exact Hs| | |exact E|exact Hr]; done).
Qed.


(** C3: no transaction set outlives its lifetime timer.  From the first message
    through the machine of a new transaction on, after any sequence of steps the
    parent has terminated or its lifetime timer is pending; and when that timer
    expires, the parent and all its branches are terminated and the pool lets go
    of it, without an exception. *)
Theorem lifetime_bounds w0 w w' :
  t_state (w_parent w0) = TRN_STATE_IDLE -> begins w0 w -> rtc step w w' ->
  t_hasTerminated (w_parent w') = true \/
  exists ms w'', f_timers (t_fsm (w_parent w')) !! TimerMaxLifetime = Some ms /\
    expire Parent TimerMaxLifetime w' = (Ret tt, w'') /\ w_inPool w'' = false /\
    forall self t, lookup_trn w'' self = Some t -> t_hasTerminated t = true.
Proof.
  intros Hi Hb Hs. destruct (run_life _ _ (steps_run _ _ Hs) (begins_life _ _ Hi Hb)) as [H|[[ms Hl] _]]; [by left|].
  destruct (t_hasTerminated (w_parent w')) eqn:Eh; [by left|]. right. exists ms.
  destruct (expire_lifetime_run w') as (w1 & w2 & _ & E & _ & _ & Ht). exists w2.
  destruct (Ht Eh). by split_and!.
Qed.

End handlers.

(** ** A concrete environment and transaction *)

(** Nothing can be connected or resolved, and there is no throttling. *)
Definition quiet_env : Env := {|
  env_keepAlive := fun _ _ => false;
  env_createTransport := fun _ _ _ _ _ _ => None;
  env_fromV4IPPort := fun _ _ => noAddress;
  env_currentTransaction := fun _ _ => [];
  env_throttle := None;
  env_requestHandler := true
|}.

Definition udp_session : Transport :=
  Session false false false (Addr #"10.0.0.1" false 5060 UDP) (Addr #"10.0.0.2" false 5060 UDP) 1 400.

Definition invite_lines : list string :=
  ["INVITE sip:b@h SIP/2.0"; "Via: SIP/2.0/UDP h;branch=z9hG4bK1"; "From: <sip:a@h>;tag=1";
   "To: <sip:b@h>"; "Call-ID: c1"; "CSeq: 1 INVITE"; "Content-Length: 0"]%string.
Definition text_of (ls : list string) : str := concat (map (fun l => lit l ++ CRLF) ls).
Definition invite_request : SIPMessage := fromPacket (boost := boost_reference) (text_of invite_lines ++ CRLF) IDLE.

(** A client transaction that has sent nothing; message 0 is the request. *)
Definition new_ict : World :=
  mkWorld
    ((newTransaction #"invite1z9hG4bK1" InviteClient defaultTimers) <| t_transport := Some udp_session |>
       <| t_responseTU := true |> <| t_pInitialRequest := Some 0%nat |>)
    ∅ true true defaultTimers {[ 0%nat := invite_request ]} [].

Definition sent_ict : World :=
  snd (onSendMessage (boost := boost_reference) Parent 0%nat new_ict).


Lemma lifetime_bounds_witness :
  t_hasTerminated (w_parent sent_ict) = true \/
  exists ms w'', f_timers (t_fsm (w_parent sent_ict)) !! TimerMaxLifetime = Some ms /\
    expire (boost := boost_reference) (env := quiet_env) Parent TimerMaxLifetime sent_ict = (Ret tt, w'') /\
    w_inPool w'' = false /\ forall self t, lookup_trn w'' self = Some t -> t_hasTerminated t = true.
Proof.
  apply (lifetime_bounds (boost := boost_reference) (env := quiet_env) new_ict sent_ict sent_ict).
  - reflexivity.
  - apply (begins_client _ 0%nat (fst (onSendMessage (boost := boost_reference) Parent 0%nat new_ict))).
    + by left.
    + apply surjective_pairing.
    + vm_compute. discriminate.
  - apply rtc_refl.
Defined.
