(* ===== verification/FsmOnce.v ===== *)
(** * A client transaction has one result

    The user of a client transaction is told about any number of provisional
    responses, but of at most one final result: a final response or a timeout.
    The invariant counts the final calls of each transaction and ties the count
    to the state; the handlers are taken through it with a small Hoare logic. *)

From S2P Require Import Prelude CoreStrings SipParser SipHeaders SipMessage SipResponse.
From S2P Require Import TransactionTimers Transaction ClientFsm ServerFsm FsmLogic FsmFacts.
Open Scope Z_scope.

(** ** Final results *)

Section provisional.
Context {boost : BoostString}.

Definition provisional (m : SIPMessage) : bool :=
  match is1xx m 0 with Ret (r, _) => tb_true r | _ => false end.

(** Everything the callback can be given, but a provisional response. *)
Definition final_result (error : option string) (m : option SIPMessage) : bool :=
  match error, m with None, Some m => negb (provisional m) | _, _ => true end.

Definition final_call (self : who) (e : event) : Prop :=
  match e with EvResponseTU s error m _ => s = self /\ final_result error m = true | _ => False end.
#[export] Instance final_call_dec self e : Decision (final_call self e).
Proof. destruct e; simpl; apply _. Defined.
Definition finals (self : who) (tr : list event) : list event := filter (final_call self) tr.

Lemma isResponse_again m r m' : isResponse m = Ret (r, m') -> isResponse m' = Ret (r, m').
Proof.
  unfold isResponse. rewrite !cache_ignored. destruct (length (m_startLine m) =? 0)%nat eqn:El; [done|].
  destruct (statusLineVerify _) as [[]|e|] eqn:Es; simpl; [|destruct (requestLineVerify _) as [[]|e|] eqn:Er|done|done];
    simpl; try done; intros [= <- <-]; simpl; rewrite El, Es; simpl; try rewrite Er; done.
Qed.

Lemma is1xx_again m r m' : is1xx m 0 = Ret (r, m') -> is1xx m' 0 = Ret (r, m').
Proof.
  unfold is1xx, isNxx, isResponseFamily. simpl. unfold first_digit.
  destruct (isResponse m) as [[b m1]|e|] eqn:E; simpl; [|done|done].
  destruct (tb_true (tb_not b)) eqn:Eb.
  - intros [= <- <-]. rewrite (isResponse_again _ _ _ E). simpl. by rewrite Eb.
  - intros H. assert (m' = m1) as ->.
    { revert H. by destruct (at_index _ _) as [c| |]; simpl; [intros [= _ <-]| |]. }
    rewrite (isResponse_again _ _ _ E). simpl. by rewrite Eb.
Qed.
End provisional.

(** ** The invariant *)

Section once.
Context {boost : BoostString} {lexical : BoostLexical} {env : Env}.
Context (ty : TransactionType).

(** The states before a final result. *)
Definition low (s : Z) : Prop := s = TRN_STATE_IDLE \/ s = TRYING \/ s = PROCEEDING.

(** A transaction whose user has had [n] final calls. *)
Record ok (t : SIPTransaction) (n : nat) : Prop := Ok {
  ok_type : f_type (t_fsm t) = ty;
  ok_state : low (t_state t) \/ t_state t = COMPLETED \/ t_state t = TRN_STATE_TERMINATED;
  ok_term : t_hasTerminated t = true -> t_state t = TRN_STATE_TERMINATED;
  ok_count : (n <= 1)%nat;
  ok_low : low (t_state t) -> n = 0%nat;
  ok_timerB : ty = InviteClient -> t_state t = PROCEEDING \/ t_state t = COMPLETED ->
    f_timers (t_fsm t) !! TimerB = None
}.

(** Between the final call and the change of state that follows it. *)
Record ok_but (t : SIPTransaction) (n : nat) : Prop := OkBut {
  but_type : f_type (t_fsm t) = ty;
  but_term : t_hasTerminated t = true -> t_state t = TRN_STATE_TERMINATED;
  but_count : (n <= 1)%nat
}.

Definition fact : Type := who -> SIPTransaction -> nat -> Prop.

Definition every (P : fact) (w : World) : Prop :=
  (forall tag, w_branches w !! tag = None -> finals (Branch tag) (w_trace w) = []) /\
  forall self t, lookup_trn w self = Some t -> P self t (length (finals self (w_trace w))).

(** The invariant, with a fact about some of the transactions. *)
Definition holds (Q : fact) : World -> Prop := every (fun s t n => ok t n /\ Q s t n).
Definition nothing : fact := fun _ _ _ => True.
Definition once : World -> Prop := holds nothing.
Definition but (self : who) : World -> Prop :=
  every (fun s t n => if decide (s = self) then ok_but t n else ok t n).

(** The facts: the state of a transaction, timers that are not pending. *)
Definition in_state (self : who) (S : Z -> Prop) : fact := fun s t _ => s = self -> S (t_state t).
Definition stopped (p : option who) (tms : list Timer) : fact := fun s t _ =>
  p = Some s -> forall tm, tm ∈ tms -> f_timers (t_fsm t) !! tm = None.
Definition both (Q1 Q2 : fact) : fact := fun s t n => Q1 s t n /\ Q2 s t n.

Class Stable (Q : fact) : Prop :=
  stable : forall s t t' n, t_state t' = t_state t -> f_timers (t_fsm t') ⊆ f_timers (t_fsm t) ->
    Q s t n -> Q s t' n.

#[local] Instance stable_nothing : Stable nothing.
Proof. done. Qed.
#[local] Instance stable_in_state self S : Stable (in_state self S).
Proof. intros s t t' n E _ H Hs. rewrite E. by apply H. Qed.
#[local] Instance stable_stopped p tms : Stable (stopped p tms).
Proof.
  intros s t t' n _ Hm H Hp tm Htm. specialize (H Hp tm Htm).
  by apply (lookup_weaken_None _ (f_timers (t_fsm t))).
Qed.
#[local] Instance stable_both Q1 Q2 : Stable Q1 -> Stable Q2 -> Stable (both Q1 Q2).
Proof. intros H1 H2 s t t' n E Hm [? ?]. split; [by eapply H1|by eapply H2]. Qed.

Lemma ok_stable t t' n : t_state t' = t_state t -> t_hasTerminated t' = t_hasTerminated t ->
  f_type (t_fsm t') = f_type (t_fsm t) -> f_timers (t_fsm t') ⊆ f_timers (t_fsm t) -> ok t n -> ok t' n.
Proof.
  intros Es Eh Et Hm [H1 H2 H3 H4 H5 H6]. split; rewrite ?Es, ?Eh, ?Et; auto.
  intros Hi Hs. apply (lookup_weaken_None _ (f_timers (t_fsm t))); auto.
Qed.

(** ** Rules *)

Lemma every_weaken P Q w : (forall s t n, P s t n -> Q s t n) -> every P w -> every Q w.
Proof. intros H [H1 H2]. split; auto. Qed.

Lemma every_put P Q w self t t' : lookup_trn w self = Some t -> every P w ->
  (forall n, P self t n -> Q self t' n) -> (forall s u n, s <> self -> P s u n -> Q s u n) ->
  every Q (put_trn w self t').
Proof.
  intros E [H1 H2] Hq Ho. destruct (put_trn_same w self t') as (Etr & _). split.
  - intros tag Ht. rewrite Etr. apply H1. destruct self as [|a]; simpl in Ht; [done|].
    by apply lookup_insert_None in Ht as [? _].
  - intros s u. rewrite lookup_put, Etr. destruct (decide (self = s)) as [<-|Hn]; [intros [= <-]; auto|].
    intros Hu. apply Ho; [congruence|auto].
Qed.

Lemma finals_skip self e tr : ~ final_call self e -> finals self (e :: tr) = finals self tr.
Proof. intros H. unfold finals. by rewrite filter_cons_False. Qed.

Lemma every_emit P w e : (forall self, ~ final_call self e) -> every P w ->
  every P (w <| w_trace := e :: w_trace w |>).
Proof.
  intros He [H1 H2]. split.
  - intros tag Ht. simpl. rewrite finals_skip by done. by apply H1.
  - intros self t Ht. simpl. rewrite finals_skip by done. by apply H2.
Qed.

#[local] Instance holds_frame Q : Stable Q -> Frame (Inv (holds Q)).
Proof.
  intros HQ. split.
  - apply _.
  - intros e He w. simpl. intros Hw. apply every_emit; [|done]. intros self Hf.
    by destruct e.
  - intros p m w Hw. exact Hw.
  - intros m w Hw. exact Hw.
  - intros self f Hf w. unfold modify. destruct (lookup_trn w self) as [t|] eqn:E; [|done]. intros Hw.
    destruct (Hf t) as (Es & Eh & _ & Et & Em & _).
    eapply every_put; [done|done| |done]. intros n [Hk Hq].
    split; [apply (ok_stable t)|apply (HQ self t)]; by rewrite ?Em.
  - intros self tm _ w. unfold cancel_timer, modify_fsm, modify.
    destruct (lookup_trn w self) as [t|] eqn:E; [|done]. intros Hw.
    eapply every_put; [done|done| |done]. intros n [Hk Hq].
    split; [apply (ok_stable t)|apply (HQ self t)]; try done; apply delete_subseteq.
Qed.

(** [{{P}} c {{Q}}]: an exception leaves the invariant. *)
Definition hoare {A} (P : World -> Prop) (c : M A) (Q : A -> World -> Prop) : Prop :=
  forall w, P w -> match c w with (Ret a, w') => Q a w' | (Throw _, w') => once w' | (UB, _) => True end.

Lemma holds_once Q w : holds Q w -> once w.
Proof. apply every_weaken. by intros s t n [? _]. Qed.

Lemma hoare_bind {A B} P Q R (c : M A) (f : A -> M B) :
  hoare P c Q -> (forall a, hoare (Q a) (f a) R) -> hoare P (c ≫= f) R.
Proof.
  intros Hc Hf w Hw. specialize (Hc w Hw). unfold mbind, M_bind. destruct (c w) as [[a|e|] w']; [|done|done].
  by apply Hf.
Qed.

Lemma hoare_weaken {A} (P P' : World -> Prop) (Q Q' : A -> World -> Prop) c :
  (forall w, P w -> P' w) -> (forall a w, Q' a w -> Q a w) -> hoare P' c Q' -> hoare P c Q.
Proof.
  intros HP HQ Hc w Hw. specialize (Hc w (HP _ Hw)). destruct (c w) as [[a|e|] w']; auto.
Qed.

Lemma hoare_keeps {A} Q (c : M A) : Keeps (Inv (holds Q)) c -> hoare (holds Q) c (fun _ => holds Q).
Proof.
  intros Hc w Hw. specialize (Hc w). destruct (c w) as [[a|e|] w']; [by apply Hc| |done].
  eapply holds_once. by apply Hc.
Qed.

Lemma keeps_hoare {A} (c : M A) : hoare once c (fun _ => once) -> Keeps (Inv once) c.
Proof. intros Hc w. specialize (Hc w). destruct (c w) as [[a|e|] w']; [exact Hc|exact Hc|done]. Qed.

Lemma hoare_when (P : World -> Prop) b c (Q : unit -> World -> Prop) :
  (b = true -> hoare P c Q) -> (b = false -> forall w, P w -> Q tt w) -> hoare P (when b c) Q.
Proof. intros H1 H2 w Hw. destruct b; [by apply H1|]. by apply H2. Qed.

Lemma holds_weaken (Q Q' : fact) w : (forall s t n, ok t n -> Q s t n -> Q' s t n) -> holds Q w -> holds Q' w.
Proof. intros H. apply every_weaken. intros s t n [? ?]. auto. Qed.

(** *** The operations that are not frames *)

(** A state change of [self]; there is none from TERMINATED. *)
Lemma hoare_setState_from (P Q : fact) self s :
  (forall t n, (t_state t = TRN_STATE_TERMINATED -> s = TRN_STATE_TERMINATED) -> ok t n -> P self t n ->
     ok (t <| t_state := s |>) n /\ Q self (t <| t_state := s |>) n) ->
  (forall s t n, s <> self -> P s t n -> Q s t n) ->
  hoare (holds P) (setState self s) (fun _ => holds Q).
Proof.
  intros Hself Hother w Hw. destruct (lookup_trn w self) as [t|] eqn:E.
  2:{ unfold setState, mbind, M_bind, trn. by rewrite E. }
  assert ((t_state t = TRN_STATE_TERMINATED -> s = TRN_STATE_TERMINATED) ->
    holds Q (put_trn w self (t <| t_state := s |>))) as Hq.
  { intros Hs. eapply every_put; [done|done| |].
    - intros n [Hk Hp]. by apply Hself.
    - intros s' u n Hn [Hk Hp]. auto. }
  rewrite (setState_run _ _ _ _ E). destruct (t_state t =? s) eqn:Es.
  - bools. rewrite put_id in Hq; [apply Hq; congruence|]. rewrite E. destruct t. simpl in Es. by subst.
  - destruct (_ =? TRN_STATE_TERMINATED) eqn:Et; bools; [by eapply holds_once|by apply Hq].
Qed.

Lemma hoare_setState (P Q : fact) self s :
  (forall t n, ok t n -> P self t n ->
     ok (t <| t_state := s |>) n /\ Q self (t <| t_state := s |>) n) ->
  (forall s t n, s <> self -> P s t n -> Q s t n) ->
  hoare (holds P) (setState self s) (fun _ => holds Q).
Proof. intros H. apply hoare_setState_from. auto. Qed.

Lemma ok_terminated t n : ok t n -> ok (t <| t_state := TRN_STATE_TERMINATED |>) n.
Proof.
  intros [H1 H2 H3 H4 H5 H6]. split; simpl; try done.
  - by right; right.
  - by intros [?|[?|?]].
  - by intros ? [?|?].
Qed.

Lemma hoare_getState P self : hoare (holds P) (getState self)
  (fun s => holds (both P (in_state self (eq s)))).
Proof.
  intros w Hw. destruct (lookup_trn w self) as [t|] eqn:E.
  - rewrite (getState_run _ _ _ E). destruct Hw as [H1 H2]. split; [done|]. intros s u Hu.
    destruct (H2 s u Hu). split; [done|]. split; [done|]. intros ->. congruence.
  - unfold getState, mbind, M_bind, trn. by rewrite E.
Qed.

Lemma hoare_getParent P self : hoare P (getParent self)
  (fun pp w => P w /\ (pp = None \/ pp = Some Parent /\ isParent self = false)).
Proof.
  intros w Hw. unfold getParent, mbind, M_bind, get. simpl. split; [done|].
  destruct self; simpl; [by left|]. destruct (w_parentLocks w); auto.
Qed.

Lemma without_sub tms m : without tms m ⊆ m.
Proof.
  revert m. induction tms as [|tm tms IH]; intros m; simpl; [done|].
  etransitivity; [apply IH|apply delete_subseteq].
Qed.
Lemma without_gone tms m tm : tm ∈ tms -> without tms m !! tm = None.
Proof.
  revert m. induction tms as [|x tms IH]; intros m Hin; simpl; [by apply elem_of_nil in Hin|].
  apply elem_of_cons in Hin as [->|Hin]; [|by apply IH].
  apply (lookup_weaken_None _ (delete x m)); [apply lookup_delete_eq|apply without_sub].
Qed.

Lemma hoare_cancel P `{!Stable P} self tms : hoare (holds P) (cancel_each self tms)
  (fun _ => holds (both P (stopped (Some self) tms))).
Proof.
  intros w Hw. destruct (lookup_trn w self) as [t|] eqn:E.
  - rewrite (cancel_each_run _ _ _ _ E). eapply every_put; [done|done| |].
    + intros n [Hk Hp]. split; [by apply (ok_stable t); try done; apply without_sub|].
      split; [by apply (stable self t); [done|apply without_sub|]|]. intros _ tm Hin. by apply without_gone.
    + intros s u n Hn [Hk Hp]. split; [done|]. split; [done|]. congruence.
  - destruct tms as [|tm tms].
    + eapply holds_weaken; [|exact Hw]. intros s u n _ Hp. split; [done|]. intros _ tm Hin. by apply elem_of_nil in Hin.
    + simpl. unfold mbind, M_bind, cancel_timer, modify_fsm, modify. by rewrite E.
Qed.

Lemma hoare_cancel_both P `{!Stable P} self pp tms : hoare (holds P) (cancel_both self pp tms)
  (fun _ => holds (both (both P (stopped (Some self) tms)) (stopped pp tms))).
Proof.
  unfold cancel_both. eapply hoare_bind; [by apply hoare_cancel|]. intros []. cbv beta.
  destruct pp as [p|]; simpl; [apply hoare_cancel, _|].
  intros w Hw. eapply holds_weaken; [|exact Hw]. intros s t n _ Hq. by split.
Qed.

(** *** Calls of the user *)

Definition fresh (self : who) : fact := fun s _ n => s = self -> n = 0%nat.
#[local] Instance stable_fresh self : Stable (fresh self).
Proof. by intros s t t' n _ _. Qed.

Lemma every_call P Q w self t error m tp : lookup_trn w self = Some t -> every P w ->
  (forall n, P self t n -> Q self t (if final_result error m then S n else n)) ->
  (forall s u n, s <> self -> P s u n -> Q s u n) ->
  every Q (w <| w_trace := EvResponseTU self error m tp :: w_trace w |>).
Proof.
  intros E [H1 H2] Hself Hother. split.
  - intros tag Ht. simpl in Ht |- *. rewrite finals_skip; [by apply H1|]. intros [-> _]. simpl in E. congruence.
  - intros s u Hu. simpl. destruct (decide (s = self)) as [->|Hn].
    + replace (lookup_trn _ self) with (lookup_trn w self) in Hu by (by destruct self). simplify_eq.
      specialize (Hself _ (H2 _ _ E)). unfold finals. destruct (final_result error m) eqn:Ef.
      * by rewrite filter_cons_True.
      * rewrite filter_cons_False; [done|]. intros [_ ?]. congruence.
    + rewrite finals_skip by (by intros [? _]). apply Hother; [done|]. apply H2. by destruct s.
Qed.

(** What [report] does, for a fact [P] before and [Q] after. *)
Lemma report_cases P Q w self error pm tp : every P w ->
  (forall s t n, s <> self -> P s t n -> Q s t n) ->
  (forall t n, t_state t = TRN_STATE_TERMINATED \/ t_responseTU t = false -> P self t n -> Q self t n) ->
  (forall t n m, t_state t <> TRN_STATE_TERMINATED ->
     (match pm with Some p => m = w_msgs w !! p | None => m = None end) ->
     P self t n -> Q self t (if final_result error m then S n else n)) ->
  match report self error pm tp w with (Ret _, w') => every Q w' | (Throw _, w') => once w' | (UB, _) => True end.
Proof.
  intros Hw Ho Hsilent Hcall. unfold report. destruct (lookup_trn w self) as [t|] eqn:E.
  2:{ unfold mbind, M_bind, trn. by rewrite E. }
  rewrite (bind_run _ _ _ _ _ (trn_run _ _ _ E)). destruct (t_responseTU t && _) eqn:Et; simpl.
  - bools. assert (t_state t <> TRN_STATE_TERMINATED) by congruence.
    destruct pm as [p|]; [|eapply every_call; eauto].
    unfold mbind, M_bind, load. destruct (w_msgs w !! p) as [m|] eqn:Em; [|done].
    eapply every_call; [done|done| |done]. intros n. by apply Hcall.
  - destruct Hw as [H1 H2]. split; [done|]. intros s u Hu. destruct (decide (s = self)) as [->|Hn]; [|auto].
    simplify_eq. apply Hsilent; [|auto]. apply andb_false_iff in Et as [Et|Et]; bools; auto.
Qed.

Definition is_provisional (p : msgref) (w : World) : Prop :=
  exists m, w_msgs w !! p = Some m /\ provisional m = true.

Lemma hoare_is1xx Q `{!Stable Q} p : hoare (holds Q) (msg_is1xx p)
  (fun b w => holds Q w /\ (b = true -> is_provisional p w)).
Proof.
  intros w Hw. unfold msg_is1xx, classify, mbind, M_bind, load. destruct (w_msgs w !! p) as [m|]; [|done].
  unfold lift. destruct (is1xx m 0) as [[r m']|e|] eqn:E; simpl; [|by eapply holds_once|done].
  split; [exact Hw|]. intros Hr. exists m'. simpl. rewrite lookup_insert_eq. split; [done|].
  unfold provisional. by rewrite (is1xx_again _ _ _ E).
Qed.

Lemma report_provisional Q self p tp : hoare (fun w => holds Q w /\ is_provisional p w)
  (informTU self p tp) (fun _ => holds Q).
Proof.
  intros w [Hw (m & Em & Hm)]. eapply report_cases; [exact Hw|auto|auto|].
  intros t n m' _ Hm'. rewrite Em in Hm'. subst m'. simpl. by rewrite Hm.
Qed.

(** A final call before the final state is set. *)
Lemma report_then Q self error pm tp :
  (forall t n, Q self t n -> low (t_state t) \/ t_state t = TRN_STATE_TERMINATED) ->
  hoare (holds Q) (report self error pm tp) (fun _ => but self).
Proof.
  intros HQ w Hw. eapply report_cases; [exact Hw|..].
  - intros s t n Hn [Hk _]. by rewrite decide_False.
  - intros t n _ [[] _]. rewrite decide_True by done. by split.
  - intros t n m Ht _ [Hk Hq]. rewrite decide_True by done. destruct (HQ _ _ Hq) as [Hl|]; [|done].
    rewrite (ok_low _ _ Hk Hl). destruct Hk. split; [done|done|]. destruct (final_result _ _); lia.
Qed.

(** A final call in the state COMPLETED. *)
Lemma report_completed self error pm tp :
  hoare (holds (both (fresh self) (in_state self (eq COMPLETED)))) (report self error pm tp)
    (fun _ => holds (in_state self (eq COMPLETED))).
Proof.
  intros w Hw. eapply report_cases; [exact Hw|..].
  - by intros s t n Hn [Hk [_ Hs]].
  - by intros t n _ [Hk [_ Hs]].
  - intros t n m Ht _ [[H1 H2 H3 H4 H5 H6] [Hf Hs]]. split; [|done]. specialize (Hs eq_refl).
    rewrite (Hf eq_refl). split; try done; [by destruct (final_result _ _); lia|].
    rewrite <- Hs. by intros [?|[?|?]].
Qed.

(** The change of state that follows a final call. *)
Lemma but_put w self t t' : lookup_trn w self = Some t -> but self w -> f_type (t_fsm t') = f_type (t_fsm t) ->
  t_state t' = TRN_STATE_TERMINATED -> once (put_trn w self t').
Proof.
  intros E Hw Ht Hs. eapply every_put; [done|exact Hw| |]; cbv beta.
  - intros n. rewrite decide_True by done. intros [H1 H2 H3]. split; [|done].
    split; rewrite ?Hs; try done; [congruence|by right; right|by intros [?|[?|?]]|by intros ? [?|?]].
  - intros s u n Hn. rewrite decide_False by done. by split.
Qed.

Lemma but_setState self : hoare (but self) (setState self TRN_STATE_TERMINATED) (fun _ => once).
Proof.
  intros w Hw. destruct (lookup_trn w self) as [t|] eqn:E.
  - rewrite (setState_term_run _ _ _ E). by eapply but_put.
  - unfold setState, mbind, M_bind, trn. by rewrite E.
Qed.

Lemma every_blocked P w t : every P w -> every P (note_blocked w t).
Proof. unfold note_blocked. destruct (blocked_id t); [|done]. apply every_emit. by intros ? ?. Qed.

Lemma but_terminate_self self : hoare (but self) (terminate_self self) (fun _ => once).
Proof.
  intros w Hw. destruct (lookup_trn w self) as [t|] eqn:E.
  - rewrite (terminate_self_run _ _ _ E). destruct (t_hasTerminated t) eqn:Eh.
    + rewrite <- (put_id w self t E). eapply but_put; [done|done|done|].
      pose proof (proj2 Hw self t E) as H. cbv beta in H. rewrite decide_True in H by done. by apply H.
    + by eapply but_put; [rewrite lookup_note_blocked|apply every_blocked|..].
  - unfold terminate_self, mbind, M_bind, trn. by rewrite E.
Qed.

Lemma once_but self w : once w -> but self w.
Proof.
  apply every_weaken. intros s t n [Hk _]. destruct (decide (s = self)); [|done]. destruct Hk. by split.
Qed.

Lemma once_emit e : (forall self, ~ tu_call self e) -> Keeps (Inv once) (emit e).
Proof.
  intros He w. simpl. intros Hw. apply every_emit; [|done]. intros self Hf. apply (He self).
  destruct e; simpl in Hf |- *; try done. by destruct Hf.
Qed.
Lemma once_leave_pool : Keeps (Inv once) leave_pool.
Proof. intros w. exact (fun H => H). Qed.
Lemma once_terminate_self self : Keeps (Inv once) (terminate_self self).
Proof.
  apply keeps_hoare. eapply hoare_weaken; [apply once_but|by intros ? ? Hx; exact Hx|].
  apply but_terminate_self.
Qed.

#[local] Instance once_ending : Ending (Inv once).
Proof.
  apply make_ending; [apply _|apply once_emit|apply once_leave_pool|apply once_terminate_self|].
  intros w tag E [H1 H2]. split; simpl.
  - intros tag' Ht. apply H1. by apply lookup_insert_None in Ht as [? _].
  - intros [|tag'] t; simpl; [apply (H2 Parent)|]. intros Ht.
    apply lookup_insert_Some in Ht as [[<- <-]|[_ Ht]]; [|by apply (H2 (Branch tag'))].
    rewrite H1 by done. split; [|done]. destruct (H2 Parent _ eq_refl) as [[Ht _ _ _ _ _] _].
    split; simpl; try done; try lia. by left; left.
Qed.

(** ** The machines *)

Ltac hkeep := apply hoare_keeps; keep.

Lemma once_start Q `{!Stable Q} self tm ms :
  (forall t n, Q self t n -> ty = InviteClient -> tm = TimerB -> t_state t = TRN_STATE_IDLE \/ t_state t = TRYING) ->
  (forall s t n ms, Q s t n -> Q s (set_timers t (<[tm := ms]> (f_timers (t_fsm t)))) n) ->
  Keeps (Inv (holds Q)) (start_timer self tm ms).
Proof.
  intros Hb Hq w. unfold start_timer, modify_fsm, modify. destruct (lookup_trn w self) as [t|] eqn:E; [|done].
  intros Hw. eapply every_put; [done|done| |done]. intros n [[H1 H2 H3 H4 H5 H6] Hp].
  split; [|by apply Hq]. split; simpl; try done. intros Hi Hs. destruct (decide (tm = TimerB)) as [->|Hn].
  - by destruct (Hb _ _ Hp Hi eq_refl) as [Hx|Hx]; rewrite Hx in Hs; destruct Hs.
  - rewrite lookup_insert_ne by done. auto.
Qed.

Lemma once_start_timer self tm ms : tm <> TimerB -> Keeps (Inv once) (start_timer self tm ms).
Proof. intros Hn. apply once_start; [apply _|done|done]. Qed.
Lemma once_start_default self tm prop ms : tm <> TimerB -> tm <> TimerMaxLifetime ->
  Keeps (Inv once) (start_default self tm prop ms).
Proof. intros. pose proof once_start_timer. unfold start_default. keep. Qed.

Lemma once_setTerminated self : Keeps (Inv once) (setState self TRN_STATE_TERMINATED).
Proof.
  apply keeps_hoare, hoare_setState; [|done]. intros t n Hk _. split; [by apply ok_terminated|done].
Qed.
Hint Resolve once_setTerminated : keeps.
Hint Extern 1 (Keeps (Inv once) (start_default _ _ _ _)) => apply once_start_default; done : keeps.

(** From a low state, without timer B. *)
Definition ready (self : who) : fact :=
  both (in_state self low) (fun s t n => s = self -> ty = InviteClient -> f_timers (t_fsm t) !! TimerB = None).
#[local] Instance stable_ready self : Stable (ready self).
Proof.
  apply stable_both; [apply _|]. intros s t t' n _ Hm H Hs Hi.
  apply (lookup_weaken_None _ (f_timers (t_fsm t))); auto.
Qed.

Lemma ready_completed self : hoare (holds (ready self)) (setState self COMPLETED)
  (fun _ => holds (both (fresh self) (in_state self (eq COMPLETED)))).
Proof.
  apply hoare_setState.
  - intros t n [H1 H2 H3 H4 H5 H6] [Hl Hb]. specialize (Hl eq_refl). specialize (H5 Hl). split; [|by split; intros _].
    split; simpl; auto. intros Hh. rewrite (H3 Hh) in Hl. by destruct Hl as [?|[?|?]].
  - intros s t n Hn _. by split; intros ?.
Qed.

Lemma handleSendAck_once self p tp b : hoare (holds (in_state self (eq COMPLETED)))
  (SIPIct.handleSendAck self p tp b) (fun _ => once).
Proof.
  unfold SIPIct.handleSendAck. eapply hoare_bind; [apply hoare_getState|]. intros s.
  destruct (s =? TRN_STATE_TERMINATED); [by intros w; apply holds_once|].
  eapply hoare_bind with (Q := fun _ => once).
  - eapply (hoare_setState _ nothing); [|done]. intros t n Hk [Hs _]. specialize (Hs eq_refl).
    rewrite Hs. by destruct t.
  - intros _. unfold startTimerD. apply (hoare_keeps nothing). fold once. keep.
Qed.

(** A precondition that is a fact of the world and a pure condition. *)
Lemma hoare_pure {A} P (X : Prop) (c : M A) Q : (X -> hoare P c Q) -> hoare (fun w => P w /\ X) c Q.
Proof. intros H w [Hw Hx]. by apply H. Qed.

Lemma hoare_pre {A} (Q Q' : fact) (c : M A) R : (forall s t n, ok t n -> Q s t n -> Q' s t n) ->
  hoare (holds Q') c R -> hoare (holds Q) c R.
Proof. intros H. apply hoare_weaken; [|done]. intros w. by apply holds_weaken. Qed.

Lemma hoare_once {A} Q (c : M A) : Keeps (Inv once) c -> hoare (holds Q) c (fun _ => once).
Proof. intros H. eapply hoare_weaken; [apply holds_once|by intros ? ? Hx; exact Hx|]. by apply (hoare_keeps nothing). Qed.

Lemma hoare_skip (Q : fact) : hoare (holds Q) skip (fun _ => once).
Proof. apply hoare_once. keep. Qed.

Lemma on2xx_once self pp p tp : hoare (holds (ready self)) (SIPIct.on2xx self pp p tp) (fun _ => once).
Proof.
  unfold SIPIct.on2xx, informTU.
  eapply hoare_bind; [hkeep|]. intros [].
  eapply hoare_bind; [apply report_then|intros []].
  { intros t n [Hl _]. left. by apply Hl. }
  eapply hoare_bind; [apply but_setState|intros []]. apply (hoare_keeps nothing). fold once. keep.
Qed.

Lemma onError_once self pp p tp : hoare (holds (ready self)) (SIPIct.onError self pp p tp) (fun _ => once).
Proof.
  unfold SIPIct.onError, informTU.
  eapply hoare_bind; [hkeep|]. intros [].
  eapply hoare_bind; [apply ready_completed|intros []].
  eapply hoare_bind; [apply report_completed|intros []]. apply handleSendAck_once.
Qed.

(** What is common to a response that is not provisional. *)
Definition ict_final (self : who) (pp : option who) (p : msgref) (tp : Transport) : M unit :=
  is2xx ← msg_is2xx p;
  if (is2xx : bool) then SIPIct.on2xx self pp p tp
  else
    isError ← msg_isErrorResponse p;
    when isError (SIPIct.onError self pp p tp).

Lemma ict_final_once self pp p tp : hoare (holds (ready self)) (ict_final self pp p tp) (fun _ => once).
Proof.
  unfold ict_final. eapply hoare_bind; [hkeep|]. intros []; [apply on2xx_once|].
  eapply hoare_bind; [hkeep|]. intros b. cbv beta. apply hoare_when; [intros _; apply onError_once|].
  intros _ w. apply holds_once.
Qed.

(** Operations that leave the messages alone. *)
Definition same_msgs (w w' : World) : Prop := w_msgs w' = w_msgs w.
#[local] Instance same_msgs_preorder : PreOrder same_msgs.
Proof. split; [done|]. unfold same_msgs. intros w1 w2 w3. congruence. Qed.

Lemma same_msgs_setState self s : Keeps same_msgs (setState self s).
Proof.
  intros w. destruct (lookup_trn w self) as [t|] eqn:E.
  - rewrite (setState_run _ _ _ _ E). destruct (_ =? s); [done|]. destruct (_ =? _); [done|]. by destruct self.
  - unfold setState, mbind, M_bind, trn. by rewrite E.
Qed.
Lemma same_msgs_getState self : Keeps same_msgs (getState self).
Proof. unfold getState. keep. Qed.
Hint Resolve same_msgs_setState same_msgs_getState : keeps.

Lemma hoare_provisional {A} P Q p (c : M A) : hoare P c Q -> Keeps same_msgs c ->
  hoare (fun w => P w /\ is_provisional p w) c (fun a w => Q a w /\ is_provisional p w).
Proof.
  intros H Hk w [Hw (m & Hm)]. specialize (H w Hw). specialize (Hk w).
  destruct (c w) as [[a|e|] w']; [|done|done]. split; [done|]. exists m. by rewrite Hk.
Qed.

(** To PROCEEDING, for a transaction in a state before it. *)
Lemma to_proceeding X self : (forall t n, X self t n -> X self (t <| t_state := PROCEEDING |>) n) ->
  hoare (holds (both (ready self) X)) (setState self PROCEEDING) (fun _ => holds X).
Proof.
  intros HX. apply hoare_setState; [|by intros s t n _ [_ ?]]. intros t n [H1 H2 H3 H4 H5 H6] [[Hl Hb] Hx].
  specialize (Hl eq_refl). specialize (H5 Hl). split; [|auto]. split; simpl; auto.
  - left. by right; right.
  - intros Hh. rewrite (H3 Hh) in Hl. by destruct Hl as [?|[?|?]].
Qed.

Definition timerB_stopped (pp : option who) : fact := fun s t _ =>
  pp = Some s -> ty = InviteClient -> f_timers (t_fsm t) !! TimerB = None.

#[local] Instance stable_timerB_stopped pp : Stable (timerB_stopped pp).
Proof.
  intros s t t' n _ Hm H Hs Hi. apply (lookup_weaken_None _ (f_timers (t_fsm t))); auto.
Qed.

Lemma parent_proceeding pp : hoare (holds (timerB_stopped pp))
  (with_parent pp (fun p => s ← getState p; when (s <? PROCEEDING) (setState p PROCEEDING))) (fun _ => once).
Proof.
  destruct pp as [p|]; simpl; [|apply hoare_skip].
  eapply hoare_bind; [apply hoare_getState|]. intros s. apply hoare_when; [|intros _ w; apply holds_once].
  intros Hs. bools. eapply hoare_pre; [|by apply (to_proceeding nothing)].
  intros s' t n Hk [Hb Hst]. split; [|done]. split; [|by intros ->; apply Hb].
  intros Hp. specialize (Hst Hp). destruct (ok_state _ _ Hk) as [?|[H|H]]; [done| |];
    rewrite H in Hst; subst s; done.
Qed.

Lemma proceeding_once (self : who) (pp : option who) p tp :
  hoare (fun w => holds (both (ready self) (timerB_stopped pp)) w /\ is_provisional p w)
    (setState self PROCEEDING;;
     with_parent pp (fun p => s ← getState p; when (s <? PROCEEDING) (setState p PROCEEDING));;
     informTU self p tp) (fun _ => once).
Proof.
  eapply hoare_bind; [apply hoare_provisional; [by apply to_proceeding|keep]|intros []].
  eapply hoare_bind; [apply hoare_provisional; [apply parent_proceeding|keep]|intros []].
  apply report_provisional.
Qed.

Lemma ict_on_response_once self pp p tp : Keeps (Inv once) (SIPIct.on_response self pp p tp).
Proof.
  apply keeps_hoare. unfold SIPIct.on_response. eapply hoare_bind; [apply hoare_getState|]. intros s.
  fold (ict_final self pp p tp).
  destruct (_ || _) eqn:E1; [|destruct (s =? PROCEEDING) eqn:E2].
  - eapply hoare_bind; [apply hoare_cancel_both, _|intros []]; cbv beta.
    eapply (hoare_pre _ (both (ready self) (timerB_stopped pp))).
    { intros s' t n Hk [[[_ Hs] Ha] Hb]. split; [split|].
      - intros Hp. specialize (Hs Hp). subst s. apply orb_true_iff in E1 as [E1|E1]; bools; unfold low; auto.
      - intros -> _. apply Ha; [done|]. set_solver.
      - intros Hp _. apply Hb; [done|]. set_solver. }
    eapply hoare_bind; [apply hoare_is1xx, _|]. intros []; cbv beta.
    + eapply hoare_weaken; [|by intros ? ? Hx; exact Hx|apply proceeding_once].
      intros w [H1 H2]. auto.
    + eapply hoare_weaken; [|by intros ? ? Hx; exact Hx|apply ict_final_once].
      intros w [Hw _]. revert Hw. apply holds_weaken. by intros ? ? ? _ [? _].
  - eapply (hoare_pre _ (ready self)).
    { bools. intros s' t n Hk [_ Hs]. split; [intros Hp|intros Hp Hi].
      - specialize (Hs Hp). right; right. congruence.
      - apply (ok_timerB _ _ Hk Hi). left. specialize (Hs Hp). congruence. }
    eapply hoare_bind; [apply hoare_is1xx, _|]. intros []; cbv beta.
    + eapply hoare_weaken; [|intros ? w; apply (holds_once (ready self))|apply report_provisional].
      intros w [H1 H2]. auto.
    + eapply hoare_weaken; [|by intros ? ? Hx; exact Hx|apply ict_final_once]. by intros w [Hw _].
  - apply hoare_when; [|intros _ w; apply holds_once]. intros E3. bools.
    eapply hoare_bind; [hkeep|]. intros b. cbv beta. apply hoare_when; [|intros _ w; apply holds_once]. intros _.
    eapply hoare_pre; [|apply handleSendAck_once]. intros s' t n _ [_ Hs] Hp. rewrite <- (Hs Hp). by subst.
Qed.

Hint Resolve ict_on_response_once : keeps.

Lemma ict_onReceivedMessage_once self p tp : Keeps (Inv once) (SIPIct.onReceivedMessage self p tp).
Proof. unfold SIPIct.onReceivedMessage. keep. Qed.

Lemma ict_handleRetransmitInvite_once self : Keeps (Inv once) (SIPIct.handleRetransmitInvite self).
Proof. unfold SIPIct.handleRetransmitInvite, startTimerA. keep. Qed.

(** A timeout: the call, then the end of the transaction. *)
Lemma timeout_once (Q : fact) `{!Stable Q} self error :
  (forall t n, Q self t n -> low (t_state t) \/ t_state t = TRN_STATE_TERMINATED) ->
  hoare (holds Q) (handleTimeout self error;; terminate self) (fun _ => once).
Proof.
  intros HQ. eapply hoare_bind with (Q := fun _ => but self).
  - unfold handleTimeout. eapply hoare_bind; [hkeep|]. intros t. cbv beta.
    eapply hoare_bind with (Q := fun _ => but self).
    + destruct (t_transport t) as [tp|]; [|by apply report_then].
      destruct (t_pInitialRequest t) as [q|]; [|by apply report_then].
      eapply hoare_bind; [hkeep|]. intros r. by apply report_then.
    + intros _ w Hw. destruct (t_transport t) as [tp|]; [|exact Hw].
      unfold when. destruct (tp_reliable tp && tp_streamed tp); [|exact Hw]. apply every_emit; [|exact Hw]. by intros ? ?.
  - intros _. unfold terminate. eapply hoare_bind; [apply but_terminate_self|]. intros b. cbv beta.
    apply (hoare_keeps nothing). fold once.
    apply (k_finish (Inv once)); [apply once_emit|apply once_leave_pool|apply once_terminate_self].
Qed.

(** ** Starting *)

Definition early (self : who) : fact := in_state self (fun s => s = TRN_STATE_IDLE \/ s = TRYING).

Lemma early_cancel self tm : Keeps (Inv (holds (early self))) (cancel_timer self tm).
Proof.
  intros w. unfold cancel_timer, modify_fsm, modify.
  destruct (lookup_trn w self) as [t|] eqn:E; [|done]. intros Hw.
  eapply every_put; [done|done| |done]. intros n [Hk Hq]. split; [|done].
  apply (ok_stable t); try done; apply delete_subseteq.
Qed.
Lemma early_start self tm ms : Keeps (Inv (holds (early self))) (start_timer self tm ms).
Proof. apply once_start; [apply _| |done]. intros t n H _ _. by apply H. Qed.
Hint Resolve early_cancel early_start : keeps.
Lemma early_start_default self tm prop ms : Keeps (Inv (holds (early self))) (start_default self tm prop ms).
Proof. unfold start_default. keep. Qed.
Lemma early_start_exact self tm ms : Keeps (Inv (holds (early self))) (start_exact self tm ms).
Proof. unfold start_exact. keep. Qed.
Hint Resolve early_start_default early_start_exact : keeps.

Lemma early_trying self : hoare (holds (early self)) (setState self TRYING) (fun _ => holds (early self)).
Proof.
  apply hoare_setState; [|done]. intros t n [H1 H2 H3 H4 H5 H6] Hs. specialize (Hs eq_refl).
  assert (low (t_state t)) as Hl by (destruct Hs; unfold low; auto). split; [|by right].
  split; simpl; auto; [by left; right; left| |by intros ? [?|?]].
  intros Hh. rewrite (H3 Hh) in Hs. by destruct Hs.
Qed.

(** Both machines start alike. *)
Lemma starting_once {A} self ms (pMsg : option msgref) (tail : M A) :
  Keeps (Inv (holds (early self))) tail ->
  hoare (holds (in_state self (eq TRN_STATE_IDLE)))
    (startTimerMaxLifetime self ms;; modify_fsm self (fun f => f <| f_pRequest := pMsg |>);;
     setState self TRYING;; tail) (fun _ => once).
Proof.
  intros Ht. eapply (hoare_pre _ (early self)); [intros s t n _ H Hs; left; by rewrite <- (H Hs)|].
  eapply hoare_bind; [unfold startTimerMaxLifetime; hkeep|intros []].
  eapply hoare_bind; [hkeep|intros []].
  eapply hoare_bind; [apply early_trying|intros []].
  eapply hoare_weaken; [by intros w Hx; exact Hx|intros ? w; apply (holds_once (early self))|]. by apply hoare_keeps.
Qed.

Lemma ict_onSendMessage_once self p : Keeps (Inv once) (SIPIct.onSendMessage self p).
Proof.
  apply keeps_hoare. unfold SIPIct.onSendMessage. eapply hoare_bind; [apply hoare_getState|]. intros s. cbv beta.
  eapply hoare_bind with (Q := fun _ => once); [|intros []; apply (hoare_keeps nothing); fold once; keep].
  apply hoare_when; [|intros _ w; apply holds_once]. intros Hs. bools. subst s.
  eapply hoare_pre; [|apply starting_once]; [by intros ? ? ? _ [_ H]|].
  unfold startTimerA, startTimerB, startTimerClientExpires. keep.
Qed.

Lemma nict_onSendMessage_once self p : Keeps (Inv once) (SIPNict.onSendMessage self p).
Proof.
  apply keeps_hoare. unfold SIPNict.onSendMessage. eapply hoare_bind; [apply hoare_getState|]. intros s. cbv beta.
  destruct (s =? TRN_STATE_IDLE) eqn:Hs; [|apply hoare_once; keep]. bools. subst s.
  eapply hoare_pre; [|apply starting_once]; [by intros ? ? ? _ [_ H]|].
  unfold startTimerE, startTimerF. keep.
Qed.
Hint Resolve ict_onSendMessage_once nict_onSendMessage_once : keeps.

(** ** The non-invite client *)

Section nict.
Hypothesis non_invite : ty = NonInviteClient.

Lemma nict_ready self s t n : in_state self low s t n -> ready self s t n.
Proof. intros H. split; [done|]. intros _ Hi. by rewrite non_invite in Hi. Qed.

(** The parent of another transaction moves to COMPLETED. *)
Lemma parent_completed self : isParent self = false ->
  hoare (holds (ready self)) (setState Parent COMPLETED) (fun _ => holds (ready self)).
Proof.
  intros Hn. apply hoare_setState_from; [|done]. intros t n Hs [H1 H2 H3 H4 H5 H6] _.
  split; [|by destruct self; split; intros ?].
  split; simpl; auto; [by intros [?|[?|?]]|by rewrite non_invite].
Qed.

Definition own_parent (self : who) (pp : option who) : Prop :=
  pp = None \/ pp = Some Parent /\ isParent self = false.

Lemma stop_timers_once self pp b : own_parent self pp ->
  hoare (holds (ready self)) (SIPNict.stop_timers self pp b) (fun _ => holds (ready self)).
Proof.
  intros Hpp. unfold SIPNict.stop_timers.
  assert (Keeps (Inv (holds (ready self))) skip) as Hskip by keep.
  destruct (isParent self && negb b); [hkeep|]. destruct (negb (isParent self) && b).
  - eapply hoare_bind; [hkeep|]. intros []. destruct Hpp as [->|[-> Hn]]; simpl; [by apply hoare_keeps|].
    eapply hoare_bind; [hkeep|]. intros []. by apply parent_completed.
  - apply hoare_when; [|done]. intros _. eapply hoare_bind; [hkeep|]. intros [].
    destruct Hpp as [->|[-> Hn]]; simpl; [by apply hoare_keeps|].
    eapply hoare_bind; [hkeep|]. intros k. cbv beta. apply hoare_when; [|done]. intros _.
    eapply hoare_bind; [hkeep|]. intros []. by apply parent_completed.
Qed.

Lemma onFinal_once self pp b p tp : own_parent self pp ->
  hoare (holds (ready self)) (SIPNict.onFinal self pp b p tp) (fun _ => once).
Proof.
  intros Hpp. unfold SIPNict.onFinal, informTU, startTimerK.
  eapply hoare_bind; [by apply stop_timers_once|intros []].
  eapply hoare_bind; [apply ready_completed|intros []].
  eapply hoare_bind; [apply report_completed|intros []]. apply hoare_once. keep.
Qed.

Lemma nict_on_response_once self pp b p tp : own_parent self pp ->
  Keeps (Inv once) (SIPNict.on_response self pp b p tp).
Proof.
  intros Hpp. apply keeps_hoare. unfold SIPNict.on_response.
  eapply hoare_bind; [apply hoare_getState|]. intros s. cbv beta.
  destruct (_ || _) eqn:E1; [|apply hoare_when; [intros E2|intros _ w; apply holds_once]].
  - eapply (hoare_pre _ (ready self)).
    { intros s' t n Hk [_ Hs]. apply nict_ready. intros Hp. rewrite <- (Hs Hp).
      apply orb_true_iff in E1 as [E1|E1]; bools; unfold low; auto. }
    eapply hoare_bind; [apply hoare_is1xx, _|]. intros []; cbv beta.
    + eapply hoare_bind with (Q := fun _ w => once w /\ is_provisional p w); [|intros []].
      { eapply hoare_weaken; [|by intros ? ? Hx; exact Hx|apply (hoare_provisional (holds (both (ready self) nothing)))].
        - intros w [H1 H2]. split; [|by apply H2]. revert H1. apply holds_weaken. by split.
        - by apply to_proceeding.
        - keep. }
      eapply hoare_bind with (Q := fun _ w => once w /\ is_provisional p w); [|intros []; apply report_provisional].
      apply hoare_provisional; [|keep]. apply hoare_when; [intros _|by intros _ w].
      eapply hoare_pre; [|apply parent_proceeding]. intros s' t n _ _ _ Hi. by rewrite non_invite in Hi.
    + eapply hoare_weaken; [|by intros ? ? Hx; exact Hx|by apply onFinal_once]. by intros w [Hw _].
  - bools. eapply (hoare_pre _ (ready self)).
    { intros s' t n Hk [_ Hs]. apply nict_ready. intros Hp. rewrite <- (Hs Hp). unfold low. auto. }
    eapply hoare_bind; [apply hoare_is1xx, _|]. intros []; cbv beta.
    + eapply hoare_weaken; [|intros ? w; apply (holds_once (ready self))|apply report_provisional].
      intros w [H1 H2]. auto.
    + eapply hoare_weaken; [|by intros ? ? Hx; exact Hx|by apply onFinal_once]. by intros w [Hw _].
Qed.

Lemma nict_onReceivedMessage_once self p tp : Keeps (Inv once) (SIPNict.onReceivedMessage self p tp).
Proof.
  unfold SIPNict.onReceivedMessage. do 2 (apply keeps_bind; [apply _|keep|]; intros ?).
  destruct (_ || _); [keep|]. apply keeps_bind; [apply _|keep|]. intros b.
  apply keeps_hoare. eapply hoare_bind; [apply hoare_getParent|]. intros pp. apply hoare_pure. intros Hpp.
  pose proof (nict_on_response_once self pp b p tp Hpp). apply (hoare_keeps nothing). fold once. keep.
Qed.

Lemma nict_timers_once self : Keeps (Inv once) (SIPNict.handleRetransmitRequest self) /\
  Keeps (Inv once) (SIPNict.handleRequestTimeout self).
Proof.
  split; [unfold SIPNict.handleRetransmitRequest, startTimerE; keep|].
  unfold SIPNict.handleRequestTimeout. apply keeps_hoare. eapply hoare_bind; [apply hoare_getState|]. intros s.
  destruct (_ || _) eqn:E; [apply hoare_skip|]. apply orb_false_iff in E as [E1 E2]. bools.
  eapply (hoare_pre _ (in_state self low)).
  { intros s' t n Hk [_ Hs] Hp. specialize (Hs Hp). destruct (ok_state _ _ Hk) as [?|[?|?]]; [done|congruence|congruence]. }
  do 3 (eapply hoare_bind; [hkeep|]; intros []). apply timeout_once; [apply _|]. intros t n Hs. left. by apply Hs.
Qed.
End nict.

(** ** All steps *)

Lemma hoare_fsm Q self : hoare (holds Q) (fsm self) (fun f w => holds Q w /\ f_type f = ty).
Proof.
  intros w Hw. destruct (lookup_trn w self) as [t|] eqn:E.
  - rewrite (fsm_run _ _ _ E). split; [done|]. destruct Hw as [_ H2]. apply (H2 self t E).
  - unfold fsm, mbind, M_bind, trn. by rewrite E.
Qed.

Lemma by_type {A} self (k : SIPFsm -> M A) : (forall f, f_type f = ty -> Keeps (Inv once) (k f)) ->
  Keeps (Inv once) (f ← fsm self; k f).
Proof.
  intros H. apply keeps_hoare. eapply hoare_bind; [apply hoare_fsm|]. intros f. apply hoare_pure. intros Ht.
  apply (hoare_keeps nothing). by apply H.
Qed.

Section steps.
Hypothesis client : client_type ty.

Lemma onSendMessage_once self p : Keeps (Inv once) (onSendMessage self p).
Proof. apply by_type. intros f ->. destruct client as [-> | ->]; keep. Qed.

Lemma fsm_onReceivedMessage_once self p tp : Keeps (Inv once) (fsm_onReceivedMessage self p tp).
Proof.
  apply by_type. intros f ->. pose proof nict_onReceivedMessage_once. pose proof ict_onReceivedMessage_once.
  destruct client as [Ht|Ht]; rewrite Ht; auto.
Qed.

Lemma handleTimer_once self tm : (tm = TimerB -> ty = NonInviteClient) -> Keeps (Inv once) (handleTimer self tm).
Proof.
  intros Hb. apply by_type. intros f ->. pose proof nict_timers_once. pose proof ict_handleRetransmitInvite_once.
  destruct client as [Ht|Ht]; rewrite Ht; destruct tm; try (by keep); try (by apply nict_timers_once);
    by rewrite Hb in Ht.
Qed.

Lemma cancel_once self tm : Keeps (Inv once) (cancel_timer self tm).
Proof.
  intros w. unfold cancel_timer, modify_fsm, modify.
  destruct (lookup_trn w self) as [t|] eqn:E; [|done]. intros Hw.
  eapply every_put; [done|done| |done]. intros n [Hk Hq]. split; [|done].
  apply (ok_stable t); try done; apply delete_subseteq.
Qed.

(** Timer B is pending only before the first response. *)
Lemma inviteTimeout_once self t ms w r w' : ty = InviteClient -> lookup_trn w self = Some t ->
  f_timers (t_fsm t) !! TimerB = Some ms -> expire self TimerB w = (r, w') -> r <> UB -> once w -> once w'.
Proof.
  intros Hi Ht Hp E Hr Hw.
  set (Q := in_state self (fun s => low s \/ s = TRN_STATE_TERMINATED)).
  assert (holds Q w) as HQ.
  { destruct Hw as [H1 H2]. split; [done|]. intros s u Hu. destruct (H2 s u Hu) as [Hk _]. split; [done|].
    intros ->. simplify_eq. destruct (ok_state _ _ Hk) as [?|[Hc|?]]; [by left| |by right].
    rewrite (ok_timerB _ _ Hk Hi) in Hp; auto. done. }
  assert (hoare (holds Q) (expire self TimerB) (fun _ => once)) as H.
  { unfold expire. eapply hoare_bind; [hkeep|]. intros []. unfold handleTimer.
    eapply hoare_bind; [apply hoare_fsm|]. intros f. apply hoare_pure. intros ->. rewrite Hi.
    unfold SIPIct.handleInviteTimeout. do 2 (eapply hoare_bind; [hkeep|]; intros []).
    apply timeout_once; [apply _|]. intros u n Hs. by apply Hs. }
  specialize (H w HQ). rewrite E in H. by destruct r.
Qed.

Lemma expire_once self tm t ms w r w' : lookup_trn w self = Some t -> f_timers (t_fsm t) !! tm = Some ms ->
  expire self tm w = (r, w') -> r <> UB -> Inv once w w'.
Proof.
  intros Ht Hp E Hr. destruct (decide (tm = TimerB /\ ty = InviteClient)) as [[-> Hi]|Hn].
  - intros Hw. by eapply inviteTimeout_once.
  - eapply keeps_run; [|exact E|done]. apply k_expire; [apply _|apply cancel_once|]. apply handleTimer_once.
    intros ->. destruct client; [tauto|done].
Qed.

Lemma steps_once w w' : rtc step w w' -> once w -> once w'.
Proof.
  apply (step_keeps (Inv once)); cbv beta.
  - apply onSendMessage_once.
  - apply fsm_onReceivedMessage_once.
  - apply expire_once.
  - intros u msgs H. exact H.
  - intros u H. exact H.
Qed.
End steps.
End once.

Section theorem.
Context {boost : BoostString} {lexical : BoostLexical} {env : Env}.

(** A client transaction before its first message: the parent alone, idle, and
    nothing has been reported. *)
Definition unused_client (w : World) : Prop :=
  client_type (f_type (t_fsm (w_parent w))) /\ w_branches w = ∅ /\
  t_state (w_parent w) = TRN_STATE_IDLE /\ t_hasTerminated (w_parent w) = false /\ w_trace w = [].

End theorem.

Lemma write_step `{BoostString} `{BoostLexical} `{Env} self p a w :
  fst (writeMessage self p a w) <> UB -> step w (snd (writeMessage self p a w)).
Proof. apply step_writeMessage with (self := self) (p := p) (a := a). apply surjective_pairing. Qed.

Lemma timer_step `{BoostString} `{BoostLexical} `{Env} self tm t ms w :
  lookup_trn w self = Some t -> f_timers (t_fsm t) !! tm = Some ms ->
  fst (expire self tm w) <> UB -> step w (snd (expire self tm w)).
Proof. intros Ht Hp. eapply step_timer; [done|done|]. apply surjective_pairing. Qed.

(** The request is sent, nothing answers, and timer B reports the timeout. *)
Definition written_ict : World :=
  snd (writeMessage (boost := boost_reference) (env := quiet_env) Parent 0%nat None new_ict).
Definition timed_out_ict : World :=
  snd (expire (boost := boost_reference) (env := quiet_env) Parent TimerB written_ict).

Lemma timed_out_steps : rtc (step (boost := boost_reference) (env := quiet_env)) new_ict timed_out_ict.
Proof.
  apply (rtc_l _ _ written_ict); [|apply rtc_once].
  - unfold written_ict. apply write_step. vm_compute. discriminate.
  - unfold timed_out_ict. apply (timer_step _ _ (w_parent written_ict) 32000); [done|..].
    + vm_compute. reflexivity.
    + vm_compute. discriminate.
Qed.

