(* ===== verification/FsmSchedule.v ===== *)
(** * Retransmission schedules

    The retransmission timers of the three machines that have one: timer A of the
    invite client, timer E of the non-invite client and timer G of the invite
    server.  As long as nothing else happens, every expiry sends the stored
    message once more and rearms the timer; the theorems give the number of
    copies sent and the intervals. *)

From S2P Require Import Prelude CoreStrings SipParser SipHeaders SipMessage SipResponse.
From S2P Require Import TransactionTimers Transaction ClientFsm ServerFsm FsmLogic FsmFacts.
Open Scope Z_scope.

Section schedule.
Context {boost : BoostString} {lexical : BoostLexical} {env : Env}.

(** [n] expiries of a pending timer with nothing in between; the result is the
    time they take together. *)
Fixpoint fires (n : nat) (self : who) (tm : Timer) : M Z :=
  match n with
  | O => mret 0
  | S n =>
      t ← trn self;
      match f_timers (t_fsm t) !! tm with
      | None => undefined
      | Some ms =>
          expire self tm;;
          rest ← fires n self tm;
          mret (ms + rest)
      end
  end.

(** The copy of [m] that a transaction writes to [a]. *)
Definition copy_of (tp : Transport) (m : SIPMessage) (a : IPAddress) : event :=
  EvWrite tp m (if tp_reliable tp then None else Some (ip_text a, ip_port a)).

(** The state after [n] copies have been sent. *)
Definition sent (n : nat) (e : event) (self : who) (t : SIPTransaction) (w : World) : World :=
  put_trn (w <| w_trace := replicate n e ++ w_trace w |>) self t.

Lemma replicate_cons {A} n (e : A) l : replicate n e ++ e :: l = e :: replicate n e ++ l.
Proof. induction n as [|n IH]; simpl; [done|]. by rewrite IH. Qed.
Lemma sent_more n e self t t' w : sent n e self t' (sent 1 e self t w) = sent (S n) e self t' w.
Proof.
  unfold sent. by destruct self; simpl; unfold update; simpl; rewrite ?insert_insert_eq, replicate_cons.
Qed.

Lemma lookup_sent n e self t w : lookup_trn (sent n e self t w) self = Some t.
Proof. apply lookup_put_eq. Qed.
Lemma msgs_sent n e self t w : w_msgs (sent n e self t w) = w_msgs w.
Proof. by destruct self. Qed.
Lemma sent_none e self t w : lookup_trn w self = Some t -> sent 0 e self t w = w.
Proof.
  intros E. unfold sent. simpl. transitivity (put_trn w self t); [|by apply put_id]. by destruct self, w.
Qed.

Fixpoint total (d : nat -> Z) (n : nat) : Z :=
  match n with O => 0 | S n => d O + total (fun k => d (S k)) n end.

(** When the [k]-th expiry takes the transaction from [T k] to [T (S k)]. *)
Lemma fires_run self tm e n (T : nat -> SIPTransaction) d w :
  lookup_trn w self = Some (T O) ->
  (forall k, (k < n)%nat -> f_timers (t_fsm (T k)) !! tm = Some (d k)) ->
  (forall k w', (k < n)%nat -> lookup_trn w' self = Some (T k) -> w_msgs w' = w_msgs w ->
     expire self tm w' = (Ret tt, sent 1 e self (T (S k)) w')) ->
  fires n self tm w = (Ret (total d n), sent n e self (T n) w).
Proof.
  revert T d w. induction n as [|n IH]; intros T d w E Hd Hs; simpl.
  - by rewrite sent_none.
  - rewrite (bind_run _ _ _ _ _ (trn_run _ _ _ E)), (Hd O) by lia.
    rewrite (bind_run _ _ _ _ _ (Hs O w ltac:(lia) E eq_refl)).
    specialize (IH (fun k => T (S k)) (fun k => d (S k)) (sent 1 e self (T 1%nat) w)).
    erewrite bind_run; [|apply IH].
    + by rewrite sent_more.
    + apply lookup_sent.
    + intros k Hk. apply Hd. lia.
    + intros k w' Hk E' Hm. apply Hs; [lia|done|]. by rewrite Hm, msgs_sent.
Qed.

(** ** Exact evaluation of a retransmission *)

Lemma start_default_run w self t tm prop ms : lookup_trn w self = Some t -> ms <> 0 ->
  start_default self tm prop ms w =
    (Ret tt, put_trn w self (set_timers t (<[tm := ms]> (f_timers (t_fsm t))))).
Proof.
  intros E Hn. unfold start_default, cancel_timer.
  rewrite (bind_run _ _ _ _ _ (modify_fsm_run _ _ _ _ E)).
  erewrite bind_run; [|apply fsm_run, lookup_put_eq]. rewrite (proj2 (Z.eqb_neq _ _) Hn).
  unfold start_timer. rewrite (modify_fsm_run _ _ _ _ (lookup_put_eq _ _ _)), put_put.
  unfold set_timers, update. simpl. by rewrite insert_delete_eq.
Qed.

Lemma write_to_run w b tp p a m : w_msgs w !! p = Some m ->
  write_to b tp p a w =
    (Ret tt, w <| w_trace := EvWrite tp m (if b then None else Some (ip_text a, ip_port a)) :: w_trace w |>).
Proof. intros E. unfold write_to, mbind, M_bind, load. by rewrite E. Qed.

Lemma write_request_run w self t tp p m : lookup_trn w self = Some t -> t_transport t = Some tp ->
  f_pRequest (t_fsm t) = Some p -> w_msgs w !! p = Some m ->
  write_request self w = (Ret tt, sent 1 (copy_of tp m (t_remoteAddress t)) self t w).
Proof.
  intros E Htp Hp Hm. unfold write_request. rewrite (bind_run _ _ _ _ _ (trn_run _ _ _ E)), Htp, Hp.
  unfold deref_ptr. do 2 (erewrite bind_run by reflexivity). rewrite (write_to_run _ _ _ _ _ _ Hm).
  unfold sent. rewrite put_id; [done|]. rewrite <- E. by destruct self.
Qed.

Lemma sent_put n e self t t' w : sent n e self t' (put_trn w self t) = sent n e self t' w.
Proof. unfold sent. by destruct self; simpl; unfold update; simpl; rewrite ?insert_insert_eq. Qed.
Lemma put_sent n e self t t' w : put_trn (sent n e self t w) self t' = sent n e self t' w.
Proof. unfold sent. apply put_put. Qed.

(** A transaction that can send its request again. *)
Record client_waits (ty : TransactionType) (t : SIPTransaction) (tp : Transport) (p : msgref) : Prop := {
  waits_type : f_type (t_fsm t) = ty;
  waits_transport : t_transport t = Some tp;
  waits_request : f_pRequest (t_fsm t) = Some p
}.

(** The handler of an expired timer runs with the timer gone. *)
Definition fired (tm : Timer) (t : SIPTransaction) : SIPTransaction :=
  set_timers t (delete tm (f_timers (t_fsm t))).

Lemma expire_run w self t tm : lookup_trn w self = Some t ->
  expire self tm w = handleTimer self tm (put_trn w self (fired tm t)).
Proof. intros E. unfold expire, cancel_timer. by rewrite (bind_run _ _ _ _ _ (modify_fsm_run _ _ _ _ E)). Qed.

Lemma msgs_put w self t p m : w_msgs w !! p = Some m -> w_msgs (put_trn w self t) !! p = Some m.
Proof. by destruct self. Qed.

(** *** Timer A *)

Definition set_A (t : SIPTransaction) (x : Z) : SIPTransaction :=
  t <| t_fsm := (t_fsm t) <| f_timerAValue := x |> <| f_timers := <[TimerA := x]> (f_timers (t_fsm t)) |> |>.

Lemma expire_A_run w self t tp p m : lookup_trn w self = Some t -> client_waits InviteClient t tp p ->
  t_state t = TRYING -> w_msgs w !! p = Some m -> u64 (f_timerAValue (t_fsm t) * 2) <> 0 ->
  expire self TimerA w =
    (Ret tt, sent 1 (copy_of tp m (t_remoteAddress t)) self (set_A t (u64 (f_timerAValue (t_fsm t) * 2))) w).
Proof.
  intros E [Hty Htp Hp] Hs Hm Hn. rewrite (expire_run _ _ _ _ E). unfold handleTimer.
  rewrite (bind_run _ _ _ _ _ (fsm_run _ _ _ (lookup_put_eq _ _ _))). simpl. rewrite Hty.
  unfold SIPIct.handleRetransmitInvite.
  rewrite (bind_run _ _ _ _ _ (getState_run _ _ _ (lookup_put_eq _ _ _))). simpl. rewrite Hs. simpl.
  rewrite (bind_run _ _ _ _ _ (write_request_run _ _ (fired TimerA t) tp p m (lookup_put_eq _ _ _) Htp Hp
    (msgs_put _ _ _ _ _ Hm))), sent_put.
  rewrite (bind_run _ _ _ _ _ (modify_fsm_run _ _ _ _ (lookup_sent _ _ _ _ _))), put_sent.
  rewrite (bind_run _ _ _ _ _ (fsm_run _ _ _ (lookup_sent _ _ _ _ _))).
  unfold startTimerA. rewrite (start_default_run _ _ _ _ _ _ (lookup_sent _ _ _ _ _)) by done.
  rewrite put_sent. do 2 f_equal. unfold set_A, set_timers, fired, update. simpl. by rewrite insert_delete_eq.
Qed.

(** *** Timer E *)

Definition set_E (t : SIPTransaction) (k x : Z) : SIPTransaction :=
  t <| t_fsm := (t_fsm t) <| f_timerEMultiplier := k |> <| f_timerEValue := x |>
                          <| f_timers := <[TimerE := x]> (f_timers (t_fsm t)) |> |>.

Lemma set_E_again t k x k' x' : set_E (set_E t k x) k' x' = set_E t k' x'.
Proof.
  destruct t as [? []]. unfold set_E. simpl. by rewrite insert_insert_eq.
Qed.

Definition next_multiplier (k : Z) : Z := if k =? 0 then 2 else 4.
Definition next_E (t : SIPTransaction) : Z :=
  SIPNict.next_interval ((t_fsm t) <| f_timerEMultiplier := next_multiplier (f_timerEMultiplier (t_fsm t)) |>)
    (t_state t).

Lemma expire_E_run w self t tp p m : lookup_trn w self = Some t -> client_waits NonInviteClient t tp p ->
  t_state t <= PROCEEDING -> w_msgs w !! p = Some m -> next_E t <> 0 ->
  expire self TimerE w =
    (Ret tt, sent 1 (copy_of tp m (t_remoteAddress t)) self
               (set_E t (next_multiplier (f_timerEMultiplier (t_fsm t))) (next_E t)) w).
Proof.
  intros E [Hty Htp Hp] Hs Hm Hn. rewrite (expire_run _ _ _ _ E). unfold handleTimer.
  rewrite (bind_run _ _ _ _ _ (fsm_run _ _ _ (lookup_put_eq _ _ _))). simpl. rewrite Hty.
  unfold SIPNict.handleRetransmitRequest.
  rewrite (bind_run _ _ _ _ _ (getState_run _ _ _ (lookup_put_eq _ _ _))).
  replace (t_state (fired TimerE t)) with (t_state t) by done.
  unfold PROCEEDING, TRN_STATE_TERMINATED in *. rewrite (proj2 (Z.eqb_neq _ _)) by lia.
  rewrite (proj2 (Z.leb_le _ _) Hs). unfold when.
  rewrite (bind_run _ _ _ _ _ (write_request_run _ _ (fired TimerE t) tp p m (lookup_put_eq _ _ _) Htp Hp
    (msgs_put _ _ _ _ _ Hm))), sent_put.
  rewrite (bind_run _ _ _ _ _ (modify_fsm_run _ _ _ _ (lookup_sent _ _ _ _ _))), put_sent.
  rewrite (bind_run _ _ _ _ _ (getState_run _ _ _ (lookup_sent _ _ _ _ _))).
  rewrite (bind_run _ _ _ _ _ (modify_fsm_run _ _ _ _ (lookup_sent _ _ _ _ _))), put_sent.
  rewrite (bind_run _ _ _ _ _ (fsm_run _ _ _ (lookup_sent _ _ _ _ _))).
  unfold startTimerE. rewrite (start_default_run _ _ _ _ _ _ (lookup_sent _ _ _ _ _)) by done.
  rewrite put_sent. do 2 f_equal. unfold set_E, set_timers, fired, update. simpl. by rewrite insert_delete_eq.
Qed.

(** *** Timer G *)

Definition set_G (t : SIPTransaction) (x : Z) : SIPTransaction :=
  t <| t_fsm := (t_fsm t) <| f_timerGValue := x |> <| f_timers := <[TimerG := x]> (f_timers (t_fsm t)) |> |>.
Definition next_G (f : SIPFsm) : Z :=
  if timerT2 (f_timerProps f) <? u64 (f_timerGValue f * 2) then timerT2 (f_timerProps f)
  else u64 (f_timerGValue f * 2).

Lemma expire_G_run w self t tp p m : lookup_trn w self = Some t -> f_type (t_fsm t) = InviteServer ->
  t_transport t = Some tp -> f_pResponse (t_fsm t) = Some p ->
  t_state t = SIPIst.COMPLETED -> w_msgs w !! p = Some m -> next_G (t_fsm t) <> 0 ->
  expire self TimerG w =
    (Ret tt, sent 1 (copy_of tp m (t_sendAddress t)) self (set_G t (next_G (t_fsm t))) w).
Proof.
  intros E Hty Htp Hp Hs Hm Hn. rewrite (expire_run _ _ _ _ E). unfold handleTimer.
  rewrite (bind_run _ _ _ _ _ (fsm_run _ _ _ (lookup_put_eq _ _ _))). simpl. rewrite Hty.
  unfold SIPIst.handleRetransmitResponse.
  rewrite (bind_run _ _ _ _ _ (trn_run _ _ _ (lookup_put_eq _ _ _))). simpl. rewrite Hp, Hs. simpl.
  assert (SIPIst.write_response self p (put_trn w self (fired TimerG t)) =
    (Ret tt, sent 1 (copy_of tp m (t_sendAddress t)) self (fired TimerG t) w)) as Ew.
  { unfold SIPIst.write_response. rewrite (bind_run _ _ _ _ _ (trn_run _ _ _ (lookup_put_eq _ _ _))).
    simpl. rewrite Htp. unfold deref_ptr. erewrite bind_run by reflexivity.
    rewrite (write_to_run _ _ _ _ _ _ (msgs_put _ _ _ _ _ Hm)). by destruct self. }
  rewrite (bind_run _ _ _ _ _ Ew).
  rewrite (bind_run _ _ _ _ _ (getState_run _ _ _ (lookup_sent _ _ _ _ _))). simpl. rewrite Hs. simpl.
  rewrite (bind_run _ _ _ _ _ (modify_fsm_run _ _ _ _ (lookup_sent _ _ _ _ _))), put_sent.
  rewrite (bind_run _ _ _ _ _ (fsm_run _ _ _ (lookup_sent _ _ _ _ _))).
  unfold startTimerG. rewrite (start_default_run _ _ _ _ _ _ (lookup_sent _ _ _ _ _)) by done.
  rewrite put_sent. do 2 f_equal. unfold set_G, set_timers, fired, update. simpl. by rewrite insert_delete_eq.
Qed.

(** ** The schedules *)

Lemma total_ext d d' n : (forall k, (k < n)%nat -> d k = d' k) -> total d n = total d' n.
Proof.
  revert d d'. induction n as [|n IH]; intros d d' H; simpl; [done|].
  rewrite (H O) by lia. f_equal. apply IH. intros k Hk. apply H. lia.
Qed.

Lemma total_doubling v n : total (fun k => v * 2 ^ Z.of_nat k) n = v * (2 ^ Z.of_nat n - 1).
Proof.
  revert v. induction n as [|n IH]; intros v; [simpl; lia|].
  cbn [total]. rewrite (total_ext _ (fun k => (v * 2) * 2 ^ Z.of_nat k)).
  - rewrite IH, Nat2Z.inj_succ, Z.pow_succ_r by lia. simpl. lia.
  - intros k _. rewrite Nat2Z.inj_succ, Z.pow_succ_r by lia. lia.
Qed.

Lemma pow_le_mono_nat k n : (k <= n)%nat -> 2 ^ Z.of_nat k <= 2 ^ Z.of_nat n.
Proof. intros H. apply Z.pow_le_mono_r; lia. Qed.

Lemma fires_A self t tp p m v n w :
  lookup_trn w self = Some t -> client_waits InviteClient t tp p -> t_state t = TRYING ->
  w_msgs w !! p = Some m -> f_timerAValue (t_fsm t) = v -> f_timers (t_fsm t) !! TimerA = Some v ->
  0 < v -> v * 2 ^ Z.of_nat n < 2 ^ 64 ->
  fires n self TimerA w =
    (Ret (v * (2 ^ Z.of_nat n - 1)),
     sent n (copy_of tp m (t_remoteAddress t)) self (set_A t (v * 2 ^ Z.of_nat n)) w).
Proof.
  intros E Hw Hs Hm Hv Ht Hp Hb.
  rewrite (fires_run _ _ (copy_of tp m (t_remoteAddress t)) _ (fun k => set_A t (v * 2 ^ Z.of_nat k)) (fun k => v * 2 ^ Z.of_nat k)).
  - by rewrite total_doubling.
  - rewrite E. f_equal. unfold set_A. simpl. rewrite Z.mul_1_r, insert_id by done. destruct t as [? []]. simpl in *. by subst.
  - intros k _. simpl. apply lookup_insert_eq.
  - intros k w' Hk E' Em. pose proof (pow_le_mono_nat (S k) n ltac:(lia)) as Hle.
    assert (u64 (v * 2 ^ Z.of_nat k * 2) = v * 2 ^ Z.of_nat (S k)) as Hu.
    { rewrite Nat2Z.inj_succ, Z.pow_succ_r in Hle |- * by lia. unfold u64. rewrite Z.mod_small; nia. }
    rewrite (expire_A_run w' self _ tp p m E'); simpl.
    + rewrite Hu. do 2 f_equal. unfold set_A, update. simpl. by rewrite insert_insert_eq.
    + destruct Hw. by split.
    + done.
    + by rewrite Em.
    + rewrite Hu. assert (0 < 2 ^ Z.of_nat (S k)) by (apply Z.pow_pos_nonneg; lia). nia.
Qed.

Lemma start_exact_put w self t tm ms : lookup_trn w self = Some t ->
  start_exact self tm ms w = (Ret tt, put_trn w self (set_timers t (<[tm := ms]> (f_timers (t_fsm t))))).
Proof. intros E. by rewrite (start_exact_run _ _ _ _ _ E), insert_delete_eq. Qed.

(** An invite client that has sent its first request on an unreliable transport. *)
Definition calling (t : SIPTransaction) (p : msgref) (v : Z) : SIPTransaction :=
  t <| t_state := TRYING |>
    <| t_fsm := (t_fsm t) <| f_pRequest := Some p |> <| f_timerAValue := v |>
         <| f_timers := <[TimerB := v * 64]> (<[TimerA := v]> (<[TimerMaxLifetime := 300000]> (f_timers (t_fsm t)))) |> |>.
Definition with_expires (t : SIPTransaction) (expires : str) : SIPTransaction :=
  if (length expires =? 0)%nat then t
  else set_timers t (<[TimerClientExpires := u64 (string_to_number (cstr expires) * 1000)]> (f_timers (t_fsm t))).

Lemma ict_send_run w self t tp p m v :
  lookup_trn w self = Some t -> f_type (t_fsm t) = InviteClient -> t_state t = TRN_STATE_IDLE ->
  t_transport t = Some tp -> tp_reliable tp = false -> w_msgs w !! p = Some m ->
  v = first_interval m (timerA (f_timerProps (t_fsm t))) -> 0 < v -> v * 64 < 2 ^ 64 ->
  onSendMessage self p w =
    (Ret true, put_trn w self (with_expires (calling t p v) (hdrGet m HDR_EXPIRES 0))).
Proof.
  intros E Hty Hs Htp Hr Hm Hv Hp Hb. unfold onSendMessage.
  rewrite (bind_run _ _ _ _ _ (fsm_run _ _ _ E)), Hty. unfold SIPIct.onSendMessage.
  rewrite (bind_run _ _ _ _ _ (getState_run _ _ _ E)), Hs. cbn [Z.eqb TRN_STATE_IDLE when].
  unfold startTimerMaxLifetime, startTimerClientExpires, startTimerA, startTimerB.
  assert (u64 (v * 64) = v * 64) as Hu by (apply Z.mod_small; lia).
  erewrite bind_run; [reflexivity|].
  rewrite (bind_run _ _ _ _ _ (start_exact_put _ _ _ _ _ E)).
  rewrite (bind_run _ _ _ _ _ (modify_fsm_run _ _ _ _ (lookup_put_eq _ _ _))), put_put.
  erewrite bind_run; [|rewrite (setState_run _ _ _ _ (lookup_put_eq _ _ _)); simpl; rewrite Hs; simpl; reflexivity].
  rewrite put_put.
  erewrite bind_run; [|unfold load; rewrite (msgs_put _ _ _ _ _ Hm); reflexivity].
  rewrite (bind_run _ _ _ _ _ (modify_fsm_run _ _ _ _ (lookup_put_eq _ _ _))), put_put.
  rewrite (bind_run _ _ _ _ _ (trn_run _ _ _ (lookup_put_eq _ _ _))). simpl. rewrite Htp, <- Hv.
  unfold deref_ptr. erewrite bind_run by reflexivity. rewrite Hr. simpl.
  erewrite bind_run; [|erewrite bind_run; [|apply start_default_run; [apply lookup_put_eq|lia]];
    rewrite put_put, Hu; apply start_default_run; [apply lookup_put_eq|lia]].
  rewrite put_put. unfold with_expires, when. destruct (_ =? 0)%nat; simpl.
  - done.
  - rewrite (start_exact_put _ _ _ _ _ (lookup_put_eq _ _ _)), put_put. done.
Qed.

Lemma with_expires_same t s : t_state (with_expires t s) = t_state t /\ t_transport (with_expires t s) = t_transport t /\
  t_remoteAddress (with_expires t s) = t_remoteAddress t /\ f_type (t_fsm (with_expires t s)) = f_type (t_fsm t) /\
  f_pRequest (t_fsm (with_expires t s)) = f_pRequest (t_fsm t) /\
  f_timerAValue (t_fsm (with_expires t s)) = f_timerAValue (t_fsm t) /\
  forall tm, tm <> TimerClientExpires -> f_timers (t_fsm (with_expires t s)) !! tm = f_timers (t_fsm t) !! tm.
Proof.
  unfold with_expires. destruct (_ =? 0)%nat; [done|]. split_and!; [done..|]. intros tm Hn. simpl.
  by rewrite lookup_insert_ne.
Qed.


(** The response schedule.  An invite server that waits for the ACK of its
    error response sends that response again on every expiry of timer G; the
    intervals double from the first one and are cut off at T2. *)
Theorem response_schedule self t tp p m v n w :
  lookup_trn w self = Some t -> f_type (t_fsm t) = InviteServer -> t_transport t = Some tp ->
  f_pResponse (t_fsm t) = Some p -> t_state t = SIPIst.COMPLETED -> w_msgs w !! p = Some m ->
  f_timerGValue (t_fsm t) = v -> f_timers (t_fsm t) !! TimerG = Some v ->
  0 < v <= timerT2 (f_timerProps (t_fsm t)) -> timerT2 (f_timerProps (t_fsm t)) < 2 ^ 63 ->
  let d k := Z.min (v * 2 ^ Z.of_nat k) (timerT2 (f_timerProps (t_fsm t))) in
  fires n self TimerG w =
    (Ret (total d n), sent n (copy_of tp m (t_sendAddress t)) self (set_G t (d n)) w).
Proof.
  intros E Hty Htp Hpr Hs Hm Hv Ht Hp Hb d.
  rewrite (fires_run _ _ (copy_of tp m (t_sendAddress t)) _ (fun k => set_G t (d k)) d); [done| | |].
  - rewrite E. f_equal. unfold set_G, d. simpl. rewrite Z.mul_1_r, Z.min_l, insert_id by (done || lia).
    destruct t as [? []]. simpl in *. by subst.
  - intros k _. simpl. apply lookup_insert_eq.
  - intros k w' Hk E' Em. assert (next_G (t_fsm (set_G t (d k))) = d (S k)) as Hu.
    { unfold next_G. simpl. assert (u64 (d k * 2) = d k * 2) as -> by (apply Z.mod_small; unfold d; lia).
      unfold d. rewrite Nat2Z.inj_succ, Z.pow_succ_r by lia. destruct (_ <? _) eqn:El; bools; lia. }
    rewrite (expire_G_run w' self _ tp p m E'); try done; [|by rewrite Em|].
    + rewrite Hu. do 2 f_equal. unfold set_G, update. simpl. by rewrite insert_insert_eq.
    + rewrite Hu. unfold d. assert (0 < 2 ^ Z.of_nat (S k)) by (apply Z.pow_pos_nonneg; lia). nia.
Qed.

(** The multiplier and the interval of timer E after [k] expiries. *)
Definition multiplier_at (k : nat) : Z := match k with O => 0 | 1%nat => 2 | _ => 4 end.
Definition interval_at (k : nat) : Z := Z.min (500 * 2 ^ Z.of_nat k) 4000.

Lemma interval_late k : (3 <= k)%nat -> interval_at k = 4000.
Proof. intros H. unfold interval_at. pose proof (pow_le_mono_nat 3 k H). change (2 ^ Z.of_nat 3) with 8 in *. lia. Qed.

Lemma total_const d c n : (forall k, d k = c) -> total d n = c * Z.of_nat n.
Proof.
  revert d. induction n as [|n IH]; intros d H; simpl; [lia|]. rewrite H, (IH (fun k => d (S k))) by done. lia.
Qed.
Lemma total_intervals k : total interval_at (S (S (S k))) = 3500 + 4000 * Z.of_nat k.
Proof.
  cbn [total]. rewrite (total_const _ 4000) by (intros; apply interval_late; lia).
  change (interval_at 0) with 500. change (interval_at 1) with 1000. change (interval_at 2) with 2000. lia.
Qed.

Lemma next_E_at t k : f_timerProps (t_fsm t) = defaultTimers -> t_state t <> PROCEEDING ->
  f_timerEValue (t_fsm t) = interval_at k -> f_timerEMultiplier (t_fsm t) = multiplier_at k ->
  next_multiplier (f_timerEMultiplier (t_fsm t)) = multiplier_at (S k) /\ next_E t = interval_at (S k).
Proof.
  intros Hd Hs Hv Hk. unfold next_E, SIPNict.next_interval. simpl. rewrite Hd, Hv, Hk.
  rewrite (proj2 (Z.eqb_neq _ _) Hs). do 3 (destruct k as [|k]; [done|]).
  rewrite (interval_late (S (S (S k)))), (interval_late (S (S (S (S k))))) by lia. done.
Qed.

(** The schedule of other requests.  With the default timers, a non-invite
    client on an unreliable transport that has had no response sends its request
    after 500, 1000, 2000 and then every 4000 milliseconds, ten times before timer
    F ends it after 32 seconds.  With another first interval [x] (the message's
    timeout property) the second interval is still 1000, whatever [x] is. *)
Theorem request_schedule self t tp p m n w :
  lookup_trn w self = Some t -> client_waits NonInviteClient t tp p -> t_state t = TRYING ->
  w_msgs w !! p = Some m -> f_timerProps (t_fsm t) = defaultTimers ->
  f_timerEMultiplier (t_fsm t) = 0 -> f_timerEValue (t_fsm t) = 500 -> f_timers (t_fsm t) !! TimerE = Some 500 ->
  fires n self TimerE w =
    (Ret (total interval_at n),
     sent n (copy_of tp m (t_remoteAddress t)) self (set_E t (multiplier_at n) (interval_at n)) w) /\
  (total interval_at n < timerF defaultTimers <-> (n <= 10)%nat) /\
  forall x, 0 <= x -> 2 * x <= 4000 -> next_E (t <| t_fsm := (t_fsm t) <| f_timerEValue := x |> |>) = 1000.
Proof.
  intros E Hw Hs Hm Hd Hk Hv Ht. split; [|split].
  - apply (fires_run _ _ (copy_of tp m (t_remoteAddress t)) _ (fun k => set_E t (multiplier_at k) (interval_at k)) interval_at).
    + rewrite E. f_equal. unfold set_E. change (interval_at 0) with 500. rewrite insert_id by done.
      destruct t as [? []]. simpl in *. by subst.
    + intros k _. simpl. apply lookup_insert_eq.
    + intros k w' _ E' Em.
      destruct (next_E_at (set_E t (multiplier_at k) (interval_at k)) k) as [H1 H2]; [done|by simpl; rewrite Hs|done|done|].
      rewrite (expire_E_run w' self _ tp p m E'), H1, H2.
      * by rewrite set_E_again.
      * destruct Hw. by split.
      * simpl. rewrite Hs. done.
      * by rewrite Em.
      * rewrite H2. unfold interval_at. assert (0 < 2 ^ Z.of_nat (S k)) by (apply Z.pow_pos_nonneg; lia). lia.
  - change (timerF defaultTimers) with 32000.
    do 3 (destruct n as [|n]; [split; [lia|done]|]). rewrite total_intervals. lia.
  - intros x Hx Hx2. unfold next_E, SIPNict.next_interval. simpl. rewrite Hd, Hk, Hs.
    change (timerT2 defaultTimers) with 4000. change (next_multiplier 0) with 2. simpl.
    assert (u64 (x * 2) = x * 2) as -> by (apply Z.mod_small; lia). destruct (_ <? _) eqn:El; bools; [lia|done].
Qed.
End schedule.

(** ** Concrete runs *)


(** A server that has answered 486 and waits for the ACK; message 0 is the
    response. *)
Definition busy_lines : list string :=
  ["SIP/2.0 486 Busy Here"; "Via: SIP/2.0/UDP h;branch=z9hG4bK1"; "From: <sip:a@h>;tag=1";
   "To: <sip:b@h>;tag=2"; "Call-ID: c1"; "CSeq: 1 INVITE"; "Content-Length: 0"]%string.
Definition busy_response : SIPMessage := fromPacket (boost := boost_reference) (text_of busy_lines ++ CRLF) IDLE.
Definition new_ist : World :=
  mkWorld
    ((newTransaction #"invite1z9hG4bK1" InviteServer defaultTimers) <| t_transport := Some udp_session |>
       <| t_state := SIPIst.PROCEEDING |>)
    ∅ true true defaultTimers {[ 0%nat := busy_response ]} [].
Definition answered_ist : World :=
  snd (onSendMessage (boost := boost_reference) (lexical := lexical_reference) Parent 0%nat new_ist).

Lemma response_schedule_witness : exists wn,
  fires (boost := boost_reference) (env := quiet_env) 5 Parent TimerG answered_ist = (Ret 11500, wn).
Proof.
  pose proof (response_schedule (boost := boost_reference) (env := quiet_env) Parent (w_parent answered_ist)
    udp_session 0%nat (default newMessage (w_msgs answered_ist !! 0%nat)) 500 5 answered_ist) as H.
  eexists. apply H; clear H; first [reflexivity|vm_compute; reflexivity|vm_compute; split; congruence].
Defined.

Definition new_nict : World :=
  mkWorld
    ((newTransaction #"register1z9hG4bK1" NonInviteClient defaultTimers) <| t_transport := Some udp_session |>
       <| t_responseTU := true |> <| t_pInitialRequest := Some 0%nat |>)
    ∅ true true defaultTimers {[ 0%nat := invite_request ]} [].
Definition sent_nict : World :=
  snd (onSendMessage (boost := boost_reference) Parent 0%nat new_nict).

Lemma request_schedule_witness : exists wn,
  fires (boost := boost_reference) (env := quiet_env) 4 Parent TimerE sent_nict = (Ret 7500, wn).
Proof.
  destruct (request_schedule (boost := boost_reference) (env := quiet_env) Parent (w_parent sent_nict)
    udp_session 0%nat invite_request 4 sent_nict) as [H _].
  1-8: first [reflexivity|split; vm_compute; reflexivity|vm_compute; reflexivity].
  eexists. exact H.
Defined.
