(* ===== verification/FsmAck.v ===== *)
(** * The ACK of an error response

    The invite client acknowledges a final error response itself.  What the ACK
    contains, that the first error response produces it, and what happens when
    the response comes again. *)

From S2P Require Import Prelude CoreStrings SipParser SipHeaders SipMessage SipMessageFacts.
From S2P Require Import SipResponse TransactionTimers Transaction ClientFsm ServerFsm FsmLogic.
From S2P Require Import FsmFacts FsmSchedule.
Open Scope Z_scope.

(** ** Headers after hdrSet and hdrRemove *)

Section headers.
Context {boost : BoostString}.

Lemma hdrSet_hdrs m n v k : m_finalized m = true -> v <> [] ->
  hdrs (snd (hdrSet m n v)) k = upd (hdrs m) (to_lower n) (v :: tail (hdrs m (to_lower n))) k.
Proof.
  intros Hf Hv. unfold hdrSet. rewrite Hf. destruct (length v =? 0)%nat eqn:Ev; [bools; by destruct v|]. simpl.
  assert (hdrs m (to_lower n) = match m_headers m !! to_lower n with None => [] | Some t => values t end) as -> by done.
  destruct (m_headers m !! to_lower n) as [t|] eqn:E; simpl; [|by rewrite hdrs_new].
  destruct (values t) as [|a l] eqn:El; simpl; [by rewrite hdrs_new|]. by rewrite hdrs_put.
Qed.

Lemma hdrRemove_hdrs m n k : m_finalized m = true -> (length (hdrs m (to_lower n)) <= 1)%nat ->
  hdrs (snd (hdrRemove m n)) k = upd (hdrs m) (to_lower n) [] k.
Proof.
  intros Hf Hl. unfold hdrRemove. rewrite Hf. simpl.
  assert (hdrs m (to_lower n) = match m_headers m !! to_lower n with None => [] | Some t => values t end) as El by done.
  destruct (m_headers m !! to_lower n) as [t|] eqn:E; simpl; [|by apply upd_same].
  rewrite El in Hl. destruct (1 <? length (values t))%nat eqn:Eb; bools; [lia|]. simpl. by rewrite hdrs_erase.
Qed.

Lemma hdrSet_same m n v : m_finalized (snd (hdrSet m n v)) = m_finalized m /\
  m_startLine (snd (hdrSet m n v)) = m_startLine m /\ m_body (snd (hdrSet m n v)) = m_body m.
Proof.
  unfold hdrSet. destruct (_ || _); [done|]. destruct (_ !! _) as [t|]; [|done]. by destruct (_ =? _)%nat.
Qed.
Lemma hdrRemove_same m n : m_finalized (snd (hdrRemove m n)) = m_finalized m /\
  m_startLine (snd (hdrRemove m n)) = m_startLine m /\ m_body (snd (hdrRemove m n)) = m_body m.
Proof.
  unfold hdrRemove. destruct (negb _); [done|]. destruct (_ !! _) as [t|]; [|done]. by destruct (_ <? _)%nat.
Qed.

Lemma upd_eq f k l : upd f k l k = l.
Proof. unfold upd. by rewrite decide_True. Qed.
Lemma upd_ne f k l k' : k' <> k -> upd f k l k' = f k'.
Proof. intros H. unfold upd. by rewrite decide_False. Qed.

(** The four edits of the ACK, for a base message and any header values. *)
Lemma ack_edits m n1 v1 n2 v2 n3 n4 k :
  m_finalized m = true -> v1 <> [] -> v2 <> [] ->
  let k1 := to_lower n1 in let k2 := to_lower n2 in let k3 := to_lower n3 in let k4 := to_lower n4 in
  NoDup [k1; k2; k3; k4] -> (length (hdrs m k3) <= 1)%nat -> (length (hdrs m k4) <= 1)%nat ->
  hdrs (snd (hdrRemove (snd (hdrRemove (set_body (snd (hdrSet (snd (hdrSet m n1 v1)) n2 v2)) []) n3)) n4)) k =
    if decide (k = k1) then v1 :: tail (hdrs m k)
    else if decide (k = k2) then v2 :: tail (hdrs m k)
    else if decide (k = k3 \/ k = k4) then []
    else hdrs m k.
Proof.
  intros Hf H1 H2 k1 k2 k3 k4 Hd H3 H4.
  apply NoDup_cons in Hd as [D1 Hd]. apply NoDup_cons in Hd as [D2 Hd]. apply NoDup_cons in Hd as [D3 _].
  set (ma := snd (hdrSet m n1 v1)). set (mb := snd (hdrSet ma n2 v2)). set (mc := snd (hdrRemove (set_body mb []) n3)).
  assert (m_finalized ma = true) as Fa by (unfold ma; by rewrite (proj1 (hdrSet_same _ _ _))).
  assert (m_finalized mb = true) as Fb by (unfold mb; by rewrite (proj1 (hdrSet_same _ _ _))).
  assert (m_finalized mc = true) as Fc by (unfold mc; by rewrite (proj1 (hdrRemove_same _ _))).
  assert (forall k, hdrs ma k = upd (hdrs m) k1 (v1 :: tail (hdrs m k1)) k) as Ea by (intros; by apply hdrSet_hdrs).
  assert (forall k, hdrs mb k = upd (hdrs ma) k2 (v2 :: tail (hdrs ma k2)) k) as Eb by (intros; by apply hdrSet_hdrs).
  assert (forall k, k <> k1 -> k <> k2 -> hdrs mb k = hdrs m k) as Eo.
  { intros k' N1 N2. by rewrite Eb, upd_ne, Ea, upd_ne. }
  assert (k3 <> k1 /\ k3 <> k2 /\ k4 <> k1 /\ k4 <> k2 /\ k4 <> k3 /\ k2 <> k1) as (N1 & N2 & N3 & N4 & N5 & N6).
  { repeat setoid_rewrite not_elem_of_cons in D1. repeat setoid_rewrite not_elem_of_cons in D2.
    repeat setoid_rewrite not_elem_of_cons in D3.
    destruct D1 as (? & ? & ? & _), D2 as (? & ? & _), D3 as [? _]. by split_and!; apply not_eq_sym. }
  assert (forall k, hdrs mc k = upd (hdrs mb) k3 [] k) as Ec.
  { intros. apply (hdrRemove_hdrs (set_body mb [])); [done|].
    change (hdrs (set_body mb []) (to_lower n3)) with (hdrs mb k3). by rewrite Eo. }
  rewrite hdrRemove_hdrs; [|done|fold k4; by rewrite Ec, upd_ne, Eo]. fold k4.
  destruct (decide (k = k4)) as [->|Hk4].
  { rewrite upd_eq, !decide_False by done. by rewrite decide_True by (by right). }
  rewrite upd_ne, Ec by done. destruct (decide (k = k3)) as [->|Hk3].
  { rewrite upd_eq, !decide_False by done. by rewrite decide_True by (by left). }
  rewrite upd_ne, (decide_False (P := _ \/ _)), Eb by tauto. destruct (decide (k = k2)) as [->|Hk2].
  { rewrite upd_eq, (decide_False (P := k2 = k1)), Ea, upd_ne by done. done. }
  rewrite upd_ne, Ea by done. destruct (decide (k = k1)) as [->|Hk1]; [by rewrite upd_eq|by rewrite upd_ne].
Qed.

Lemma commitData_text m : m_data (commitData m) = commitText (commitData m).
Proof. done. Qed.
Lemma commitData_hdrs m k : hdrs (commitData m) k = hdrs m k.
Proof. done. Qed.

(** What the ACK of an error response contains.  Its start line is that of
    the request with the method replaced; To is taken from the response, with the
    tag of the far end; CSeq keeps the number and names the method ACK; body,
    Content-Length and Content-Type are gone; every other header, in particular
    Via, From and Call-ID, is that of the request; and the text to be sent is the
    serialisation of all that. *)
Theorem ack_content request response ack :
  SIPIct.make_ack request response = Ret (Some ack) -> m_finalized request = true ->
  hdrGet response HDR_TO 0 <> [] ->
  (length (hdrs request (to_lower HDR_CONTENT_LENGTH)) <= 1)%nat ->
  (length (hdrs request (to_lower HDR_CONTENT_TYPE)) <= 1)%nat ->
  (exists i, str_find #" " (m_startLine request) = Some i /\
     m_startLine ack = #"ACK" ++ cstr (drop i (m_startLine request))) /\
  m_body ack = [] /\ m_data ack = commitText ack /\
  exists number, filled (SIPCSeq.getNumber (hdrGet request HDR_CSEQ 0)) = Ret number /\
    forall k, hdrs ack k =
      if decide (k = to_lower HDR_TO) then hdrGet response HDR_TO 0 :: tail (hdrs request k)
      else if decide (k = to_lower HDR_CSEQ) then (number ++ #" ACK") :: tail (hdrs request k)
      else if decide (k = to_lower HDR_CONTENT_LENGTH \/ k = to_lower HDR_CONTENT_TYPE) then []
      else hdrs request k.
Proof.
  intros E Hf Hto Hl Ht. unfold SIPIct.make_ack in E.
  destruct (str_find _ _) as [i|] eqn:Ei; [|done].
  destruct (filled _) as [number| |] eqn:En; try done. cbn [mbind outcome_bind] in E. injection E as <-.
  split; [|split; [|split]].
  - exists i. split; [done|]. simpl. rewrite !(proj1 (proj2 (hdrRemove_same _ _))). simpl.
    by rewrite !(proj1 (proj2 (hdrSet_same _ _ _))).
  - simpl. by rewrite !(proj2 (proj2 (hdrRemove_same _ _))).
  - apply commitData_text.
  - exists number. split; [done|]. intros k. rewrite commitData_hdrs.
    apply (ack_edits (set_startLine (assignMessage newMessage request) _)); try done.
    + by destruct number.
    + rewrite !to_lower_map. apply (bool_decide_unpack _). vm_compute. exact I.
Qed.
End headers.

(** ** Sending it *)

Section sending.
Context {boost : BoostString} {lexical : BoostLexical} {env : Env}.

Lemma isError_run w p m m' : w_msgs w !! p = Some m -> isErrorResponse m = Ret (TTrue, m') ->
  msg_isErrorResponse p w = (Ret true, w <| w_msgs := <[p := m']> (w_msgs w) |>).
Proof.
  intros E Hm. unfold msg_isErrorResponse, classify, mbind, M_bind, load. rewrite E. unfold lift. by rewrite Hm.
Qed.

Lemma lookup_msgs w ms self : lookup_trn (w <| w_msgs := ms |>) self = lookup_trn w self.
Proof. by destruct self. Qed.

(** A retransmitted error response is not acknowledged again on an unreliable
    transport.  In COMPLETED, with the ACK already made, an error response leaves
    the transaction, its timers and the trace as they are: nothing is written,
    although the code means to send the ACK again. *)
Theorem ack_not_resent w self t pp p m m' tp a :
  lookup_trn w self = Some t -> t_state t = COMPLETED -> f_pAck (t_fsm t) = Some a ->
  tp_reliable tp = false -> w_msgs w !! p = Some m -> isErrorResponse m = Ret (TTrue, m') ->
  SIPIct.on_response self pp p tp w = (Ret tt, w <| w_msgs := <[p := m']> (w_msgs w) |>).
Proof.
  intros E Hs Ha Hr Hm He. unfold SIPIct.on_response.
  rewrite (bind_run _ _ _ _ _ (getState_run _ _ _ E)), Hs.
  change (COMPLETED =? TRN_STATE_IDLE) with false. change (COMPLETED =? TRYING) with false.
  change (COMPLETED =? PROCEEDING) with false. change (COMPLETED =? COMPLETED) with true. cbn [orb when].
  rewrite (bind_run _ _ _ _ _ (isError_run _ _ _ _ Hm He)). cbn [when].
  set (w1 := w <| w_msgs := _ |>). assert (lookup_trn w1 self = Some t) as E1 by (by rewrite <- E; destruct self).
  unfold SIPIct.handleSendAck. rewrite (bind_run _ _ _ _ _ (getState_run _ _ _ E1)), Hs.
  change (COMPLETED =? TRN_STATE_TERMINATED) with false. cbv iota.
  erewrite bind_run; [|rewrite (setState_run _ _ _ _ E1), Hs; reflexivity].
  unfold SIPIct.ack_message. erewrite bind_run; [|rewrite (bind_run _ _ _ _ _ (fsm_run _ _ _ E1)), Ha; reflexivity].
  cbv iota. rewrite (bind_run _ _ _ _ _ (trn_run _ _ _ E1)), Hr. done.
Qed.

Lemma put_msgs w self t ms : (put_trn w self t) <| w_msgs := ms |> = put_trn (w <| w_msgs := ms |>) self t.
Proof. by destruct self. Qed.
Lemma msgs_of_put w self t : w_msgs (put_trn w self t) = w_msgs w.
Proof. by destruct self. Qed.

Definition fresh_ref (w : World) : msgref := infinite_fresh (map fst (map_to_list (w_msgs w))).
Lemma fresh_ref_ne w p m : w_msgs w !! p = Some m -> fresh_ref w <> p.
Proof.
  intros E Hp. assert (p ∈ map fst (map_to_list (w_msgs w))) as Hin.
  { apply list_elem_of_fmap. exists (p, m). split; [done|]. by apply elem_of_map_to_list. }
  subst p. exact (infinite_is_fresh _ Hin).
Qed.

Lemma load_run w p m : w_msgs w !! p = Some m -> load p w = (Ret m, w).
Proof. intros E. unfold load. by rewrite E. Qed.

(** The ACK is made once, in a message of its own. *)
Lemma ack_message_run w self t q request p response ack :
  lookup_trn w self = Some t -> f_pAck (t_fsm t) = None -> f_pRequest (t_fsm t) = Some q ->
  w_msgs w !! q = Some request -> w_msgs w !! p = Some response ->
  SIPIct.make_ack request response = Ret (Some ack) ->
  SIPIct.ack_message self p w =
    (Ret (Some (fresh_ref w)),
     put_trn (w <| w_msgs := <[fresh_ref w := ack]> (w_msgs w) |>) self
       (t <| t_fsm := (t_fsm t) <| f_pAck := Some (fresh_ref w) |> |>)).
Proof.
  intros E Ha Hq Hr Hp Hk. pose proof (fresh_ref_ne _ _ _ Hr). pose proof (fresh_ref_ne _ _ _ Hp).
  unfold SIPIct.ack_message. rewrite (bind_run _ _ _ _ _ (fsm_run _ _ _ E)), Ha.
  rewrite (bind_run (alloc newMessage) _ _ (fresh_ref w) _ eq_refl).
  rewrite (bind_run _ _ _ _ _ (modify_fsm_run _ _ _ _ (eq_trans (lookup_msgs _ _ _) E))).
  rewrite Hq. unfold deref_ptr at 1. erewrite bind_run by reflexivity.
  erewrite bind_run by (apply load_run; rewrite msgs_of_put; simpl; by rewrite lookup_insert_ne).
  erewrite bind_run by (apply load_run; rewrite msgs_of_put; simpl; by rewrite lookup_insert_ne).
  erewrite bind_run by reflexivity. rewrite Hk. erewrite bind_run by reflexivity. cbv iota.
  erewrite bind_run by reflexivity. unfold mret, M_ret. f_equal. simpl.
  rewrite !put_msgs, msgs_of_put. f_equal. by destruct w; unfold update; simpl; rewrite !insert_insert_eq.
Qed.

Lemma is1xx_run w p m r m' : w_msgs w !! p = Some m -> is1xx m 0 = Ret (r, m') ->
  msg_is1xx p w = (Ret (tb_true r), w <| w_msgs := <[p := m']> (w_msgs w) |>).
Proof.
  intros E Hm. unfold msg_is1xx, classify, mbind, M_bind, load. rewrite E. unfold lift. by rewrite Hm.
Qed.
Lemma is2xx_run w p m r m' : w_msgs w !! p = Some m -> is2xx m 0 = Ret (r, m') ->
  msg_is2xx p w = (Ret (tb_true r), w <| w_msgs := <[p := m']> (w_msgs w) |>).
Proof.
  intros E Hm. unfold msg_is2xx, classify, mbind, M_bind, load. rewrite E. unfold lift. by rewrite Hm.
Qed.

Lemma report_run w self t error p m tp : lookup_trn w self = Some t -> t_responseTU t = true ->
  t_state t <> TRN_STATE_TERMINATED -> w_msgs w !! p = Some m ->
  report self error (Some p) tp w = (Ret tt, w <| w_trace := EvResponseTU self error (Some m) tp :: w_trace w |>).
Proof.
  intros E Hu Hs Hm. unfold report. rewrite (bind_run _ _ _ _ _ (trn_run _ _ _ E)), Hu.
  rewrite (proj2 (Z.eqb_neq _ _)) by congruence. cbn [andb negb when].
  by rewrite (bind_run _ _ _ _ _ (load_run _ _ _ Hm)).
Qed.

(** [handleSendAck] on an unreliable transport, the first time. *)
Lemma handleSendAck_run w self t q request p response ack tp :
  lookup_trn w self = Some t -> t_state t = COMPLETED -> f_pAck (t_fsm t) = None ->
  f_pRequest (t_fsm t) = Some q -> w_msgs w !! q = Some request -> w_msgs w !! p = Some response ->
  SIPIct.make_ack request response = Ret (Some ack) -> tp_reliable tp = false ->
  exists w' t', SIPIct.handleSendAck self p tp true w = (Ret tt, w') /\
    w_trace w' = copy_of tp ack (t_remoteAddress t) :: w_trace w /\ lookup_trn w' self = Some t' /\
    t_state t' = COMPLETED /\ f_timers (t_fsm t') !! TimerD = Some (timerD (f_timerProps (t_fsm t))).
Proof.
  intros E Hs Ha Hq Hr Hp Hk Hu. unfold SIPIct.handleSendAck.
  rewrite (bind_run _ _ _ _ _ (getState_run _ _ _ E)), Hs. change (COMPLETED =? TRN_STATE_TERMINATED) with false.
  cbv iota. erewrite bind_run; [|rewrite (setState_run _ _ _ _ E), Hs; reflexivity].
  rewrite (bind_run _ _ _ _ _ (ack_message_run _ _ _ _ _ _ _ _ E Ha Hq Hr Hp Hk)). cbv iota.
  rewrite (bind_run _ _ _ _ _ (trn_run _ _ _ (lookup_put_eq _ _ _))), Hu. cbn [when].
  unfold startTimerD, start_default, cancel_timer.
  erewrite bind_run; [|
    rewrite (bind_run _ _ _ _ _ (modify_fsm_run _ _ _ _ (lookup_put_eq _ _ _))), put_put;
    rewrite (bind_run _ _ _ _ _ (fsm_run _ _ _ (lookup_put_eq _ _ _)));
    unfold start_timer; rewrite (modify_fsm_run _ _ _ _ (lookup_put_eq _ _ _)), put_put; reflexivity].
  erewrite write_to_run by (rewrite msgs_of_put; apply lookup_insert_eq).
  eexists _, _. split; [reflexivity|]. split; [|split; [|split]].
  - unfold copy_of. rewrite Hu. simpl. by destruct self.
  - transitivity (lookup_trn (put_trn w self (t <| t_fsm := (t_fsm t) <| f_pAck := Some (fresh_ref w) |>
      <| f_timers := <[TimerD := timerD (f_timerProps (t_fsm t))]> (delete TimerD (f_timers (t_fsm t))) |> |>)) self);
      [by destruct self|apply lookup_put_eq].
  - done.
  - simpl. apply lookup_insert_eq.
Qed.

(** The first error response is acknowledged.  An invite client in PROCEEDING
    that gets a final error response on an unreliable transport moves to
    COMPLETED, tells its user once, writes the ACK to the address of the request,
    and waits for retransmissions with timer D. *)
Theorem error_acknowledged w self t q request p m m1 m2 m3 r1 r2 ack tp :
  lookup_trn w self = Some t -> t_state t = PROCEEDING -> t_responseTU t = true -> f_pAck (t_fsm t) = None ->
  f_pRequest (t_fsm t) = Some q -> q <> p -> w_msgs w !! q = Some request -> w_msgs w !! p = Some m ->
  is1xx m 0 = Ret (r1, m1) -> tb_true r1 = false -> is2xx m1 0 = Ret (r2, m2) -> tb_true r2 = false ->
  isErrorResponse m2 = Ret (TTrue, m3) -> SIPIct.make_ack request m3 = Ret (Some ack) -> tp_reliable tp = false ->
  exists w' t', SIPIct.on_response self None p tp w = (Ret tt, w') /\
    w_trace w' = copy_of tp ack (t_remoteAddress t) :: EvResponseTU self None (Some m3) (Some tp) :: w_trace w /\
    lookup_trn w' self = Some t' /\ t_state t' = COMPLETED /\
    f_timers (t_fsm t') !! TimerD = Some (timerD (f_timerProps (t_fsm t))).
Proof.
  intros E Hs Hu Ha Hq Hn Hr Hm H1 B1 H2 B2 H3 Hk Hrel. unfold SIPIct.on_response.
  rewrite (bind_run _ _ _ _ _ (getState_run _ _ _ E)), Hs.
  change (PROCEEDING =? TRN_STATE_IDLE) with false. change (PROCEEDING =? TRYING) with false.
  change (PROCEEDING =? PROCEEDING) with true. cbn [orb].
  rewrite (bind_run _ _ _ _ _ (is1xx_run _ _ _ _ _ Hm H1)), B1.
  rewrite (bind_run _ _ _ _ _ (is2xx_run _ _ _ _ _ (lookup_insert_eq _ _ _) H2)), B2.
  rewrite (bind_run _ _ _ _ _ (isError_run _ _ _ _ (lookup_insert_eq _ _ _) H3)). cbn [when].
  set (w3 := _ <| w_msgs := _ |>).
  assert (lookup_trn w3 self = Some t) as E3 by (by rewrite <- E; destruct self).
  assert (w_msgs w3 !! p = Some m3) as Hm3 by apply lookup_insert_eq.
  assert (w_msgs w3 !! q = Some request) as Hr3 by (simpl; by rewrite !lookup_insert_ne).
  unfold SIPIct.onError, cancel_both, informTU.
  erewrite bind_run; [|rewrite (bind_run _ _ _ _ _ (cancel_each_run _ _ _ _ E3)); reflexivity].
  erewrite bind_run; [|rewrite (setState_run _ _ _ _ (lookup_put_eq _ _ _)); simpl; rewrite Hs; reflexivity].
  rewrite put_put.
  erewrite bind_run; [|eapply (report_run _ _ _ _ _ m3); [apply lookup_put_eq|done|done|by rewrite msgs_of_put]].
  set (t3 := (set_timers t _) <| t_state := COMPLETED |>). set (w4 := _ <| w_trace := _ |>).
  assert (lookup_trn w4 self = Some t3) as E4.
  { transitivity (lookup_trn (put_trn w3 self t3) self); [by destruct self|apply lookup_put_eq]. }
  assert (w_msgs w4 = w_msgs w3) as Em by (by destruct self).
  destruct (handleSendAck_run w4 self t3 q request p m3 ack tp) as (w' & t' & E' & Ht & El & Hst & Hd);
    rewrite ?Em; try done.
  exists w', t'. split; [exact E'|]. split; [rewrite Ht; simpl; by destruct self|]. by split_and!.
Qed.
End sending.

(** ** Concrete runs *)

(** The ACK of the sample INVITE and the busy response. *)
Definition sample_ack : SIPMessage :=
  match SIPIct.make_ack (boost := boost_reference) invite_request busy_response with
  | Ret (Some ack) => ack
  | _ => newMessage
  end.

Lemma ack_content_witness :
  m_startLine sample_ack = #"ACK sip:b@h SIP/2.0" /\ m_body sample_ack = [] /\
  hdrGet (boost := boost_reference) sample_ack HDR_TO 0 = #"<sip:b@h>;tag=2" /\
  exists i, str_find #" " (m_startLine invite_request) = Some i.
Proof.
  destruct (ack_content (boost := boost_reference) invite_request busy_response sample_ack) as ((i & Hi & _) & Hb & _).
  - vm_compute. reflexivity.
  - vm_compute. reflexivity.
  - vm_compute. discriminate.
  - apply Nat.leb_le. vm_compute. reflexivity.
  - apply Nat.leb_le. vm_compute. reflexivity.
  - split; [vm_compute; reflexivity|]. split; [exact Hb|]. split; [vm_compute; reflexivity|]. by exists i.
Defined.

(** An invite client that has had a provisional response; message 1 is the final
    one. *)
Definition ringing_ict : World :=
  mkWorld
    ((newTransaction #"invite1z9hG4bK1" InviteClient defaultTimers) <| t_transport := Some udp_session |>
       <| t_responseTU := true |> <| t_state := PROCEEDING |>
       <| t_fsm := (newFsm InviteClient defaultTimers) <| f_pRequest := Some 0%nat |> |>)
    ∅ true true defaultTimers {[ 0%nat := invite_request; 1%nat := busy_response ]} [].

Definition after (r : outcome (tribool * SIPMessage)) (m : SIPMessage) : SIPMessage :=
  match r with Ret (_, m') => m' | _ => m end.
Definition busy1 : SIPMessage := after (is1xx busy_response 0) busy_response.
Definition busy2 : SIPMessage := after (is2xx busy1 0) busy1.
Definition busy3 : SIPMessage := after (isErrorResponse busy2) busy2.

Lemma error_acknowledged_witness : exists w',
  SIPIct.on_response (boost := boost_reference) Parent None 1%nat udp_session ringing_ict = (Ret tt, w') /\
  length (w_trace w') = 2%nat.
Proof.
  destruct (error_acknowledged (boost := boost_reference) ringing_ict Parent (w_parent ringing_ict) 0%nat
    invite_request 1%nat busy_response busy1 busy2 busy3 TFalse TFalse sample_ack udp_session)
    as (w' & t' & E & Ht & _).
  1-15: first [reflexivity|done|vm_compute; reflexivity].
  exists w'. split; [exact E|]. by rewrite Ht.
Defined.

(** The same client after it has sent its ACK, message 2. *)
Definition acknowledged_ict : World :=
  mkWorld
    ((newTransaction #"invite1z9hG4bK1" InviteClient defaultTimers) <| t_transport := Some udp_session |>
       <| t_responseTU := true |> <| t_state := COMPLETED |>
       <| t_fsm := (newFsm InviteClient defaultTimers) <| f_pRequest := Some 0%nat |> <| f_pAck := Some 2%nat |> |>)
    ∅ true true defaultTimers {[ 0%nat := invite_request; 1%nat := busy_response; 2%nat := sample_ack ]} [].

Lemma ack_not_resent_witness : exists w',
  SIPIct.on_response (boost := boost_reference) Parent None 1%nat udp_session acknowledged_ict = (Ret tt, w') /\
  w_trace w' = [].
Proof.
  eexists. split.
  - apply (ack_not_resent (boost := boost_reference) acknowledged_ict Parent (w_parent acknowledged_ict) None 1%nat
      busy_response (after (isErrorResponse busy_response) busy_response) udp_session 2%nat);
      first [reflexivity|vm_compute; reflexivity].
  - reflexivity.
Defined.
