(* ===== verification/Dispatch.v ===== *)
(** * SIPFSMDispatch and the transaction pools

    src/sipfsm/SIPFSMDispatch.cpp, SIPTransactionPool.cpp and the four pools
    (SIPIctPool.cpp, SIPNictPool.cpp, SIPIstPool.cpp, SIPNistPool.cpp), with the
    cache of src/utl/Cache.cpp that blocks late INVITEs.  The dispatcher owns the
    transaction sets of Transaction.v, one map of them per kind of machine; it
    classifies what the transport reads, finds or creates the transaction and
    runs it.  A transaction runs in the [World] made of its set and of the
    dispatcher's heap of messages and trace; its calls of the dispatcher are then
    carried out.

    The house-keeping timer of the pools does nothing but start itself again, log
    identifiers are only logged, and [onReceivedMessage] of a pool is never
    called: they are left out. *)

From S2P Require Import Prelude CoreStrings SipHeaders SipMessage SipResponse TransactionTimers.
From S2P Require Import Transaction ClientFsm ServerFsm.
Open Scope Z_scope.

(** ** The expiring cache

    [Poco::ExpireCache], which [StringPairCache] wraps: what is added can be found
    until its time is over, and other entries are not disturbed. *)
Class ExpireCache := {
  cache : Type;
  cache_new : Z -> cache;
  cache_add : Z -> str -> str -> cache -> cache;
  cache_has : Z -> str -> cache -> bool;
  cache_remove : str -> cache -> cache;
  cache_clear : cache -> cache;

  cache_timeout : cache -> Z;
  cache_timeout_new : forall ms, cache_timeout (cache_new ms) = ms;
  cache_timeout_add : forall t id v c, cache_timeout (cache_add t id v c) = cache_timeout c;
  cache_new_empty : forall now ms id, cache_has now id (cache_new ms) = false;
  cache_added : forall t now id v c, t <= now -> now < t + cache_timeout c ->
    cache_has now id (cache_add t id v c) = true;
  cache_others : forall t now id id' v c, id <> id' ->
    cache_has now id' (cache_add t id v c) = cache_has now id' c
}.

Section dispatch.
Context {boost : BoostString} {lexical : BoostLexical} {env : Env} {expire_cache : ExpireCache}.

(** ** State *)

(** A transaction set: a parent and its branches. *)
Record Group := mkGroup {
  g_parent : SIPTransaction;
  g_branches : gmap str SIPTransaction
}.

(** SIPTransactionPool: [_timerProps] and [_transactionPool]. *)
Record SIPTransactionPool := mkPool {
  p_timerProps : SIPTransactionTimers;
  p_transactions : gmap str Group
}.

Record SIPFSMDispatch := mkDispatch {
  d_ict : SIPTransactionPool;
  d_nict : SIPTransactionPool;
  d_ist : SIPTransactionPool;
  d_nist : SIPTransactionPool;
  d_istBlocker : cache;
  d_now : Z;
  d_msgs : gmap nat SIPMessage;
  d_trace : list event
}.

#[export] Instance settable_pool : Settable SIPTransactionPool := fun p =>
  mkPool (p_timerProps p) (p_transactions p).
#[export] Instance settable_dispatch : Settable SIPFSMDispatch := fun d =>
  mkDispatch (d_ict d) (d_nict d) (d_ist d) (d_nist d) (d_istBlocker d) (d_now d) (d_msgs d) (d_trace d).

Definition newPool : SIPTransactionPool := mkPool defaultTimers ∅.

(** [SIPFSMDispatch()]: [_istBlocker(60)], in seconds. *)
Definition newDispatch (now : Z) : SIPFSMDispatch :=
  mkDispatch newPool newPool newPool newPool (cache_new (60 * 1000)) now ∅ [].

(** The pool of a kind of machine. *)
Definition pool (d : SIPFSMDispatch) (ty : TransactionType) : SIPTransactionPool :=
  match ty with
  | InviteClient => d_ict d
  | NonInviteClient => d_nict d
  | InviteServer => d_ist d
  | NonInviteServer => d_nist d
  end.

Definition set_pool (d : SIPFSMDispatch) (ty : TransactionType) (p : SIPTransactionPool) : SIPFSMDispatch :=
  match ty with
  | InviteClient => d <| d_ict := p |>
  | NonInviteClient => d <| d_nict := p |>
  | InviteServer => d <| d_ist := p |>
  | NonInviteServer => d <| d_nist := p |>
  end.

Definition with_transactions (d : SIPFSMDispatch) (ty : TransactionType)
    (f : gmap str Group -> gmap str Group) : SIPFSMDispatch :=
  set_pool d ty ((pool d ty) <| p_transactions := f (p_transactions (pool d ty)) |>).

Definition lookup_group (d : SIPFSMDispatch) (ty : TransactionType) (id : str) : option Group :=
  p_transactions (pool d ty) !! id.

(** ** The monad *)

Definition D (A : Type) : Type := SIPFSMDispatch -> outcome A * SIPFSMDispatch.

#[export] Instance D_ret : MRet D := fun A a d => (Ret a, d).
#[export] Instance D_bind : MBind D := fun A B f c d =>
  match c d with
  | (Ret a, d') => f a d'
  | (Throw e, d') => (Throw e, d')
  | (UB, d') => (UB, d')
  end.

Definition d_skip : D unit := mret tt.
Definition d_throw {A} (e : exn) : D A := fun d => (Throw e, d).
Definition d_lift {A} (o : outcome A) : D A := fun d => (o, d).
Definition d_get : D SIPFSMDispatch := fun d => (Ret d, d).
Definition d_modify (f : SIPFSMDispatch -> SIPFSMDispatch) : D unit := fun d => (Ret tt, f d).
Definition d_emit (e : event) : D unit := fun d => (Ret tt, d <| d_trace := e :: d_trace d |>).
Definition d_load (p : msgref) : D SIPMessage := fun d =>
  match d_msgs d !! p with Some m => (Ret m, d) | None => (UB, d) end.
Definition d_store (p : msgref) (m : SIPMessage) : D unit := fun d =>
  (Ret tt, d <| d_msgs := <[p := m]> (d_msgs d) |>).
Definition d_alloc (m : SIPMessage) : D msgref := fun d =>
  let p := infinite_fresh (map fst (map_to_list (d_msgs d))) in
  (Ret p, d <| d_msgs := <[p := m]> (d_msgs d) |>).
Definition d_classify (f : SIPMessage -> outcome (tribool * SIPMessage)) (p : msgref) : D tribool :=
  m ← d_load p;
  '(r, m') ← d_lift (f m);
  d_store p m';;
  mret r.

(** ** SIPTransactionPool *)

(** [findTransaction(id, canCreateTrn)]: whether the pool now has the
    transaction.  A new one gets its machine from [onAttachFSM] of the pool. *)
Definition findTransaction (ty : TransactionType) (id : str) (canCreateTrn : bool) : D bool := fun d =>
  match lookup_group d ty id with
  | Some _ => (Ret true, d)
  | None =>
      if canCreateTrn then
        (Ret true, with_transactions d ty
           <[id := mkGroup (newTransaction id ty (p_timerProps (pool d ty))) ∅]>)
      else (Ret false, d)
  end.

(** [findTransaction(pMsg, pTransport, canCreateTrn)]. *)
Definition findTransactionOf (ty : TransactionType) (p : msgref) (canCreateTrn : bool) : D bool :=
  m ← d_load p;
  id ← d_lift (getTransactionId m None);
  match id with
  | None => mret false
  | Some id => findTransaction ty id canCreateTrn
  end.

Definition removeTransaction (ty : TransactionType) (id : str) : D bool := fun d =>
  match lookup_group d ty id with
  | None => (Ret false, d)
  | Some _ => (Ret true, with_transactions d ty (delete id))
  end.

(** [stop()] of a pool: the parents are set to TERMINATED and lose their timers,
    then all are dropped. *)
Definition group_world (d : SIPFSMDispatch) (ty : TransactionType) (g : Group) : World :=
  mkWorld (g_parent g) (g_branches g) true true (p_timerProps (pool d ty)) (d_msgs d) (d_trace d).

Definition stop_group : M unit := setState Parent TRN_STATE_TERMINATED;; cancelAllTimers Parent.

Fixpoint stop_each (ty : TransactionType) (gs : list Group) : D unit := fun d =>
  match gs with
  | [] => (Ret tt, d)
  | g :: gs =>
      match stop_group (group_world d ty g) with
      | (Ret _, w) => stop_each ty gs (d <| d_msgs := w_msgs w |> <| d_trace := w_trace w |>)
      | (Throw e, _) => (Throw e, d)
      | (UB, _) => (UB, d)
      end
  end.

Definition stop_pool (ty : TransactionType) : D unit :=
  d ← d_get;
  stop_each ty (map snd (map_to_list (p_transactions (pool d ty))));;
  d_modify (fun d => with_transactions d ty (fun _ => ∅)).

(** [blockIst]. *)
Definition blockIst (id : str) : D unit :=
  d_modify (fun d => d <| d_istBlocker := cache_add (d_now d) id id (d_istBlocker d) |>).

(** ** Running a transaction *)

(** The calls of the pool and of the dispatcher in a transaction's events. *)
Definition perform (ty : TransactionType) (e : event) : D unit :=
  match e with
  | EvBlockIst id => blockIst id
  | EvRemoveTransaction id => _ ← removeTransaction ty id; d_skip
  | _ => d_skip
  end.

Fixpoint perform_all (ty : TransactionType) (es : list event) : D unit :=
  match es with
  | [] => d_skip
  | e :: es => perform ty e;; perform_all ty es
  end.

(** The events after the first [n], oldest first. *)
Definition new_events (n : nat) (tr : list event) : list event := reverse (take (length tr - n) tr).

(** The set goes back to its pool. *)
Definition put_back (d : SIPFSMDispatch) (ty : TransactionType) (id : str) (w : World) : SIPFSMDispatch :=
  (with_transactions d ty <[id := mkGroup (w_parent w) (w_branches w)]>)
    <| d_msgs := w_msgs w |> <| d_trace := w_trace w |>.

Definition run_in {A} (ty : TransactionType) (id : str) (c : M A) : D A := fun d =>
  match lookup_group d ty id with
  | None => (UB, d)
  | Some g =>
      let '(r, w) := c (group_world d ty g) in
      let '(_, d') := perform_all ty (new_events (length (d_trace d)) (w_trace w)) (put_back d ty id w) in
      (r, d')
  end.

(** ** SIPFSMDispatch *)

Definition MIN_DATAGRAM_SIZE : Z := 10.

(** Whether the dispatcher's user has set [_ackOr2xxTransactionHandler]. *)
Context (ackOr2xxTransactionHandler : bool).

Definition ended (t : SIPTransaction) : bool :=
  t_hasSent2xx t || (t_state t =? TRN_STATE_TERMINATED).

(** An ACK that finds an INVITE server transaction: [true] when it is for a 2xx
    and goes to the user. *)
Definition ack_for_2xx (pMsg : msgref) (pTransport : Transport) : M bool :=
  pBranch ← findBranch Parent pMsg;
  t ← trn Parent;
  branchTerminated ← (match pBranch with
                      | Some b => bt ← trn b; mret (ended bt)
                      | None => mret false
                      end);
  if (branchTerminated || ended t) && ackOr2xxTransactionHandler then
    m ← load pMsg;
    emit (EvAckOr2xx m pTransport);;
    mret true
  else mret false.

(** The message is given to the transaction. *)
Definition deliver (isIstAck : bool) (pMsg : msgref) (pTransport : Transport) : M unit :=
  handled ← (if isIstAck then ack_for_2xx pMsg pTransport else mret false);
  if (handled : bool) then skip
  else
    t ← trn Parent;
    when (negb (t_transportService t))
      (modify Parent (fun t => t <| t_transportService := true |> <| t_transport := Some pTransport |>));;
    onReceivedMessage pMsg pTransport.

(** Which pool the message belongs to and whether there is a transaction; [None]
    is the early return for a blocked INVITE. *)
Definition route (pMsg : msgref) (id : str) : D (option (option TransactionType * bool)) :=
  m ← d_load pMsg;
  isReq ← d_classify (fun m => isRequest m None) pMsg;
  if tb_true isReq then
    if string_caseless_starts_with (m_startLine m) #"invite" then
      d ← d_get;
      if cache_has (d_now d) id (d_istBlocker d) then mret None
      else found ← findTransactionOf InviteServer pMsg true; mret (Some (Some InviteServer, found))
    else if string_caseless_starts_with (m_startLine m) #"ack" then
      found ← findTransactionOf InviteServer pMsg false; mret (Some (Some InviteServer, found))
    else
      found ← findTransactionOf NonInviteServer pMsg true; mret (Some (Some NonInviteServer, found))
  else
    isReq ← d_classify (fun m => isRequest m None) pMsg;
    if tb_true (tb_not isReq) then
      let cseq := hdrGet m HDR_CSEQ 0 in
      if string_caseless_ends_with cseq #"invite" then
        found ← findTransactionOf InviteClient pMsg false; mret (Some (Some InviteClient, found))
      else
        found ← findTransactionOf NonInviteClient pMsg false; mret (Some (Some NonInviteClient, found))
    else mret (Some (None, false)).

(** A message without a transaction.  The operands of the tribool [&&] are both
    evaluated. *)
Definition orphan (ty : option TransactionType) (pMsg : msgref) (pTransport : Transport) : D unit :=
  let report := if ackOr2xxTransactionHandler then m ← d_load pMsg; d_emit (EvAckOr2xx m pTransport)
                else d_skip in
  isAck ← d_classify (fun m => isRequest m (Some #"ACK")) pMsg;
  if bool_decide (ty = Some InviteServer) && tb_true isAck then report
  else
    is2xx ← d_classify (fun m => is2xx m 0) pMsg;
    if bool_decide (ty = Some InviteClient) && tb_true is2xx then report else d_skip.

(** A datagram too short to be a message. *)
Definition too_short (pTransport : Transport) : bool :=
  negb (tp_endpoint pTransport) && (tp_lastReadCount pTransport <? MIN_DATAGRAM_SIZE)
  && negb (tp_reliable pTransport).

Definition d_onReceivedMessage (pMsg : msgref) (pTransport : Transport) : D unit :=
  if too_short pTransport then d_skip
  else
    m ← d_load pMsg;
    d_store pMsg (parseMessage m);;
    m ← d_load pMsg;
    id ← d_lift (getTransactionId m None);
    match id with
    | None => d_skip
    | Some id =>
        found ← route pMsg id;
        match found with
        | None => d_skip
        | Some (Some ty, true) =>
            isAck ← d_classify (fun m => isRequest m (Some #"ACK")) pMsg;
            run_in ty id (deliver (bool_decide (ty = InviteServer) && tb_true isAck) pMsg pTransport)
        | Some (ty, _) => orphan ty pMsg pTransport
        end
    end.

(** [createClientTransaction]: the transaction's pool and identifier, [None] for
    an ACK. *)
Definition createClientTransaction (pRequest : msgref) : D (option (TransactionType * str)) :=
  isReq ← d_classify (fun m => isRequest m None) pRequest;
  if tb_true (tb_not isReq) then
    d_throw (SIPException "Sending a response using sendRequest() method is illegal")
  else
    m ← d_load pRequest;
    id ← d_lift (getTransactionId m None);
    match id with
    | None => d_throw (SIPException "Unable to determine transaction identifier")
    | Some id =>
        if string_caseless_starts_with (m_startLine m) #"invite" then
          found ← findTransactionOf InviteClient pRequest true;
          mret (if (found : bool) then Some (InviteClient, id) else None)
        else
          isAck ← d_classify (fun m => isRequest m (Some #"ACK")) pRequest;
          if tb_true isAck then mret None
          else
            found ← findTransactionOf NonInviteClient pRequest true;
            mret (if (found : bool) then Some (NonInviteClient, id) else None)
    end.

(** The part of [sendRequest] that runs in the transaction. *)
Definition submit (pRequest : msgref) (localAddress remoteAddress : IPAddress)
    (callback terminateCallback : bool) : M unit :=
  t ← trn Parent;
  when (negb (t_transportService t))
    (modify Parent (fun t => t <| t_transportService := true |> <| t_localAddress := localAddress |>
       <| t_remoteAddress := remoteAddress |>));;
  sendRequest Parent pRequest localAddress remoteAddress callback terminateCallback.

Definition d_sendRequest (pRequest : msgref) (localAddress remoteAddress : IPAddress)
    (callback terminateCallback : bool) : D unit :=
  trn ← createClientTransaction pRequest;
  match trn with
  | Some (ty, id) => run_in ty id (submit pRequest localAddress remoteAddress callback terminateCallback)
  | None => d_skip
  end.

(** A timer of a pooled transaction expires.  The expiry of an INVITE client
    asks the dispatcher to send a CANCEL, the last thing its handler does. *)
Fixpoint send_cancels (es : list event) : D unit :=
  match es with
  | [] => d_skip
  | EvDispatchSend m localAddress remoteAddress :: es =>
      p ← d_alloc m;
      d_sendRequest p localAddress remoteAddress false false;;
      send_cancels es
  | _ :: es => send_cancels es
  end.

Definition d_expire (ty : TransactionType) (id : str) (self : who) (tm : Timer) : D unit :=
  before ← d_get;
  run_in ty id (expire self tm);;
  after ← d_get;
  send_cancels (new_events (length (d_trace before)) (d_trace after)).

Definition d_stop : D unit :=
  stop_pool InviteClient;; stop_pool NonInviteClient;; stop_pool InviteServer;; stop_pool NonInviteServer.

End dispatch.
