(* ===== verification/DispatchFacts.v ===== *)
(** * Facts about the dispatcher

    What holds of the pools in every run of the dispatcher: which transactions
    they hold, that none outlives its lifetime timer, which transaction a message
    reaches, and what happens to an INVITE that comes too late. *)

From S2P Require Import Prelude Abnf SipGrammar CoreStrings SipHeaders SipMessage SipMessageFacts SipRoundtrip SipResponse.
From S2P Require Import TransactionTimers Transaction ClientFsm ServerFsm FsmLogic FsmFacts Dispatch.
From stdpp Require Import sorting.
Open Scope Z_scope.

(** ** What a run of a transaction set keeps *)

(** All transactions of a set have the identifier and the machine of its parent. *)
Definition same_set (w : World) : Prop := forall self t, lookup_trn w self = Some t ->
  t_id t = t_id (w_parent w) /\ f_type (t_fsm t) = f_type (t_fsm (w_parent w)).

(** The transaction identifier an INVITE server machine has noted. *)
Abbreviation noted t := (f_transactionId (t_fsm t)).

(** What a set tells its pool and the dispatcher, and what of it stays.  [es] is
    what was called, the latest first. *)
Record told (w w' : World) (es : list event) : Prop := Told {
  told_trace : w_trace w' = es ++ w_trace w;
  told_removed : forall id, EvRemoveTransaction id ∈ es ->
    id = t_id (w_parent w) /\ t_hasTerminated (w_parent w') = true;
  told_ended : t_hasTerminated (w_parent w) = false -> t_hasTerminated (w_parent w') = true ->
    EvRemoveTransaction (t_id (w_parent w)) ∈ es /\
    (f_type (t_fsm (w_parent w)) = InviteServer -> noted (w_parent w) <> [] -> EvBlockIst (noted (w_parent w)) ∈ es)
}.

Record kept (w w' : World) : Prop := Kept {
  kept_id : t_id (w_parent w') = t_id (w_parent w);
  kept_type : f_type (t_fsm (w_parent w')) = f_type (t_fsm (w_parent w));
  kept_set : same_set w -> same_set w';
  kept_noted : noted (w_parent w) <> [] -> noted (w_parent w') = noted (w_parent w);
  kept_ended : t_hasTerminated (w_parent w) = true -> t_hasTerminated (w_parent w') = true;
  kept_told : exists es, told w w' es
}.

Lemma told_same w w' : w_trace w' = w_trace w -> t_hasTerminated (w_parent w') = t_hasTerminated (w_parent w) ->
  told w w' [].
Proof. intros E H. split; [done|by intros id Hin%elem_of_nil|]. congruence. Qed.

#[export] Instance kept_preorder : PreOrder kept.
Proof.
  split.
  - intros w. split; try done. exists []. by apply told_same.
  - intros w1 w2 w3 [I1 T1 S1 N1 E1 (es1 & [Q1 R1 B1])] [I2 T2 S2 N2 E2 (es2 & [Q2 R2 B2])].
    split; [congruence|congruence|tauto| |tauto|].
    + intros Hn. rewrite N2; [by apply N1|]. by rewrite N1.
    + exists (es2 ++ es1). split; [by rewrite Q2, Q1, app_assoc| |].
      * intros id [Hin|Hin]%elem_of_app; [destruct (R2 _ Hin); split; congruence|].
        destruct (R1 _ Hin); auto.
      * intros H1 H3. destruct (t_hasTerminated (w_parent w2)) eqn:H2.
        -- destruct (B1 H1 eq_refl) as [Hr Hb]. setoid_rewrite elem_of_app. auto.
        -- destruct (B2 eq_refl H3) as [Hr Hb]. rewrite I1 in Hr. setoid_rewrite elem_of_app.
           split; [by left|]. intros Ht Hn. left. rewrite <- N1 by done. apply Hb; [congruence|by rewrite N1].
Qed.

(** An update of one transaction. *)
Definition keeps_identity (t t' : SIPTransaction) : Prop :=
  t_id t' = t_id t /\ f_type (t_fsm t') = f_type (t_fsm t) /\ t_hasTerminated t' = t_hasTerminated t /\
  (noted t <> [] -> noted t' = noted t).

Lemma same_set_put w self t t' : lookup_trn w self = Some t -> t_id t' = t_id t ->
  f_type (t_fsm t') = f_type (t_fsm t) -> same_set w -> same_set (put_trn w self t').
Proof.
  intros E Hi Ht Hw s u. rewrite lookup_put.
  assert (t_id (w_parent (put_trn w self t')) = t_id (w_parent w) /\
    f_type (t_fsm (w_parent (put_trn w self t'))) = f_type (t_fsm (w_parent w))) as [-> ->].
  { destruct self; simpl in *; [|done]. by simplify_eq. }
  destruct (decide (self = s)) as [->|]; [|apply Hw]. intros [= <-]. rewrite Hi, Ht. by apply (Hw s).
Qed.

Lemma kept_put w self t t' : lookup_trn w self = Some t -> keeps_identity t t' -> kept w (put_trn w self t').
Proof.
  intros E (Hi & Ht & Hh & Hn). destruct (put_trn_same w self t') as (Etr & _).
  assert (forall P : SIPTransaction -> SIPTransaction -> Prop, (forall u, P u u) -> P t t' ->
    P (w_parent w) (w_parent (put_trn w self t'))) as Hp.
  { intros P H1 H2. destruct self; simpl in *; [by simplify_eq|done]. }
  split.
  - by apply (Hp (fun a b => t_id b = t_id a)).
  - by apply (Hp (fun a b => f_type (t_fsm b) = f_type (t_fsm a))).
  - by eapply same_set_put.
  - by apply (Hp (fun a b => noted a <> [] -> noted b = noted a)).
  - apply (Hp (fun a b => t_hasTerminated a = true -> t_hasTerminated b = true)); [done|]. by rewrite Hh.
  - exists []. apply told_same; [done|]. by apply (Hp (fun a b => t_hasTerminated b = t_hasTerminated a)).
Qed.

Lemma kept_modify self f : (forall t, keeps_identity t (f t)) -> Keeps kept (modify self f).
Proof.
  intros Hf w. unfold modify. destruct (lookup_trn w self) as [t|] eqn:E; [|done]. by eapply kept_put.
Qed.

(** A call that says nothing to the pool. *)
Definition not_remove (e : event) : Prop := match e with EvRemoveTransaction _ => False | _ => True end.

Lemma kept_call w e : not_remove e \/ (e = EvRemoveTransaction (t_id (w_parent w)) /\ t_hasTerminated (w_parent w) = true) ->
  kept w (w <| w_trace := e :: w_trace w |>).
Proof.
  intros He. split; try done. exists [e]. split; [done| |simpl; congruence].
  intros id Hin%list_elem_of_singleton. subst. destruct He as [[]|[[= <-] ?]]. done.
Qed.

Lemma kept_emit e : not_remove e -> Keeps kept (emit e).
Proof. intros He w. simpl. apply kept_call. by left. Qed.

#[export] Instance kept_frame : Frame kept.
Proof.
  split.
  - apply _.
  - intros e He. apply kept_emit. by destruct e.
  - intros p m w. split; try done. exists []. by apply told_same.
  - intros m w. split; try done. exists []. by apply told_same.
  - intros self f Hf. apply kept_modify. intros t. destruct (Hf t) as (? & ? & ? & ? & _ & ?). done.
  - intros self tm _. by apply kept_modify.
Qed.

(** ** Ending *)

Lemma kept_blocked w t : kept w (note_blocked w t).
Proof. unfold note_blocked. destruct (blocked_id t); [apply kept_call; by left|reflexivity]. Qed.

Lemma kept_terminate_branch tag : Keeps kept (terminate_self (Branch tag)).
Proof.
  intros w. destruct (lookup_trn w (Branch tag)) as [t|] eqn:E.
  - rewrite (terminate_self_run _ _ _ E). destruct (t_hasTerminated t); [reflexivity|].
    transitivity (note_blocked w t); [apply kept_blocked|].
    split; try done.
    + eapply same_set_put; [by rewrite lookup_note_blocked|done|done].
    + exists []. by apply told_same.
  - unfold terminate_self, mbind, M_bind, trn. by rewrite E.
Qed.

Lemma kept_terminate_each tags : Keeps kept (terminate_each tags).
Proof. pose proof kept_terminate_branch. induction tags; simpl; keep. Qed.

(** The end of a set: what the parent says of itself, then its branches, then the
    pool lets go. *)
Lemma kept_finish w : t_hasTerminated (w_parent w) = true -> exists w' es,
  (w ← get; terminate_each (branch_tags w);; t ← trn Parent;
   when (t_terminateCallback t) (emit EvTerminateCallback);; emit (EvRemoveTransaction (t_id t));; leave_pool) w
    = (Ret tt, w') /\ kept w w' /\ w_trace w' = es ++ w_trace w /\ EvRemoveTransaction (t_id (w_parent w)) ∈ es.
Proof.
  intros Hh. destruct (terminate_branches_run (branch_tags w) w) as (w2 & E2 & R2 & P2 & _).
  { intros tag. by rewrite branch_tags_in. }
  pose proof (kept_terminate_each (branch_tags w) w) as K2. rewrite E2 in K2.
  set (w3 := if t_terminateCallback (w_parent w2) then w2 <| w_trace := EvTerminateCallback :: w_trace w2 |> else w2).
  assert (kept w2 w3) as K3 by (subst w3; destruct (t_terminateCallback _); [apply kept_call; by left|reflexivity]).
  assert (w_parent w3 = w_parent w) as P3 by (subst w3; by destruct (t_terminateCallback _)).
  set (w4 := w3 <| w_trace := EvRemoveTransaction (t_id (w_parent w)) :: w_trace w3 |>).
  assert (kept w3 w4) as K4 by (apply kept_call; right; by rewrite P3).
  destruct (kept_told w w3) as (es & [Hes _ _]); [by transitivity w2|].
  exists (w4 <| w_inPool := false |>), (EvRemoveTransaction (t_id (w_parent w)) :: es). split; [|split; [|split]].
  - rewrite (bind_run _ _ _ _ _ (eq_refl : get w = _)), (bind_run _ _ _ _ _ E2).
    rewrite (bind_run _ _ _ _ _ (eq_refl : trn Parent w2 = _)).
    rewrite (bind_run _ _ w2 tt w3) by (subst w3; unfold when; by destruct (t_terminateCallback _)).
    subst w4. by rewrite P2.
  - transitivity w2; [done|]. transitivity w3; [done|]. transitivity w4; [done|].
    split; try done. exists []. by apply told_same.
  - simpl. by rewrite Hes.
  - left.
Qed.

Lemma kept_terminate_parent : Keeps kept (terminate Parent).
Proof.
  intros w. unfold terminate, mbind at 1, M_bind at 1. rewrite (terminate_self_run w Parent _ eq_refl).
  destruct (t_hasTerminated (w_parent w)) eqn:Eh; [by apply (keeps_skip kept)|].
  set (w1 := put_trn (note_blocked w (w_parent w)) Parent (terminated_trn (w_parent w))).
  destruct (kept_finish w1 eq_refl) as (w' & es & E & [I T S N H (es' & [Q R _])] & Etr & Hin). simpl.
  rewrite E. rewrite Q in Etr. apply app_inv_tail in Etr as <-.
  assert (exists bs, w_trace w1 = bs ++ w_trace w /\ (forall id, ~ EvRemoveTransaction id ∈ bs) /\
    (f_type (t_fsm (w_parent w)) = InviteServer -> noted (w_parent w) <> [] -> EvBlockIst (noted (w_parent w)) ∈ bs))
    as (bs & Hbs & Hno & Hb).
  { subst w1. clear. simpl. unfold note_blocked, blocked_id. destruct (f_type (t_fsm (w_parent w))); try (exists []; split_and!; [done|by intros id ?%elem_of_nil|done]).
    destruct (noted (w_parent w)); [exists []; split_and!; [done|by intros id ?%elem_of_nil|done]|].
    eexists [_]. split; [done|]. split; [by intros id ?%list_elem_of_singleton|]. intros _ _. left. }
  split; [exact I|exact T| |exact N|by intros _; apply H|].
  - intros Hw. apply S. eapply same_set_put; [by rewrite lookup_note_blocked|done|done|].
    unfold note_blocked. by destruct (blocked_id _).
  - exists (es' ++ bs). split; [by rewrite Q, Hbs, app_assoc| |].
    + intros id [Hi|Hi]%elem_of_app; [by apply R|by apply Hno in Hi].
    + intros _ _. split; [apply elem_of_app; by left|]. intros. apply elem_of_app. right. by apply Hb.
Qed.

Lemma kept_terminate self : Keeps kept (terminate self).
Proof.
  destruct self as [|tag]; [apply kept_terminate_parent|]. unfold terminate.
  apply keeps_bind; [apply _|apply kept_terminate_branch|]. intros b. simpl. rewrite andb_false_r. apply keeps_skip, _.
Qed.

#[export] Instance kept_ending : Ending kept.
Proof.
  split; [apply _|apply kept_terminate|]. intros w tag E. split; try done.
  - intros Hw [|b] t; simpl; [by intros [= <-]|]. intros [[_ <-]|[_ Ht]]%lookup_insert_Some; [done|by apply (Hw (Branch b))].
  - exists []. by apply told_same.
Qed.

Lemma kept_setState self s : Keeps kept (setState self s).
Proof.
  intros w. destruct (lookup_trn w self) as [t|] eqn:E.
  - rewrite (setState_run _ _ _ _ E). destruct (_ =? _); [reflexivity|]. destruct (_ =? _); [reflexivity|].
    by eapply kept_put.
  - unfold setState, mbind, M_bind, trn. by rewrite E.
Qed.

Lemma kept_timers self f : Keeps kept (modify_fsm self (fun x => x <| f_timers := f (f_timers x) |>)).
Proof. by apply kept_modify. Qed.

Lemma kept_tu self error m tp : Keeps kept (emit (EvResponseTU self error m tp)).
Proof. by apply kept_emit. Qed.

#[export] Instance kept_machine : Machine kept.
Proof.
  pose proof kept_tu. pose proof (fun self tm ms => kept_timers self <[tm := ms]>).
  split; [apply _|intros; apply kept_setState|unfold report; keep|done|].
  intros self tm ms. unfold start_exact, start_timer. keep. by apply kept_modify.
Qed.

Section runs.
Context {boost : BoostString} {lexical : BoostLexical} {env : Env} {expire_cache : ExpireCache} (handler : bool).

(** ** Every way the dispatcher runs a set *)

Lemma kept_deliver ack p tp : Keeps kept (deliver handler ack p tp).
Proof.
  pose proof (k_onReceivedMessage kept (m_fsm_onReceivedMessage kept)). unfold deliver, ack_for_2xx. keep.
Qed.

Lemma kept_submit p a b c d : Keeps kept (submit p a b c d).
Proof. pose proof (m_sendRequest kept kept_tu). unfold submit. keep. Qed.

Lemma kept_expire self tm : Keeps kept (expire self tm).
Proof. apply k_expire; [apply _|by apply kept_modify|keep]. Qed.

(** What the user and the transport do with a pooled transaction. *)
Inductive user_call : M unit -> Prop :=
| call_sendResponse self p a : user_call (sendResponse self p a)
| call_sendAckFor2xx self p a : user_call (sendAckFor2xx self p a)
| call_writeMessage self p a : user_call (writeMessage self p a)
| call_terminate self : user_call (terminate self)
| call_connectionError self m : user_call (handleConnectionError self m).

Lemma m_user_call R `{!Machine R} c : user_call c -> Keeps R c.
Proof.
  intros []; [apply k_sendResponse|apply k_sendAckFor2xx|apply k_writeMessage|apply ending_terminate
             |apply k_handleConnectionError]; try apply _; intros; keep.
Qed.

(** ** The pools *)

Lemma pool_set d ty p ty' : pool (set_pool d ty p) ty' = if decide (ty = ty') then p else pool d ty'.
Proof. by destruct ty, ty'. Qed.

Lemma lookup_with d ty f ty' id : lookup_group (with_transactions d ty f) ty' id =
  if decide (ty = ty') then f (p_transactions (pool d ty)) !! id else lookup_group d ty' id.
Proof. unfold lookup_group, with_transactions. rewrite pool_set. by destruct (decide _). Qed.

Lemma props_with d ty f ty' : p_timerProps (pool (with_transactions d ty f) ty') = p_timerProps (pool d ty').
Proof. unfold with_transactions. rewrite pool_set. destruct (decide _) as [->|]; done. Qed.

Lemma with_same d ty f : let d' := with_transactions d ty f in
  d_istBlocker d' = d_istBlocker d /\ d_now d' = d_now d /\ d_msgs d' = d_msgs d /\ d_trace d' = d_trace d.
Proof. by destruct ty. Qed.

(** An identifier is blocked until [until]. *)
Definition blocks (d : SIPFSMDispatch) (until : Z) (id : str) : Prop :=
  forall now, d_now d <= now < until -> cache_has now id (d_istBlocker d) = true.

(** When the blocking of now ends. *)
Definition block_end (d : SIPFSMDispatch) : Z := d_now d + cache_timeout (d_istBlocker d).

(** What never changes when a transaction runs. *)
Record framed (d d' : SIPFSMDispatch) : Prop := Framed {
  framed_now : d_now d' = d_now d;
  framed_timeout : cache_timeout (d_istBlocker d') = cache_timeout (d_istBlocker d);
  framed_props : forall ty, p_timerProps (pool d' ty) = p_timerProps (pool d ty);
  framed_blocked : forall id until, until <= block_end d -> blocks d until id -> blocks d' until id
}.

#[export] Instance framed_preorder : PreOrder framed.
Proof.
  split; [done|]. intros d1 d2 d3 [N1 T1 P1 B1] [N2 T2 P2 B2].
  split; [congruence|congruence|congruence|]. intros id u Hu H. apply B2; [|by apply B1].
  unfold block_end in *. by rewrite N1, T1.
Qed.

Lemma framed_with d ty f : framed d (with_transactions d ty f).
Proof.
  destruct (with_same d ty f) as (E1 & E2 & E3 & E4). split; [done|congruence|apply props_with|].
  intros id u _. unfold blocks. by rewrite E1, E2.
Qed.

(** What is called of a pool: [gone] tells which transactions it loses. *)
Record called (ty : TransactionType) (gone blocked : str -> Prop) (d d' : SIPFSMDispatch) : Prop := Called {
  called_framed : framed d d';
  called_msgs : d_msgs d' = d_msgs d;
  called_trace : d_trace d' = d_trace d;
  called_stay : forall ty' id, ty' <> ty \/ ~ gone id -> lookup_group d' ty' id = lookup_group d ty' id;
  called_none : forall ty' id, lookup_group d ty' id = None -> lookup_group d' ty' id = None;
  called_gone : forall id, gone id -> lookup_group d' ty id = None;
  called_blocked : forall id, blocked id -> blocks d' (block_end d) id
}.

Lemma perform_run ty e d : exists d', perform ty e d = (Ret tt, d') /\
  called ty (fun id => e = EvRemoveTransaction id) (fun id => e = EvBlockIst id) d d'.
Proof.
  destruct e as [| | | | | | | | | | | |i|i| |]; try (exists d; by split).
  - simpl. unfold mbind, D_bind, removeTransaction. destruct (lookup_group d ty i) as [g|] eqn:E.
    + destruct (with_same d ty (delete i)) as (E1 & E2 & E3 & E4).
      eexists. split; [done|]. split; [apply framed_with|done|done| | | |done]; intros ty' id.
      * rewrite lookup_with. destruct (decide (ty = ty')) as [<-|Hn]; [|done].
        intros [?|H]; [done|]. apply lookup_delete_ne. congruence.
      * rewrite lookup_with. destruct (decide (ty = ty')) as [<-|Hn]; [|done].
        intros H. apply lookup_delete_None. by right.
      * injection id as ->. rewrite lookup_with, decide_True by done. apply lookup_delete_eq.
    + exists d. split; [done|]. split; try done. by intros id [= ->].
  - eexists. split; [done|]. split; [|done|done|by intros []|by intros []|done|].
    + split; simpl; [done|apply cache_timeout_add|by intros []|]. intros id u Hu H now Hn. unfold block_end in Hu. simpl in *.
      destruct (decide (i = id)) as [->|Hi]; [apply cache_added; lia|rewrite cache_others by done; by apply H].
    + intros id [= ->] now Hn. unfold block_end in Hn. simpl in *. apply cache_added; lia.
Qed.

Lemma perform_all_run ty es d : exists d', perform_all ty es d = (Ret tt, d') /\
  called ty (fun id => EvRemoveTransaction id ∈ es) (fun id => EvBlockIst id ∈ es) d d'.
Proof.
  revert d. induction es as [|e es IH]; intros d; simpl.
  - exists d. split; [done|]. split; try done; by intros id ?%elem_of_nil.
  - destruct (perform_run ty e d) as (d1 & E1 & [F1 M1 T1 L1 O1 G1 B1]).
    destruct (IH d1) as (d2 & E2 & [F2 M2 T2 L2 O2 G2 B2]). exists d2.
    unfold mbind, D_bind. rewrite E1. split; [done|]. pose proof F1 as [N1 C1 _ _]. pose proof F2 as [_ _ _ K2].
    split; [by transitivity d1|congruence|congruence| |by auto| |]; setoid_rewrite elem_of_cons.
    + intros ty' id [H|H]; rewrite L2, L1 by auto; done.
    + intros id [<-|Hin]; [by apply O2, G1|by apply G2].
    + assert (block_end d1 = block_end d) as Eb by (unfold block_end; by rewrite N1, C1). rewrite <- Eb.
      intros id [<-|Hin]; [apply K2; [done|rewrite Eb; by apply B1]|by apply B2].
Qed.

(** ** Running a transaction in its pool *)

Definition group_trn (g : Group) (self : who) : option SIPTransaction :=
  match self with Parent => Some (g_parent g) | Branch tag => g_branches g !! tag end.
Definition group_of (w : World) : Group := mkGroup (w_parent w) (w_branches w).

(** A set that belongs in a pool: alive, of the pool's kind, and all its
    transactions under the pool's key. *)
Definition group_ok (ty : TransactionType) (id : str) (g : Group) : Prop :=
  t_hasTerminated (g_parent g) = false /\
  forall self t, group_trn g self = Some t -> t_id t = id /\ f_type (t_fsm t) = ty.

Lemma new_events_app es tr : new_events (length tr) (es ++ tr) = reverse es.
Proof.
  unfold new_events. rewrite length_app. replace (length es + length tr - length tr)%nat with (length es) by lia.
  by rewrite take_app_length.
Qed.

Lemma group_ok_kept d ty id g w : group_ok ty id g -> kept (group_world d ty g) w ->
  t_hasTerminated (w_parent w) = false -> group_ok ty id (group_of w).
Proof.
  intros [Hh Hg] [I T S _ _ _] Hh'. split; [done|]. destruct (Hg Parent _ eq_refl) as [Ei Et]. simpl in I, T.
  intros self t Ht. destruct (S (fun self t H => ltac:(simpl; rewrite Ei, Et; exact (Hg self t H))) self t) as [E1 E2].
  - by destruct self.
  - by rewrite E1, E2, I, T.
Qed.

Record ran {A} (ty : TransactionType) (id : str) (c : M A) (g : Group) (r : outcome A)
    (d d' : SIPFSMDispatch) (w : World) : Prop := Ran {
  ran_run : c (group_world d ty g) = (r, w);
  ran_kept : kept (group_world d ty g) w;
  ran_framed : framed d d';
  ran_msgs : d_msgs d' = w_msgs w;
  ran_trace : d_trace d' = w_trace w;
  ran_others : forall ty' id', (ty', id') <> (ty, id) -> lookup_group d' ty' id' = lookup_group d ty' id';
  ran_self : lookup_group d' ty id = if t_hasTerminated (w_parent w) then None else Some (group_of w);
  ran_blocked : t_hasTerminated (w_parent w) = true -> ty = InviteServer -> noted (g_parent g) <> [] ->
    blocks d' (block_end d) (noted (g_parent g))
}.

Lemma put_back_same d ty id w : framed d (put_back d ty id w) /\ d_msgs (put_back d ty id w) = w_msgs w /\
  d_trace (put_back d ty id w) = w_trace w /\ d_now (put_back d ty id w) = d_now d /\
  d_istBlocker (put_back d ty id w) = d_istBlocker d /\
  (forall ty' id', lookup_group (put_back d ty id w) ty' id' =
     if decide ((ty', id') = (ty, id)) then Some (group_of w) else lookup_group d ty' id').
Proof.
  pose proof (framed_with d ty <[id := group_of w]>) as [N T P B].
  destruct (with_same d ty <[id := group_of w]>) as (E1 & E2 & E3 & E4).
  split_and!; [split; [by destruct ty|by destruct ty|intros []; by destruct ty|intros i u; by destruct ty]
              |done|done|by destruct ty|by destruct ty|].
  intros ty' id'. pose proof (lookup_with d ty <[id := group_of w]> ty' id') as H.
  transitivity (lookup_group (with_transactions d ty <[id := group_of w]>) ty' id'); [by destruct ty, ty'|].
  rewrite H. destruct (decide (ty = ty')) as [<-|Hn].
  - destruct (decide (id = id')) as [<-|Hi]; [by rewrite decide_True, lookup_insert_eq|].
    rewrite decide_False by congruence. by apply lookup_insert_ne.
  - by rewrite decide_False by congruence.
Qed.

Lemma run_in_ran {A} ty id (c : M A) d r d' g :
  Keeps kept c -> lookup_group d ty id = Some g -> group_ok ty id g ->
  run_in ty id c d = (r, d') -> r <> UB -> exists w, ran ty id c g r d d' w.
Proof.
  intros Hc Hg [Hh Hok] E Hr. unfold run_in in E. rewrite Hg in E.
  destruct (c (group_world d ty g)) as [r0 w] eqn:Ec.
  destruct (perform_all_run ty (new_events (length (d_trace d)) (w_trace w)) (put_back d ty id w))
    as (d0 & Ep & [F M T L _ G B]). rewrite Ep in E. simplify_eq. exists w.
  assert (kept (group_world d ty g) w) as K by (by eapply keeps_run).
  pose proof K as [_ _ _ _ _ (es & [Q R D])]. simpl in Q, R, D.
  rewrite Q, new_events_app in L, G, B. setoid_rewrite elem_of_reverse in L. setoid_rewrite elem_of_reverse in G.
  setoid_rewrite elem_of_reverse in B. destruct (Hok Parent _ eq_refl) as [Ei Et]. rewrite Ei in R, D.
  destruct (put_back_same d ty id w) as (PF & PM & PT & PN & PB & PL).
  split; [done|done|by transitivity (put_back d ty id w)|congruence|congruence| | |].
  - intros ty' id' Hn. rewrite L, PL; [by rewrite decide_False|].
    destruct (decide (ty' = ty)) as [->|]; [right|by left]. intros [-> _]%R. congruence.
  - destruct (t_hasTerminated (w_parent w)) eqn:Ew; [by apply G, D|].
    rewrite L, PL; [by rewrite decide_True|]. right. intros [_ ?]%R. congruence.
  - intros Ew -> Hn. replace (block_end d) with (block_end (put_back d InviteServer id w)) by (unfold block_end; by rewrite PN, PB).
    apply B. destruct (D Hh Ew) as [_ Hb]. by apply Hb.
Qed.

(** ** What becomes of a received message *)

(** Where the dispatcher looks for the transaction of a parsed message, and
    whether it may create one; [x] is what [isRequest] says. *)
Definition routed (m : SIPMessage) (x : tribool) : option (TransactionType * bool) :=
  match x with
  | TTrue =>
      if string_caseless_starts_with (m_startLine m) #"invite" then Some (InviteServer, true)
      else if string_caseless_starts_with (m_startLine m) #"ack" then Some (InviteServer, false)
      else Some (NonInviteServer, true)
  | TFalse =>
      if string_caseless_ends_with (hdrGet m HDR_CSEQ 0) #"invite" then Some (InviteClient, false)
      else Some (NonInviteClient, false)
  | TIndet => None
  end.

(** A blocked INVITE. *)
Definition refused (d : SIPFSMDispatch) (ty : TransactionType) (create : bool) (id : str) : bool :=
  bool_decide (ty = InviteServer) && create && cache_has (d_now d) id (d_istBlocker d).

Definition with_message (d : SIPFSMDispatch) (p : msgref) (m : SIPMessage) : SIPFSMDispatch :=
  d <| d_msgs := <[p := m]> (d_msgs d) |>.

Definition new_group (d : SIPFSMDispatch) (ty : TransactionType) (id : str) : Group :=
  mkGroup (newTransaction id ty (p_timerProps (pool d ty))) ∅.

(** An ACK on its way to an INVITE server transaction. *)
Definition is_ack (ty : TransactionType) (m : SIPMessage) : bool :=
  bool_decide (ty = InviteServer) && string_caseless_starts_with (m_startLine m) #"ACK".

Definition dispatched (p : msgref) (tp : Transport) (id : str) (m : SIPMessage) (x : tribool) (d : SIPFSMDispatch)
    : outcome unit * SIPFSMDispatch :=
  match routed m x with
  | None => orphan handler None p tp d
  | Some (ty, create) =>
      if refused d ty create id then (Ret tt, d)
      else
        match lookup_group d ty id with
        | Some _ => run_in ty id (deliver handler (is_ack ty m) p tp) d
        | None =>
            if create then
              run_in ty id (deliver handler (is_ack ty m) p tp) (with_transactions d ty <[id := new_group d ty id]>)
            else orphan handler (Some ty) p tp d
        end
  end.

Lemma is_request_kind m x m1 : isRequest m None = Ret (x, m1) ->
  (exists a b, m1 = set_kind m a b) /\ isRequest m1 None = Ret (x, m1).
Proof.
  unfold isRequest. rewrite !cache_ignored.
  destruct (length (m_startLine m) =? 0)%nat eqn:El; [intros [= <- <-]; split; [exists (m_isResponse m), (m_isRequest m); by destruct m|by rewrite El]|].
  destruct (requestLineVerify _) as [[]| |] eqn:Er; simpl; try done.
  - intros [= <- <-]. split; [by eauto|]. simpl. by rewrite El, Er.
  - destruct (statusLineVerify _) as [[]| |] eqn:Es; simpl; try done; intros [= <- <-].
    + split; [by eauto|]. simpl. by rewrite El, Er, Es.
    + split; [exists (m_isResponse m), (m_isRequest m); by destruct m|]. by rewrite El, Er, Es.
Qed.

Lemma dbind_run {A B} (c : D A) (f : A -> D B) d a d' : c d = (Ret a, d') -> (c ≫= f) d = f a d'.
Proof. intros E. unfold mbind, D_bind. by rewrite E. Qed.

Lemma dbind_assoc {A B C} (c : D A) (f : A -> D B) (g : B -> D C) d :
  ((c ≫= f) ≫= g) d = (c ≫= (fun a => f a ≫= g)) d.
Proof. unfold mbind, D_bind. by destruct (c d) as [[]]. Qed.

Lemma d_load_run d p m : d_msgs d !! p = Some m -> d_load p d = (Ret m, d).
Proof. intros E. unfold d_load. by rewrite E. Qed.

Lemma d_classify_run f d p m x m1 : d_msgs d !! p = Some m -> f m = Ret (x, m1) ->
  d_classify f p d = (Ret x, with_message d p m1).
Proof.
  intros E Ef. unfold d_classify. rewrite (dbind_run _ _ _ _ _ (d_load_run _ _ _ E)).
  unfold d_lift. rewrite Ef. done.
Qed.

Lemma with_message_id d p m : d_msgs d !! p = Some m -> with_message d p m = d.
Proof. intros E. unfold with_message. destruct d. simpl in *. unfold update. simpl. by rewrite insert_id. Qed.

Lemma findTransactionOf_run ty d p m id create : d_msgs d !! p = Some m -> getTransactionId m None = Ret (Some id) ->
  findTransactionOf ty p create d = findTransaction ty id create d.
Proof.
  intros E Ei. unfold findTransactionOf. rewrite (dbind_run _ _ _ _ _ (d_load_run _ _ _ E)).
  unfold d_lift. by rewrite (dbind_run _ _ _ _ d (f_equal (fun o => (o, d)) Ei)).
Qed.

Lemma ack_classify_run d p m : d_msgs d !! p = Some m ->
  d_classify (fun m => isRequest m (Some #"ACK")) p d
    = (Ret (tb_of_bool (string_caseless_starts_with (m_startLine m) #"ACK")), d).
Proof. intros E. erewrite d_classify_run by done. by rewrite with_message_id. Qed.

(** The part of [d_onReceivedMessage] after the identifier. *)
Definition receive_tail (p : msgref) (tp : Transport) (id : str) : D unit :=
  found ← route p id;
  match found with
  | None => d_skip
  | Some (Some ty, true) =>
      isAck ← d_classify (fun m => isRequest m (Some #"ACK")) p;
      run_in ty id (deliver handler (bool_decide (ty = InviteServer) && tb_true isAck) p tp)
  | Some (ty, _) => orphan handler ty p tp
  end.

Lemma deliver_run p tp id ty d m : d_msgs d !! p = Some m ->
  (isAck ← d_classify (fun m => isRequest m (Some #"ACK")) p;
   run_in ty id (deliver handler (bool_decide (ty = InviteServer) && tb_true isAck) p tp)) d =
  run_in ty id (deliver handler (is_ack ty m) p tp) d.
Proof.
  intros E. rewrite (dbind_run _ _ _ _ _ (ack_classify_run _ _ _ E)). unfold is_ack.
  by destruct (string_caseless_starts_with (m_startLine m) _).
Qed.

(** After the search. *)
Lemma found_tail p tp id ty create d m :
  d_msgs d !! p = Some m -> getTransactionId m None = Ret (Some id) ->
  (found ← (found ← findTransactionOf ty p create; mret (Some (Some ty, found)));
   match found with
   | None => d_skip
   | Some (Some ty, true) =>
       isAck ← d_classify (fun m => isRequest m (Some #"ACK")) p;
       run_in ty id (deliver handler (bool_decide (ty = InviteServer) && tb_true isAck) p tp)
   | Some (ty, _) => orphan handler ty p tp
   end) d =
  match lookup_group d ty id with
  | Some _ => run_in ty id (deliver handler (is_ack ty m) p tp) d
  | None =>
      if create then
        run_in ty id (deliver handler (is_ack ty m) p tp) (with_transactions d ty <[id := new_group d ty id]>)
      else orphan handler (Some ty) p tp d
  end.
Proof.
  intros E Ei. rewrite dbind_assoc.
  pose proof (findTransactionOf_run ty _ _ _ _ create E Ei) as Ef'. unfold findTransaction in Ef'.
  destruct (lookup_group d ty id) as [g|]; [|destruct create]; rewrite (dbind_run _ _ _ _ _ Ef').
  - by apply deliver_run.
  - apply deliver_run. by destruct (with_same d ty <[id := new_group d ty id]>) as (_ & _ & -> & _).
  - done.
Qed.

Lemma receive_tail_run p tp id d m x m1 :
  d_msgs d !! p = Some m -> getTransactionId m None = Ret (Some id) -> isRequest m None = Ret (x, m1) ->
  receive_tail p tp id d = dispatched p tp id m x (with_message d p m1).
Proof.
  intros E Ei Er. destruct (is_request_kind _ _ _ Er) as [(a & b & ->) Er1].
  set (m1 := set_kind m a b). set (d1 := with_message d p m1).
  assert (d_msgs d1 !! p = Some m1) as E1 by apply lookup_insert_eq.
  assert (getTransactionId m1 None = Ret (Some id)) as Ei1 by done.
  pose proof (d_classify_run (fun m => isRequest m None) _ _ _ _ _ E Er) as C. fold m1 d1 in C.
  pose proof (d_classify_run (fun m => isRequest m None) _ _ _ _ _ E1 Er1) as C1. rewrite (with_message_id d1) in C1 by done.
  unfold receive_tail, route. rewrite dbind_assoc, (dbind_run _ _ _ _ _ (d_load_run _ _ _ E)).
  rewrite dbind_assoc, (dbind_run _ _ _ _ _ C). unfold dispatched, routed.
  destruct x; cbn [tb_true tb_not].
  - destruct (string_caseless_starts_with (m_startLine m) #"invite").
    + rewrite dbind_assoc, (dbind_run _ _ _ _ _ (eq_refl : d_get d1 = _)). unfold refused.
      rewrite bool_decide_true by done. cbn [andb]. destruct (cache_has _ _ _); [done|]. by rewrite (found_tail _ _ _ _ _ _ m1).
    + destruct (string_caseless_starts_with (m_startLine m) #"ack"); by rewrite (found_tail _ _ _ _ _ _ m1).
  - rewrite dbind_assoc, (dbind_run _ _ _ _ _ C1). cbn [tb_true tb_not].
    destruct (string_caseless_ends_with _ #"invite"); by rewrite (found_tail _ _ _ _ _ _ m1).
  - by rewrite dbind_assoc, (dbind_run _ _ _ _ _ C1).
Qed.

(** Nothing but messages and the trace changes. *)
Record quiet (d d' : SIPFSMDispatch) : Prop := Quiet {
  quiet_pool : forall ty, pool d' ty = pool d ty;
  quiet_blocker : d_istBlocker d' = d_istBlocker d;
  quiet_now : d_now d' = d_now d
}.

#[export] Instance quiet_preorder : PreOrder quiet.
Proof. split; [done|]. intros d1 d2 d3 [P1 B1 N1] [P2 B2 N2]. split; congruence. Qed.

Lemma quiet_lookup d d' ty id : quiet d d' -> lookup_group d' ty id = lookup_group d ty id.
Proof. intros [P _ _]. unfold lookup_group. by rewrite P. Qed.

Lemma quiet_framed d d' : quiet d d' -> framed d d'.
Proof.
  intros [P B N]. split; [done|by rewrite B|intros ty; by rewrite P|].
  intros id u _. unfold blocks. by rewrite B, N.
Qed.

Lemma quiet_message d p m : quiet d (with_message d p m).
Proof. split; [by intros []|done|done]. Qed.

Lemma quiet_classify f p d : quiet d (snd (d_classify f p d)).
Proof.
  unfold d_classify, mbind, D_bind, d_load, d_lift. destruct (d_msgs d !! p) as [m|]; [|done].
  destruct (f m) as [[x m']| |]; [|done|done]. apply quiet_message.
Qed.

Lemma quiet_bind {A B} (c : D A) (f : A -> D B) d :
  quiet d (snd (c d)) -> (forall a d', quiet d' (snd (f a d'))) -> quiet d (snd ((c ≫= f) d)).
Proof.
  intros Hc Hf. unfold mbind, D_bind. destruct (c d) as [[a|e|] d']; simpl in *; [|done|done].
  transitivity d'; [done|apply Hf].
Qed.

Lemma quiet_orphan ty p tp d : quiet d (snd (orphan handler ty p tp d)).
Proof.
  assert (forall d, quiet d (snd ((if handler then m ← d_load p; d_emit (EvAckOr2xx m tp) else d_skip) d))) as Hr.
  { intros d1. destruct handler; [|done]. apply quiet_bind.
    - unfold d_load. by destruct (d_msgs d1 !! p).
    - intros m d2. split; [by intros []|done|done]. }
  unfold orphan. apply quiet_bind; [apply quiet_classify|]. intros a d1.
  destruct (_ && _); [apply Hr|]. apply quiet_bind; [apply quiet_classify|]. intros b d2.
  destruct (_ && _); [apply Hr|done].
Qed.

(** The pool has the transaction: it had it, or it has just been created. *)
Inductive opened (ty : TransactionType) (id : str) (create : bool) (d : SIPFSMDispatch) : SIPFSMDispatch -> Prop :=
| opened_found g : lookup_group d ty id = Some g -> opened ty id create d d
| opened_new : lookup_group d ty id = None -> create = true ->
    opened ty id create d (with_transactions d ty <[id := new_group d ty id]>).

(** A message either changes no transaction, or is delivered to the one it is
    routed to. *)
Inductive receipt (p : msgref) (tp : Transport) (d : SIPFSMDispatch) (r : outcome unit) (d' : SIPFSMDispatch) : Prop :=
| receipt_dropped : quiet d d' -> receipt p tp d r d'
| receipt_delivered m x m1 id ty create d1 :
    d_msgs d !! p = Some m -> getTransactionId (parseMessage m) None = Ret (Some id) ->
    isRequest (parseMessage m) None = Ret (x, m1) -> routed (parseMessage m) x = Some (ty, create) ->
    refused d ty create id = false -> opened ty id create (with_message d p m1) d1 ->
    run_in ty id (deliver handler (is_ack ty (parseMessage m)) p tp) d1 = (r, d') -> receipt p tp d r d'.

Lemma receive_unfold p tp d m :
  d_msgs d !! p = Some m ->
  too_short tp = false ->
  let d1 := with_message d p (parseMessage m) in
  d_onReceivedMessage handler p tp d =
    match getTransactionId (parseMessage m) None with
    | Ret (Some id) => receive_tail p tp id d1
    | Ret None => (Ret tt, d1)
    | Throw e => (Throw e, d1)
    | UB => (UB, d1)
    end.
Proof.
  intros E Hs d1. assert (d_msgs d1 !! p = Some (parseMessage m)) as E1 by apply lookup_insert_eq.
  unfold d_onReceivedMessage. rewrite Hs, (dbind_run _ _ _ _ _ (d_load_run _ _ _ E)).
  rewrite (dbind_run (d_store p (parseMessage m)) _ d tt d1 eq_refl), (dbind_run _ _ _ _ _ (d_load_run _ _ _ E1)).
  unfold mbind, D_bind, d_lift at 1. by destruct (getTransactionId _ None) as [[]| |].
Qed.

Lemma tail_undefined p tp id d m : d_msgs d !! p = Some m -> isRequest m None = UB ->
  fst (receive_tail p tp id d) = UB.
Proof.
  intros E Er. unfold receive_tail, route. rewrite dbind_assoc, (dbind_run _ _ _ _ _ (d_load_run _ _ _ E)), dbind_assoc.
  unfold d_classify. rewrite dbind_assoc, (dbind_run _ _ _ _ _ (d_load_run _ _ _ E)), dbind_assoc.
  unfold mbind at 1, D_bind at 1, d_lift. by rewrite Er.
Qed.

Lemma is_request_no_throw m e : isRequest m None <> Throw e.
Proof.
  unfold isRequest. rewrite cache_ignored. destruct (_ =? 0)%nat; [done|].
  unfold requestLineVerify, statusLineVerify, checked.
  generalize (ABNFEvaluate ABNFSIPRequestLine (m_startLine m)), (ABNFEvaluate ABNFSIPStatusLine (m_startLine m)).
  by intros [[]|] [[]|].
Qed.

Lemma receive_inv p tp d r d' :
  d_onReceivedMessage handler p tp d = (r, d') -> r <> UB -> receipt p tp d r d'.
Proof.
  intros E Hr. destruct (too_short tp) eqn:Es.
  { unfold d_onReceivedMessage in E. rewrite Es in E. injection E as <- <-. by left. }
  destruct (d_msgs d !! p) as [m|] eqn:Em.
  2:{ unfold d_onReceivedMessage, mbind, D_bind, d_load in E. rewrite Es, Em in E. by injection E as <- <-. }
  rewrite (receive_unfold _ _ _ _ Em Es) in E. cbv zeta in E.
  destruct (getTransactionId (parseMessage m) None) as [[id|]|e|] eqn:Ei;
    try (injection E as <- <-; left; apply quiet_message).
  assert (d_msgs (with_message d p (parseMessage m)) !! p = Some (parseMessage m)) as Em1 by apply lookup_insert_eq.
  destruct (isRequest (parseMessage m) None) as [[x m1]|e|] eqn:Ex; [|by apply is_request_no_throw in Ex|].
  2:{ pose proof (tail_undefined p tp id _ _ Em1 Ex) as Hu. by rewrite E in Hu. }
  rewrite (receive_tail_run _ _ _ _ _ _ _ Em1 Ei Ex) in E.
  replace (with_message (with_message d p (parseMessage m)) p m1) with (with_message d p m1) in E
    by (unfold with_message, update; simpl; by rewrite insert_insert_eq).
  pose proof (quiet_message d p m1) as Q. unfold dispatched in E.
  destruct (routed _ _) as [[ty create]|] eqn:Ert.
  2:{ left. transitivity (with_message d p m1); [done|]. pose proof (quiet_orphan None p tp (with_message d p m1)) as H.
      by rewrite E in H. }
  destruct (refused _ ty create id) eqn:Eb; [injection E as <- <-; by left|].
  destruct (lookup_group (with_message d p m1) ty id) as [g|] eqn:Eg.
  - eapply receipt_delivered; [done|done|done|done|done|by eapply opened_found|done].
  - destruct create; [eapply receipt_delivered; [done|done|done|done|done|by apply opened_new|done]|].
    left. transitivity (with_message d p m1); [done|].
    pose proof (quiet_orphan (Some ty) p tp (with_message d p m1)) as H. by rewrite E in H.
Qed.

End runs.
