(* ===== verification/DispatchSteps.v ===== *)
(** * Runs of the dispatcher

    The steps of a dispatcher, the invariant of its pools, and what follows from
    it: the pools hold live transactions of their kind under their identifier,
    every one of them is bounded by its lifetime timer, a message changes at most
    one transaction, and an INVITE that comes after the end of its transaction
    does not start it again. *)

From S2P Require Import Prelude Abnf SipGrammar CoreStrings SipHeaders SipMessage SipMessageFacts SipRoundtrip SipResponse.
From S2P Require Import TransactionTimers Transaction ClientFsm ServerFsm FsmLogic FsmFacts Dispatch DispatchFacts.
From stdpp Require Import sorting.
Open Scope Z_scope.

(** ** The lifetime as a relation *)

Lemma keeps_life {A} (c : M A) : Keeps runs c -> Keeps (Inv life) c.
Proof.
  intros H w. specialize (H w). destruct (c w) as [[a|e|] w']; [exact (run_life _ _ H)|exact (run_life _ _ H)|done].
Qed.

#[export] Instance life_frame : Frame (Inv life).
Proof.
  split; [apply _|..]; intros; apply keeps_life;
    [by apply frame_emit|apply frame_store|apply frame_alloc|by apply frame_modify|by apply frame_cancel].
Qed.

#[export] Instance life_machine : Machine (Inv life).
Proof.
  split; [split; [apply _| |]|..]; intros.
  - apply keeps_life, ending_terminate.
  - exact (fun Hl => Hl).
  - by apply keeps_life, machine_setState.
  - apply keeps_life, machine_report.
  - apply keeps_life, machine_start_timer.
  - apply keeps_life, machine_start_exact.
Qed.

Lemma life_tu self error m tp : Keeps (Inv life) (emit (EvResponseTU self error m tp)).
Proof. intros w. exact (fun Hl => Hl). Qed.

Section steps.
Context {boost : BoostString} {lexical : BoostLexical} {env : Env} {expire_cache : ExpireCache} (handler : bool).

(** ** Steps *)

(** A message is read; the user sends a request; a pending timer expires; the
    user or the transport uses a pooled transaction; the stack is stopped;
    messages change and time passes between the steps.  [failing] tells whether
    [sendRequest] and timer handlers may throw. *)
Inductive dstep (failing : bool) (d : SIPFSMDispatch) : SIPFSMDispatch -> Prop :=
| dstep_receive p tp r d' :
    d_onReceivedMessage handler p tp d = (r, d') -> r <> UB -> dstep failing d d'
| dstep_send p a b c t r d' :
    d_sendRequest p a b c t d = (r, d') -> r <> UB -> r = Ret tt \/ failing = true -> dstep failing d d'
| dstep_expire ty id g self t tm ms r d' :
    lookup_group d ty id = Some g -> group_trn g self = Some t -> f_timers (t_fsm t) !! tm = Some ms ->
    d_expire ty id self tm d = (r, d') -> r <> UB -> r = Ret tt \/ failing = true -> dstep failing d d'
| dstep_user ty id c r d' :
    user_call c -> run_in ty id c d = (r, d') -> r <> UB -> dstep failing d d'
| dstep_stop r d' : d_stop d = (r, d') -> r <> UB -> dstep failing d d'
| dstep_messages msgs : dstep failing d (d <| d_msgs := msgs |>)
| dstep_time now : d_now d <= now -> dstep failing d (d <| d_now := now |>).

(** ** The invariant *)

Definition server (ty : TransactionType) : Prop := ty = InviteServer \/ ty = NonInviteServer.

Definition group_life (g : Group) : Prop :=
  is_Some (lifetime (g_parent g)) /\ t_state (g_parent g) <> TRN_STATE_IDLE.

Record group_good (failing : bool) (ty : TransactionType) (id : str) (g : Group) : Prop := Good {
  good_ok : group_ok ty id g;
  good_life : failing = false \/ server ty -> group_life g;
  good_noted : ty = InviteServer -> noted (g_parent g) = id /\ id <> []
}.

Record good (failing : bool) (d : SIPFSMDispatch) : Prop := {
  good_groups : forall ty id g, lookup_group d ty id = Some g -> group_good failing ty id g;
  good_timeout : cache_timeout (d_istBlocker d) = 60 * 1000
}.

Lemma good_new failing now : good failing (newDispatch now).
Proof.
  split; [|apply cache_timeout_new]. intros [] id g Hg; unfold lookup_group in Hg; simpl in Hg; by rewrite lookup_empty in Hg.
Qed.

Lemma good_quiet failing d d' : good failing d -> quiet d d' -> good failing d'.
Proof.
  intros [G T] Q. split.
  - intros ty id g. rewrite (quiet_lookup _ _ _ _ Q). apply G.
  - by rewrite (framed_timeout _ _ (quiet_framed _ _ Q)).
Qed.

(** The invariant except for one transaction. *)
Definition good_but (failing : bool) (ty : TransactionType) (id : str) (d : SIPFSMDispatch) : Prop :=
  (forall ty' id' g, (ty', id') <> (ty, id) -> lookup_group d ty' id' = Some g -> group_good failing ty' id' g) /\
  cache_timeout (d_istBlocker d) = 60 * 1000.

(** One run restores it. *)
Lemma good_ran {A} failing ty id (c : M A) g r d d' w :
  good_but failing ty id d -> group_ok ty id g -> ran ty id c g r d d' w ->
  (failing = false \/ server ty -> life w) ->
  (ty = InviteServer -> noted (w_parent w) = id /\ id <> []) -> good failing d'.
Proof.
  intros [G T] Hg [_ K F _ _ O S _] Hl Hn. split; [|by rewrite (framed_timeout _ _ F)].
  intros ty' id' g' Hg'. destruct (decide ((ty', id') = (ty, id))) as [[= -> ->]|Hne].
  - rewrite S in Hg'. destruct (t_hasTerminated (w_parent w)) eqn:Eh; [done|]. injection Hg' as <-.
    split; [by eapply group_ok_kept| |done]. intros H. destruct (Hl H) as [|[? ?]]; [congruence|done].
  - apply G; [done|]. by rewrite <- O.
Qed.

Lemma good_run {A} failing ty id (c : M A) g r d d' :
  good failing d -> lookup_group d ty id = Some g -> Keeps kept c ->
  (forall w, c (group_world d ty g) = (r, w) -> r <> UB -> life (group_world d ty g) -> life w) ->
  run_in ty id c d = (r, d') -> r <> UB -> good failing d'.
Proof.
  intros [G T] Hg Hk Hl E Hr. destruct (G _ _ _ Hg) as [Hok Hli Hno].
  destruct (run_in_ran _ _ _ _ _ _ _ Hk Hg Hok E Hr) as [w R]. pose proof R as [Ec K _ _ _ _ _ _].
  eapply good_ran; [|exact Hok|exact R| |].
  - split; [|done]. intros ty' id' g' _. apply G.
  - intros H. apply Hl; [done|done|]. right. by apply Hli.
  - intros Ht. destruct (Hno Ht) as [E1 E2]. split; [|done]. rewrite (kept_noted _ _ K); simpl; congruence.
Qed.

(** ** The first message of a server transaction *)

Lemma isRequest_fix w p m x : w_msgs w !! p = Some m -> isRequest m None = Ret (x, m) ->
  msg_isRequest p w = (Ret x, w).
Proof.
  intros E Ex. unfold msg_isRequest, classify, mbind, M_bind, load, lift. rewrite E, Ex.
  unfold store, mret, M_ret. f_equal. destruct w. unfold update. simpl in *. by rewrite insert_id.
Qed.

Lemma isRequestOf_run w p m method : w_msgs w !! p = Some m ->
  msg_isRequestOf p method w = (Ret (tb_of_bool (string_caseless_starts_with (m_startLine m) method)), w).
Proof.
  intros E. unfold msg_isRequestOf, classify, mbind, M_bind, load, lift. rewrite E. simpl.
  unfold store, mret, M_ret. f_equal. destruct w. unfold update. simpl in *. by rewrite insert_id.
Qed.

(** What the new parent is like when its machine gets the message. *)
Record fresh (ty : TransactionType) (id : str) (p : msgref) (m : SIPMessage) (w : World) : Prop := Fresh {
  fresh_state : t_state (w_parent w) = TRN_STATE_IDLE;
  fresh_type : f_type (t_fsm (w_parent w)) = ty;
  fresh_id : t_id (w_parent w) = id;
  fresh_noted : noted (w_parent w) = [];
  fresh_msg : w_msgs w !! p = Some m
}.

Lemma note_first ty id p tp m w : fresh ty id p m w ->
  t_transport (w_parent w) = Some tp -> t_pInitialRequest (w_parent w) = None -> isRequest m None = Ret (TTrue, m) ->
  exists w1, note_message Parent false p tp w = (Ret tt, w1) /\ fresh ty id p m w1.
Proof.
  intros [S T I N E] Ht Hi Hr. unfold note_message. rewrite (bind_run _ _ _ _ _ (isRequest_fix _ _ _ _ E Hr)).
  rewrite (bind_run _ _ _ _ _ (eq_refl : trn Parent w = _)), Ht, Hi. cbn [tb_true andb negb when].
  rewrite (bind_run _ _ _ _ _ (modify_run w Parent _ _ eq_refl)).
  erewrite (bind_run skip) by reflexivity. rewrite (modify_run _ Parent _ _ (lookup_put_eq _ _ _)), put_put.
  eexists. split; [reflexivity|]. by split.
Qed.

Lemma deliver_first ty id p tp m w : fresh ty id p m w ->
  t_transportService (w_parent w) = false -> t_pInitialRequest (w_parent w) = None ->
  isRequest m None = Ret (TTrue, m) -> string_caseless_starts_with (m_startLine m) #"ACK" = false ->
  exists w1, fresh ty id p m w1 /\ deliver handler false p tp w = fsm_onReceivedMessage Parent p tp w1.
Proof.
  intros [S T I N E] Hs Hi Hr Ha. unfold deliver.
  rewrite (bind_run (mret (M := M) false) _ w false w eq_refl). cbv iota.
  rewrite (bind_run _ _ _ _ _ (eq_refl : trn Parent w = _)). rewrite Hs. cbn [negb when].
  rewrite (bind_run _ _ _ _ _ (modify_run w Parent _ _ eq_refl)).
  match goal with |- context [onReceivedMessage p tp ?u] => set (w2 := u) end.
  destruct (note_first ty id p tp m w2) as (w3 & E3 & F3); [by split|done|done|done|]. exists w3. split; [done|].
  unfold onReceivedMessage. rewrite (bind_run _ _ _ _ _ (isRequestOf_run w2 p m _ E)), Ha. cbn [tb_of_bool tb_true].
  rewrite (bind_run _ _ _ _ _ E3), (bind_run _ _ _ _ _ (isRequest_fix _ _ _ _ (fresh_msg _ _ _ _ _ F3) Hr)). done.
Qed.

(** The machine starts the lifetime timer; the INVITE server machine notes the
    identifier first. *)
Lemma machine_first ty id p tp m w r w' : fresh ty id p m w -> server ty -> id <> [] ->
  isRequest m None = Ret (TTrue, m) ->
  fsm_onReceivedMessage Parent p tp w = (r, w') -> r <> UB ->
  life w' /\ (ty = InviteServer -> noted (w_parent w') = id).
Proof.
  intros [S T I N E] Hs Hid Hr Er Hu. unfold fsm_onReceivedMessage in Er.
  rewrite (bind_run _ _ _ _ _ (fsm_run w Parent _ eq_refl)), T in Er. destruct Hs as [-> | ->].
  - unfold ist_onReceivedMessage in Er. rewrite (bind_run _ _ _ _ _ (eq_refl : trn Parent w = _)) in Er.
    rewrite (bind_run _ _ _ _ _ (modify_fsm_run w Parent _ _ eq_refl)) in Er.
    match type of Er with (_ ?u) = _ => set (w2 := u) in Er end.
    assert (noted (w_parent w2) = id) as N2 by (simpl; by rewrite N).
    assert (t_state (w_parent w2) = TRN_STATE_IDLE) as S2 by done. assert (w_msgs w2 !! p = Some m) as E2 by done.
    clearbody w2. unfold check_queued in Er.
    rewrite (bind_run (_ ≫= _) _ w2 true w2) in Er by (rewrite (bind_run _ _ _ _ _ (getState_run w2 Parent _ eq_refl)), S2; done).
    cbn [negb] in Er. rewrite (bind_run _ _ _ _ _ (isRequest_fix _ _ _ _ E2 Hr)) in Er.
    rewrite (bind_run _ _ _ _ _ (getState_run w2 Parent _ eq_refl)), S2 in Er. cbn [tb_true andb orb Z.eqb TRN_STATE_IDLE] in Er.
    split; [by eapply server_starts in Er|]. intros _.
    assert (kept w2 w') as K.
    { eapply keeps_run; [|exact Er|done]. apply m_accept; [apply _|done|done]. }
    by rewrite (kept_noted _ _ K), N2; [|by rewrite N2].
  - split; [|done]. unfold nist_onReceivedMessage, check_queued in Er.
    rewrite (bind_run (_ ≫= _) _ w true w) in Er by (rewrite (bind_run _ _ _ _ _ (getState_run w Parent _ eq_refl)), S; done).
    cbn [negb] in Er. rewrite (bind_run _ _ _ _ _ (getState_run w Parent _ eq_refl)), S in Er.
    cbn [orb Z.eqb TRN_STATE_IDLE] in Er. by eapply server_starts in Er.
Qed.

(** ** Receiving *)

Lemma ack_key s : string_caseless_starts_with s #"ACK" = string_caseless_starts_with s #"ack".
Proof. unfold string_caseless_starts_with. by rewrite !to_lower_map. Qed.

Lemma invite_not_ack s : string_caseless_starts_with s #"invite" = true -> string_caseless_starts_with s #"ack" = false.
Proof.
  unfold string_caseless_starts_with. rewrite !find_is_zero, !to_lower_map.
  intros [rest ->]%is_prefix_spec. reflexivity.
Qed.

Lemma routed_create m x ty : routed m x = Some (ty, true) ->
  x = TTrue /\ server ty /\ string_caseless_starts_with (m_startLine m) #"ACK" = false.
Proof.
  unfold routed, server. rewrite ack_key. destruct x; [| |done].
  - destruct (string_caseless_starts_with (m_startLine m) #"invite") eqn:Ei; [|destruct (string_caseless_starts_with (m_startLine m) #"ack") eqn:Ea].
    + intros [= <-]. auto using invite_not_ack.
    + done.
    + intros [= <-]. auto.
  - by destruct (string_caseless_ends_with _ _).
Qed.

Lemma transaction_id_nonempty m id : getTransactionId m None = Ret (Some id) -> id <> [].
Proof.
  unfold getTransactionId. destruct (_ || _ || _); [done|].
  destruct (filled (SIPCSeq.getMethod _)) as [method| |]; simpl; try done.
  destruct (filled (SIPCSeq.getNumber _)) as [number| |]; simpl; try done.
  destruct ((_ =? _)%nat || _) eqn:E; [done|]. apply orb_false_iff in E as [_ E]. bools.
  destruct (filled (SIPVia.getBranch _)) as [branch| |]; simpl; try done. intros [= <-].
  intros H%app_nil. destruct H as [_ H%app_nil]. destruct H as [H _]. by rewrite H in E.
Qed.

Lemma good_open failing ty id d : good failing d -> lookup_group d ty id = None ->
  good_but failing ty id (with_transactions d ty <[id := new_group d ty id]>) /\
  lookup_group (with_transactions d ty <[id := new_group d ty id]>) ty id = Some (new_group d ty id) /\
  group_ok ty id (new_group d ty id).
Proof.
  intros [G T] E. split_and!.
  - split; [|by destruct (with_same d ty <[id := new_group d ty id]>) as (-> & _)].
    intros ty' id' g Hn. rewrite lookup_with. destruct (decide (ty = ty')) as [<-|]; [|apply G].
    rewrite lookup_insert_ne by congruence. apply G.
  - rewrite lookup_with, decide_True by done. apply lookup_insert_eq.
  - split; [done|]. intros [|tag] t; simpl; [by intros [= <-]|]. by rewrite lookup_empty.
Qed.

Lemma life_deliver ack p tp : Keeps (Inv life) (deliver handler ack p tp).
Proof.
  pose proof (k_onReceivedMessage (Inv life) (m_fsm_onReceivedMessage (Inv life))). unfold deliver, ack_for_2xx. keep.
Qed.

Lemma keeps_then {A} I (c : M A) w r w' : Keeps (Inv I) c -> c w = (r, w') -> r <> UB -> I w -> I w'.
Proof. intros Hc E Hr. exact (keeps_run _ _ _ _ _ Hc E Hr). Qed.

Lemma good_receive failing p tp d r d' :
  good failing d -> d_onReceivedMessage handler p tp d = (r, d') -> r <> UB -> good failing d'.
Proof.
  intros Hg E Hr. destruct (receive_inv _ _ _ _ _ _ E Hr) as [Q|m x m1 id ty create d1 Em Ei Ex Ert Eb Ho Er].
  { by eapply good_quiet. }
  pose proof (good_quiet _ _ _ Hg (quiet_message d p m1)) as Hg1. destruct Ho as [g Eg|Eg ->].
  - eapply good_run; [exact Hg1|exact Eg|apply kept_deliver| |exact Er|done].
    intros w Ew Hw. by apply (keeps_then _ _ _ _ _ (life_deliver _ _ _) Ew).
  - destruct (routed_create _ _ _ Ert) as (-> & Hs & Ha). destruct (is_request_kind _ _ _ Ex) as [(a & b & E1) Ex1].
    destruct (good_open _ _ _ _ Hg1 Eg) as (Hb & Hl & Hok).
    destruct (run_in_ran _ _ _ _ _ _ _ (kept_deliver _ _ _ _) Hl Hok Er Hr) as [w R].
    assert (is_ack ty (parseMessage m) = false) as Eack by (unfold is_ack; rewrite Ha; apply andb_false_r).
    rewrite Eack in R. pose proof (ran_run _ _ _ _ _ _ _ _ R) as Ew.
    match type of Ew with deliver _ _ _ _ ?u = _ => destruct (deliver_first ty id p tp m1 u) as (w1 & F1 & E2) end.
    + split; try done. simpl. destruct (with_same (with_message d p m1) ty <[id := new_group (with_message d p m1) ty id]>) as (_ & _ & -> & _).
      apply lookup_insert_eq.
    + done.
    + done.
    + done.
    + by rewrite E1.
    + rewrite E2 in Ew. apply transaction_id_nonempty in Ei.
      destruct (machine_first _ _ _ _ _ _ _ _ F1 Hs Ei Ex1 Ew Hr) as [H1 H2].
      eapply good_ran; [exact Hb|exact Hok|exact R|done|]. intros Ht. by split; [apply H2|].
Qed.

(** ** Sending *)

(** A client transaction that has not sent anything. *)
Definition unsent (w : World) : Prop :=
  t_state (w_parent w) = TRN_STATE_IDLE /\ client_type (f_type (t_fsm (w_parent w))).

#[local] Instance unsent_frame : Frame (Inv unsent).
Proof.
  assert (forall self f, (forall t, t_state (f t) = t_state t /\ f_type (t_fsm (f t)) = f_type (t_fsm t)) ->
    Keeps (Inv unsent) (modify self f)) as Hm.
  { intros self f Hf w. unfold modify. destruct (lookup_trn w self) as [t|] eqn:E; [|done].
    destruct self; simpl in *; [|exact (fun H => H)]. simplify_eq. destruct (Hf (w_parent w)) as [E1 E2].
    intros [H1 H2]. split; simpl; congruence. }
  split; [apply _|..].
  - intros e _ w. exact (fun H => H).
  - intros p m w. exact (fun H => H).
  - intros m w. exact (fun H => H).
  - intros self f Hf. apply Hm. intros t. by destruct (Hf t) as (? & _ & _ & ? & _).
  - intros self tm _. by apply Hm.
Qed.

Lemma terminate_life w r w' : terminate Parent w = (r, w') -> life w'.
Proof.
  intros E. left. destruct (t_hasTerminated (w_parent w)) eqn:Eh.
  - rewrite (terminate_again w Parent _ eq_refl Eh) in E. by injection E as <- <-.
  - destruct (terminate_parent_run w Eh) as (w1 & E1 & _ & _ & H). rewrite E1 in E. injection E as <- <-.
    by apply (H Parent).
Qed.

Lemma then_terminate_life {A} (c : M A) w w' : (c ≫= fun _ => terminate Parent) w = (Ret tt, w') -> life w'.
Proof.
  intros E. apply bind_inv in E as [(a & w1 & _ & E)|(e & _ & ?)]; [by eapply terminate_life|done|done].
Qed.

(** The first message is written: the lifetime timer is started before. *)
Lemma write_first p a w w' : unsent w -> writeMessage Parent p a w = (Ret tt, w') -> life w'.
Proof.
  intros Hu E. unfold writeMessage in E. rewrite (bind_run _ _ _ _ _ (eq_refl : trn Parent w = _)) in E.
  destruct (t_transport (w_parent w)) as [tp|]; [|by eapply terminate_life].
  rewrite (bind_run _ _ _ _ _ (eq_refl : get w = _)) in E.
  apply bind_inv in E as [([] & w1 & E1 & E)|(e & _ & ?)]; [|done|done].
  assert (unsent w1) as [Hs Hc].
  { eapply keeps_then; [|exact E1|done|exact Hu]. keep. }
  eapply life_bind; [| |exact E|done].
  - intros r1 w2 E2 Hr. by eapply client_starts.
  - intros b. cbv beta. keep.
Qed.

Lemma ensure_unsent p a b w w' : unsent w -> t_transportService (w_parent w) = true ->
  ensure_transport Parent p a b w = (Ret tt, w') -> unsent w'.
Proof.
  intros Hu Hs E. unfold ensure_transport in E. rewrite (bind_run _ _ _ _ _ (eq_refl : trn Parent w = _)), Hs in E.
  destruct (t_transport (w_parent w)); [by injection E as <-|].
  eapply keeps_then; [|exact E|done|exact Hu]. unfold connect. keep.
Qed.

Lemma send_first p a b c t w w' : unsent w -> t_transportService (w_parent w) = true ->
  sendRequest Parent p a b c t w = (Ret tt, w') -> life w'.
Proof.
  intros Hu Hs E. unfold sendRequest in E.
  apply bind_inv in E as [(x & w1 & E1 & E)|(e & _ & ?)]; [|done|done].
  assert (unsent w1 /\ t_transportService (w_parent w1) = true) as [Hu1 Hs1].
  { split; [eapply keeps_then; [|exact E1|done|exact Hu]; keep|]. revert E1.
    unfold msg_isRequest, classify, mbind, M_bind, load, lift, store. destruct (w_msgs w !! p); [|done].
    destruct (isRequest _ None) as [[]| |]; [|done|done]. by intros [= _ <-]. }
  destruct (tb_true (tb_not x)).
  { apply bind_inv in E as [(? & ? & _ & ?)|(e & _ & ?)]; done. }
  rewrite (bind_run _ _ _ _ _ (modify_run w1 Parent _ _ eq_refl)) in E.
  apply bind_inv in E as [([] & w2 & E2 & E)|(e & _ & ?)]; [|done|done].
  assert (unsent w2) as Hu2 by (by eapply ensure_unsent in E2).
  rewrite (bind_run _ _ _ _ _ (eq_refl : trn Parent w2 = _)) in E.
  destruct (t_transport (w_parent w2)) as [tp|]; [|by eapply then_terminate_life].
  destruct (tp_reliable tp); [|by eapply write_first].
  apply bind_inv in E as [(m & w3 & E3 & E)|(e & _ & ?)]; [|done|done].
  rewrite (bind_run (store _ _) _ w3 tt _ eq_refl) in E. eapply write_first; [|exact E].
  revert E3. unfold load. destruct (_ !! p); [|done]. by intros [= _ <-].
Qed.

Lemma submit_first p a b c t w w' : unsent w -> t_transportService (w_parent w) = false ->
  submit p a b c t w = (Ret tt, w') -> life w'.
Proof.
  intros Hu Hs E. unfold submit in E. rewrite (bind_run _ _ _ _ _ (eq_refl : trn Parent w = _)), Hs in E.
  cbn [negb when] in E. rewrite (bind_run _ _ _ _ _ (modify_run w Parent _ _ eq_refl)) in E. by eapply send_first in E.
Qed.

Lemma life_submit p a b c t : Keeps (Inv life) (submit p a b c t).
Proof. pose proof (m_sendRequest (Inv life) life_tu). unfold submit. keep. Qed.

(** What becomes of a request the user sends. *)
Inductive sending (p : msgref) (run : M unit) (d : SIPFSMDispatch) (r : outcome unit) (d' : SIPFSMDispatch) : Prop :=
| sending_nothing : quiet d d' -> sending p run d r d'
| sending_in ty id m1 d1 : client_type ty -> opened ty id true (with_message d p m1) d1 ->
    run_in ty id run d1 = (r, d') -> sending p run d r d'.

Lemma create_run d p m x m1 : d_msgs d !! p = Some m -> isRequest m None = Ret (x, m1) ->
  let d1 := with_message d p m1 in
  createClientTransaction p d =
    if tb_true (tb_not x) then (Throw (SIPException "Sending a response using sendRequest() method is illegal"), d1)
    else
      match getTransactionId m None with
      | Ret None => (Throw (SIPException "Unable to determine transaction identifier"), d1)
      | Throw e => (Throw e, d1)
      | UB => (UB, d1)
      | Ret (Some id) =>
          let open ty := match lookup_group d1 ty id with
                         | Some _ => (Ret (Some (ty, id)), d1)
                         | None => (Ret (Some (ty, id)), with_transactions d1 ty <[id := new_group d1 ty id]>)
                         end in
          if string_caseless_starts_with (m_startLine m) #"invite" then open InviteClient
          else if string_caseless_starts_with (m_startLine m) #"ACK" then (Ret None, d1)
          else open NonInviteClient
      end.
Proof.
  intros E Ex d1. destruct (is_request_kind _ _ _ Ex) as [(a & b & ->) Ex1].
  assert (d_msgs d1 !! p = Some (set_kind m a b)) as E1 by apply lookup_insert_eq.
  unfold createClientTransaction. rewrite (dbind_run _ _ _ _ _ (d_classify_run _ _ _ _ _ _ E Ex)). fold d1.
  destruct (tb_true (tb_not x)); [done|]. rewrite (dbind_run _ _ _ _ _ (d_load_run _ _ _ E1)).
  change (getTransactionId (set_kind m a b) None) with (getTransactionId m None).
  destruct (getTransactionId m None) as [[id|]|e|] eqn:Ei; [|done|done|done].
  rewrite (dbind_run (d_lift (Ret (Some id))) _ d1 (Some id) d1 eq_refl).
  cbn [m_startLine set_kind]. pose proof (fun ty => findTransactionOf_run ty d1 p _ id true E1 Ei) as F.
  unfold findTransaction in F. destruct (string_caseless_starts_with (m_startLine m) #"invite").
  - specialize (F InviteClient). destruct (lookup_group d1 InviteClient id); by rewrite (dbind_run _ _ _ _ _ F).
  - rewrite (dbind_run _ _ _ _ _ (ack_classify_run _ _ _ E1)). cbn [m_startLine set_kind].
    destruct (string_caseless_starts_with (m_startLine m) #"ACK"); [done|]. cbn [tb_of_bool tb_true].
    specialize (F NonInviteClient). destruct (lookup_group d1 NonInviteClient id); by rewrite (dbind_run _ _ _ _ _ F).
Qed.

Lemma send_inv p a b c t d r d' : d_sendRequest p a b c t d = (r, d') -> r <> UB ->
  sending p (submit p a b c t) d r d'.
Proof.
  intros E Hr. unfold d_sendRequest in E. destruct (d_msgs d !! p) as [m|] eqn:Em.
  2:{ unfold createClientTransaction, d_classify, mbind, D_bind, d_load in E. rewrite Em in E. by injection E as <- <-. }
  destruct (isRequest m None) as [[x m1]|e|] eqn:Ex; [|by apply is_request_no_throw in Ex|].
  2:{ unfold createClientTransaction, d_classify, mbind, D_bind, d_load, d_lift in E. rewrite Em, Ex in E. by injection E as <- <-. }
  pose proof (create_run _ _ _ _ _ Em Ex) as C. cbv zeta in C. pose proof (quiet_message d p m1) as Q.
  unfold mbind, D_bind in E. rewrite C in E. clear C.
  destruct (tb_true (tb_not x)); [injection E as <- <-; by left|].
  destruct (getTransactionId m None) as [[id|]|e|]; try (injection E as <- <-; by left).
  assert (forall ty, client_type ty -> lookup_group (with_message d p m1) ty id = None ->
    opened ty id true (with_message d p m1) (with_transactions (with_message d p m1) ty <[id := new_group (with_message d p m1) ty id]>))
    as Ho by (intros; by apply opened_new).
  destruct (string_caseless_starts_with _ #"invite").
  - destruct (lookup_group _ InviteClient id) eqn:Eg.
    + by eapply sending_in; [left|eapply opened_found|exact E].
    + by eapply sending_in; [left|apply Ho; [left|]|exact E].
  - destruct (string_caseless_starts_with _ #"ACK"); [injection E as <- <-; by left|].
    destruct (lookup_group _ NonInviteClient id) eqn:Eg.
    + by eapply sending_in; [right|eapply opened_found|exact E].
    + by eapply sending_in; [right|apply Ho; [right|]|exact E].
Qed.

Lemma good_send failing p a b c t d r d' : good failing d -> d_sendRequest p a b c t d = (r, d') -> r <> UB ->
  r = Ret tt \/ failing = true -> good failing d'.
Proof.
  intros Hg E Hr Hf. destruct (send_inv _ _ _ _ _ _ _ _ E Hr) as [Q|ty id m1 d1 Hc Ho Er]; [by eapply good_quiet|].
  pose proof (good_quiet _ _ _ Hg (quiet_message d p m1)) as Hg1.
  destruct Ho as [g Eg|Eg _].
  - eapply good_run; [exact Hg1|exact Eg|apply kept_submit| |exact Er|done].
    intros w Ew Hw. by apply (keeps_then _ _ _ _ _ (life_submit _ _ _ _ _) Ew).
  - destruct (good_open _ _ _ _ Hg1 Eg) as (Hb & Hlk & Hok).
    destruct (run_in_ran _ _ _ _ _ _ _ (kept_submit _ _ _ _ _) Hlk Hok Er Hr) as [w R].
    pose proof (ran_run _ _ _ _ _ _ _ _ R) as Ew.
    eapply good_ran; [exact Hb|exact Hok|exact R| |by destruct Hc as [-> | ->]].
    intros [->|Hs]; [|by destruct Hc as [-> | ->], Hs]. destruct Hf as [->|]; [|done].
    eapply submit_first; [| |exact Ew]; [by split|done].
Qed.

(** ** Timers, the user and the end *)

Lemma good_message failing p m d : good failing d -> good failing (with_message d p m).
Proof. intros Hg. eapply good_quiet; [exact Hg|apply quiet_message]. Qed.

Lemma good_cancels failing es d r d' : good failing d -> send_cancels es d = (r, d') -> r <> UB ->
  r = Ret tt \/ failing = true -> good failing d'.
Proof.
  intros Hg E Hr Hf. revert d Hg E. induction es as [|e es IH]; intros d Hg E; simpl in E; [by injection E as <- <-|].
  destruct e; try (by eapply IH in E).
  unfold mbind, D_bind, d_alloc in E.
  match type of E with context [d_sendRequest ?p _ _ _ _ ?u] => assert (good failing u) as Hg1 by
    (change u with (with_message d p m); by apply good_message) end.
  destruct (d_sendRequest _ _ _ _ _ _) as [[[]|e|] d1] eqn:Es.
  - eapply IH; [|exact E]. eapply good_send; [exact Hg1|exact Es|done|by left].
  - injection E as <- <-. by eapply good_send in Es.
  - by injection E as <- <-.
Qed.

Lemma good_expired failing ty id g self t tm ms d r d' :
  good failing d -> lookup_group d ty id = Some g -> group_trn g self = Some t -> f_timers (t_fsm t) !! tm = Some ms ->
  run_in ty id (expire self tm) d = (r, d') -> r <> UB -> good failing d'.
Proof.
  intros Hg Eg Et Em E Hr. eapply good_run; [exact Hg|exact Eg|apply kept_expire| |exact E|exact Hr].
  intros w Ew Hw. apply run_life. eapply expire_runs; [|exact Em|exact Ew|exact Hw]. by destruct self.
Qed.

Lemma good_expire failing ty id g self t tm ms d r d' :
  good failing d -> lookup_group d ty id = Some g -> group_trn g self = Some t -> f_timers (t_fsm t) !! tm = Some ms ->
  d_expire ty id self tm d = (r, d') -> r <> UB -> r = Ret tt \/ failing = true -> good failing d'.
Proof.
  intros Hg Eg Et Em E Hr Hf. unfold d_expire in E.
  rewrite (dbind_run d_get _ d d d eq_refl) in E. unfold mbind, D_bind in E.
  pose proof (fun r1 d1 => good_expired failing ty id g self t tm ms d r1 d1 Hg Eg Et Em) as Hrun.
  destruct (run_in _ _ _ _) as [[[]|e|] d1] eqn:E1.
  - eapply good_cancels; [by eapply Hrun|exact E|exact Hr|exact Hf].
  - injection E as <- <-. by eapply Hrun.
  - by injection E as <- <-.
Qed.

Lemma stop_each_run ty gs d : exists d', stop_each ty gs d = (Ret tt, d') /\ quiet d d'.
Proof.
  revert d. induction gs as [|g gs IH]; intros d; simpl; [by exists d|].
  assert (exists w, stop_group (group_world d ty g) = (Ret tt, w)) as [w E].
  { unfold stop_group. rewrite (bind_run _ _ _ _ _ (setState_term_run _ Parent _ eq_refl)). eexists.
    apply cancel_each_run, lookup_put_eq. }
  rewrite E. destruct (IH (d <| d_msgs := w_msgs w |> <| d_trace := w_trace w |>)) as (d' & E' & Q).
  exists d'. split; [done|]. etransitivity; [|exact Q]. split; [by intros []|done|done].
Qed.

Lemma stop_pool_run ty d : exists d', stop_pool ty d = (Ret tt, d') /\ (d_istBlocker d' = d_istBlocker d /\ d_now d' = d_now d) /\
  forall ty' id, lookup_group d' ty' id = if decide (ty = ty') then None else lookup_group d ty' id.
Proof.
  unfold stop_pool. rewrite (dbind_run d_get _ d d d eq_refl).
  destruct (stop_each_run ty (map snd (map_to_list (p_transactions (pool d ty)))) d) as (d1 & E1 & Q).
  rewrite (dbind_run _ _ _ _ _ E1). eexists. split; [reflexivity|].
  destruct (with_same d1 ty (fun _ => ∅)) as (-> & -> & _). split; [by destruct Q|].
  intros ty' id. rewrite lookup_with. destruct (decide (ty = ty')); [apply lookup_empty|by apply quiet_lookup].
Qed.

(** [stop()] returns and empties the pools. *)
Lemma stop_run d : exists d', d_stop d = (Ret tt, d') /\ (d_istBlocker d' = d_istBlocker d /\ d_now d' = d_now d) /\
  forall ty id, lookup_group d' ty id = None.
Proof.
  unfold d_stop. destruct (stop_pool_run InviteClient d) as (d1 & E1 & [B1 N1] & L1). rewrite (dbind_run _ _ _ _ _ E1).
  destruct (stop_pool_run NonInviteClient d1) as (d2 & E2 & [B2 N2] & L2). rewrite (dbind_run _ _ _ _ _ E2).
  destruct (stop_pool_run InviteServer d2) as (d3 & E3 & [B3 N3] & L3). rewrite (dbind_run _ _ _ _ _ E3).
  destruct (stop_pool_run NonInviteServer d3) as (d4 & E4 & [B4 N4] & L4). exists d4.
  split; [done|]. split; [split; congruence|]. intros ty id. rewrite L4, L3, L2, L1. by destruct ty.
Qed.

Lemma good_step failing d d' : good failing d -> dstep failing d d' -> good failing d'.
Proof.
  intros Hg [p tp r d1 E Hr|p a b c t r d1 E Hr Hf|ty id g self t tm ms r d1 Eg Et Em E Hr Hf|ty id c r d1 Hc E Hr|r d1 E _|msgs|now _].
  - by eapply good_receive.
  - by eapply good_send.
  - by eapply good_expire.
  - destruct (lookup_group d ty id) as [g|] eqn:Eg.
    + eapply good_run; [exact Hg|exact Eg|by apply m_user_call, Hc; apply _| |exact E|exact Hr].
      intros w Ew Hw. eapply keeps_then; [|exact Ew|exact Hw]. by apply m_user_call; [apply _|].
    + unfold run_in in E. rewrite Eg in E. by injection E as <- <-.
  - destruct (stop_run d) as (d2 & E2 & [B2 N2] & L2). rewrite E in E2. simplify_eq.
    split; [|by rewrite B2; apply Hg]. intros ty id g. by rewrite L2.
  - eapply good_quiet; [exact Hg|]. split; [by intros []|done|done].
  - destruct Hg as [G T]. split; [|done]. intros ty id g H. apply G. by destruct ty.
Qed.

Lemma good_steps failing d d' : good failing d -> rtc (dstep failing) d d' -> good failing d'.
Proof. intros Hg. induction 1; eauto using good_step. Qed.

End steps.
