(* ===== verification/DispatchTheorems.v ===== *)
(** * What the dispatcher guarantees

    The theorems about the pools, the routing of messages and the end of
    transactions, with concrete runs that they apply to. *)

From S2P Require Import Prelude Abnf AbnfFacts SipGrammar SipGrammarFacts CoreStrings SipParser SipHeaders SipMessage SipMessageFacts SipRoundtrip.
From S2P Require Import SipResponse TransactionTimers Transaction ClientFsm ServerFsm FsmLogic FsmFacts.
From S2P Require Import Dispatch DispatchFacts DispatchSteps.
From stdpp Require Import sorting.
Open Scope Z_scope.

(** ** The end of a transaction asks for nothing more *)

Definition is_send (e : event) : bool := match e with EvDispatchSend _ _ _ => true | _ => false end.

(** The calls made are no requests to send. *)
Definition sendless (w w' : World) : Prop := exists es, w_trace w' = es ++ w_trace w /\ forallb (fun e => negb (is_send e)) es = true.

#[local] Instance sendless_preorder : PreOrder sendless.
Proof.
  split; [by intros w; exists []|]. intros w1 w2 w3 (es1 & E1 & H1) (es2 & E2 & H2).
  exists (es2 ++ es1). rewrite E2, E1, app_assoc, forallb_app, H1, H2. done.
Qed.

Lemma sendless_same w w' : w_trace w' = w_trace w -> sendless w w'.
Proof. intros E. by exists []. Qed.

Lemma sendless_emit e : is_send e = false -> Keeps sendless (emit e).
Proof. intros He w. exists [e]. simpl. by rewrite He. Qed.

Lemma sendless_terminate self : Keeps sendless (terminate self).
Proof.
  assert (forall s, Keeps sendless (terminate_self s)) as Hs.
  { intros s w. destruct (lookup_trn w s) as [t|] eqn:E.
    - rewrite (terminate_self_run _ _ _ E). destruct (t_hasTerminated t); [reflexivity|].
      transitivity (note_blocked w t); [|apply sendless_same; by destruct (put_trn_same (note_blocked w t) s (terminated_trn t))].
      unfold note_blocked. destruct (blocked_id t); [by eexists [_]|reflexivity].
    - unfold terminate_self, mbind, M_bind, trn. by rewrite E. }
  assert (forall tags, Keeps sendless (terminate_each tags)) as He by (induction tags; simpl; keep).
  assert (Keeps sendless leave_pool) as Hl by (intros w; by apply sendless_same).
  pose proof (sendless_emit EvTerminateCallback eq_refl). pose proof (fun id => sendless_emit (EvRemoveTransaction id) eq_refl).
  unfold terminate. keep.
Qed.

Lemma sendless_cancel self tm : Keeps sendless (cancel_timer self tm).
Proof.
  intros w. unfold cancel_timer, modify_fsm, modify. destruct (lookup_trn w self) as [t|]; [|done].
  apply sendless_same. match goal with |- context [put_trn w self ?u] => by destruct (put_trn_same w self u) end.
Qed.

Section theorems.
Context {boost : BoostString} {lexical : BoostLexical} {env : Env} {expire_cache : ExpireCache} (handler : bool).

Lemma sendless_lifetime self : Keeps sendless (expire self TimerMaxLifetime).
Proof.
  pose proof sendless_terminate. pose proof (sendless_cancel self TimerMaxLifetime).
  unfold expire, handleTimer, handleDelayedTerminate, fsm, getParent, getActiveBranchCount. keep.
Qed.

Lemma cancels_none es d : forallb (fun e => negb (is_send e)) es = true -> send_cancels es d = (Ret tt, d).
Proof. induction es as [|e es IH]; [done|]. simpl. intros [He Hes]%andb_prop. destruct e; try by apply IH. done. Qed.

(** A lifetime timer that expires removes its transaction. *)
Lemma expire_lifetime d ty id g : lookup_group d ty id = Some g -> group_ok ty id g ->
  exists d', d_expire ty id Parent TimerMaxLifetime d = (Ret tt, d') /\ lookup_group d' ty id = None.
Proof.
  intros Eg Hok. destruct (expire_lifetime_run (group_world d ty g)) as (w1 & w & _ & E & _ & Hh & _).
  destruct (run_in ty id (expire Parent TimerMaxLifetime) d) as [r d1] eqn:Er.
  assert (r = Ret tt) as ->.
  { unfold run_in in Er. rewrite Eg, E in Er. destruct (perform_all _ _ _). congruence. }
  destruct (run_in_ran _ _ _ _ _ _ _ (kept_expire _ _) Eg Hok Er ltac:(done)) as [w2 [Ew _ _ _ T _ S _]].
  rewrite E in Ew. injection Ew as <-. rewrite Hh in S.
  pose proof (sendless_lifetime Parent (group_world d ty g)) as H. rewrite E in H. destruct H as (es & Ees & Hes).
  exists d1. split; [|done]. unfold d_expire. rewrite (dbind_run d_get _ d d d eq_refl), (dbind_run _ _ _ _ _ Er).
  rewrite (dbind_run d_get _ d1 d1 d1 eq_refl). apply cancels_none. rewrite T, Ees. simpl. rewrite new_events_app.
  rewrite forallb_forall in Hes |- *. intros e He. apply Hes. by apply list_elem_of_In, elem_of_reverse, list_elem_of_In.
Qed.

(** C4: what a pool holds.  In every run of the dispatcher, a transaction set
    that a pool holds under an identifier is alive, and its parent and every
    branch have that identifier and a machine of the pool's kind. *)
Theorem pools_sound failing now d ty id g :
  rtc (dstep handler failing) (newDispatch now) d -> lookup_group d ty id = Some g ->
  t_hasTerminated (g_parent g) = false /\
  forall self t, group_trn g self = Some t -> t_id t = id /\ f_type (t_fsm t) = ty.
Proof. intros Hs Hg. exact (good_ok _ _ _ _ (good_groups _ _ (good_steps _ _ _ _ (good_new failing now) Hs) _ _ _ Hg)). Qed.


(** ** One message, one transaction *)

Lemma opened_lookup ty id create d d1 : opened ty id create d d1 ->
  framed d d1 /\ (exists g, lookup_group d1 ty id = Some g) /\
  (forall ty' id', (ty', id') <> (ty, id) -> lookup_group d1 ty' id' = lookup_group d ty' id') /\
  (lookup_group d ty id = None -> create = true).
Proof.
  intros [g Eg|Eg ->].
  - split_and!; [done|by exists g|done|by rewrite Eg].
  - split_and!; [apply framed_with| | |done].
    + eexists. rewrite lookup_with, decide_True by done. apply lookup_insert_eq.
    + intros ty' id' Hn. rewrite lookup_with. destruct (decide (ty = ty')) as [<-|]; [|done].
      apply lookup_insert_ne. congruence.
Qed.

Lemma opened_ok failing ty id create d d1 g : good failing d -> opened ty id create d d1 ->
  lookup_group d1 ty id = Some g -> group_ok ty id g.
Proof.
  intros Hg [g' Eg|Eg ->] E; [by eapply good_ok, (good_groups _ _ Hg)|].
  destruct (good_open _ _ _ _ Hg Eg) as (_ & E1 & Hok). rewrite E1 in E. by injection E as <-.
Qed.

(** C28: a message changes at most one transaction, the one it belongs to.
    Whatever the transport reads, all transactions but one stay as they are in
    all four pools; if that one changes, the message has its identifier and is
    routed to its pool, and if it did not exist before, the message is a request
    other than ACK: responses and ACKs never create a transaction. *)
Theorem receive_isolated failing now d p tp r d' :
  rtc (dstep handler failing) (newDispatch now) d ->
  d_onReceivedMessage handler p tp d = (r, d') -> r <> UB ->
  exists ty id,
    (forall ty' id', (ty', id') <> (ty, id) -> lookup_group d' ty' id' = lookup_group d ty' id') /\
    (lookup_group d' ty id <> lookup_group d ty id ->
     exists m x m1 create, d_msgs d !! p = Some m /\ getTransactionId (parseMessage m) None = Ret (Some id) /\
       isRequest (parseMessage m) None = Ret (x, m1) /\ routed (parseMessage m) x = Some (ty, create) /\
       (lookup_group d ty id = None ->
          x = TTrue /\ string_caseless_starts_with (m_startLine (parseMessage m)) #"ACK" = false)).
Proof.
  intros Hs E Hr. pose proof (good_steps _ _ _ _ (good_new failing now) Hs) as Hg.
  destruct (receive_inv _ _ _ _ _ _ E Hr) as [Q|m x m1 id ty create d1 Em Ei Ex Ert Eb Ho Er].
  { exists InviteClient, []. split; [intros; by apply quiet_lookup|]. by rewrite (quiet_lookup _ _ _ _ Q). }
  pose proof (good_message _ p m1 _ Hg) as Hg1. pose proof (quiet_message d p m1) as Q.
  destruct (opened_lookup _ _ _ _ _ Ho) as (_ & (g & Eg) & Lo & Hc).
  destruct (run_in_ran _ _ _ _ _ _ _ (kept_deliver _ _ _ _) Eg (opened_ok _ _ _ _ _ _ _ Hg1 Ho Eg) Er Hr) as [w R].
  exists ty, id. split.
  - intros ty' id' Hn. rewrite (ran_others _ _ _ _ _ _ _ _ R) by done. rewrite Lo by done. by apply quiet_lookup.
  - intros _. exists m, x, m1, create. split_and!; [done|done|done|done|].
    rewrite <- (quiet_lookup _ _ ty id Q). intros H. rewrite (Hc H) in Ert.
    by destruct (routed_create _ _ _ Ert) as (-> & _ & ?).
Qed.

(** ** An INVITE that comes too late *)

(** Sending leaves the server pools alone. *)
Lemma send_framed failing p a b c t d r d' : good failing d -> d_sendRequest p a b c t d = (r, d') -> r <> UB ->
  framed d d' /\ forall ty id, server ty -> lookup_group d' ty id = lookup_group d ty id.
Proof.
  intros Hg E Hr. destruct (send_inv _ _ _ _ _ _ _ _ E Hr) as [Q|ty id m1 d1 Hc Ho Er].
  { split; [by apply quiet_framed|]. intros. by apply quiet_lookup. }
  pose proof (good_message _ p m1 _ Hg) as Hg1. pose proof (quiet_message d p m1) as Q.
  destruct (opened_lookup _ _ _ _ _ Ho) as (Fo & (g & Eg) & Lo & _).
  destruct (run_in_ran _ _ _ _ _ _ _ (kept_submit _ _ _ _ _) Eg (opened_ok _ _ _ _ _ _ _ Hg1 Ho Eg) Er Hr) as [w R].
  split.
  - transitivity (with_message d p m1); [by apply quiet_framed|]. transitivity d1; [done|]. apply R.
  - intros ty' id' Hs. assert ((ty', id') <> (ty, id)) as Hn by (intros [= -> _]; destruct Hs as [-> | ->]; by destruct Hc).
    rewrite (ran_others _ _ _ _ _ _ _ _ R), Lo by done. by apply quiet_lookup.
Qed.

Lemma cancels_framed failing es d r d' : good failing d -> send_cancels es d = (r, d') -> r <> UB ->
  r = Ret tt \/ failing = true -> framed d d' /\ forall ty id, server ty -> lookup_group d' ty id = lookup_group d ty id.
Proof.
  intros Hg E Hr Hf. revert d Hg E. induction es as [|e es IH]; intros d Hg E; simpl in E; [by injection E as <- <-|].
  destruct e; try (by eapply IH in E).
  unfold mbind, D_bind, d_alloc in E.
  match type of E with context [d_sendRequest ?p _ _ _ _ ?u] => change u with (with_message d p m) in E;
    pose proof (good_message _ p m _ Hg) as Hg1; pose proof (quiet_message d p m) as Q end.
  destruct (d_sendRequest _ _ _ _ _ _) as [r1 d1] eqn:Es.
  assert (r1 <> UB -> framed d d1 /\ forall ty id, server ty -> lookup_group d1 ty id = lookup_group d ty id) as H1.
  { intros Hr1. destruct (send_framed _ _ _ _ _ _ _ _ _ Hg1 Es Hr1) as [F L].
    split; [etransitivity; [by apply quiet_framed|exact F]|]. intros. rewrite L by done. by apply quiet_lookup. }
  destruct r1 as [[]|e|]; [|injection E as <- <-; by apply H1|by injection E as <- <-].
  destruct (H1 ltac:(done)) as [F1 L1]. destruct (IH d1) as [F2 L2]; [|done|].
  - eapply good_send; [exact Hg1|exact Es|done|by left].
  - split; [by transitivity d1|]. intros. by rewrite L2, L1.
Qed.

(** A step that blocks the identifier of every INVITE server transaction it ends. *)
Definition blocking (d d' : SIPFSMDispatch) : Prop :=
  framed d d' /\
  forall i g, lookup_group d InviteServer i = Some g -> lookup_group d' InviteServer i = None -> blocks d' (block_end d) i.

Lemma same_blocking d d' : framed d d' ->
  (forall i, lookup_group d' InviteServer i = lookup_group d InviteServer i) -> blocking d d'.
Proof. intros F L. split; [done|]. intros i g E1 E2. rewrite L in E2. congruence. Qed.

Lemma quiet_blocking d d' : quiet d d' -> blocking d d'.
Proof. intros Q. apply same_blocking; [by apply quiet_framed|]. intros i. by apply quiet_lookup. Qed.

Lemma blocking_then d d1 d' : blocking d d1 -> framed d1 d' ->
  (forall i, lookup_group d' InviteServer i = lookup_group d1 InviteServer i) -> blocking d d'.
Proof.
  intros [F1 B1] F2 L. split; [by transitivity d1|]. intros i g E1 E2. rewrite L in E2.
  apply F2; [|by eapply B1]. unfold block_end. by rewrite (framed_now _ _ F1), (framed_timeout _ _ F1).
Qed.

Lemma blocking_after d d1 d' : quiet d d1 -> blocking d1 d' -> blocking d d'.
Proof.
  intros Q [F B]. split; [etransitivity; [by apply quiet_framed|done]|]. intros i g E1 E2.
  unfold block_end. rewrite <- (quiet_now _ _ Q), <- (quiet_blocker _ _ Q). apply (B i g); [|done].
  by rewrite (quiet_lookup _ _ _ _ Q).
Qed.

Lemma run_blocking failing {A} ty id (c : M A) d r d' :
  good failing d -> Keeps kept c -> run_in ty id c d = (r, d') -> r <> UB -> blocking d d'.
Proof.
  intros Hg Hk E Hr. destruct (lookup_group d ty id) as [g0|] eqn:Eg.
  2:{ unfold run_in in E. rewrite Eg in E. by injection E as <- <-. }
  pose proof (good_groups _ _ Hg _ _ _ Eg) as [Hok _ Hno].
  destruct (run_in_ran _ _ _ _ _ _ _ Hk Eg Hok E Hr) as [w [_ _ F _ _ O S B]]. split; [done|]. intros i g E1 E2.
  destruct (decide ((InviteServer, i) = (ty, id))) as [[= <- <-]|Hn]; [|rewrite O in E2 by done; congruence].
  rewrite S in E2. destruct (t_hasTerminated (w_parent w)); [|done]. destruct (Hno eq_refl) as [En Hi].
  rewrite <- En. apply B; [done|done|]. by rewrite En.
Qed.

Lemma receive_blocking failing p tp d r d' :
  good failing d -> d_onReceivedMessage handler p tp d = (r, d') -> r <> UB -> blocking d d'.
Proof.
  intros Hg E Hr. destruct (receive_inv _ _ _ _ _ _ E Hr) as [Q|m x m1 id ty create d1 Em Ei Ex Ert Eb Ho Er].
  { by apply quiet_blocking. }
  pose proof (good_message _ p m1 _ Hg) as Hg1. apply (blocking_after _ _ _ (quiet_message d p m1)).
  destruct (opened_lookup _ _ _ _ _ Ho) as (Fo & (g & Eg) & Lo & _).
  pose proof (opened_ok _ _ _ _ _ _ _ Hg1 Ho Eg) as Hok. destruct Ho as [g2 Eg2|Eg2 _].
  { by eapply run_blocking; [exact Hg1|apply (kept_deliver handler)|exact Er|]. }
  destruct (run_in_ran _ _ _ _ _ _ _ (kept_deliver _ _ _ _) Eg Hok Er Hr) as [w R].
  split; [transitivity (with_transactions (with_message d p m1) ty <[id := new_group (with_message d p m1) ty id]>); [done|apply R]|].
  intros i g1 E1 E2. assert ((InviteServer, i) <> (ty, id)) as Hn by congruence.
  rewrite (ran_others _ _ _ _ _ _ _ _ R), Lo in E2 by done. congruence.
Qed.

Lemma expire_blocking failing ty id g self t tm ms d r d' :
  good failing d -> lookup_group d ty id = Some g -> group_trn g self = Some t -> f_timers (t_fsm t) !! tm = Some ms ->
  d_expire ty id self tm d = (r, d') -> r <> UB -> r = Ret tt \/ failing = true -> blocking d d'.
Proof.
  intros Hg Eg Et Em E Hr Hf. unfold d_expire in E.
  rewrite (dbind_run d_get _ d d d eq_refl) in E. unfold mbind, D_bind in E.
  destruct (run_in ty id (expire self tm) d) as [r1 d1] eqn:E1.
  assert (r1 <> UB) as Hr1 by (intros ->; by injection E as <- <-).
  pose proof (run_blocking failing _ _ _ _ _ _ Hg (kept_expire self tm) E1 Hr1) as HB.
  destruct r1 as [[]|e|]; [|by injection E as <- <-|done].
  destruct (cancels_framed failing _ _ _ _ (good_expired _ _ _ _ _ _ _ _ _ _ _ Hg Eg Et Em E1 Hr1) E Hr Hf) as [F L].
  eapply blocking_then; [exact HB|done|]. intros i. apply L. by left.
Qed.

(** What a step does to the blocking of INVITEs. *)
Lemma step_blocks failing d d' i :
  good failing d -> dstep handler failing d d' ->
  d_now d <= d_now d' /\
  (forall until, until <= block_end d -> blocks d until i -> until <= block_end d' /\ blocks d' until i) /\
  (forall g, lookup_group d InviteServer i = Some g -> lookup_group d' InviteServer i = None ->
     (forall r, d_stop d <> (r, d')) -> blocks d' (block_end d) i).
Proof.
  intros Hg Hs. assert (blocking d d' -> d_now d <= d_now d' /\ (forall until, until <= block_end d -> blocks d until i ->
      until <= block_end d' /\ blocks d' until i) /\
    (forall g, lookup_group d InviteServer i = Some g -> lookup_group d' InviteServer i = None ->
       (forall r, d_stop d <> (r, d')) -> blocks d' (block_end d) i)) as HB.
  { intros [F B]. split; [by rewrite (framed_now _ _ F)|]. split; [|by eauto]. intros u Hu Hb. split; [|by apply F]. unfold block_end in *.
    by rewrite (framed_now _ _ F), (framed_timeout _ _ F). }
  destruct Hs as [p tp r d1 E Hr|p a b c t r d1 E Hr Hf|ty id g0 self t tm ms r d1 Eg Et Em E Hr Hf|ty id c r d1 Hc E Hr|r d1 E _|msgs|now Hn].
  - by eapply HB, receive_blocking.
  - apply HB. destruct (send_framed _ _ _ _ _ _ _ _ _ Hg E Hr) as [F L]. apply same_blocking; [done|].
    intros j. apply L. by left.
  - by eapply HB, expire_blocking.
  - by eapply HB, run_blocking; [|apply (m_user_call kept c Hc)|..].
  - destruct (stop_run d) as (d2 & E2 & [B2 N2] & _). rewrite E in E2. injection E2 as -> ->.
    split; [by rewrite N2|]. split; [|intros g _ _ H; by destruct (H (Ret tt))]. intros u Hu Hb. unfold block_end, blocks in *. by rewrite B2, N2.
  - apply HB, quiet_blocking. split; [by intros []|done|done].
  - split; [done|]. split.
    + intros u Hu Hb. unfold block_end, blocks in *. simpl in *. split; [lia|]. intros t Ht. apply Hb. lia.
    + intros g E1 E2. simpl in E2. unfold lookup_group in *. simpl in *. congruence.
Qed.

Lemma steps_block failing d d' until i :
  good failing d -> rtc (dstep handler failing) d d' -> until <= block_end d -> blocks d until i -> blocks d' until i.
Proof.
  intros Hg Hs. induction Hs as [|d1 d2 d3 H _ IH]; intros Hu Hb; [done|].
  destruct (step_blocks _ _ _ i Hg H) as (_ & Hp & _). destruct (Hp until Hu Hb) as [Hu2 Hb2].
  apply IH; [by eapply good_step|done|done].
Qed.

(** C29: an INVITE that comes too late is ignored.  When an INVITE server
    transaction has left its pool, other than by [stop], then whatever happens in
    the next 60 seconds, an INVITE with its identifier is dropped: it is parsed,
    and nothing else changes; no second transaction is made for it and its
    request handler is not called again. *)
Theorem late_invite_ignored failing now d0 d1 d2 id g p tp m m1 :
  rtc (dstep handler failing) (newDispatch now) d0 -> lookup_group d0 InviteServer id = Some g ->
  dstep handler failing d0 d1 -> (forall r, d_stop d0 <> (r, d1)) -> lookup_group d1 InviteServer id = None ->
  rtc (dstep handler failing) d1 d2 -> d_now d2 < d_now d0 + 60 * 1000 ->
  too_short tp = false -> d_msgs d2 !! p = Some m -> getTransactionId (parseMessage m) None = Ret (Some id) ->
  isRequest (parseMessage m) None = Ret (TTrue, m1) ->
  string_caseless_starts_with (m_startLine (parseMessage m)) #"invite" = true ->
  d_onReceivedMessage handler p tp d2 = (Ret tt, with_message d2 p m1).
Proof.
  intros H0 Eg H1 Hns Eg1 H2 Ht Hsh Em Ei Ex Hinv.
  pose proof (good_steps _ _ _ _ (good_new failing now) H0) as G0. pose proof (good_step _ _ _ _ G0 H1) as G1.
  destruct (step_blocks _ _ _ id G0 H1) as (Hn & _ & Hb). specialize (Hb g Eg Eg1 Hns).
  assert (block_end d0 <= block_end d1) as Hle.
  { unfold block_end. rewrite !(good_timeout failing) by done. lia. }
  pose proof (steps_block _ _ _ _ _ G1 H2 Hle Hb) as Hb2.
  assert (cache_has (d_now d2) id (d_istBlocker d2) = true) as Hc.
  { apply Hb2. unfold block_end. rewrite (good_timeout failing) by done. lia. }
  rewrite (receive_unfold _ _ _ _ _ Em Hsh). cbv zeta. rewrite Ei.
  rewrite (receive_tail_run handler p tp id _ (parseMessage m) TTrue m1 (lookup_insert_eq _ _ _) Ei Ex).
  replace (with_message (with_message d2 p (parseMessage m)) p m1) with (with_message d2 p m1)
    by (unfold with_message, update; simpl; by rewrite insert_insert_eq).
  unfold dispatched, routed, refused. rewrite Hinv, bool_decide_true by done. simpl. by rewrite Hc.
Qed.

(** ** A response finds the transaction of its request *)

Lemma is_request_line m m' x m1 : m_startLine m' = m_startLine m -> isRequest m None = Ret (x, m1) ->
  exists m1', isRequest m' None = Ret (x, m1').
Proof.
  intros E. unfold isRequest. rewrite !cache_ignored, E. destruct (_ =? 0)%nat; [intros [= <- _]; by eexists|].
  destruct (requestLineVerify _) as [[]| |]; simpl; try done; [intros [= <- _]; by eexists|].
  destruct (statusLineVerify _) as [[]| |]; simpl; try done; intros [= <- _]; by eexists.
Qed.

(** The pool [createClientTransaction] chooses for a request. *)
Definition client_pool (req : SIPMessage) : TransactionType :=
  if string_caseless_starts_with (m_startLine req) #"invite" then InviteClient else NonInviteClient.


(** ** Two defects *)

(** A message with a malformed start line is read out of range.  When a
    datagram with a usable Via, Call-ID and CSeq has a start line of less than
    eight characters that is neither a request nor a status line, the dispatcher
    asks whether it is a 2xx, which reads the ninth character of the line. *)
Theorem malformed_line_out_of_range d p tp m id :
  let pm := parseMessage m in
  too_short tp = false -> d_msgs d !! p = Some m -> getTransactionId pm None = Ret (Some id) ->
  m_startLine pm <> [] -> (length (m_startLine pm) < 8)%nat ->
  ABNFEvaluate ABNFSIPRequestLine (m_startLine pm) <> Some true ->
  ABNFEvaluate ABNFSIPStatusLine (m_startLine pm) <> Some true ->
  string_caseless_starts_with (m_startLine pm) #"ACK" = false ->
  fst (d_onReceivedMessage handler p tp d) = UB.
Proof.
  intros pm Hsh Em Ei Hne Hl Hr Hs Ha.
  destruct (verify_defined ABNFSIPRequestLine (m_startLine pm) ltac:(apply _)) as (b & Eb & Hb).
  destruct (verify_defined ABNFSIPStatusLine (m_startLine pm) ltac:(apply _)) as (c & Ec & Hc).
  destruct b; [by destruct Hr; apply Hb|]. destruct c; [by destruct Hs; apply Hc|].
  assert ((length (m_startLine pm) =? 0)%nat = false) as El by (apply Nat.eqb_neq; by destruct (m_startLine pm)).
  assert (isRequest pm None = Ret (TIndet, pm)) as Ex.
  { unfold isRequest, requestLineVerify, statusLineVerify. rewrite cache_ignored, El, Eb. simpl. by rewrite Ec. }
  assert (is2xx pm 0 = UB) as E2.
  { unfold is2xx, isNxx, isResponseFamily. simpl. unfold first_digit, isResponse, requestLineVerify, statusLineVerify.
    rewrite cache_ignored, El, Ec. simpl. rewrite Eb. simpl. unfold at_index.
    destruct (8 <=? length (m_startLine pm))%nat eqn:E8; [apply Nat.leb_le in E8; lia|done]. }
  assert (d_msgs (with_message d p pm) !! p = Some pm) as Ep by apply lookup_insert_eq.
  rewrite (receive_unfold _ _ _ _ _ Em Hsh). cbv zeta. fold pm. rewrite Ei.
  rewrite (receive_tail_run handler p tp id _ pm TIndet pm Ep Ei Ex), (with_message_id _ _ _ Ep).
  unfold dispatched, routed, orphan. rewrite (dbind_run _ _ _ _ _ (ack_classify_run _ _ _ Ep)), Ha.
  rewrite bool_decide_false by done. cbn [andb]. unfold d_classify.
  rewrite dbind_assoc, (dbind_run _ _ _ _ _ (d_load_run _ _ _ Ep)), dbind_assoc.
  unfold mbind, D_bind, d_lift. by rewrite E2.
Qed.

End theorems.

(** ** A concrete dispatcher *)

(** A cache that keeps the times. *)
Definition reference_has (now : Z) (id : str) (c : Z * gmap str Z) : bool :=
  match snd c !! id with Some t => (t <=? now) && (now <? t + fst c) | None => false end.

Definition reference_add (t : Z) (id _ : str) (c : Z * gmap str Z) : Z * gmap str Z := (fst c, <[id := t]> (snd c)).

Lemma reference_empty now ms id : reference_has now id (ms, ∅) = false.
Proof. unfold reference_has. simpl. by rewrite lookup_empty. Qed.
Lemma reference_added t now id v c : t <= now -> now < t + fst c -> reference_has now id (reference_add t id v c) = true.
Proof.
  intros H1 H2. unfold reference_has. simpl. rewrite lookup_insert_eq.
  apply andb_true_intro. split; [by apply Z.leb_le|by apply Z.ltb_lt].
Qed.
Lemma reference_others t now id id' v c : id <> id' ->
  reference_has now id' (reference_add t id v c) = reference_has now id' c.
Proof. intros Hn. unfold reference_has. simpl. by rewrite lookup_insert_ne. Qed.

#[local] Instance reference_cache : ExpireCache := {|
  cache := Z * gmap str Z;
  cache_new ms := (ms, ∅);
  cache_add := reference_add;
  cache_has := reference_has;
  cache_remove id c := (fst c, delete id (snd c));
  cache_clear c := (fst c, ∅);
  cache_timeout c := fst c;
  cache_timeout_new _ := eq_refl;
  cache_timeout_add _ _ _ _ := eq_refl;
  cache_new_empty := reference_empty;
  cache_added := reference_added;
  cache_others := reference_others
|}.

(** What the transport has read, before it is parsed. *)
Definition packet (text : str) : SIPMessage := Msg text false [] [] [] ∅ 0 0 TIndet TIndet IDLE [] ∅.
Definition invite_packet : SIPMessage := packet (text_of invite_lines ++ CRLF).
Definition invite_id : str := #"invite1z9hG4bK1".

#[local] Existing Instance quiet_env.

Definition idle_dispatch : SIPFSMDispatch := (newDispatch 0) <| d_msgs := {[ 0%nat := invite_packet ]} |>.
Definition with_invite : SIPFSMDispatch :=
  Eval vm_compute in snd (d_onReceivedMessage true 0%nat udp_session idle_dispatch).
Definition after_invite : SIPFSMDispatch :=
  Eval vm_compute in snd (run_in InviteServer invite_id (terminate Parent) with_invite).

Lemma read_invite_run : d_onReceivedMessage true 0%nat udp_session idle_dispatch = (Ret tt, with_invite).
Proof. vm_cast_no_check (eq_refl (A := outcome unit * SIPFSMDispatch) (Ret tt, with_invite)). Qed.
Lemma end_invite_run : run_in InviteServer invite_id (terminate Parent) with_invite = (Ret tt, after_invite).
Proof. vm_cast_no_check (eq_refl (A := outcome unit * SIPFSMDispatch) (Ret tt, after_invite)). Qed.

Lemma invite_reached : rtc (dstep true false) (newDispatch 0) with_invite.
Proof.
  eapply rtc_l; [apply (dstep_messages _ _ _ {[ 0%nat := invite_packet ]})|].
  apply rtc_once. by eapply dstep_receive; [apply read_invite_run|].
Qed.

Definition invite_group : Group :=
  Eval vm_compute in default (new_group (newDispatch 0) InviteServer []) (lookup_group with_invite InviteServer invite_id).

Lemma invite_pooled : lookup_group with_invite InviteServer invite_id = Some invite_group.
Proof. vm_compute. reflexivity. Qed.

Lemma pools_sound_witness :
  t_hasTerminated (g_parent invite_group) = false /\
  forall self t, group_trn invite_group self = Some t -> t_id t = invite_id /\ f_type (t_fsm t) = InviteServer.
Proof. exact (pools_sound true false 0 with_invite InviteServer invite_id invite_group invite_reached invite_pooled). Defined.


Lemma idle_reached : rtc (dstep true false) (newDispatch 0) idle_dispatch.
Proof. apply rtc_once, (dstep_messages _ _ _ {[ 0%nat := invite_packet ]}). Qed.

Lemma receive_isolated_witness : exists ty id,
  (forall ty' id', (ty', id') <> (ty, id) -> lookup_group with_invite ty' id' = lookup_group idle_dispatch ty' id') /\
  (lookup_group with_invite ty id <> lookup_group idle_dispatch ty id ->
   exists m x m1 create, d_msgs idle_dispatch !! 0%nat = Some m /\ getTransactionId (parseMessage m) None = Ret (Some id) /\
     isRequest (parseMessage m) None = Ret (x, m1) /\ routed (parseMessage m) x = Some (ty, create) /\
     (lookup_group idle_dispatch ty id = None ->
        x = TTrue /\ string_caseless_starts_with (m_startLine (parseMessage m)) #"ACK" = false)).
Proof. by apply (receive_isolated true false 0 idle_dispatch 0%nat udp_session (Ret tt) with_invite idle_reached read_invite_run). Defined.

(** The transaction has ended; the INVITE is read once more. *)
Definition again : SIPFSMDispatch := after_invite <| d_msgs := {[ 1%nat := invite_packet ]} |>.

Lemma invite_ended : dstep true false with_invite after_invite.
Proof.
  exact (dstep_user true false with_invite InviteServer invite_id (terminate Parent) (Ret tt) after_invite
    (call_terminate Parent) end_invite_run ltac:(discriminate)).
Qed.

Lemma not_stopped r : d_stop with_invite <> (r, after_invite).
Proof. intros H. apply (f_equal (fun x => length (d_trace (snd x)))) in H. vm_compute in H. discriminate. Qed.

Definition parsed_invite : SIPMessage := parseMessage invite_packet.
Definition classified_invite : SIPMessage := set_kind parsed_invite TIndet TTrue.

Lemma parsed_invite_id : getTransactionId parsed_invite None = Ret (Some invite_id).
Proof. vm_cast_no_check (eq_refl (A := outcome (option str)) (Ret (Some invite_id))). Qed.
Lemma parsed_invite_kind : isRequest parsed_invite None = Ret (TTrue, classified_invite).
Proof. vm_cast_no_check (eq_refl (A := outcome (tribool * SIPMessage)) (Ret (TTrue, classified_invite))). Qed.

Lemma late_invite_ignored_witness :
  d_onReceivedMessage true 1%nat udp_session again = (Ret tt, with_message again 1%nat classified_invite).
Proof.
  apply (late_invite_ignored true false 0 with_invite after_invite again invite_id invite_group 1%nat udp_session
    invite_packet classified_invite invite_reached invite_pooled invite_ended not_stopped).
  - vm_compute. reflexivity.
  - apply rtc_once, (dstep_messages _ _ _ {[ 1%nat := invite_packet ]}).
  - vm_compute. reflexivity.
  - reflexivity.
  - reflexivity.
  - exact parsed_invite_id.
  - exact parsed_invite_kind.
  - vm_compute. reflexivity.
Defined.

(** An INVITE has been sent; the peer answers it. *)
Definition sent_dispatch : SIPFSMDispatch :=
  with_transactions (newDispatch 0) InviteClient
    <[invite_id := mkGroup (newTransaction invite_id InviteClient defaultTimers) ∅]>.
Definition ringing_answer : SIPMessage :=
  Eval vm_compute in match createResponse invite_request 180 [] #"77" [] with Ret (resp, _) => resp | _ => newMessage end.
Definition ringing_dispatch : SIPFSMDispatch :=
  sent_dispatch <| d_msgs := {[ 0%nat := packet (commitText ringing_answer) ]} |>.

Lemma ringing_wf : wf_message ringing_answer.
Proof.
  apply wf_message_check; [vm_compute; split; [discriminate|reflexivity]|..]; apply (bool_decide_unpack _);
    vm_cast_no_check I.
Qed.


Lemma malformed_line_out_of_range_witness :
  fst (d_onReceivedMessage true 0%nat udp_session
    ((newDispatch 0) <| d_msgs := {[ 0%nat := packet (#"HELLO" ++ CRLF ++ text_of (tail invite_lines) ++ CRLF) ]} |>)) = UB.
Proof.
  apply (malformed_line_out_of_range true _ 0%nat udp_session (packet (#"HELLO" ++ CRLF ++ text_of (tail invite_lines) ++ CRLF)) invite_id).
  - reflexivity.
  - reflexivity.
  - vm_compute. reflexivity.
  - vm_compute. discriminate.
  - vm_compute. lia.
  - vm_compute. discriminate.
  - vm_compute. discriminate.
  - vm_compute. reflexivity.
Defined.

(** An OPTIONS without a To header, on a machine that cannot connect. *)
Definition options_request : SIPMessage :=
  Eval vm_compute in fromPacket (text_of ["OPTIONS sip:b@h SIP/2.0"; "Via: SIP/2.0/UDP h;branch=z9hG4bK2"; "From: <sip:a@h>;tag=1";
    "Call-ID: c2"; "CSeq: 1 OPTIONS"]%string ++ CRLF) IDLE.
Definition options_dispatch : SIPFSMDispatch := (newDispatch 0) <| d_msgs := {[ 0%nat := options_request ]} |>.
Definition options_end : SIPFSMDispatch :=
  Eval vm_compute in
    snd (d_sendRequest 0%nat (tp_local udp_session) (tp_remote udp_session) true true options_dispatch).
Definition options_group : Group :=
  Eval vm_compute in
    default (new_group options_end NonInviteClient []) (lookup_group options_end NonInviteClient #"options1z9hG4bK2").

(** A failed send can leave a transaction behind.  When no transport can be
    made for a request that has no To header, the response that is to report the
    failure cannot be made either: [sendRequest] throws before it terminates the
    transaction, which stays in the pool with no timer to remove it. *)
Theorem failed_send_stays :
  exists d' g,
    d_sendRequest 0%nat (tp_local udp_session) (tp_remote udp_session) true true options_dispatch
      = (Throw (SIPParserException "Invalid To header."), d') /\
    lookup_group d' NonInviteClient #"options1z9hG4bK2" = Some g /\
    f_timers (t_fsm (g_parent g)) = ∅ /\ g_branches g = ∅ /\ t_hasTerminated (g_parent g) = false.
Proof.
  exists options_end, options_group. split; [|split; [|split_and!; reflexivity]].
  - vm_cast_no_check (eq_refl (A := outcome unit * SIPFSMDispatch)
      (Throw (SIPParserException "Invalid To header."), options_end)).
  - vm_cast_no_check (eq_refl (A := option Group) (Some options_group)).
Qed.
