(* ===== verification/CMem.v ===== *)
(** * Memory of the C code

    The outcome of a C function that works on byte buffers, and the reads and
    writes it makes.  A buffer is the list of its bytes; a pointer into it is
    an offset.  Every access outside the buffer is a [Fault], a failed
    [assert] is an [Abort], and a loop that outlasts the bound it was given is
    [Endless].  Pointers are compared as offsets. *)

From S2P Require Import Prelude.
Open Scope nat_scope.

Inductive cres (A : Type) :=
| Val (a : A)
| Abort
| Fault
| Endless.
Arguments Val {_} _.
Arguments Abort {_}.
Arguments Fault {_}.
Arguments Endless {_}.

#[export] Instance cres_ret : MRet cres := @Val.
#[export] Instance cres_bind : MBind cres := fun A B f m =>
  match m with
  | Val a => f a
  | Abort => Abort
  | Fault => Fault
  | Endless => Endless
  end.

(** [s] written over the bytes of [m] from [i] on. *)
Definition splice (m : str) (i : nat) (s : str) : str :=
  take i m ++ s ++ drop (i + length s) m.

(** [m[i]], an [unsigned char]. *)
Definition rd (m : str) (i : nat) : cres Z :=
  match m !! i with
  | Some c => Val (uchar c)
  | None => Fault
  end.

(** [m[i] = v]: the value is converted to [unsigned char]. *)
Definition wr (m : str) (i : nat) (v : Z) : cres str :=
  if i <? length m then Val (splice m i [chr v]) else Fault.

(** The two halves of [memcpy]: the [n] bytes read and the bytes written. *)
Definition rdn (m : str) (i n : nat) : cres str :=
  if i + n <=? length m then Val (take n (drop i m)) else Fault.
Definition wrn (m : str) (i : nat) (s : str) : cres str :=
  if i + length s <=? length m then Val (splice m i s) else Fault.

(** [strlen(m + i)]. *)
Fixpoint strlen_loop (fuel : nat) (m : str) (i : nat) : cres nat :=
  match fuel with
  | O => Endless
  | S fuel =>
      c ← rd m i;
      if (c =? 0)%Z then Val 0 else n ← strlen_loop fuel m (S i); Val (S n)
  end.
Definition c_strlen (m : str) (i : nat) : cres nat := strlen_loop (S (length m)) m i.

(** The C string [s]: its characters and the terminating NUL. *)
Definition asciiz (s : str) : str := s ++ [chr 0].

(** A pointer moved by a signed amount; below the start of the buffer it has
    left it. *)
Definition advance (i : nat) (d : Z) : cres nat :=
  let j := (Z.of_nat i + d)%Z in if (j <? 0)%Z then Fault else Val (Z.to_nat j).

(** ** Lemmas *)

Lemma val_bind {A B} (a : A) (f : A -> cres B) : (x ← Val a; f x) = f a.
Proof. done. Qed.

Lemma length_splice m i s : i + length s <= length m -> length (splice m i s) = length m.
Proof. intros. unfold splice. rewrite !length_app, length_take, length_drop. lia. Qed.

Lemma take_splice m i s : i <= length m -> take i (splice m i s) = take i m.
Proof. intros. unfold splice. rewrite take_app_le; [|rewrite length_take; lia]. rewrite take_take. f_equal. lia. Qed.

Lemma drop_splice m i s :
  i <= length m -> drop i (splice m i s) = s ++ drop (i + length s) m.
Proof.
  intros. unfold splice. rewrite drop_app_length'; [done|]. rewrite length_take. lia.
Qed.

Lemma drop_splice_all m i s j :
  i + length s <= length m -> j = i + length s -> drop j (splice m i s) = drop j m.
Proof.
  intros H ->. rewrite <- drop_drop, drop_splice by lia. by rewrite drop_app_length.
Qed.

Lemma splice_nil m i : splice m i [] = m.
Proof. unfold splice. simpl. rewrite Nat.add_0_r. apply take_drop. Qed.

(** Consecutive writes are one write. *)
Lemma splice_app m i s t j :
  i <= length m -> j = i + length s ->
  i + length s <= length m ->
  splice (splice m i s) j t = splice m i (s ++ t).
Proof.
  intros Hi -> Hs. unfold splice at 1.
  replace (take (i + length s) (splice m i s)) with (take i m ++ s).
  2:{ unfold splice. rewrite app_assoc, take_app_le by (rewrite length_app, length_take; lia).
      rewrite (take_ge (take i m ++ s)); [done|]. rewrite length_app, length_take. lia. }
  rewrite <- (drop_drop _ _ (i + length s)), drop_splice_all by (done || lia).
  unfold splice. rewrite length_app, drop_drop, Nat.add_assoc. by rewrite <- !app_assoc.
Qed.

(** A byte already written is written again. *)
Lemma splice_over m i a x y c j :
  j = i + length a -> i + length (a ++ x :: c) <= length m ->
  splice (splice m i (a ++ x :: c)) j [y] = splice m i (a ++ y :: c).
Proof.
  intros -> H. rewrite length_app in H. simpl in H.
  unfold splice at 1. simpl length.
  replace (take (i + length a) (splice m i (a ++ x :: c))) with (take i m ++ a).
  2:{ unfold splice. rewrite <- app_assoc, app_assoc.
      rewrite take_app_le by (rewrite length_app, length_take; lia).
      rewrite (take_ge (take i m ++ a)); [done|]. rewrite length_app, length_take. lia. }
  replace (drop (i + length a + 1) (splice m i (a ++ x :: c)))
    with (c ++ drop (i + length (a ++ x :: c)) m).
  2:{ rewrite <- Nat.add_assoc, <- (drop_drop (splice m i (a ++ x :: c)) (length a + 1) i), drop_splice by lia.
      replace (length a + 1) with (length (a ++ [x])) by (rewrite length_app; done).
      change (x :: c) with ([x] ++ c). rewrite (app_assoc a [x] c), <- (app_assoc (a ++ [x])).
      by rewrite drop_app_length. }
  unfold splice. rewrite !length_app. simpl. by rewrite <- !app_assoc.
Qed.

(** The byte that follows what was written is the old one. *)
Lemma splice_next m i s j :
  j = i + length s -> j < length m ->
  exists g, splice m i s = splice m i (s ++ [g]).
Proof.
  intros -> H. destruct (lookup_lt_is_Some_2 m (i + length s)) as [g Hg]; [done|].
  exists g. unfold splice. rewrite length_app. simpl.
  rewrite (drop_S _ _ _ Hg). rewrite <- !app_assoc. simpl.
  do 3 f_equal. by replace (i + (length s + 1)) with (S (i + length s)) by lia.
Qed.

Lemma rd_drop m i c t : drop i m = c :: t -> rd m i = Val (uchar c).
Proof.
  intros H. unfold rd. rewrite <- (Nat.add_0_r i), <- lookup_drop, H. done.
Qed.

Lemma drop_next (m : str) i c t : drop i m = c :: t -> drop (S i) m = t.
Proof. intros H. rewrite <- Nat.add_1_r, <- drop_drop, H. done. Qed.

Lemma rd_in m i : i < length m -> exists c, m !! i = Some c /\ rd m i = Val (uchar c).
Proof.
  intros H. destruct (lookup_lt_is_Some_2 m i H) as [c Hc]. exists c.
  split; [done|]. unfold rd. by rewrite Hc.
Qed.

Lemma rd_out m i : length m <= i -> rd m i = Fault.
Proof. intros H. unfold rd. by rewrite lookup_ge_None_2. Qed.

Lemma wr_in m i v : i < length m -> wr m i v = Val (splice m i [chr v]).
Proof. intros H. unfold wr. by rewrite (proj2 (Nat.ltb_lt _ _) H). Qed.

Lemma wrn_in m i s : i + length s <= length m -> wrn m i s = Val (splice m i s).
Proof. intros H. unfold wrn. by rewrite (proj2 (Nat.leb_le _ _) H). Qed.

Lemma rdn_in m i n : i + n <= length m -> rdn m i n = Val (take n (drop i m)).
Proof. intros H. unfold rdn. by rewrite (proj2 (Nat.leb_le _ _) H). Qed.

Lemma uchar_len_chr n : (n < 256)%nat -> uchar (chr (Z.of_nat n)) = Z.of_nat n.
Proof. intros. rewrite uchar_chr. apply Z.mod_small. lia. Qed.

Lemma strlen_asciiz s t i m :
  drop i m = s ++ chr 0 :: t -> Forall (fun c => uchar c <> 0%Z) s ->
  c_strlen m i = Val (length s).
Proof.
  intros H Hs. unfold c_strlen.
  assert (Hf : length s < S (length m)).
  { apply (f_equal length) in H. rewrite length_drop, length_app in H. simpl in H. lia. }
  revert Hf i H. generalize (S (length m)) as fuel.
  induction Hs as [|c s Hc Hs IH]; intros [|fuel] Hf i H; simpl in *; try lia.
  - rewrite (rd_drop _ _ _ _ H). by rewrite uchar_chr.
  - rewrite (rd_drop _ _ _ _ H). simpl. rewrite (proj2 (Z.eqb_neq _ _) Hc).
    by rewrite (IH fuel ltac:(lia) _ (drop_next _ _ _ _ H)).
Qed.

(** ** Computations that end *)

(** A computation that ends, if only in a fault. *)
Definition ends {A} (m : cres A) : Prop := m <> Endless.

Create HintDb ends discriminated.

Lemma ends_val {A} (a : A) : ends (Val a).
Proof. done. Qed.
Lemma ends_fault {A} : ends (@Fault A).
Proof. done. Qed.
Lemma ends_abort {A} : ends (@Abort A).
Proof. done. Qed.
Lemma ends_bind {A B} (m : cres A) (f : A -> cres B) :
  ends m -> (forall a, m = Val a -> ends (f a)) -> ends (m ≫= f).
Proof. destruct m; unfold ends; simpl; auto; done. Qed.
Lemma ends_rd m i : ends (rd m i).
Proof. unfold rd. by destruct (m !! i). Qed.
Lemma ends_wr m i v : ends (wr m i v).
Proof. unfold wr. by destruct (_ <? _). Qed.
Lemma ends_rdn m i n : ends (rdn m i n).
Proof. unfold rdn. by destruct (_ <=? _). Qed.
Lemma ends_wrn m i s : ends (wrn m i s).
Proof. unfold wrn. by destruct (_ <=? _). Qed.
Lemma ends_advance i d : ends (advance i d).
Proof. unfold advance. by destruct (_ <? _)%Z. Qed.
#[export] Hint Resolve ends_val ends_fault ends_abort ends_rd ends_wr ends_rdn ends_wrn ends_advance : ends.

(** Through the binds and tests of a body; the recursive calls are left. *)
Ltac walk :=
  repeat first
    [ progress intros
    | solve [auto with ends]
    | apply ends_bind
    | match goal with
      | |- ends (let '(_, _) := ?x in _) => destruct x
      | |- ends (match ?x with _ => _ end) => destruct x eqn:?
      end ].

(** ** Integers in network order

    Reading and writing of big-endian integers in byte buffers, and what stands at a
    position of a buffer: shared by the STUN messages and the RTP packets. *)

(** The value of the bytes, most significant first: what [ntohs] and [ntohl]
    give for a copied integer. *)
Definition be_val (s : str) : Z := fold_left (fun a c => a * 256 + uchar c)%Z s 0%Z.
Definition get_be (n : nat) (buf : str) (i : nat) : cres Z := s ← rdn buf i n; Val (be_val s).
Definition get16 : str -> nat -> cres Z := get_be 2.
Definition get32 : str -> nat -> cres Z := get_be 4.

(** The [n] low bytes of a value, most significant first. *)
Fixpoint be_bytes (n : nat) (z : Z) : str :=
  match n with
  | O => []
  | S n => chr (Z.shiftr z (8 * Z.of_nat n)) :: be_bytes n z
  end.

(** ** Lemmas *)

Lemma length_be_bytes n z : length (be_bytes n z) = n.
Proof. induction n; simpl; [done|by f_equal]. Qed.

Lemma be_val_acc s a : (fold_left (fun a c => a * 256 + uchar c) s a = a * 256 ^ Z.of_nat (length s) + be_val s)%Z.
Proof.
  unfold be_val. revert a. induction s as [|c s IH]; intros a; cbn [fold_left length]; [lia|].
  rewrite (IH (a * 256 + uchar c)%Z), (IH (0 * 256 + uchar c)%Z), Nat2Z.inj_succ, Z.pow_succ_r by lia. lia.
Qed.

Lemma be_val_cons c s : (be_val (c :: s) = uchar c * 256 ^ Z.of_nat (length s) + be_val s)%Z.
Proof. unfold be_val at 1. cbn [fold_left]. rewrite be_val_acc. lia. Qed.

Lemma be_val_bytes n z : (be_val (be_bytes n z) = z mod 256 ^ Z.of_nat n)%Z.
Proof.
  induction n as [|n IH]; [by rewrite Z.mod_1_r|]. cbn [be_bytes].
  rewrite be_val_cons, IH, length_be_bytes, uchar_chr, Z.shiftr_div_pow2 by lia.
  replace (2 ^ (8 * Z.of_nat n))%Z with (256 ^ Z.of_nat n)%Z by (by rewrite Z.pow_mul_r by lia).
  rewrite Nat2Z.inj_succ, Z.pow_succ_r, (Z.mul_comm 256) by lia.
  rewrite Z.rem_mul_r by lia. lia.
Qed.

Lemma be_val_range s : (0 <= be_val s < 256 ^ Z.of_nat (length s))%Z.
Proof.
  induction s as [|c s IH]; [done|]. rewrite be_val_cons. cbn [length].
  rewrite Nat2Z.inj_succ, Z.pow_succ_r by lia. pose proof (uchar_range c). nia.
Qed.

Lemma get_be_in n buf i : i + n <= length buf -> get_be n buf i = Val (be_val (take n (drop i buf))).
Proof. intros H. unfold get_be. by rewrite rdn_in. Qed.

Lemma get16_in buf i : i + 2 <= length buf -> exists v, get16 buf i = Val v /\ (0 <= v < 65536)%Z.
Proof.
  intros H. unfold get16. rewrite get_be_in by done. eexists. split; [done|].
  pose proof (be_val_range (take 2 (drop i buf))) as Hr. rewrite length_take, length_drop in Hr.
  by replace (2 `min` (length buf - i)) with 2 in Hr by lia.
Qed.

(** Reading what stands at a position. *)
Definition stands (buf : str) (i : nat) (s : str) : Prop := i <= length buf /\ exists t, drop i buf = s ++ t.

Lemma stands_fits buf i s : stands buf i s -> i + length s <= length buf.
Proof.
  intros [Hi [t H]]. apply (f_equal length) in H. rewrite length_drop, length_app in H. lia.
Qed.

Lemma stands_app buf i s t : stands buf i (s ++ t) <-> stands buf i s /\ stands buf (i + length s) t.
Proof.
  split.
  - intros H. pose proof (stands_fits _ _ _ H) as Hf. rewrite length_app in Hf. destruct H as [Hi [u H]].
    split; (split; [lia|]).
    + exists (t ++ u). by rewrite app_assoc.
    + exists u. by rewrite <- drop_drop, H, <- app_assoc, drop_app_length.
  - intros [[Hi [u Hu]] [_ [v Hv]]]. split; [done|]. exists v.
    rewrite <- drop_drop, Hu, drop_app_length in Hv. by rewrite Hu, Hv, app_assoc.
Qed.

Lemma stands_take buf i s : stands buf i s -> take (length s) (drop i buf) = s.
Proof. intros [_ [t ->]]. apply take_app_length. Qed.

Lemma rdn_at buf i s : stands buf i s -> rdn buf i (length s) = Val s.
Proof. intros H. rewrite rdn_in by by apply stands_fits. by rewrite stands_take. Qed.

Lemma get_be_at n buf i z : stands buf i (be_bytes n z) -> get_be n buf i = Val (z mod 256 ^ Z.of_nat n)%Z.
Proof.
  intros H. unfold get_be. rewrite <- (length_be_bytes n z), (rdn_at _ _ _ H) at 1. cbn [mbind cres_bind].
  by rewrite be_val_bytes.
Qed.

Lemma rd_at buf i c : stands buf i [c] -> rd buf i = Val (uchar c).
Proof. intros [_ [t H]]. exact (rd_drop _ _ _ _ H). Qed.

Lemma stands_splice buf i s : i + length s <= length buf -> stands (splice buf i s) i s.
Proof.
  intros H. split; [rewrite length_splice; lia|]. rewrite drop_splice by lia. by eexists.
Qed.
