(* ===== verification/DnsName.v ===== *)
(** * Domain names of the DNS resolver

    src/src/udns/udns_dn.c: domain names in wire form (a DN: length-prefixed
    labels and a zero byte) measured, compared, copied, built from text and
    from addresses, and turned into text.  Every function works on the
    caller's buffers ([CMem]): a DN argument is a buffer and an offset, a
    destination is returned with the bytes the function wrote.  Also the names
    of SRV queries (udns_rr_srv.c). *)

From S2P Require Import Prelude CMem.
Open Scope nat_scope.

Definition DNS_MAXDN : nat := 255.
Definition DNS_MAXLABEL : nat := 63.
Definition DNS_MAXNAME : nat := 1024.

(** [DNS_DNLC]: lower case of a DN byte. *)
Definition DNS_DNLC (c : Z) : Z :=
  if ((65 <=? c) && (c <=? 90))%Z then (c - 65 + 97)%Z else c.

(** ** Length, labels, comparison, copy *)

(** The loop visits at most one position per byte of the buffer. *)
Fixpoint dnlen_loop (fuel : nat) (m : str) (d : nat) : cres nat :=
  match fuel with
  | O => Endless
  | S fuel =>
      c ← rd m d;
      if (c =? 0)%Z then Val d else dnlen_loop fuel m (d + (1 + Z.to_nat c))
  end.

Definition dns_dnlen (m : str) (dn : nat) : cres nat :=
  d ← dnlen_loop (S (length m)) m dn;
  Val (d - dn + 1).

Fixpoint dnlabels_loop (fuel : nat) (m : str) (dn l : nat) : cres nat :=
  match fuel with
  | O => Endless
  | S fuel =>
      c ← rd m dn;
      if (c =? 0)%Z then Val l
      else dnlabels_loop fuel m (dn + (1 + Z.to_nat c)) (S l)
  end.

Definition dns_dnlabels (m : str) (dn : nat) : cres nat :=
  dnlabels_loop (S (length m)) m dn 0.

(** [while (c--)]: the [c] bytes of a label. *)
Fixpoint label_equal (c : nat) (m1 m2 : str) (dn1 dn2 : nat) : cres bool :=
  match c with
  | O => Val true
  | S c =>
      a ← rd m1 dn1;
      b ← rd m2 dn2;
      if (DNS_DNLC a =? DNS_DNLC b)%Z then label_equal c m1 m2 (S dn1) (S dn2)
      else Val false
  end.

Fixpoint dnequal_loop (fuel : nat) (m1 m2 : str) (dn dn1 dn2 : nat) : cres nat :=
  match fuel with
  | O => Endless
  | S fuel =>
      c ← rd m1 dn1;
      c2 ← rd m2 dn2;
      if negb (c =? c2)%Z then Val 0
      else if (c =? 0)%Z then Val (S dn1 - dn)
      else
        same ← label_equal (Z.to_nat c) m1 m2 (S dn1) (S dn2);
        if same : bool
        then dnequal_loop fuel m1 m2 dn (S dn1 + Z.to_nat c) (S dn2 + Z.to_nat c)
        else Val 0
  end.

Definition dns_dnequal (m1 : str) (dn1 : nat) (m2 : str) (dn2 : nat) : cres nat :=
  dnequal_loop (S (length m1)) m1 m2 dn1 dn1 dn2.

(** Result and destination. *)
Definition dns_dntodn (m : str) (sdn : nat) (d : str) (ddn ddnsiz : nat)
  : cres (nat * str) :=
  sdnlen ← dns_dnlen m sdn;
  if ddnsiz <? sdnlen then Val (0, d)
  else
    s ← rdn m sdn sdnlen;
    d ← wrn d ddn s;
    Val (sdnlen, d).

(** ** Text to DN *)

(** [dnsiz >= DNS_MAXDN ? -1 : 0]: no room, for a name that is too long or in a
    buffer that is too small. *)
Definition too_big (dnsiz : nat) : Z := if DNS_MAXDN <=? dnsiz then -1 else 0.

Definition is_digit (c : Z) : bool := ((48 <=? c) && (c <=? 57))%Z.

(** [c * 10 + *np++ - '0'] when [np < ne] and a digit is there. *)
Definition more_digit (m : str) (ne : nat) (np : nat) (c : Z) : cres (option (nat * Z)) :=
  if np <? ne then
    d ← rd m np;
    Val (if is_digit d then Some (S np, c * 10 + d - 48)%Z else None)
  else Val None.

(** The escape that starts after the backslash at [np]: the position after it
    and the byte, or [None] where the function returns -1. *)
Definition ptodn_escape (m : str) (ne np : nat) : cres (option (nat * Z)) :=
  if np =? ne then Val None
  else
    d ← rd m np;
    if is_digit d then
      let c := (d - 48)%Z in
      two ← more_digit m ne (S np) c;
      match two with
      | None => Val (Some (S np, c))
      | Some (np, c) =>
          three ← more_digit m ne np c;
          match three with
          | None => Val (Some (np, c))
          | Some (np, c) => Val (if (255 <? c)%Z then None else Some (np, c))
          end
      end
    else Val (Some (S np, d)).

(** What the loop hands over: a [return] out of the function, with the buffer,
    or the position and the start of the last label when it ends. *)
Inductive ptodn_end :=
| PtodnReturn (r : Z) (dn : str)
| PtodnLeave (dp llab : nat) (dn : str).

(** The [while (np < ne)] loop.  [de] is the last byte that can be filled; each
    round consumes a character of the name. *)
Fixpoint ptodn_loop (fuel : nat) (m : str) (name ne : nat) (dnsiz de : nat)
    (np dp llab : nat) (dn : str) : cres ptodn_end :=
  match fuel with
  | O => Endless
  | S fuel =>
      if negb (np <? ne) then Val (PtodnLeave dp llab dn)
      else
        ch ← rd m np;
        if (ch =? 46)%Z then
          let c := dp - llab in
          if c =? 0 then
            if (np =? name) && (np + 1 =? ne) then Val (PtodnLeave dp llab dn)
            else Val (PtodnReturn (-1) dn)
          else if DNS_MAXLABEL <? c then Val (PtodnReturn (-1) dn)
          else
            dn ← wr dn (llab - 1) (Z.of_nat c);
            ptodn_loop fuel m name ne dnsiz de (S np) (S dp) (S dp) dn
        else if de <=? dp then
          Val (PtodnReturn (too_big dnsiz) dn)
        else if negb (ch =? 92)%Z then
          dn ← wr dn dp ch;
          ptodn_loop fuel m name ne dnsiz de (S np) (S dp) llab dn
        else
          e ← ptodn_escape m ne (S np);
          match e with
          | None => Val (PtodnReturn (-1) dn)
          | Some (np, c) =>
              dn ← wr dn dp c;
              ptodn_loop fuel m name ne dnsiz de np (S dp) llab dn
          end
  end.

(** The result, [*isabs] when it is set, and the buffer. *)
Definition dns_ptodn (m : str) (name namelen : nat) (dn : str) (off dnsiz : nat)
  : cres (Z * option bool * str) :=
  n ← (if namelen =? 0 then c_strlen m name else Val namelen);
  let ne := name + n in
  if dnsiz =? 0 then Val (0%Z, None, dn)
  else
    let de := off + (if DNS_MAXDN <=? dnsiz then DNS_MAXDN else dnsiz) - 1 in
    e ← ptodn_loop (S n) m name ne dnsiz de name (S off) (S off) dn;
    match e with
    | PtodnReturn r dn => Val (r, None, dn)
    | PtodnLeave dp llab dn =>
        let c := dp - llab in
        if DNS_MAXLABEL <? c then Val ((-1)%Z, None, dn)
        else
          dn ← wr dn (llab - 1) (Z.of_nat c);
          if negb (c =? 0) then
            dn ← wr dn dp 0;
            Val (Z.of_nat (S dp - off), Some false, dn)
          else Val (Z.of_nat (dp - off), Some true, dn)
    end.

(** [dns_sptodn]. *)
Definition dns_sptodn (m : str) (name : nat) (dn : str) (off dnsiz : nat)
  : cres (Z * option bool * str) :=
  dns_ptodn m name 0 dn off dnsiz.

(** ** Addresses to DN *)

Definition dns_inaddr_arpa_dn : str :=
  chr 7 :: #"in-addr" ++ chr 4 :: #"arpa" ++ [chr 0].
Definition dns_ip6_arpa_dn : str :=
  chr 3 :: #"ip6" ++ chr 4 :: #"arpa" ++ [chr 0].
Definition DNS_A4RSIZE : nat := 30.
Definition DNS_A6RSIZE : nat := 74.

(** One octet, written as a decimal label at [dn]: the position after it, or
    [None] where the function returns a null pointer. *)
Definition a4_octet (b : str) (dn dne : nat) (n : Z) : cres (option nat * str) :=
  let p := dn + 1 in
  if (99 <? n)%Z then
    if dne <? p + 2 then Val (None, b)
    else
      b ← wr b p (n / 100 + 48);
      b ← wr b (p + 1) (n mod 100 / 10 + 48);
      b ← wr b (p + 2) (n mod 10 + 48);
      b ← wr b dn (Z.of_nat (p + 2 - dn));
      Val (Some (p + 2 + 1), b)
  else if (9 <? n)%Z then
    if dne <? p + 1 then Val (None, b)
    else
      b ← wr b p (n / 10 + 48);
      b ← wr b (p + 1) (n mod 10 + 48);
      b ← wr b dn (Z.of_nat (p + 1 - dn));
      Val (Some (p + 1 + 1), b)
  else if dne <? p then Val (None, b)
  else
    b ← wr b p (n + 48);
    b ← wr b dn (Z.of_nat (p - dn));
    Val (Some (p + 1), b).

(** The octets [s] of the address, last first. *)
Fixpoint a4_octets (s : list Z) (b : str) (dn dne : nat) : cres (option nat * str) :=
  match s with
  | [] => Val (Some dn, b)
  | n :: s =>
      '(p, b) ← a4_octet b dn dne n;
      match p with
      | None => Val (None, b)
      | Some dn => a4_octets s b dn dne
      end
  end.

(** [addr]: the four bytes of the [struct in_addr]. *)
Definition dns_a4todn_ (addr : list Z) (b : str) (dn dne : nat) : cres (option nat * str) :=
  a4_octets (rev addr) b dn dne.

(** The end of [dns_a4todn] and [dns_a6todn]: the suffix [tdn] copied to [p]. *)
Definition todn_suffix (t : str) (tdn : nat) (b : str) (dn dne dnsiz p : nat)
  : cres (Z * str) :=
  l ← dns_dnlen t tdn;
  if dne <? p + l then Val (too_big dnsiz, b)
  else
    s ← rdn t tdn l;
    b ← wrn b p s;
    Val (Z.of_nat (p + l - dn), b).

(** [tdn] is [None] for a null pointer. *)
Definition dns_a4todn (addr : list Z) (tdn : option (str * nat)) (b : str) (dn dnsiz : nat)
  : cres (Z * str) :=
  let dne := dn + (if DNS_MAXDN <? dnsiz then DNS_MAXDN else dnsiz) in
  '(p, b) ← dns_a4todn_ addr b dn dne;
  match p with
  | None => Val (0%Z, b)
  | Some p =>
      let '(t, tdn) := match tdn with None => (dns_inaddr_arpa_dn, 0) | Some t => t end in
      todn_suffix t tdn b dn dne dnsiz p
  end.

(** The end of [dns_a4ptodn] and [dns_a6ptodn]: [dnsiz - (p - dn)] is computed
    in [unsigned]. *)
Definition ptodn_suffix (t : str) (tname : nat) (b : str) (dn dnsiz p : nat)
  : cres (Z * str) :=
  '(r, _, b) ← dns_sptodn t tname b p
                 (Z.to_nat (u32 (Z.of_nat dnsiz - (Z.of_nat p - Z.of_nat dn))));
  Val (if negb (r =? 0)%Z then r else too_big dnsiz, b).

Definition dns_a4ptodn (addr : list Z) (tname : option (str * nat)) (b : str) (dn dnsiz : nat)
  : cres (Z * str) :=
  match tname with
  | None => dns_a4todn addr None b dn dnsiz
  | Some (t, tname) =>
      '(p, b) ← dns_a4todn_ addr b dn (dn + dnsiz);
      match p with
      | None => Val (0%Z, b)
      | Some p => ptodn_suffix t tname b dn dnsiz p
      end
  end.

Definition hex_digit (n : Z) : Z := if (9 <? n)%Z then (n + 97 - 10)%Z else (n + 48)%Z.

Fixpoint a6_octets (s : list Z) (b : str) (dn : nat) : cres (nat * str) :=
  match s with
  | [] => Val (dn, b)
  | x :: s =>
      b ← wr b dn 1;
      b ← wr b (dn + 1) (hex_digit (Z.land x 15));
      b ← wr b (dn + 2) 1;
      b ← wr b (dn + 3) (hex_digit (Z.shiftr x 4));
      a6_octets s b (dn + 4)
  end.

(** [addr]: the sixteen bytes of the [struct in6_addr]. *)
Definition dns_a6todn_ (addr : list Z) (b : str) (dn dne : nat) : cres (option nat * str) :=
  if dne <? dn + 64 then Val (None, b)
  else '(p, b) ← a6_octets (rev addr) b dn; Val (Some p, b).

Definition dns_a6todn (addr : list Z) (tdn : option (str * nat)) (b : str) (dn dnsiz : nat)
  : cres (Z * str) :=
  let dne := dn + (if DNS_MAXDN <? dnsiz then DNS_MAXDN else dnsiz) in
  '(p, b) ← dns_a6todn_ addr b dn dne;
  match p with
  | None => Val (0%Z, b)
  | Some p =>
      let '(t, tdn) := match tdn with None => (dns_ip6_arpa_dn, 0) | Some t => t end in
      todn_suffix t tdn b dn dne dnsiz p
  end.

Definition dns_a6ptodn (addr : list Z) (tname : option (str * nat)) (b : str) (dn dnsiz : nat)
  : cres (Z * str) :=
  match tname with
  | None => dns_a6todn addr None b dn dnsiz
  | Some (t, tname) =>
      '(p, b) ← dns_a6todn_ addr b dn (dn + dnsiz);
      match p with
      | None => Val (0%Z, b)
      | Some p => ptodn_suffix t tname b dn dnsiz p
      end
  end.

(** ** DN to text *)

(** The two tests of the [switch]: characters written after a backslash, and
    bytes written as a backslash and three decimal digits. *)
Definition dn_special (c : Z) : bool :=
  ((c =? 46) || (c =? 92) || (c =? 34) || (c =? 59) || (c =? 64) || (c =? 36))%Z.
Definition dn_decimal (c : Z) : bool := ((c <=? 32) || (127 <=? c))%Z.

(** [do ... while (++dn < le)] for a label of [n] bytes (at least one). *)
Fixpoint label_size (n : nat) (m : str) (dn size : nat) : cres nat :=
  match n with
  | O => Val size
  | S n =>
      c ← rd m dn;
      let size :=
        if dn_special c then size + 2
        else if dn_decimal c then size + 4
        else size + 1 in
      label_size n m (S dn) size
  end.

Fixpoint dntop_size_loop (fuel : nat) (m : str) (dn size : nat) : cres nat :=
  match fuel with
  | O => Endless
  | S fuel =>
      c ← rd m dn;
      if (c =? 0)%Z then Val size
      else
        let size := if size =? 0 then size else S size in
        size ← label_size (Z.to_nat c) m (S dn) size;
        dntop_size_loop fuel m (dn + Z.to_nat c + 1) size
  end.

Definition dns_dntop_size (m : str) (dn : nat) : cres nat :=
  size ← dntop_size_loop (S (length m)) m dn 0;
  let size := size + 1 in
  Val (if DNS_MAXNAME <? size then 0 else size).

(** A loop of [dns_dntop] either goes on, with the position in the name and the
    name, or jumps to [toolong]. *)
Inductive dntop_end :=
| DntopGo (np : nat) (name : str)
| DntopTooLong (name : str).

(** The bytes of one label. *)
Fixpoint dntop_label (n : nat) (m : str) (dn ne np : nat) (name : str) : cres dntop_end :=
  match n with
  | O => Val (DntopGo np name)
  | S n =>
      c ← rd m dn;
      if dn_special c then
        if ne <? np + 2 then Val (DntopTooLong name)
        else
          name ← wr name np 92;
          name ← wr name (np + 1) c;
          dntop_label n m (S dn) ne (np + 2) name
      else if dn_decimal c then
        if ne <=? np + 4 then Val (DntopTooLong name)
        else
          name ← wr name np 92;
          name ← wr name (np + 1) (48 + c / 100);
          name ← wr name (np + 2) (48 + c mod 100 / 10);
          name ← wr name (np + 3) (48 + c mod 10);
          dntop_label n m (S dn) ne (np + 4) name
      else if ne <=? np then Val (DntopTooLong name)
      else
        name ← wr name np c;
        dntop_label n m (S dn) ne (np + 1) name
  end.

(** The dot before every label but the first. *)
Definition dntop_dot (start ne np : nat) (name : str) : cres dntop_end :=
  if np =? start then Val (DntopGo np name)
  else if ne <=? np then Val (DntopTooLong name)
  else name ← wr name np 46; Val (DntopGo (np + 1) name).

Fixpoint dntop_loop (fuel : nat) (m : str) (dn start ne np : nat) (name : str)
  : cres dntop_end :=
  match fuel with
  | O => Endless
  | S fuel =>
      c ← rd m dn;
      if (c =? 0)%Z then Val (DntopGo np name)
      else
        e ← dntop_dot start ne np name;
        match e with
        | DntopTooLong name => Val (DntopTooLong name)
        | DntopGo np name =>
            e ← dntop_label (Z.to_nat c) m (S dn) ne np name;
            match e with
            | DntopTooLong name => Val (DntopTooLong name)
            | DntopGo np name =>
                dntop_loop fuel m (dn + Z.to_nat c + 1) start ne np name
            end
        end
  end.

Definition dntop_toolong (namesiz : nat) : Z := if DNS_MAXNAME <=? namesiz then -1 else 0.

(** [dns_dntop(dn, name + start, namesiz)]: the result and the name. *)
Definition dns_dntop (m : str) (dn : nat) (name : str) (start namesiz : nat)
  : cres (Z * str) :=
  let ne := start + namesiz in
  e ← dntop_loop (S (length m)) m dn start ne start name;
  match e with
  | DntopTooLong name => Val (dntop_toolong namesiz, name)
  | DntopGo np name =>
      if ne <=? np then Val (dntop_toolong namesiz, name)
      else
        name ← wr name np 0;
        Val (Z.of_nat (np + 1 - start), name)
  end.

(** ** Names of SRV queries *)

(** [add_sname(dn + off, sn)]: the length of the label with its underscore, or
    0. *)
Definition add_sname (dn : str) (off : nat) (sn : str) : cres (nat * str) :=
  '(l, _, dn) ← dns_ptodn sn 0 0 dn (off + 1) (DNS_MAXLABEL - 1);
  if (l <=? 1)%Z then Val (0, dn)
  else
    c ← rd dn (off + 1);
    if negb (l - 2 =? c)%Z then Val (0, dn)
    else
      dn ← wr dn off (l - 1);
      dn ← wr dn (off + 1) 95;
      Val (Z.to_nat l, dn).

(** A service or protocol name, when there is one. *)
Definition add_part (dn : str) (p : nat) (sn : option str) : cres (option nat * str) :=
  match sn with
  | None => Val (Some p, dn)
  | Some sn =>
      '(l, dn) ← add_sname dn p sn;
      Val (if l =? 0 then None else Some (p + l), dn)
  end.

Definition DNS_NOSRCH : Z := 65536.

Definition build_srv_dn (dn : str) (name : str) (srv proto : option str) : cres (Z * str) :=
  '(p, dn) ← add_part dn 0 srv;
  match p with
  | None => Val ((-1)%Z, dn)
  | Some p =>
      '(p, dn) ← add_part dn p proto;
      match p with
      | None => Val ((-1)%Z, dn)
      | Some p =>
          '(l, isabs, dn) ← dns_ptodn name 0 0 dn p (DNS_MAXDN - p);
          if (l <? 0)%Z then Val ((-1)%Z, dn)
          else match isabs with
               | Some isabs => Val ((if isabs : bool then DNS_NOSRCH else 0)%Z, dn)
               | None => Fault  (* [isabs] is read but was never set *)
               end
      end
  end.
