(* ===== verification/DnsNameFacts.v ===== *)
(** * What the domain-name functions compute

    A domain name is a list of labels.  [encode] is its wire form, [dn_text] its
    text, [parse_name] the name a text denotes; the lemmas show that the
    functions of [DnsName] compute exactly these, inside their buffers. *)

From S2P Require Import Prelude CMem DnsName.
Open Scope nat_scope.

(** ** Specification *)

Abbreviation label := str.

Definition put_label (l : label) : str := chr (Z.of_nat (length l)) :: l.
Definition put_labels (ls : list label) : str := flat_map put_label ls.
Definition encode (ls : list label) : str := put_labels ls ++ [chr 0].

(** Labels have 1 to 63 bytes. *)
Definition wf_label (l : label) : Prop := 1 <= length l <= DNS_MAXLABEL.
Definition wf_labels (ls : list label) : Prop := Forall wf_label ls.

(** The buffer [m] holds the name [ls] at [i]. *)
Definition holds (m : str) (i : nat) (ls : list label) : Prop :=
  exists t, drop i m = encode ls ++ t.

(** A byte of a label as text. *)
Definition esc (c : ascii) : str :=
  if dn_special (uchar c) then [chr 92; c]
  else if dn_decimal (uchar c) then
    [chr 92; chr (48 + uchar c / 100); chr (48 + uchar c mod 100 / 10);
     chr (48 + uchar c mod 10)]
  else [c].
Definition label_text (l : label) : str := flat_map esc l.
Definition dots_text (ls : list label) : str := flat_map (fun l => chr 46 :: label_text l) ls.
Definition dn_text (ls : list label) : str :=
  match ls with
  | [] => []
  | l :: ls => label_text l ++ dots_text ls
  end.

(** The tokens of a text: separators and bytes, an escape being one byte. *)
Inductive tok :=
| Dot
| Chr (c : ascii).

Definition digit (c : ascii) : option Z :=
  if is_digit (uchar c) then Some (uchar c - 48)%Z else None.

Fixpoint tokens (s : str) : option (list tok) :=
  match s with
  | [] => Some []
  | c :: s =>
      if (uchar c =? 46)%Z then cons Dot <$> tokens s
      else if negb (uchar c =? 92)%Z then cons (Chr c) <$> tokens s
      else
        match s with
        | [] => None
        | d1 :: s1 =>
            match digit d1 with
            | None => cons (Chr d1) <$> tokens s1
            | Some a =>
                match s1 with
                | [] => Some [Chr (chr a)]
                | d2 :: s2 =>
                    match digit d2 with
                    | None => cons (Chr (chr a)) <$> tokens s1
                    | Some b =>
                        match s2 with
                        | [] => Some [Chr (chr (a * 10 + b))]
                        | d3 :: s3 =>
                            match digit d3 with
                            | None => cons (Chr (chr (a * 10 + b))) <$> tokens s2
                            | Some d =>
                                let v := ((a * 10 + b) * 10 + d)%Z in
                                if (255 <? v)%Z then None
                                else cons (Chr (chr v)) <$> tokens s3
                            end
                        end
                    end
                end
            end
        end
  end.

(** The labels of a token list, [w] being the label read so far, and whether
    the name ended with a separator. *)
Fixpoint name_loop (ts : list tok) (w : label) : option (list label * bool) :=
  match ts with
  | [] =>
      if DNS_MAXLABEL <? length w then None
      else if length w =? 0 then Some ([], true) else Some ([w], false)
  | Chr c :: ts => name_loop ts (w ++ [c])
  | Dot :: ts =>
      if (length w =? 0) || (DNS_MAXLABEL <? length w) then None
      else '(ls, abs) ← name_loop ts []; Some (w :: ls, abs)
  end.

(** The name a text denotes and whether it is absolute; a lone dot is the root. *)
Definition parse_name (s : str) : option (list label * bool) :=
  match s with
  | [c] => if (uchar c =? 46)%Z then Some ([], true) else ts ← tokens s; name_loop ts []
  | _ => ts ← tokens s; name_loop ts []
  end.

(** ** Wire form *)

Lemma chr_uchar c : chr (uchar c) = c.
Proof. apply uchar_inj. rewrite uchar_chr. apply Z.mod_small, uchar_range. Qed.

Lemma put_labels_app ls ls' : put_labels (ls ++ ls') = put_labels ls ++ put_labels ls'.
Proof. apply flat_map_app. Qed.

Lemma length_encode_cons l ls : length (encode (l :: ls)) = S (length l + length (encode ls)).
Proof. unfold encode. simpl. rewrite !length_app. simpl. lia. Qed.

Lemma encode_pos ls : 1 <= length (encode ls).
Proof. unfold encode. rewrite length_app. simpl. lia. Qed.

Lemma encode_cons l ls t :
  encode (l :: ls) ++ t = chr (Z.of_nat (length l)) :: l ++ (encode ls ++ t).
Proof. unfold encode. simpl. by rewrite <- !app_assoc. Qed.

Lemma labels_encode ls : wf_labels ls -> 2 * length ls < length (encode ls).
Proof.
  induction 1 as [|l ls Hl Hls IH]; [simpl; lia|].
  rewrite length_encode_cons. unfold wf_label in Hl. simpl. lia.
Qed.

Lemma wf_labels_len ls : wf_labels ls -> length ls < length (encode ls).
Proof. intros H. pose proof (labels_encode ls H). lia. Qed.

Lemma uchar_len l : wf_label l -> uchar (chr (Z.of_nat (length l))) = Z.of_nat (length l).
Proof. intros [? H]. apply uchar_len_chr. unfold DNS_MAXLABEL in H. lia. Qed.

(** Reading the head of an encoded name. *)
Lemma encode_head l ls m i t :
  wf_label l -> drop i m = encode (l :: ls) ++ t ->
  rd m i = Val (Z.of_nat (length l)) /\ (Z.of_nat (length l) =? 0)%Z = false /\
  Z.to_nat (Z.of_nat (length l)) = length l /\
  drop (S i) m = l ++ (encode ls ++ t) /\ drop (i + (1 + length l)) m = encode ls ++ t.
Proof.
  intros Hl H. rewrite encode_cons in H. split_and!.
  - rewrite (rd_drop _ _ _ _ H). by rewrite uchar_len.
  - apply Z.eqb_neq. destruct Hl. lia.
  - lia.
  - by apply drop_next in H.
  - apply drop_next in H. rewrite Nat.add_assoc, Nat.add_1_r, <- (drop_drop _ _ (S i)), H.
    by rewrite drop_app_length.
Qed.

Lemma encode_stop m i t : drop i m = encode [] ++ t -> rd m i = Val 0%Z.
Proof. intros H. rewrite (rd_drop _ _ _ _ H). by rewrite uchar_chr. Qed.

Lemma length_encode_nil : length (encode []) = 1.
Proof. done. Qed.

Lemma holds_length m i ls : holds m i ls -> i + length (encode ls) <= length m.
Proof.
  intros [t H]. apply (f_equal length) in H. rewrite length_drop, length_app in H.
  pose proof (encode_pos ls). lia.
Qed.

Lemma holds_take m i ls : holds m i ls -> take (length (encode ls)) (drop i m) = encode ls.
Proof. intros [t H]. rewrite H. by rewrite take_app_length. Qed.

Lemma holds_splice m i ls : i + length (encode ls) <= length m -> holds (splice m i (encode ls)) i ls.
Proof. intros H. eexists. by rewrite drop_splice by lia. Qed.

Lemma holds_encode ls : holds (encode ls) 0 ls.
Proof. exists []. by rewrite app_nil_r. Qed.

#[global] Opaque encode.

(** ** Length, labels, comparison, copy *)

Lemma dnlen_run fuel m i ls t :
  wf_labels ls -> length ls < fuel -> drop i m = encode ls ++ t ->
  dnlen_loop fuel m i = Val (i + length (encode ls) - 1).
Proof.
  intros Hw. revert fuel i. induction Hw as [|l ls Hl Hls IH]; intros [|fuel] i Hf H; simpl in Hf; try lia.
  - simpl. rewrite (encode_stop _ _ _ H), length_encode_nil. simpl. f_equal. lia.
  - destruct (encode_head _ _ _ _ _ Hl H) as (Hr & Hz & Hn & _ & Hd).
    simpl. rewrite Hr. simpl. rewrite Hz, Hn.
    rewrite (IH fuel (i + S (length l)) ltac:(lia) Hd).
    rewrite length_encode_cons. pose proof (encode_pos ls). f_equal. lia.
Qed.

(** Enough iterations for a name the buffer holds. *)
Lemma holds_fuel m i ls : wf_labels ls -> holds m i ls -> length ls < S (length m).
Proof. intros Hw H. pose proof (holds_length _ _ _ H). pose proof (wf_labels_len _ Hw). lia. Qed.

Lemma dns_dnlen_holds m i ls :
  wf_labels ls -> holds m i ls -> dns_dnlen m i = Val (length (encode ls)).
Proof.
  intros Hw H. pose proof (holds_fuel _ _ _ Hw H) as Hf. destruct H as [t H].
  unfold dns_dnlen. rewrite (dnlen_run _ _ _ _ _ Hw Hf H). simpl. f_equal.
  pose proof (encode_pos ls). lia.
Qed.

Lemma dnlabels_run fuel m i ls t n :
  wf_labels ls -> length ls < fuel -> drop i m = encode ls ++ t ->
  dnlabels_loop fuel m i n = Val (n + length ls).
Proof.
  intros Hw. revert fuel i n. induction Hw as [|l ls Hl Hls IH]; intros [|fuel] i n Hf H; simpl in Hf; try lia.
  - simpl. rewrite (encode_stop _ _ _ H). simpl. f_equal. lia.
  - destruct (encode_head _ _ _ _ _ Hl H) as (Hr & Hz & Hn & _ & Hd).
    simpl. rewrite Hr. simpl. rewrite Hz, Hn.
    rewrite (IH fuel (i + S (length l)) (S n) ltac:(lia) Hd). f_equal. lia.
Qed.

Lemma dns_dnlabels_holds m i ls :
  wf_labels ls -> holds m i ls -> dns_dnlabels m i = Val (length ls).
Proof.
  intros Hw H. pose proof (holds_fuel _ _ _ Hw H) as Hf. destruct H as [t H].
  unfold dns_dnlabels. by rewrite (dnlabels_run _ _ _ _ _ 0 Hw Hf H).
Qed.

Lemma dns_dntodn_holds m i ls d j n :
  wf_labels ls -> holds m i ls -> j + n <= length d ->
  dns_dntodn m i d j n =
    Val (if n <? length (encode ls) then (0, d)
         else (length (encode ls), splice d j (encode ls))).
Proof.
  intros Hw H Hd. unfold dns_dntodn. rewrite (dns_dnlen_holds _ _ _ Hw H). simpl.
  destruct (Nat.ltb_spec n (length (encode ls))); [done|].
  rewrite rdn_in by (by apply holds_length). simpl.
  rewrite (holds_take _ _ _ H). rewrite wrn_in by lia. done.
Qed.

(** Names are compared without regard to case. *)
Definition lower_bytes (l : label) : list Z := map (fun c => DNS_DNLC (uchar c)) l.
Definition lower_labels (ls : list label) : list (list Z) := map lower_bytes ls.
Definition same_name (ls ls' : list label) : bool := bool_decide (lower_labels ls = lower_labels ls').

Lemma label_equal_run l l' m m' i i' t t' :
  length l = length l' -> drop i m = l ++ t -> drop i' m' = l' ++ t' ->
  label_equal (length l) m m' i i' = Val (bool_decide (lower_bytes l = lower_bytes l')).
Proof.
  revert l' i i'. induction l as [|c l IH]; intros [|c' l'] i i' Hlen H H'; try done.
  simpl. rewrite (rd_drop _ _ _ _ H), (rd_drop _ _ _ _ H'). simpl.
  unfold lower_bytes. simpl. fold (lower_bytes l). fold (lower_bytes l').
  destruct (Z.eqb_spec (DNS_DNLC (uchar c)) (DNS_DNLC (uchar c'))) as [E|E].
  - rewrite (IH l' (S i) (S i')); [|simpl in Hlen; lia|by apply drop_next in H|by apply drop_next in H'].
    f_equal. apply bool_decide_ext. rewrite E. split; [by intros ->|by intros [= ->]].
  - rewrite bool_decide_eq_false_2; [done|]. by intros [= ? _].
Qed.

Lemma same_name_cons l ls l' ls' :
  same_name (l :: ls) (l' :: ls') = bool_decide (lower_bytes l = lower_bytes l') && same_name ls ls'.
Proof.
  unfold same_name. simpl. rewrite <- bool_decide_and. apply bool_decide_ext.
  split; [by intros [= -> ->]|by intros [-> ->]].
Qed.

Lemma dnequal_run fuel m m' s i i' ls ls' t t' :
  wf_labels ls -> wf_labels ls' -> length ls < fuel -> s <= i ->
  drop i m = encode ls ++ t -> drop i' m' = encode ls' ++ t' ->
  dnequal_loop fuel m m' s i i' =
    Val (if same_name ls ls' then i + length (encode ls) - s else 0).
Proof.
  intros Hw. revert fuel i i' ls'.
  induction Hw as [|l ls Hl Hls IH]; intros [|fuel] i i' ls' Hw' Hf Hs H H'; simpl in Hf; try lia.
  - cbn [dnequal_loop]. rewrite (encode_stop _ _ _ H). cbn [mbind cres_bind].
    destruct Hw' as [|l' ls' Hl' Hls'].
    + rewrite (encode_stop _ _ _ H'), length_encode_nil. simpl. f_equal. lia.
    + destruct (encode_head _ _ _ _ _ Hl' H') as (-> & Hz & _).
      cbn [mbind cres_bind]. rewrite Z.eqb_sym, Hz. done.
  - destruct (encode_head _ _ _ _ _ Hl H) as (Hr & Hz & Hn & Hb & Hd).
    cbn [dnequal_loop]. rewrite Hr. cbn [mbind cres_bind].
    destruct Hw' as [|l' ls' Hl' Hls'].
    + rewrite (encode_stop _ _ _ H'). cbn [mbind cres_bind]. by rewrite Hz.
    + destruct (encode_head _ _ _ _ _ Hl' H') as (Hr' & _ & _ & Hb' & Hd').
      rewrite Hr'. cbn [mbind cres_bind]. rewrite same_name_cons.
      destruct (Z.eqb_spec (Z.of_nat (length l)) (Z.of_nat (length l'))) as [E|E].
      2:{ rewrite bool_decide_eq_false_2; [done|]. intros El. apply E.
          apply (f_equal length) in El. unfold lower_bytes in El. rewrite !length_map in El. lia. }
      cbn [negb]. rewrite Hz, Hn, (label_equal_run l l' _ _ _ _ _ _ ltac:(lia) Hb Hb').
      cbn [mbind cres_bind].
      destruct (bool_decide (lower_bytes l = lower_bytes l')); [|done].
      replace (S i + length l) with (i + (1 + length l)) by lia.
      replace (S i' + length l) with (i' + (1 + length l')) by lia.
      rewrite (IH fuel (i + (1 + length l)) _ _ Hls' ltac:(lia) ltac:(lia) Hd Hd'). simpl.
      destruct (same_name ls ls'); [|done]. rewrite length_encode_cons. f_equal. lia.
Qed.

Lemma dns_dnequal_holds m i ls m' i' ls' :
  wf_labels ls -> wf_labels ls' -> holds m i ls -> holds m' i' ls' ->
  dns_dnequal m i m' i' = Val (if same_name ls ls' then length (encode ls) else 0).
Proof.
  intros Hw Hw' H H'. pose proof (holds_fuel _ _ _ Hw H) as Hf.
  destruct H as [t H], H' as [t' H']. unfold dns_dnequal.
  rewrite (dnequal_run _ _ _ _ _ _ _ _ _ _ Hw Hw' Hf (Nat.le_refl _) H H').
  destruct (same_name ls ls'); [|done]. f_equal. lia.
Qed.

(** ** Text form *)

Lemma label_text_cons c l : label_text (c :: l) = esc c ++ label_text l.
Proof. done. Qed.

Lemma length_esc c :
  length (esc c) = if dn_special (uchar c) then 2 else if dn_decimal (uchar c) then 4 else 1.
Proof. unfold esc. by repeat brk. Qed.

Lemma label_text_len l : length l <= length (label_text l) <= 4 * length l.
Proof.
  induction l as [|c l IH]; [simpl; lia|]. rewrite label_text_cons, length_app, length_esc.
  simpl length. repeat brk; lia.
Qed.

Lemma label_size_run l m i t n :
  drop i m = l ++ t -> label_size (length l) m i n = Val (n + length (label_text l)).
Proof.
  revert i n. induction l as [|c l IH]; intros i n H; [simpl; f_equal; lia|].
  simpl. rewrite (rd_drop _ _ _ _ H). simpl. rewrite (IH _ _ (drop_next _ _ _ _ H)).
  rewrite length_app, length_esc. f_equal. repeat brk; lia.
Qed.

Lemma dots_text_cons l ls : dots_text (l :: ls) = chr 46 :: label_text l ++ dots_text ls.
Proof. done. Qed.

Lemma dn_text_cons l ls : dn_text (l :: ls) = label_text l ++ dots_text ls.
Proof. done. Qed.

(** The text after [n] characters: a dot goes first unless nothing was written. *)
Definition text_from (n : nat) (ls : list label) : str :=
  if n =? 0 then dn_text ls else dots_text ls.

Lemma text_from_cons n l ls :
  wf_label l ->
  text_from n (l :: ls) =
    (if n =? 0 then [] else [chr 46]) ++ label_text l ++ dots_text ls.
Proof. intros Hl. unfold text_from. by destruct n. Qed.

Lemma text_from_pos n ls : n <> 0 -> text_from n ls = dots_text ls.
Proof. by destruct n. Qed.

Lemma dntop_size_run fuel m i ls t n :
  wf_labels ls -> length ls < fuel -> drop i m = encode ls ++ t ->
  dntop_size_loop fuel m i n = Val (n + length (text_from n ls)).
Proof.
  intros Hw. revert fuel i n. induction Hw as [|l ls Hl Hls IH]; intros [|fuel] i n Hf H; simpl in Hf; try lia.
  - simpl. rewrite (encode_stop _ _ _ H). simpl. unfold text_from. destruct n; simpl; f_equal; lia.
  - destruct (encode_head _ _ _ _ _ Hl H) as (Hr & Hz & Hn & Hb & Hd).
    simpl. rewrite Hr. simpl. rewrite Hz, Hn, (label_size_run _ _ _ _ _ Hb). simpl.
    replace (i + length l + 1) with (i + (1 + length l)) by lia.
    rewrite (IH fuel _ _ ltac:(lia) Hd). pose proof (label_text_len l). destruct Hl.
    rewrite text_from_pos by (destruct n; simpl; lia).
    rewrite text_from_cons by done. rewrite !length_app. f_equal. destruct n; simpl; lia.
Qed.

Lemma dns_dntop_size_holds m i ls :
  wf_labels ls -> holds m i ls ->
  dns_dntop_size m i =
    Val (if DNS_MAXNAME <? S (length (dn_text ls)) then 0 else S (length (dn_text ls))).
Proof.
  intros Hw H. pose proof (holds_fuel _ _ _ Hw H) as Hf. destruct H as [t H].
  unfold dns_dntop_size. rewrite (dntop_size_run _ _ _ _ _ _ Hw Hf H).
  cbn [mbind cres_bind]. change (text_from 0 ls) with (dn_text ls).
  by rewrite Nat.add_1_r.
Qed.

(** ** DN to text *)

(** Bytes appended to what was written so far. *)
Lemma wr_append m i w j c :
  j = i + length w -> i + length w < length m ->
  wr (splice m i w) j c = Val (splice m i (w ++ [chr c])).
Proof.
  intros -> H. rewrite wr_in by (rewrite length_splice; lia).
  by rewrite splice_app by lia.
Qed.

(** What a run of [dns_dntop] leaves: everything written, within the size, or
    the exit for a text [full] that does not fit with its terminator. *)
Definition dntop_spec (N : str) (start namesiz : nat) (full : str) (e : dntop_end) : Prop :=
  match e with
  | DntopGo np name =>
      np = start + length full /\ name = splice N start full /\ length full <= namesiz
  | DntopTooLong name =>
      exists w, name = splice N start w /\ length w <= namesiz /\ namesiz < S (length full)
  end.

(** The bytes of an escape are appended one after the other. *)
Ltac append :=
  repeat (rewrite wr_append by (rewrite ?length_app; simpl; lia); cbn [mbind cres_bind];
          rewrite <- ?app_assoc; cbn [app]).

Lemma dntop_label_run l m i t N start namesiz w :
  drop i m = l ++ t -> length w <= namesiz ->
  start + Nat.min namesiz (length (w ++ label_text l)) <= length N ->
  exists e, dntop_label (length l) m i (start + namesiz) (start + length w) (splice N start w) = Val e /\
    dntop_spec N start namesiz (w ++ label_text l) e.
Proof.
  revert i w. induction l as [|c l IH]; intros i w H Hw HN.
  { eexists. split; [done|]. simpl. by rewrite app_nil_r. }
  rewrite label_text_cons, app_assoc in HN |- *.
  assert (HT : namesiz <= length w + length (esc c) ->
    exists w', splice N start w = splice N start w' /\ length w' <= namesiz /\
      namesiz < S (length ((w ++ esc c) ++ label_text l))).
  { intros. exists w. rewrite !length_app. split_and!; [done|done|lia]. }
  assert (HL : length (w ++ esc c) <= length ((w ++ esc c) ++ label_text l))
    by (rewrite (length_app (w ++ esc c)); lia).
  cbn [length dntop_label]. rewrite (rd_drop _ _ _ _ H). cbn [mbind cres_bind].
  apply drop_next in H. specialize (IH (S i) (w ++ esc c) H).
  set (full := (w ++ esc c) ++ label_text l) in *. clearbody full.
  rewrite length_app, length_esc in HL, IH.
  rewrite length_esc in HT. unfold esc in *.
  destruct (dn_special (uchar c)); [|destruct (dn_decimal (uchar c))].
  - destruct (Nat.ltb_spec (start + namesiz) (start + length w + 2)).
    + eexists. split; [done|]. apply HT. lia.
    + append. rewrite chr_uchar, <- Nat.add_assoc. apply IH; [lia|exact HN].
  - destruct (Nat.leb_spec (start + namesiz) (start + length w + 4)).
    + eexists. split; [done|]. apply HT. lia.
    + append. rewrite <- Nat.add_assoc. apply IH; [lia|exact HN].
  - destruct (Nat.leb_spec (start + namesiz) (start + length w)).
    + eexists. split; [done|]. apply HT. lia.
    + append. rewrite chr_uchar, <- Nat.add_assoc. apply IH; [lia|exact HN].
Qed.

(** The dot, if any, that goes before a label. *)
Definition dot_of (w : str) : str := if length w =? 0 then [] else [chr 46].

Lemma dntop_dot_run N start namesiz w :
  length w <= namesiz ->
  start + Nat.min namesiz (length (w ++ dot_of w)) <= length N ->
  exists e, dntop_dot start (start + namesiz) (start + length w) (splice N start w) = Val e /\
    dntop_spec N start namesiz (w ++ dot_of w) e.
Proof.
  intros Hw. unfold dntop_dot, dot_of.
  destruct (Nat.eqb_spec (start + length w) start), (Nat.eqb_spec (length w) 0); try lia.
  - rewrite app_nil_r. intros _. by eexists.
  - rewrite length_app. simpl. intros HN.
    destruct (Nat.leb_spec (start + namesiz) (start + length w)).
    + eexists. split; [done|]. exists w. rewrite length_app. simpl. split_and!; [done|done|lia].
    + append. eexists. split; [done|]. simpl. rewrite length_app. simpl. split_and!; [lia|done|lia].
Qed.

Lemma dntop_too_long_mono N start namesiz full full' name :
  dntop_spec N start namesiz full (DntopTooLong name) -> length full <= length full' ->
  dntop_spec N start namesiz full' (DntopTooLong name).
Proof. intros (w & ? & ? & ?) ?. exists w. split_and!; [done|done|lia]. Qed.

Lemma dntop_run fuel m i ls t N start namesiz w :
  wf_labels ls -> length ls < fuel -> drop i m = encode ls ++ t -> length w <= namesiz ->
  start + Nat.min namesiz (length (w ++ text_from (length w) ls)) <= length N ->
  exists e, dntop_loop fuel m i start (start + namesiz) (start + length w) (splice N start w) = Val e /\
    dntop_spec N start namesiz (w ++ text_from (length w) ls) e.
Proof.
  intros Hw. revert fuel i w.
  induction Hw as [|l ls Hl Hls IH]; intros [|fuel] i w Hf H Hn HN; simpl in Hf; try lia.
  { cbn [dntop_loop]. rewrite (encode_stop _ _ _ H). eexists. split; [done|].
    unfold text_from. simpl. destruct (length w =? 0); by rewrite app_nil_r. }
  destruct (encode_head _ _ _ _ _ Hl H) as (Hr & Hz & Hto & Hb & Hd).
  cbn [dntop_loop]. rewrite Hr. cbn [mbind cres_bind]. rewrite Hz, Hto.
  rewrite text_from_cons in HN |- * by done. fold (dot_of w) in HN |- *.
  rewrite !app_assoc in HN |- *.
  assert (Hl1 : length ((w ++ dot_of w) ++ label_text l) <=
            length (((w ++ dot_of w) ++ label_text l) ++ dots_text ls))
    by (rewrite (length_app _ (dots_text ls)); lia).
  assert (Hl2 : length (w ++ dot_of w) <= length ((w ++ dot_of w) ++ label_text l))
    by (rewrite (length_app _ (label_text l)); lia).
  destruct (dntop_dot_run N start namesiz w) as ([np1 name1|name1] & -> & H1); [done|lia| |].
  2:{ eexists. split; [done|]. eapply dntop_too_long_mono; [exact H1|lia]. }
  cbn [mbind cres_bind]. destruct H1 as (-> & -> & H1).
  destruct (dntop_label_run l m (S i) _ N start namesiz _ Hb H1) as ([np2 name2|name2] & -> & H2); [lia| |].
  2:{ eexists. split; [done|]. eapply dntop_too_long_mono; [exact H2|lia]. }
  cbn [mbind cres_bind]. destruct H2 as (-> & -> & H2).
  replace (i + length l + 1) with (i + (1 + length l)) by lia.
  destruct (IH fuel _ _ ltac:(lia) Hd H2) as (e & He & Hs); rewrite text_from_pos in *;
    try (rewrite ?length_app; pose proof (label_text_len l); destruct Hl; lia); eauto.
Qed.

(** The text with its terminator when it fits, the exit otherwise; nothing is
    written outside the [namesiz] bytes, nor outside those the text needs. *)
Lemma dns_dntop_holds m i ls N start namesiz :
  wf_labels ls -> holds m i ls ->
  start + Nat.min namesiz (S (length (dn_text ls))) <= length N ->
  if S (length (dn_text ls)) <=? namesiz then
    dns_dntop m i N start namesiz =
      Val (Z.of_nat (S (length (dn_text ls))), splice N start (asciiz (dn_text ls)))
  else
    exists w, length w <= namesiz /\
      dns_dntop m i N start namesiz = Val (dntop_toolong namesiz, splice N start w).
Proof.
  intros Hw H HN. pose proof (holds_fuel _ _ _ Hw H) as Hf. destruct H as [t H].
  destruct (dntop_run _ _ _ _ _ N start namesiz [] Hw Hf H ltac:(simpl; lia)) as (e & He & Hs).
  { simpl. change (text_from 0 ls) with (dn_text ls). lia. }
  cbn [length app] in He, Hs. rewrite splice_nil, Nat.add_0_r in He.
  change (text_from 0 ls) with (dn_text ls) in Hs.
  unfold dns_dntop. rewrite He. cbn [mbind cres_bind].
  destruct e as [np name|name].
  - destruct Hs as (-> & -> & Hs).
    destruct (Nat.leb_spec (start + namesiz) (start + length (dn_text ls))),
      (Nat.leb_spec (S (length (dn_text ls))) namesiz); try lia.
    + by exists (dn_text ls).
    + append. simpl. do 2 f_equal. lia.
  - destruct Hs as (w & -> & Hwl & Hs).
    rewrite (proj2 (Nat.leb_gt _ _) Hs). by exists w.
Qed.

(** The text of a name that is read into a DN buffer fits [DNS_MAXNAME]. *)
Lemma dots_text_len ls :
  wf_labels ls ->
  length (dots_text ls) + 3 * length ls + 4 <= 4 * length (encode ls) /\
  length (encode ls) <= 64 * length ls + 1.
Proof.
  induction 1 as [|l ls Hl Hls IH]; [rewrite length_encode_nil; simpl; lia|].
  rewrite length_encode_cons, dots_text_cons. simpl. rewrite length_app.
  pose proof (label_text_len l). destruct Hl as [? Hl]. unfold DNS_MAXLABEL in Hl.
  pose proof (encode_pos ls). lia.
Qed.

Lemma dn_text_fits ls :
  wf_labels ls -> length (encode ls) <= S DNS_MAXDN -> S (length (dn_text ls)) <= DNS_MAXNAME.
Proof.
  intros Hw Hl. destruct (dots_text_len ls Hw) as [Hd He]. unfold DNS_MAXDN, DNS_MAXNAME in *.
  destruct ls as [|l ls]; [simpl; lia|]. rewrite dots_text_cons in Hd. simpl length in Hd, He |- *.
  rewrite length_app in *. lia.
Qed.
