(* ===== verification/DnsTextFacts.v ===== *)
(** * Names from text

    [dns_ptodn] computes the name a text denotes ([parse_name]) inside the
    buffer it is given, and reads back what [dns_dntop] wrote. *)

From S2P Require Import Prelude CMem DnsName DnsNameFacts.
Open Scope nat_scope.

(** The escape after a backslash: its value and how many characters it takes. *)
Definition esc1 (s : str) : option (Z * nat) :=
  match s with
  | [] => None
  | d1 :: s1 =>
      match digit d1 with
      | None => Some (uchar d1, 1)
      | Some a =>
          match s1 with
          | [] => Some (a, 1)
          | d2 :: s2 =>
              match digit d2 with
              | None => Some (a, 1)
              | Some b =>
                  match s2 with
                  | [] => Some ((a * 10 + b)%Z, 2)
                  | d3 :: _ =>
                      match digit d3 with
                      | None => Some ((a * 10 + b)%Z, 2)
                      | Some d =>
                          if (255 <? (a * 10 + b) * 10 + d)%Z then None
                          else Some (((a * 10 + b) * 10 + d)%Z, 3)
                      end
                  end
              end
          end
      end
  end.

(** The name made of the labels [ds], the label [w] read so far and the text
    [s] still to be read. *)
Definition rest_name (ds : list label) (s : str) (w : label) : option (list label * bool) :=
  '(ls, abs) ← (ts ← tokens s; name_loop ts w); Some (ds ++ ls, abs).

(** The bytes of the destination that can be used. *)
Definition room (dnsiz : nat) : nat := if DNS_MAXDN <=? dnsiz then DNS_MAXDN else dnsiz.

Lemma esc1_tokens s :
  tokens (chr 92 :: s) =
    match esc1 s with
    | None => None
    | Some (v, k) => cons (Chr (chr v)) <$> tokens (drop k s)
    end.
Proof.
  cbn [tokens]. rewrite uchar_chr. change (92 mod 256)%Z with 92%Z. cbn [Z.eqb negb].
  simpl. destruct s as [|d1 [|d2 [|d3 s]]]; try done; unfold esc1;
    repeat match goal with |- context [digit ?d] => destruct (digit d) end;
    cbn [drop]; rewrite ?chr_uchar; try done; by destruct (_ <? _)%Z.
Qed.

Lemma esc1_len s v k : esc1 s = Some (v, k) -> 1 <= k <= length s /\ (0 <= v < 256)%Z.
Proof.
  unfold esc1, digit, is_digit. intros H. pose proof (fun c => uchar_range c) as Hu.
  repeat (brk_in H; try discriminate); injection H as <- <-; bools; simpl; split; try lia;
    repeat match goal with |- context [uchar ?c] => pose proof (Hu c); generalize dependent (uchar c); intros end; lia.
Qed.

Lemma ptodn_escape_run m ne np s t :
  drop np m = s ++ t -> ne = np + length s ->
  ptodn_escape m ne np =
    Val (match esc1 s with Some (v, k) => Some (np + k, v) | None => None end).
Proof.
  intros H ->. unfold ptodn_escape, esc1, more_digit, digit.
  destruct s as [|d1 s1].
  { by rewrite Nat.add_0_r, Nat.eqb_refl. }
  rewrite (rd_drop _ _ _ _ H). apply drop_next in H. cbn [length mbind cres_bind].
  destruct (Nat.eqb_spec np (np + S (length s1))); [lia|].
  destruct (is_digit (uchar d1)) eqn:E1; [|by rewrite Nat.add_1_r].
  destruct s1 as [|d2 s2].
  { cbn [length]. by rewrite Nat.add_1_r, Nat.ltb_irrefl. }
  rewrite (rd_drop _ _ _ _ H). apply drop_next in H. cbn [length mbind cres_bind].
  destruct (Nat.ltb_spec (S np) (np + S (S (length s2)))); [|lia].
  destruct (is_digit (uchar d2)) eqn:E2; cbn [mbind cres_bind]; [|by rewrite Nat.add_1_r].
  destruct s2 as [|d3 s3].
  { cbn [length]. replace (np + 2) with (S (S np)) by lia. rewrite Nat.ltb_irrefl.
    cbn [mbind cres_bind]. do 3 f_equal. lia. }
  rewrite (rd_drop _ _ _ _ H). cbn [length mbind cres_bind].
  destruct (Nat.ltb_spec (S (S np)) (np + S (S (S (length s3))))); [|lia].
  destruct (is_digit (uchar d3)) eqn:E3; cbn [mbind cres_bind].
  - replace ((uchar d1 - 48) * 10 + uchar d2 - 48)%Z with ((uchar d1 - 48) * 10 + (uchar d2 - 48))%Z by lia.
    set (x := ((uchar d1 - 48) * 10 + (uchar d2 - 48))%Z).
    replace (x * 10 + uchar d3 - 48)%Z with (x * 10 + (uchar d3 - 48))%Z by lia.
    destruct (255 <? _)%Z; [done|]. do 3 f_equal. lia.
  - do 3 f_equal; lia.
Qed.

(** ** How the denoted name is read off the text *)

Lemma rest_dot ds s w :
  rest_name ds (chr 46 :: s) w =
    if (length w =? 0) || (DNS_MAXLABEL <? length w) then None
    else rest_name (ds ++ [w]) s [].
Proof.
  unfold rest_name. cbn [tokens]. rewrite uchar_chr. change (46 mod 256 =? 46)%Z with true.
  cbn iota. destruct (tokens s) as [ts|]; simpl; [|by destruct (_ || _)].
  destruct (_ || _); [done|]. destruct (name_loop ts []) as [[ls abs]|]; [|done].
  simpl. by rewrite <- app_assoc.
Qed.

Lemma rest_char ds c s w :
  uchar c <> 46%Z -> uchar c <> 92%Z -> rest_name ds (c :: s) w = rest_name ds s (w ++ [c]).
Proof.
  intros H1 H2. unfold rest_name. cbn [tokens].
  rewrite (proj2 (Z.eqb_neq _ _) H1), (proj2 (Z.eqb_neq _ _) H2). simpl.
  by destruct (tokens s).
Qed.

Lemma rest_escape ds s w :
  rest_name ds (chr 92 :: s) w =
    match esc1 s with
    | None => None
    | Some (v, k) => rest_name ds (drop k s) (w ++ [chr v])
    end.
Proof.
  unfold rest_name. rewrite esc1_tokens. destruct (esc1 s) as [[v k]|]; [|done].
  by destruct (tokens (drop k s)).
Qed.

Lemma name_loop_prefix ts w ls abs :
  name_loop ts w = Some (ls, abs) -> w <> [] -> length w + 2 <= length (encode ls).
Proof.
  revert w ls abs. induction ts as [|[|c] ts IH]; intros w ls abs; cbn [name_loop].
  - destruct (_ <? _); [done|]. destruct w; [done|]. intros [= <- <-] _.
    rewrite length_encode_cons, length_encode_nil. simpl. lia.
  - destruct (_ || _); [done|]. destruct (name_loop ts []) as [[ls' abs']|]; [|done].
    intros [= <- <-] _. rewrite length_encode_cons. pose proof (encode_pos ls'). lia.
  - intros H _. apply IH in H; [|by destruct w]. rewrite length_app in H. simpl in H. lia.
Qed.

Lemma length_encode_app ds ls :
  length (encode (ds ++ ls)) = length (put_labels ds) + length (encode ls).
Proof.
  Transparent encode. unfold encode. Opaque encode.
  rewrite put_labels_app, !length_app. simpl. lia.
Qed.

Lemma rest_name_long ds s w c ls abs :
  rest_name ds s (w ++ [c]) = Some (ls, abs) ->
  length (put_labels ds) + length w + 3 <= length (encode ls).
Proof.
  unfold rest_name. destruct (tokens s) as [ts|]; [|done]. simpl.
  destruct (name_loop ts (w ++ [c])) as [[ls' abs']|] eqn:E; [|done]. simpl.
  intros [= <- <-]. apply name_loop_prefix in E; [|by destruct w].
  rewrite length_encode_app. rewrite length_app in E. simpl in E. lia.
Qed.

Lemma name_loop_wf ts w ls abs : name_loop ts w = Some (ls, abs) -> wf_labels ls.
Proof.
  revert w ls abs. induction ts as [|[|c] ts IH]; intros w ls abs; cbn [name_loop].
  - destruct (Nat.ltb_spec DNS_MAXLABEL (length w)); [done|].
    destruct (Nat.eqb_spec (length w) 0); intros [= <- <-]; [constructor|].
    constructor; [split; lia|constructor].
  - destruct (Nat.eqb_spec (length w) 0); [done|].
    destruct (Nat.ltb_spec DNS_MAXLABEL (length w)); [done|]. simpl.
    destruct (name_loop ts []) as [[ls' abs']|] eqn:E; [|done]. intros [= <- <-].
    constructor; [split; lia|exact (IH _ _ _ E)].
  - apply IH.
Qed.

Lemma parse_name_wf s ls abs : parse_name s = Some (ls, abs) -> wf_labels ls.
Proof.
  assert (H : (ts ← tokens s; name_loop ts []) = Some (ls, abs) -> wf_labels ls).
  { destruct (tokens s) as [ts|]; [apply name_loop_wf|done]. }
  destruct s as [|c [|c' s]]; cbn [parse_name]; try exact H.
  destruct (uchar c =? 46)%Z; [|exact H]. intros [= <- <-]. constructor.
Qed.

(** ** The loop of [dns_ptodn] *)

(** The buffer while a label is read: the labels before it, a byte [g] for its
    length and its bytes [w], within the room [N]. *)
Record ptodn_state (D : str) (off N : nat) (ds : list label) (w : label)
    (dp llab : nat) (dn : str) : Prop := {
  ps_labels : wf_labels ds;
  ps_bytes : exists g, dn = splice D off (put_labels ds ++ g :: w);
  ps_dp : dp = off + (length (put_labels ds) + 1 + length w);
  ps_llab : llab = off + (length (put_labels ds) + 1);
  ps_room : length (put_labels ds) + 1 + length w <= N;
  ps_last : w <> [] -> length (put_labels ds) + 1 + length w < N;
  ps_buffer : off + N <= length D }.

(** How the loop ends: [full] is the name the text denotes. *)
Definition ptodn_post (D : str) (off N : nat) (full : option (list label * bool))
    (e : ptodn_end) : Prop :=
  match e with
  | PtodnReturn r dn =>
      (r <= 0)%Z /\ (exists x, length x <= N /\ dn = splice D off x) /\
      forall ls abs, full = Some (ls, abs) -> N < length (encode ls)
  | PtodnLeave dp llab dn =>
      exists ds w, ptodn_state D off N ds w dp llab dn /\ full = rest_name ds [] w
  end.

Lemma ptodn_refuse D off N ds w dp llab dn r full :
  ptodn_state D off N ds w dp llab dn -> (r <= 0)%Z ->
  (forall ls abs, full = Some (ls, abs) -> N < length (encode ls)) ->
  ptodn_post D off N full (PtodnReturn r dn).
Proof.
  intros [_ [g ->] _ _ Hr _ _] H1 H2. split; [done|]. split; [|done].
  eexists. split; [|done]. rewrite length_app. simpl. lia.
Qed.

Lemma put_labels_snoc ds w : put_labels (ds ++ [w]) = put_labels ds ++ put_label w.
Proof. rewrite put_labels_app. unfold put_labels at 2. simpl. by rewrite app_nil_r. Qed.

(** The length byte of the label is filled in. *)
Lemma ptodn_close D off N ds w dp llab dn :
  ptodn_state D off N ds w dp llab dn ->
  wr dn (llab - 1) (Z.of_nat (length w)) = Val (splice D off (put_labels (ds ++ [w]))).
Proof.
  intros [Hw [g ->] -> -> Hr Hl Hb].
  assert (Hlen : off + length (put_labels ds ++ g :: w) <= length D)
    by (rewrite length_app; simpl; lia).
  rewrite wr_in by (rewrite length_splice; lia).
  rewrite splice_over by (done || lia). by rewrite put_labels_snoc.
Qed.

(** A separator: the label is closed and the next one starts. *)
Lemma ptodn_state_dot D off N ds w dp llab dn :
  ptodn_state D off N ds w dp llab dn -> wf_label w ->
  ptodn_state D off N (ds ++ [w]) [] (S dp) (S dp) (splice D off (put_labels (ds ++ [w]))).
Proof.
  intros [Hw [g ->] -> -> Hr Hl Hb] Hlab.
  assert (Hne : w <> []) by (intros ->; unfold wf_label in Hlab; simpl in Hlab; lia).
  specialize (Hl Hne).
  assert (Hlen : length (put_labels (ds ++ [w])) = length (put_labels ds) + 1 + length w)
    by (rewrite put_labels_snoc, length_app; simpl; lia).
  destruct (splice_next D off (put_labels (ds ++ [w])) (off + length (put_labels (ds ++ [w]))))
    as [g' Hg']; [done|lia|].
  constructor; rewrite ?Hlen; simpl; try lia; try done.
  - apply Forall_app. split; [done|]. by constructor.
  - by exists g'.
Qed.

(** One more byte of the label. *)
Lemma ptodn_state_byte D off N ds w dp llab dn v :
  ptodn_state D off N ds w dp llab dn -> dp < off + N - 1 ->
  exists dn', wr dn dp v = Val dn' /\ ptodn_state D off N ds (w ++ [chr v]) (S dp) llab dn'.
Proof.
  intros [Hw [g ->] -> -> Hr Hl Hb] Hdp.
  rewrite wr_append by (rewrite length_app; simpl; lia).
  eexists. split; [done|]. rewrite <- app_assoc. simpl.
  constructor; rewrite ?length_app; simpl; try lia; try done. by exists g.
Qed.

Lemma ptodn_run fuel m name ne dnsiz D off N ds w s t np dp llab dn :
  length s < fuel -> drop np m = s ++ t -> ne = np + length s -> name <= np ->
  (np = name -> s <> [chr 46]) ->
  1 <= N -> ptodn_state D off N ds w dp llab dn ->
  exists e, ptodn_loop fuel m name ne dnsiz (off + N - 1) np dp llab dn = Val e /\
    ptodn_post D off N (rest_name ds s w) e.
Proof.
  revert ds w s np dp llab dn.
  induction fuel as [|fuel IH]; intros ds w s np dp llab dn Hf H -> Hnp Hroot HN HS; [lia|].
  cbn [ptodn_loop]. destruct s as [|c s].
  { simpl length. rewrite Nat.add_0_r, Nat.ltb_irrefl. eexists. split; [done|]. by exists ds, w. }
  rewrite (proj2 (Nat.ltb_lt np (np + length (c :: s)))) by (simpl; lia). cbn [negb].
  rewrite (rd_drop _ _ _ _ H). cbn [mbind cres_bind]. apply drop_next in H.
  change (drop (S np) m = s ++ t) in H. simpl length in *. pose proof HS as [_ _ Hdp Hllab _ _ _].
  replace (dp - llab) with (length w) by lia.
  destruct (Z.eqb_spec (uchar c) 46) as [Ec|Ec].
  { assert (c = chr 46) as -> by (by rewrite <- (chr_uchar c), Ec).
    rewrite rest_dot. destruct (Nat.eqb_spec (length w) 0) as [E0|E0].
    - destruct (Nat.eqb_spec np name) as [->|]; cbn [andb].
      + destruct (Nat.eqb_spec (name + 1) (name + S (length s))).
        { exfalso. apply Hroot; [done|]. by destruct s; [|simpl in *; lia]. }
        eexists. split; [done|]. by eapply ptodn_refuse.
      + eexists. split; [done|]. by eapply ptodn_refuse.
    - cbn [orb]. destruct (Nat.ltb_spec DNS_MAXLABEL (length w)).
      + eexists. split; [done|]. by eapply ptodn_refuse.
      + rewrite (ptodn_close _ _ _ _ _ _ _ _ HS). cbn [mbind cres_bind].
        apply IH with (s := s); try lia; try done. eapply ptodn_state_dot; [|split; lia].
        exact HS. }
  assert (Hlong : forall v s', off + N - 1 <= dp -> forall ls abs,
    rest_name ds s' (w ++ [v]) = Some (ls, abs) -> N < length (encode ls)).
  { intros v s' Hdp' ls abs Hr. apply rest_name_long in Hr. lia. }
  destruct (Z.eqb_spec (uchar c) 92) as [E92|E92].
  - assert (c = chr 92) as -> by (by rewrite <- (chr_uchar c), E92).
    rewrite rest_escape.
    destruct (Nat.leb_spec (off + N - 1) dp).
    { eexists. split; [done|]. eapply ptodn_refuse; [exact HS|unfold too_big; by destruct (_ <=? _)|].
      destruct (esc1 s) as [[v k]|]; [by apply Hlong|done]. }
    cbn [negb]. rewrite (ptodn_escape_run _ _ _ _ _ H) by lia. cbn [mbind cres_bind].
    destruct (esc1 s) as [[v k]|] eqn:Ee.
    + apply esc1_len in Ee as [Hk _].
      destruct (ptodn_state_byte _ _ _ _ _ _ _ _ v HS) as (dn' & -> & HS'); [done|]. cbn [mbind cres_bind].
      apply IH with (s := drop k s); try done; rewrite ?length_drop; try lia.
      rewrite <- (drop_drop _ k (S np)), H, drop_app_le by lia. done.
    + eexists. split; [done|]. by eapply ptodn_refuse.
  - rewrite rest_char by done. cbn [negb].
    destruct (Nat.leb_spec (off + N - 1) dp).
    { eexists. split; [done|]. eapply ptodn_refuse; [exact HS|unfold too_big; by destruct (_ <=? _)|].
      by apply Hlong. }
    destruct (ptodn_state_byte _ _ _ _ _ _ _ _ (uchar c) HS) as (dn' & -> & HS'); [done|]. cbn [mbind cres_bind].
    rewrite chr_uchar in HS'. apply IH with (s := s); try done; lia.
Qed.

(** ** [dns_ptodn] *)

(** The text passed to [dns_ptodn]: [namelen] bytes, or up to the NUL. *)
Definition text_at (m : str) (name namelen : nat) (s : str) : Prop :=
  exists t, drop name m = s ++ t /\
    (if namelen =? 0 then c_strlen m name = Val (length s) else namelen = length s).

Lemma text_at_asciiz s : Forall (fun c => uchar c <> 0%Z) s -> text_at (asciiz s) 0 0 s.
Proof.
  intros Hs. exists [chr 0]. split; [done|]. simpl.
  by apply (strlen_asciiz s [] 0 (asciiz s)).
Qed.

(** The function fails, having written only where it may. *)
Definition ptodn_fails (D : str) (off N : nat) (out : cres (Z * option bool * str)) : Prop :=
  exists r x, out = Val (r, None, splice D off x) /\ (r <= 0)%Z /\ length x <= N.

Definition ptodn_spec (D : str) (off N : nat) (full : option (list label * bool))
    (out : cres (Z * option bool * str)) : Prop :=
  match full with
  | Some (ls, abs) =>
      if length (encode ls) <=? N
      then out = Val (Z.of_nat (length (encode ls)), Some abs, splice D off (encode ls))
      else ptodn_fails D off N out
  | None => ptodn_fails D off N out
  end.

Lemma ptodn_state_init D off N :
  1 <= N -> off + N <= length D -> ptodn_state D off N [] [] (S off) (S off) D.
Proof.
  intros HN HD. destruct (splice_next D off [] off) as [g Hg]; [simpl; lia|lia|].
  rewrite splice_nil in Hg. constructor; simpl; try lia; try done; [constructor|by exists g].
Qed.

Lemma encode_snoc ds w : encode (ds ++ [w]) = put_labels (ds ++ [w]) ++ [chr 0].
Proof. Transparent encode. done. Opaque encode. Qed.

Lemma encode_put ds : encode ds = put_labels ds ++ [chr 0].
Proof. Transparent encode. done. Opaque encode. Qed.

(** The code after the loop. *)
Definition ptodn_tail (off : nat) (e : ptodn_end) : cres (Z * option bool * str) :=
  match e with
  | PtodnReturn r dn => Val (r, None, dn)
  | PtodnLeave dp llab dn =>
      let c := dp - llab in
      if DNS_MAXLABEL <? c then Val ((-1)%Z, None, dn)
      else
        dn ← wr dn (llab - 1) (Z.of_nat c);
        if negb (c =? 0) then
          dn ← wr dn dp 0;
          Val (Z.of_nat (S dp - off), Some false, dn)
        else Val (Z.of_nat (dp - off), Some true, dn)
  end.

Lemma ptodn_tail_run D off N full e :
  ptodn_post D off N full e -> ptodn_spec D off N full (ptodn_tail off e).
Proof.
  destruct e as [r dn|dp llab dn]; simpl.
  { intros (Hr & (x & Hx & ->) & Hlong). unfold ptodn_spec.
    destruct full as [[ls abs]|]; [|by exists r, x].
    rewrite (proj2 (Nat.leb_gt _ _) (Hlong _ _ eq_refl)). by exists r, x. }
  intros (ds & w & HS & ->). pose proof HS as [Hw [g Hg] Hdp Hllab Hr Hl Hb].
  replace (dp - llab) with (length w) by lia. unfold rest_name. simpl.
  destruct (DNS_MAXLABEL <? length w); simpl.
  { eexists _, _. split_and!; [by rewrite Hg|done|]. rewrite length_app. simpl. lia. }
  rewrite (ptodn_close _ _ _ _ _ _ _ _ HS). simpl.
  destruct (Nat.eqb_spec (length w) 0) as [E|E]; simpl.
  - destruct w; [|done]. rewrite app_nil_r, encode_put, length_app. simpl.
    rewrite (proj2 (Nat.leb_le _ _)) by (simpl in *; lia).
    rewrite put_labels_snoc. simpl in *. do 3 f_equal. lia.
  - assert (Hlen : length (put_labels (ds ++ [w])) = length (put_labels ds) + 1 + length w)
      by (rewrite put_labels_snoc, length_app; simpl; lia).
    assert (w <> []) as Hne by (by intros ->).
    specialize (Hl Hne). rewrite wr_append by lia. simpl.
    rewrite encode_put, length_app. simpl. rewrite (proj2 (Nat.leb_le _ _)) by lia.
    do 3 f_equal. lia.
Qed.

Lemma parse_name_rest s : s <> [chr 46] -> parse_name s = rest_name [] s [].
Proof.
  intros Hs. unfold rest_name.
  assert (E : (ts ← tokens s; name_loop ts []) = parse_name s).
  { destruct s as [|c [|c' s]]; [done| |done]. unfold parse_name.
    destruct (Z.eqb_spec (uchar c) 46) as [Ec|]; [|done].
    by rewrite <- (chr_uchar c), Ec in Hs. }
  rewrite E. by destruct (parse_name s) as [[ls abs]|].
Qed.

Lemma dns_ptodn_holds m name namelen s D off dnsiz :
  text_at m name namelen s -> dnsiz <> 0 -> off + room dnsiz <= length D ->
  ptodn_spec D off (room dnsiz) (parse_name s) (dns_ptodn m name namelen D off dnsiz).
Proof.
  intros (t & H & Hn) Hz HD. unfold dns_ptodn.
  replace (if namelen =? 0 then c_strlen m name else Val namelen) with (Val (length s))
    by (destruct (namelen =? 0); by rewrite Hn).
  cbn [mbind cres_bind]. rewrite (proj2 (Nat.eqb_neq _ _) Hz).
  fold (room dnsiz). assert (HN : 1 <= room dnsiz) by (unfold room, DNS_MAXDN; brk; bools; lia).
  pose proof (ptodn_state_init D off (room dnsiz) HN HD) as HS.
  assert (Hloop : exists e, ptodn_loop (S (length s)) m name (name + length s) dnsiz
            (off + room dnsiz - 1) name (S off) (S off) D = Val e /\
            ptodn_post D off (room dnsiz) (parse_name s) e).
  { destruct (decide (s = [chr 46])) as [->|Hs].
    - cbn [ptodn_loop length]. rewrite (proj2 (Nat.ltb_lt _ _)) by lia. cbn [negb].
      rewrite (rd_drop _ _ _ _ H). cbn [mbind cres_bind]. rewrite Nat.sub_diag, !Nat.eqb_refl.
      eexists. split; [done|]. by exists [], [].
    - rewrite parse_name_rest by done.
      by apply (ptodn_run _ _ _ _ _ _ _ _ _ _ _ _ _ _ _ _ (Nat.lt_succ_diag_r _) H). }
  destruct Hloop as (e & -> & He). cbn [mbind cres_bind].
  exact (ptodn_tail_run _ _ _ _ _ He).
Qed.

(** ** The text of a name denotes the name *)

Lemma digit_chr d : (0 <= d < 10)%Z -> digit (chr (48 + d)) = Some d.
Proof.
  intros H. unfold digit, is_digit. rewrite uchar_chr, Z.mod_small by lia.
  rewrite (proj2 (Z.leb_le _ _)), (proj2 (Z.leb_le _ _)) by lia. simpl. f_equal. lia.
Qed.

Lemma esc1_decimal c s :
  esc1 (chr (48 + uchar c / 100) :: chr (48 + uchar c mod 100 / 10) ::
        chr (48 + uchar c mod 10) :: s) = Some (uchar c, 3).
Proof.
  pose proof (uchar_range c) as Hc. unfold esc1.
  rewrite !digit_chr by (Z.to_euclidean_division_equations; lia).
  replace ((uchar c / 100 * 10 + uchar c mod 100 / 10) * 10 + uchar c mod 10)%Z with (uchar c)
    by (Z.to_euclidean_division_equations; lia).
  by rewrite (proj2 (Z.ltb_ge 255 (uchar c))) by lia.
Qed.

Lemma rest_esc ds c s w : rest_name ds (esc c ++ s) w = rest_name ds s (w ++ [c]).
Proof.
  unfold esc. destruct (dn_special (uchar c)) eqn:Es; [|destruct (dn_decimal (uchar c)) eqn:Ed].
  - cbn [app]. rewrite rest_escape. unfold esc1, digit.
    replace (is_digit (uchar c)) with false; [by rewrite chr_uchar|].
    unfold dn_special, is_digit in *. symmetry. apply andb_false_iff.
    repeat (apply orb_true_iff in Es as [Es|Es]); bools; lia.
  - cbn [app]. rewrite rest_escape, esc1_decimal. by rewrite chr_uchar.
  - cbn [app]. unfold dn_special in Es. repeat (apply orb_false_iff in Es as [Es ?]). bools.
    by apply rest_char.
Qed.

Lemma rest_label ds l s w : rest_name ds (label_text l ++ s) w = rest_name ds s (w ++ l).
Proof.
  revert w. induction l as [|c l IH]; intros w; [by rewrite app_nil_r|].
  rewrite label_text_cons, <- app_assoc, rest_esc, IH. by rewrite <- app_assoc.
Qed.

Lemma rest_dots ds ls w :
  wf_labels ls -> wf_label w -> rest_name ds (dots_text ls) w = Some (ds ++ w :: ls, false).
Proof.
  intros Hls. revert ds w. induction Hls as [|l ls Hl Hls IH]; intros ds w Hw.
  - unfold rest_name. simpl. destruct Hw.
    rewrite (proj2 (Nat.ltb_ge _ _)), (proj2 (Nat.eqb_neq _ _)) by lia. done.
  - rewrite dots_text_cons, rest_dot.
    rewrite (proj2 (Nat.eqb_neq _ _)), (proj2 (Nat.ltb_ge _ _)) by (destruct Hw; lia).
    cbn [orb]. rewrite rest_label, IH by done. by rewrite <- app_assoc.
Qed.

Lemma esc_head c s : exists x t, esc c ++ s = x :: t /\ uchar x <> 46%Z.
Proof.
  unfold esc. destruct (dn_special (uchar c)) eqn:Es; [|destruct (dn_decimal (uchar c))].
  1,2: eexists _, _; split; [done|]; by rewrite uchar_chr.
  eexists _, _. split; [done|]. intros E. unfold dn_special in Es. by rewrite E in Es.
Qed.

Lemma parse_dn_text ls :
  wf_labels ls -> parse_name (dn_text ls) = Some (ls, bool_decide (ls = [])).
Proof.
  intros [|l ls' Hl Hls]; [done|]. rewrite parse_name_rest.
  { rewrite dn_text_cons, rest_label. by rewrite rest_dots. }
  rewrite dn_text_cons. destruct l as [|c l]; [destruct Hl; simpl in *; lia|].
  rewrite label_text_cons, <- app_assoc. destruct (esc_head c (label_text l ++ dots_text ls'))
    as (x & t & -> & Hx).
  intros [= -> _]. apply Hx. by rewrite uchar_chr.
Qed.

Lemma chr_nonzero z : (0 < z < 256)%Z -> uchar (chr z) <> 0%Z.
Proof. intros. rewrite uchar_chr, Z.mod_small; lia. Qed.

Lemma esc_nonzero c : Forall (fun c => uchar c <> 0%Z) (esc c).
Proof.
  pose proof (uchar_range c) as Hc. unfold esc.
  destruct (dn_special (uchar c)) eqn:Es; [|destruct (dn_decimal (uchar c)) eqn:Ed].
  - repeat constructor; [by apply chr_nonzero|]. intros E. by rewrite E in Es.
  - repeat constructor; apply chr_nonzero; Z.to_euclidean_division_equations; lia.
  - unfold dn_decimal in Ed. bools. repeat constructor. lia.
Qed.

Lemma dn_text_nonzero ls : Forall (fun c => uchar c <> 0%Z) (dn_text ls).
Proof.
  assert (Hl : forall l, Forall (fun c => uchar c <> 0%Z) (label_text l)).
  { intros l. induction l as [|c l IH]; [constructor|]. rewrite label_text_cons.
    apply Forall_app. split; [apply esc_nonzero|done]. }
  assert (Hd : Forall (fun c => uchar c <> 0%Z) (dots_text (tail ls))).
  { induction (tail ls) as [|l ls' IH]; [constructor|]. rewrite dots_text_cons. constructor.
    - by apply chr_nonzero.
    - apply Forall_app. by split. }
  destruct ls as [|l ls]; [constructor|]. rewrite dn_text_cons. apply Forall_app. by split.
Qed.
