(* ===== verification/DnsParse.v ===== *)
(** * Parsing DNS replies

    src/src/udns/udns_parse.c (names with compression, the iteration over the
    answers, the common part of every result) and the record parsers
    udns_rr_a.c, udns_rr_mx.c, udns_rr_srv.c, udns_rr_ptr.c, udns_rr_naptr.c
    and udns_rr_txt.c.

    A pointer into the packet is an offset.  The result of a record parser is
    one block from [malloc]: a structure, an array of records and the bytes
    their pointers refer to.  The model keeps the structure and the array as
    values and the bytes as a buffer [blk]; the pointers of the records are
    offsets in it.  Writing past the array or past the bytes is a [Fault]. *)

From S2P Require Import Prelude CMem DnsName.
Open Scope nat_scope.

Definition DNS_HSIZE : nat := 12.

Definition DNS_C_IN : Z := 1.
Definition DNS_C_ANY : Z := 255.
Definition DNS_T_A : Z := 1.
Definition DNS_T_CNAME : Z := 5.
Definition DNS_T_PTR : Z := 12.
Definition DNS_T_MX : Z := 15.
Definition DNS_T_TXT : Z := 16.
Definition DNS_T_AAAA : Z := 28.
Definition DNS_T_SRV : Z := 33.
Definition DNS_T_NAPTR : Z := 35.
Definition DNS_T_ANY : Z := 255.

Definition DNS_E_PROTOCOL : Z := -2.
Definition DNS_E_NODATA : Z := -4.
Definition DNS_E_NOMEM : Z := -5.

(** ** Packet fields *)

Definition dns_get16 (m : str) (s : nat) : cres Z :=
  a ← rd m s;
  b ← rd m (s + 1);
  Val (Z.lor (Z.shiftl a 8) b).

Definition dns_get32 (m : str) (s : nat) : cres Z :=
  a ← rd m s;
  b ← rd m (s + 1);
  c ← rd m (s + 2);
  d ← rd m (s + 3);
  Val (Z.lor (Z.lor (Z.lor (Z.shiftl a 24) (Z.shiftl b 16)) (Z.shiftl c 8)) d).

Definition dns_numan (pkt : str) : cres Z := dns_get16 pkt 6.
Definition dns_payload : nat := DNS_HSIZE.

(** ** Names in a packet *)

(** [None] for a null pointer. *)
Fixpoint skipdn_loop (fuel : nat) (pkt : str) (cur en : nat) : cres (option nat) :=
  match fuel with
  | O => Endless
  | S fuel =>
      if en <=? cur then Val None
      else
        c ← rd pkt cur;
        let cur := S cur in
        if (c =? 0)%Z then Val (Some cur)
        else if negb (Z.land c 192 =? 0)%Z then
          Val (if en <=? cur + 1 then None else Some (cur + 1))
        else skipdn_loop fuel pkt (cur + Z.to_nat c) en
  end.

Definition dns_skipdn (pkt : str) (cur en : nat) : cres (option nat) :=
  skipdn_loop (S en) pkt cur en.

(** The [for] loop of [dns_getdn]: [pp] reads the packet, [dp] fills the buffer
    [dn] from [off], [jump] is the position after the first jump, [loop] the
    jump counter.  The result, [*cur] ([None] where it is not set) and the
    buffer. *)
Fixpoint getdn_loop (fuel : nat) (pkt : str) (en : nat) (off dnsiz de : nat)
    (pp dp : nat) (jump : option nat) (loop : nat) (dn : str)
  : cres (Z * option nat * str) :=
  match fuel with
  | O => Endless
  | S fuel =>
      let noroom := if dnsiz <? DNS_MAXDN then 0%Z else (-1)%Z in
      if en <=? pp then Val ((-1)%Z, None, dn)
      else
        c ← rd pkt pp;
        let pp := S pp in
        if (c =? 0)%Z then
          if de <=? off then Val (noroom, None, dn)
          else
            dn ← wr dn dp 0;
            Val (Z.of_nat (S dp - off),
                 Some (match jump with Some j => j | None => pp end), dn)
        else if negb (Z.land c 192 =? 0)%Z then
          if en <=? pp then Val ((-1)%Z, None, dn)
          else
            let '(jump, loop) :=
              match jump with
              | None => (S pp, loop)
              | Some j => (j, loop - 1)
              end in
            if loop =? 0 then Val ((-1)%Z, None, dn)
            else
              b ← rd pkt pp;
              let c := Z.lor (Z.shiftl (Z.land c 63) 8) b in
              if (c <? Z.of_nat DNS_HSIZE)%Z then Val ((-1)%Z, None, dn)
              else getdn_loop fuel pkt en off dnsiz de (Z.to_nat c) dp (Some jump) loop dn
        else if (Z.of_nat DNS_MAXLABEL <? c)%Z then Val ((-1)%Z, None, dn)
        else
          let n := Z.to_nat c in
          if en <? pp + n then Val ((-1)%Z, None, dn)
          else if de <? dp + n + 1 then Val (noroom, None, dn)
          else
            dn ← wr dn dp c;
            s ← rdn pkt pp n;
            dn ← wrn dn (dp + 1) s;
            getdn_loop fuel pkt en off dnsiz de (pp + n) (dp + 1 + n) jump loop dn
  end.

(** At most 100 jumps, and labels of at least two bytes each in at most
    [DNS_MAXDN] bytes. *)
Definition getdn_fuel : nat := 101 + DNS_MAXDN.

(** The result, [*cur] afterwards, and the buffer. *)
Definition dns_getdn (pkt : str) (cur en : nat) (dn : str) (off dnsiz : nat)
  : cres (Z * nat * str) :=
  let de := off + (if dnsiz <? DNS_MAXDN then dnsiz else DNS_MAXDN) in
  '(r, nx, dn) ← getdn_loop getdn_fuel pkt en off dnsiz de cur off None 100 dn;
  Val (r, match nx with Some c => c | None => cur end, dn).

(** ** The answers of a reply *)

(** Where a query name is: nowhere, in the packet, in the caller's buffer, or in
    [dnsp_dnbuf]. *)
Inductive dnptr :=
| PNull
| PPkt (i : nat)
| PDn (m : str)
| PBuf.

Record dns_parse := mkParse {
  dnsp_pkt : str;
  dnsp_end : nat;
  dnsp_cur : nat;
  dnsp_ans : nat;
  dnsp_rrl : nat;
  dnsp_nrr : nat;
  dnsp_ttl : Z;
  dnsp_qdn : dnptr;
  dnsp_qcls : Z;
  dnsp_qtyp : Z;
  dnsp_dnbuf : str }.

#[export] Instance dns_parse_eta : Settable dns_parse := fun p =>
  mkParse (dnsp_pkt p) (dnsp_end p) (dnsp_cur p) (dnsp_ans p) (dnsp_rrl p) (dnsp_nrr p)
    (dnsp_ttl p) (dnsp_qdn p) (dnsp_qcls p) (dnsp_qtyp p) (dnsp_dnbuf p).

Record dns_rr := mkRr {
  dnsrr_dn : str;
  dnsrr_cls : Z;
  dnsrr_typ : Z;
  dnsrr_ttl : Z;
  dnsrr_dsz : Z;
  dnsrr_dptr : nat;
  dnsrr_dend : nat }.

#[export] Instance dns_rr_eta : Settable dns_rr := fun r =>
  mkRr (dnsrr_dn r) (dnsrr_cls r) (dnsrr_typ r) (dnsrr_ttl r) (dnsrr_dsz r)
    (dnsrr_dptr r) (dnsrr_dend r).

(** The bytes a name pointer refers to. *)
Definition dn_at (p : dns_parse) (q : dnptr) : cres (str * nat) :=
  match q with
  | PNull => Fault
  | PPkt i => Val (dnsp_pkt p, i)
  | PDn m => Val (m, 0)
  | PBuf => Val (dnsp_dnbuf p, 0)
  end.

Definition is_null (q : dnptr) : bool := match q with PNull => true | _ => false end.

(** [q == dns_payload(pkt)]. *)
Definition is_payload (q : dnptr) : bool :=
  match q with PPkt i => i =? dns_payload | _ => false end.

Definition dns_rewind (p : dns_parse) (qdn : dnptr) : cres dns_parse :=
  n ← dns_numan (dnsp_pkt p);
  Val (p <| dnsp_qdn := qdn |> <| dnsp_cur := dnsp_ans p |> <| dnsp_rrl := Z.to_nat n |>
         <| dnsp_ttl := 4294967295%Z |> <| dnsp_nrr := 0 |>).

(** [buf]: the bytes [dnsp_dnbuf] happens to hold. *)
Definition dns_initparse (buf : str) (qdn : dnptr) (pkt : str) (cur en : nat) : cres dns_parse :=
  n ← dns_numan pkt;
  if negb (cur + 4 <=? en) then Abort
  else
    typ ← dns_get16 pkt cur;
    cls ← dns_get16 pkt (cur + 2);
    Val (mkParse pkt en (cur + 4) (cur + 4) (Z.to_nat n) 0 4294967295 qdn
           (if (cls =? DNS_C_ANY)%Z then 0 else cls)%Z
           (if (typ =? DNS_T_ANY)%Z then 0 else typ)%Z buf).

(** [p->dnsp_qdn && !dns_dnequal(p->dnsp_qdn, rr->dnsrr_dn)]. *)
Definition other_name (p : dns_parse) (rr : dns_rr) : cres bool :=
  if is_null (dnsp_qdn p) then Val false
  else
    '(m, i) ← dn_at p (dnsp_qdn p);
    n ← dns_dnequal m i (dnsrr_dn rr) 0;
    Val (n =? 0).

(** The TTL seen so far. *)
Definition min_ttl (p : dns_parse) (rr : dns_rr) : dns_parse :=
  if (dnsrr_ttl rr <? dnsp_ttl p)%Z then p <| dnsp_ttl := dnsrr_ttl rr |> else p.

Definition type_matches (p : dns_parse) (rr : dns_rr) : bool :=
  ((dnsp_qcls p =? 0) || (dnsp_qcls p =? dnsrr_cls rr))%Z &&
  ((dnsp_qtyp p =? 0) || (dnsp_qtyp p =? dnsrr_typ rr))%Z.

(** The [while] loop of [dns_nextrr] with [n] records left. *)
Fixpoint nextrr_loop (n : nat) (p : dns_parse) (rr : dns_rr) (cur : nat)
  : cres (Z * dns_parse * dns_rr) :=
  match n with
  | O => Val (0%Z, p <| dnsp_cur := cur |>, rr)
  | S n =>
      let p := p <| dnsp_rrl := n |> in
      let pkt := dnsp_pkt p in
      '(r, cur, dn) ← dns_getdn pkt cur (dnsp_end p) (dnsrr_dn rr) 0 DNS_MAXDN;
      let rr := rr <| dnsrr_dn := dn |> in
      if (r <=? 0)%Z then Val ((-1)%Z, p, rr)
      else if dnsp_end p <? cur + 10 then Val ((-1)%Z, p, rr)
      else
        typ ← dns_get16 pkt cur;
        cls ← dns_get16 pkt (cur + 2);
        ttl ← dns_get32 pkt (cur + 4);
        dsz ← dns_get16 pkt (cur + 8);
        let dend := cur + 10 + Z.to_nat dsz in
        let rr := mkRr (dnsrr_dn rr) cls typ ttl dsz (cur + 10) dend in
        let cur := dend in
        if dnsp_end p <? cur then Val ((-1)%Z, p, rr)
        else
          other ← other_name p rr;
          if other : bool then nextrr_loop n p rr cur
          else if type_matches p rr then
            Val (1%Z, min_ttl (p <| dnsp_cur := cur |> <| dnsp_nrr := S (dnsp_nrr p) |>) rr, rr)
          else if negb (is_null (dnsp_qdn p)) && (typ =? DNS_T_CNAME)%Z && (dnsp_nrr p =? 0) then
            '(r, dptr, dnbuf) ←
              dns_getdn pkt (dnsrr_dptr rr) (dnsp_end p) (dnsp_dnbuf p) 0 DNS_MAXDN;
            let p := p <| dnsp_dnbuf := dnbuf |> in
            let rr := rr <| dnsrr_dptr := dptr |> in
            if (r <=? 0)%Z || negb (dptr =? dnsrr_dend rr) then Val ((-1)%Z, p, rr)
            else nextrr_loop n (min_ttl (p <| dnsp_qdn := PBuf |>) rr) rr cur
          else nextrr_loop n p rr cur
  end.

Definition dns_nextrr (p : dns_parse) (rr : dns_rr) : cres (Z * dns_parse * dns_rr) :=
  nextrr_loop (dnsp_rrl p) p rr (dnsp_cur p).

(** [while (cond(r = dns_nextrr(&p, &rr))) body]: the body may return from the
    function ([inl]).  The records left bound the number of rounds. *)
Fixpoint rr_loop {T : Type} (fuel : nat) (cond : Z -> bool)
    (body : dns_parse -> dns_rr -> T -> cres (Z + T))
    (p : dns_parse) (rr : dns_rr) (s : T) : cres (Z + (Z * dns_parse * dns_rr * T)) :=
  match fuel with
  | O => Endless
  | S fuel =>
      '(r, p, rr) ← dns_nextrr p rr;
      if cond r then
        x ← body p rr s;
        match x with
        | inl e => Val (inl e)
        | inr s => rr_loop fuel cond body p rr s
        end
      else Val (inr (r, p, rr, s))
  end.

Definition found (r : Z) : bool := (0 <? r)%Z.      (* [dns_nextrr(...) > 0] *)
Definition nonzero (r : Z) : bool := negb (r =? 0)%Z.  (* [dns_nextrr(...)] *)

(** ** The common part of the results *)

(** [struct dns_rr_null]: the names are offsets in the block's bytes. *)
Record dns_rr_null := mkStd {
  dnsn_cname : nat;
  dnsn_qname : nat;
  dnsn_ttl : Z }.

Definition dns_stdrr_size (p : dns_parse) : cres nat :=
  '(m, i) ← dn_at p (dnsp_qdn p);
  a ← dns_dntop_size m i;
  if is_payload (dnsp_qdn p) then Val a
  else b ← dns_dntop_size (dnsp_pkt p) dns_payload; Val (a + b).

Definition dns_stdrr_finish (blk : str) (cp : nat) (p : dns_parse) : cres (dns_rr_null * str) :=
  '(m, i) ← dn_at p (dnsp_qdn p);
  let cname := cp in
  '(r, blk) ← dns_dntop m i blk cp DNS_MAXNAME;
  cp ← advance cp r;
  if is_payload (dnsp_qdn p) then Val (mkStd cname cname (dnsp_ttl p), blk)
  else
    '(_, blk) ← dns_dntop (dnsp_pkt p) dns_payload blk cp DNS_MAXNAME;
    Val (mkStd cname cp (dnsp_ttl p), blk).

(** A result: the common part, the records and the bytes. *)
Record result (R : Type) := mkResult {
  res_std : dns_rr_null;
  res_nrr : nat;
  res_records : list R;
  res_block : str }.
Arguments mkResult {_} _ _ _ _.
Arguments res_std {_} _.
Arguments res_nrr {_} _.
Arguments res_records {_} _.
Arguments res_block {_} _.

(** Writing the [r]-th of the [nrr] records of the array. *)
Definition put_record {R} (nrr r : nat) (rs : list R) (x : R) : cres (list R) :=
  if r <? nrr then Val (rs ++ [x]) else Fault.

Record dns_mx := mkMx { mx_priority : Z; mx_name : nat }.
Record dns_srv := mkSrv {
  srv_priority : Z; srv_weight : Z; srv_port : Z; srv_name : nat }.
Record dns_naptr := mkNaptr {
  naptr_order : Z; naptr_preference : Z;
  naptr_flags : nat; naptr_service : nat; naptr_regexp : nat; naptr_replacement : nat }.
Record dns_txt := mkTxt { txt_len : nat; txt_txt : nat }.

(** Sizes of the structures on a 64-bit target. *)
Definition sizeof_rr : nat := 32.
Definition sizeof_mx : nat := 16.
Definition sizeof_srv : nat := 24.
Definition sizeof_naptr : nat := 40.
Definition sizeof_txt : nat := 16.
Definition sizeof_ptr : nat := 8.

Section Parsers.

(** [malloc] of that many bytes, with what the block holds; [None] when memory
    is short. *)
Variable malloc : nat -> option str.

(** What the [k]-th local buffer of a parser holds before it is written. *)
Variable stack : nat -> str.

Definition fresh_rr : dns_rr := mkRr (stack 1) 0 0 0 0 0 0.

(** The block for a structure, an array of [array] bytes and [l] more bytes:
    those [l] bytes. *)
Definition alloc (array l : nat) : option str :=
  drop (sizeof_rr + array) <$> malloc (sizeof_rr + array + l).

(** [assert(dns_get16(cur+2) == DNS_C_IN && dns_get16(cur+0) == typ)]. *)
Definition assert_query (pkt : str) (cur : nat) (typ : Z) : cres unit :=
  cls ← dns_get16 pkt (cur + 2);
  if negb (cls =? DNS_C_IN)%Z then Abort
  else t ← dns_get16 pkt cur; if (t =? typ)%Z then Val tt else Abort.

(** What the parsers have in common: a first loop that validates the answers and
    counts the bytes ([count], from [s0]), the allocation of an array of records
    of [size] bytes each and of [need] bytes and the names, and a second loop
    over the same answers that fills them in ([fill], from [init]); [out] is what
    it leaves: the records, the next free byte and the bytes. *)
Definition parse_records {S1 S2 R : Type}
    (s0 : S1) (count : dns_parse -> dns_rr -> S1 -> cres (Z + S1))
    (size : nat) (need : nat -> S1 -> nat)
    (cond : Z -> bool) (init : S1 -> str -> S2)
    (fill : nat -> dns_parse -> dns_rr -> S2 -> cres (Z + S2))
    (out : dns_parse -> S2 -> list R * nat * str)
    (qdn : dnptr) (pkt : str) (cur en : nat) : cres (Z + result R) :=
  p ← dns_initparse (stack 0) qdn pkt cur en;
  x ← rr_loop (S (dnsp_rrl p)) found count p fresh_rr s0;
  match x with
  | inl e => Val (inl e)
  | inr (r, p, rr, s1) =>
      if (r <? 0)%Z then Val (inl DNS_E_PROTOCOL)
      else if dnsp_nrr p =? 0 then Val (inl DNS_E_NODATA)
      else
        n ← dns_stdrr_size p;
        let nrr := dnsp_nrr p in
        match alloc (size * nrr) (need nrr s1 + n) with
        | None => Val (inl DNS_E_NOMEM)
        | Some blk =>
            p ← dns_rewind p qdn;
            y ← rr_loop (S (dnsp_rrl p)) cond (fill nrr) p rr (init s1 blk);
            match y with
            | inl e => Val (inl e)
            | inr (_, p, _, s2) =>
                let '(rs, sp, blk) := out p s2 in
                '(std, blk) ← dns_stdrr_finish blk sp p;
                Val (inr (mkResult std nrr rs blk))
            end
        end
  end.

(** *** Addresses *)

Definition count_a (dsize : nat) (_ : dns_parse) (rr : dns_rr) (_ : unit) : cres (Z + unit) :=
  Val (if negb (dnsrr_dsz rr =? Z.of_nat dsize)%Z then inl DNS_E_PROTOCOL else inr tt).

Definition fill_a (dsize : nat) (pkt : str) (_ : nat)
    (_ : dns_parse) (rr : dns_rr) (s : nat * str) : cres (Z + (nat * str)) :=
  let '(r, blk) := s in
  a ← rdn pkt (dnsrr_dptr rr) dsize;
  blk ← wrn blk (dsize * r) a;
  Val (inr (S r, blk)).

(** The addresses are the first bytes of the block. *)
Definition dns_parse_a (qdn : dnptr) (pkt : str) (cur en dsize : nat)
  : cres (Z + result unit) :=
  parse_records tt (count_a dsize) 0 (fun nrr _ => dsize * nrr)
    nonzero (fun _ blk => (0, blk)) (fill_a dsize pkt)
    (fun p '(_, blk) => ([], dsize * dnsp_nrr p, blk)) qdn pkt cur en.

Definition dns_parse_a4 (qdn : dnptr) (pkt : str) (cur en : nat) : cres (Z + result unit) :=
  _ ← assert_query pkt cur DNS_T_A;
  dns_parse_a qdn pkt cur en 4.

Definition dns_parse_a6 (qdn : dnptr) (pkt : str) (cur en : nat) : cres (Z + result unit) :=
  _ ← assert_query pkt cur DNS_T_AAAA;
  dns_parse_a qdn pkt cur en 16.

(** *** MX, SRV and PTR: fixed fields and a name

    The first loop of the three parsers: [skip] bytes of fields, then a name
    that must end the record.  The state is the length so far and the name
    buffer. *)
Definition count_name (skip : nat) (pkt : str) (en : nat)
    (_ : dns_parse) (rr : dns_rr) (s : nat * str) : cres (Z + (nat * str)) :=
  let '(l, dn) := s in
  '(r, cur, dn) ← dns_getdn pkt (dnsrr_dptr rr + skip) en dn 0 DNS_MAXDN;
  if (r <=? 0)%Z || negb (cur =? dnsrr_dend rr) then Val (inl DNS_E_PROTOCOL)
  else n ← dns_dntop_size dn 0; Val (inr (l + n, dn)).

(** The state of the second loop: the index, the records, the next free byte,
    the block, the name buffer. *)
Definition fill_state (R : Type) : Type := nat * list R * nat * str * str.

Definition fill_mx (nrr : nat) (pkt : str) (en : nat)
    (_ : dns_parse) (rr : dns_rr) (s : fill_state dns_mx) : cres (Z + fill_state dns_mx) :=
  let '(r, rs, sp, blk, dn) := s in
  let name := sp in
  let cur := dnsrr_dptr rr in
  priority ← dns_get16 pkt cur;
  rs ← put_record nrr r rs (mkMx priority name);
  '(_, _, dn) ← dns_getdn pkt (cur + 2) en dn 0 DNS_MAXDN;
  '(k, blk) ← dns_dntop dn 0 blk sp DNS_MAXNAME;
  sp ← advance sp k;
  Val (inr (S r, rs, sp, blk, dn)).

Definition fill_srv (nrr : nat) (pkt : str) (en : nat)
    (_ : dns_parse) (rr : dns_rr) (s : fill_state dns_srv) : cres (Z + fill_state dns_srv) :=
  let '(r, rs, sp, blk, dn) := s in
  let name := sp in
  let cur := dnsrr_dptr rr in
  priority ← dns_get16 pkt cur;
  weight ← dns_get16 pkt (cur + 2);
  port ← dns_get16 pkt (cur + 4);
  rs ← put_record nrr r rs (mkSrv priority weight port name);
  '(_, _, dn) ← dns_getdn pkt (cur + 6) en dn 0 DNS_MAXDN;
  '(k, blk) ← dns_dntop dn 0 blk sp DNS_MAXNAME;
  sp ← advance sp k;
  Val (inr (S r, rs, sp, blk, dn)).

Definition fill_ptr (nrr : nat) (pkt : str) (en : nat)
    (_ : dns_parse) (rr : dns_rr) (s : fill_state nat) : cres (Z + fill_state nat) :=
  let '(r, rs, sp, blk, dn) := s in
  rs ← put_record nrr r rs sp;
  '(_, _, dn) ← dns_getdn pkt (dnsrr_dptr rr) en dn 0 DNS_MAXDN;
  '(k, blk) ← dns_dntop dn 0 blk sp DNS_MAXNAME;
  sp ← advance sp k;
  Val (inr (S r, rs, sp, blk, dn)).

(** The parsers of records with a name: the first loop counts the bytes of the
    texts. *)
Definition parse_named {R} (cond : Z -> bool) (size : nat)
    (count : str -> nat -> dns_parse -> dns_rr -> nat * str -> cres (Z + (nat * str)))
    (fill : nat -> str -> nat -> dns_parse -> dns_rr -> fill_state R -> cres (Z + fill_state R))
    (qdn : dnptr) (pkt : str) (cur en : nat) : cres (Z + result R) :=
  parse_records (0, stack 2) (count pkt en) size (fun _ '(l, _) => l)
    cond (fun '(_, dn) blk => (0, [], 0, blk, dn)) (fun nrr => fill nrr pkt en)
    (fun _ '(_, rs, sp, blk, _) => (rs, sp, blk)) qdn pkt cur en.

Definition dns_parse_mx (qdn : dnptr) (pkt : str) (cur en : nat) : cres (Z + result dns_mx) :=
  _ ← assert_query pkt cur DNS_T_MX;
  parse_named nonzero sizeof_mx (count_name 2) fill_mx qdn pkt cur en.

Definition dns_parse_srv (qdn : dnptr) (pkt : str) (cur en : nat) : cres (Z + result dns_srv) :=
  _ ← assert_query pkt cur DNS_T_SRV;
  parse_named nonzero sizeof_srv (count_name 6) fill_srv qdn pkt cur en.

(** The counter [c] of [dns_parse_ptr] counts the records [dns_nextrr] counts
    in [dnsp_nrr]. *)
Definition dns_parse_ptr (qdn : dnptr) (pkt : str) (cur en : nat) : cres (Z + result nat) :=
  _ ← assert_query pkt cur DNS_T_PTR;
  parse_named found sizeof_ptr (count_name 0) fill_ptr qdn pkt cur en.

(** *** NAPTR *)

(** [dns_getstr]: the result, [*cur] afterwards and the buffer; [None] is a null
    [buf]. *)
Definition dns_getstr (pkt : str) (cur ep : nat) (buf : option (str * nat))
  : cres (Z * nat * option str) :=
  l ← rd pkt cur;
  let cp := S cur in
  let n := Z.to_nat l in
  if ep <? cp + n then Val (DNS_E_PROTOCOL, cur, fst <$> buf)
  else
    match buf with
    | None => Val ((l + 1)%Z, cp + n, None)
    | Some (b, sp) =>
        s ← rdn pkt cp n;
        b ← wrn b sp s;
        b ← wr b (sp + n) 0;
        Val ((l + 1)%Z, cp + n, Some b)
    end.

(** [for (i = 0; i < 3; i++)] of the first loop. *)
Fixpoint count_strings (i : nat) (pkt : str) (ep cur l : nat) : cres (Z + (nat * nat)) :=
  match i with
  | O => Val (inr (cur, l))
  | S i =>
      '(r, cur, _) ← dns_getstr pkt cur ep None;
      if (r <? 0)%Z then Val (inl r) else count_strings i pkt ep cur (l + Z.to_nat r)
  end.

Definition count_naptr (pkt : str) (en : nat)
    (_ : dns_parse) (rr : dns_rr) (s : nat * str) : cres (Z + (nat * str)) :=
  let '(l, dn) := s in
  x ← count_strings 3 pkt (dnsrr_dend rr) (dnsrr_dptr rr + 4) l;
  match x with
  | inl e => Val (inl e)
  | inr (cur, l) =>
      '(r, cur, dn) ← dns_getdn pkt cur en dn 0 DNS_MAXDN;
      if (r <=? 0)%Z || negb (cur =? dnsrr_dend rr) then Val (inl DNS_E_PROTOCOL)
      else n ← dns_dntop_size dn 0; Val (inr (l + n, dn))
  end.

(** [sp += dns_getstr(&cur, end, sp)]. *)
Definition fill_string (pkt : str) (en cur sp : nat) (blk : str) : cres (nat * nat * str) :=
  '(r, cur, b) ← dns_getstr pkt cur en (Some (blk, sp));
  sp ← advance sp r;
  Val (cur, sp, match b with Some b => b | None => blk end).

Definition fill_naptr (nrr : nat) (pkt : str) (en : nat)
    (_ : dns_parse) (rr : dns_rr) (s : fill_state dns_naptr) : cres (Z + fill_state dns_naptr) :=
  let '(r, rs, sp, blk, dn) := s in
  let cur := dnsrr_dptr rr in
  order ← dns_get16 pkt cur;
  preference ← dns_get16 pkt (cur + 2);
  let flags := sp in
  '(cur, sp, blk) ← fill_string pkt en (cur + 4) sp blk;
  let service := sp in
  '(cur, sp, blk) ← fill_string pkt en cur sp blk;
  let regexp := sp in
  '(cur, sp, blk) ← fill_string pkt en cur sp blk;
  rs ← put_record nrr r rs (mkNaptr order preference flags service regexp sp);
  '(_, _, dn) ← dns_getdn pkt cur en dn 0 DNS_MAXDN;
  '(k, blk) ← dns_dntop dn 0 blk sp DNS_MAXNAME;
  sp ← advance sp k;
  Val (inr (S r, rs, sp, blk, dn)).

Definition dns_parse_naptr (qdn : dnptr) (pkt : str) (cur en : nat)
  : cres (Z + result dns_naptr) :=
  _ ← assert_query pkt cur DNS_T_NAPTR;
  parse_named nonzero sizeof_naptr count_naptr fill_naptr qdn pkt cur en.

(** *** TXT *)

(** [while (cp < ep)] of the first loop: the lengths of the strings added up. *)
Fixpoint count_texts (fuel : nat) (pkt : str) (cp ep l : nat) : cres (Z + nat) :=
  match fuel with
  | O => Endless
  | S fuel =>
      if negb (cp <? ep) then Val (inr l)
      else
        r ← rd pkt cp;
        let cp := S cp in
        if ep <? cp + Z.to_nat r then Val (inl DNS_E_PROTOCOL)
        else count_texts fuel pkt (cp + Z.to_nat r) ep (l + Z.to_nat r)
  end.

(** The same of the second loop: the strings copied one after the other. *)
Fixpoint fill_texts (fuel : nat) (pkt : str) (cp ep sp : nat) (blk : str) : cres (nat * str) :=
  match fuel with
  | O => Endless
  | S fuel =>
      if negb (cp <? ep) then Val (sp, blk)
      else
        l ← rd pkt cp;
        let cp := S cp in
        s ← rdn pkt cp (Z.to_nat l);
        blk ← wrn blk sp s;
        fill_texts fuel pkt (cp + Z.to_nat l) ep (sp + Z.to_nat l) blk
  end.

Definition count_txt (pkt : str) (_ : dns_parse) (rr : dns_rr) (l : nat) : cres (Z + nat) :=
  count_texts (S (dnsrr_dend rr)) pkt (dnsrr_dptr rr) (dnsrr_dend rr) l.

Definition fill_txt (nrr : nat) (pkt : str) (_ : dns_parse) (rr : dns_rr)
    (s : nat * list dns_txt * nat * str) : cres (Z + (nat * list dns_txt * nat * str)) :=
  let '(r, rs, sp, blk) := s in
  let txt := sp in
  '(sp, blk) ← fill_texts (S (dnsrr_dend rr)) pkt (dnsrr_dptr rr) (dnsrr_dend rr) sp blk;
  rs ← put_record nrr r rs (mkTxt (sp - txt) txt);
  blk ← wr blk sp 0;
  Val (inr (S r, rs, S sp, blk)).

Definition dns_parse_txt (qdn : dnptr) (pkt : str) (cur en : nat) : cres (Z + result dns_txt) :=
  t ← dns_get16 pkt cur;
  if negb (t =? DNS_T_TXT)%Z then Abort
  else
    parse_records 0 (count_txt pkt) sizeof_txt (fun nrr l => l + nrr)
      found (fun _ blk => (0, [], 0, blk)) (fun nrr => fill_txt nrr pkt)
      (fun _ '(_, rs, sp, blk) => (rs, sp, blk)) qdn pkt cur en.

End Parsers.
