(* ===== verification/DnsParseFacts.v ===== *)
(** * What the reply parser reads

    [read_name] is the name at a position of a packet, compression pointers
    followed; [dns_getdn] computes it inside its buffer, with one exception: a
    name of one byte more than the buffer holds.  [answers] are the records that
    answer a query; [dns_nextrr] enumerates them. *)

From S2P Require Import Prelude CMem DnsName DnsNameFacts DnsTextFacts DnsParse.
Open Scope nat_scope.

(** ** Specification of names in a packet *)

Definition byte_at (pkt : str) (i : nat) : Z :=
  match pkt !! i with Some c => uchar c | None => 0%Z end.

Definition be16 (pkt : str) (i : nat) : Z := (byte_at pkt i * 256 + byte_at pkt (i + 1))%Z.
Definition be32 (pkt : str) (i : nat) : Z := (be16 pkt i * 65536 + be16 pkt (i + 2))%Z.

(** The target of the compression pointer at [i]. *)
Definition target (pkt : str) (i : nat) : nat :=
  Z.to_nat (byte_at pkt i mod 64 * 256 + byte_at pkt (i + 1)).

(** The labels of the name at [pos] and the position after it, following at most
    [hops] pointers; pointers into the header are refused. *)
Fixpoint read_name (fuel : nat) (pkt : str) (en pos hops : nat) : option (list label * nat) :=
  match fuel with
  | O => None
  | S fuel =>
      if en <=? pos then None
      else
        let c := byte_at pkt pos in
        if (c =? 0)%Z then Some ([], S pos)
        else if (64 <=? c)%Z then
          if (en <=? S pos) || (hops =? 0) || (target pkt pos <? DNS_HSIZE) then None
          else '(ls, _) ← read_name fuel pkt en (target pkt pos) (hops - 1); Some (ls, S (S pos))
        else
          let n := Z.to_nat c in
          if en <? S pos + n then None
          else '(ls, nx) ← read_name fuel pkt en (S pos + n) hops;
               Some (take n (drop (S pos) pkt) :: ls, nx)
  end.

Definition name_at (pkt : str) (en pos : nat) : option (list label * nat) :=
  read_name getdn_fuel pkt en pos 100.

(** ** Bytes *)

Lemma byte_range pkt i : (0 <= byte_at pkt i < 256)%Z.
Proof. unfold byte_at. destruct (pkt !! i); [apply uchar_range|lia]. Qed.

Lemma rd_byte pkt i : i < length pkt -> rd pkt i = Val (byte_at pkt i).
Proof. intros H. destruct (rd_in pkt i H) as (c & Hc & ->). unfold byte_at. by rewrite Hc. Qed.

Lemma lor_byte a b : (0 <= b < 256)%Z -> Z.lor (Z.shiftl a 8) b = (a * 256 + b)%Z.
Proof.
  intros Hb. assert (Z.land (Z.shiftl a 8) b = 0)%Z as Hz.
  { apply Z.bits_inj'. intros n Hn. rewrite Z.land_spec, Z.bits_0.
    destruct (Z.ltb_spec n 8).
    - by rewrite Z.shiftl_spec_low.
    - rewrite (Z.bits_above_log2 b n), andb_false_r; try lia.
      destruct (Z.eq_dec b 0) as [->|]; [simpl; lia|].
      assert (Z.log2 b < 8)%Z; [apply Z.log2_lt_pow2; lia|lia]. }
  rewrite <- (Z.lxor_lor _ _ Hz), <- (Z.add_nocarry_lxor _ _ Hz), Z.shiftl_mul_pow2 by lia.
  done.
Qed.

Lemma dns_get16_run pkt i : i + 2 <= length pkt -> dns_get16 pkt i = Val (be16 pkt i).
Proof.
  intros H. unfold dns_get16. rewrite !rd_byte by lia. simpl.
  by rewrite lor_byte by apply byte_range.
Qed.

Lemma lor_shift a b k : (0 <= k)%Z -> Z.lor (Z.shiftl a (8 + k)) (Z.shiftl b k) = Z.shiftl (Z.lor (Z.shiftl a 8) b) k.
Proof. intros. by rewrite Z.shiftl_lor, Z.shiftl_shiftl by lia. Qed.

Lemma dns_get32_run pkt i : i + 4 <= length pkt -> dns_get32 pkt i = Val (be32 pkt i).
Proof.
  intros H. unfold dns_get32, be32, be16. rewrite !rd_byte by lia. simpl.
  replace (i + 2 + 1) with (i + 3) by lia.
  pose proof (byte_range pkt (i + 1)). pose proof (byte_range pkt (i + 2)). pose proof (byte_range pkt (i + 3)).
  set (a := byte_at pkt i). set (b := byte_at pkt (i + 1)) in *.
  set (c := byte_at pkt (i + 2)) in *. set (d := byte_at pkt (i + 3)) in *.
  change (Z.shiftl a 24) with (Z.shiftl a (8 + 16)). rewrite (lor_shift a b 16), lor_byte by lia.
  change (Z.shiftl (a * 256 + b) 16) with (Z.shiftl (a * 256 + b) (8 + 8)).
  rewrite (lor_shift (a * 256 + b) c 8), !lor_byte by lia. f_equal. lia.
Qed.

Lemma be16_range pkt i : (0 <= be16 pkt i < 65536)%Z.
Proof. unfold be16. pose proof (byte_range pkt i). pose proof (byte_range pkt (i + 1)). lia. Qed.

(** The two top bits of a length byte. *)
Lemma pointer_bits c : (0 <= c < 256)%Z -> negb (Z.land c 192 =? 0)%Z = (64 <=? c)%Z.
Proof.
  intros H. rewrite <- (Z.mod_small c 256 H), <- uchar_chr.
  apply (ascii_pred_ext (fun c => negb (Z.land (uchar c) 192 =? 0)%Z)
           (fun c => (64 <=? uchar c)%Z)).
  vm_compute. done.
Qed.

Lemma pointer_target c b :
  (0 <= c < 256)%Z -> (0 <= b < 256)%Z ->
  Z.lor (Z.shiftl (Z.land c 63) 8) b = (c mod 64 * 256 + b)%Z.
Proof.
  intros Hc Hb. rewrite lor_byte by done. change 63%Z with (Z.ones 6).
  by rewrite Z.land_ones by lia.
Qed.

(** ** [dns_getdn] *)

Lemma read_name_wf fuel pkt en pos hops ls nx :
  en <= length pkt -> read_name fuel pkt en pos hops = Some (ls, nx) -> wf_labels ls.
Proof.
  intros Hen. revert pos hops ls nx. induction fuel as [|fuel IH]; intros pos hops ls nx; [done|].
  cbn [read_name]. destruct (Nat.leb_spec en pos); [done|].
  pose proof (byte_range pkt pos) as Hb.
  destruct (Z.eqb_spec (byte_at pkt pos) 0); [intros [= <- <-]; constructor|].
  destruct (Z.leb_spec 64 (byte_at pkt pos)).
  - destruct (_ || _); [done|].
    destruct (read_name fuel pkt en _ _) as [[ls' nx']|] eqn:E; [|done].
    intros [= <- <-]. exact (IH _ _ _ _ E).
  - destruct (Nat.ltb_spec en (S pos + Z.to_nat (byte_at pkt pos))); [done|].
    destruct (read_name fuel pkt en _ _) as [[ls' nx']|] eqn:E; [|done].
    intros [= <- <-]. constructor; [|exact (IH _ _ _ _ E)].
    unfold wf_label, DNS_MAXLABEL. rewrite length_take, length_drop. lia.
Qed.

(** A call that fails has written only where it may and returns no length. *)
Definition getdn_fails (D : str) (off N : nat) (out : cres (Z * option nat * str)) : Prop :=
  exists r x, out = Val (r, None, splice D off x) /\ (r <= 0)%Z /\ length x <= N.

(** The name [ls], of which [ds] are written already, in a room of [N] bytes.  The
    terminator of a name of [N + 1] bytes is written right behind the room. *)
Definition getdn_spec (D : str) (off N : nat) (ds : list label)
    (full : option (list label * nat)) (out : cres (Z * option nat * str)) : Prop :=
  match full with
  | Some (ls, nx) =>
      let n := length (put_labels ds) + length (encode ls) in
      if n <=? S N then
        out = if off + n <=? length D
              then Val (Z.of_nat n, Some nx, splice D off (put_labels ds ++ encode ls))
              else Fault
      else getdn_fails D off N out
  | None => getdn_fails D off N out
  end.

(** What the caller finds in [*cur]: the position after the first pointer. *)
Definition resume (jump : option nat) (full : option (list label * nat)) : option (list label * nat) :=
  match jump, full with
  | Some j, Some (ls, _) => Some (ls, j)
  | _, _ => full
  end.

(** Pointers that may still be followed. *)
Definition hops_left (jump : option nat) (loop : nat) : nat :=
  match jump with None => loop | Some _ => loop - 1 end.

Lemma getdn_refuse D off N ds full r :
  length (put_labels ds) <= N -> (r <= 0)%Z ->
  (forall ls nx, full = Some (ls, nx) -> S N < length (put_labels ds) + length (encode ls)) ->
  getdn_spec D off N ds full (Val (r, None, splice D off (put_labels ds))).
Proof.
  intros Hds Hr Hl.
  assert (Hf : getdn_fails D off N (Val (r, None, splice D off (put_labels ds))))
    by (by exists r, (put_labels ds)).
  unfold getdn_spec. destruct full as [[ls nx]|]; [|done]. specialize (Hl ls nx eq_refl).
  by rewrite (proj2 (Nat.leb_gt _ _)) by lia.
Qed.

(** A label moves from what is to be read to what is written. *)
Lemma getdn_spec_label D off N ds l full out :
  getdn_spec D off N (ds ++ [l]) full out ->
  getdn_spec D off N ds ('(ls, nx) ← full; Some (l :: ls, nx)) out.
Proof.
  unfold getdn_spec. destruct full as [[ls nx]|]; [|done]. simpl.
  rewrite length_encode_cons, put_labels_snoc, length_app. simpl.
  replace (length (put_labels ds) + S (length l) + length (encode ls))
    with (length (put_labels ds) + S (length l + length (encode ls))) by lia.
  replace ((put_labels ds ++ put_label l) ++ encode ls) with (put_labels ds ++ encode (l :: ls)); [done|].
  pose proof (encode_cons l ls []) as He. rewrite !app_nil_r in He. rewrite He.
  unfold put_label. by rewrite <- app_assoc.
Qed.

Lemma resume_bind jump l full :
  resume jump ('(ls, nx) ← full; Some (l :: ls, nx)) =
  ('(ls, nx) ← resume jump full; Some (l :: ls, nx)).
Proof. by destruct jump, full as [[]|]. Qed.

(** The label copied into the buffer. *)
Lemma copy_label D off N ds l :
  wf_label l -> off + N <= length D -> length (put_labels ds) + length l + 1 <= N ->
  (dn ← wr (splice D off (put_labels ds)) (off + length (put_labels ds)) (Z.of_nat (length l));
   wrn dn (off + length (put_labels ds) + 1) l) = Val (splice D off (put_labels (ds ++ [l]))).
Proof.
  intros Hl HD HN. rewrite wr_append by lia. cbn [mbind cres_bind].
  rewrite wrn_in by (rewrite length_splice; rewrite ?length_app; simpl; lia).
  rewrite splice_app by (rewrite ?length_app; simpl; lia).
  rewrite put_labels_snoc. by rewrite <- app_assoc.
Qed.

(** The jump counter and the position to resume at, after a pointer at [pp]. *)
Definition jump_to (jump : option nat) (pp : nat) : nat :=
  match jump with Some j => j | None => S (S pp) end.
Definition loop_to (jump : option nat) (loop : nat) : nat :=
  match jump with Some _ => loop - 1 | None => loop end.

Lemma jump_pair jump loop pp :
  match jump with Some j => (j, loop - 1) | None => (S (S pp), loop) end =
  (jump_to jump pp, loop_to jump loop).
Proof. by destruct jump. Qed.

Lemma loop_zero jump loop :
  1 <= loop -> (loop_to jump loop =? 0) = (hops_left jump loop =? 0).
Proof. destruct jump; simpl; [done|]. intros. by rewrite !(proj2 (Nat.eqb_neq _ _)) by lia. Qed.

Lemma hop jump loop j :
  hops_left jump loop <> 0 ->
  1 <= loop_to jump loop /\ hops_left (Some j) (loop_to jump loop) = hops_left jump loop - 1.
Proof. destruct jump; simpl; lia. Qed.

Lemma resume_jump jump pp full :
  resume jump ('(ls, _) ← full; Some (ls, S (S pp))) = resume (Some (jump_to jump pp)) full.
Proof. by destruct jump, full as [[]|]. Qed.

(** The pointer as the code computes it. *)
Lemma pointer_run pkt pp :
  S pp < length pkt ->
  exists z, (b ← rd pkt (S pp); Val (Z.lor (Z.shiftl (Z.land (byte_at pkt pp) 63) 8) b)) = Val z /\
    Z.to_nat z = target pkt pp /\ (z <? Z.of_nat DNS_HSIZE)%Z = (target pkt pp <? DNS_HSIZE).
Proof.
  intros H. rewrite rd_byte by done. cbn [mbind cres_bind]. eexists. split; [done|].
  rewrite pointer_target by apply byte_range. unfold target. rewrite Nat.add_1_r.
  pose proof (byte_range pkt (S pp)). pose proof (Z.mod_pos_bound (byte_at pkt pp) 64).
  split; [done|].
  destruct (Z.ltb_spec (byte_at pkt pp mod 64 * 256 + byte_at pkt (S pp)) (Z.of_nat DNS_HSIZE)),
    (Nat.ltb_spec (Z.to_nat (byte_at pkt pp mod 64 * 256 + byte_at pkt (S pp))) DNS_HSIZE); lia.
Qed.

(** One loop of [dns_getdn] against [read_name]. *)
Lemma getdn_run fuel pkt en off dnsiz D N ds pp jump loop :
  en <= length pkt -> 1 <= N -> off + N <= length D ->
  length (put_labels ds) <= N -> 1 <= loop ->
  N - length (put_labels ds) + hops_left jump loop < fuel ->
  getdn_spec D off N ds (resume jump (read_name fuel pkt en pp (hops_left jump loop)))
    (getdn_loop fuel pkt en off dnsiz (off + N) pp (off + length (put_labels ds)) jump loop
       (splice D off (put_labels ds))).
Proof.
  intros Hen HN HD. revert ds pp jump loop.
  induction fuel as [|fuel IH]; intros ds pp jump loop Hds Hloop Hfuel; [lia|].
  cbn [read_name getdn_loop]. set (noroom := if dnsiz <? DNS_MAXDN then 0%Z else (-1)%Z).
  assert (Hno : (noroom <= 0)%Z) by (unfold noroom; by destruct (_ <? _)).
  assert (Hnone : forall r, (r <= 0)%Z ->
    getdn_spec D off N ds (resume jump None) (Val (r, None, splice D off (put_labels ds)))).
  { intros r Hr. apply getdn_refuse; [done|done|]. by destruct jump. }
  destruct (Nat.leb_spec en pp); [by apply Hnone|].
  rewrite (rd_byte pkt pp) by lia. cbn [mbind cres_bind]. pose proof (byte_range pkt pp) as Hc.
  destruct (Z.eqb_spec (byte_at pkt pp) 0) as [E0|E0].
  { rewrite (proj2 (Nat.leb_gt (off + N) off)) by lia.
    assert (Hr : resume jump (Some ([], S pp)) =
                 Some ([], match jump with Some j => j | None => S pp end)) by (by destruct jump).
    rewrite Hr. unfold getdn_spec. rewrite length_encode_nil.
    rewrite (proj2 (Nat.leb_le _ _)) by lia.
    destruct (Nat.leb_spec (off + (length (put_labels ds) + 1)) (length D)).
    - rewrite wr_append by lia. cbn [mbind cres_bind]. do 3 f_equal. lia.
    - unfold wr. rewrite length_splice by lia. by rewrite (proj2 (Nat.ltb_ge _ _)) by lia. }
  rewrite pointer_bits by done. destruct (Z.leb_spec 64 (byte_at pkt pp)).
  { destruct (Nat.leb_spec en (S pp)); [by apply Hnone|]. rewrite jump_pair. cbn iota beta.
    rewrite (loop_zero jump loop Hloop). cbn [orb]. destruct (Nat.eqb_spec (hops_left jump loop) 0) as [|Hh]; [by apply Hnone|].
    cbn [orb]. destruct (pointer_run pkt pp ltac:(lia)) as (z & Hz & Ht & Hlt).
    rewrite rd_byte in Hz |- * by lia. cbn [mbind cres_bind] in Hz |- *. injection Hz as ->.
    rewrite Hlt, Ht. destruct (target pkt pp <? DNS_HSIZE); [by apply Hnone|].
    destruct (hop jump loop (jump_to jump pp) Hh) as [Hl' Hh']. rewrite resume_jump, <- Hh'.
    apply IH; lia. }
  rewrite (proj2 (Z.ltb_ge _ _)) by (unfold DNS_MAXLABEL; lia).
  set (n := Z.to_nat (byte_at pkt pp)) in *.
  destruct (Nat.ltb_spec en (S pp + n)); [by apply Hnone|].
  set (l := take n (drop (S pp) pkt)).
  assert (Hl : length l = n) by (unfold l; rewrite length_take, length_drop; lia).
  assert (Hwl : wf_label l) by (unfold wf_label, DNS_MAXLABEL; rewrite Hl; lia).
  rewrite resume_bind.
  destruct (Nat.ltb_spec (off + N) (off + length (put_labels ds) + n + 1)).
  { apply getdn_refuse; [done|done|]. intros ls nx.
    destruct (resume jump (read_name fuel pkt en (S pp + n) (hops_left jump loop)))
      as [[ls' nx']|]; simpl; [|discriminate]. intros [= <- <-].
    rewrite length_encode_cons. pose proof (encode_pos ls'). lia. }
  apply getdn_spec_label.
  replace (byte_at pkt pp) with (Z.of_nat (length l)) by lia.
  rewrite (wr_append D off) by lia. cbn [mbind cres_bind].
  rewrite rdn_in by lia. cbn [mbind cres_bind]. fold l.
  assert (Hcopy := copy_label D off N ds l Hwl HD ltac:(lia)).
  rewrite (wr_append D off) in Hcopy by lia. cbn [mbind cres_bind] in Hcopy.
  rewrite Hcopy. cbn [mbind cres_bind].
  assert (Hlen : length (put_labels (ds ++ [l])) = length (put_labels ds) + 1 + n)
    by (rewrite put_labels_snoc, length_app; simpl; lia).
  specialize (IH (ds ++ [l]) (S pp + n) jump loop).
  rewrite Hlen, !Nat.add_assoc in IH. apply IH; lia.
Qed.

Lemma read_name_next fuel pkt en pos hops ls nx :
  read_name fuel pkt en pos hops = Some (ls, nx) -> pos < nx <= en.
Proof.
  revert pos hops ls nx. induction fuel as [|fuel IH]; intros pos hops ls nx; [done|].
  cbn [read_name]. destruct (Nat.leb_spec en pos); [done|].
  destruct (byte_at pkt pos =? 0)%Z; [intros [= <- <-]; lia|].
  destruct (64 <=? byte_at pkt pos)%Z.
  - destruct (Nat.leb_spec en (S pos)); [done|]. destruct (_ || _); [done|].
    destruct (read_name fuel pkt en _ _) as [[ls' nx']|]; [|done]. intros [= <- <-]. lia.
  - destruct (Nat.ltb_spec en (S pos + Z.to_nat (byte_at pkt pos))); [done|].
    destruct (read_name fuel pkt en _ _) as [[ls' nx']|] eqn:E; [|done].
    intros [= <- <-]. apply IH in E. lia.
Qed.

(** The bytes of a buffer [dns_getdn] means to use. *)
Definition getdn_room (dnsiz : nat) : nat := if dnsiz <? DNS_MAXDN then dnsiz else DNS_MAXDN.

Definition getdn_refuses (D : str) (off N cur : nat) (out : cres (Z * nat * str)) : Prop :=
  exists r x, out = Val (r, cur, splice D off x) /\ (r <= 0)%Z /\ length x <= N.

(** The loop from the start of the function. *)
Lemma getdn_start fuel pkt en off dnsiz D N cur :
  en <= length pkt -> 1 <= N -> off + N <= length D -> N + 100 < fuel ->
  getdn_spec D off N [] (read_name fuel pkt en cur 100)
    (getdn_loop fuel pkt en off dnsiz (off + N) cur off None 100 D).
Proof.
  intros Hen HN HD Hf.
  pose proof (getdn_run fuel pkt en off dnsiz D N [] cur None 100 Hen HN HD) as H.
  change (put_labels []) with (@nil ascii) in H. cbn [length hops_left resume] in H.
  rewrite Nat.add_0_r, splice_nil in H. apply H; lia.
Qed.

Lemma getdn_fuel_ok N : N <= DNS_MAXDN -> N + 100 < getdn_fuel.
Proof. unfold getdn_fuel. lia. Qed.

#[global] Opaque getdn_fuel.

Lemma dns_getdn_holds pkt cur en D off dnsiz :
  en <= length pkt -> 1 <= dnsiz -> off + getdn_room dnsiz <= length D ->
  let out := dns_getdn pkt cur en D off dnsiz in
  match name_at pkt en cur with
  | Some (ls, nx) =>
      if length (encode ls) <=? S (getdn_room dnsiz) then
        out = if off + length (encode ls) <=? length D
              then Val (Z.of_nat (length (encode ls)), nx, splice D off (encode ls))
              else Fault
      else getdn_refuses D off (getdn_room dnsiz) cur out
  | None => getdn_refuses D off (getdn_room dnsiz) cur out
  end.
Proof.
  intros Hen Hd HD out. unfold out, dns_getdn, name_at. fold (getdn_room dnsiz).
  assert (HN : 1 <= getdn_room dnsiz <= DNS_MAXDN) by (unfold getdn_room, DNS_MAXDN; brk; bools; lia).
  pose proof (getdn_start getdn_fuel pkt en off dnsiz D (getdn_room dnsiz) cur Hen
    (proj1 HN) HD (getdn_fuel_ok _ (proj2 HN))) as H.
  set (loop := getdn_loop _ _ _ _ _ _ _ _ _ _ _) in *.
  assert (Hfail : getdn_fails D off (getdn_room dnsiz) loop ->
    getdn_refuses D off (getdn_room dnsiz) cur
      ('(r, nx, dn) ← loop; Val (r, match nx with Some c => c | None => cur end, dn))).
  { intros (r & x & -> & Hr & Hx). by exists r, x. }
  clearbody loop. unfold getdn_spec in H. change (put_labels []) with (@nil ascii) in H.
  cbn [length Nat.add app] in H.
  revert H. destruct (read_name _ _ _ _ _) as [[ls nx]|]; [|auto].
  destruct (length (encode ls) <=? S (getdn_room dnsiz)); [|auto].
  intros ->. by destruct (_ <=? _).
Qed.

(** ** The answers to a query *)

(** A name that fits a DN buffer. *)
Definition fit_name (pkt : str) (en pos : nat) : option (list label * nat) :=
  '(ls, nx) ← name_at pkt en pos;
  if length (encode ls) <=? DNS_MAXDN then Some (ls, nx) else None.

(** No name of the packet has exactly one byte more than a DN buffer. *)
Definition short_names (pkt : str) (en : nat) : Prop :=
  forall pos ls nx, name_at pkt en pos = Some (ls, nx) -> length (encode ls) <> S DNS_MAXDN.

Lemma getdn_buffer pkt cur en D :
  en <= length pkt -> short_names pkt en -> length D = DNS_MAXDN ->
  match fit_name pkt en cur with
  | Some (ls, nx) =>
      exists D', dns_getdn pkt cur en D 0 DNS_MAXDN = Val (Z.of_nat (length (encode ls)), nx, D') /\
        length D' = DNS_MAXDN /\ holds D' 0 ls /\ wf_labels ls /\
        length (encode ls) <= DNS_MAXDN /\ cur < nx <= en
  | None =>
      exists r D', dns_getdn pkt cur en D 0 DNS_MAXDN = Val (r, cur, D') /\ (r <= 0)%Z /\
        length D' = DNS_MAXDN
  end.
Proof.
  intros Hen Hs HD.
  pose proof (dns_getdn_holds pkt cur en D 0 DNS_MAXDN Hen ltac:(unfold DNS_MAXDN; lia)) as H.
  change (getdn_room DNS_MAXDN) with DNS_MAXDN in H. specialize (H ltac:(lia)).
  assert (Hr : getdn_refuses D 0 DNS_MAXDN cur (dns_getdn pkt cur en D 0 DNS_MAXDN) ->
    exists r D', dns_getdn pkt cur en D 0 DNS_MAXDN = Val (r, cur, D') /\ (r <= 0)%Z /\
        length D' = DNS_MAXDN).
  { intros (r & x & -> & ? & ?). eexists _, _. split_and!; [done|done|]. rewrite length_splice; lia. }
  unfold fit_name. destruct (name_at pkt en cur) as [[ls nx]|] eqn:E; [|by apply Hr]. simpl.
  specialize (Hs _ _ _ E).
  destruct (Nat.leb_spec (length (encode ls)) DNS_MAXDN).
  - rewrite !(proj2 (Nat.leb_le _ _)) in H by lia. eexists. split; [exact H|]. split_and!.
    + rewrite length_splice; lia.
    + apply holds_splice. lia.
    + exact (read_name_wf _ _ _ _ _ _ _ Hen E).
    + done.
    + exact (proj1 (read_name_next _ _ _ _ _ _ _ E)).
    + exact (proj2 (read_name_next _ _ _ _ _ _ _ E)).
  - rewrite (proj2 (Nat.leb_gt _ _)) in H by lia. by apply Hr.
Qed.

(** The data of an answer. *)
Record answer := mkAnswer { an_dptr : nat; an_dend : nat }.

(** What the next call of [dns_nextrr] finds: a malformed record, no more
    answers, or an answer, with the records left; the name asked for and the
    smallest TTL so far. *)
Inductive next_answer :=
| NextBad
| NextEnd (q : option (list label)) (ttl : Z)
| NextHit (a : answer) (n : nat) (q : option (list label)) (ttl : Z).

Definition differs (q : option (list label)) (ls : list label) : bool :=
  match q with Some qn => negb (same_name qn ls) | None => false end.

Definition wanted (want have : Z) : bool := ((want =? 0) || (want =? have))%Z.

Section Answers.
Context (pkt : str) (en : nat) (cls typ : Z).

(** The search among the [n] records at [cur]; an alias redirects it until the
    first answer. *)
Fixpoint next_rr (n cur : nat) (q : option (list label)) (nrr : nat) (ttl : Z) : next_answer :=
  match n with
  | O => NextEnd q ttl
  | S n =>
      match fit_name pkt en cur with
      | None => NextBad
      | Some (ls, cur) =>
          let dptr := cur + 10 in
          let dend := dptr + Z.to_nat (be16 pkt (cur + 8)) in
          let ttl' := Z.min ttl (be32 pkt (cur + 4)) in
          if (en <? dptr) || (en <? dend) then NextBad
          else if differs q ls then next_rr n dend q nrr ttl
          else if wanted cls (be16 pkt (cur + 2)) && wanted typ (be16 pkt cur) then
            NextHit (mkAnswer dptr dend) n q ttl'
          else if bool_decide (is_Some q) && (be16 pkt cur =? DNS_T_CNAME)%Z && (nrr =? 0) then
            match fit_name pkt en dptr with
            | Some (alias, nx) =>
                if nx =? dend then next_rr n dend (Some alias) nrr ttl' else NextBad
            | None => NextBad
            end
          else next_rr n dend q nrr ttl
      end
  end.

(** All the answers, whether the records are well formed, the name they are for
    and the TTL. *)
Fixpoint answers (fuel n cur : nat) (q : option (list label)) (nrr : nat) (ttl : Z)
  : list answer * bool * option (list label) * Z :=
  match fuel with
  | O => ([], false, q, ttl)
  | S fuel =>
      match next_rr n cur q nrr ttl with
      | NextBad => ([], false, q, ttl)
      | NextEnd q ttl => ([], true, q, ttl)
      | NextHit a n q ttl =>
          let '(l, ok, q, ttl) := answers fuel n (an_dend a) q (S nrr) ttl in
          (a :: l, ok, q, ttl)
      end
  end.

(** The parser's state represents the search. *)
Record rep (ans : nat) (q : option (list label)) (nrr : nat) (ttl : Z) (p : dns_parse) : Prop := {
  rep_pkt : dnsp_pkt p = pkt;
  rep_end : dnsp_end p = en;
  rep_cls : dnsp_qcls p = cls;
  rep_typ : dnsp_qtyp p = typ;
  rep_ans : dnsp_ans p = ans;
  rep_nrr : dnsp_nrr p = nrr;
  rep_ttl : dnsp_ttl p = ttl;
  rep_buf : length (dnsp_dnbuf p) = DNS_MAXDN;
  rep_qdn : match q with
            | None => dnsp_qdn p = PNull
            | Some ls => is_null (dnsp_qdn p) = false /\ is_payload (dnsp_qdn p) = false /\
                wf_labels ls /\
                length (encode ls) <= DNS_MAXDN /\
                exists m i, dn_at p (dnsp_qdn p) = Val (m, i) /\ holds m i ls
            end }.

(** [rr] is the answer [a]. *)
Definition is_answer (rr : dns_rr) (a : answer) : Prop :=
  dnsrr_dptr rr = an_dptr a /\ dnsrr_dend rr = an_dend a /\
  dnsrr_dsz rr = Z.of_nat (an_dend a - an_dptr a) /\ an_dptr a <= an_dend a <= en.

Context (Hen : en <= length pkt) (Hshort : short_names pkt en).

Lemma other_name_run ans q nrr ttl p rr ls :
  rep ans q nrr ttl p -> wf_labels ls -> holds (dnsrr_dn rr) 0 ls ->
  other_name p rr = Val (differs q ls).
Proof.
  intros [_ _ _ _ _ _ _ _ Hq] Hw Hls. unfold other_name, differs.
  destruct q as [qn|]; [|by rewrite Hq].
  destruct Hq as (-> & _ & Hwq & _ & m & i & -> & Hm). cbn [mbind cres_bind].
  rewrite (dns_dnequal_holds _ _ _ _ _ _ Hwq Hw Hm Hls). cbn [mbind cres_bind].
  pose proof (encode_pos qn). destruct (same_name qn ls); cbn [negb]; [|done].
  by rewrite (proj2 (Nat.eqb_neq _ _)) by lia.
Qed.

Lemma rep_min ans q nrr ttl p rr :
  rep ans q nrr ttl p -> rep ans q nrr (Z.min ttl (dnsrr_ttl rr)) (min_ttl p rr).
Proof.
  intros [? ? ? ? ? ? <- ? ?]. unfold min_ttl.
  destruct (Z.ltb_spec (dnsrr_ttl rr) (dnsp_ttl p)).
  - rewrite Z.min_r by lia. by destruct p.
  - rewrite Z.min_l by lia. by constructor.
Qed.

Lemma rep_rrl ans q nrr ttl p n :
  rep ans q nrr ttl p -> rep ans q nrr ttl (p <| dnsp_rrl := n |>).
Proof. destruct p. by intros []. Qed.

Lemma rep_cur ans q nrr ttl p c :
  rep ans q nrr ttl p -> rep ans q nrr ttl (p <| dnsp_cur := c |>).
Proof. destruct p. by intros []. Qed.

Lemma rep_hit ans q nrr ttl p :
  rep ans q nrr ttl p -> rep ans q (S nrr) ttl (p <| dnsp_nrr := S nrr |>).
Proof. destruct p. by intros []. Qed.

Lemma rep_alias ans q nrr ttl p D ls :
  rep ans q nrr ttl p -> length D = DNS_MAXDN -> holds D 0 ls -> wf_labels ls ->
  length (encode ls) <= DNS_MAXDN ->
  rep ans (Some ls) nrr ttl (p <| dnsp_dnbuf := D |> <| dnsp_qdn := PBuf |>).
Proof. destruct p. intros [? ? ? ? ? ? ? ? ?] ? ? ? ?. constructor; try done. split_and!; eauto. Qed.

Lemma rep_null ans q nrr ttl p :
  rep ans q nrr ttl p -> is_null (dnsp_qdn p) = negb (bool_decide (is_Some q)).
Proof.
  intros H. pose proof (rep_qdn _ _ _ _ _ H) as Hq. destruct q; [by destruct Hq as [-> _]|by rewrite Hq].
Qed.

(** The state after an answer. *)
Lemma rep_found ans q nrr ttl p rr a :
  rep ans q nrr ttl p -> is_answer rr a ->
  let p' := min_ttl (p <| dnsp_cur := an_dend a |> <| dnsp_nrr := S nrr |>) rr in
  rep ans q (S nrr) (Z.min ttl (dnsrr_ttl rr)) p' /\ is_answer rr a /\
  dnsp_rrl p' = dnsp_rrl p /\ dnsp_cur p' = an_dend a.
Proof.
  intros Hp Ha. split; [by apply rep_min, rep_hit, rep_cur|]. split; [done|].
  unfold min_ttl. by destruct p, (_ <? _)%Z.
Qed.

(** What [dns_nextrr] leaves for each outcome of the search. *)
Definition next_post (ans nrr : nat) (nx : next_answer) (out : Z * dns_parse * dns_rr) : Prop :=
  let '(r, p, rr) := out in
  length (dnsrr_dn rr) = DNS_MAXDN /\
  match nx with
  | NextBad => r = (-1)%Z
  | NextEnd q ttl => r = 0%Z /\ rep ans q nrr ttl p
  | NextHit a n q ttl =>
      r = 1%Z /\ rep ans q (S nrr) ttl p /\ is_answer rr a /\
      dnsp_rrl p = n /\ dnsp_cur p = an_dend a
  end.

Lemma nextrr_run n p rr cur ans q nrr ttl :
  rep ans q nrr ttl p -> length (dnsrr_dn rr) = DNS_MAXDN ->
  exists out, nextrr_loop n p rr cur = Val out /\
    next_post ans nrr (next_rr n cur q nrr ttl) out.
Proof.
  revert p rr cur q ttl. induction n as [|n IH]; intros p rr cur q ttl Hp Hrr.
  { eexists. split; [done|]. split; [done|]. split; [done|]. by apply rep_cur. }
  cbn [nextrr_loop next_rr]. apply (rep_rrl _ _ _ _ _ n) in Hp.
  assert (Hn : dnsp_rrl (p <| dnsp_rrl := n |>) = n) by (by destruct p).
  generalize dependent (p <| dnsp_rrl := n |>). clear p. intros p Hp Hn.
  rewrite (rep_pkt _ _ _ _ _ Hp), (rep_end _ _ _ _ _ Hp).
  pose proof (getdn_buffer pkt cur en (dnsrr_dn rr) Hen Hshort Hrr) as Hname.
  destruct (fit_name pkt en cur) as [[ls c]|].
  2:{ destruct Hname as (r & D & -> & Hr & HD). cbn [mbind cres_bind].
      rewrite (proj2 (Z.leb_le _ _) Hr). eexists. split; [done|]. by split. }
  destruct Hname as (D & -> & HD & Hls & Hw & _ & Hc). cbn [mbind cres_bind].
  pose proof (encode_pos ls).
  rewrite (proj2 (Z.leb_gt _ _)) by lia.
  destruct (Nat.ltb_spec en (c + 10)); cbn [orb].
  { eexists. split; [done|]. by split. }
  rewrite !dns_get16_run, dns_get32_run by lia. cbn [mbind cres_bind].
  set (dend := c + 10 + Z.to_nat (be16 pkt (c + 8))).
  destruct (Nat.ltb_spec en dend).
  { eexists. split; [done|]. by split. }
  set (rr1 := mkRr _ _ _ _ _ _ _).
  assert (Hans : is_answer rr1 (mkAnswer (c + 10) dend)).
  { pose proof (be16_range pkt (c + 8)). unfold is_answer, rr1, dend in *. simpl. split_and!; lia. }
  assert (Hrr1 : length (dnsrr_dn rr1) = DNS_MAXDN) by done.
  rewrite (other_name_run _ _ _ _ _ rr1 ls Hp Hw) by done. cbn [mbind cres_bind].
  destruct (differs q ls); [by apply IH|].
  replace (type_matches p rr1) with (wanted cls (be16 pkt (c + 2)) && wanted typ (be16 pkt c))
    by (unfold type_matches; by rewrite (rep_cls _ _ _ _ _ Hp), (rep_typ _ _ _ _ _ Hp)).
  destruct (wanted cls _ && wanted typ _).
  { rewrite (rep_nrr _ _ _ _ _ Hp), <- Hn.
    eexists. split; [done|]. split; [done|]. split; [done|]. exact (rep_found _ _ _ _ _ _ _ Hp Hans). }
  rewrite (rep_null _ _ _ _ _ Hp), negb_involutive, (rep_nrr _ _ _ _ _ Hp).
  destruct (bool_decide (is_Some q) && _ && _); [|by apply IH].
  pose proof (getdn_buffer pkt (c + 10) en (dnsp_dnbuf p) Hen Hshort (rep_buf _ _ _ _ _ Hp)) as Hname.
  change (dnsrr_dptr rr1) with (c + 10).
  destruct (fit_name pkt en (c + 10)) as [[alias nx]|].
  2:{ destruct Hname as (r & D' & -> & Hr & HD'). cbn [mbind cres_bind].
      rewrite (proj2 (Z.leb_le _ _) Hr). eexists. split; [done|]. by split. }
  destruct Hname as (D' & -> & HD' & Hal & Hwal & Hlal & _). cbn [mbind cres_bind].
  pose proof (encode_pos alias). rewrite (proj2 (Z.leb_gt _ _)) by lia. cbn [orb].
  change (dnsrr_dend (rr1 <| dnsrr_dptr := nx |>)) with dend.
  destruct (nx =? dend); cbn [negb]; [|eexists; split; [done|]; by split].
  apply IH; [|done]. change (be32 pkt (c + 4)) with (dnsrr_ttl (rr1 <| dnsrr_dptr := nx |>)).
  apply rep_min.
  by apply rep_alias with (q := q).
Qed.

End Answers.
