(* ===== verification/DnsLoops.v ===== *)
(** * Every loop of the name functions ends

    The loops of udns_dn.c and udns_parse.c end on every input, well formed or
    not: each round moves through a buffer, fills the destination or uses up a
    jump.  The bounds given to the loops of the model are therefore enough. *)

From S2P Require Import Prelude CMem DnsName DnsParse DnsParseFacts.
Open Scope nat_scope.

Lemma rd_inside m i c : rd m i = Val c -> i < length m.
Proof.
  unfold rd. destruct (m !! i) eqn:E; [|done]. intros _. by apply lookup_lt_Some in E.
Qed.

(** A body of a walk: the recursive call is made further on in the buffer. *)
Ltac walk_from IH :=
  walk; repeat match goal with H : rd _ _ = Val _ |- _ => apply rd_inside in H end;
  try (apply IH; lia).

Lemma strlen_ends fuel m i : length m - i < fuel -> ends (strlen_loop fuel m i).
Proof. revert i. induction fuel as [|fuel IH]; intros i H; [lia|]. cbn [strlen_loop]. walk_from IH. Qed.

Lemma dnlen_ends fuel m i : length m - i < fuel -> ends (dnlen_loop fuel m i).
Proof. revert i. induction fuel as [|fuel IH]; intros i H; [lia|]. cbn [dnlen_loop]. walk_from IH. Qed.

Lemma dnlabels_ends fuel m i n : length m - i < fuel -> ends (dnlabels_loop fuel m i n).
Proof. revert i n. induction fuel as [|fuel IH]; intros i n H; [lia|]. cbn [dnlabels_loop]. walk_from IH. Qed.

Lemma label_equal_ends c m m' i i' : ends (label_equal c m m' i i').
Proof. revert i i'. induction c as [|c IH]; intros i i'; cbn [label_equal]; walk. Qed.
#[local] Hint Resolve label_equal_ends : ends.

Lemma dnequal_ends fuel m m' s i i' : length m - i < fuel -> ends (dnequal_loop fuel m m' s i i').
Proof.
  revert i i'. induction fuel as [|fuel IH]; intros i i' H; [lia|]. cbn [dnequal_loop]. walk_from IH.
Qed.

Lemma label_size_ends n m i k : ends (label_size n m i k).
Proof. revert i k. induction n as [|n IH]; intros i k; cbn [label_size]; walk. Qed.
#[local] Hint Resolve label_size_ends : ends.

Lemma dntop_size_ends fuel m i k : length m - i < fuel -> ends (dntop_size_loop fuel m i k).
Proof.
  revert i k. induction fuel as [|fuel IH]; intros i k H; [lia|]. cbn [dntop_size_loop]. walk_from IH.
Qed.

Lemma dntop_label_ends n m i ne np name : ends (dntop_label n m i ne np name).
Proof. revert i np name. induction n as [|n IH]; intros i np name; cbn [dntop_label]; walk. Qed.
Lemma dntop_dot_ends s ne np name : ends (dntop_dot s ne np name).
Proof. unfold dntop_dot. walk. Qed.
#[local] Hint Resolve dntop_label_ends dntop_dot_ends : ends.

Lemma dntop_ends fuel m i s ne np name :
  length m - i < fuel -> ends (dntop_loop fuel m i s ne np name).
Proof.
  revert i np name. induction fuel as [|fuel IH]; intros i np name H; [lia|].
  cbn [dntop_loop]. walk_from IH.
Qed.

(** The text read by [dns_ptodn]: an escape takes at least a character. *)
Lemma more_digit_ends m ne np c : ends (more_digit m ne np c).
Proof. unfold more_digit. walk. Qed.
#[local] Hint Resolve more_digit_ends : ends.

Lemma more_digit_moves m ne np c np' c' :
  more_digit m ne np c = Val (Some (np', c')) -> np' = S np.
Proof.
  unfold more_digit. destruct (np <? ne); [|done]. destruct (rd m np); simpl; try done.
  destruct (is_digit a); [|done]. by intros [= <- _].
Qed.

Lemma escape_ends m ne np : ends (ptodn_escape m ne np).
Proof. unfold ptodn_escape. walk. Qed.
#[local] Hint Resolve escape_ends : ends.

Lemma escape_moves m ne np np' c : ptodn_escape m ne np = Val (Some (np', c)) -> np < np'.
Proof.
  unfold ptodn_escape. destruct (np =? ne); [done|]. destruct (rd m np) as [d| | |]; simpl; try done.
  destruct (is_digit d); [|intros [= <- _]; lia].
  destruct (more_digit m ne (S np) _) as [[[n1 c1]|]| | |] eqn:E1; simpl; try done.
  2:{ intros [= <- _]. lia. }
  apply more_digit_moves in E1. destruct (more_digit m ne n1 c1) as [[[n2 c2]|]| | |] eqn:E2; simpl; try done.
  - apply more_digit_moves in E2. destruct (_ <? _)%Z; [done|]. intros [= <- _]. lia.
  - intros [= <- _]. lia.
Qed.

Lemma ptodn_ends fuel m name ne dnsiz de np dp llab dn :
  ne - np < fuel -> ends (ptodn_loop fuel m name ne dnsiz de np dp llab dn).
Proof.
  revert np dp llab dn. induction fuel as [|fuel IH]; intros np dp llab dn H; [lia|].
  cbn [ptodn_loop]. destruct (Nat.ltb_spec np ne); cbn [negb]; [|done].
  walk; try (apply IH; lia).
  match goal with E : ptodn_escape _ _ _ = Val _ |- _ => rename E into He end.
  subst. apply escape_moves in He. apply IH. lia.
Qed.

(** Names in a packet. *)
Lemma skipdn_ends fuel pkt cur en : en - cur < fuel -> ends (skipdn_loop fuel pkt cur en).
Proof.
  revert cur. induction fuel as [|fuel IH]; intros cur H; [lia|]. cbn [skipdn_loop].
  destruct (Nat.leb_spec en cur); [done|]. walk; try (apply IH; lia).
Qed.

Lemma getdn_ends fuel pkt en off dnsiz de pp dp jump loop dn :
  de - dp + hops_left jump loop < fuel -> 1 <= loop ->
  ends (getdn_loop fuel pkt en off dnsiz de pp dp jump loop dn).
Proof.
  revert pp dp jump loop dn. induction fuel as [|fuel IH]; intros pp dp jump loop dn H Hl; [lia|].
  cbn [getdn_loop]. destruct (en <=? pp); [done|]. apply ends_bind; [auto with ends|]. intros c _.
  destruct (c =? 0)%Z; [walk|]. destruct (negb _).
  - destruct (en <=? S pp); [done|]. rewrite jump_pair. cbn iota beta.
    rewrite (loop_zero jump loop Hl). destruct (Nat.eqb_spec (hops_left jump loop) 0) as [|Hh]; [done|].
    destruct (hop jump loop (jump_to jump pp) Hh) as [Hl' Hh'].
    walk. apply IH; [|done]. rewrite Hh'. lia.
  - destruct (_ <? _)%Z; [done|]. destruct (_ <? _); [done|].
    destruct (Nat.ltb_spec de (dp + Z.to_nat c + 1)); [done|]. walk. apply IH; lia.
Qed.
