(* ===== verification/DnsQueries.v ===== *)
(** * Names of queries

    The names the resolver builds for SRV queries (udns_rr_srv.c) and for the
    reverse mapping of addresses (udns_dn.c). *)

From S2P Require Import Prelude CMem DnsName DnsNameFacts DnsTextFacts.
Open Scope nat_scope.

(** ** Writes over earlier writes *)

Lemma drop_splice_ge m i s j :
  i + length s <= length m -> i + length s <= j -> drop j (splice m i s) = drop j m.
Proof.
  intros H Hj. replace j with (i + length s + (j - (i + length s))) by lia.
  rewrite <- !(drop_drop _ _ (i + length s)). by rewrite drop_splice_all.
Qed.

(** The end [b] of what was written is covered by the next write. *)
Lemma splice_cut m i a b t j :
  j = i + length a -> length b <= length t -> i + length a + length t <= length m ->
  splice (splice m i (a ++ b)) j t = splice m i (a ++ t).
Proof.
  intros -> Hb Hm. assert (Hab : i + length (a ++ b) <= length m) by (rewrite length_app; lia).
  unfold splice at 1. rewrite drop_splice_ge by (rewrite ?length_app; lia).
  replace (take (i + length a) (splice m i (a ++ b))) with (take i m ++ a).
  - unfold splice. rewrite <- app_assoc, length_app, Nat.add_assoc. by rewrite <- app_assoc.
  - unfold splice. rewrite <- app_assoc, app_assoc.
    rewrite take_app_le by (rewrite length_app, length_take; lia).
    rewrite (take_ge (take i m ++ a)); [done|]. rewrite length_app, length_take. lia.
Qed.

(** A byte written in front of what was written. *)
Lemma splice_before m i s x :
  S i + length s <= length m -> splice (splice m (S i) s) i [x] = splice m i (x :: s).
Proof.
  intros H. destruct (lookup_lt_is_Some_2 m i) as [g Hg]; [lia|].
  assert (E : splice m (S i) s = splice m i (g :: s)).
  { unfold splice. rewrite (take_S_r _ _ _ Hg). simpl.
    rewrite <- app_assoc. simpl. by rewrite Nat.add_succ_r. }
  rewrite E. apply (splice_over m i [] g x s i); simpl; lia.
Qed.

(** ** SRV queries *)

(** A text that is one label, short enough for an underscore in front. *)
Definition service_label (sn : str) (l : label) : Prop :=
  Forall (fun c => uchar c <> 0%Z) sn /\ (exists abs, parse_name sn = Some ([l], abs)) /\
  1 <= length l <= 60.

Lemma add_sname_run sn l D off :
  service_label sn l -> off + 64 <= length D ->
  add_sname D off (asciiz sn) = Val (length l + 2, splice D off (put_label (chr 95 :: l) ++ [chr 0])).
Proof.
  intros (Hs & [abs Hp] & Hl) HD. unfold add_sname.
  pose proof (dns_ptodn_holds _ _ _ _ D (off + 1) (DNS_MAXLABEL - 1) (text_at_asciiz sn Hs)
    ltac:(done) ltac:(change (room (DNS_MAXLABEL - 1)) with 62; lia)) as H.
  change (room (DNS_MAXLABEL - 1)) with 62 in H. rewrite Hp in H. unfold ptodn_spec in H.
  rewrite length_encode_cons, length_encode_nil in H. rewrite (proj2 (Nat.leb_le _ _)) in H by lia.
  rewrite H, val_bind. rewrite (proj2 (Z.leb_gt _ _)) by lia.
  pose proof (encode_cons l [] []) as He. rewrite !app_nil_r in He.
  set (B := splice D (off + 1) (encode [l])).
  assert (Hlen : length (encode [l]) = length l + 2) by (rewrite length_encode_cons, length_encode_nil; lia).
  assert (HB : length B = length D) by (unfold B; rewrite length_splice; lia).
  assert (Hrd : rd B (off + 1) = Val (Z.of_nat (length l))).
  { erewrite rd_drop; [|unfold B; rewrite drop_splice by lia; rewrite He; reflexivity].
    rewrite uchar_len_chr by lia. done. }
  rewrite Hrd, val_bind. rewrite (proj2 (Z.eqb_eq _ _)) by lia. cbn [negb].
  rewrite wr_in by lia. rewrite val_bind.
  rewrite wr_in by (rewrite length_splice; simpl; lia). rewrite val_bind.
  do 2 f_equal; [lia|]. unfold B. rewrite Nat.add_1_r, splice_before by lia. rewrite He.
  replace (chr (Z.of_nat (S (length l + 1)) - 1)) with (chr (Z.of_nat (length (chr 95 :: l)))) by (simpl; f_equal; lia).
  pose proof (splice_over D off [chr (Z.of_nat (length (chr 95 :: l)))] (chr (Z.of_nat (length l)))
    (chr 95) (l ++ encode []) (S off)) as Ho. cbn [app] in Ho. rewrite Ho.
  - done.
  - simpl. lia.
  - simpl. rewrite length_app, length_encode_nil. lia.
Qed.

(** The underscored label of a service or protocol. *)
Definition underscored (l : label) : label := chr 95 :: l.

Definition part_labels (part : option (str * label)) : list label :=
  match part with Some (_, l) => [underscored l] | None => [] end.
Definition part_text (part : option (str * label)) : option str :=
  match part with Some (sn, _) => Some (asciiz sn) | None => None end.
Definition part_ok (part : option (str * label)) : Prop :=
  match part with Some (sn, l) => service_label sn l | None => True end.

(** A part is added behind the labels [ds]; the byte [z] after them is covered. *)
Lemma add_part_run D ds z part :
  part_ok part -> length (put_labels ds) + 64 <= length D -> length z <= 1 ->
  exists z', length z' <= 1 /\
    add_part (splice D 0 (put_labels ds ++ z)) (length (put_labels ds)) (part_text part) =
      Val (Some (length (put_labels (ds ++ part_labels part))),
           splice D 0 (put_labels (ds ++ part_labels part) ++ z')).
Proof.
  intros Hp HD Hz. destruct part as [[sn l]|]; simpl in *.
  2:{ exists z. by rewrite app_nil_r. }
  assert (Hl : length (put_label (underscored l)) = length l + 2) by (simpl; lia).
  assert (1 <= length l <= 60) by apply Hp.
  exists [chr 0]. split; [simpl; lia|].
  rewrite (add_sname_run sn l) by (done || (rewrite length_splice; rewrite ?length_app; lia)).
  rewrite val_bind, (proj2 (Nat.eqb_neq _ _)) by lia.
  rewrite put_labels_snoc, length_app, Hl. do 2 f_equal.
  rewrite splice_cut by (rewrite ?length_app; simpl in *; lia). by rewrite app_assoc.
Qed.

Lemma part_len ds part :
  part_ok part -> length (put_labels (ds ++ part_labels part)) <= length (put_labels ds) + 62.
Proof.
  destruct part as [[sn l]|]; simpl; [|rewrite app_nil_r; lia].
  intros (_ & _ & ?). rewrite put_labels_snoc, length_app. simpl. lia.
Qed.

Lemma build_srv_dn_run D name ls abs srv proto :
  length D = DNS_MAXDN -> part_ok srv -> part_ok proto ->
  Forall (fun c => uchar c <> 0%Z) name -> parse_name name = Some (ls, abs) ->
  let full := part_labels srv ++ part_labels proto ++ ls in
  length (encode full) <= DNS_MAXDN ->
  build_srv_dn D (asciiz name) (part_text srv) (part_text proto) =
    Val ((if abs then DNS_NOSRCH else 0)%Z, splice D 0 (encode full)).
Proof.
  intros HD Hs Hp Hn Hname full Hfull. unfold DNS_MAXDN in HD.
  pose proof (part_len [] srv Hs) as L1. pose proof (part_len (part_labels srv) proto Hp) as L2.
  simpl in L1.
  destruct (add_part_run D [] [] srv Hs) as (z1 & Hz1 & H1); [simpl; lia|simpl; lia|].
  change (put_labels []) with (@nil ascii) in H1. cbn [app length] in H1. rewrite splice_nil in H1.
  destruct (add_part_run D (part_labels srv) z1 proto Hp) as (z2 & Hz2 & H2); [lia|done|].
  unfold build_srv_dn. rewrite H1, val_bind. cbv beta iota. rewrite H2, val_bind. cbv beta iota.
  set (ds := part_labels srv ++ part_labels proto) in *.
  assert (Hds : encode full = put_labels ds ++ encode ls).
  { unfold full. rewrite app_assoc. fold ds. rewrite !encode_put, put_labels_app. by rewrite <- app_assoc. }
  rewrite Hds, length_app in Hfull.
  assert (Hroom : room (DNS_MAXDN - length (put_labels ds)) = DNS_MAXDN - length (put_labels ds))
    by (unfold room, DNS_MAXDN; brk; bools; lia).
  pose proof (encode_pos ls). unfold DNS_MAXDN in *.
  set (B := splice D 0 (put_labels ds ++ z2)).
  assert (HB : length B = 255) by (unfold B; rewrite length_splice; rewrite ?length_app; lia).
  pose proof (dns_ptodn_holds _ _ _ _ B (length (put_labels ds)) (255 - length (put_labels ds))
    (text_at_asciiz name Hn) ltac:(lia) ltac:(rewrite Hroom; lia)) as H3.
  rewrite Hroom, Hname in H3. unfold ptodn_spec in H3. rewrite (proj2 (Nat.leb_le _ _)) in H3 by lia.
  rewrite H3, val_bind. cbv beta iota. rewrite (proj2 (Z.ltb_ge _ _)) by lia.
  unfold B. rewrite splice_cut by (done || lia). by rewrite Hds.
Qed.

(** ** Reverse names *)

(** The decimal digits of an octet. *)
Definition dec_label (n : Z) : label :=
  if (99 <? n)%Z then [chr (n / 100 + 48); chr (n mod 100 / 10 + 48); chr (n mod 10 + 48)]
  else if (9 <? n)%Z then [chr (n / 10 + 48); chr (n mod 10 + 48)]
  else [chr (n + 48)].

Lemma dec_label_len n : 1 <= length (dec_label n) <= 3.
Proof. unfold dec_label. repeat brk; simpl; lia. Qed.

Lemma octet_room dne (w : str) n :
  length w + length (put_label (dec_label n)) <= dne -> length w + 1 + length (dec_label n) <= dne.
Proof. simpl. lia. Qed.

Lemma a4_octet_run D w dne n :
  length w + length (put_label (dec_label n)) <= dne -> dne <= length D ->
  a4_octet (splice D 0 w) (length w) dne n =
    Val (Some (length (w ++ put_label (dec_label n))), splice D 0 (w ++ put_label (dec_label n))).
Proof.
  intros Hw%octet_room HD. pose proof (dec_label_len n) as Hd.
  destruct (splice_next D 0 w (length w)) as [g ->]; [done|lia|].
  assert (Hw1 : length w + 1 = length (w ++ [g])) by (rewrite length_app; done).
  unfold a4_octet, dec_label in *. rewrite Hw1.
  assert (Hclose : forall s j, j = Z.of_nat (length s) -> length w + S (length s) <= length D ->
    wr (splice D 0 ((w ++ [g]) ++ s)) (length w) j = Val (splice D 0 (w ++ chr (Z.of_nat (length s)) :: s))).
  { intros s j -> Hs. rewrite <- app_assoc. simpl.
    rewrite wr_in by (rewrite length_splice; rewrite ?length_app; simpl; lia).
    by rewrite splice_over by (rewrite ?length_app; simpl; lia). }
  destruct (99 <? n)%Z; [|destruct (9 <? n)%Z]; rewrite (proj2 (Nat.ltb_ge _ _)) by (simpl in Hw; lia);
    repeat (rewrite wr_append by (rewrite ?length_app; simpl in *; lia);
            rewrite val_bind, <- ?(app_assoc (w ++ [g])); cbn [app]);
    rewrite Hclose by (rewrite ?length_app; simpl in *; lia); rewrite val_bind;
    unfold put_label; rewrite !length_app; simpl; do 3 f_equal; lia.
Qed.

Lemma a4_octets_run s D w dne :
  length (w ++ put_labels (map dec_label s)) <= dne -> dne <= length D ->
  a4_octets s (splice D 0 w) (length w) dne =
    Val (Some (length (w ++ put_labels (map dec_label s))), splice D 0 (w ++ put_labels (map dec_label s))).
Proof.
  revert w. induction s as [|n s IH]; intros w Hw HD.
  { simpl. by rewrite app_nil_r. }
  cbn [a4_octets map] in *. change (put_labels (dec_label n :: map dec_label s))
    with (put_label (dec_label n) ++ put_labels (map dec_label s)) in *.
  rewrite app_assoc in *. pose proof Hw as Hw'. rewrite !length_app in Hw'.
  rewrite (a4_octet_run D w dne n) by lia. rewrite val_bind. by apply IH.
Qed.

(** The labels of the reverse name of an IPv4 address. *)
Definition a4_labels (addr : list Z) : list label := map dec_label (rev addr) ++ [ #"in-addr"; #"arpa" ].

Lemma dec_labels_len s : length (put_labels (map dec_label s)) <= 4 * length s.
Proof.
  induction s as [|n s IH]; [simpl; lia|]. cbn [map]. change (put_labels (dec_label n :: map dec_label s))
    with (put_label (dec_label n) ++ put_labels (map dec_label s)).
  rewrite length_app. pose proof (dec_label_len n). simpl in *. lia.
Qed.

(** The suffix copied behind the labels [ds]. *)
Lemma todn_suffix_run t ls D ds dnsiz :
  wf_labels ls -> t = encode ls -> dnsiz <= DNS_MAXDN -> length D = dnsiz ->
  length (put_labels ds) + length t <= dnsiz ->
  todn_suffix t 0 (splice D 0 (put_labels ds)) 0 dnsiz dnsiz (length (put_labels ds)) =
    Val (Z.of_nat (length (encode (ds ++ ls))), splice D 0 (encode (ds ++ ls))).
Proof.
  intros Hw -> Hn HD Hl. unfold todn_suffix. rewrite (dns_dnlen_holds _ _ ls Hw (holds_encode ls)), val_bind.
  rewrite (proj2 (Nat.ltb_ge _ _)) by lia. rewrite rdn_in by lia. rewrite val_bind, drop_0, take_ge by lia.
  rewrite wrn_in by (rewrite length_splice; lia). rewrite val_bind, splice_app by lia.
  rewrite !encode_put, put_labels_app, !length_app, <- app_assoc. simpl. do 3 f_equal. lia.
Qed.

Lemma a4todn_run addr b :
  length addr = 4 -> length b = DNS_A4RSIZE ->
  dns_a4todn addr None b 0 DNS_A4RSIZE =
    Val (Z.of_nat (length (encode (a4_labels addr))), splice b 0 (encode (a4_labels addr))).
Proof.
  intros Ha Hb. unfold dns_a4todn, dns_a4todn_. change (0 + (if DNS_MAXDN <? DNS_A4RSIZE then DNS_MAXDN else DNS_A4RSIZE)) with DNS_A4RSIZE.
  pose proof (dec_labels_len (rev addr)) as Hl. rewrite length_rev, Ha in Hl.
  pose proof (a4_octets_run (rev addr) b [] DNS_A4RSIZE) as H. rewrite splice_nil in H.
  cbn [app length] in H. unfold DNS_A4RSIZE in *. rewrite H by lia. rewrite val_bind. cbv beta iota.
  apply todn_suffix_run with (ls := [ #"in-addr"; #"arpa" ]).
  - repeat constructor.
  - vm_compute. reflexivity.
  - unfold DNS_MAXDN. lia.
  - done.
  - change (length dns_inaddr_arpa_dn) with 14. lia.
Qed.

(** The labels of the reverse name of an IPv6 address: its nibbles, last first. *)
Definition nibble_labels (x : Z) : list label :=
  [[chr (hex_digit (Z.land x 15))]; [chr (hex_digit (Z.shiftr x 4))]].
Definition a6_labels (addr : list Z) : list label :=
  flat_map nibble_labels (rev addr) ++ [ #"ip6"; #"arpa" ].

Lemma a6_octets_run s D w :
  length w + 4 * length s <= length D ->
  a6_octets s (splice D 0 w) (length w) =
    Val (length (w ++ put_labels (flat_map nibble_labels s)),
         splice D 0 (w ++ put_labels (flat_map nibble_labels s))).
Proof.
  revert w. induction s as [|x s IH]; intros w H; [simpl; by rewrite app_nil_r|].
  cbn [a6_octets flat_map length] in *.
  repeat (rewrite wr_append by (rewrite ?length_app; simpl in *; lia);
          rewrite val_bind, <- ?(app_assoc w); cbn [app]).
  rewrite put_labels_app, (app_assoc w).
  replace (length w + 4) with (length (w ++ put_labels (nibble_labels x))) by (rewrite length_app; done).
  apply IH. rewrite length_app. simpl. lia.
Qed.

Lemma a6todn_run addr b :
  length addr = 16 -> length b = DNS_A6RSIZE ->
  dns_a6todn addr None b 0 DNS_A6RSIZE =
    Val (Z.of_nat (length (encode (a6_labels addr))), splice b 0 (encode (a6_labels addr))).
Proof.
  intros Ha Hb. unfold dns_a6todn, dns_a6todn_. change (0 + (if DNS_MAXDN <? DNS_A6RSIZE then DNS_MAXDN else DNS_A6RSIZE)) with DNS_A6RSIZE.
  assert (Hl : forall s, length (put_labels (flat_map nibble_labels s)) = 4 * length s).
  { induction s as [|x s IH]; [done|]. cbn [flat_map]. rewrite put_labels_app, length_app, IH. simpl. lia. }
  specialize (Hl (rev addr)). rewrite length_rev, Ha in Hl.
  pose proof (a6_octets_run (rev addr) b []) as H. rewrite splice_nil in H.
  cbn [app length] in H. unfold DNS_A6RSIZE in *. simpl (74 <? _). cbv iota.
  rewrite length_rev in H. rewrite H by lia. rewrite !val_bind. cbv beta iota.
  apply todn_suffix_run with (ls := [ #"ip6"; #"arpa" ]).
  - repeat constructor.
  - vm_compute. reflexivity.
  - unfold DNS_MAXDN. lia.
  - done.
  - change (length dns_ip6_arpa_dn) with 10. lia.
Qed.
