(* ===== verification/DnsRecords.v ===== *)
(** * What the record parsers return

    The two loops of a record parser run over the same answers.  [parse_spec] is
    the result of a parser, given how it checks an answer, which bytes it keeps
    of it and how the record refers to them; [parse_records] computes it, inside
    the block it allocates.  The instances for the parsers follow. *)

From S2P Require Import Prelude CMem DnsName DnsNameFacts DnsTextFacts DnsParse DnsParseFacts.
Open Scope nat_scope.

(** ** The loop over the answers *)

Lemma next_rr_less pkt en cls typ n cur q nrr ttl a n' q' ttl' :
  next_rr pkt en cls typ n cur q nrr ttl = NextHit a n' q' ttl' -> n' < n.
Proof.
  revert cur q ttl. induction n as [|n IH]; intros cur q ttl; cbn [next_rr]; [done|].
  intros H. repeat (brk_in H; try discriminate); try (apply IH in H; lia).
  injection H as <- <- <- <-. lia.
Qed.

Section Loop.
Context (pkt : str) (en : nat) (cls typ : Z).
Context (Hen : en <= length pkt) (Hshort : short_names pkt en).
Context {T : Type} (cond : Z -> bool) (body : dns_parse -> dns_rr -> T -> cres (Z + T)).
Context (good : answer -> bool) (L : list answer) (I : list answer -> T -> Prop).

(** What one round does with an answer of [L], [done] being those before it. *)
Definition body_ok : Prop :=
  forall done a rest p rr s,
    L = done ++ a :: rest -> is_answer en rr a -> I done s ->
    if good a then exists s', body p rr s = Val (inr s') /\ I (done ++ [a]) s'
    else body p rr s = Val (inl DNS_E_PROTOCOL).

Lemma rr_loop_rule fuel p rr done s ans q nrr ttl :
  body_ok -> cond 1 = true -> cond 0 = false ->
  rep pkt en cls typ ans q nrr ttl p -> length (dnsrr_dn rr) = DNS_MAXDN ->
  dnsp_rrl p < fuel -> I done s ->
  let '(l, ok, q', ttl') := answers pkt en cls typ fuel (dnsp_rrl p) (dnsp_cur p) q nrr ttl in
  L = done ++ l -> ok = true \/ cond (-1)%Z = false ->
  if forallb good l then
    exists r p' rr' s', rr_loop fuel cond body p rr s = Val (inr (r, p', rr', s')) /\ I L s' /\
      length (dnsrr_dn rr') = DNS_MAXDN /\
      if ok : bool then r = 0%Z /\ rep pkt en cls typ ans q' (nrr + length l) ttl' p' else r = (-1)%Z
  else rr_loop fuel cond body p rr s = Val (inl DNS_E_PROTOCOL).
Proof.
  intros Hbody Hc1 Hc0. revert p rr done s q nrr ttl.
  induction fuel as [|fuel IH]; intros p rr done s q nrr ttl Hp Hrr Hf Hs; [lia|].
  cbn [answers rr_loop]. unfold dns_nextrr.
  destruct (nextrr_run pkt en cls typ Hen Hshort (dnsp_rrl p) p rr (dnsp_cur p) ans q nrr ttl Hp Hrr)
    as ([[r p'] rr'] & -> & Hpost). cbn [mbind cres_bind].
  destruct Hpost as [Hrr' Hpost].
  destruct (next_rr pkt en cls typ _ _ _ _ _) as [|q1 ttl1|a n q1 ttl1] eqn:E.
  - intros HL [|Hc]; [done|]. rewrite Hpost, Hc. simpl. exists (-1)%Z, p', rr', s.
    rewrite app_nil_r in HL. by subst.
  - destruct Hpost as [-> Hrep]. intros HL _. rewrite Hc0. simpl. exists 0%Z, p', rr', s.
    rewrite app_nil_r in HL. rewrite Nat.add_0_r. by subst.
  - destruct Hpost as (-> & Hrep & Ha & Hn & Hcur). apply next_rr_less in E.
    specialize (IH p' rr'). rewrite Hn, Hcur in IH.
    destruct (answers pkt en cls typ fuel n (an_dend a) q1 (S nrr) ttl1) as [[[l ok] q'] ttl'] eqn:El.
    intros HL Hok. rewrite Hc1. specialize (Hbody done a l p' rr' s HL Ha Hs). cbn [forallb].
    destruct (good a); cbn [andb]; [|by rewrite Hbody].
    destruct Hbody as (s' & -> & Hs'). cbn [mbind cres_bind].
    specialize (IH (done ++ [a]) s' q1 (S nrr) ttl1 Hrep Hrr' ltac:(lia) Hs').
    rewrite El in IH. specialize (IH ltac:(by rewrite <- app_assoc) Hok).
    by replace (nrr + length (a :: l)) with (S nrr + length l) by (simpl; lia).
Qed.

End Loop.

(** ** The result of a parser *)

Section Spec.
Context {R : Type} (malloc : nat -> option str).
Context (size : nat) (good : answer -> bool) (bytes : answer -> str) (record : nat -> answer -> list R).

(** The records: each refers to the bytes of its answer, at [off]. *)
Fixpoint records_from (off : nat) (l : list answer) : list R :=
  match l with
  | [] => []
  | a :: l => record off a ++ records_from (off + length (bytes a)) l
  end.

(** An error code, or the records, the bytes kept, the name the answers are for
    and the name that was asked. *)
Definition parse_spec (question : list label)
    (found : list answer * bool * option (list label) * Z) : Z + result R :=
  let '(l, ok, q, ttl) := found in
  if negb (forallb good l && ok) then inl DNS_E_PROTOCOL
  else if length l =? 0 then inl DNS_E_NODATA
  else
    let data := flat_map bytes l in
    let cname := asciiz (dn_text (default [] q)) in
    let qname := asciiz (dn_text question) in
    match malloc (sizeof_rr + size * length l + length (data ++ cname ++ qname)) with
    | None => inl DNS_E_NOMEM
    | Some _ =>
        inr (mkResult (mkStd (length data) (length data + length cname) ttl) (length l)
               (records_from 0 l) (data ++ cname ++ qname))
    end.

End Spec.

Lemma records_app {R} bytes (record : nat -> answer -> list R) off l l' :
  records_from bytes record off (l ++ l') =
  records_from bytes record off l ++ records_from bytes record (off + length (flat_map bytes l)) l'.
Proof.
  revert off. induction l as [|a l IH]; intros off; simpl; [by rewrite Nat.add_0_r|].
  by rewrite IH, <- app_assoc, length_app, Nat.add_assoc.
Qed.

(** What is asked: the name of the query, the class and the type of the question
    section, the records announced in the header. *)
Definition query_answers (pkt : str) (en cur : nat) (qn : list label)
  : list answer * bool * option (list label) * Z :=
  let n := Z.to_nat (be16 pkt 6) in
  let cls := be16 pkt (cur + 2) in
  let typ := be16 pkt cur in
  answers pkt en (if (cls =? DNS_C_ANY)%Z then 0 else cls)%Z
    (if (typ =? DNS_T_ANY)%Z then 0 else typ)%Z (S n) n (cur + 4) (Some qn) 0 4294967295.

(** ** The frame of the parsers *)

(** A well-formed DN that fits its buffers. *)
Definition valid_name (ls : list label) : Prop :=
  wf_labels ls /\ length (encode ls) <= DNS_MAXDN.

(** What the resolver hands to a parser: the DN [q] it asked for, a reply of
    [en] bytes whose question section starts with the uncompressed name
    [question], and the position [cur] of the question's type. *)
Record reply (pkt : str) (en cur : nat) (q : str) (qn question : list label) : Prop := {
  reply_end : en <= length pkt;
  reply_cur : cur + 4 <= en;
  reply_short : short_names pkt en;
  reply_question : holds pkt DNS_HSIZE question;
  reply_valid : valid_name question;
  reply_query : holds q 0 qn;
  reply_qvalid : valid_name qn }.

(** The parts of the environment: [malloc] gives blocks of the size asked for,
    the local buffers have their declared size. *)
Definition malloc_ok (malloc : nat -> option str) : Prop :=
  forall n b, malloc n = Some b -> length b = n.
Definition stack_ok (stack : nat -> str) : Prop := forall k, length (stack k) = DNS_MAXDN.

Lemma text_size m i ls :
  holds m i ls -> valid_name ls -> dns_dntop_size m i = Val (length (asciiz (dn_text ls))).
Proof.
  intros Hm [Hw Hl]. rewrite (dns_dntop_size_holds _ _ _ Hw Hm).
  pose proof (dn_text_fits ls Hw ltac:(unfold DNS_MAXDN in *; lia)).
  rewrite (proj2 (Nat.ltb_ge _ _)) by lia. unfold asciiz. rewrite length_app. simpl. f_equal. lia.
Qed.

(** Texts are appended to the bytes [w] of the block. *)
Lemma text_append m i ls blk w :
  holds m i ls -> valid_name ls ->
  length (w ++ asciiz (dn_text ls)) <= length blk ->
  dns_dntop m i (splice blk 0 w) (length w) DNS_MAXNAME =
    Val (Z.of_nat (length (asciiz (dn_text ls))), splice blk 0 (w ++ asciiz (dn_text ls))).
Proof.
  intros Hm [Hw Hl] Hb. rewrite length_app in Hb.
  assert (Hlen : length (asciiz (dn_text ls)) = S (length (dn_text ls)))
    by (unfold asciiz; rewrite length_app; simpl; lia).
  pose proof (dn_text_fits ls Hw ltac:(unfold DNS_MAXDN in *; lia)) as Hf.
  pose proof (dns_dntop_holds m i ls (splice blk 0 w) (length w) DNS_MAXNAME Hw Hm) as H.
  rewrite length_splice in H by lia. specialize (H ltac:(lia)).
  rewrite (proj2 (Nat.leb_le _ _) Hf) in H. rewrite H, splice_app by lia. by rewrite Hlen.
Qed.

Lemma advance_nat i n : advance i (Z.of_nat n) = Val (i + n).
Proof. unfold advance. rewrite (proj2 (Z.ltb_ge _ _)) by lia. f_equal. lia. Qed.

Lemma splice_whole (blk s : str) : length s = length blk -> splice blk 0 s = s.
Proof. intros H. unfold splice. simpl. rewrite drop_ge by lia. apply app_nil_r. Qed.

Section Names.
Context (pkt : str) (en : nat) (cls typ : Z).
Context (p : dns_parse) (ans : nat) (cn question : list label) (nrr : nat) (ttl : Z).
Context (Hrep : rep pkt en cls typ ans (Some cn) nrr ttl p).
Context (Hq : holds pkt DNS_HSIZE question) (Hqv : valid_name question).

Lemma stdrr_size_run :
  dns_stdrr_size p = Val (length (asciiz (dn_text cn) ++ asciiz (dn_text question))).
Proof.
  destruct (rep_qdn _ _ _ _ _ _ _ _ _ Hrep) as (_ & Hpl & Hw & Hl & m & i & Hd & Hm).
  unfold dns_stdrr_size. rewrite Hd. cbn [mbind cres_bind].
  rewrite (text_size _ _ _ Hm (conj Hw Hl)). cbn [mbind cres_bind].
  rewrite Hpl, (rep_pkt _ _ _ _ _ _ _ _ _ Hrep). unfold dns_payload.
  rewrite (text_size _ _ _ Hq Hqv). cbn [mbind cres_bind]. by rewrite length_app.
Qed.

Lemma stdrr_finish_run blk w :
  length (w ++ asciiz (dn_text cn) ++ asciiz (dn_text question)) = length blk ->
  dns_stdrr_finish (splice blk 0 w) (length w) p =
    Val (mkStd (length w) (length w + length (asciiz (dn_text cn))) ttl,
         w ++ asciiz (dn_text cn) ++ asciiz (dn_text question)).
Proof.
  intros Hb. destruct (rep_qdn _ _ _ _ _ _ _ _ _ Hrep) as (_ & Hpl & Hw & Hl & m & i & Hd & Hm).
  rewrite app_assoc in Hb |- *. pose proof Hb as Hb'. rewrite length_app in Hb'.
  unfold dns_stdrr_finish. rewrite Hd. cbn [mbind cres_bind].
  rewrite (text_append _ _ _ _ _ Hm (conj Hw Hl)) by lia. cbn [mbind cres_bind].
  rewrite advance_nat. cbn [mbind cres_bind].
  rewrite Hpl, (rep_pkt _ _ _ _ _ _ _ _ _ Hrep). unfold dns_payload. rewrite <- length_app.
  rewrite (text_append _ _ _ _ _ Hq Hqv) by lia. cbn [mbind cres_bind].
  rewrite (splice_whole _ _ Hb), (rep_ttl _ _ _ _ _ _ _ _ _ Hrep). done.
Qed.

End Names.

Lemma initparse_run pkt en cur q qn question buf :
  reply pkt en cur q qn question -> length buf = DNS_MAXDN ->
  exists p, dns_initparse buf (PDn q) pkt cur en = Val p /\
    rep pkt en (if be16 pkt (cur + 2) =? DNS_C_ANY then 0 else be16 pkt (cur + 2))%Z
      (if be16 pkt cur =? DNS_T_ANY then 0 else be16 pkt cur)%Z (cur + 4) (Some qn) 0 4294967295 p /\
    dnsp_cur p = cur + 4 /\ dnsp_rrl p = Z.to_nat (be16 pkt 6).
Proof.
  intros [Hen Hcur _ Hq _ Hqn [Hw Hl]] Hb.
  assert (DNS_HSIZE <= length pkt) by (pose proof (holds_length _ _ _ Hq); lia).
  unfold dns_initparse, dns_numan. unfold DNS_HSIZE in *.
  rewrite !dns_get16_run by lia. cbn [mbind cres_bind].
  rewrite (proj2 (Nat.leb_le _ _) Hcur). cbn [negb].
  eexists. split; [done|]. split; [|done]. constructor; try done. split_and!; eauto.
Qed.

Lemma rewind_run pkt en cls typ cur q qn question ans q' nrr ttl p :
  reply pkt en cur q qn question -> rep pkt en cls typ ans q' nrr ttl p ->
  exists p', dns_rewind p (PDn q) = Val p' /\
    rep pkt en cls typ ans (Some qn) 0 4294967295 p' /\
    dnsp_cur p' = ans /\ dnsp_rrl p' = Z.to_nat (be16 pkt 6).
Proof.
  intros [Hen Hcur _ Hq _ Hqn [Hw Hl]] [Hp ? ? ? Hans ? ? ? _].
  assert (DNS_HSIZE <= length pkt) by (pose proof (holds_length _ _ _ Hq); lia).
  unfold dns_rewind, dns_numan. rewrite Hp. unfold DNS_HSIZE in *.
  rewrite dns_get16_run by lia. cbn [mbind cres_bind].
  eexists. split; [done|]. destruct p. simpl in *. subst.
  split; [|done]. constructor; try done. split_and!; eauto.
Qed.

(** A search for a name stays one. *)
Lemma next_rr_named pkt en cls typ n cur qn nrr ttl :
  match next_rr pkt en cls typ n cur (Some qn) nrr ttl with
  | NextBad => True
  | NextEnd q _ | NextHit _ _ q _ => is_Some q
  end.
Proof.
  revert cur qn ttl. induction n as [|n IH]; intros cur qn ttl; cbn [next_rr]; [done|].
  destruct (fit_name pkt en cur) as [[ls c]|]; [|done].
  destruct (_ || _); [done|]. destruct (differs _ _); [apply IH|].
  destruct (wanted _ _ && wanted _ _); [done|].
  destruct (_ && _); [|apply IH]. destruct (fit_name pkt en (c + 10)) as [[alias nx]|]; [|done].
  destruct (_ =? _); [apply IH|done].
Qed.

Lemma answers_named pkt en cls typ fuel n cur qn nrr ttl :
  is_Some (answers pkt en cls typ fuel n cur (Some qn) nrr ttl).1.2.
Proof.
  revert n cur qn nrr ttl. induction fuel as [|fuel IH]; intros n cur qn nrr ttl; cbn [answers]; [done|].
  pose proof (next_rr_named pkt en cls typ n cur qn nrr ttl) as H.
  destruct (next_rr _ _ _ _ _ _ _ _ _) as [|q1 t1|a n1 q1 t1]; [done|done|].
  destruct H as [q ->]. specialize (IH n1 (an_dend a) q (S nrr) t1).
  by destruct (answers _ _ _ _ _ _ _ _ _ _) as [[[l ok] q'] ttl'].
Qed.

Section Frame.
Context (malloc : nat -> option str) (stack : nat -> str).
Context (Hmalloc : malloc_ok malloc) (Hstack : stack_ok stack).
Context (pkt : str) (en cur : nat) (q : str) (qn question : list label).
Context (Hreply : reply pkt en cur q qn question).
Context {S1 S2 R : Type} (size : nat) (good : answer -> bool) (bytes : answer -> str)
  (record : nat -> answer -> list R).
Context (s0 : S1) (count : dns_parse -> dns_rr -> S1 -> cres (Z + S1)) (need : nat -> S1 -> nat)
  (cond : Z -> bool) (init : S1 -> str -> S2)
  (fill : nat -> dns_parse -> dns_rr -> S2 -> cres (Z + S2))
  (out : dns_parse -> S2 -> list R * nat * str).

(** What the loops keep: [Counted] of the first, [Filled] of the second, for a
    block [blk]. *)
Context (Counted : list answer -> S1 -> Prop) (Filled : str -> list answer -> S2 -> Prop).

Record frame_ok (L : list answer) : Prop := {
  fr_start : Counted [] s0;
  fr_count : body_ok en count good L Counted;
  fr_need : forall s, Counted L s -> need (length L) s = length (flat_map bytes L);
  fr_init : forall s blk, Counted L s -> Filled blk [] (init s blk);
  fr_fill : forall blk, forallb good L = true -> length (flat_map bytes L) <= length blk ->
    body_ok en (fill (length L)) good L (Filled blk);
  fr_out : forall blk s p, Filled blk L s -> dnsp_nrr p = length L ->
    out p s = (records_from bytes record 0 L, length (flat_map bytes L),
               splice blk 0 (flat_map bytes L)) }.

Context (Hcond1 : cond 1 = true) (Hcond0 : cond 0 = false).

(** The query as the parser's state holds it. *)
Definition query_rep : nat -> option (list label) -> nat -> Z -> dns_parse -> Prop :=
  rep pkt en (if be16 pkt (cur + 2) =? DNS_C_ANY then 0 else be16 pkt (cur + 2))%Z
    (if be16 pkt cur =? DNS_T_ANY then 0 else be16 pkt cur)%Z.

(** A loop over all the answers, from a state at the first of them. *)
Lemma pass_run {T} c (body : dns_parse -> dns_rr -> T -> cres (Z + T)) I L ok cn ttl p rr s :
  query_answers pkt en cur qn = (L, ok, Some cn, ttl) ->
  body_ok en body good L I -> I [] s ->
  query_rep (cur + 4) (Some qn) 0 4294967295 p -> dnsp_cur p = cur + 4 ->
  dnsp_rrl p = Z.to_nat (be16 pkt 6) -> length (dnsrr_dn rr) = DNS_MAXDN ->
  c 1%Z = true -> c 0%Z = false -> ok = true \/ c (-1)%Z = false ->
  if forallb good L then
    exists r p' rr' s', rr_loop (S (dnsp_rrl p)) c body p rr s = Val (inr (r, p', rr', s')) /\ I L s' /\
      length (dnsrr_dn rr') = DNS_MAXDN /\
      if ok : bool then r = 0%Z /\ query_rep (cur + 4) (Some cn) (length L) ttl p' else r = (-1)%Z
  else rr_loop (S (dnsp_rrl p)) c body p rr s = Val (inl DNS_E_PROTOCOL).
Proof.
  intros HL Hbody Hs Hp Hcur Hrrl Hrr H1 H0 Hok.
  pose proof (rr_loop_rule pkt en _ _ (reply_end _ _ _ _ _ _ Hreply) (reply_short _ _ _ _ _ _ Hreply)
    c body good L I (S (dnsp_rrl p)) p rr [] s (cur + 4) (Some qn) 0 4294967295
    Hbody H1 H0 Hp Hrr (Nat.lt_succ_diag_r _) Hs) as H.
  rewrite Hrrl in H |- *. rewrite Hcur in H. unfold query_answers in HL. cbv zeta in HL.
  rewrite HL in H. exact (H eq_refl Hok).
Qed.

Lemma parse_records_run :
  frame_ok (query_answers pkt en cur qn).1.1.1 ->
  parse_records malloc stack s0 count size need cond init fill out (PDn q) pkt cur en =
    Val (parse_spec malloc size good bytes record question (query_answers pkt en cur qn)).
Proof.
  assert (Hq' : is_Some (query_answers pkt en cur qn).1.2) by apply answers_named.
  destruct (query_answers pkt en cur qn) as [[[L ok] q'] ttl] eqn:EL. cbn [fst snd] in *.
  destruct Hq' as [cn ->]. intros [Hstart Hcount Hneed Hinit Hfill Hout]. unfold parse_records.
  destruct (initparse_run _ _ _ _ _ _ (stack 0) Hreply (Hstack 0)) as (p & -> & Hp & Hcur & Hrrl).
  cbn [mbind cres_bind].
  pose proof (pass_run found count Counted L ok cn ttl p (fresh_rr stack) s0 EL Hcount Hstart
    Hp Hcur Hrrl (Hstack 1) eq_refl eq_refl (or_intror eq_refl)) as H1.
  unfold parse_spec. destruct (forallb good L) eqn:Egood; cbn [andb negb]; [|by rewrite H1].
  destruct H1 as (r & p1 & rr1 & s1 & -> & Hs1 & Hrr1 & Hr). cbn [mbind cres_bind].
  destruct ok; [|by subst r]. destruct Hr as [-> Hp1]. cbn [negb Z.ltb Z.compare].
  rewrite (rep_nrr _ _ _ _ _ _ _ _ _ Hp1).
  destruct (Nat.eqb_spec (length L) 0); [done|].
  rewrite (stdrr_size_run _ _ _ _ _ _ _ _ _ _ Hp1 (reply_question _ _ _ _ _ _ Hreply)
    (reply_valid _ _ _ _ _ _ Hreply)). cbn [mbind cres_bind].
  rewrite (Hneed _ Hs1), <- length_app. cbn [default from_option]. unfold alloc, id.
  destruct (malloc _) as [b|] eqn:Eb; cbn [fmap option_fmap option_map]; [|done].
  apply Hmalloc in Eb. set (blk := drop _ b).
  assert (Hblk : length (flat_map bytes L ++ asciiz (dn_text cn) ++ asciiz (dn_text question)) = length blk)
    by (unfold blk; rewrite length_drop; lia).
  destruct (rewind_run _ _ _ _ _ _ _ _ _ _ _ _ _ Hreply Hp1) as (p2 & -> & Hp2 & Hcur2 & Hrrl2).
  cbn [mbind cres_bind]. assert (Hlen : length (flat_map bytes L) <= length blk)
    by (rewrite <- Hblk, length_app; lia).
  pose proof (pass_run cond (fill (length L)) (Filled blk) L true cn ttl p2 rr1 (init s1 blk) EL
    (Hfill blk eq_refl Hlen) (Hinit _ blk Hs1) Hp2 Hcur2 Hrrl2 Hrr1 Hcond1 Hcond0 (or_introl eq_refl)) as H2.
  rewrite Egood in H2. destruct H2 as (r2 & p3 & rr2 & s2 & -> & Hs2 & _ & _ & Hp3). cbn [mbind cres_bind].
  rewrite (Hout _ _ p3 Hs2 (rep_nrr _ _ _ _ _ _ _ _ _ Hp3)).
  rewrite (stdrr_finish_run _ _ _ _ _ _ _ _ _ _ Hp3 (reply_question _ _ _ _ _ _ Hreply)
    (reply_valid _ _ _ _ _ _ Hreply)) by done. done.
Qed.

End Frame.

(** ** Helpers *)

Lemma flat_map_snoc {A B} (f : A -> list B) l a : flat_map f (l ++ [a]) = flat_map f l ++ f a.
Proof. rewrite flat_map_app. simpl. by rewrite app_nil_r. Qed.

(** The bytes of an answer of the list fit the block. *)
Lemma data_fits (bytes : answer -> str) L done a rest (blk : str) :
  L = done ++ a :: rest -> length (flat_map bytes L) <= length blk ->
  length (flat_map bytes (done ++ [a])) <= length blk.
Proof.
  intros -> H. rewrite flat_map_snoc. rewrite flat_map_app in H. simpl in H.
  rewrite !length_app in *. lia.
Qed.

Lemma good_member (good : answer -> bool) L done a rest :
  forallb good L = true -> L = done ++ a :: rest -> good a = true.
Proof. intros Hg ->. rewrite forallb_app in Hg. simpl in Hg. bools. by bools. Qed.

Lemma put_record_run {R} (L done : list answer) a rest (rs : list R) x :
  L = done ++ a :: rest -> put_record (length L) (length done) rs x = Val (rs ++ [x]).
Proof.
  intros ->. unfold put_record. rewrite (proj2 (Nat.ltb_lt _ _)); [done|].
  rewrite length_app. simpl. lia.
Qed.

Lemma length_asciiz s : length (asciiz s) = S (length s).
Proof. unfold asciiz. rewrite length_app. simpl. lia. Qed.

(** ** Addresses *)

Section Parsers.
Context (pkt : str) (en : nat).
Context (Hen : en <= length pkt) (Hshort : short_names pkt en).

Definition a_good (dsize : nat) (a : answer) : bool := an_dend a - an_dptr a =? dsize.
Definition a_bytes (dsize : nat) (a : answer) : str := take dsize (drop (an_dptr a) pkt).

Lemma a_frame dsize L :
  frame_ok en (R := unit) (a_good dsize) (a_bytes dsize) (fun _ _ => []) tt (count_a dsize)
    (fun nrr _ => dsize * nrr) (fun _ blk => (0, blk)) (fill_a dsize pkt)
    (fun p '(_, blk) => ([], dsize * dnsp_nrr p, blk))
    (fun l _ => length (flat_map (a_bytes dsize) l) = dsize * length l)
    (fun blk l '(r, b) => r = length l /\ b = splice blk 0 (flat_map (a_bytes dsize) l) /\
       length (flat_map (a_bytes dsize) l) = dsize * length l) L.
Proof.
  assert (Hlen : forall rr a, is_answer en rr a -> a_good dsize a = true ->
    an_dptr a + dsize <= length pkt /\ length (a_bytes dsize a) = dsize).
  { intros rr a (_ & _ & _ & Ha) Hg. unfold a_good in Hg. bools. unfold a_bytes.
    rewrite length_take, length_drop. lia. }
  split.
  - simpl. lia.
  - intros done a rest p rr [] _ Ha Hc. unfold count_a, a_good. destruct (Ha) as (_ & _ & -> & _).
    pose proof (Hlen rr a Ha) as Hb. unfold a_good in Hb. revert Hb.
    destruct (Nat.eqb_spec (an_dend a - an_dptr a) dsize) as [E|E]; intros Hb.
    + rewrite (proj2 (Z.eqb_eq _ _)) by lia. exists tt. split; [done|].
      rewrite flat_map_snoc, !length_app, Hc. destruct (Hb eq_refl) as [_ ->]. simpl. lia.
    + by rewrite (proj2 (Z.eqb_neq _ _)) by lia.
  - intros [] H. by rewrite H.
  - intros [] blk _. by rewrite splice_nil.
  - intros blk Hg Hblk done a rest p rr [r b] HL Ha (-> & -> & Hc).
    assert (Hga : a_good dsize a = true).
    { rewrite HL, forallb_app in Hg. simpl in Hg. bools. by bools. }
    rewrite Hga. destruct (Hlen _ _ Ha Hga) as [Hp Hb].
    pose proof (data_fits _ _ _ _ _ _ HL Hblk) as Hfit. rewrite flat_map_snoc, length_app in Hfit.
    unfold fill_a. destruct Ha as (-> & _). rewrite rdn_in by done. cbn [mbind cres_bind].
    fold (a_bytes dsize a). rewrite wrn_in by (rewrite length_splice; lia). cbn [mbind cres_bind].
    rewrite splice_app by lia. eexists. split; [done|].
    rewrite flat_map_snoc, !length_app, Hc. simpl. split_and!; [lia|done|lia].
  - intros blk [r b] p (-> & -> & Hc) ->. rewrite Hc. do 2 f_equal.
    clear. generalize 0. induction L as [|a L IH]; intros n; [done|]. simpl. apply IH.
Qed.

(** ** Records that end with a name *)

(** The name after [skip] bytes of data ends the record. *)
Definition named_good (skip : nat) (a : answer) : bool :=
  match fit_name pkt en (an_dptr a + skip) with
  | Some (_, nx) => nx =? an_dend a
  | None => false
  end.
Definition name_text (pos : nat) : str :=
  match fit_name pkt en pos with
  | Some (ls, _) => asciiz (dn_text ls)
  | None => []
  end.
Definition named_bytes (skip : nat) (a : answer) : str := name_text (an_dptr a + skip).

(** The buffer into which names are read keeps its size. *)
Definition named_counted (bytes : answer -> str) (l : list answer) (s : nat * str) : Prop :=
  s.1 = length (flat_map bytes l) /\ length s.2 = DNS_MAXDN.

Definition named_filled {R} (bytes : answer -> str) (record : nat -> answer -> list R)
    (blk : str) (l : list answer) (s : fill_state R) : Prop :=
  let '(r, rs, sp, b, dn) := s in
  r = length l /\ rs = records_from bytes record 0 l /\ sp = length (flat_map bytes l) /\
  b = splice blk 0 (flat_map bytes l) /\ length dn = DNS_MAXDN.

(** The check of the first loop at a name. *)
Lemma count_name_run pos dend l dn :
  length dn = DNS_MAXDN ->
  let out := ('(r, cur, dn) ← dns_getdn pkt pos en dn 0 DNS_MAXDN;
    if (r <=? 0)%Z || negb (cur =? dend) then Val (inl DNS_E_PROTOCOL)
    else n ← dns_dntop_size dn 0; Val (inr (l + n, dn))) in
  if match fit_name pkt en pos with Some (_, nx) => nx =? dend | None => false end
  then exists dn', out = Val (inr (l + length (name_text pos), dn')) /\ length dn' = DNS_MAXDN
  else out = Val (inl DNS_E_PROTOCOL).
Proof.
  intros Hdn. unfold name_text. pose proof (getdn_buffer pkt pos en dn Hen Hshort Hdn) as H.
  destruct (fit_name pkt en pos) as [[ls nx]|].
  - destruct H as (D & -> & HD & Hls & Hw & Hl & _). cbn [mbind cres_bind].
    pose proof (encode_pos ls). rewrite (proj2 (Z.leb_gt _ _)) by lia. cbn [orb].
    destruct (nx =? dend); cbn [negb]; [|done].
    rewrite (text_size _ _ _ Hls (conj Hw Hl)). by exists D.
  - destruct H as (r & D & -> & Hr & _). cbn [mbind cres_bind].
    by rewrite (proj2 (Z.leb_le _ _) Hr).
Qed.

(** The text of the second loop at the same name. *)
Lemma fill_name_run {T} pos dn blk w (k : nat -> str -> str -> cres T) :
  length dn = DNS_MAXDN -> is_Some (fit_name pkt en pos) ->
  length (w ++ name_text pos) <= length blk ->
  exists dn', length dn' = DNS_MAXDN /\
    ('(_, _, dn) ← dns_getdn pkt pos en dn 0 DNS_MAXDN;
     '(n, b) ← dns_dntop dn 0 (splice blk 0 w) (length w) DNS_MAXNAME;
     sp ← advance (length w) n; k sp b dn) =
    k (length (w ++ name_text pos)) (splice blk 0 (w ++ name_text pos)) dn'.
Proof.
  intros Hdn [[ls nx] Hfit] Hb. unfold name_text in *.
  pose proof (getdn_buffer pkt pos en dn Hen Hshort Hdn) as H. rewrite Hfit in *.
  destruct H as (D & -> & HD & Hls & Hw & Hl & _). cbn [mbind cres_bind].
  rewrite (text_append _ _ _ _ _ Hls (conj Hw Hl)) by done. cbn [mbind cres_bind].
  rewrite advance_nat. cbn [mbind cres_bind]. rewrite <- length_app. by exists D.
Qed.

Lemma named_good_pos skip a :
  named_good skip a = true ->
  is_Some (fit_name pkt en (an_dptr a + skip)) /\ an_dptr a + skip < en.
Proof.
  unfold named_good. destruct (fit_name pkt en (an_dptr a + skip)) as [[ls nx]|] eqn:E; [|done].
  intros _. split; [done|]. unfold fit_name in E.
  destruct (name_at pkt en (an_dptr a + skip)) as [[ls' nx']|] eqn:E'; [|done]. simpl in E.
  destruct (_ <=? _); [|done]. injection E as -> ->. apply read_name_next in E'. lia.
Qed.

Lemma named_count skip L :
  body_ok en (count_name skip pkt en) (named_good skip) L (named_counted (named_bytes skip)).
Proof.
  intros done a rest p rr [l dn] _ (Hd & He & _) [El Hdn]. cbn [fst snd] in El, Hdn.
  unfold count_name, named_good. rewrite Hd, He, El.
  pose proof (count_name_run (an_dptr a + skip) (an_dend a)
    (length (flat_map (named_bytes skip) done)) dn Hdn) as H. cbv zeta in H.
  destruct (fit_name pkt en (an_dptr a + skip)) as [[ls nx]|]; [|exact H].
  destruct (nx =? an_dend a); [|exact H]. destruct H as (dn' & -> & Hdn').
  eexists. split; [reflexivity|]. split; [|exact Hdn']. cbn [fst].
  by rewrite flat_map_snoc, length_app.
Qed.

(** The parsers of records with fixed fields and a name: the second loop stores
    the record [rec], then the text of the name. *)
Definition fills {R} (skip : nat) (rec : nat -> answer -> R)
    (fill : nat -> dns_parse -> dns_rr -> fill_state R -> cres (Z + fill_state R)) : Prop :=
  forall nrr p rr a r rs sp b dn, is_answer en rr a -> named_good skip a = true ->
    fill nrr p rr (r, rs, sp, b, dn) =
      (rs ← put_record nrr r rs (rec sp a);
       '(_, _, dn) ← dns_getdn pkt (an_dptr a + skip) en dn 0 DNS_MAXDN;
       '(k, b) ← dns_dntop dn 0 b sp DNS_MAXNAME;
       sp ← advance sp k;
       Val (inr (S r, rs, sp, b, dn))).

Lemma named_fill {R} skip (rec : nat -> answer -> R) fill L blk :
  fills skip rec fill -> forallb (named_good skip) L = true ->
  length (flat_map (named_bytes skip) L) <= length blk ->
  body_ok en (fill (length L)) (named_good skip) L
    (named_filled (named_bytes skip) (fun off a => [rec off a]) blk).
Proof.
  intros Hfill Hg Hblk done a rest p rr [[[[r rs] sp] b] dnb] HL Ha (-> & -> & -> & -> & Hdn).
  pose proof (good_member _ _ _ _ _ Hg HL) as Hga.
  rewrite Hga, (Hfill _ _ _ _ _ _ _ _ _ Ha Hga), (put_record_run _ _ _ _ _ _ HL), val_bind.
  pose proof (data_fits _ _ _ _ _ _ HL Hblk) as Hfit. rewrite flat_map_snoc in Hfit.
  set (rs' := records_from _ _ _ _ ++ _).
  destruct (fill_name_run (an_dptr a + skip) dnb blk (flat_map (named_bytes skip) done)
    (fun sp b dn => Val (inr (S (length done), rs', sp, b, dn)) : cres (Z + fill_state R))
    Hdn (proj1 (named_good_pos _ _ Hga)) Hfit) as (dn' & Hdn' & Hrun).
  eexists. split; [exact Hrun|]. unfold named_filled.
  rewrite flat_map_snoc, records_app, (length_app done). cbn [records_from app length].
  fold (named_bytes skip a). split_and!; [lia|reflexivity|reflexivity|reflexivity|exact Hdn'].
Qed.

Lemma named_frame {R} skip dn0 (rec : nat -> answer -> R) fill L :
  length dn0 = DNS_MAXDN -> fills skip rec fill ->
  frame_ok en (named_good skip) (named_bytes skip) (fun off a => [rec off a]) (0, dn0)
    (count_name skip pkt en) (fun _ '(l, _) => l) (fun '(_, dn) blk => (0, [], 0, blk, dn)) fill
    (fun _ '(_, rs, sp, blk, _) => (rs, sp, blk))
    (named_counted (named_bytes skip))
    (named_filled (named_bytes skip) (fun off a => [rec off a])) L.
Proof.
  intros Hdn0 Hfill. split.
  - by split.
  - apply named_count.
  - by intros [l dn] [? _].
  - intros [l dn] blk [_ Hdn]. split_and!; try reflexivity. exact Hdn.
  - intros blk Hg Hblk. by apply named_fill.
  - intros blk [[[[r rs] sp] b] dn] p (-> & -> & -> & -> & _) _. reflexivity.
Qed.

Definition mx_record (off : nat) (a : answer) : dns_mx := mkMx (be16 pkt (an_dptr a)) off.
Definition srv_record (off : nat) (a : answer) : dns_srv :=
  mkSrv (be16 pkt (an_dptr a)) (be16 pkt (an_dptr a + 2)) (be16 pkt (an_dptr a + 4)) off.
Definition ptr_record (off : nat) (a : answer) : nat := off.

Lemma fill_mx_run nrr p rr a r rs sp b dn :
  is_answer en rr a -> named_good 2 a = true ->
  fill_mx nrr pkt en p rr (r, rs, sp, b, dn) =
    (rs ← put_record nrr r rs (mx_record sp a);
     '(_, _, dn) ← dns_getdn pkt (an_dptr a + 2) en dn 0 DNS_MAXDN;
     '(k, b) ← dns_dntop dn 0 b sp DNS_MAXNAME;
     sp ← advance sp k;
     Val (inr (S r, rs, sp, b, dn))).
Proof.
  intros [Hd _] Hg. apply named_good_pos in Hg as [_ Hg]. unfold fill_mx. rewrite Hd.
  by rewrite dns_get16_run by lia.
Qed.

Lemma fill_srv_run nrr p rr a r rs sp b dn :
  is_answer en rr a -> named_good 6 a = true ->
  fill_srv nrr pkt en p rr (r, rs, sp, b, dn) =
    (rs ← put_record nrr r rs (srv_record sp a);
     '(_, _, dn) ← dns_getdn pkt (an_dptr a + 6) en dn 0 DNS_MAXDN;
     '(k, b) ← dns_dntop dn 0 b sp DNS_MAXNAME;
     sp ← advance sp k;
     Val (inr (S r, rs, sp, b, dn))).
Proof.
  intros [Hd _] Hg. apply named_good_pos in Hg as [_ Hg]. unfold fill_srv. rewrite Hd.
  by rewrite !dns_get16_run by lia.
Qed.

Lemma fill_ptr_run nrr p rr a r rs sp b dn :
  is_answer en rr a -> named_good 0 a = true ->
  fill_ptr nrr pkt en p rr (r, rs, sp, b, dn) =
    (rs ← put_record nrr r rs (ptr_record sp a);
     '(_, _, dn) ← dns_getdn pkt (an_dptr a + 0) en dn 0 DNS_MAXDN;
     '(k, b) ← dns_dntop dn 0 b sp DNS_MAXNAME;
     sp ← advance sp k;
     Val (inr (S r, rs, sp, b, dn))).
Proof. intros [Hd _] _. unfold fill_ptr. by rewrite Hd, Nat.add_0_r. Qed.

(** ** NAPTR *)

(** The string at [c] and the position after it; it must end before [ep]. *)
Definition string_at (ep c : nat) : option (str * nat) :=
  let n := Z.to_nat (byte_at pkt c) in
  if ep <? S c + n then None else Some (take n (drop (S c) pkt), S c + n).

(** The three strings of the record and the position of its name. *)
Definition naptr_strings (a : answer) : option (str * str * str * nat) :=
  '(s1, c) ← string_at (an_dend a) (an_dptr a + 4);
  '(s2, c) ← string_at (an_dend a) c;
  '(s3, c) ← string_at (an_dend a) c;
  Some (s1, s2, s3, c).

Definition naptr_good (a : answer) : bool :=
  match naptr_strings a with
  | Some (_, _, _, c) =>
      match fit_name pkt en c with Some (_, nx) => nx =? an_dend a | None => false end
  | None => false
  end.
Definition naptr_bytes (a : answer) : str :=
  match naptr_strings a with
  | Some (s1, s2, s3, c) => asciiz s1 ++ asciiz s2 ++ asciiz s3 ++ name_text c
  | None => []
  end.
Definition naptr_record (off : nat) (a : answer) : dns_naptr :=
  match naptr_strings a with
  | Some (s1, s2, s3, _) =>
      let o2 := off + length (asciiz s1) in
      let o3 := o2 + length (asciiz s2) in
      mkNaptr (be16 pkt (an_dptr a)) (be16 pkt (an_dptr a + 2)) off o2 o3 (o3 + length (asciiz s3))
  | None => mkNaptr 0 0 0 0 0 0
  end.

Lemma string_at_len ep c s c' :
  ep <= length pkt -> string_at ep c = Some (s, c') ->
  c' = S c + length s /\ c' <= ep /\ Z.of_nat (length s) = byte_at pkt c.
Proof.
  unfold string_at. intros Hep. pose proof (byte_range pkt c).
  destruct (Nat.ltb_spec ep (S c + Z.to_nat (byte_at pkt c))); [done|].
  intros [= <- <-]. rewrite length_take, length_drop. lia.
Qed.

(** A string counted and, later, copied behind the bytes [w] of the block. *)
Lemma getstr_count ep c :
  c < length pkt -> ep <= length pkt ->
  dns_getstr pkt c ep None =
    match string_at ep c with
    | Some (s, c') => Val (Z.of_nat (length (asciiz s)), c', None)
    | None => Val (DNS_E_PROTOCOL, c, None)
    end.
Proof.
  intros Hc Hep. unfold dns_getstr. rewrite rd_byte by done. cbn [mbind cres_bind].
  destruct (string_at ep c) as [[s c']|] eqn:E.
  - pose proof (string_at_len _ _ _ _ Hep E) as (-> & Hle & Hlen). rewrite <- Hlen, Nat2Z.id.
    rewrite (proj2 (Nat.ltb_ge _ _)) by lia. rewrite length_asciiz. do 3 f_equal. lia.
  - unfold string_at in E. by destruct (ep <? _).
Qed.

Lemma fill_string_run ep c s c' w blk :
  ep <= en -> string_at ep c = Some (s, c') -> length (w ++ asciiz s) <= length blk ->
  fill_string pkt en c (length w) (splice blk 0 w) =
    Val (c', length (w ++ asciiz s), splice blk 0 (w ++ asciiz s)).
Proof.
  intros Hep E Hb. pose proof (string_at_len _ _ _ _ (Nat.le_trans _ _ _ Hep Hen) E) as (-> & Hle & Hlen).
  rewrite length_app, length_asciiz in Hb.
  assert (Hs : take (length s) (drop (S c) pkt) = s).
  { unfold string_at in E. destruct (ep <? _); [done|]. injection E as Hs. rewrite <- Hs at 2.
    by rewrite <- Hlen, Nat2Z.id. }
  unfold fill_string, dns_getstr. rewrite rd_byte by lia. cbn [mbind cres_bind].
  rewrite <- Hlen, Nat2Z.id. rewrite (proj2 (Nat.ltb_ge _ _)) by lia.
  rewrite rdn_in by lia. cbn [mbind cres_bind]. rewrite Hs.
  rewrite wrn_in by (rewrite length_splice; lia). cbn [mbind cres_bind].
  rewrite splice_app by lia. rewrite wr_append by (rewrite ?length_app; lia). cbn [mbind cres_bind].
  replace (Z.of_nat (length s) + 1)%Z with (Z.of_nat (length (asciiz s))) by (rewrite length_asciiz; lia).
  rewrite advance_nat. cbn [mbind cres_bind]. rewrite length_app, <- app_assoc. done.
Qed.

(** The first length byte is read without a test: four bytes of fields and it
    may lie past the packet. *)
Section Slack.
Context (Hslack : en + 5 <= length pkt).

Lemma count_string_run i ep c l :
  c < length pkt -> ep <= length pkt ->
  count_strings (S i) pkt ep c l =
    match string_at ep c with
    | Some (s, c') => count_strings i pkt ep c' (l + length (asciiz s))
    | None => Val (inl DNS_E_PROTOCOL)
    end.
Proof.
  intros Hc Hep. cbn [count_strings]. rewrite (getstr_count _ _ Hc Hep).
  destruct (string_at ep c) as [[s c']|]; rewrite val_bind; [|done].
  rewrite (proj2 (Z.ltb_ge _ _)) by lia. by rewrite Nat2Z.id.
Qed.

Lemma count_strings_run a l :
  an_dptr a <= an_dend a <= en ->
  count_strings 3 pkt (an_dend a) (an_dptr a + 4) l =
    Val (match naptr_strings a with
         | Some (s1, s2, s3, c) =>
             inr (c, l + length (asciiz s1 ++ asciiz s2 ++ asciiz s3))
         | None => inl DNS_E_PROTOCOL
         end).
Proof.
  intros Ha. assert (He : an_dend a <= length pkt) by lia.
  unfold naptr_strings. rewrite count_string_run by lia.
  destruct (string_at (an_dend a) (an_dptr a + 4)) as [[s1 c1]|] eqn:E1; cbn [mbind option_bind]; [|done].
  apply string_at_len in E1 as (_ & H1 & _); [|done]. rewrite count_string_run by lia.
  destruct (string_at (an_dend a) c1) as [[s2 c2]|] eqn:E2; cbn [mbind option_bind]; [|done].
  apply string_at_len in E2 as (_ & H2 & _); [|done]. rewrite count_string_run by lia.
  destruct (string_at (an_dend a) c2) as [[s3 c3]|]; cbn [mbind option_bind count_strings]; [|done].
  rewrite !length_app. do 3 f_equal. lia.
Qed.

Lemma naptr_count L :
  body_ok en (count_naptr pkt en) naptr_good L (named_counted naptr_bytes).
Proof.
  intros done a rest p rr [l dn] _ (Hd & He & _ & Ha) [El Hdn]. cbn [fst snd] in El, Hdn.
  unfold count_naptr. rewrite Hd, He, El, (count_strings_run _ _ Ha), val_bind.
  unfold naptr_good. destruct (naptr_strings a) as [[[[s1 s2] s3] c]|] eqn:Es; [|done].
  pose proof (count_name_run c (an_dend a) (length (flat_map naptr_bytes done) +
    length (asciiz s1 ++ asciiz s2 ++ asciiz s3)) dn Hdn) as H. cbv zeta in H.
  destruct (fit_name pkt en c) as [[ls nx]|]; [|exact H].
  destruct (nx =? an_dend a); [|exact H]. destruct H as (dn' & -> & Hdn').
  eexists. split; [reflexivity|]. split; [|exact Hdn']. cbn [fst].
  rewrite flat_map_snoc. unfold naptr_bytes at 3. rewrite Es, !length_app. lia.
Qed.

Lemma naptr_strings_inv a s1 s2 s3 c :
  naptr_strings a = Some (s1, s2, s3, c) ->
  exists c1 c2, string_at (an_dend a) (an_dptr a + 4) = Some (s1, c1) /\
    string_at (an_dend a) c1 = Some (s2, c2) /\ string_at (an_dend a) c2 = Some (s3, c).
Proof.
  unfold naptr_strings. intros H.
  destruct (string_at (an_dend a) (an_dptr a + 4)) as [[s1' c1]|] eqn:E1; [|done]. simpl in H.
  destruct (string_at (an_dend a) c1) as [[s2' c2]|] eqn:E2; [|done]. simpl in H.
  destruct (string_at (an_dend a) c2) as [[s3' c3]|] eqn:E3; [|done]. simpl in H.
  injection H as <- <- <- <-. by exists c1, c2.
Qed.

Lemma naptr_fill L blk :
  forallb naptr_good L = true -> length (flat_map naptr_bytes L) <= length blk ->
  body_ok en (fill_naptr (length L) pkt en) naptr_good L
    (named_filled naptr_bytes (fun off a => [naptr_record off a]) blk).
Proof.
  intros Hg Hblk done a rest p rr [[[[r rs] sp] b] dnb] HL Ha (-> & -> & -> & -> & Hdn).
  pose proof (good_member _ _ _ _ _ Hg HL) as Hga. rewrite Hga.
  destruct Ha as (Hd & _ & _ & Ha). pose proof (data_fits _ _ _ _ _ _ HL Hblk) as Hfit.
  unfold named_filled. rewrite flat_map_snoc in Hfit |- *. rewrite records_app.
  cbn [records_from app length Nat.add]. rewrite (length_app done).
  set (w := flat_map naptr_bytes done) in *. unfold naptr_record, naptr_good, naptr_bytes in Hfit, Hga |- *.
  destruct (naptr_strings a) as [[[[s1 s2] s3] c]|] eqn:Es; [|done].
  assert (Hname : is_Some (fit_name pkt en c)) by (by destruct (fit_name pkt en c)).
  destruct (naptr_strings_inv _ _ _ _ _ Es) as (c1 & c2 & E1 & E2 & E3).
  assert (Hle : length (w ++ asciiz s1 ++ asciiz s2 ++ asciiz s3 ++ name_text c) <= length blk) by exact Hfit.
  rewrite !app_assoc in Hfit |- *. rewrite !length_app in Hle.
  unfold fill_naptr. rewrite Hd, !dns_get16_run by lia. rewrite !val_bind.
  rewrite (fill_string_run _ _ _ _ _ _ (proj2 Ha) E1) by (rewrite !length_app; lia). rewrite val_bind.
  rewrite (fill_string_run _ _ _ _ _ _ (proj2 Ha) E2) by (rewrite !length_app; lia). rewrite val_bind.
  rewrite (fill_string_run _ _ _ _ _ _ (proj2 Ha) E3) by (rewrite !length_app; lia). rewrite val_bind.
  rewrite (put_record_run _ _ _ _ _ _ HL), val_bind.
  set (rs' := records_from _ _ _ _ ++ _).
  destruct (fill_name_run c dnb blk (((w ++ asciiz s1) ++ asciiz s2) ++ asciiz s3)
    (fun sp b dn => Val (inr (S (length done), rs', sp, b, dn)) : cres (Z + fill_state dns_naptr))
    Hdn Hname Hfit) as (dn' & Hdn' & Hrun).
  eexists. split; [exact Hrun|].
  split_and!; [simpl; lia| |reflexivity|reflexivity|exact Hdn'].
  unfold rs'. by rewrite !length_app.
Qed.

Lemma naptr_frame dn0 L :
  length dn0 = DNS_MAXDN ->
  frame_ok en naptr_good naptr_bytes (fun off a => [naptr_record off a]) (0, dn0)
    (count_naptr pkt en) (fun _ '(l, _) => l) (fun '(_, dn) blk => (0, [], 0, blk, dn))
    (fun nrr => fill_naptr nrr pkt en) (fun _ '(_, rs, sp, blk, _) => (rs, sp, blk))
    (named_counted naptr_bytes)
    (named_filled naptr_bytes (fun off a => [naptr_record off a])) L.
Proof.
  intros Hdn0. split.
  - by split.
  - apply naptr_count.
  - by intros [l dn] [? _].
  - intros [l dn] blk [_ Hdn]. split_and!; try reflexivity. exact Hdn.
  - intros blk Hg Hblk. by apply naptr_fill.
  - intros blk [[[[r rs] sp] b] dn] p (-> & -> & -> & -> & _) _. reflexivity.
Qed.

End Slack.

(** ** TXT *)

(** The strings from [c] to [ep], one after the other; they must fill the data. *)
Fixpoint strings_from (fuel ep c : nat) : option str :=
  match fuel with
  | O => None
  | S fuel =>
      if negb (c <? ep) then Some []
      else '(s, c) ← string_at ep c; t ← strings_from fuel ep c; Some (s ++ t)
  end.

Definition txt_data (a : answer) : option str :=
  strings_from (S (an_dend a)) (an_dend a) (an_dptr a).
Definition txt_good (a : answer) : bool := bool_decide (is_Some (txt_data a)).
Definition txt_bytes (a : answer) : str := asciiz (default [] (txt_data a)).
Definition txt_record (off : nat) (a : answer) : dns_txt :=
  mkTxt (length (default [] (txt_data a))) off.

Lemma count_texts_run fuel ep c l :
  ep <= length pkt -> ep < c + fuel -> 0 < fuel ->
  count_texts fuel pkt c ep l =
    Val (match strings_from fuel ep c with
         | Some t => inr (l + length t)
         | None => inl DNS_E_PROTOCOL
         end).
Proof.
  intros Hep. revert c l. induction fuel as [|fuel IH]; intros c l Hc Hf; [lia|].
  cbn [count_texts strings_from]. destruct (Nat.ltb_spec c ep); cbn [negb].
  2:{ simpl. by rewrite Nat.add_0_r. }
  rewrite rd_byte by lia. rewrite val_bind.
  destruct (string_at ep c) as [[s c']|] eqn:E.
  - pose proof (string_at_len _ _ _ _ Hep E) as (-> & Hle & Hlen).
    rewrite <- Hlen, Nat2Z.id, (proj2 (Nat.ltb_ge _ _)) by lia. rewrite IH by lia.
    cbn [mbind option_bind]. destruct (strings_from fuel ep (S c + length s)); [|done].
    cbn [mbind option_bind]. rewrite length_app. do 2 f_equal. lia.
  - unfold string_at in E. destruct (ep <? _); done.
Qed.

Lemma fill_texts_run fuel ep c t w blk :
  ep <= length pkt -> ep < c + fuel ->
  strings_from fuel ep c = Some t -> length (w ++ t) <= length blk ->
  fill_texts fuel pkt c ep (length w) (splice blk 0 w) =
    Val (length (w ++ t), splice blk 0 (w ++ t)).
Proof.
  intros Hep. revert c t w. induction fuel as [|fuel IH]; intros c t w Hc; [done|].
  cbn [fill_texts strings_from]. destruct (Nat.ltb_spec c ep); cbn [negb].
  2:{ intros [= <-] _. by rewrite app_nil_r. }
  destruct (string_at ep c) as [[s c']|] eqn:E; [|done]. cbn [mbind option_bind].
  destruct (strings_from fuel ep c') as [t'|] eqn:Et; [|done]. cbn [mbind option_bind].
  intros [= <-] Hb. pose proof (string_at_len _ _ _ _ Hep E) as (-> & Hle & Hlen).
  assert (Hs : take (length s) (drop (S c) pkt) = s).
  { unfold string_at in E. destruct (ep <? _); [done|]. injection E as Hs. rewrite <- Hs at 2.
    by rewrite <- Hlen, Nat2Z.id. }
  rewrite app_assoc in Hb |- *. pose proof Hb as Hb'. rewrite !length_app in Hb'.
  rewrite rd_byte by lia. rewrite val_bind, <- Hlen, Nat2Z.id.
  rewrite rdn_in by lia. rewrite val_bind, Hs, wrn_in by (rewrite length_splice; lia).
  rewrite val_bind, splice_app by lia. rewrite <- length_app. apply IH; [lia|done|done].
Qed.

Definition txt_filled (blk : str) (l : list answer) (s : nat * list dns_txt * nat * str) : Prop :=
  let '(r, rs, sp, b) := s in
  r = length l /\ rs = records_from txt_bytes (fun off a => [txt_record off a]) 0 l /\
  sp = length (flat_map txt_bytes l) /\ b = splice blk 0 (flat_map txt_bytes l).

Lemma txt_fill L blk :
  forallb txt_good L = true -> length (flat_map txt_bytes L) <= length blk ->
  body_ok en (fill_txt (length L) pkt) txt_good L (txt_filled blk).
Proof.
  intros Hg Hblk done a rest p rr [[[r rs] sp] b] HL (Hd & He & _ & Ha) (-> & -> & -> & ->).
  pose proof (good_member _ _ _ _ _ Hg HL) as Hga. rewrite Hga.
  unfold txt_good in Hga. apply bool_decide_eq_true in Hga as [t Ht].
  assert (Hbytes : txt_bytes a = asciiz t) by (unfold txt_bytes; by rewrite Ht).
  pose proof (data_fits _ _ _ _ _ _ HL Hblk) as Hfit.
  rewrite flat_map_snoc, Hbytes in Hfit. unfold asciiz in Hfit. rewrite app_assoc, length_app in Hfit.
  simpl in Hfit. unfold fill_txt. rewrite Hd, He.
  rewrite (fill_texts_run _ _ _ t) by (done || lia). rewrite val_bind.
  rewrite (put_record_run _ _ _ _ _ _ HL), val_bind, wr_append by lia. rewrite val_bind.
  eexists. split; [reflexivity|]. unfold txt_filled.
  rewrite flat_map_snoc, records_app, (length_app done), Hbytes. cbn [records_from app length Nat.add].
  unfold txt_record. rewrite Ht. cbn [default from_option]. unfold id, asciiz. rewrite <- app_assoc, !length_app.
  split_and!; [simpl; lia| |simpl; lia|reflexivity].
  do 3 f_equal. lia.
Qed.

Lemma txt_frame L :
  frame_ok en txt_good txt_bytes (fun off a => [txt_record off a]) 0
    (count_txt pkt) (fun nrr l => l + nrr) (fun _ blk => (0, [], 0, blk))
    (fun nrr => fill_txt nrr pkt) (fun _ '(_, rs, sp, blk) => (rs, sp, blk))
    (fun l n => n + length l = length (flat_map txt_bytes l)) txt_filled L.
Proof.
  split.
  - done.
  - intros done a rest p rr l _ (Hd & He & _ & Ha) Hl. unfold count_txt. rewrite Hd, He.
    rewrite count_texts_run by lia. unfold txt_good, txt_data.
    destruct (strings_from _ _ _) as [t|] eqn:Et; [|done]. eexists. split; [reflexivity|].
    rewrite flat_map_snoc. unfold txt_bytes at 2, txt_data. rewrite Et, !length_app, <- Hl, length_asciiz.
    simpl. lia.
  - done.
  - intros s blk _. split_and!; reflexivity.
  - intros blk Hg Hblk. by apply txt_fill.
  - intros blk [[[r rs] sp] b] p (-> & -> & -> & ->) _. reflexivity.
Qed.

End Parsers.
