(* ===== verification/DnsTheorems.v ===== *)
(** * The DNS resolver's names and replies

    The properties of [DnsName] and [DnsParse], each with an instance on concrete
    bytes. *)

From S2P Require Import Prelude CMem DnsName DnsNameFacts DnsTextFacts DnsParse DnsParseFacts DnsLoops DnsQueries DnsRecords.
Open Scope nat_scope.

(** ** Concrete names and replies *)

(** Decidable forms of the conditions on names and packets. *)
#[export] Instance wf_label_dec l : Decision (wf_label l).
Proof. unfold wf_label. apply _. Defined.
#[export] Instance valid_name_dec ls : Decision (valid_name ls).
Proof. unfold valid_name, wf_labels. apply _. Defined.

Definition short_check (pkt : str) (en : nat) : bool :=
  forallb (fun pos => match name_at pkt en pos with
                      | Some (ls, _) => negb (length (encode ls) =? S DNS_MAXDN)
                      | None => true
                      end) (seq 0 en).

Lemma short_check_ok pkt en : short_check pkt en = true -> short_names pkt en.
Proof.
  intros H pos ls nx E. unfold short_check in H. rewrite forallb_forall in H.
  destruct (read_name_next _ _ _ _ _ _ _ E) as [Hp He].
  specialize (H pos). rewrite E in H. apply Nat.eqb_neq, negb_true_iff, H, in_seq. lia.
Qed.

Definition be (n : nat) (z : Z) : str := map (fun i => chr (Z.shiftr z (8 * (Z.of_nat n - 1 - Z.of_nat i)))) (seq 0 n).
Definition a_name : list label := [ #"sip"; #"example"; #"org" ].

(** A header announcing one question and [n] answers. *)
Definition header (n : Z) : str := be 2 7 ++ be 2 33152 ++ be 2 1 ++ be 2 n ++ be 4 0.
Definition question_of (name : list label) (typ : Z) : str := encode name ++ be 2 typ ++ be 2 1.
(** A record for the name at the start of the question section. *)
Definition rr_of (typ : Z) (ttl : Z) (data : str) : str :=
  be 2 49164 ++ be 2 typ ++ be 2 1 ++ be 4 ttl ++ be 2 (Z.of_nat (length data)) ++ data.

Definition zero_malloc (n : nat) : option str := Some (replicate n (chr 0)).
Definition zero_stack (k : nat) : str := replicate DNS_MAXDN (chr 0).

Lemma zero_malloc_ok : malloc_ok zero_malloc.
Proof. intros n b [= <-]. apply length_replicate. Qed.
Lemma zero_stack_ok : stack_ok zero_stack.
Proof. intros k. apply length_replicate. Qed.

Definition holds_check (m : str) (i : nat) (ls : list label) : bool :=
  bool_decide (take (length (encode ls)) (drop i m) = encode ls).

Lemma holds_check_ok m i ls : holds_check m i ls = true -> holds m i ls.
Proof.
  intros H. apply bool_decide_eq_true in H. exists (drop (length (encode ls)) (drop i m)).
  rewrite <- H at 1. symmetry. apply take_drop.
Qed.

(** The conditions on a reply, by evaluation. *)
Definition reply_check (pkt : str) (en cur : nat) (q : str) (qn question : list label) : bool :=
  (en <=? length pkt) && (cur + 4 <=? en) && short_check pkt en &&
  holds_check pkt DNS_HSIZE question && bool_decide (valid_name question) &&
  holds_check q 0 qn && bool_decide (valid_name qn).

Lemma reply_check_ok pkt en cur q qn question :
  reply_check pkt en cur q qn question = true -> reply pkt en cur q qn question.
Proof.
  unfold reply_check. intros H. bools.
  constructor; auto using short_check_ok, holds_check_ok; by eapply bool_decide_eq_true.
Qed.

(** ** Text *)

(** The text of a domain name denotes the name: what [dns_dntop] writes for a
    valid DN is read back by [dns_ptodn] as the same bytes, whatever the labels
    contain. *)
Theorem dn_text_roundtrip ls name dn :
  valid_name ls -> length name = DNS_MAXNAME -> length dn = DNS_MAXDN ->
  exists name',
    dns_dntop (encode ls) 0 name 0 DNS_MAXNAME = Val (Z.of_nat (S (length (dn_text ls))), name') /\
    dns_ptodn name' 0 0 dn 0 DNS_MAXDN =
      Val (Z.of_nat (length (encode ls)), Some (bool_decide (ls = [])), splice dn 0 (encode ls)).
Proof.
  intros [Hw Hl] Hn Hd.
  pose proof (dn_text_fits ls Hw ltac:(unfold DNS_MAXDN in *; lia)) as Hf.
  pose proof (dns_dntop_holds (encode ls) 0 ls name 0 DNS_MAXNAME Hw (holds_encode ls) ltac:(lia)) as H.
  rewrite (proj2 (Nat.leb_le _ _) Hf) in H. eexists. split; [exact H|].
  set (m := splice name 0 (asciiz (dn_text ls))).
  assert (Hm : exists t, drop 0 m = dn_text ls ++ chr 0 :: t).
  { eexists. unfold m. rewrite drop_splice by lia. unfold asciiz. by rewrite <- app_assoc. }
  destruct Hm as [t Ht].
  assert (Htext : text_at m 0 0 (dn_text ls)).
  { eexists. split; [exact Ht|]. exact (strlen_asciiz _ _ _ _ Ht (dn_text_nonzero ls)). }
  pose proof (dns_ptodn_holds _ _ _ _ dn 0 DNS_MAXDN Htext ltac:(done) ltac:(unfold room; simpl; lia)) as Hp.
  rewrite (parse_dn_text ls Hw) in Hp. unfold ptodn_spec in Hp.
  change (room DNS_MAXDN) with DNS_MAXDN in Hp. by rewrite (proj2 (Nat.leb_le _ _) Hl) in Hp.
Qed.

Definition odd_name : list label := [ [chr 0; chr 46; chr 92; chr 200; chr 34]; #"a b" ].

Lemma dn_text_roundtrip_witness :
  valid_name odd_name /\
  exists name', dns_dntop (encode odd_name) 0 (replicate DNS_MAXNAME (chr 1)) 0 DNS_MAXNAME =
      Val (Z.of_nat (S (length (dn_text odd_name))), name') /\
    dns_ptodn name' 0 0 (replicate DNS_MAXDN (chr 1)) 0 DNS_MAXDN =
      Val (Z.of_nat (length (encode odd_name)), Some (bool_decide (odd_name = [])),
           splice (replicate DNS_MAXDN (chr 1)) 0 (encode odd_name)).
Proof.
  split; [apply (bool_decide_unpack (valid_name odd_name)); vm_compute; exact I|].
  apply (dn_text_roundtrip odd_name (replicate DNS_MAXNAME (chr 1)) (replicate DNS_MAXDN (chr 1))).
  - apply (bool_decide_unpack (valid_name odd_name)). vm_compute. exact I.
  - apply length_replicate.
  - apply length_replicate.
Defined.

(** [dns_ptodn] on any text: it writes only inside the [dnsiz] bytes it is
    given (at most 255), and it succeeds exactly when the text denotes a name
    whose wire form fits them, with that wire form as result. *)
Theorem ptodn_in_bounds text dn off dnsiz :
  Forall (fun c => uchar c <> 0%Z) text -> 1 <= dnsiz -> off + Nat.min dnsiz DNS_MAXDN <= length dn ->
  let out := dns_ptodn (asciiz text) 0 0 dn off dnsiz in
  (exists ls abs, parse_name text = Some (ls, abs) /\ wf_labels ls /\
     length (encode ls) <= Nat.min dnsiz DNS_MAXDN /\
     out = Val (Z.of_nat (length (encode ls)), Some abs, splice dn off (encode ls))) \/
  (forall ls abs, parse_name text = Some (ls, abs) -> Nat.min dnsiz DNS_MAXDN < length (encode ls)) /\
  exists r x, out = Val (r, None, splice dn off x) /\ (r <= 0)%Z /\ length x <= Nat.min dnsiz DNS_MAXDN.
Proof.
  intros Ht Hd HD out. assert (Hroom : room dnsiz = Nat.min dnsiz DNS_MAXDN)
    by (unfold room; brk; bools; lia).
  pose proof (dns_ptodn_holds _ _ _ _ dn off dnsiz (text_at_asciiz text Ht) ltac:(lia) ltac:(lia)) as H.
  fold out in H. unfold ptodn_spec in H. rewrite Hroom in H.
  destruct (parse_name text) as [[ls abs]|] eqn:E; [|by right].
  destruct (Nat.leb_spec (length (encode ls)) (Nat.min dnsiz DNS_MAXDN)).
  - left. exists ls, abs. split_and!; [done|by eapply parse_name_wf|done|done].
  - right. split; [|done]. by intros ls' abs' [= <- <-].
Qed.

Lemma ptodn_in_bounds_witness :
  Forall (fun c => uchar c <> 0%Z) (#"sip.example.org") /\
  dns_ptodn (asciiz (#"sip.example.org")) 0 0 (replicate 20 (chr 1)) 0 20 =
    Val (Z.of_nat (length (encode a_name)), Some false, splice (replicate 20 (chr 1)) 0 (encode a_name)).
Proof.
  assert (Ht : Forall (fun c => uchar c <> 0%Z) (#"sip.example.org")) by (repeat constructor; vm_compute; discriminate).
  split; [exact Ht|].
  destruct (ptodn_in_bounds (#"sip.example.org") (replicate 20 (chr 1)) 0 20 Ht)
    as [(ls & abs & E & _ & _ & H)|[H _]].
  - lia.
  - simpl. lia.
  - assert (E' : Some (ls, abs) = Some (a_name, false)) by (rewrite <- E; vm_compute; reflexivity).
    injection E' as -> ->. exact H.
  - specialize (H a_name false ltac:(vm_compute; reflexivity)). exfalso. revert H. vm_compute. lia.
Defined.

(** [dns_dntop_size] is in sync with [dns_dntop], as its comment asks: it
    returns the size with which the conversion succeeds, and any smaller buffer is
    refused without writing past it. *)
Theorem dntop_size_in_sync ls name start namesiz :
  valid_name ls -> start + namesiz <= length name ->
  exists n, dns_dntop_size (encode ls) 0 = Val n /\ 1 <= n /\
    if n <=? namesiz
    then dns_dntop (encode ls) 0 name start namesiz =
           Val (Z.of_nat n, splice name start (asciiz (dn_text ls)))
    else exists w r, length w <= namesiz /\ (r <= 0)%Z /\
           dns_dntop (encode ls) 0 name start namesiz = Val (r, splice name start w).
Proof.
  intros Hv Hs. pose proof Hv as [Hw Hl]. pose proof (text_size _ _ _ (holds_encode ls) Hv) as Hsize.
  rewrite length_asciiz in Hsize. eexists. split; [exact Hsize|]. split; [lia|].
  pose proof (dns_dntop_holds (encode ls) 0 ls name start namesiz Hw (holds_encode ls) ltac:(lia)) as H.
  destruct (S (length (dn_text ls)) <=? namesiz); [done|].
  destruct H as (w & Hwl & H). exists w, (dntop_toolong namesiz). split_and!; [done| |done].
  unfold dntop_toolong. by destruct (_ <=? _).
Qed.

Lemma dntop_size_in_sync_witness :
  valid_name a_name /\
  exists n, dns_dntop_size (encode a_name) 0 = Val n /\ 1 <= n /\
    if n <=? 15
    then dns_dntop (encode a_name) 0 (replicate 15 (chr 1)) 0 15 =
           Val (Z.of_nat n, splice (replicate 15 (chr 1)) 0 (asciiz (dn_text a_name)))
    else exists w r, length w <= 15 /\ (r <= 0)%Z /\
           dns_dntop (encode a_name) 0 (replicate 15 (chr 1)) 0 15 = Val (r, splice (replicate 15 (chr 1)) 0 w).
Proof.
  assert (Hv : valid_name a_name) by (apply (bool_decide_unpack (valid_name a_name)); vm_compute; exact I).
  split; [exact Hv|]. apply (dntop_size_in_sync a_name (replicate 15 (chr 1)) 0 15 Hv). simpl. lia.
Defined.

(** ** Termination *)

(** C36: every function on names ends on every input, malformed names, names
    without a terminator and circular compression pointers included. *)
Theorem name_functions_end :
  (forall m i, dns_dnlen m i <> Endless) /\
  (forall m i, dns_dnlabels m i <> Endless) /\
  (forall m i m' i', dns_dnequal m i m' i' <> Endless) /\
  (forall m name len dn off dnsiz, dns_ptodn m name len dn off dnsiz <> Endless) /\
  (forall m i, dns_dntop_size m i <> Endless) /\
  (forall m i name start size, dns_dntop m i name start size <> Endless) /\
  (forall pkt cur en, dns_skipdn pkt cur en <> Endless) /\
  (forall pkt cur en dn off dnsiz, dns_getdn pkt cur en dn off dnsiz <> Endless).
Proof.
  split_and!; intros.
  - apply ends_bind; [apply dnlen_ends; lia|walk].
  - apply dnlabels_ends. lia.
  - apply dnequal_ends. lia.
  - unfold dns_ptodn. apply ends_bind; [destruct (len =? 0); [apply strlen_ends; lia|done]|].
    intros n _. destruct (dnsiz =? 0); [done|]. apply ends_bind; [apply ptodn_ends; lia|walk].
  - apply ends_bind; [apply dntop_size_ends; lia|walk].
  - apply ends_bind; [apply dntop_ends; lia|walk].
  - apply skipdn_ends. lia.
  - apply ends_bind; [|walk]. pose proof (getdn_fuel_ok (getdn_room dnsiz)) as Hf.
    fold (getdn_room dnsiz). apply getdn_ends; [|lia]. simpl.
    assert (getdn_room dnsiz <= DNS_MAXDN) by (unfold getdn_room; brk; bools; lia). lia.
Qed.

(** ** Names in a packet *)

(** C21: [dns_getdn] decodes the name at a position of the packet, following
    compression pointers, into its buffer: with the result and the position the
    specification gives when the name fits, a refusal otherwise.  The one
    exception is a name of one byte more than the buffer: its terminator is
    written behind the buffer. *)
Theorem getdn_decodes pkt cur en dn off dnsiz :
  en <= length pkt -> 1 <= dnsiz -> off + Nat.min dnsiz DNS_MAXDN = length dn ->
  let out := dns_getdn pkt cur en dn off dnsiz in
  match name_at pkt en cur with
  | Some (ls, nx) =>
      if length (encode ls) <=? Nat.min dnsiz DNS_MAXDN then
        wf_labels ls /\ cur < nx <= en /\
        out = Val (Z.of_nat (length (encode ls)), nx, splice dn off (encode ls))
      else if length (encode ls) =? S (Nat.min dnsiz DNS_MAXDN) then out = Fault
      else exists r dn', out = Val (r, cur, dn') /\ (r <= 0)%Z /\ length dn' = length dn
  | None => exists r dn', out = Val (r, cur, dn') /\ (r <= 0)%Z /\ length dn' = length dn
  end.
Proof.
  intros Hen Hd HD out. assert (Hroom : getdn_room dnsiz = Nat.min dnsiz DNS_MAXDN)
    by (unfold getdn_room; brk; bools; lia).
  pose proof (dns_getdn_holds pkt cur en dn off dnsiz Hen Hd ltac:(lia)) as H. fold out in H.
  rewrite Hroom in H.
  assert (Hr : getdn_refuses dn off (Nat.min dnsiz DNS_MAXDN) cur out ->
    exists r dn', out = Val (r, cur, dn') /\ (r <= 0)%Z /\ length dn' = length dn).
  { intros (r & x & -> & ? & ?). eexists _, _. split_and!; [done|done|]. rewrite length_splice; lia. }
  destruct (name_at pkt en cur) as [[ls nx]|] eqn:E; [|auto].
  destruct (Nat.leb_spec (length (encode ls)) (Nat.min dnsiz DNS_MAXDN)).
  - rewrite !(proj2 (Nat.leb_le _ _)) in H by lia.
    split; [exact (read_name_wf _ _ _ _ _ _ _ Hen E)|]. split; [exact (read_name_next _ _ _ _ _ _ _ E)|done].
  - destruct (Nat.eqb_spec (length (encode ls)) (S (Nat.min dnsiz DNS_MAXDN))).
    + rewrite (proj2 (Nat.leb_le _ _)) in H by lia. by rewrite (proj2 (Nat.leb_gt _ _)) in H by lia.
    + rewrite (proj2 (Nat.leb_gt _ _)) in H by lia. auto.
Qed.

(** The name [sip.example.org], then a pointer to its second label. *)
Definition pointing : str := header 0 ++ encode a_name ++ chr 3 :: #"www" ++ be 2 49168.

Lemma getdn_decodes_witness :
  dns_getdn pointing 29 (length pointing) (replicate 20 (chr 1)) 0 20 =
    Val (Z.of_nat (length (encode [ #"www"; #"example"; #"org" ])), length pointing,
         splice (replicate 20 (chr 1)) 0 (encode [ #"www"; #"example"; #"org" ])).
Proof.
  pose proof (getdn_decodes pointing 29 (length pointing) (replicate 20 (chr 1)) 0 20
    (Nat.le_refl _) ltac:(lia) ltac:(reflexivity)) as H.
  assert (E : name_at pointing (length pointing) 29 = Some ([ #"www"; #"example"; #"org" ], length pointing))
    by (vm_compute; reflexivity).
  rewrite E in H. change (length (encode [ #"www"; #"example"; #"org" ]) <=? Nat.min 20 DNS_MAXDN) with true in H.
  exact (proj2 (proj2 H)).
Defined.

(** A name of 256 bytes: three labels of 63 bytes and one of 62. *)
Definition long_name : list label :=
  [replicate 63 (chr 97); replicate 63 (chr 97); replicate 63 (chr 97); replicate 62 (chr 97)].

(** A reply can make [dns_getdn] write behind the 255 bytes of the buffers
    its callers pass: the room is tested against the start of the buffer. *)
Theorem getdn_overflow :
  dns_getdn (header 0 ++ encode long_name) 12 (12 + 256) (replicate DNS_MAXDN (chr 0)) 0 DNS_MAXDN = Fault.
Proof. vm_compute. reflexivity. Qed.

(** ** Replies *)

Lemma assert_query_run pkt cur typ :
  cur + 4 <= length pkt -> be16 pkt (cur + 2) = DNS_C_IN -> be16 pkt cur = typ ->
  assert_query pkt cur typ = Val tt.
Proof.
  intros H Hc Ht. unfold assert_query. rewrite !dns_get16_run by lia. rewrite val_bind, Hc. simpl.
  by rewrite Ht, Z.eqb_refl.
Qed.

Section Replies.
Context (malloc : nat -> option str) (stack : nat -> str).
Context (pkt : str) (en cur : nat) (q : str) (qn question : list label).


(** The same for MX records, *)
Theorem mx_reply_parsed :
  malloc_ok malloc -> stack_ok stack -> reply pkt en cur q qn question ->
  be16 pkt (cur + 2) = DNS_C_IN -> be16 pkt cur = DNS_T_MX ->
  dns_parse_mx malloc stack (PDn q) pkt cur en =
    Val (parse_spec malloc sizeof_mx (named_good pkt en 2) (named_bytes pkt en 2)
           (fun off a => [mx_record pkt off a]) question (query_answers pkt en cur qn)).
Proof.
  intros Hm Hs Hr Hc Ht. pose proof Hr as [Hen Hcur Hshort _ _ _ _]. unfold dns_parse_mx.
  rewrite assert_query_run by (done || lia). rewrite val_bind. unfold parse_named.
  eapply parse_records_run; try done.
  apply named_frame; try done. intros ? ? ? ? ? ? ? ? ?. by apply fill_mx_run.
Qed.

(** for PTR records, *)
Theorem ptr_reply_parsed :
  malloc_ok malloc -> stack_ok stack -> reply pkt en cur q qn question ->
  be16 pkt (cur + 2) = DNS_C_IN -> be16 pkt cur = DNS_T_PTR ->
  dns_parse_ptr malloc stack (PDn q) pkt cur en =
    Val (parse_spec malloc sizeof_ptr (named_good pkt en 0) (named_bytes pkt en 0)
           (fun off a => [ptr_record off a]) question (query_answers pkt en cur qn)).
Proof.
  intros Hm Hs Hr Hc Ht. pose proof Hr as [Hen Hcur Hshort _ _ _ _]. unfold dns_parse_ptr.
  rewrite assert_query_run by (done || lia). rewrite val_bind. unfold parse_named.
  eapply parse_records_run; try done.
  apply named_frame; try done. intros ? ? ? ? ? ? ? ? ?. by apply fill_ptr_run.
Qed.

(** and for TXT records, of any class. *)
Theorem txt_reply_parsed :
  malloc_ok malloc -> stack_ok stack -> reply pkt en cur q qn question ->
  be16 pkt cur = DNS_T_TXT ->
  dns_parse_txt malloc stack (PDn q) pkt cur en =
    Val (parse_spec malloc sizeof_txt (txt_good pkt) (txt_bytes pkt)
           (fun off a => [txt_record pkt off a]) question (query_answers pkt en cur qn)).
Proof.
  intros Hm Hs Hr Ht. pose proof Hr as [Hen Hcur Hshort _ _ _ _]. unfold dns_parse_txt.
  rewrite dns_get16_run by lia. rewrite val_bind, Ht. simpl negb. cbv iota.
  eapply parse_records_run; try done. by apply txt_frame.
Qed.

(** The addresses of a reply: [dns_parse_a4] returns the four bytes of every
    A record that answers the query, one after the other at the start of the
    block, and the two names; an answer of any other size is a protocol error. *)
Theorem a4_reply_parsed :
  malloc_ok malloc -> stack_ok stack -> reply pkt en cur q qn question ->
  be16 pkt (cur + 2) = DNS_C_IN -> be16 pkt cur = DNS_T_A ->
  dns_parse_a4 malloc stack (PDn q) pkt cur en =
    Val (parse_spec malloc 0 (a_good 4) (a_bytes pkt 4) (fun _ _ => []) question
           (query_answers pkt en cur qn)).
Proof.
  intros Hm Hs Hr Hc Ht. pose proof Hr as [Hen Hcur Hshort _ _ _ _]. unfold dns_parse_a4.
  rewrite assert_query_run by (done || lia). rewrite val_bind. unfold dns_parse_a.
  eapply parse_records_run; try done. by apply a_frame.
Qed.

Theorem a6_reply_parsed :
  malloc_ok malloc -> stack_ok stack -> reply pkt en cur q qn question ->
  be16 pkt (cur + 2) = DNS_C_IN -> be16 pkt cur = DNS_T_AAAA ->
  dns_parse_a6 malloc stack (PDn q) pkt cur en =
    Val (parse_spec malloc 0 (a_good 16) (a_bytes pkt 16) (fun _ _ => []) question
           (query_answers pkt en cur qn)).
Proof.
  intros Hm Hs Hr Hc Ht. pose proof Hr as [Hen Hcur Hshort _ _ _ _]. unfold dns_parse_a6.
  rewrite assert_query_run by (done || lia). rewrite val_bind. unfold dns_parse_a.
  eapply parse_records_run; try done. by apply a_frame.
Qed.

(** The NAPTR records of a reply: order and preference, the three strings
    and the text of the replacement of every record that answers the query, when
    at least five more bytes can be read behind the packet. *)
Theorem naptr_reply_parsed :
  malloc_ok malloc -> stack_ok stack -> reply pkt en cur q qn question -> en + 5 <= length pkt ->
  be16 pkt (cur + 2) = DNS_C_IN -> be16 pkt cur = DNS_T_NAPTR ->
  dns_parse_naptr malloc stack (PDn q) pkt cur en =
    Val (parse_spec malloc sizeof_naptr (naptr_good pkt en) (naptr_bytes pkt en)
           (fun off a => [naptr_record pkt off a]) question (query_answers pkt en cur qn)).
Proof.
  intros Hm Hs Hr Hslack Hc Ht. pose proof Hr as [Hen Hcur Hshort _ _ _ _]. unfold dns_parse_naptr.
  rewrite assert_query_run by (done || lia). rewrite val_bind. unfold parse_named.
  eapply parse_records_run; try done. by apply naptr_frame.
Qed.

End Replies.

(** Two SRV records for [sip.example.org]; the second target ends with a pointer
    to the name that was asked. *)
Definition srv_packet : str :=
  header 2 ++ question_of a_name DNS_T_SRV ++
  rr_of DNS_T_SRV 60 (be 2 10 ++ be 2 5 ++ be 2 5060 ++ encode [ #"gw"; #"net" ]) ++
  rr_of DNS_T_SRV 30 (be 2 20 ++ be 2 0 ++ be 2 5061 ++ chr 1 :: #"b" ++ be 2 49164).


Definition a4_packet : str :=
  header 2 ++ question_of a_name DNS_T_A ++
  rr_of DNS_T_CNAME 90 (encode [ #"gw"; #"net" ]) ++
  (encode [ #"GW"; #"NET" ] ++ be 2 DNS_T_A ++ be 2 1 ++ be 4 60 ++ be 2 4 ++ be 4 3221225985).

(** The alias is followed: the answer is for its target. *)
Lemma a4_reply_parsed_witness :
  dns_parse_a4 zero_malloc zero_stack (PDn (encode a_name)) a4_packet 29 (length a4_packet) =
    Val (inr (mkResult (mkStd 4 11 60) 1 []
      (be 4 3221225985 ++ asciiz (#"gw.net") ++ asciiz (#"sip.example.org")))).
Proof.
  rewrite (a4_reply_parsed zero_malloc zero_stack a4_packet (length a4_packet) 29 (encode a_name)
    a_name a_name zero_malloc_ok zero_stack_ok).
  - vm_compute. reflexivity.
  - apply reply_check_ok. vm_compute. reflexivity.
  - vm_compute. reflexivity.
  - vm_compute. reflexivity.
Defined.

Definition text_of (s : str) : str := chr (Z.of_nat (length s)) :: s.
Definition naptr_packet : str :=
  header 1 ++ question_of a_name DNS_T_NAPTR ++
  rr_of DNS_T_NAPTR 60 (be 2 10 ++ be 2 50 ++ text_of (#"s") ++ text_of (#"SIP+D2U") ++ text_of [] ++
    encode [ #"_sip"; #"_udp" ]).

Lemma naptr_reply_parsed_witness :
  dns_parse_naptr zero_malloc zero_stack (PDn (encode a_name)) (naptr_packet ++ be 5 0) 29
    (length naptr_packet) =
    Val (inr (mkResult (mkStd 21 37 60) 1 [mkNaptr 10 50 0 2 10 11]
      (asciiz (#"s") ++ asciiz (#"SIP+D2U") ++ asciiz [] ++ asciiz (#"_sip._udp") ++
       asciiz (#"sip.example.org") ++ asciiz (#"sip.example.org")))).
Proof.
  rewrite (naptr_reply_parsed zero_malloc zero_stack (naptr_packet ++ be 5 0) (length naptr_packet) 29
    (encode a_name) a_name a_name zero_malloc_ok zero_stack_ok).
  - vm_compute. reflexivity.
  - apply reply_check_ok. vm_compute. reflexivity.
  - vm_compute. lia.
  - vm_compute. reflexivity.
  - vm_compute. reflexivity.
Defined.

(** A reply to an A query for [a] whose question section holds a pointer to the
    name; what follows reads, as labels, like a name of more than 1024
    characters. *)
Definition poisoned : str :=
  header 1 ++ be 2 49186 ++ be 2 DNS_T_A ++ be 2 1 ++
  (be 2 49186 ++ be 2 DNS_T_A ++ be 2 1 ++ be 4 60 ++ be 2 4 ++ be 4 1) ++
  encode [ #"a" ] ++ replicate 168 (chr 1) ++ chr 192 :: replicate 192 (chr 1) ++ [chr 0].

(** A compressed question section breaks the parsers: the resolver accepts
    the reply (its question is the name asked, and the type and class follow at
    offset 14), the parser reads the question's bytes as an uncompressed name,
    allocates nothing for a text it finds too long and then writes that text
    behind the block. *)
Theorem compressed_question_overflow :
  name_at poisoned (length poisoned) 12 = Some ([ #"a" ], 14) /\
  dns_getdn poisoned 12 (length poisoned) (zero_stack 0) 0 DNS_MAXDN =
    Val (3%Z, 14, splice (zero_stack 0) 0 (encode [ #"a" ])) /\
  dns_dntop_size poisoned dns_payload = Val 0 /\
  dns_parse_a4 zero_malloc zero_stack (PDn (encode [ #"a" ])) poisoned 14 (length poisoned) = Fault.
Proof. vm_compute. split_and!; reflexivity. Qed.

(** A NAPTR record without data at the end of the packet. *)
Definition empty_naptr : str := header 1 ++ question_of a_name DNS_T_NAPTR ++ rr_of DNS_T_NAPTR 60 [].

(** [dns_parse_naptr] reads behind the packet when a NAPTR record is shorter
    than its fixed fields. *)
Theorem short_naptr_overread :
  reply empty_naptr (length empty_naptr) 29 (encode a_name) a_name a_name /\
  dns_parse_naptr zero_malloc zero_stack (PDn (encode a_name)) empty_naptr 29 (length empty_naptr) = Fault.
Proof. split; [apply reply_check_ok; vm_compute; reflexivity|vm_compute; reflexivity]. Qed.

(** ** Queries *)

(** The name of an SRV query is the service and the protocol, each with an
    underscore in front, and the labels of the domain; an absolute domain turns
    the search list off. *)
Theorem srv_query_name dn name ls abs srv proto :
  length dn = DNS_MAXDN -> part_ok srv -> part_ok proto ->
  Forall (fun c => uchar c <> 0%Z) name -> parse_name name = Some (ls, abs) ->
  let full := part_labels srv ++ part_labels proto ++ ls in
  length (encode full) <= DNS_MAXDN ->
  build_srv_dn dn (asciiz name) (part_text srv) (part_text proto) =
    Val ((if abs then DNS_NOSRCH else 0)%Z, splice dn 0 (encode full)).
Proof. apply build_srv_dn_run. Qed.

Definition sip_part : option (str * label) := Some (#"sip", #"sip").
Definition udp_part : option (str * label) := Some (#"udp", #"udp").

Lemma srv_query_name_witness :
  build_srv_dn (zero_stack 0) (asciiz (#"example.org")) (Some (asciiz (#"sip"))) (Some (asciiz (#"udp"))) =
    Val (0%Z, splice (zero_stack 0) 0 (encode [ #"_sip"; #"_udp"; #"example"; #"org" ])).
Proof.
  assert (Hsip : part_ok sip_part).
  { split_and!; [repeat constructor; vm_compute; discriminate|eexists; vm_compute; reflexivity|simpl; lia|simpl; lia]. }
  assert (Hudp : part_ok udp_part).
  { split_and!; [repeat constructor; vm_compute; discriminate|eexists; vm_compute; reflexivity|simpl; lia|simpl; lia]. }
  apply (srv_query_name (zero_stack 0) (#"example.org") [ #"example"; #"org" ] false sip_part udp_part
    (zero_stack_ok 0) Hsip Hudp).
  - repeat constructor; vm_compute; discriminate.
  - vm_compute. reflexivity.
  - vm_compute. lia.
Defined.

Definition long_domain : str :=
  replicate 61 (chr 97) ++ chr 46 :: replicate 61 (chr 97) ++ chr 46 ::
  replicate 61 (chr 97) ++ chr 46 :: replicate 61 (chr 97).

(** A domain that does not fit behind the service and the protocol is not
    refused: [dns_ptodn] answers 0 for the rest of the buffer, which is less than
    255 bytes, the caller tests for a negative result only and goes on to read the
    flag [isabs] that was never set. *)
Theorem srv_query_too_long :
  (exists ls, parse_name long_domain = Some (ls, false) /\ valid_name ls) /\
  build_srv_dn (zero_stack 0) (asciiz long_domain) (Some (asciiz (#"sip"))) (Some (asciiz (#"udp"))) = Fault.
Proof.
  split.
  - exists [replicate 61 (chr 97); replicate 61 (chr 97); replicate 61 (chr 97); replicate 61 (chr 97)].
    split; [vm_compute; reflexivity|].
    apply (bool_decide_unpack (valid_name _)). vm_compute. exact I.
  - vm_compute. reflexivity.
Qed.

(** The buffers of the reverse queries are large enough: for every address
    [dns_a4todn] and [dns_a6todn] write the reverse name inside [DNS_A4RSIZE] and
    [DNS_A6RSIZE] bytes. *)
Theorem reverse_names_fit addr b :
  (length addr = 4 -> length b = DNS_A4RSIZE ->
   dns_a4todn addr None b 0 DNS_A4RSIZE =
     Val (Z.of_nat (length (encode (a4_labels addr))), splice b 0 (encode (a4_labels addr)))) /\
  (length addr = 16 -> length b = DNS_A6RSIZE ->
   dns_a6todn addr None b 0 DNS_A6RSIZE =
     Val (Z.of_nat (length (encode (a6_labels addr))), splice b 0 (encode (a6_labels addr)))).
Proof. split; [apply a4todn_run|apply a6todn_run]. Qed.

Lemma reverse_names_fit_witness :
  dns_a4todn [192; 0; 2; 55]%Z None (replicate DNS_A4RSIZE (chr 1)) 0 DNS_A4RSIZE =
    Val (Z.of_nat (length (encode (a4_labels [192; 0; 2; 55]%Z))),
         splice (replicate DNS_A4RSIZE (chr 1)) 0 (encode (a4_labels [192; 0; 2; 55]%Z))) /\
  a4_labels [192; 0; 2; 55]%Z = [ #"55"; #"2"; #"0"; #"192"; #"in-addr"; #"arpa" ].
Proof.
  split; [|vm_compute; reflexivity].
  apply (proj1 (reverse_names_fit [192; 0; 2; 55]%Z (replicate DNS_A4RSIZE (chr 1)))); reflexivity.
Defined.

(** In a smaller buffer [dns_a4todn] writes behind the end: the room for an
    octet is tested one byte too far. *)
Theorem a4todn_overflow :
  dns_a4todn [192; 0; 2; 255]%Z None (replicate 3 (chr 1)) 0 3 = Fault.
Proof. vm_compute. reflexivity. Qed.
