(* ===== verification/StunMessage.v ===== *)
(** * STUN messages

    include/OSS/STUN/STUNProto.h and the parser and the encoder of
    src/stun/STUNProto.cpp.  include/OSS/STUN/VovidaSTUN.h and VovidaSTUN.inl,
    which the server of src/stun/STUNServer.cpp is built from, declare the same
    structures and contain the same functions under other names; what is
    shown here of the functions holds of both copies.

    A structure is a record; a character array is a buffer of its length
    ([CMem]), and writing outside of it is a [Fault] even where other members of
    the structure follow.  A function that fills a structure through a
    reference returns it also when it returns [false]: callers do look at what
    a failed parse has left.  The flag [verbose] of the parser and of the encoder
    only controls logging. *)

From S2P Require Import Prelude CMem.
Open Scope nat_scope.

(** ** Constants *)

Definition STUN_MAX_STRING : nat := 256.
Definition STUN_MAX_UNKNOWN_ATTRIBUTES : nat := 8.
Definition STUN_MAX_MESSAGE_SIZE : nat := 2048.

Definition IPv4Family : Z := 0x01.
Definition IPv6Family : Z := 0x02.

Definition ChangeIpFlag : Z := 0x04.
Definition ChangePortFlag : Z := 0x02.

Definition MappedAddress : Z := 0x0001.
Definition ResponseAddress : Z := 0x0002.
Definition ChangeRequest : Z := 0x0003.
Definition SourceAddress : Z := 0x0004.
Definition ChangedAddress : Z := 0x0005.
Definition Username : Z := 0x0006.
Definition Password : Z := 0x0007.
Definition MessageIntegrity : Z := 0x0008.
Definition ErrorCode : Z := 0x0009.
Definition UnknownAttribute : Z := 0x000A.
Definition ReflectedFrom : Z := 0x000B.
Definition XorMappedAddress : Z := 0x8020.
Definition XorOnly : Z := 0x0021.
Definition ServerName : Z := 0x8022.
Definition SecondaryAddress : Z := 0x8050.

Definition BindRequestMsg : Z := 0x0001.
Definition BindResponseMsg : Z := 0x0101.
Definition BindErrorResponseMsg : Z := 0x0111.
Definition SharedSecretRequestMsg : Z := 0x0002.
Definition SharedSecretResponseMsg : Z := 0x0102.

(** ** Structures *)

(** [id] is the array of 16 octets of a [UInt128]. *)
Record StunMsgHdr := mkStunMsgHdr { msgType : Z; msgLength : Z; msgId : str }.
Record StunAddress4 := mkStunAddress4 { a4_port : Z; a4_addr : Z }.
Record StunAtrAddress4 := mkStunAtrAddress4 { atr_pad : Z; atr_family : Z; ipv4 : StunAddress4 }.
Record StunAtrError := mkStunAtrError {
  err_pad : Z; errorClass : Z; err_number : Z; reason : str; sizeReason : Z }.
Record StunAtrUnknown := mkStunAtrUnknown { attrType : list Z; numAttributes : Z }.
Record StunAtrString := mkStunAtrString { str_value : str; sizeValue : Z }.

(** [StunAtrChangeRequest] and [StunAtrIntegrity] have one member each, which
    stands for them. *)
Record StunMessage := mkStunMessage {
  msgHdr : StunMsgHdr;
  hasMappedAddress : bool; mappedAddress : StunAtrAddress4;
  hasResponseAddress : bool; responseAddress : StunAtrAddress4;
  hasChangeRequest : bool; changeRequest : Z;
  hasSourceAddress : bool; sourceAddress : StunAtrAddress4;
  hasChangedAddress : bool; changedAddress : StunAtrAddress4;
  hasUsername : bool; username : StunAtrString;
  hasPassword : bool; password : StunAtrString;
  hasMessageIntegrity : bool; messageIntegrity : str;
  hasErrorCode : bool; errorCode : StunAtrError;
  hasUnknownAttributes : bool; unknownAttributes : StunAtrUnknown;
  hasReflectedFrom : bool; reflectedFrom : StunAtrAddress4;
  hasXorMappedAddress : bool; xorMappedAddress : StunAtrAddress4;
  xorOnly : bool;
  hasServerName : bool; serverName : StunAtrString;
  hasSecondaryAddress : bool; secondaryAddress : StunAtrAddress4
}.

#[export] Instance eta_hdr : Settable StunMsgHdr := fun r =>
  mkStunMsgHdr (msgType r) (msgLength r) (msgId r).
#[export] Instance eta_atr4 : Settable StunAtrAddress4 := fun r =>
  mkStunAtrAddress4 (atr_pad r) (atr_family r) (ipv4 r).
#[export] Instance eta_err : Settable StunAtrError := fun r =>
  mkStunAtrError (err_pad r) (errorClass r) (err_number r) (reason r) (sizeReason r).
#[export] Instance eta_unknown : Settable StunAtrUnknown := fun r =>
  mkStunAtrUnknown (attrType r) (numAttributes r).
#[export] Instance eta_string : Settable StunAtrString := fun r =>
  mkStunAtrString (str_value r) (sizeValue r).
#[export] Instance eta_stun : Settable StunMessage := fun r =>
  mkStunMessage (msgHdr r) (hasMappedAddress r) (mappedAddress r) (hasResponseAddress r) (responseAddress r)
    (hasChangeRequest r) (changeRequest r) (hasSourceAddress r) (sourceAddress r)
    (hasChangedAddress r) (changedAddress r) (hasUsername r) (username r) (hasPassword r) (password r)
    (hasMessageIntegrity r) (messageIntegrity r) (hasErrorCode r) (errorCode r)
    (hasUnknownAttributes r) (unknownAttributes r) (hasReflectedFrom r) (reflectedFrom r)
    (hasXorMappedAddress r) (xorMappedAddress r) (xorOnly r) (hasServerName r) (serverName r)
    (hasSecondaryAddress r) (secondaryAddress r).

(** [memset(&x, 0, sizeof(x))]. *)
Definition zeros (n : nat) : str := replicate n (chr 0).
Definition zero_address4 : StunAddress4 := mkStunAddress4 0 0.
Definition zero_atr4 : StunAtrAddress4 := mkStunAtrAddress4 0 0 zero_address4.
Definition zero_string : StunAtrString := mkStunAtrString (zeros STUN_MAX_STRING) 0.
Definition zero_error : StunAtrError := mkStunAtrError 0 0 0 (zeros STUN_MAX_STRING) 0.
Definition zero_unknown : StunAtrUnknown := mkStunAtrUnknown (replicate STUN_MAX_UNKNOWN_ATTRIBUTES 0%Z) 0.
Definition zero_message : StunMessage :=
  mkStunMessage (mkStunMsgHdr 0 0 (zeros 16)) false zero_atr4 false zero_atr4 false 0 false zero_atr4
    false zero_atr4 false zero_string false zero_string false (zeros 20) false zero_error
    false zero_unknown false zero_atr4 false zero_atr4 false false zero_string false zero_atr4.

(** The sizes of the structures, members aligned to their own size. *)
Definition sizeof_StunMsgHdr : nat := 20.
Definition sizeof_StunAtrError : nat := 262.
Definition sizeof_StunAtrUnknown : nat := 18.

(** ** Parsing attributes *)

Definition stunParseAtrAddress (buf : str) (body hdrLen : nat) (result : StunAtrAddress4)
    : cres (bool * StunAtrAddress4) :=
  if negb (hdrLen =? 8) then Val (false, result)
  else
    pad ← rd buf body;
    let result := result <| atr_pad := pad |> in
    family ← rd buf (body + 1);
    let result := result <| atr_family := family |> in
    if (family =? IPv4Family)%Z then
      port ← get16 buf (body + 2);
      addr ← get32 buf (body + 4);
      Val (true, result <| ipv4 := mkStunAddress4 port addr |>)
    else Val (false, result).

Definition stunParseAtrChangeRequest (buf : str) (body hdrLen : nat) (result : Z) : cres (bool * Z) :=
  if negb (hdrLen =? 4) then Val (false, result)
  else value ← get32 buf body; Val (true, value).

(** [sizeReason] is an [UInt16], and [hdrLen - 4] an [unsigned int]. *)
Definition stunParseAtrError (buf : str) (body hdrLen : nat) (result : StunAtrError)
    : cres (bool * StunAtrError) :=
  if sizeof_StunAtrError <=? hdrLen then Val (false, result)
  else
    pad ← get16 buf body;
    cl ← rd buf (body + 2);
    number ← rd buf (body + 3);
    let size := ((Z.of_nat hdrLen - 4) mod 2 ^ 16)%Z in
    s ← rdn buf (body + 4) (Z.to_nat size);
    r ← wrn (reason result) 0 s;
    r ← wr r (Z.to_nat size) 0;
    Val (true, mkStunAtrError pad cl number r size).

(** The [for] over [attrType]. *)
Fixpoint parse_unknown (buf : str) (body i n : nat) (result : StunAtrUnknown) : cres StunAtrUnknown :=
  match n with
  | O => Val result
  | S n =>
      t ← get16 buf body;
      if i <? length (attrType result) then
        parse_unknown buf (body + 2) (S i) n (result <| attrType := <[i := t]> (attrType result) |>)
      else Fault
  end.

Definition stunParseAtrUnknown (buf : str) (body hdrLen : nat) (result : StunAtrUnknown)
    : cres (bool * StunAtrUnknown) :=
  if sizeof_StunAtrUnknown <=? hdrLen then Val (false, result)
  else if negb (hdrLen mod 4 =? 0) then Val (false, result)
  else
    let n := hdrLen / 4 in
    result ← parse_unknown buf body 0 n (result <| numAttributes := Z.of_nat n |>);
    Val (true, result).

Definition stunParseAtrString (buf : str) (body hdrLen : nat) (result : StunAtrString)
    : cres (bool * StunAtrString) :=
  if STUN_MAX_STRING <=? hdrLen then Val (false, result)
  else if negb (hdrLen mod 4 =? 0) then Val (false, result)
  else
    s ← rdn buf body hdrLen;
    v ← wrn (str_value result) 0 s;
    v ← wr v hdrLen 0;
    Val (true, mkStunAtrString v (Z.of_nat hdrLen)).

Definition stunParseAtrIntegrity (buf : str) (body hdrLen : nat) (result : str) : cres (bool * str) :=
  if negb (hdrLen =? 20) then Val (false, result)
  else s ← rdn buf body hdrLen; r ← wrn result 0 s; Val (true, r).

(** The [switch] on the type of an attribute: [false] is the early return. *)
Definition parse_attribute (buf : str) (body attrLen : nat) (atrType : Z) (msg : StunMessage)
    : cres (bool * StunMessage) :=
  if (atrType =? MappedAddress)%Z then
    let msg := msg <| hasMappedAddress := true |> in
    '(ok, a) ← stunParseAtrAddress buf body attrLen (mappedAddress msg); Val (ok, msg <| mappedAddress := a |>)
  else if (atrType =? ResponseAddress)%Z then
    let msg := msg <| hasResponseAddress := true |> in
    '(ok, a) ← stunParseAtrAddress buf body attrLen (responseAddress msg); Val (ok, msg <| responseAddress := a |>)
  else if (atrType =? ChangeRequest)%Z then
    let msg := msg <| hasChangeRequest := true |> in
    '(ok, a) ← stunParseAtrChangeRequest buf body attrLen (changeRequest msg); Val (ok, msg <| changeRequest := a |>)
  else if (atrType =? SourceAddress)%Z then
    let msg := msg <| hasSourceAddress := true |> in
    '(ok, a) ← stunParseAtrAddress buf body attrLen (sourceAddress msg); Val (ok, msg <| sourceAddress := a |>)
  else if (atrType =? ChangedAddress)%Z then
    let msg := msg <| hasChangedAddress := true |> in
    '(ok, a) ← stunParseAtrAddress buf body attrLen (changedAddress msg); Val (ok, msg <| changedAddress := a |>)
  else if (atrType =? Username)%Z then
    let msg := msg <| hasUsername := true |> in
    '(ok, a) ← stunParseAtrString buf body attrLen (username msg); Val (ok, msg <| username := a |>)
  else if (atrType =? Password)%Z then
    let msg := msg <| hasPassword := true |> in
    '(ok, a) ← stunParseAtrString buf body attrLen (password msg); Val (ok, msg <| password := a |>)
  else if (atrType =? MessageIntegrity)%Z then
    let msg := msg <| hasMessageIntegrity := true |> in
    '(ok, a) ← stunParseAtrIntegrity buf body attrLen (messageIntegrity msg); Val (ok, msg <| messageIntegrity := a |>)
  else if (atrType =? ErrorCode)%Z then
    let msg := msg <| hasErrorCode := true |> in
    '(ok, a) ← stunParseAtrError buf body attrLen (errorCode msg); Val (ok, msg <| errorCode := a |>)
  else if (atrType =? UnknownAttribute)%Z then
    let msg := msg <| hasUnknownAttributes := true |> in
    '(ok, a) ← stunParseAtrUnknown buf body attrLen (unknownAttributes msg); Val (ok, msg <| unknownAttributes := a |>)
  else if (atrType =? ReflectedFrom)%Z then
    let msg := msg <| hasReflectedFrom := true |> in
    '(ok, a) ← stunParseAtrAddress buf body attrLen (reflectedFrom msg); Val (ok, msg <| reflectedFrom := a |>)
  else if (atrType =? XorMappedAddress)%Z then
    let msg := msg <| hasXorMappedAddress := true |> in
    '(ok, a) ← stunParseAtrAddress buf body attrLen (xorMappedAddress msg); Val (ok, msg <| xorMappedAddress := a |>)
  else if (atrType =? XorOnly)%Z then Val (true, msg <| xorOnly := true |>)
  else if (atrType =? ServerName)%Z then
    let msg := msg <| hasServerName := true |> in
    '(ok, a) ← stunParseAtrString buf body attrLen (serverName msg); Val (ok, msg <| serverName := a |>)
  else if (atrType =? SecondaryAddress)%Z then
    let msg := msg <| hasSecondaryAddress := true |> in
    '(ok, a) ← stunParseAtrAddress buf body attrLen (secondaryAddress msg); Val (ok, msg <| secondaryAddress := a |>)
  else Val (negb (atrType <=? 0x7FFF)%Z, msg).

(** The [while] over the attributes. *)
Fixpoint parse_attributes (fuel : nat) (buf : str) (body size : nat) (msg : StunMessage)
    : cres (bool * StunMessage) :=
  match fuel with
  | O => Endless
  | S fuel =>
      if size =? 0 then Val (true, msg)
      else
        attrLen ← get16 buf (body + 2);
        atrType ← get16 buf body;
        let attrLen := Z.to_nat attrLen in
        if size <? attrLen + 4 then Val (false, msg)
        else
          let body := body + 4 in
          let size := size - 4 in
          '(ok, msg) ← parse_attribute buf body attrLen atrType msg;
          if negb ok then Val (false, msg)
          else parse_attributes fuel buf (body + attrLen) (size - attrLen) msg
  end.

(** [buf] is the whole array; the message is its first [bufLen] bytes. *)
Definition stunParseMessage (buf : str) (bufLen : nat) : cres (bool * StunMessage) :=
  let msg := zero_message in
  if bufLen <? sizeof_StunMsgHdr then Val (false, msg)
  else
    typ ← get16 buf 0;
    len ← get16 buf 2;
    octets ← rdn buf 4 16;
    let msg := msg <| msgHdr := mkStunMsgHdr typ len octets |> in
    if negb (Z.to_nat len + sizeof_StunMsgHdr =? bufLen) then Val (false, msg)
    else parse_attributes (S (Z.to_nat len)) buf sizeof_StunMsgHdr (Z.to_nat len) msg.

(** ** Encoding

    An encoder gets the pointer and returns the one behind what it has
    written. *)
Abbreviation written := (cres (str * nat)).

Definition encode16 (data : Z) (buf : str) (ptr : nat) : written :=
  buf ← wrn buf ptr (be_bytes 2 data); Val (buf, ptr + 2).
Definition encode32 (data : Z) (buf : str) (ptr : nat) : written :=
  buf ← wrn buf ptr (be_bytes 4 data); Val (buf, ptr + 4).
Definition encode (data : str) (len : nat) (buf : str) (ptr : nat) : written :=
  s ← rdn data 0 len; buf ← wrn buf ptr s; Val (buf, ptr + len).
(** [*ptr++ = v]. *)
Definition encode8 (v : Z) (buf : str) (ptr : nat) : written :=
  buf ← wr buf ptr v; Val (buf, ptr + 1).

Definition encodeAtrAddress4 (type : Z) (atr : StunAtrAddress4) (buf : str) (ptr : nat) : written :=
  '(buf, ptr) ← encode16 type buf ptr;
  '(buf, ptr) ← encode16 8 buf ptr;
  '(buf, ptr) ← encode8 (atr_pad atr) buf ptr;
  '(buf, ptr) ← encode8 IPv4Family buf ptr;
  '(buf, ptr) ← encode16 (a4_port (ipv4 atr)) buf ptr;
  encode32 (a4_addr (ipv4 atr)) buf ptr.

Definition encodeAtrChangeRequest (value : Z) (buf : str) (ptr : nat) : written :=
  '(buf, ptr) ← encode16 ChangeRequest buf ptr;
  '(buf, ptr) ← encode16 4 buf ptr;
  encode32 value buf ptr.

Definition encodeAtrError (atr : StunAtrError) (buf : str) (ptr : nat) : written :=
  '(buf, ptr) ← encode16 ErrorCode buf ptr;
  '(buf, ptr) ← encode16 (6 + sizeReason atr)%Z buf ptr;
  '(buf, ptr) ← encode16 (err_pad atr) buf ptr;
  '(buf, ptr) ← encode8 (errorClass atr) buf ptr;
  '(buf, ptr) ← encode8 (err_number atr) buf ptr;
  encode (reason atr) (Z.to_nat (sizeReason atr)) buf ptr.

(** The [for] over [attrType]; past the array it reads other members. *)
Fixpoint encode_unknown (types : list Z) (i n : nat) (buf : str) (ptr : nat) : written :=
  match n with
  | O => Val (buf, ptr)
  | S n =>
      match types !! i with
      | Some t => '(buf, ptr) ← encode16 t buf ptr; encode_unknown types (S i) n buf ptr
      | None => Fault
      end
  end.

Definition encodeAtrUnknown (atr : StunAtrUnknown) (buf : str) (ptr : nat) : written :=
  '(buf, ptr) ← encode16 UnknownAttribute buf ptr;
  '(buf, ptr) ← encode16 (2 + 2 * numAttributes atr)%Z buf ptr;
  encode_unknown (attrType atr) 0 (Z.to_nat (numAttributes atr)) buf ptr.

Definition encodeXorOnly (buf : str) (ptr : nat) : written := encode16 XorOnly buf ptr.

Definition encodeAtrString (type : Z) (atr : StunAtrString) (buf : str) (ptr : nat) : written :=
  if negb (sizeValue atr mod 4 =? 0)%Z then Abort
  else
    '(buf, ptr) ← encode16 type buf ptr;
    '(buf, ptr) ← encode16 (sizeValue atr) buf ptr;
    encode (str_value atr) (Z.to_nat (sizeValue atr)) buf ptr.

Definition encodeAtrIntegrity (hash : str) (buf : str) (ptr : nat) : written :=
  '(buf, ptr) ← encode16 MessageIntegrity buf ptr;
  '(buf, ptr) ← encode16 20 buf ptr;
  encode hash 20 buf ptr.

(** Built without OpenSSL ([NOSSL]): the code is this text, whatever it is
    computed of. *)
Definition computeHmac : str := #"hmac-not-implemented".

(** [if (has...) ptr = encode...(ptr, ...)]. *)
Definition encode_if (has : bool) (f : str -> nat -> written) (buf : str) (ptr : nat) : written :=
  if has then f buf ptr else Val (buf, ptr).

(** The attributes that are present, and the integrity check of a message with a
    password. *)
Definition encode_attributes (msg : StunMessage) (pwd : StunAtrString) (buf : str) (ptr : nat) : written :=
  '(buf, ptr) ← encode_if (hasMappedAddress msg) (encodeAtrAddress4 MappedAddress (mappedAddress msg)) buf ptr;
  '(buf, ptr) ← encode_if (hasResponseAddress msg) (encodeAtrAddress4 ResponseAddress (responseAddress msg)) buf ptr;
  '(buf, ptr) ← encode_if (hasChangeRequest msg) (encodeAtrChangeRequest (changeRequest msg)) buf ptr;
  '(buf, ptr) ← encode_if (hasSourceAddress msg) (encodeAtrAddress4 SourceAddress (sourceAddress msg)) buf ptr;
  '(buf, ptr) ← encode_if (hasChangedAddress msg) (encodeAtrAddress4 ChangedAddress (changedAddress msg)) buf ptr;
  '(buf, ptr) ← encode_if (hasUsername msg) (encodeAtrString Username (username msg)) buf ptr;
  '(buf, ptr) ← encode_if (hasPassword msg) (encodeAtrString Password (password msg)) buf ptr;
  '(buf, ptr) ← encode_if (hasErrorCode msg) (encodeAtrError (errorCode msg)) buf ptr;
  '(buf, ptr) ← encode_if (hasUnknownAttributes msg) (encodeAtrUnknown (unknownAttributes msg)) buf ptr;
  '(buf, ptr) ← encode_if (hasReflectedFrom msg) (encodeAtrAddress4 ReflectedFrom (reflectedFrom msg)) buf ptr;
  '(buf, ptr) ← encode_if (hasXorMappedAddress msg) (encodeAtrAddress4 XorMappedAddress (xorMappedAddress msg)) buf ptr;
  '(buf, ptr) ← encode_if (xorOnly msg) encodeXorOnly buf ptr;
  '(buf, ptr) ← encode_if (hasServerName msg) (encodeAtrString ServerName (serverName msg)) buf ptr;
  '(buf, ptr) ← encode_if (hasSecondaryAddress msg) (encodeAtrAddress4 SecondaryAddress (secondaryAddress msg)) buf ptr;
  encode_if (0 <? sizeValue pwd)%Z (encodeAtrIntegrity computeHmac) buf ptr.

(** The result is [buf] and the number of its bytes that are the message. *)
Definition stunEncodeMessage (msg : StunMessage) (buf : str) (bufLen : nat) (pwd : StunAtrString) : written :=
  if bufLen <? sizeof_StunMsgHdr then Abort
  else
    '(buf, ptr) ← encode16 (msgType (msgHdr msg)) buf 0;
    let lengthp := ptr in
    '(buf, ptr) ← encode16 0 buf ptr;
    '(buf, ptr) ← encode (msgId (msgHdr msg)) 16 buf ptr;
    '(buf, ptr) ← encode_attributes msg pwd buf ptr;
    '(buf, _) ← encode16 (Z.of_nat ptr - Z.of_nat sizeof_StunMsgHdr)%Z buf lengthp;
    Val (buf, ptr).
