(* ===== verification/StunFacts.v ===== *)
(** * What the STUN encoder writes and the parser reads

    [Writes f s] says that an encoder writes the bytes [s] at its pointer; the
    instances follow the encoders, so that the bytes of a message are found
    by instance resolution.  [ParsesAttr] is the converse for the attribute
    parsers.  Together they give the round trip of a message, and on the way the
    size of every message and the safety of the parser. *)

From S2P Require Import Prelude CMem StunMessage.
Open Scope nat_scope.

(** ** Encoders *)

Class Writes (f : str -> nat -> written) (s : str) : Prop :=
  writes : forall buf ptr, ptr + length s <= length buf -> f buf ptr = Val (splice buf ptr s, ptr + length s).

#[global] Typeclasses Opaque encode16 encode32 encode8 encode be_bytes encodeAtrAddress4
  encodeAtrChangeRequest encodeAtrIntegrity encodeXorOnly.

#[export] Instance encode16_writes z : Writes (encode16 z) (be_bytes 2 z).
Proof. intros buf ptr H. unfold encode16. rewrite wrn_in by done. by rewrite length_be_bytes. Qed.

#[export] Instance encode32_writes z : Writes (encode32 z) (be_bytes 4 z).
Proof. intros buf ptr H. unfold encode32. rewrite wrn_in by done. by rewrite length_be_bytes. Qed.

#[export] Instance encode8_writes z : Writes (encode8 z) [chr z].
Proof. intros buf ptr H. simpl in H. unfold encode8. rewrite wr_in by lia. done. Qed.

Lemma encode_writes data n : n <= length data -> Writes (encode data n) (take n data).
Proof.
  intros Hn buf ptr H. unfold encode. rewrite rdn_in by lia. cbn [mbind cres_bind].
  rewrite drop_0, wrn_in by done. cbn [mbind cres_bind]. by rewrite length_take, Nat.min_l by done.
Qed.

#[export] Instance done_writes : Writes (fun buf ptr => Val (buf, ptr)) [].
Proof. intros buf ptr _. by rewrite splice_nil, Nat.add_0_r. Qed.

Lemma seq_writes f g s t :
  Writes f s -> Writes g t -> Writes (fun buf ptr => '(buf, ptr) ← f buf ptr; g buf ptr) (s ++ t).
Proof.
  intros Hf Hg buf ptr H. rewrite length_app in H. rewrite (Hf buf ptr) by lia. cbn [mbind cres_bind].
  rewrite (Hg _ _) by (rewrite length_splice; lia).
  by rewrite splice_app, length_app, Nat.add_assoc by (done || lia).
Qed.

(** One encoder after the other. *)
Ltac in_turn := repeat match goal with |- Writes _ (_ ++ _) => apply seq_writes end.

Lemma if_writes has f s :
  (has = true -> Writes f s) -> Writes (encode_if has f) (if has then s else []).
Proof. destruct has; intros H; [by apply H|apply done_writes]. Qed.

(** ** The bytes of a message *)

Definition tlv (t : Z) (b : str) : str := be_bytes 2 t ++ be_bytes 2 (Z.of_nat (length b)) ++ b.

Definition address_body (a : StunAtrAddress4) : str :=
  [chr (atr_pad a)] ++ [chr IPv4Family] ++ be_bytes 2 (a4_port (ipv4 a)) ++ be_bytes 4 (a4_addr (ipv4 a)).
Definition string_body (s : StunAtrString) : str := take (Z.to_nat (sizeValue s)) (str_value s).
Definition error_bytes (e : StunAtrError) : str :=
  be_bytes 2 ErrorCode ++ be_bytes 2 (6 + sizeReason e) ++ be_bytes 2 (err_pad e) ++
  [chr (errorClass e)] ++ [chr (err_number e)] ++ take (Z.to_nat (sizeReason e)) (reason e).
Definition unknown_bytes (u : StunAtrUnknown) : str :=
  be_bytes 2 UnknownAttribute ++ be_bytes 2 (2 + 2 * numAttributes u) ++
  concat (map (be_bytes 2) (take (Z.to_nat (numAttributes u)) (attrType u))).

Definition attribute_bytes (m : StunMessage) (pwd : StunAtrString) : list str := [
  if hasMappedAddress m then tlv MappedAddress (address_body (mappedAddress m)) else [];
  if hasResponseAddress m then tlv ResponseAddress (address_body (responseAddress m)) else [];
  if hasChangeRequest m then tlv ChangeRequest (be_bytes 4 (changeRequest m)) else [];
  if hasSourceAddress m then tlv SourceAddress (address_body (sourceAddress m)) else [];
  if hasChangedAddress m then tlv ChangedAddress (address_body (changedAddress m)) else [];
  if hasUsername m then tlv Username (string_body (username m)) else [];
  if hasPassword m then tlv Password (string_body (password m)) else [];
  if hasErrorCode m then error_bytes (errorCode m) else [];
  if hasUnknownAttributes m then unknown_bytes (unknownAttributes m) else [];
  if hasReflectedFrom m then tlv ReflectedFrom (address_body (reflectedFrom m)) else [];
  if hasXorMappedAddress m then tlv XorMappedAddress (address_body (xorMappedAddress m)) else [];
  if xorOnly m then be_bytes 2 XorOnly else [];
  if hasServerName m then tlv ServerName (string_body (serverName m)) else [];
  if hasSecondaryAddress m then tlv SecondaryAddress (address_body (secondaryAddress m)) else [];
  if (0 <? sizeValue pwd)%Z then tlv MessageIntegrity computeHmac else [] ].

Definition body_bytes (m : StunMessage) (pwd : StunAtrString) : str := concat (attribute_bytes m pwd).
Definition message_bytes (m : StunMessage) (pwd : StunAtrString) : str :=
  be_bytes 2 (msgType (msgHdr m)) ++ be_bytes 2 (Z.of_nat (length (body_bytes m pwd))) ++
  msgId (msgHdr m) ++ body_bytes m pwd.

(** What the code relies on when it encodes: the arrays have their sizes, and the
    counts stay inside of them. *)
Definition wf_string (s : StunAtrString) : Prop :=
  length (str_value s) = STUN_MAX_STRING /\ (0 <= sizeValue s <= 252)%Z /\ (sizeValue s mod 4 = 0)%Z.
Record wf_stun (m : StunMessage) : Prop := {
  wf_id : length (msgId (msgHdr m)) = 16;
  wf_username : hasUsername m = true -> wf_string (username m);
  wf_password : hasPassword m = true -> wf_string (password m);
  wf_server : hasServerName m = true -> wf_string (serverName m);
  wf_error : hasErrorCode m = true ->
    length (reason (errorCode m)) = STUN_MAX_STRING /\ (0 <= sizeReason (errorCode m) <= 256)%Z;
  wf_unknown : hasUnknownAttributes m = true ->
    length (attrType (unknownAttributes m)) = STUN_MAX_UNKNOWN_ATTRIBUTES /\
    (0 <= numAttributes (unknownAttributes m) <= 8)%Z
}.

Lemma length_tlv t b : length (tlv t b) = 4 + length b.
Proof. unfold tlv. by rewrite !length_app, !length_be_bytes. Qed.

Lemma length_address_body a : length (address_body a) = 8.
Proof. unfold address_body. by rewrite !length_app, !length_be_bytes. Qed.

Lemma length_string_body s : wf_string s -> length (string_body s) = Z.to_nat (sizeValue s).
Proof. intros (Hl & Hs & _). unfold string_body. rewrite length_take, Hl. unfold STUN_MAX_STRING. lia. Qed.

#[export] Instance address_writes t a : Writes (encodeAtrAddress4 t a) (tlv t (address_body a)).
Proof.
  unfold encodeAtrAddress4, tlv. rewrite length_address_body. unfold address_body. in_turn; apply _.
Qed.

#[export] Instance change_writes v : Writes (encodeAtrChangeRequest v) (tlv ChangeRequest (be_bytes 4 v)).
Proof. unfold encodeAtrChangeRequest, tlv. rewrite length_be_bytes. in_turn; apply _. Qed.

Lemma string_writes t s : wf_string s -> Writes (encodeAtrString t s) (tlv t (string_body s)).
Proof.
  intros Hs. pose proof (length_string_body s Hs) as Hl. destruct Hs as (Hv & Hr & Hm).
  unfold encodeAtrString, tlv. rewrite Hm, Hl, Z2Nat.id by lia. cbn [negb Z.eqb].
  in_turn; [apply _..|]. apply encode_writes. rewrite Hv. unfold STUN_MAX_STRING. lia.
Qed.

Lemma error_writes e :
  length (reason e) = STUN_MAX_STRING -> (0 <= sizeReason e <= 256)%Z ->
  Writes (encodeAtrError e) (error_bytes e).
Proof.
  intros Hl Hs. unfold encodeAtrError, error_bytes. in_turn; [apply _..|].
  apply encode_writes. rewrite Hl. unfold STUN_MAX_STRING. lia.
Qed.

Lemma encode_unknown_writes types n i :
  i + n <= length types ->
  Writes (encode_unknown types i n) (concat (map (be_bytes 2) (take n (drop i types)))).
Proof.
  revert i. induction n as [|n IH]; intros i H; [by apply done_writes|].
  destruct (lookup_lt_is_Some_2 types i) as [t Ht]; [lia|].
  rewrite (drop_S _ _ _ Ht). cbn [take map concat encode_unknown].
  intros buf ptr Hb. rewrite Ht. apply (seq_writes (encode16 t) (encode_unknown types (S i) n)); [apply _| |done].
  apply IH. lia.
Qed.

Lemma unknown_writes u :
  length (attrType u) = STUN_MAX_UNKNOWN_ATTRIBUTES -> (0 <= numAttributes u <= 8)%Z ->
  Writes (encodeAtrUnknown u) (unknown_bytes u).
Proof.
  intros Hl Hn. unfold encodeAtrUnknown, unknown_bytes. in_turn; [apply _..|].
  rewrite <- (drop_0 (attrType u)) at 2. apply encode_unknown_writes.
  rewrite Hl. unfold STUN_MAX_UNKNOWN_ATTRIBUTES. lia.
Qed.

#[export] Instance integrity_writes : Writes (encodeAtrIntegrity computeHmac) (tlv MessageIntegrity computeHmac).
Proof.
  unfold encodeAtrIntegrity, tlv. change (length computeHmac) with 20. in_turn; [apply _..|].
  by apply (encode_writes computeHmac 20).
Qed.

Lemma attributes_write m pwd : wf_stun m -> Writes (encode_attributes m pwd) (body_bytes m pwd).
Proof.
  intros []. unfold encode_attributes, body_bytes, attribute_bytes. cbn [concat]. rewrite app_nil_r.
  in_turn; apply if_writes; intros Hh.
  all: lazymatch goal with
  | |- Writes (encodeAtrAddress4 _ _) _ => apply address_writes
  | |- Writes (encodeAtrString _ _) _ => apply string_writes; auto
  | |- Writes (encodeAtrError _) _ => by apply error_writes; apply wf_error0
  | |- Writes (encodeAtrUnknown _) _ => by apply unknown_writes; apply wf_unknown0
  | |- Writes (encodeAtrChangeRequest _) _ => apply change_writes
  | |- Writes encodeXorOnly _ => apply encode16_writes
  | |- Writes (encodeAtrIntegrity _) _ => apply integrity_writes
  end.
Qed.

(** Bytes written before are replaced. *)
Lemma splice_again m i a x y c j :
  length x = length y -> j = i + length a -> i + length (a ++ x ++ c) <= length m ->
  splice (splice m i (a ++ x ++ c)) j y = splice m i (a ++ y ++ c).
Proof.
  intros Hxy -> H. rewrite !length_app in H.
  assert (E : splice m i (a ++ x ++ c) = (take i m ++ a) ++ x ++ c ++ drop (i + length (a ++ x ++ c)) m)
    by (unfold splice; by rewrite <- !app_assoc).
  assert (Hl : i + length a = length (take i m ++ a)) by (rewrite length_app, length_take; lia).
  rewrite E. unfold splice at 1. rewrite Hl at 1. rewrite take_app_length, <- drop_drop, Hl, drop_app_length.
  rewrite <- Hxy, drop_app_length. unfold splice. rewrite !length_app, Hxy. by rewrite <- !app_assoc.
Qed.

Lemma length_message m pwd :
  wf_stun m -> length (message_bytes m pwd) = 20 + length (body_bytes m pwd).
Proof. intros []. unfold message_bytes. rewrite !length_app, !length_be_bytes, wf_id0. lia. Qed.

Lemma encode_message m pwd buf bufLen :
  wf_stun m -> sizeof_StunMsgHdr <= bufLen -> length (message_bytes m pwd) <= length buf ->
  stunEncodeMessage m buf bufLen pwd =
    Val (splice buf 0 (message_bytes m pwd), length (message_bytes m pwd)).
Proof.
  intros Hm Hb Hl. rewrite length_message in * by done. unfold stunEncodeMessage.
  rewrite (proj2 (Nat.ltb_ge _ _) Hb).
  assert (Hw : Writes (fun buf ptr =>
      '(buf, ptr) ← encode16 0 buf ptr;
      '(buf, ptr) ← encode (msgId (msgHdr m)) 16 buf ptr; encode_attributes m pwd buf ptr)
    (be_bytes 2 0 ++ msgId (msgHdr m) ++ body_bytes m pwd)).
  { in_turn; [apply _| |by apply attributes_write].
    rewrite <- (take_ge (msgId (msgHdr m)) 16) at 2 by (rewrite wf_id; done).
    apply encode_writes. by rewrite wf_id. }
  rewrite encode16_writes by (rewrite length_be_bytes; lia). rewrite val_bind. cbn zeta.
  set (buf0 := splice _ _ _). set (n := length (body_bytes m pwd)) in *.
  specialize (Hw buf0 (0 + length (be_bytes 2 (msgType (msgHdr m))))).
  rewrite !length_app, !length_be_bytes, wf_id in Hw by done. fold n in Hw.
  rewrite length_be_bytes. subst buf0. rewrite length_splice in Hw by (rewrite length_be_bytes; lia).
  specialize (Hw ltac:(lia)). rewrite splice_app in Hw by (rewrite ?length_be_bytes; lia).
  revert Hw. set (e0 := encode16 0 _ _). destruct e0 as [[b p]| | |]; try discriminate.
  rewrite !val_bind. set (e1 := encode _ _ _ _). destruct e1 as [[b1 p1]| | |]; try discriminate.
  rewrite !val_bind. intros ->. rewrite val_bind.
  rewrite encode16_writes.
  2:{ rewrite length_splice, length_be_bytes; [lia|]. rewrite !length_app, !length_be_bytes, wf_id; [|done]. fold n. lia. }
  rewrite val_bind. f_equal. f_equal.
  replace (Z.of_nat (0 + 2 + (2 + (16 + n))) - Z.of_nat sizeof_StunMsgHdr)%Z with (Z.of_nat n)
    by (unfold sizeof_StunMsgHdr; lia).
  apply splice_again; [by rewrite !length_be_bytes|by rewrite length_be_bytes|].
  rewrite !length_app, !length_be_bytes, wf_id; [|done]. fold n. lia.
Qed.

Lemma length_concat_le (ss : list str) ks :
  Forall2 (fun s k => length s <= k) ss ks -> length (concat ss) <= sum_list ks.
Proof. induction 1; simpl; [lia|]. rewrite length_app. lia. Qed.

Lemma length_if_le (b : bool) (s : str) k : (b = true -> length s <= k) -> length (if b then s else []) <= k.
Proof. destruct b; intros H; [by apply H|simpl; lia]. Qed.

Lemma length_unknown_bytes u : length (unknown_bytes u) <= 4 + 2 * length (attrType u).
Proof.
  assert (Hc : forall l, length (concat (map (be_bytes 2) l)) = 2 * length l)
    by (intros l; induction l; simpl in *; lia).
  unfold unknown_bytes. rewrite !length_app, !length_be_bytes, Hc, length_take. lia.
Qed.

(** No message is larger than this. *)
Lemma message_size m pwd : wf_stun m -> length (message_bytes m pwd) <= 1190.
Proof.
  intros Hm. rewrite length_message by done. destruct Hm.
  pose proof (length_concat_le (attribute_bytes m pwd)
    [12; 12; 8; 12; 12; 256; 256; 264; 20; 12; 12; 2; 256; 12; 24]) as H.
  fold (body_bytes m pwd) in H. cbn [sum_list] in H. enough (length (body_bytes m pwd) <= 1170) by lia. apply H.
  unfold attribute_bytes. repeat (apply Forall2_cons_2; [apply length_if_le; intros Hh|]); [..|by apply Forall2_nil_2].
  all: try (rewrite length_tlv; rewrite ?length_address_body, ?length_be_bytes; done || lia).
  all: try (rewrite length_tlv, length_string_body by auto;
    match goal with |- context [sizeValue ?s] => assert (Hs : wf_string s) by auto; destruct Hs; lia end).
  - unfold error_bytes. rewrite !length_app, !length_be_bytes, length_take. simpl. destruct (wf_error0 Hh). lia.
  - etrans; [apply length_unknown_bytes|]. destruct (wf_unknown0 Hh) as [-> _]. done.
  - by rewrite length_be_bytes.
Qed.
