(* ===== verification/StunParseFacts.v ===== *)
(** * What the STUN parser reads

    The parser recovers what the encoder wrote ([parse_message]), and stays inside
    its buffers on every input but one kind of attribute ([parse_safe]). *)

From S2P Require Import Prelude CMem StunMessage StunFacts.
Open Scope nat_scope.

(** ** Reading attributes back *)

(** The parts of a message as they are read: integers at their width, the family of
    an address and the bytes behind a string are not transmitted. *)
Definition canon4 (a : StunAtrAddress4) : StunAtrAddress4 :=
  mkStunAtrAddress4 (atr_pad a mod 256) IPv4Family
    (mkStunAddress4 (a4_port (ipv4 a) mod 2 ^ 16) (a4_addr (ipv4 a) mod 2 ^ 32)).
Definition canon_string (s : StunAtrString) : StunAtrString :=
  mkStunAtrString (string_body s ++ zeros (STUN_MAX_STRING - Z.to_nat (sizeValue s))) (sizeValue s).

Definition sent4 (has : bool) (a : StunAtrAddress4) : StunAtrAddress4 := if has then canon4 a else zero_atr4.
Definition sent_string (has : bool) (s : StunAtrString) : StunAtrString := if has then canon_string s else zero_string.

(** The message that is read for a message [m] encoded with the password [pwd]. *)
Definition read_back (m : StunMessage) (pwd : StunAtrString) : StunMessage :=
  mkStunMessage
    (mkStunMsgHdr (msgType (msgHdr m) mod 2 ^ 16) (Z.of_nat (length (body_bytes m pwd))) (msgId (msgHdr m)))
    (hasMappedAddress m) (sent4 (hasMappedAddress m) (mappedAddress m))
    (hasResponseAddress m) (sent4 (hasResponseAddress m) (responseAddress m))
    (hasChangeRequest m) (if hasChangeRequest m then changeRequest m mod 2 ^ 32 else 0)%Z
    (hasSourceAddress m) (sent4 (hasSourceAddress m) (sourceAddress m))
    (hasChangedAddress m) (sent4 (hasChangedAddress m) (changedAddress m))
    (hasUsername m) (sent_string (hasUsername m) (username m))
    (hasPassword m) (sent_string (hasPassword m) (password m))
    (0 <? sizeValue pwd)%Z (if 0 <? sizeValue pwd then computeHmac else zeros 20)%Z
    false zero_error false zero_unknown
    (hasReflectedFrom m) (sent4 (hasReflectedFrom m) (reflectedFrom m))
    (hasXorMappedAddress m) (sent4 (hasXorMappedAddress m) (xorMappedAddress m))
    false
    (hasServerName m) (sent_string (hasServerName m) (serverName m))
    (hasSecondaryAddress m) (sent4 (hasSecondaryAddress m) (secondaryAddress m)).

(** Messages without the three attributes whose encoding the parser does not
    read back. *)
Definition plain (m : StunMessage) : Prop :=
  hasErrorCode m = false /\ hasUnknownAttributes m = false /\ xorOnly m = false.

Lemma parse_address buf body a r :
  stands buf body (address_body a) -> stunParseAtrAddress buf body 8 r = Val (true, canon4 a).
Proof.
  unfold address_body. rewrite !stands_app, !length_be_bytes. intros (H1 & H2 & H3 & H4).
  unfold stunParseAtrAddress. cbn [Nat.eqb negb]. cbn [length] in *.
  rewrite (rd_at _ _ _ H1), val_bind. cbn zeta. rewrite (rd_at _ _ _ H2), val_bind. cbn zeta.
  rewrite !uchar_chr. cbn [Z.modulo Z.div_eucl IPv4Family Z.eqb].
  unfold get16, get32. replace (body + 1 + 1) with (body + 2) in * by lia.
  replace (body + 2 + 2) with (body + 4) in * by lia.
  change (1 mod 256 =? 1)%Z with true. cbn iota.
  rewrite (get_be_at 2 _ _ _ H3), val_bind.
  by rewrite (get_be_at 4 _ _ _ H4), val_bind.
Qed.

Lemma parse_change buf body v r :
  stands buf body (be_bytes 4 v) -> stunParseAtrChangeRequest buf body 4 r = Val (true, v mod 2 ^ 32)%Z.
Proof. intros H. unfold stunParseAtrChangeRequest, get32. cbn [Nat.eqb negb]. by rewrite (get_be_at 4 _ _ _ H). Qed.

Lemma parse_string buf body s :
  wf_string s -> stands buf body (string_body s) ->
  stunParseAtrString buf body (length (string_body s)) zero_string = Val (true, canon_string s).
Proof.
  intros Hs Hb. pose proof (length_string_body s Hs) as Hl. destruct Hs as (Hv & Hr & Hm).
  unfold stunParseAtrString. rewrite (proj2 (Nat.leb_gt _ _)) by (rewrite Hl; unfold STUN_MAX_STRING; lia).
  assert (E : length (string_body s) mod 4 = 0).
  { rewrite Hl. apply Nat2Z.inj. rewrite Nat2Z.inj_mod, Z2Nat.id by lia. exact Hm. }
  rewrite E. cbn [Nat.eqb negb]. rewrite (rdn_at _ _ _ Hb), val_bind.
  assert (Hz : length (zeros STUN_MAX_STRING) = 256) by done.
  cbn [str_value zero_string]. rewrite wrn_in by (rewrite Hz, Hl; lia). rewrite val_bind, wr_in, val_bind.
  2:{ rewrite length_splice; rewrite Hz, Hl; lia. }
  unfold canon_string. do 2 f_equal. f_equal; [|rewrite Hl; lia].
  rewrite splice_app by (rewrite ?Hz, ?Hl; done || lia). unfold splice. rewrite take_0, app_nil_l.
  rewrite <- app_assoc. f_equal. rewrite length_app. cbn [length]. unfold zeros.
  rewrite drop_replicate, Nat.add_0_l. rewrite Hl.
  replace (STUN_MAX_STRING - Z.to_nat (sizeValue s)) with (S (STUN_MAX_STRING - (Z.to_nat (sizeValue s) + 1)))
    by (unfold STUN_MAX_STRING; lia). done.
Qed.

Lemma parse_integrity buf body r :
  length r = 20 -> stands buf body computeHmac -> stunParseAtrIntegrity buf body 20 r = Val (true, computeHmac).
Proof.
  intros Hr Hb. unfold stunParseAtrIntegrity. cbn [Nat.eqb negb].
  change 20 with (length computeHmac) at 1. rewrite (rdn_at _ _ _ Hb), val_bind, wrn_in by (rewrite Hr; done).
  unfold splice. rewrite val_bind, drop_ge by (rewrite Hr; done). cbn [take app]. by rewrite app_nil_r.
Qed.

(** ** The loop over the attributes *)

Lemma parse_one fuel buf body size t b msg msg' :
  stands buf body (tlv t b) -> (0 <= t < 65536)%Z -> length b <= 256 ->
  parse_attribute buf (body + 4) (length b) t msg = Val (true, msg') ->
  parse_attributes (S fuel) buf body (length (tlv t b) + size) msg =
    parse_attributes fuel buf (body + length (tlv t b)) size msg'.
Proof.
  intros Hb Ht Hl Hp. rewrite length_tlv. unfold tlv in Hb. rewrite !stands_app, !length_be_bytes in Hb.
  destruct Hb as (H1 & H2 & H3). cbn [parse_attributes]. unfold get16.
  rewrite (get_be_at 2 _ _ _ H2), val_bind, (get_be_at 2 _ _ _ H1), val_bind.
  rewrite !Z.mod_small by (change (256 ^ Z.of_nat 2)%Z with 65536%Z; lia). rewrite Nat2Z.id.
  cbn [Nat.add Nat.eqb]. rewrite (proj2 (Nat.ltb_ge _ _)) by lia. cbn zeta.
  rewrite Hp, val_bind. cbn [negb]. f_equal; lia.
Qed.

(** An attribute that may be absent. *)
Lemma parse_optional (has : bool) fuel buf body size t b msg msg' :
  stands buf body (if has then tlv t b else []) ->
  (0 <= t < 65536)%Z -> (has = true -> length b <= 256) ->
  (has = true -> stands buf (body + 4) b -> parse_attribute buf (body + 4) (length b) t msg = Val (true, msg')) ->
  (has = false -> msg' = msg) ->
  length (if has then tlv t b else []) + size < fuel ->
  exists fuel', size < fuel' /\
    parse_attributes fuel buf body (length (if has then tlv t b else []) + size) msg =
      parse_attributes fuel' buf (body + length (if has then tlv t b else [])) size msg'.
Proof.
  intros Hb Ht Hl Hp Hn Hf. destruct has.
  - destruct fuel as [|fuel]; [lia|]. exists fuel. pose proof (length_tlv t b). split; [lia|].
    apply parse_one; auto. apply Hp; [done|]. unfold tlv in Hb.
    rewrite !stands_app, !length_be_bytes, <- Nat.add_assoc in Hb. apply Hb.
  - exists fuel. rewrite Hn by done. cbn [length] in *. rewrite Nat.add_0_r. split; [lia|done].
Qed.

(** The same in front of a goal. *)
Lemma parse_then (has : bool) fuel buf body size t b msg msg' res :
  stands buf body (if has then tlv t b else []) ->
  (0 <= t < 65536)%Z -> (has = true -> length b <= 256) ->
  (has = true -> stands buf (body + 4) b -> parse_attribute buf (body + 4) (length b) t msg = Val (true, msg')) ->
  (has = false -> msg' = msg) ->
  length (if has then tlv t b else []) + size < fuel ->
  (forall fuel', size < fuel' ->
    parse_attributes fuel' buf (body + length (if has then tlv t b else [])) size msg' = res) ->
  parse_attributes fuel buf body (length (if has then tlv t b else []) + size) msg = res.
Proof.
  intros Hb Ht Hl Hp Hn Hf Hk.
  destruct (parse_optional has fuel buf body size t b msg msg' Hb Ht Hl Hp Hn Hf) as (fuel' & Hf' & ->).
  by apply Hk.
Qed.

(** The step for one attribute; [msg'] is the message with it. *)
Ltac attribute H msg' :=
  lazymatch goal with
  | |- parse_attributes ?fuel ?buf ?body (_ + ?size) ?msg = ?res =>
      lazymatch type of H with
      | stands _ _ ((if ?has then tlv ?t ?b else []) ++ _) =>
          let H1 := fresh in
          apply stands_app in H as [H1 H];
          let m1 := eval cbv beta delta [update] in (msg' msg) in
          let m2 := eval cbn [msgHdr hasMappedAddress mappedAddress hasResponseAddress responseAddress
            hasChangeRequest changeRequest hasSourceAddress sourceAddress hasChangedAddress changedAddress
            hasUsername username hasPassword password hasMessageIntegrity messageIntegrity hasErrorCode errorCode
            hasUnknownAttributes unknownAttributes hasReflectedFrom reflectedFrom hasXorMappedAddress
            xorMappedAddress xorOnly hasServerName serverName hasSecondaryAddress secondaryAddress
            zero_message] in m1 in
          apply (parse_then has fuel buf body size t b msg m2 res H1); clear H1;
          [done| | | |done| ]
      end
  end.
Ltac absent := let H := fresh in intros H; rewrite H; reflexivity.
Ltac at_position :=
  let H := fresh in
  intros H; rewrite H; lazymatch goal with |- stands _ ?p _ -> _ => generalize p end.
Ltac read_address :=
  at_position; let Hs := fresh in
  intros ? Hs; rewrite length_address_body; cbn -[stunParseAtrAddress]; by rewrite (parse_address _ _ _ _ Hs).
Ltac read_string :=
  let H := fresh in let Hw := fresh in let Hs := fresh in
  intros H Hw; revert H; at_position; intros ? Hs;
  cbn -[stunParseAtrString zero_string]; by rewrite (parse_string _ _ _ Hw Hs).

Lemma length_string_le s : wf_string s -> length (string_body s) <= 256.
Proof. intros Hs. rewrite length_string_body by done. destruct Hs. lia. Qed.

Ltac an_address H f :=
  attribute H f; [intros _; rewrite length_address_body; lia|read_address|absent|intros ? ?].
Ltac a_string H f wf :=
  attribute H f;
    [let Hh := fresh in intros Hh; apply length_string_le; exact (wf Hh)
    |let Hh := fresh in intros Hh; generalize (wf Hh); revert Hh; read_string|absent|intros ? ?].

Lemma parse_body m pwd buf fuel :
  wf_stun m -> plain m -> stands buf 20 (body_bytes m pwd) -> length (body_bytes m pwd) < fuel ->
  parse_attributes fuel buf 20 (length (body_bytes m pwd))
    (zero_message <| msgHdr := msgHdr (read_back m pwd) |>) = Val (true, read_back m pwd).
Proof.
  intros Hm (He & Hu & Hx). set (h := msgHdr (read_back m pwd)).
  unfold body_bytes, attribute_bytes. cbn [concat]. rewrite !length_app, He, Hu, Hx.
  intros Hb Hf.
  an_address Hb (fun msg => msg <| hasMappedAddress := hasMappedAddress m |> <| mappedAddress := sent4 (hasMappedAddress m) (mappedAddress m) |>).
  an_address Hb (fun msg => msg <| hasResponseAddress := hasResponseAddress m |> <| responseAddress := sent4 (hasResponseAddress m) (responseAddress m) |>).
  attribute Hb (fun msg => msg <| hasChangeRequest := hasChangeRequest m |>
      <| changeRequest := if hasChangeRequest m then (changeRequest m mod 2 ^ 32)%Z else 0%Z |>);
    [intros _; rewrite length_be_bytes; lia| |absent|intros ? ?].
  { at_position. intros p Hs. rewrite length_be_bytes. cbn -[stunParseAtrChangeRequest Z.modulo Z.pow]. by rewrite (parse_change _ _ _ _ Hs). }
  an_address Hb (fun msg => msg <| hasSourceAddress := hasSourceAddress m |> <| sourceAddress := sent4 (hasSourceAddress m) (sourceAddress m) |>).
  an_address Hb (fun msg => msg <| hasChangedAddress := hasChangedAddress m |> <| changedAddress := sent4 (hasChangedAddress m) (changedAddress m) |>).
  a_string Hb (fun msg => msg <| hasUsername := hasUsername m |> <| username := sent_string (hasUsername m) (username m) |>) (wf_username m Hm).
  a_string Hb (fun msg => msg <| hasPassword := hasPassword m |> <| password := sent_string (hasPassword m) (password m) |>) (wf_password m Hm).
  rewrite !app_nil_l in Hb. cbn [length Nat.add].
  an_address Hb (fun msg => msg <| hasReflectedFrom := hasReflectedFrom m |> <| reflectedFrom := sent4 (hasReflectedFrom m) (reflectedFrom m) |>).
  an_address Hb (fun msg => msg <| hasXorMappedAddress := hasXorMappedAddress m |> <| xorMappedAddress := sent4 (hasXorMappedAddress m) (xorMappedAddress m) |>).
  a_string Hb (fun msg => msg <| hasServerName := hasServerName m |> <| serverName := sent_string (hasServerName m) (serverName m) |>) (wf_server m Hm).
  an_address Hb (fun msg => msg <| hasSecondaryAddress := hasSecondaryAddress m |> <| secondaryAddress := sent4 (hasSecondaryAddress m) (secondaryAddress m) |>).
  attribute Hb (fun msg => msg <| hasMessageIntegrity := (0 <? sizeValue pwd)%Z |>
      <| messageIntegrity := if (0 <? sizeValue pwd)%Z then computeHmac else zeros 20 |>);
    [intros _; cbn; lia| |absent|intros f Hl].
  { at_position. intros p Hs. cbn -[stunParseAtrIntegrity computeHmac zeros]. by rewrite parse_integrity. }
  destruct f; [lia|]. reflexivity.
Qed.

Lemma parse_message m pwd buf n :
  wf_stun m -> plain m -> stands buf 0 (message_bytes m pwd) -> n = length (message_bytes m pwd) ->
  stunParseMessage buf n = Val (true, read_back m pwd).
Proof.
  intros Hm Hp Hb ->. pose proof (message_size m pwd Hm) as Hs. rewrite length_message in * by done.
  unfold message_bytes in Hb. rewrite !stands_app, !length_be_bytes, (wf_id m Hm) in Hb.
  destruct Hb as (H1 & H2 & H3 & H4). cbn [Nat.add] in H2, H3, H4. unfold stunParseMessage, sizeof_StunMsgHdr.
  rewrite (proj2 (Nat.ltb_ge _ _)) by lia. unfold get16. cbn zeta.
  rewrite (get_be_at 2 _ _ _ H1), val_bind, (get_be_at 2 _ _ _ H2), val_bind.
  rewrite (Z.mod_small (Z.of_nat _)) by (change (256 ^ Z.of_nat 2)%Z with 65536%Z; lia).
  pose proof (rdn_at _ _ _ H3) as E. rewrite (wf_id m Hm) in E. rewrite E, val_bind, Nat2Z.id.
  rewrite (Nat.add_comm (length (body_bytes m pwd))), Nat.eqb_refl. cbn [negb].
  apply parse_body; [done..|lia].
Qed.

(** ** Safety of the parser *)

(** The arrays of a message have the lengths they are declared with, and the
    name is a C string. *)
Record shaped (m : StunMessage) : Prop := {
  sh_username : length (str_value (username m)) = STUN_MAX_STRING;
  sh_size : (0 <= sizeValue (username m) < 256)%Z /\ (sizeValue (username m) mod 4 = 0)%Z;
  sh_ends : str_value (username m) !! Z.to_nat (sizeValue (username m)) = Some (chr 0);
  sh_password : length (str_value (password m)) = STUN_MAX_STRING;
  sh_server : length (str_value (serverName m)) = STUN_MAX_STRING;
  sh_integrity : length (messageIntegrity m) = 20;
  sh_reason : length (reason (errorCode m)) = STUN_MAX_STRING;
  sh_unknown : length (attrType (unknownAttributes m)) = STUN_MAX_UNKNOWN_ATTRIBUTES
}.

Lemma shaped_zero h : shaped (zero_message <| msgHdr := h |>).
Proof. by constructor. Qed.

Lemma lookup_splice m i c : i < length m -> splice m i [c] !! i = Some c.
Proof.
  intros H. pose proof (lookup_drop (splice m i [c]) i 0) as E. rewrite Nat.add_0_r in E.
  rewrite <- E, drop_splice by lia. done.
Qed.

Lemma get32_in buf i : i + 4 <= length buf -> exists v, get32 buf i = Val v.
Proof. intros H. unfold get32. rewrite get_be_in by done. by eexists. Qed.

Lemma address_safe buf body len r :
  body + len <= length buf -> exists ok r', stunParseAtrAddress buf body len r = Val (ok, r').
Proof.
  intros H. unfold stunParseAtrAddress. destruct (len =? 8) eqn:E; bools; [|by do 2 eexists].
  subst. cbn [negb]. destruct (rd_in buf body) as (c & _ & ->); [lia|]. rewrite val_bind. cbn zeta.
  destruct (rd_in buf (body + 1)) as (d & _ & ->); [lia|]. rewrite val_bind. cbn zeta.
  destruct (_ =? _)%Z; [|by do 2 eexists].
  destruct (get16_in buf (body + 2)) as (p & -> & _); [lia|]. rewrite val_bind.
  destruct (get32_in buf (body + 4)) as (a & ->); [lia|]. rewrite val_bind. by do 2 eexists.
Qed.

Lemma change_safe buf body len r :
  body + len <= length buf -> exists ok r', stunParseAtrChangeRequest buf body len r = Val (ok, r').
Proof.
  intros H. unfold stunParseAtrChangeRequest. destruct (len =? 4) eqn:E; bools; [|by do 2 eexists].
  subst. cbn [negb]. destruct (get32_in buf body) as (a & ->); [lia|]. rewrite val_bind. by do 2 eexists.
Qed.

Lemma string_safe buf body len r :
  body + len <= length buf -> length (str_value r) = STUN_MAX_STRING ->
  exists ok r', stunParseAtrString buf body len r = Val (ok, r') /\ length (str_value r') = STUN_MAX_STRING /\
    (r' = r \/ ((0 <= sizeValue r' < 256)%Z /\ (sizeValue r' mod 4 = 0)%Z) /\
      str_value r' !! Z.to_nat (sizeValue r') = Some (chr 0)).
Proof.
  intros H Hr. unfold stunParseAtrString.
  destruct (STUN_MAX_STRING <=? len) eqn:E; bools; [do 2 eexists; split; [done|]; auto|].
  destruct (len mod 4 =? 0) eqn:Em; bools; [|do 2 eexists; split; [done|]; auto].
  cbn [negb]. rewrite rdn_in by done. rewrite val_bind.
  assert (Hl : length (take len (drop body buf)) = len) by (rewrite length_take, length_drop; lia).
  rewrite wrn_in by (rewrite Hl, Hr; lia). rewrite val_bind, wr_in.
  2:{ rewrite length_splice; rewrite Hr; [done|]. rewrite Hl. lia. }
  rewrite val_bind. do 2 eexists. split; [done|]. cbn [str_value sizeValue].
  assert (Hs : length (splice (str_value r) 0 (take len (drop body buf))) = STUN_MAX_STRING)
    by (rewrite length_splice; rewrite Hr, ?Hl; lia).
  split; [rewrite length_splice; rewrite Hs; cbn [length]; lia|]. right. unfold STUN_MAX_STRING in E.
  split_and!; [lia|lia| |].
  - change 4%Z with (Z.of_nat 4). by rewrite <- Nat2Z.inj_mod, Em.
  - rewrite Nat2Z.id. apply lookup_splice. rewrite Hs. unfold STUN_MAX_STRING. lia.
Qed.

Lemma integrity_safe buf body len r :
  body + len <= length buf -> length r = 20 ->
  exists ok r', stunParseAtrIntegrity buf body len r = Val (ok, r') /\ length r' = 20.
Proof.
  intros H Hr. unfold stunParseAtrIntegrity. destruct (len =? 20) eqn:E; bools; [|by do 2 eexists].
  subst. cbn [negb]. rewrite rdn_in by done. rewrite val_bind.
  assert (Hl : length (take 20 (drop body buf)) = 20) by (rewrite length_take, length_drop; lia).
  rewrite wrn_in by (rewrite Hl, Hr; lia). rewrite val_bind. do 2 eexists. split; [done|].
  rewrite length_splice; rewrite ?Hl; lia.
Qed.

Lemma error_safe buf body len r :
  body + len <= length buf -> length (reason r) = STUN_MAX_STRING -> 4 <= len -> (len < 260 \/ 262 <= len) ->
  exists ok r', stunParseAtrError buf body len r = Val (ok, r') /\ length (reason r') = STUN_MAX_STRING.
Proof.
  intros H Hr H4 Hb. unfold stunParseAtrError, sizeof_StunAtrError.
  destruct (262 <=? len) eqn:E; bools; [by do 2 eexists|].
  destruct (get16_in buf body) as (p & -> & _); [lia|]. rewrite val_bind.
  destruct (rd_in buf (body + 2)) as (c & _ & ->); [lia|]. rewrite val_bind.
  destruct (rd_in buf (body + 3)) as (d & _ & ->); [lia|]. rewrite val_bind. cbn zeta.
  rewrite Z.mod_small by (change (2 ^ 16)%Z with 65536%Z; lia).
  replace (Z.to_nat (Z.of_nat len - 4)) with (len - 4) by lia.
  rewrite rdn_in by lia. rewrite val_bind.
  assert (Hl : length (take (len - 4) (drop (body + 4) buf)) = len - 4) by (rewrite length_take, length_drop; lia).
  assert (Hm : STUN_MAX_STRING = 256) by done.
  rewrite wrn_in by (rewrite Hl, Hr, Hm; lia). rewrite val_bind, wr_in.
  2:{ rewrite length_splice; rewrite Hr, Hm; [lia|]. rewrite Hl. lia. }
  rewrite val_bind. do 2 eexists. split; [done|]. cbn [reason].
  rewrite !length_splice; rewrite ?length_splice; rewrite ?Hr, ?Hl, ?Hm; cbn [length]; lia.
Qed.

Lemma parse_unknown_safe buf n body i r :
  body + 2 * n <= length buf -> i + n <= length (attrType r) ->
  exists r', parse_unknown buf body i n r = Val r' /\ length (attrType r') = length (attrType r).
Proof.
  revert body i r. induction n as [|n IH]; intros body i r Hb Hi; [by eexists|].
  cbn [parse_unknown]. destruct (get16_in buf body) as (t & -> & _); [lia|]. rewrite val_bind.
  rewrite (proj2 (Nat.ltb_lt _ _)) by lia.
  destruct (IH (body + 2) (S i) (r <| attrType := <[i := t]> (attrType r) |>)) as (r' & -> & Hl);
    [lia|cbn; rewrite length_insert; lia|].
  exists r'. split; [done|]. rewrite Hl. cbn. by rewrite length_insert.
Qed.

Lemma unknown_safe buf body len r :
  body + len <= length buf -> length (attrType r) = STUN_MAX_UNKNOWN_ATTRIBUTES ->
  exists ok r', stunParseAtrUnknown buf body len r = Val (ok, r') /\
    length (attrType r') = STUN_MAX_UNKNOWN_ATTRIBUTES.
Proof.
  intros H Hr. unfold stunParseAtrUnknown, sizeof_StunAtrUnknown.
  destruct (18 <=? len) eqn:E; bools; [by do 2 eexists|]. destruct (negb _); [by do 2 eexists|]. cbn zeta.
  assert (len / 4 < 5) by (apply Nat.Div0.div_lt_upper_bound; lia).
  assert (4 * (len / 4) <= len) by apply Nat.Div0.mul_div_le.
  destruct (parse_unknown_safe buf (len / 4) body 0 (r <| numAttributes := Z.of_nat (len / 4) |>)) as (r' & -> & Hl);
    [lia|change (0 + len / 4 <= length (attrType r)); rewrite Hr; unfold STUN_MAX_UNKNOWN_ATTRIBUTES; lia|].
  rewrite val_bind. do 2 eexists. split; [done|]. rewrite Hl. exact Hr.
Qed.

(** An ErrorCode attribute that has no room for its fixed part, or leaves no
    room for the terminator of the reason. *)
Definition bad_error (t : Z) (len : nat) : Prop := t = ErrorCode /\ (len < 4 \/ 260 <= len < 262).

Lemma parse_attribute_safe buf body len t m :
  shaped m -> body + len <= length buf ->
  bad_error t len \/ exists ok m', parse_attribute buf body len t m = Val (ok, m') /\ shaped m'.
Proof.
  intros Hm Hb. unfold parse_attribute.
  repeat match goal with |- context [if (t =? ?c)%Z then _ else _] => destruct (t =? c)%Z eqn:?; cbn zeta end.
  all: lazymatch goal with
  | |- context [stunParseAtrAddress _ _ _ ?r] =>
      destruct (address_safe buf body len r Hb) as (ok & r' & ->); right
  | |- context [stunParseAtrChangeRequest _ _ _ ?r] =>
      destruct (change_safe buf body len r Hb) as (ok & r' & ->); right
  | |- context [stunParseAtrString _ _ _ ?r] =>
      destruct (string_safe buf body len r Hb) as (ok & r' & -> & Hl & [->|[? ?]]); [apply Hm|right..]
  | |- context [stunParseAtrIntegrity _ _ _ ?r] =>
      destruct (integrity_safe buf body len r Hb) as (ok & r' & -> & Hl); [apply Hm|]; right
  | |- context [stunParseAtrUnknown _ _ _ ?r] =>
      destruct (unknown_safe buf body len r Hb) as (ok & r' & -> & Hl); [apply Hm|]; right
  | |- context [stunParseAtrError _ _ _ ?r] => bools
  | _ => right
  end.
  all: try (do 2 eexists; split; [done|]; destruct Hm; by constructor).
  destruct (decide (4 <= len /\ (len < 260 \/ 262 <= len))) as [[H4 Hr]|Hn]; [|left; split; [done|lia]].
  destruct (error_safe buf body len (errorCode (m <| hasErrorCode := true |>)) Hb) as (ok & r' & -> & Hl); [apply Hm|done..|].
  right. do 2 eexists. split; [done|]. destruct Hm. by constructor.
Qed.

(** An attribute that the parser comes across in the bytes from [lo] to [hi]. *)
Definition bad_error_in (buf : str) (lo hi : nat) : Prop :=
  exists p t len, lo <= p /\ p + 4 <= hi /\ get16 buf p = Val t /\ get16 buf (p + 2) = Val len /\
    bad_error t (Z.to_nat len).

Lemma bad_error_from buf lo lo' hi : lo <= lo' -> bad_error_in buf lo' hi -> bad_error_in buf lo hi.
Proof. intros H (p & t & len & Hp & ?). exists p, t, len. split; [lia|done]. Qed.

Lemma parse_attributes_safe fuel buf body size m :
  size < fuel -> body + size + 3 <= length buf -> shaped m ->
  bad_error_in buf body (body + size) \/
  exists ok m', parse_attributes fuel buf body size m = Val (ok, m') /\ shaped m'.
Proof.
  revert body size m. induction fuel as [|fuel IH]; intros body size m Hf Hb Hm; [lia|]. cbn [parse_attributes].
  destruct (size =? 0) eqn:Hs; bools; [right; by do 2 eexists|].
  destruct (get16_in buf (body + 2)) as (len & El & Hl); [lia|]. rewrite El, val_bind.
  destruct (get16_in buf body) as (t & Et & Ht); [lia|]. rewrite Et, val_bind. cbn zeta.
  destruct (size <? _) eqn:Hz; bools; [right; by do 2 eexists|].
  destruct (parse_attribute_safe buf (body + 4) (Z.to_nat len) t m Hm ltac:(lia)) as [Hbad|(ok & m' & -> & Hm')].
  { left. exists body, t, len. split_and!; [lia|lia|done|done|done]. }
  rewrite val_bind. destruct ok; cbn [negb]; [|right; by do 2 eexists].
  destruct (IH (body + 4 + Z.to_nat len) (size - 4 - Z.to_nat len) m') as [Hbad|Hok]; [lia|lia|done|left|by right].
  apply (bad_error_from _ _ _ _ (Nat.le_trans _ _ _ (Nat.le_add_r body 4) (Nat.le_add_r _ _))) in Hbad.
  by replace (body + 4 + Z.to_nat len + (size - 4 - Z.to_nat len)) with (body + size) in Hbad by lia.
Qed.
