(* ===== verification/StunServer.v ===== *)
(** * The STUN server

    [stunServerProcessMsg] of src/stun/STUNProto.cpp and
    [vovida_stun_ServerProcessMsg] of include/OSS/STUN/VovidaSTUN.inl: the answer to
    one request; and [vovida_stun_ServerProcess], the body of the loop of
    src/stun/STUNServer.cpp: one [select] on the sockets of the server.

    The two copies of the first differ in the name they send and in when they
    answer a request for a shared secret: in STUNProto.cpp the log statement of
    [if(verbose)] is commented out, so that the call behind it has become the
    guarded statement. *)

From S2P Require Import Prelude CMem StunMessage.
Open Scope nat_scope.

(** ** Names and passwords *)

Definition hexmap : str := #"0123456789abcdef".
Definition hex_char (z : Z) : ascii := default (chr 0) (hexmap !! Z.to_nat z).

(** The characters [toHex] writes, without the NUL. *)
Definition toHex (buffer : str) : str :=
  concat (map (fun c => [hex_char (Z.shiftr (Z.land (uchar c) 0xf0) 4); hex_char (Z.land (uchar c) 0xf)]) buffer).

(** [%08x]. *)
Definition fmt_08x (z : Z) : str :=
  map (fun i => hex_char (Z.land (Z.shiftr z (4 * i)) 15)) [7; 6; 5; 4; 3; 2; 1; 0]%Z.

(** [stunCreateUserName], given the results of [stunGetSystemTimeSecs] and
    [stunRand].  In the source [time % 20*60] is [(time % 20) * 60]. *)
Definition stunCreateUserName (now rnd : Z) (source : StunAddress4) (name : StunAtrString) : cres StunAtrString :=
  let time := u64 (now - now mod 20 * 60) in
  let lotime := Z.land time 0xFFFFFFFF in
  let buffer := fmt_08x (u32 (a4_addr source)) ++ #":" ++ fmt_08x (u32 rnd) ++ #":" ++ fmt_08x (u32 lotime) ++ #":" in
  if negb (length buffer <? 1024) then Abort
  else if negb (length buffer + 41 <? STUN_MAX_STRING) then Abort
  else
    let buffer := buffer ++ toHex computeHmac in
    let l := length buffer in
    if negb (l + 1 <? STUN_MAX_STRING) then Abort
    else if negb (l mod 4 =? 0) then Abort
    else
      v ← wrn (str_value name) 0 buffer;
      v ← wr v l 0;
      Val (mkStunAtrString v (Z.of_nat l)).

(** [toHex] writes a NUL behind the digits, and so does the caller. *)
Definition stunCreatePassword (name pwd : StunAtrString) : cres StunAtrString :=
  _ ← c_strlen (str_value name) 0;
  v ← wrn (str_value pwd) 0 (asciiz (toHex computeHmac));
  v ← wr v 40 0;
  Val (mkStunAtrString v 40).

(** ** The answer to a request *)

(** The out parameters; [None] is a destination that has not been written. *)
Record StunAnswer := mkStunAnswer {
  ans_resp : StunMessage;
  ans_destination : option StunAddress4;
  ans_hmacPassword : StunAtrString;
  ans_changePort : bool;
  ans_changeIp : bool
}.
#[export] Instance eta_answer : Settable StunAnswer := fun r =>
  mkStunAnswer (ans_resp r) (ans_destination r) (ans_hmacPassword r) (ans_changePort r) (ans_changeIp r).

(** [strcpy(response.errorCode.reason, msg)]; [sizeReason] is not set. *)
Definition stunCreateErrorResponse (response : StunMessage) (cl number : Z) (msg : str) : cres StunMessage :=
  r ← wrn (reason (errorCode response)) 0 (asciiz msg);
  Val (response <| msgHdr := (msgHdr response) <| msgType := BindErrorResponseMsg |> |>
        <| hasErrorCode := true |>
        <| errorCode := (errorCode response) <| errorClass := cl |> <| err_number := number |> <| reason := r |> |>).

Definition stunCreateSharedSecretResponse (now rnd : Z) (request : StunMessage) (source : StunAddress4)
    (response : StunMessage) : cres StunMessage :=
  name ← stunCreateUserName now rnd source (username response);
  pwd ← stunCreatePassword name (password response);
  Val (response <| msgHdr := mkStunMsgHdr SharedSecretResponseMsg (msgLength (msgHdr response)) (msgId (msgHdr request)) |>
        <| hasUsername := true |> <| username := name |> <| hasPassword := true |> <| password := pwd |>).

(** The [n]th octet of an id. *)
Definition octet (m : StunMessage) (n : nat) : Z := uchar (default (chr 0) (msgId (msgHdr m) !! n)).

(** [sscanf(s, "%x", &source)]: white space, a sign, a prefix and the digits, whose
    value is that of [strtoul] at 32 bits; [None] when there are no digits. *)
Definition is_space (c : ascii) : bool := let z := uchar c in ((z =? 32) || ((9 <=? z) && (z <=? 13)))%Z.
Definition hex_value (c : ascii) : option Z :=
  let z := uchar c in
  if ((48 <=? z) && (z <=? 57))%Z then Some (z - 48)%Z
  else if ((97 <=? z) && (z <=? 102))%Z then Some (z - 87)%Z
  else if ((65 <=? z) && (z <=? 70))%Z then Some (z - 55)%Z
  else None.
Fixpoint skip_spaces (s : str) : str :=
  match s with c :: t => if is_space c then skip_spaces t else s | [] => [] end.
Fixpoint hex_digits (s : str) (acc : option Z) : option Z :=
  match s with
  | c :: t =>
      match hex_value c with
      | Some d => hex_digits t (Some (default 0 acc * 16 + d)%Z)
      | None => acc
      end
  | [] => acc
  end.
Definition scan_hex (s : str) : option Z :=
  let s := skip_spaces s in
  let '(neg, s) := match s with
    | c :: t => if (uchar c =? 45)%Z then (true, t) else if (uchar c =? 43)%Z then (false, t) else (false, s)
    | [] => (false, s)
    end in
  let s := match s with
    | c :: d :: t => if ((uchar c =? 48) && ((uchar d =? 120) || (uchar d =? 88)))%Z then t else s
    | _ => s
    end in
  v ← hex_digits s None;
  let v := if (2 ^ 64 <=? v)%Z then (2 ^ 64 - 1)%Z else if (neg : bool) then u64 (- v) else v in
  Some (u32 v).

(** ** BindRequestMsg

    The parts of the branch, in their order. *)

(** The addresses of the response. *)
Definition bind_addresses (req : StunMessage) (mapped secondary myAddr altAddr : StunAddress4)
    (changePort changeIp : bool) (resp : StunMessage) : StunMessage :=
  let resp := resp <| msgHdr := mkStunMsgHdr BindResponseMsg (msgLength (msgHdr resp)) (msgId (msgHdr req)) |> in
  let resp := if xorOnly req then resp
    else resp <| hasMappedAddress := true |> <| mappedAddress := (mappedAddress resp) <| ipv4 := mapped |> |> in
  let id16 := (octet req 0 * 256 + octet req 1)%Z in
  let id32 := (octet req 0 * 2 ^ 24 + octet req 1 * 2 ^ 16 + octet req 2 * 2 ^ 8 + octet req 3)%Z in
  let resp := resp <| hasXorMappedAddress := true |>
    <| xorMappedAddress := (xorMappedAddress resp) <| ipv4 :=
         mkStunAddress4 (Z.lxor (a4_port mapped) id16) (Z.lxor (a4_addr mapped) id32) |> |> in
  let resp := resp <| hasSourceAddress := true |>
    <| sourceAddress := (sourceAddress resp) <| ipv4 :=
         mkStunAddress4 (if changePort then a4_port altAddr else a4_port myAddr)
                        (if changeIp then a4_addr altAddr else a4_addr myAddr) |> |> in
  let resp := resp <| hasChangedAddress := true |>
    <| changedAddress := (changedAddress resp) <| ipv4 := altAddr |> |> in
  if (a4_port secondary =? 0)%Z then resp
  else resp <| hasSecondaryAddress := true |>
    <| secondaryAddress := (secondaryAddress resp) <| ipv4 := secondary |> |>.

Definition copy_username (req resp : StunMessage) : cres StunMessage :=
  if hasUsername req && (0 <? sizeValue (username req))%Z then
    if negb (sizeValue (username req) mod 4 =? 0)%Z then Abort
    else if negb (sizeValue (username req) <? Z.of_nat STUN_MAX_STRING)%Z then Abort
    else
      s ← rdn (str_value (username req)) 0 (Z.to_nat (sizeValue (username req)));
      v ← wrn (str_value (username resp)) 0 s;
      Val (resp <| hasUsername := true |> <| username := mkStunAtrString v (sizeValue (username req)) |>)
  else Val resp.

(** [name] is the array [serverName], with its NUL. *)
Definition add_server_name (name : str) (resp : StunMessage) : cres StunMessage :=
  if negb (length name <? STUN_MAX_STRING) then Abort
  else if negb (length name mod 4 =? 0) then Abort
  else
    v ← wrn (str_value (serverName resp)) 0 name;
    Val (resp <| hasServerName := true |> <| serverName := mkStunAtrString v (Z.of_nat (length name)) |>).

Definition add_reflected (req resp : StunMessage) : cres StunMessage :=
  if hasUsername req && (64 <? sizeValue (username req))%Z then
    n ← c_strlen (str_value (username req)) 0;
    s ← rdn (str_value (username req)) 0 n;
    match scan_hex s with
    | Some source => Val (resp <| hasReflectedFrom := true |>
        <| reflectedFrom := (reflectedFrom resp) <| ipv4 := mkStunAddress4 0 source |> |>)
    | None => Fault
    end
  else Val resp.

Definition bind_response (name : str) (req : StunMessage) (from secondary myAddr altAddr : StunAddress4)
    (out : StunAnswer) : cres (bool * StunAnswer) :=
  let mapped := ipv4 (mappedAddress req) in
  let respondTo := ipv4 (responseAddress req) in
  let flags := changeRequest req in
  let respondTo := if (a4_port respondTo =? 0)%Z then from else respondTo in
  let mapped := if (a4_port mapped =? 0)%Z then from else mapped in
  let changeIp := negb (Z.land flags ChangeIpFlag =? 0)%Z in
  let changePort := negb (Z.land flags ChangePortFlag =? 0)%Z in
  let resp := bind_addresses req mapped secondary myAddr altAddr changePort changeIp (ans_resp out) in
  resp ← copy_username req resp;
  resp ← add_server_name name resp;
  pwd ← (if hasMessageIntegrity req && hasUsername req
    then stunCreatePassword (username req) (ans_hmacPassword out) else Val (ans_hmacPassword out));
  resp ← add_reflected req resp;
  Val (true, mkStunAnswer resp (Some respondTo) pwd changePort changeIp).

(** The whole branch.  Without OpenSSL the code of a request by the user [test] is
    compared with an array that nothing has been written to. *)
Definition bind_request (name : str) (req : StunMessage) (from secondary myAddr altAddr : StunAddress4)
    (out : StunAnswer) : cres (bool * StunAnswer) :=
  let respond := bind_response name req from secondary myAddr altAddr out in
  if negb (hasMessageIntegrity req) then respond
  else if negb (hasUsername req) then
    resp ← stunCreateErrorResponse (ans_resp out) 4 32 #"No UserName and contains MessageIntegrity";
    Val (true, out <| ans_resp := resp |>)
  else
    n ← c_strlen (str_value (username req)) 0;
    s ← rdn (str_value (username req)) 0 n;
    if decide (s = #"test") then Fault else respond.

(** What the function has done before it looks at the request. *)
Definition fresh_answer (destination : option StunAddress4) (pwd : StunAtrString) : StunAnswer :=
  mkStunAnswer zero_message destination pwd false false.

Definition stunServerProcessMsg (now rnd : Z) (verbose : bool) (buf : str) (bufLen : nat)
    (from secondary myAddr altAddr : StunAddress4) (destination : option StunAddress4) (pwd : StunAtrString)
    : cres (bool * StunAnswer) :=
  let out := fresh_answer destination pwd in
  '(ok, req) ← stunParseMessage buf bufLen;
  if negb ok then Val (false, out)
  else if (msgType (msgHdr req) =? SharedSecretRequestMsg)%Z then
    resp ← (if verbose then stunCreateSharedSecretResponse now rnd req from (ans_resp out) else Val (ans_resp out));
    Val (true, out <| ans_resp := resp |>)
  else if (msgType (msgHdr req) =? BindRequestMsg)%Z then
    bind_request (asciiz #"OSS STUN API") req from secondary myAddr altAddr out
  else Val (false, out).

Definition vovida_stun_ServerProcessMsg (now rnd : Z) (buf : str) (bufLen : nat)
    (from secondary myAddr altAddr : StunAddress4) (destination : option StunAddress4) (pwd : StunAtrString)
    : cres (bool * StunAnswer) :=
  let out := fresh_answer destination pwd in
  '(ok, req) ← stunParseMessage buf bufLen;
  if negb ok then Val (false, out)
  else if (msgType (msgHdr req) =? SharedSecretRequestMsg)%Z then
    resp ← stunCreateSharedSecretResponse now rnd req from (ans_resp out);
    Val (true, out <| ans_resp := resp |>)
  else if (msgType (msgHdr req) =? BindRequestMsg)%Z then
    bind_request (asciiz #"Vovida.org 0.96") req from secondary myAddr altAddr out
  else Val (false, out).

(** ** Sockets

    include/OSS/STUN/VovidaUDP.inl.  What the operating system answers during one
    round of the server: which sockets [select] reports ([None] is its error), the
    datagram [recvfrom] takes from a socket ([None] is its error), the descriptor
    [udp_openPort] returns, the clock, and what happens to stand in the arrays on
    the stack. *)
Definition INVALID_SOCKET : Z := -1.

Record UdpWorld := mkUdpWorld {
  w_select : option (Z -> bool);
  w_recv : Z -> option (str * StunAddress4);
  w_open : Z -> Z -> Z;
  w_time : Z;
  w_stack : nat -> str
}.

Inductive udp_event :=
| UdpSent (fd : Z) (data : str) (dst : StunAddress4)
| UdpClosed (fd : Z)
| UdpOpened (fd port : Z).

(** The result, the buffer, [*len] and the source, [None] when it has not been
    written.  The buffer is the array of [originalSize] bytes. *)
Definition udp_getMessage (w : UdpWorld) (fd : Z) (buf : str) : cres (bool * str * Z * option StunAddress4) :=
  let originalSize := length buf in
  if (fd =? INVALID_SOCKET)%Z then Abort
  else if originalSize =? 0 then Abort
  else
    match w_recv w fd with
    | None => Val (false, buf, (-1)%Z, None)
    | Some (data, from) =>
        let data := take originalSize data in
        let len := length data in
        buf ← wrn buf 0 data;
        if len =? 0 then Val (false, buf, 0%Z, None)
        else if originalSize <=? len + 1 then Val (false, buf, Z.of_nat len, Some from)
        else buf ← wr buf len 0; Val (true, buf, Z.of_nat len, Some from)
    end.

Definition udp_sendMessage (fd : Z) (buf : str) (l : nat) (dst : StunAddress4) : cres (list udp_event) :=
  if (fd =? INVALID_SOCKET)%Z then Abort
  else
    data ← rdn buf 0 l;
    if (a4_port dst =? 0)%Z then
      if negb (a4_addr dst =? 0)%Z then Abort else Val [UdpSent fd data dst]
    else if (a4_addr dst =? 0)%Z then Abort
    else Val [UdpSent fd data dst].

(** ** One round of the server *)

Record StunMediaRelay := mkStunMediaRelay {
  relayPort : Z; relay_fd : Z; relay_destination : StunAddress4; relay_expireTime : Z }.
#[export] Instance eta_relay : Settable StunMediaRelay := fun r =>
  mkStunMediaRelay (relayPort r) (relay_fd r) (relay_destination r) (relay_expireTime r).

Record StunServerInfo := mkStunServerInfo {
  si_myAddr : StunAddress4; si_altAddr : StunAddress4;
  si_myFd : Z; si_altPortFd : Z; si_altIpFd : Z; si_altIpPortFd : Z;
  si_relay : bool; si_relays : list StunMediaRelay }.
#[export] Instance eta_info : Settable StunServerInfo := fun r =>
  mkStunServerInfo (si_myAddr r) (si_altAddr r) (si_myFd r) (si_altPortFd r) (si_altIpFd r) (si_altIpPortFd r)
    (si_relay r) (si_relays r).

Definition MEDIA_RELAY_TIMEOUT : Z := 3 * 60.
Definition MAX_RTP_MSG_SIZE : nat := 1500.

Section round.
Variable w : UdpWorld.

(** The relaying of media. *)
Definition relay_media (myFd : Z) (ready : Z -> bool) (relay : StunMediaRelay)
    : cres (StunMediaRelay * list udp_event) :=
  if (relay_fd relay =? 0)%Z then Val (relay, [])
  else if ready (relay_fd relay) then
    '(ok, msg, len, _) ← udp_getMessage w (relay_fd relay) (w_stack w MAX_RTP_MSG_SIZE);
    if (ok : bool) then
      sent ← udp_sendMessage myFd msg (Z.to_nat len) (relay_destination relay);
      Val (relay <| relay_expireTime := w_time w + MEDIA_RELAY_TIMEOUT |>, sent)%Z
    else Val (relay, [])
  else if (relay_expireTime relay <? w_time w)%Z then Val (relay <| relay_fd := 0%Z |>, [UdpClosed (relay_fd relay)])
  else Val (relay, []).

Fixpoint relay_all (myFd : Z) (ready : Z -> bool) (relays : list StunMediaRelay)
    : cres (list StunMediaRelay * list udp_event) :=
  match relays with
  | [] => Val ([], [])
  | r :: rs =>
      '(r, ev) ← relay_media myFd ready r;
      '(rs, evs) ← relay_all myFd ready rs;
      Val (r :: rs, ev ++ evs)
  end.

(** The relay of an address that has one. *)
Fixpoint find_relay (from : StunAddress4) (relays : list StunMediaRelay) : list StunMediaRelay * Z :=
  match relays with
  | [] => ([], 0%Z)
  | r :: rs =>
      if ((a4_addr (relay_destination r) =? a4_addr from) && (a4_port (relay_destination r) =? a4_port from))%Z
      then (r <| relay_expireTime := w_time w + MEDIA_RELAY_TIMEOUT |>%Z :: rs, relayPort r)
      else let '(rs, p) := find_relay from rs in (r :: rs, p)
  end.

(** The first relay that is not in use, opened for an address. *)
Fixpoint open_relay (myAddr from : StunAddress4) (relays : list StunMediaRelay)
    : list StunMediaRelay * Z * list udp_event :=
  match relays with
  | [] => ([], 0%Z, [])
  | r :: rs =>
      if (relay_fd r =? 0)%Z then
        let fd := w_open w (relayPort r) (a4_addr myAddr) in
        (mkStunMediaRelay (relayPort r) fd from (w_time w + MEDIA_RELAY_TIMEOUT)%Z :: rs, relayPort r,
         [UdpOpened fd (relayPort r)])
      else let '(rs, p, ev) := open_relay myAddr from rs in (r :: rs, p, ev)
  end.

(** The socket the datagram is taken from, with [recvAltIp] and [recvAltPort]. *)
Definition choose_socket (info : StunServerInfo) (ready : Z -> bool) : option (Z * bool * bool) :=
  if ready (si_myFd info) then Some (si_myFd info, false, false)
  else if ready (si_altPortFd info) then Some (si_altPortFd info, false, true)
  else if (negb (si_altIpFd info =? INVALID_SOCKET) && ready (si_altIpFd info))%Z then Some (si_altIpFd info, true, false)
  else if (negb (si_altIpPortFd info =? INVALID_SOCKET) && ready (si_altIpPortFd info))%Z
  then Some (si_altIpPortFd info, true, true)
  else None.

Definition send_socket (info : StunServerInfo) (sendAltIp sendAltPort : bool) : Z :=
  if negb sendAltPort then if negb sendAltIp then si_myFd info else si_altIpFd info
  else if negb sendAltIp then si_altPortFd info else si_altIpPortFd info.

(** The answer to a datagram that has been received. *)
Definition answer_message (now rnd : Z) (info : StunServerInfo) (msg : str) (msgLen : nat)
    (recvAltIp recvAltPort : bool) (from secondary : StunAddress4) : cres (list udp_event) :=
  '(ok, ans) ← vovida_stun_ServerProcessMsg now rnd msg msgLen from secondary
    (if recvAltIp then si_altAddr info else si_myAddr info)
    (if recvAltIp then si_myAddr info else si_altAddr info)
    None (mkStunAtrString (w_stack w STUN_MAX_STRING) 0);
  if negb ok then Val []
  else
    '(buf, len) ← stunEncodeMessage (ans_resp ans) (w_stack w STUN_MAX_MESSAGE_SIZE) STUN_MAX_MESSAGE_SIZE
      (ans_hmacPassword ans);
    match ans_destination ans with
    | None => Fault
    | Some dest =>
        if ((a4_addr dest =? 0) || (a4_port dest =? 0))%Z then Val []
        else
          let sendAltIp := if ans_changeIp ans then negb recvAltIp else recvAltIp in
          let sendAltPort := if ans_changePort ans then negb recvAltPort else recvAltPort in
          let sendFd := send_socket info sendAltIp sendAltPort in
          if (sendFd =? INVALID_SOCKET)%Z then Val [] else udp_sendMessage sendFd buf len dest
    end.

(** [vovida_stun_ServerProcess]: it always returns [true]. *)
Definition vovida_stun_ServerProcess (now rnd : Z) (info : StunServerInfo)
    : cres (StunServerInfo * list udp_event) :=
  match w_select w with
  | None => Val (info, [])
  | Some ready =>
      '(rs, ev0) ← (if si_relay info then relay_all (si_myFd info) ready (si_relays info)
                    else Val (si_relays info, []));
      let info := info <| si_relays := rs |> in
      match choose_socket info ready with
      | None => Val (info, ev0)
      | Some (fd, recvAltIp, recvAltPort) =>
          '(ok, msg, msgLen, from) ← udp_getMessage w fd (w_stack w STUN_MAX_MESSAGE_SIZE);
          '(info, port, ev1) ← (if si_relay info then
              match from with
              | None => Fault
              | Some from =>
                  let '(rs, p) := find_relay from (si_relays info) in
                  if negb (p =? 0)%Z then Val (info <| si_relays := rs |>, p, [])
                  else
                    let '(rs, p, ev) := open_relay (si_myAddr info) from rs in
                    Val (info <| si_relays := rs |>, p, ev)
              end
            else Val (info, 0%Z, []));
          if negb ok then Val (info, ev0 ++ ev1)
          else
            match from with
            | None => Fault
            | Some from =>
                let relayed := si_relay info && negb (port =? 0)%Z in
                let secondary := if relayed then from else zero_address4 in
                let from := if relayed then mkStunAddress4 (port mod 2 ^ 16) (a4_addr (si_myAddr info)) else from in
                ev2 ← answer_message now rnd info msg (Z.to_nat msgLen) recvAltIp recvAltPort from secondary;
                Val (info, ev0 ++ ev1 ++ ev2)
            end
      end
  end.

End round.
