(* ===== verification/StunClient.v ===== *)
(** * The STUN client

    [stunBuildReqSimple] of src/stun/STUNProto.cpp and the class of
    src/stun/STUNClient.cpp: the test requests, the handler of what is read, and the
    two loops that send tests until enough is known.

    An [IPAddress] that the client makes of a received address is an IPv4
    address and a port; the default one has the address 0 and is not valid.
    The reads run between two sends; what arrives in a round is a list of datagrams
    that the environment gives.  Locks and semaphores only order these. *)

From S2P Require Import Prelude CMem StunMessage.
Open Scope nat_scope.

(** ** Requests *)

(** The four bytes of a random number, least significant first. *)
Definition id_bytes (r : Z) : str := [chr r; chr (Z.shiftr r 8); chr (Z.shiftr r 16); chr (Z.shiftr r 24)].

(** [rnd] are the results of [stunRand]. *)
Definition stunBuildReqSimple (rnd : Z * Z * Z * Z) (name : StunAtrString) (changePort changeIp : bool) (id : Z)
    : StunMessage :=
  let '(r0, r1, r2, r3) := rnd in
  let octets := id_bytes r0 ++ id_bytes r1 ++ id_bytes r2 ++ id_bytes r3 in
  let octets := if (id =? 0)%Z then octets else <[0 := chr id]> octets in
  let msg := zero_message <| msgHdr := mkStunMsgHdr BindRequestMsg 0 octets |> in
  let msg := msg <| hasChangeRequest := true |>
    <| changeRequest := Z.lor (if changeIp then ChangeIpFlag else 0) (if changePort then ChangePortFlag else 0) |> in
  if (0 <? sizeValue name)%Z then msg <| hasUsername := true |> <| username := name |> else msg.

(** The flags of a test: [changePort] and [changeIP]. *)
Definition test_flags (testNum : Z) : option (bool * bool) :=
  if ((testNum =? 1) || (testNum =? 10) || (testNum =? 11))%Z then Some (false, false)
  else if (testNum =? 2)%Z then Some (false, true)
  else if (testNum =? 3)%Z then Some (true, false)
  else if (testNum =? 4)%Z then Some (false, true)
  else if (testNum =? 5)%Z then Some (false, false)
  else None.

(** [sendTestRequest]: the datagram it sends.  [stack] is the array [buf], and
    [junk] the arrays of the empty name and password. *)
Definition sendTestRequest (rnd : Z * Z * Z * Z) (stack junk : str) (testNum : Z) : cres str :=
  match test_flags testNum with
  | None => Abort
  | Some (changePort, changeIP) =>
      let none := mkStunAtrString junk 0 in
      let req := stunBuildReqSimple rnd none changePort changeIP testNum in
      '(buf, len) ← stunEncodeMessage req stack STUN_MAX_MESSAGE_SIZE none;
      rdn buf 0 len
  end.

(** ** The client *)

Record STUNClient := mkSTUNClient {
  test1Responded : bool; test2Responded : bool; test3Responded : bool; test10Responded : bool;
  test1ChangedAddr : StunAddress4; test1MappedAddr : StunAddress4; test10MappedAddr : StunAddress4;
  sendCount : Z
}.
#[export] Instance eta_client : Settable STUNClient := fun r =>
  mkSTUNClient (test1Responded r) (test2Responded r) (test3Responded r) (test10Responded r)
    (test1ChangedAddr r) (test1MappedAddr r) (test10MappedAddr r) (sendCount r).

(** What [getNatType] and [createSingleSocket] start with. *)
Definition reset_client : STUNClient :=
  mkSTUNClient false false false false zero_address4 zero_address4 zero_address4 0.

Definition addr_valid (a : StunAddress4) : bool := negb (a4_addr a =? 0)%Z.

(** The [switch] on the first octet of the id of a response. *)
Definition on_response (resp : StunMessage) (c : STUNClient) : STUNClient :=
  let id := uchar (default (chr 0) (msgId (msgHdr resp) !! 0)) in
  if (id =? 1)%Z then
    let c := if test1Responded c then c
      else c <| test1ChangedAddr := ipv4 (changedAddress resp) |> <| test1MappedAddr := ipv4 (mappedAddress resp) |> in
    c <| sendCount := 0%Z |> <| test1Responded := true |>
  else if (id =? 2)%Z then c <| test2Responded := true |>
  else if (id =? 3)%Z then c <| test3Responded := true |>
  else if (id =? 10)%Z then
    let c := if test10Responded c then c else c <| test10MappedAddr := ipv4 (mappedAddress resp) |> in
    c <| test10Responded := true |>
  else c.

(** [handleReadNatType] without an error: [data] has been read to the start of the
    array [_buffer], whose other bytes are [rest]. *)
Definition handleReadNatType (data rest : str) (c : STUNClient) : cres STUNClient :=
  '(ok, resp) ← stunParseMessage (data ++ rest) (length data);
  Val (if (ok : bool) then on_response resp c else c).

(** The reads of a round. *)
Fixpoint handle_reads (reads : list (str * str)) (c : STUNClient) : cres STUNClient :=
  match reads with
  | [] => Val c
  | (data, rest) :: reads => c ← handleReadNatType data rest c; handle_reads reads c
  end.

(** ** The detection of the NAT *)

Definition STUN_PORT : Z := 3478.

Inductive NatType :=
| StunTypeUnknown
| StunTypeFailure
| StunTypeOpen
| StunTypeBlocked
| StunTypeIndependentFilter
| StunTypeDependentFilter
| StunTypePortDependedFilter
| StunTypeDependentMapping
| StunTypeFirewall.

#[export] Instance nat_type_eq_dec : EqDecision NatType.
Proof. solve_decision. Defined.
#[export] Instance address4_eq_dec : EqDecision StunAddress4.
Proof. solve_decision. Defined.

(** The tests a round sends, with their destinations. *)
Definition round_tests (target : StunAddress4) (c : STUNClient) : list (Z * StunAddress4) :=
  (if test1Responded c then [] else [(1%Z, target)]) ++
  (if test2Responded c then [] else [(2%Z, target)]) ++
  (if test3Responded c then [] else [(3%Z, target)]) ++
  (if negb (test10Responded c) && test1Responded c && addr_valid (test1ChangedAddr c)
   then [(10%Z, test1ChangedAddr c)] else []).

(** The [while] of [getNatType].  [net] gives what is read in a round, of the tests
    sent in the rounds up to then, the last one first; [sent] are these tests. *)
Abbreviation tests := (list (Z * StunAddress4)).
Fixpoint nat_loop (fuel : nat) (maxSendCount : Z) (target : StunAddress4) (net : list tests -> list (str * str))
    (sent : list tests) (c : STUNClient) : cres STUNClient :=
  match fuel with
  | O => Endless
  | S fuel =>
      if negb (sendCount c <? maxSendCount)%Z then Val c
      else
        let c := c <| sendCount := (sendCount c + 1)%Z |> in
        let sent := round_tests target c :: sent in
        c ← handle_reads (net sent) c;
        nat_loop fuel maxSendCount target net sent c
  end.

(** The decision; [isNat] when no socket can be bound to the mapped address. *)
Definition nat_decision (isNat : bool) (c : STUNClient) : NatType :=
  if negb (test1Responded c) then StunTypeBlocked
  else if isNat then
    if decide (test1MappedAddr c = test10MappedAddr c) then
      if test2Responded c then StunTypeIndependentFilter
      else if test3Responded c then StunTypeDependentFilter
      else StunTypePortDependedFilter
    else StunTypeDependentMapping
  else if test2Responded c then StunTypeOpen
  else StunTypeFirewall.

(** [getNatType], given the addresses, whether a port could be bound ([bound]), and
    for each mapped address whether it is another one than the local addresses
    ([behind]). *)
Definition getNatType (fuel : nat) (target : StunAddress4) (localValid bound : bool)
    (behind : StunAddress4 -> bool) (maxDetectionTimeInSeconds : Z) (net : list tests -> list (str * str)) : cres NatType :=
  if negb (addr_valid target) || negb localValid then Val StunTypeFailure
  else
    let target := if (a4_port target =? 0)%Z then mkStunAddress4 STUN_PORT (a4_addr target) else target in
    if negb bound then Val StunTypeFailure
    else
      c ← nat_loop fuel (u32 (maxDetectionTimeInSeconds * 1000) / 100) target net [] reset_client;
      Val (nat_decision (behind (test1MappedAddr c)) c).

(** ** The mapped address of a socket *)

Definition DEFAULT_STUN_READ_TIMEOUT : Z := 5.
Definition DEFAULT_STUN_SEND_INTERVAL : Z := 100.

(** The [while] of [createSingleSocket], one round per millisecond; the number of
    requests sent is counted. *)
Fixpoint single_loop (fuel : nat) (maxSendCount : Z) (reads : nat -> list (str * str)) (k : nat) (sleepCount : Z)
    (c : STUNClient) (sent : nat) : cres (STUNClient * nat) :=
  match fuel with
  | O => Endless
  | S fuel =>
      if negb (sendCount c <? maxSendCount)%Z then Val (c, sent)
      else if test1Responded c then Val (c, sent)
      else
        let '(c, sent) := if (sleepCount =? 0)%Z then (c <| sendCount := (sendCount c + 1)%Z |>, S sent) else (c, sent) in
        c ← handle_reads (reads k) c;
        let sleepCount := (sleepCount + 1)%Z in
        single_loop fuel maxSendCount reads (S k)
          (if (sleepCount =? DEFAULT_STUN_SEND_INTERVAL)%Z then 0%Z else sleepCount) c sent
  end.

(** [createSingleSocket], given the addresses and whether the socket is bound; the
    result is the external address when it returns [true], with the number of
    requests sent. *)
Definition createSingleSocket (fuel : nat) (readTimeout : Z) (target : StunAddress4) (localValid bound : bool)
    (reads : nat -> list (str * str)) : cres (option StunAddress4 * nat) :=
  let timeout := if (readTimeout =? 0)%Z then DEFAULT_STUN_READ_TIMEOUT else readTimeout in
  let maxSendCount := (u32 (timeout * 1000) / DEFAULT_STUN_SEND_INTERVAL)%Z in
  if negb (addr_valid target) || negb localValid then Val (None, 0)
  else if negb bound then Val (None, 0)
  else
    '(c, sent) ← single_loop fuel maxSendCount reads 0 0 reset_client 0;
    Val (if test1Responded c && addr_valid (test1MappedAddr c) then Some (test1MappedAddr c) else None, sent).
