(* ===== verification/StunExchange.v ===== *)
(** * A binding request and its answer

    What the client sends in a test, what the server makes of it and what the
    client reads of the answer, through the bytes on the wire. *)

From S2P Require Import Prelude CMem StunMessage StunFacts StunParseFacts StunServer StunClient.
Open Scope nat_scope.

(** An address with its members in range. *)
Definition valid4 (a : StunAddress4) : Prop := (0 <= a4_port a < 2 ^ 16)%Z /\ (0 <= a4_addr a < 2 ^ 32)%Z.

Lemma canon4_valid p f a : valid4 a -> ipv4 (canon4 (mkStunAtrAddress4 p f a)) = a.
Proof. destruct a. intros [H1 H2]. unfold canon4. cbn in *. by rewrite !Z.mod_small. Qed.

(** A message encoded to an array on the stack and taken from it. *)
Lemma encode_sent m stack pwd :
  wf_stun m -> length stack = STUN_MAX_MESSAGE_SIZE ->
  exists buf, stunEncodeMessage m stack STUN_MAX_MESSAGE_SIZE pwd = Val (buf, length (message_bytes m pwd)) /\
    rdn buf 0 (length (message_bytes m pwd)) = Val (message_bytes m pwd).
Proof.
  intros Hm Hs. pose proof (message_size m pwd Hm) as Hl.
  assert (1190 <= length stack) by (rewrite Hs; unfold STUN_MAX_MESSAGE_SIZE; lia).
  eexists. split.
  - apply encode_message; [done|unfold sizeof_StunMsgHdr, STUN_MAX_MESSAGE_SIZE; lia|lia].
  - apply rdn_at, stands_splice. lia.
Qed.

(** ** The request *)

Definition no_string : StunAtrString := mkStunAtrString [] 0.
Definition test_request (rnd : Z * Z * Z * Z) (changePort changeIp : bool) (testNum : Z) : StunMessage :=
  stunBuildReqSimple rnd no_string changePort changeIp testNum.

Lemma build_no_name rnd junk cp ci t : stunBuildReqSimple rnd (mkStunAtrString junk 0) cp ci t = test_request rnd cp ci t.
Proof. by destruct rnd as [[[r0 r1] r2] r3]. Qed.

Lemma test_request_wf rnd cp ci t : wf_stun (test_request rnd cp ci t).
Proof.
  destruct rnd as [[[r0 r1] r2] r3]. constructor; try discriminate. cbn. destruct (t =? 0)%Z; reflexivity.
Qed.

Lemma test_request_plain rnd cp ci t : plain (test_request rnd cp ci t).
Proof. by destruct rnd as [[[r0 r1] r2] r3]. Qed.

Lemma test_request_id rnd cp ci t :
  (0 < t < 256)%Z -> octet (test_request rnd cp ci t) 0 = t.
Proof.
  intros Ht. destruct rnd as [[[r0 r1] r2] r3]. unfold octet. cbn.
  destruct (Z.eqb_spec t 0); [lia|]. cbn. rewrite uchar_chr. apply Z.mod_small. lia.
Qed.

Lemma no_password junk m : message_bytes m (mkStunAtrString junk 0) = message_bytes m no_string.
Proof. done. Qed.

Lemma send_test rnd stack junk t cp ci :
  test_flags t = Some (cp, ci) -> length stack = STUN_MAX_MESSAGE_SIZE ->
  sendTestRequest rnd stack junk t = Val (message_bytes (test_request rnd cp ci t) no_string).
Proof.
  intros Ht Hs. unfold sendTestRequest. rewrite Ht. cbn zeta. rewrite build_no_name.
  destruct (encode_sent (test_request rnd cp ci t) stack (mkStunAtrString junk 0)) as (buf & -> & Hr);
    [apply test_request_wf|done|]. rewrite val_bind. by rewrite no_password in *.
Qed.

(** ** The answer *)

Definition server_name : str := asciiz #"Vovida.org 0.96".

(** The answer of the server to the test with the id [id], received from [from]. *)
Definition bind_reply (id : str) (from myAddr altAddr : StunAddress4) (changePort changeIp : bool) : StunMessage :=
  let req := zero_message <| msgHdr := mkStunMsgHdr BindRequestMsg 0 id |> in
  bind_addresses req from zero_address4 myAddr altAddr changePort changeIp zero_message
    <| hasServerName := true |>
    <| serverName := mkStunAtrString (splice (zeros STUN_MAX_STRING) 0 server_name) (Z.of_nat (length server_name)) |>.

Lemma bind_reply_wf id from my alt cp ci : length id = 16 -> wf_stun (bind_reply id from my alt cp ci).
Proof. intros H. constructor; try discriminate; [done|]. intros _. split_and!; vm_compute; [reflexivity|discriminate..|reflexivity]. Qed.

Lemma bind_reply_plain id from my alt cp ci : plain (bind_reply id from my alt cp ci).
Proof. done. Qed.

Lemma flags_read (cp ci : bool) :
  let flags := (Z.lor (if ci then ChangeIpFlag else 0) (if cp then ChangePortFlag else 0) mod 2 ^ 32)%Z in
  negb (Z.land flags ChangeIpFlag =? 0)%Z = ci /\ negb (Z.land flags ChangePortFlag =? 0)%Z = cp.
Proof. by destruct cp, ci. Qed.

(** A request with nothing but its id and its flags. *)
Lemma bind_plain req from my alt pwd :
  hasMessageIntegrity req = false -> hasUsername req = false -> xorOnly req = false ->
  mappedAddress req = zero_atr4 -> responseAddress req = zero_atr4 ->
  bind_request server_name req from zero_address4 my alt (fresh_answer None pwd) =
    let cp := negb (Z.land (changeRequest req) ChangePortFlag =? 0)%Z in
    let ci := negb (Z.land (changeRequest req) ChangeIpFlag =? 0)%Z in
    Val (true, mkStunAnswer (bind_reply (msgId (msgHdr req)) from my alt cp ci) (Some from) pwd cp ci).
Proof.
  intros Hi Hu Hx Hm Hr. unfold bind_request. cbn zeta. rewrite Hi. cbn [negb].
  unfold bind_response. rewrite Hm, Hr, Hi, Hu. cbn zeta.
  cbn [zero_atr4 ipv4 zero_address4 a4_port]. change (0 =? 0)%Z with true. cbn iota.
  unfold copy_username, add_reflected. rewrite Hu. cbn [andb]. rewrite val_bind.
  unfold bind_reply, bind_addresses, octet. rewrite Hx. reflexivity.
Qed.

Lemma server_answers now rnd rq cp ci t msg from my alt pwd :
  stands msg 0 (message_bytes (test_request rq cp ci t) no_string) ->
  vovida_stun_ServerProcessMsg now rnd msg (length (message_bytes (test_request rq cp ci t) no_string))
      from zero_address4 my alt None pwd =
    Val (true, mkStunAnswer (bind_reply (msgId (msgHdr (test_request rq cp ci t))) from my alt cp ci)
      (Some from) pwd cp ci).
Proof.
  intros Hm. unfold vovida_stun_ServerProcessMsg. cbn zeta.
  rewrite (parse_message _ _ _ _ (test_request_wf rq cp ci t) (test_request_plain rq cp ci t) Hm eq_refl).
  rewrite val_bind. destruct (flags_read cp ci) as [Hi Hp]. cbn [negb].
  destruct rq as [[[r0 r1] r2] r3].
  change (asciiz #"Vovida.org 0.96") with server_name. rewrite bind_plain by reflexivity.
  cbn zeta. change (changeRequest (read_back _ _)) with
    (Z.lor (if ci then ChangeIpFlag else 0) (if cp then ChangePortFlag else 0) mod 2 ^ 32)%Z.
  rewrite Hi, Hp. reflexivity.
Qed.

(** ** What the client reads *)

(** The answer as the client parses it. *)
Lemma reply_read id from my alt cp ci rest :
  length id = 16 ->
  let m := bind_reply id from my alt cp ci in
  stunParseMessage (message_bytes m no_string ++ rest) (length (message_bytes m no_string)) =
    Val (true, read_back m no_string).
Proof.
  intros Hid m. apply parse_message; [by apply bind_reply_wf|done| |done].
  split; [lia|]. exists rest. by rewrite drop_0.
Qed.

Lemma reply_mapped id from my alt cp ci :
  valid4 from -> ipv4 (mappedAddress (read_back (bind_reply id from my alt cp ci) no_string)) = from.
Proof. apply canon4_valid. Qed.
Lemma reply_changed id from my alt cp ci :
  valid4 alt -> ipv4 (changedAddress (read_back (bind_reply id from my alt cp ci) no_string)) = alt.
Proof. apply canon4_valid. Qed.

(** ** One round of the server for a test *)

Lemma test_request_length rq cp ci t : length (message_bytes (test_request rq cp ci t) no_string) = 28.
Proof. rewrite length_message by apply test_request_wf. by destruct rq as [[[r0 r1] r2] r3]. Qed.

(** The server answers a test on the socket the flags ask for. *)
Lemma server_sends w now rnd info rq cp ci t msg rip rport from :
  length (w_stack w STUN_MAX_MESSAGE_SIZE) = STUN_MAX_MESSAGE_SIZE ->
  stands msg 0 (message_bytes (test_request rq cp ci t) no_string) ->
  a4_addr from <> 0%Z -> a4_port from <> 0%Z ->
  let fd := send_socket info (if ci then negb rip else rip) (if cp then negb rport else rport) in
  let my := if rip then si_altAddr info else si_myAddr info in
  let alt := if rip then si_myAddr info else si_altAddr info in
  fd <> INVALID_SOCKET ->
  answer_message w now rnd info msg 28 rip rport from zero_address4 =
    Val [UdpSent fd (message_bytes (bind_reply (msgId (msgHdr (test_request rq cp ci t))) from my alt cp ci) no_string) from].
Proof.
  intros Hw Hm Ha Hp fd my alt Hfd. unfold answer_message.
  pose proof (server_answers now rnd rq cp ci t msg from my alt (mkStunAtrString (w_stack w STUN_MAX_STRING) 0) Hm) as E.
  rewrite test_request_length in E. subst my alt. rewrite E, val_bind. clear E. cbn [negb].
  cbn [ans_resp ans_hmacPassword ans_destination ans_changeIp ans_changePort].
  set (resp := bind_reply _ _ _ _ _ _).
  assert (Hresp : wf_stun resp) by (apply bind_reply_wf, wf_id, test_request_wf).
  destruct (encode_sent resp (w_stack w STUN_MAX_MESSAGE_SIZE) (mkStunAtrString (w_stack w STUN_MAX_STRING) 0) Hresp Hw)
    as (buf & -> & Hr). rewrite val_bind. rewrite no_password in *.
  rewrite (proj2 (Z.eqb_neq _ _) Ha), (proj2 (Z.eqb_neq _ _) Hp). cbn [orb]. cbn zeta. fold fd.
  rewrite (proj2 (Z.eqb_neq _ _) Hfd). unfold udp_sendMessage.
  rewrite (proj2 (Z.eqb_neq _ _) Hfd), Hr, val_bind, (proj2 (Z.eqb_neq _ _) Ha), (proj2 (Z.eqb_neq _ _) Hp). done.
Qed.

(** A datagram that fits is received whole. *)
Lemma receive_whole w fd buf data from :
  fd <> INVALID_SOCKET -> w_recv w fd = Some (data, from) -> 0 < length data -> length data + 1 < length buf ->
  exists buf', udp_getMessage w fd buf = Val (true, buf', Z.of_nat (length data), Some from) /\
    stands buf' 0 data /\ length buf' = length buf.
Proof.
  intros Hfd Hr Hd Hb. unfold udp_getMessage. rewrite (proj2 (Z.eqb_neq _ _) Hfd). cbn zeta.
  rewrite (proj2 (Nat.eqb_neq _ _)) by lia. rewrite Hr, take_ge by lia.
  rewrite wrn_in by lia. rewrite val_bind, (proj2 (Nat.eqb_neq _ _)), (proj2 (Nat.leb_gt _ _)) by lia.
  rewrite wr_in by (rewrite length_splice; lia). rewrite val_bind. eexists. split; [done|].
  rewrite splice_app by lia. split.
  - destruct (stands_splice buf 0 (data ++ [chr 0])) as [H1 [u Hu]]; [rewrite length_app; cbn; lia|].
    split; [done|]. exists ([chr 0] ++ u). by rewrite Hu, app_assoc.
  - rewrite length_splice; [done|]. rewrite length_app. cbn. lia.
Qed.

Lemma server_round w now rnd info rq cp ci t ready fd rip rport from :
  si_relay info = false -> w_select w = Some ready -> choose_socket info ready = Some (fd, rip, rport) ->
  fd <> INVALID_SOCKET -> w_recv w fd = Some (message_bytes (test_request rq cp ci t) no_string, from) ->
  length (w_stack w STUN_MAX_MESSAGE_SIZE) = STUN_MAX_MESSAGE_SIZE ->
  a4_addr from <> 0%Z -> a4_port from <> 0%Z ->
  let sfd := send_socket info (if ci then negb rip else rip) (if cp then negb rport else rport) in
  let my := if rip then si_altAddr info else si_myAddr info in
  let alt := if rip then si_myAddr info else si_altAddr info in
  sfd <> INVALID_SOCKET ->
  vovida_stun_ServerProcess w now rnd info =
    Val (info, [UdpSent sfd (message_bytes (bind_reply (msgId (msgHdr (test_request rq cp ci t))) from my alt cp ci) no_string) from]).
Proof.
  intros Hrel Hsel Hch Hfd Hrecv Hw Ha Hp sfd my alt Hs. unfold vovida_stun_ServerProcess.
  rewrite Hsel, Hrel, val_bind. cbn zeta.
  replace (info <| si_relays := si_relays info |>) with info by (by destruct info).
  rewrite Hch. destruct (receive_whole w fd (w_stack w STUN_MAX_MESSAGE_SIZE) _ _ Hfd Hrecv) as (buf & -> & Hb & _);
    [rewrite test_request_length; lia|rewrite test_request_length, Hw; unfold STUN_MAX_MESSAGE_SIZE; lia|].
  rewrite val_bind, Hrel, val_bind. cbn [negb andb]. cbv zeta iota.
  rewrite Nat2Z.id, test_request_length, Hrel. cbn [andb]. rewrite (server_sends _ _ _ _ rq cp ci t) by done. done.
Qed.
