(* ===== verification/StunNat.v ===== *)
(** * The client behind a NAT

    A network made of the client of src/stun/STUNClient.cpp, a NAT and the server
    of VovidaSTUN.inl with its four sockets.  The NAT maps the client's socket to
    an external address for each destination, and lets a datagram in depending on
    where the client has sent to before.  What the client reads in a round are the
    answers of the server to the tests of the round that the NAT lets through;
    no datagram is lost. *)

From S2P Require Import Prelude CMem StunMessage StunFacts StunParseFacts StunServer StunClient StunExchange.
Open Scope nat_scope.

Inductive filtering :=
| EndpointIndependent
| AddressDependent
| AddressAndPortDependent.

(** Whether a datagram from [src] gets in. *)
Definition passes (f : filtering) (contacted : list StunAddress4) (src : StunAddress4) : bool :=
  match f with
  | EndpointIndependent => true
  | AddressDependent => existsb (fun d => (a4_addr d =? a4_addr src)%Z) contacted
  | AddressAndPortDependent => existsb (fun d => bool_decide (d = src)) contacted
  end.

Section network.
Variables (w : UdpWorld) (now rnd : Z) (rq : Z -> Z * Z * Z * Z) (info : StunServerInfo).
Variables (ext : StunAddress4 -> StunAddress4) (f : filtering) (stack junk : str).

(** The server of the network: two addresses, two ports, four sockets. *)
Record server_ok : Prop := {
  ok_stack : length (w_stack w STUN_MAX_MESSAGE_SIZE) = STUN_MAX_MESSAGE_SIZE;
  ok_addr : a4_addr (si_myAddr info) <> a4_addr (si_altAddr info);
  ok_port : a4_port (si_myAddr info) <> a4_port (si_altAddr info);
  ok_my : valid4 (si_myAddr info) /\ a4_addr (si_myAddr info) <> 0%Z /\ a4_port (si_myAddr info) <> 0%Z;
  ok_alt : valid4 (si_altAddr info) /\ a4_addr (si_altAddr info) <> 0%Z;
  ok_fds : NoDup [si_myFd info; si_altPortFd info; si_altIpFd info; si_altIpPortFd info; INVALID_SOCKET]
}.

(** The NAT gives out addresses. *)
Definition ext_ok : Prop := forall d, valid4 (ext d) /\ a4_addr (ext d) <> 0%Z /\ a4_port (ext d) <> 0%Z.

Definition alt_ip : StunAddress4 := mkStunAddress4 (a4_port (si_myAddr info)) (a4_addr (si_altAddr info)).
Definition alt_port : StunAddress4 := mkStunAddress4 (a4_port (si_altAddr info)) (a4_addr (si_myAddr info)).

(** The address of a socket of the server, and the socket of an address. *)
Definition fd_address (fd : Z) : StunAddress4 :=
  if (fd =? si_myFd info)%Z then si_myAddr info
  else if (fd =? si_altPortFd info)%Z then alt_port
  else if (fd =? si_altIpFd info)%Z then alt_ip
  else si_altAddr info.
Definition received_on (d : StunAddress4) : option (bool * bool) :=
  if decide (d = si_myAddr info) then Some (false, false)
  else if decide (d = alt_port) then Some (false, true)
  else if decide (d = alt_ip) then Some (true, false)
  else if decide (d = si_altAddr info) then Some (true, true)
  else None.

(** The answer to a test, with the address it comes from. *)
Definition reply (test : Z * StunAddress4) : option (StunAddress4 * str) :=
  let '(t, d) := test in
  match received_on d, sendTestRequest (rq t) stack junk t with
  | Some (rip, rport), Val q =>
      match answer_message w now rnd info (q ++ stack) (length q) rip rport (ext d) zero_address4 with
      | Val [UdpSent fd data _] => Some (fd_address fd, data)
      | _ => None
      end
  | _, _ => None
  end.

Definition network (sent : list tests) : list (str * str) :=
  match sent with
  | [] => []
  | round :: _ =>
      concat (map (fun test =>
        match reply test with
        | Some (src, data) => if passes f (map snd (concat sent)) src then [(data, junk)] else []
        | None => []
        end) round)
  end.

(** ** Answers to the tests *)

Context (Hserver : server_ok) (Hext : ext_ok) (Hstack : length stack = STUN_MAX_MESSAGE_SIZE).

Definition reply_bytes (t : Z) (from my alt : StunAddress4) (cp ci : bool) : str :=
  message_bytes (bind_reply (msgId (msgHdr (test_request (rq t) cp ci t))) from my alt cp ci) no_string.

Lemma reply_to t d cp ci rip rport :
  test_flags t = Some (cp, ci) -> received_on d = Some (rip, rport) ->
  let fd := send_socket info (if ci then negb rip else rip) (if cp then negb rport else rport) in
  reply (t, d) = Some (fd_address fd,
    reply_bytes t (ext d) (if rip then si_altAddr info else si_myAddr info)
      (if rip then si_myAddr info else si_altAddr info) cp ci).
Proof.
  intros Ht Hd fd. unfold reply. rewrite Hd, (send_test _ _ _ _ _ _ Ht Hstack).
  rewrite test_request_length. destruct (Hext d) as (_ & Ha & Hp).
  rewrite (server_sends _ _ _ _ (rq t) cp ci t); [done|apply Hserver| |done|done|].
  - split; [lia|]. exists stack. by rewrite drop_0.
  - pose proof (ok_fds Hserver) as Hn. unfold send_socket.
    repeat (apply NoDup_cons in Hn as [? Hn]).
    destruct (if cp then negb rport else rport), (if ci then negb rip else rip); simpl; set_solver.
Qed.

(** The state of the client after an answer. *)
Definition answered (t : Z) (mapped changed : StunAddress4) (c : STUNClient) : STUNClient :=
  if (t =? 1)%Z then
    (if test1Responded c then c else c <| test1ChangedAddr := changed |> <| test1MappedAddr := mapped |>)
      <| sendCount := 0%Z |> <| test1Responded := true |>
  else if (t =? 2)%Z then c <| test2Responded := true |>
  else if (t =? 3)%Z then c <| test3Responded := true |>
  else if (t =? 10)%Z then
    (if test10Responded c then c else c <| test10MappedAddr := mapped |>) <| test10Responded := true |>
  else c.

Lemma handle_reply t from my alt cp ci rest c :
  (0 < t < 256)%Z -> valid4 from -> valid4 alt ->
  handleReadNatType (reply_bytes t from my alt cp ci) rest c = Val (answered t from alt c).
Proof.
  intros Ht Hf Ha. unfold handleReadNatType, reply_bytes.
  rewrite reply_read by (apply wf_id, test_request_wf). rewrite val_bind. f_equal.
  unfold on_response, answered. rewrite (reply_mapped _ _ _ _ _ _ Hf), (reply_changed _ _ _ _ _ _ Ha).
  replace (uchar (default (chr 0) (msgId (msgHdr (read_back (bind_reply _ from my alt cp ci) no_string)) !! 0))) with t; [done|].
  symmetry. exact (test_request_id (rq t) cp ci t Ht).
Qed.

Abbreviation my := (si_myAddr info).
Abbreviation alt := (si_altAddr info).

Lemma fds_distinct :
  fd_address (si_myFd info) = my /\ fd_address (si_altPortFd info) = alt_port /\
  fd_address (si_altIpFd info) = alt_ip /\ fd_address (si_altIpPortFd info) = alt.
Proof.
  pose proof (ok_fds Hserver) as Hn. repeat (apply NoDup_cons in Hn as [? Hn]). unfold fd_address.
  split_and!; repeat match goal with |- context [(?a =? ?b)%Z] => destruct (Z.eqb_spec a b) end; try done; set_solver.
Qed.

Lemma received_my : received_on my = Some (false, false).
Proof. unfold received_on. by rewrite decide_True. Qed.

Lemma received_alt : received_on alt = Some (true, true).
Proof.
  pose proof (ok_addr Hserver). pose proof (ok_port Hserver). unfold received_on.
  do 3 (rewrite decide_False by (intros E; pose proof (f_equal a4_addr E); pose proof (f_equal a4_port E); cbn in *; congruence)).
  by rewrite decide_True.
Qed.

Lemma reply1 : reply (1%Z, my) = Some (my, reply_bytes 1 (ext my) my alt false false).
Proof. rewrite (reply_to 1 _ false false _ _ eq_refl received_my). cbn. by rewrite (proj1 fds_distinct). Qed.
Lemma reply2 : reply (2%Z, my) = Some (alt_ip, reply_bytes 2 (ext my) my alt false true).
Proof. rewrite (reply_to 2 _ false true _ _ eq_refl received_my). cbn. by destruct fds_distinct as (_ & _ & -> & _). Qed.
Lemma reply3 : reply (3%Z, my) = Some (alt_port, reply_bytes 3 (ext my) my alt true false).
Proof. rewrite (reply_to 3 _ true false _ _ eq_refl received_my). cbn. by destruct fds_distinct as (_ & -> & _). Qed.
Lemma reply10 : reply (10%Z, alt) = Some (alt, reply_bytes 10 (ext alt) alt my false false).
Proof. rewrite (reply_to 10 _ false false _ _ eq_refl received_alt). cbn. by destruct fds_distinct as (_ & _ & _ & ->). Qed.

(** ** Rounds *)

(** What the client makes of the answer to one test. *)
Definition got (contacted : list StunAddress4) (test : Z * StunAddress4) (c : STUNClient) : STUNClient :=
  if (test.1 =? 1)%Z then if passes f contacted my then answered 1 (ext my) alt c else c
  else if (test.1 =? 2)%Z then if passes f contacted alt_ip then answered 2 (ext my) alt c else c
  else if (test.1 =? 3)%Z then if passes f contacted alt_port then answered 3 (ext my) alt c else c
  else if passes f contacted alt then answered 10 (ext alt) my c else c.

Definition known (test : Z * StunAddress4) : Prop :=
  test = (1%Z, my) \/ test = (2%Z, my) \/ test = (3%Z, my) \/ test = (10%Z, alt).

Ltac all_known := repeat apply Forall_cons_2; [unfold known; auto..|by apply Forall_nil].

Ltac each_dest := repeat (apply Forall_cons_2; [by auto|]); assumption || apply Forall_nil_2.

Lemma handle_reads_app a b c : handle_reads (a ++ b) c = c ← handle_reads a c; handle_reads b c.
Proof.
  revert c. induction a as [|[x y] a IH]; intros c; [done|]. cbn [handle_reads app].
  destruct (handleReadNatType x y c); [|done..]. rewrite !val_bind. apply IH.
Qed.

Lemma test_got ct test c :
  known test ->
  handle_reads (match reply test with
    | Some (src, data) => if passes f ct src then [(data, junk)] else []
    | None => []
    end) c = Val (got ct test c).
Proof.
  destruct (Hext my) as [Hm _], (Hext alt) as [Ha _], (ok_alt Hserver) as [Hva _], (ok_my Hserver) as [Hvm _].
  intros [->|[->|[->| ->]]]; unfold got; cbn [fst].
  - rewrite reply1. destruct (passes f ct my); [|done]. cbn [handle_reads]. by rewrite handle_reply by (done || lia).
  - rewrite reply2. destruct (passes f ct alt_ip); [|done]. cbn [handle_reads]. by rewrite handle_reply by (done || lia).
  - rewrite reply3. destruct (passes f ct alt_port); [|done]. cbn [handle_reads]. by rewrite handle_reply by (done || lia).
  - rewrite reply10. destruct (passes f ct alt); [|done]. cbn [handle_reads]. by rewrite handle_reply by (done || lia).
Qed.

Lemma round_got sent round c :
  Forall known round ->
  handle_reads (network (round :: sent)) c =
    Val (fold_left (fun c test => got (map snd (concat (round :: sent))) test c) round c).
Proof.
  unfold network. set (ct := map snd (concat (round :: sent))). clearbody ct. intros Hk. revert c.
  induction Hk as [|t round Ht Hk IH]; intros c; [done|]. cbn [map concat fold_left].
  rewrite handle_reads_app, test_got, val_bind by done. apply IH.
Qed.

(** Rounds in which nothing is learned run until the count is reached. *)
Lemma quiet_rounds (P : list tests -> Prop) maxSendCount c :
  (forall sent n, P sent ->
    let c' := c <| sendCount := n |> in
    let sent' := round_tests my c :: sent in handle_reads (network sent') c' = Val c' /\ P sent') ->
  forall fuel sent n, P sent -> (n <= maxSendCount)%Z -> (maxSendCount - n < Z.of_nat fuel)%Z ->
  nat_loop fuel maxSendCount my network sent (c <| sendCount := n |>) = Val (c <| sendCount := maxSendCount |>).
Proof.
  intros Hq fuel. induction fuel as [|fuel IH]; intros sent n Hp Hn Hf; [lia|]. cbn [nat_loop].
  change (sendCount (c <| sendCount := n |>)) with n.
  destruct (Z.ltb_spec n maxSendCount); cbn [negb].
  - cbn zeta. destruct (Hq sent (n + 1)%Z Hp) as [E Hp']. cbn zeta in E.
    change ((c <| sendCount := n |>) <| sendCount := (n + 1)%Z |>) with (c <| sendCount := (n + 1)%Z |>).
    change (round_tests my (c <| sendCount := (n + 1)%Z |>)) with (round_tests my c).
    rewrite E, val_bind. apply IH; [done|lia|lia].
  - by replace n with maxSendCount by lia.
Qed.

(** ** What the client learns *)

Lemma alt_ip_fresh : alt_ip <> my /\ alt_ip <> alt /\ alt_port <> my /\ alt_port <> alt.
Proof.
  pose proof (ok_addr Hserver). pose proof (ok_port Hserver).
  split_and!; intros E; pose proof (f_equal a4_addr E); pose proof (f_equal a4_port E); cbn in *; congruence.
Qed.

Lemma passes_member ct d : In d ct -> passes f ct d = true.
Proof.
  intros H. destruct f; [done|..]; apply existsb_exists; exists d; split; [done| |done|by apply bool_decide_eq_true_2].
  apply Z.eqb_refl.
Qed.

(** The strictest filter only lets answers from contacted sockets in. *)
Lemma strict_blocks ct d :
  f = AddressAndPortDependent -> Forall (fun x => x = my \/ x = alt) ct -> d <> my -> d <> alt ->
  passes f ct d = false.
Proof.
  intros -> Hc Hm Ha. apply not_true_iff_false. intros (x & Hx & E)%existsb_exists.
  apply bool_decide_eq_true_1 in E as ->. rewrite Forall_forall in Hc.
  destruct (Hc d) as [->| ->]; [by apply list_elem_of_In|done..].
Qed.

(** Which of the second and third tests is answered in the end. *)
Definition lenient : bool := match f with AddressAndPortDependent => false | _ => true end.
Definition independent : bool := match f with EndpointIndependent => true | _ => false end.
Definition learned : STUNClient := mkSTUNClient true lenient lenient true alt (ext my) (ext alt) 0.

(** After the first round: the third test also passes a filter by address. *)
Lemma first_round :
  handle_reads (network [round_tests my reset_client]) (reset_client <| sendCount := 1%Z |>) =
    Val (mkSTUNClient true (independent) lenient false alt (ext my) zero_address4 0).
Proof.
  destruct alt_ip_fresh as (Him & Hia & Hpm & Hpa). pose proof (ok_addr Hserver) as Hd.
  change (round_tests my reset_client) with [(1%Z, my); (2%Z, my); (3%Z, my)].
  rewrite round_got by all_known. f_equal.
  cbn [concat app map snd]. set (ct := [my; my; my]).
  assert (E2 : passes f ct alt_ip = independent).
  { unfold passes, ct, independent. destruct f; cbn [existsb]; [done|..].
    - cbn. by rewrite (proj2 (Z.eqb_neq _ _) Hd).
    - by rewrite bool_decide_eq_false_2 by congruence. }
  assert (E3 : passes f ct alt_port = lenient).
  { unfold passes, ct, lenient. destruct f; cbn [existsb]; [done|..].
    - cbn. by rewrite Z.eqb_refl.
    - by rewrite bool_decide_eq_false_2 by congruence. }
  cbn [fold_left]. unfold got. cbn [fst Z.eqb Pos.eqb]. rewrite (passes_member ct my) by apply in_eq. rewrite E2, E3.
  by destruct independent, lenient.
Qed.

(** After the second round: the tenth test has been sent to the other address, so
    that a filter by address now lets the answer to the second one in. *)
Lemma second_round :
  let c := mkSTUNClient true (independent) lenient false alt (ext my) zero_address4 1 in
  handle_reads (network [round_tests my c; round_tests my reset_client]) c = Val (learned <| sendCount := 1%Z |>).
Proof.
  destruct alt_ip_fresh as (Him & Hia & Hpm & Hpa). intros c.
  assert (Hv : addr_valid alt = true) by (apply negb_true_iff, Z.eqb_neq, Hserver).
  assert (Hr : round_tests my c = (if independent then [] else [(2%Z, my)]) ++
      (if lenient then [] else [(3%Z, my)]) ++ [(10%Z, alt)])
    by (unfold round_tests; cbn -[addr_valid]; rewrite Hv; done).
  rewrite Hr. change (round_tests my reset_client) with [(1%Z, my); (2%Z, my); (3%Z, my)].
  rewrite round_got.
  2:{ unfold lenient, independent. destruct f; cbn; all_known. }
  f_equal. subst c. clear Hr. unfold learned, lenient, independent, got. destruct f eqn:Ef.
  - done.
  - cbn. rewrite !Z.eqb_refl. by rewrite !orb_true_r.
  - cbn -[passes]. set (ct := [my; my; alt; my; my; my]).
    assert (Hc : Forall (fun x => x = my \/ x = alt) ct) by each_dest.
    rewrite <- Ef, (strict_blocks ct alt_ip), (strict_blocks ct alt_port) by done. by rewrite (passes_member ct alt) by (do 2 apply in_cons; apply in_eq).
Qed.

(** The later rounds. *)
Lemma later_rounds sent n :
  Forall (fun x => x = my \/ x = alt) (map snd (concat sent)) ->
  let c := learned <| sendCount := n |> in
  let sent' := round_tests my learned :: sent in
  handle_reads (network sent') c = Val c /\ Forall (fun x => x = my \/ x = alt) (map snd (concat sent')).
Proof.
  destruct alt_ip_fresh as (Him & Hia & Hpm & Hpa). intros Hs c sent'.
  assert (Hr : round_tests my learned = if lenient then [] else [(2%Z, my); (3%Z, my)])
    by (unfold round_tests; cbn; by destruct lenient).
  assert (Hc : Forall (fun x => x = my \/ x = alt) (map snd (concat sent'))).
  { subst sent'. rewrite Hr. destruct lenient; cbn; each_dest. }
  split; [|done]. subst sent'. rewrite round_got.
  2:{ rewrite Hr. destruct lenient; all_known. }
  f_equal. revert Hc. rewrite Hr. unfold lenient. destruct f eqn:Ef; [done..|].
  intros Hc. set (ct := map snd (concat (_ :: sent))) in *. clearbody ct. cbn [fold_left]. unfold got. cbn [fst Z.eqb Pos.eqb].
  by rewrite (strict_blocks ct alt_ip), (strict_blocks ct alt_port) by done.
Qed.

Lemma nat_loop_learns fuel maxSendCount :
  (1 <= maxSendCount)%Z -> (maxSendCount + 1 < Z.of_nat fuel)%Z ->
  nat_loop fuel maxSendCount my network [] reset_client = Val (learned <| sendCount := maxSendCount |>).
Proof.
  intros Hm Hf. destruct fuel as [|[|fuel]]; [lia..|]. cbn [nat_loop].
  change (sendCount reset_client) with 0%Z. rewrite (proj2 (Z.ltb_lt _ _)) by lia. cbn [negb]. cbn zeta.
  change (reset_client <| sendCount := (0 + 1)%Z |>) with (reset_client <| sendCount := 1%Z |>).
  change (round_tests my (reset_client <| sendCount := 1%Z |>)) with (round_tests my reset_client).
  rewrite first_round, val_bind. cbn [sendCount]. rewrite (proj2 (Z.ltb_lt _ _)) by lia. cbn [negb]. cbn zeta.
  set (c := mkSTUNClient _ _ _ _ _ _ _ _).
  change (c <| sendCount := (0 + 1)%Z |>) with
    (mkSTUNClient true (independent) lenient false alt (ext my) zero_address4 1).
  rewrite second_round, val_bind.
  apply (quiet_rounds (fun sent => Forall (fun x => x = my \/ x = alt) (map snd (concat sent)))).
  - intros sent n. apply later_rounds.
  - assert (Hv : addr_valid alt = true) by (apply negb_true_iff, Z.eqb_neq, Hserver).
    unfold round_tests. cbn -[addr_valid]. rewrite Hv.
    destruct independent, lenient; cbn; each_dest.
  - lia.
  - lia.
Qed.

End network.
