(* ===== verification/StunTheorems.v ===== *)
(** * The theorems about STUN

    The properties of the message format, of the server and of the client, each with
    an instance on concrete values. *)

From S2P Require Import Prelude CMem StunMessage StunFacts StunParseFacts StunServer StunClient StunExchange StunNat.
Open Scope nat_scope.

(** ** A server and a client to instantiate the theorems at *)

Definition ex_my : StunAddress4 := mkStunAddress4 3478 0xC0000201.
Definition ex_alt : StunAddress4 := mkStunAddress4 3479 0xC0000202.
Definition ex_client : StunAddress4 := mkStunAddress4 40000 0xCB007105.
Definition ex_info : StunServerInfo := mkStunServerInfo ex_my ex_alt 3 4 5 6 false [].
Definition ex_id : str := repeat (chr 7) 16.
(** The first socket of the server is ready, and [data] is what it receives. *)
Definition ex_world (data : str) : UdpWorld :=
  mkUdpWorld (Some (fun fd => (fd =? 3)%Z)) (fun _ => Some (data, ex_client)) (fun _ _ => 7%Z) 0 zeros.

Lemma ex_server_ok data : server_ok (ex_world data) ex_info.
Proof.
  constructor; [apply length_replicate|discriminate|discriminate|..].
  - unfold valid4. cbn. repeat split; lia || discriminate.
  - unfold valid4. cbn. repeat split; lia || discriminate.
  - by apply (bool_decide_eq_true_1 _).
Qed.

Lemma ex_ext_ok : ext_ok (fun _ => ex_client).
Proof. intros d. unfold valid4. cbn. repeat split; lia || discriminate. Qed.

(** A datagram with a header and attributes. *)
Definition datagram (typ : Z) (id body : str) : str :=
  be_bytes 2 typ ++ be_bytes 2 (Z.of_nat (length body)) ++ id ++ body.

(** ** The message format *)

(** C18: what is encoded is read back.  A message whose strings and id fit their
    arrays, without the three attributes that are encoded differently from how
    they are read, is encoded to at most 1190 bytes of an array of
    STUN_MAX_MESSAGE_SIZE, and the parser reads these bytes, wherever they are
    copied to, as the same message: every attribute that is present with its value
    at its width, the absent ones zero, and the integrity attribute exactly when there
    is a password. *)
Theorem stun_roundtrip m pwd stack rest :
  wf_stun m -> plain m -> length stack = STUN_MAX_MESSAGE_SIZE ->
  exists buf data,
    stunEncodeMessage m stack STUN_MAX_MESSAGE_SIZE pwd = Val (buf, length data) /\
    rdn buf 0 (length data) = Val data /\ length data <= 1190 /\
    stunParseMessage (data ++ rest) (length data) = Val (true, read_back m pwd).
Proof.
  intros Hm Hp Hs. destruct (encode_sent m stack pwd Hm Hs) as (buf & He & Hr).
  exists buf, (message_bytes m pwd). split_and!; [done|done|by apply message_size|].
  apply parse_message; [done|done| |done]. split; [lia|]. exists rest. by rewrite drop_0.
Qed.

Lemma stun_roundtrip_witness :
  exists buf data,
    stunEncodeMessage (test_request (1, 2, 3, 4)%Z true false 3) (zeros STUN_MAX_MESSAGE_SIZE) STUN_MAX_MESSAGE_SIZE no_string =
      Val (buf, length data) /\
    rdn buf 0 (length data) = Val data /\ length data <= 1190 /\
    stunParseMessage (data ++ []) (length data) = Val (true, read_back (test_request (1, 2, 3, 4)%Z true false 3) no_string).
Proof.
  apply (stun_roundtrip (test_request (1, 2, 3, 4)%Z true false 3) no_string (zeros STUN_MAX_MESSAGE_SIZE) []);
    [apply test_request_wf|apply test_request_plain|apply length_replicate].
Defined.

Lemma parse_safe buf bufLen :
  bufLen + 3 <= length buf -> ~ bad_error_in buf sizeof_StunMsgHdr bufLen ->
  exists ok m, stunParseMessage buf bufLen = Val (ok, m) /\ shaped m.
Proof.
  intros Hb Hbad. unfold stunParseMessage, sizeof_StunMsgHdr in *.
  destruct (bufLen <? 20) eqn:E; bools; [do 2 eexists; split; [done|]; exact (shaped_zero _)|]. cbn zeta.
  destruct (get16_in buf 0) as (t & -> & _); [lia|]. rewrite val_bind.
  destruct (get16_in buf 2) as (len & -> & Hl); [lia|]. rewrite val_bind, rdn_in by lia. rewrite val_bind.
  destruct (Z.to_nat len + 20 =? bufLen) eqn:El; bools; cbn [negb]; [|do 2 eexists; split; [done|]; apply shaped_zero].
  destruct (parse_attributes_safe (S (Z.to_nat len)) buf 20 (Z.to_nat len)
    (zero_message <| msgHdr := mkStunMsgHdr t len (take 16 (drop 4 buf)) |>)) as [H|H]; [lia|lia|apply shaped_zero| |done].
  destruct Hbad. by replace bufLen with (20 + Z.to_nat len) by lia.
Qed.

(** C34: the parser stays inside its buffers.  On every array that has three bytes
    more than the message, the parser returns, with a message whose arrays have
    their sizes, unless somewhere in the message stands the header of an ErrorCode
    attribute of less than 4 or of 260 or 261 bytes. *)
Theorem stun_parse_safe buf bufLen :
  bufLen + 3 <= length buf -> ~ bad_error_in buf sizeof_StunMsgHdr bufLen ->
  exists ok m, stunParseMessage buf bufLen = Val (ok, m) /\ shaped m.
Proof. apply parse_safe. Qed.

Lemma stun_parse_safe_witness :
  exists ok m, stunParseMessage (datagram BindRequestMsg ex_id [] ++ repeat (chr 0) 3) 20 = Val (ok, m) /\ shaped m.
Proof.
  apply (stun_parse_safe (datagram BindRequestMsg ex_id [] ++ repeat (chr 0) 3) 20); [vm_compute; lia|].
  intros (p & t & len & H1 & H2 & _). unfold sizeof_StunMsgHdr in H1. lia.
Defined.

(** ** The server *)

(** C17: a binding request and its answer.  When one of the four sockets of a server
    without relays receives a test of the client, the server sends one datagram: to
    the sender, from the socket with the other address if the test asks for it and
    with the other port if the test asks for it.  The client that reads it marks
    the test as answered and, for the first test, takes the address the server saw
    and the server's other address from it. *)
Theorem bind_exchange w now rnd info rq t cp ci stack junk ready fd rip rport from c :
  test_flags t = Some (cp, ci) -> length stack = STUN_MAX_MESSAGE_SIZE ->
  length (w_stack w STUN_MAX_MESSAGE_SIZE) = STUN_MAX_MESSAGE_SIZE ->
  si_relay info = false -> w_select w = Some ready -> choose_socket info ready = Some (fd, rip, rport) ->
  fd <> INVALID_SOCKET ->
  valid4 from -> a4_addr from <> 0%Z -> a4_port from <> 0%Z ->
  let sfd := send_socket info (xorb rip ci) (xorb rport cp) in
  let other := if rip then si_myAddr info else si_altAddr info in
  sfd <> INVALID_SOCKET -> valid4 other ->
  exists request reply,
    sendTestRequest rq stack junk t = Val request /\
    (w_recv w fd = Some (request, from) ->
     vovida_stun_ServerProcess w now rnd info = Val (info, [UdpSent sfd reply from])) /\
    forall rest, handleReadNatType reply rest c = Val (answered t from other c).
Proof.
  intros Ht Hs Hw Hr Hsel Hch Hfd Hf Ha Hp sfd other Hsfd Ho.
  set (my := if rip then si_altAddr info else si_myAddr info).
  exists (message_bytes (test_request rq cp ci t) no_string), (reply_bytes (fun _ => rq) t from my other cp ci).
  split_and!; [by apply send_test|..].
  - intros Hrecv. assert (E : sfd = send_socket info (if ci then negb rip else rip) (if cp then negb rport else rport))
      by (subst sfd; by destruct ci, cp, rip, rport).
    rewrite E in Hsfd |- *. by rewrite (server_round w now rnd info rq cp ci t ready fd rip rport from).
  - intros rest. apply handle_reply; [|done..].
    revert Ht. unfold test_flags. repeat case_match; bools; intros; simplify_eq; try lia.
Qed.

Lemma bind_exchange_witness :
  exists request reply,
    sendTestRequest (1, 2, 3, 4)%Z (zeros STUN_MAX_MESSAGE_SIZE) [] 3 = Val request /\
    (w_recv (ex_world (message_bytes (test_request (1, 2, 3, 4)%Z true false 3) no_string)) 3 = Some (request, ex_client) ->
     vovida_stun_ServerProcess (ex_world (message_bytes (test_request (1, 2, 3, 4)%Z true false 3) no_string)) 0 0 ex_info =
       Val (ex_info, [UdpSent 4 reply ex_client])) /\
    forall rest, handleReadNatType reply rest reset_client = Val (answered 3 ex_client ex_alt reset_client).
Proof.
  apply (bind_exchange (ex_world (message_bytes (test_request (1, 2, 3, 4)%Z true false 3) no_string)) 0 0 ex_info
    (1, 2, 3, 4)%Z 3 true false (zeros STUN_MAX_MESSAGE_SIZE) [] (fun fd => (fd =? 3)%Z) 3 false false ex_client reset_client).
  2-3: apply length_replicate.
  6,10: unfold valid4; cbn; lia.
  all: try reflexivity; discriminate.
Defined.

(** The receiving part of a round of a server without relays. *)
Lemma server_receives w now rnd info ready fd rip rport data from :
  si_relay info = false -> w_select w = Some ready -> choose_socket info ready = Some (fd, rip, rport) ->
  fd <> INVALID_SOCKET -> w_recv w fd = Some (data, from) ->
  0 < length data -> length data + 1 < length (w_stack w STUN_MAX_MESSAGE_SIZE) ->
  exists rest, length (data ++ rest) = length (w_stack w STUN_MAX_MESSAGE_SIZE) /\
    vovida_stun_ServerProcess w now rnd info =
      ev ← answer_message w now rnd info (data ++ rest) (length data) rip rport from zero_address4; Val (info, ev).
Proof.
  intros Hrel Hsel Hch Hfd Hrecv H0 Hw. unfold vovida_stun_ServerProcess.
  rewrite Hsel, Hrel, val_bind. cbn zeta.
  replace (info <| si_relays := si_relays info |>) with info by (by destruct info).
  rewrite Hch. destruct (receive_whole w fd (w_stack w STUN_MAX_MESSAGE_SIZE) _ _ Hfd Hrecv H0 Hw) as (buf & -> & Hb & Hl).
  destruct Hb as [_ [rest Hb]]. rewrite drop_0 in Hb. subst buf. exists rest. split; [done|].
  rewrite val_bind, Hrel, val_bind. cbn [negb andb]. cbv zeta iota. by rewrite Nat2Z.id, Hrel.
Qed.

Lemma datagram_length typ id body : length id = 16 -> length (datagram typ id body) = 20 + length body.
Proof. intros H. unfold datagram. rewrite !length_app, !length_be_bytes. lia. Qed.

Lemma parse_datagram typ id body rest :
  length id = 16 -> (Z.of_nat (length body) < 65536)%Z ->
  let buf := datagram typ id body ++ rest in
  stands buf 20 body /\
  stunParseMessage buf (20 + length body) =
    parse_attributes (S (length body)) buf 20 (length body)
      (zero_message <| msgHdr := mkStunMsgHdr (typ mod 2 ^ 16) (Z.of_nat (length body)) id |>).
Proof.
  intros Hid Hl buf. assert (Hb : stands buf 0 (datagram typ id body)) by (split; [lia|]; exists rest; by rewrite drop_0).
  unfold datagram in Hb. rewrite !stands_app, !length_be_bytes, Hid in Hb.
  destruct Hb as (H1 & H2 & H3 & H4). cbn [Nat.add] in H2, H3, H4. split; [done|].
  unfold stunParseMessage, sizeof_StunMsgHdr.
  rewrite (proj2 (Nat.ltb_ge _ _)) by lia. unfold get16. cbn zeta.
  rewrite (get_be_at 2 _ _ _ H1), val_bind, (get_be_at 2 _ _ _ H2), val_bind.
  rewrite (Z.mod_small (Z.of_nat _)) by (change (256 ^ Z.of_nat 2)%Z with 65536%Z; lia).
  pose proof (rdn_at _ _ _ H3) as E. rewrite Hid in E. rewrite E, val_bind, Nat2Z.id.
  by rewrite (Nat.add_comm (length body)), Nat.eqb_refl.
Qed.

(** The size of the reason wraps around, and no array has room for it. *)
Lemma short_error_fault buf body hdrLen r :
  hdrLen < 4 -> length (reason r) = STUN_MAX_STRING -> stunParseAtrError buf body hdrLen r = Fault.
Proof.
  intros Hh Hr. unfold stunParseAtrError. rewrite (proj2 (Nat.leb_gt _ _)) by (unfold sizeof_StunAtrError; lia).
  unfold get16, get_be, rd, rdn. destruct (body + 2 <=? length buf); [|done]. rewrite !val_bind.
  destruct (buf !! (body + 2)); [|done]. rewrite val_bind. destruct (buf !! (body + 3)); [|done]. rewrite val_bind. cbn zeta.
  set (n := Z.to_nat _). assert (Hn : (65532 <= Z.of_nat n)%Z).
  { subst n. rewrite <- (Z_mod_plus_full _ 1), Z.mod_small by lia. lia. }
  clearbody n. destruct (_ <=? length buf) eqn:E; [|done]. rewrite val_bind. bools.
  unfold wrn. rewrite length_take, length_drop, Hr.
  rewrite (proj2 (Nat.leb_gt _ _)); [done|]. unfold STUN_MAX_STRING. lia.
Qed.

(** A datagram of 24 bytes brings the server down.  When a round of the
    server receives a message whose first attribute is an ErrorCode of less than
    four bytes, the parser copies more than 65000 bytes to an array of 256,
    whatever the type and the id of the message and whatever follows. *)
Theorem short_error_crashes w now rnd info ready fd rip rport typ id short more from :
  si_relay info = false -> w_select w = Some ready -> choose_socket info ready = Some (fd, rip, rport) ->
  fd <> INVALID_SOCKET -> length (w_stack w STUN_MAX_MESSAGE_SIZE) = STUN_MAX_MESSAGE_SIZE ->
  length id = 16 -> length short < 4 -> length more < 2000 ->
  w_recv w fd = Some (datagram typ id (be_bytes 2 ErrorCode ++ be_bytes 2 (Z.of_nat (length short)) ++ short ++ more), from) ->
  vovida_stun_ServerProcess w now rnd info = Fault.
Proof.
  intros Hrel Hsel Hch Hfd Hw Hid Hs Hm Hrecv.
  set (body := be_bytes 2 _ ++ _) in Hrecv.
  assert (Hl : length body = 4 + length short + length more).
  { subst body. rewrite !length_app, !length_be_bytes. lia. }
  destruct (server_receives w now rnd info ready fd rip rport _ _ Hrel Hsel Hch Hfd Hrecv) as (rest & _ & ->);
    [rewrite datagram_length; lia|rewrite datagram_length, Hw by done; unfold STUN_MAX_MESSAGE_SIZE; lia|].
  destruct (parse_datagram typ id body rest Hid ltac:(lia)) as [Hb Hp].
  unfold answer_message, vovida_stun_ServerProcessMsg. rewrite datagram_length, Hp by done.
  set (buf := datagram typ id body ++ rest) in *. clearbody buf.
  cbn [parse_attributes]. rewrite (proj2 (Nat.eqb_neq _ _)) by lia.
  unfold body in Hb. rewrite !stands_app, !length_be_bytes in Hb. destruct Hb as (H1 & H2 & _).
  unfold get16. rewrite (get_be_at 2 _ _ _ H2), val_bind, (get_be_at 2 _ _ _ H1), val_bind. cbn zeta.
  rewrite (Z.mod_small (Z.of_nat (length short))) by (change (256 ^ Z.of_nat 2)%Z with 65536%Z; lia).
  rewrite Nat2Z.id, (proj2 (Nat.ltb_ge _ _)) by lia.
  change (ErrorCode mod 256 ^ Z.of_nat 2)%Z with ErrorCode. unfold parse_attribute. cbn -[stunParseAtrError zero_message datagram be_bytes].
  by rewrite short_error_fault.
Qed.

Lemma short_error_crashes_witness :
  vovida_stun_ServerProcess (ex_world (datagram BindRequestMsg ex_id (be_bytes 2 ErrorCode ++ be_bytes 2 0))) 0 0 ex_info = Fault.
Proof.
  apply (short_error_crashes (ex_world (datagram BindRequestMsg ex_id (be_bytes 2 ErrorCode ++ be_bytes 2 0)))
    0 0 ex_info (fun fd => (fd =? 3)%Z) 3 false false BindRequestMsg ex_id [] [] ex_client).
  5: apply length_replicate.
  6,7: cbn; lia.
  all: try reflexivity; discriminate.
Defined.

Lemma length_fmt_08x z : length (fmt_08x z) = 8.
Proof. done. Qed.

(** The name has 67 characters and the assertion on them fails. *)
Lemma user_name_aborts now rnd source name : stunCreateUserName now rnd source name = Abort.
Proof.
  unfold stunCreateUserName. cbn zeta. set (buffer := _ ++ #":" ++ _).
  assert (Hl : length buffer = 27) by (subst buffer; rewrite !length_app, !length_fmt_08x; reflexivity).
  clearbody buffer. rewrite length_app, Hl. reflexivity.
Qed.

(** A request for a shared secret stops the server.  The name the server makes
    up has 67 characters for every source, time and random number, and an
    assertion wants a multiple of 4; the 20 bytes of such a request are enough. *)
Theorem shared_secret_aborts w now rnd info ready fd rip rport id from :
  si_relay info = false -> w_select w = Some ready -> choose_socket info ready = Some (fd, rip, rport) ->
  fd <> INVALID_SOCKET -> length (w_stack w STUN_MAX_MESSAGE_SIZE) = STUN_MAX_MESSAGE_SIZE ->
  length id = 16 -> w_recv w fd = Some (datagram SharedSecretRequestMsg id [], from) ->
  vovida_stun_ServerProcess w now rnd info = Abort.
Proof.
  intros Hrel Hsel Hch Hfd Hw Hid Hrecv.
  destruct (server_receives w now rnd info ready fd rip rport _ _ Hrel Hsel Hch Hfd Hrecv) as (rest & _ & ->);
    [rewrite datagram_length; lia|rewrite datagram_length, Hw by done; unfold STUN_MAX_MESSAGE_SIZE; cbn; lia|].
  destruct (parse_datagram SharedSecretRequestMsg id [] rest Hid ltac:(done)) as [_ Hp].
  unfold answer_message, vovida_stun_ServerProcessMsg. rewrite datagram_length, Hp by done.
  cbn -[stunCreateSharedSecretResponse zero_message datagram]. unfold stunCreateSharedSecretResponse.
  by rewrite user_name_aborts.
Qed.

Lemma shared_secret_aborts_witness :
  vovida_stun_ServerProcess (ex_world (datagram SharedSecretRequestMsg ex_id [])) 1000 77 ex_info = Abort.
Proof.
  apply (shared_secret_aborts (ex_world (datagram SharedSecretRequestMsg ex_id []))
    1000 77 ex_info (fun fd => (fd =? 3)%Z) 3 false false ex_id ex_client).
  5: apply length_replicate.
  all: try reflexivity; discriminate.
Defined.

(** The copy of the server in STUNProto.cpp answers no binding request.  Its
    server name has 13 bytes with the terminator, and an assertion wants a multiple
    of 4; the copy in VovidaSTUN.inl, with a name of 16 bytes, answers. *)
Theorem own_server_aborts now rnd verbose buf n from secondary my alt dst pwd req :
  stunParseMessage buf n = Val (true, req) -> msgType (msgHdr req) = BindRequestMsg ->
  hasMessageIntegrity req = false -> hasUsername req = false ->
  stunServerProcessMsg now rnd verbose buf n from secondary my alt dst pwd = Abort /\
  exists ans, vovida_stun_ServerProcessMsg now rnd buf n from secondary my alt dst pwd = Val (true, ans) /\
    ans_destination ans = Some (if (a4_port (ipv4 (responseAddress req)) =? 0)%Z then from else ipv4 (responseAddress req)).
Proof.
  intros Hp Ht Hi Hu. unfold stunServerProcessMsg, vovida_stun_ServerProcessMsg. rewrite Hp, !val_bind, Ht.
  change (BindRequestMsg =? SharedSecretRequestMsg)%Z with false. change (BindRequestMsg =? BindRequestMsg)%Z with true.
  cbn [negb]. cbv iota. unfold bind_request. cbn zeta. rewrite Hi. cbn [negb]. unfold bind_response. cbn zeta.
  unfold copy_username, add_reflected. rewrite Hu, Hi. cbn [andb]. rewrite !val_bind. split; [done|].
  unfold add_server_name. set (resp := bind_addresses _ _ _ _ _ _ _ _).
  change (negb (length (asciiz #"Vovida.org 0.96") <? STUN_MAX_STRING)) with false.
  change (negb (length (asciiz #"Vovida.org 0.96") mod 4 =? 0)) with false. cbv iota.
  assert (Hl : length (str_value (serverName resp)) = 256).
  { subst resp. unfold bind_addresses. cbn zeta. destruct (xorOnly req), (a4_port secondary =? 0)%Z; reflexivity. }
  rewrite wrn_in by (rewrite Hl; cbn; lia). rewrite !val_bind. by eexists.
Qed.

Lemma own_server_aborts_witness :
  let buf := datagram BindRequestMsg ex_id [] in
  stunServerProcessMsg 0 0 false buf 20 ex_client zero_address4 ex_my ex_alt None zero_string = Abort /\
  exists ans, vovida_stun_ServerProcessMsg 0 0 buf 20 ex_client zero_address4 ex_my ex_alt None zero_string = Val (true, ans) /\
    ans_destination ans = Some ex_client.
Proof.
  exact (own_server_aborts 0 0 false (datagram BindRequestMsg ex_id []) 20 ex_client zero_address4 ex_my ex_alt None zero_string
    (zero_message <| msgHdr := mkStunMsgHdr BindRequestMsg 0 ex_id |>) eq_refl eq_refl eq_refl eq_refl).
Defined.

(** The answer to a binding request with an integrity attribute and no name. *)
Definition no_user_name : str := #"No UserName and contains MessageIntegrity".

(** An error response cannot be read.  The response to a request whose integrity
    attribute comes without a name is encoded with the length of the error code
    two bytes too large and without its reason, since the size of the reason is
    never set; the parser of the same file rejects what is sent. *)
Theorem error_response_rejected name req from secondary my alt pwd stack rest :
  hasMessageIntegrity req = true -> hasUsername req = false -> length stack = STUN_MAX_MESSAGE_SIZE ->
  exists ans buf data m,
    bind_request name req from secondary my alt (fresh_answer None pwd) = Val (true, ans) /\
    ans_destination ans = None /\ errorClass (errorCode (ans_resp ans)) = 4%Z /\
    stunEncodeMessage (ans_resp ans) stack STUN_MAX_MESSAGE_SIZE no_string = Val (buf, length data) /\
    rdn buf 0 (length data) = Val data /\
    stunParseMessage (data ++ rest) (length data) = Val (false, m).
Proof.
  intros Hi Hu Hs. unfold bind_request. rewrite Hi, Hu. cbn [negb]. cbv zeta iota.
  assert (exists resp, stunCreateErrorResponse (ans_resp (fresh_answer None pwd)) 4 32 no_user_name = Val resp /\
    wf_stun resp /\ errorClass (errorCode resp) = 4%Z /\
    message_bytes resp no_string = datagram BindErrorResponseMsg (repeat (chr 0) 16)
      (be_bytes 2 ErrorCode ++ be_bytes 2 6 ++ be_bytes 4 0x0420)) as (resp & Er & Hwf & Hc & Hb).
  { eexists. split; [reflexivity|]. split_and!; [|reflexivity|vm_compute; reflexivity].
    constructor; try discriminate; [reflexivity|]. intros _. vm_compute. repeat split; discriminate. }
  fold no_user_name. rewrite Er, val_bind.
  destruct (encode_sent resp stack no_string Hwf Hs) as (buf & He & Hr).
  do 4 eexists. split_and!; [done|done|exact Hc|exact He|exact Hr|].
  rewrite Hb. vm_compute. reflexivity.
Qed.

Lemma error_response_rejected_witness :
  exists ans buf data m,
    bind_request server_name (zero_message <| hasMessageIntegrity := true |>) ex_client zero_address4 ex_my ex_alt
      (fresh_answer None zero_string) = Val (true, ans) /\
    ans_destination ans = None /\ errorClass (errorCode (ans_resp ans)) = 4%Z /\
    stunEncodeMessage (ans_resp ans) (zeros STUN_MAX_MESSAGE_SIZE) STUN_MAX_MESSAGE_SIZE no_string = Val (buf, length data) /\
    rdn buf 0 (length data) = Val data /\
    stunParseMessage (data ++ []) (length data) = Val (false, m).
Proof.
  apply (error_response_rejected server_name (zero_message <| hasMessageIntegrity := true |>) ex_client zero_address4 ex_my ex_alt
    zero_string (zeros STUN_MAX_MESSAGE_SIZE) []); [reflexivity|reflexivity|apply length_replicate].
Defined.

(** ** The client *)

(** What a client behind a NAT is to report: [behind] when its address is
    translated, [same] when to the same address for both addresses of the server. *)
Definition nat_kind (behind same : bool) (f : filtering) : NatType :=
  if behind then
    if same then
      match f with
      | EndpointIndependent => StunTypeIndependentFilter
      | AddressDependent => StunTypeDependentFilter
      | AddressAndPortDependent => StunTypePortDependedFilter
      end
    else StunTypeDependentMapping
  else match f with EndpointIndependent => StunTypeOpen | _ => StunTypeFirewall end.

Section detection.
Context (w : UdpWorld) (now rnd : Z) (rq : Z -> Z * Z * Z * Z) (info : StunServerInfo).
Context (ext : StunAddress4 -> StunAddress4) (behind : StunAddress4 -> bool) (stack junk : str).

Abbreviation detected f fuel secs :=
  (getNatType fuel (si_myAddr info) true true behind secs (network w now rnd rq info ext f stack junk)).
Abbreviation same := (bool_decide (ext (si_myAddr info) = ext (si_altAddr info))).

Lemma detection_result f fuel secs :
  server_ok w info -> ext_ok ext -> length stack = STUN_MAX_MESSAGE_SIZE ->
  (1 <= secs <= 4000000)%Z -> (10 * secs + 1 < Z.of_nat fuel)%Z ->
  detected f fuel secs =
    Val (nat_kind (behind (ext (si_myAddr info))) same (if lenient f then EndpointIndependent else AddressAndPortDependent)).
Proof.
  intros Hs He Hst Hsecs Hf. destruct (ok_my w info Hs) as (_ & Ha & Hp). unfold getNatType, addr_valid.
  rewrite (proj2 (Z.eqb_neq _ _) Ha), (proj2 (Z.eqb_neq _ _) Hp). cbn [negb orb]. cbv zeta iota.
  assert (E : (u32 (secs * 1000) / 100 = 10 * secs)%Z).
  { unfold u32. rewrite Z.mod_small by lia. replace (secs * 1000)%Z with (10 * secs * 100)%Z by lia. by apply Z.div_mul. }
  rewrite E, (nat_loop_learns w now rnd rq info ext f stack junk Hs He Hst fuel) by lia. rewrite val_bind. f_equal.
  unfold learned, nat_decision, nat_kind, lenient. cbn.
  case_decide; [rewrite bool_decide_eq_true_2 by done|rewrite bool_decide_eq_false_2 by done]; by destruct (behind _), f.
Qed.

End detection.

(** C19: the detection of the NAT.  Over a network with the server at its four
    addresses and a NAT that filters by nothing or by address and port, the client
    reports what the NAT is: whether it is one, whether it maps to the same address
    for both servers, and how it filters.  The loop ends within two rounds
    more than ten per second of the time it is given. *)
Theorem nat_detected w now rnd rq info ext behind stack junk f fuel secs :
  server_ok w info -> ext_ok ext -> length stack = STUN_MAX_MESSAGE_SIZE ->
  (1 <= secs <= 4000000)%Z -> (10 * secs + 1 < Z.of_nat fuel)%Z -> f <> AddressDependent ->
  getNatType fuel (si_myAddr info) true true behind secs (network w now rnd rq info ext f stack junk) =
    Val (nat_kind (behind (ext (si_myAddr info))) (bool_decide (ext (si_myAddr info) = ext (si_altAddr info))) f).
Proof. intros Hs He Hst Hsecs Hf Hn. rewrite detection_result by done. by destruct f. Qed.

Lemma nat_detected_witness :
  getNatType 20 ex_my true true (fun _ => true) 1
    (network (ex_world []) 0 0 (fun _ => (1, 2, 3, 4)%Z) ex_info (fun _ => ex_client) AddressAndPortDependent
       (zeros STUN_MAX_MESSAGE_SIZE) []) = Val StunTypePortDependedFilter.
Proof.
  apply (nat_detected (ex_world []) 0 0 (fun _ => (1, 2, 3, 4)%Z) ex_info (fun _ => ex_client) (fun _ => true)
    (zeros STUN_MAX_MESSAGE_SIZE) [] AddressAndPortDependent 20 1);
    [apply ex_server_ok|apply ex_ext_ok|apply length_replicate|lia|lia|discriminate].
Defined.

(** A NAT that filters by address is taken for one that does not filter.  After
    the first round the client sends the tenth test to the other address of the
    server from the same socket, so that the NAT lets the answer to the second test
    in, which comes from that address. *)
Theorem restricted_nat_missed w now rnd rq info ext behind stack junk fuel secs :
  server_ok w info -> ext_ok ext -> length stack = STUN_MAX_MESSAGE_SIZE ->
  (1 <= secs <= 4000000)%Z -> (10 * secs + 1 < Z.of_nat fuel)%Z ->
  ext (si_myAddr info) = ext (si_altAddr info) -> behind (ext (si_myAddr info)) = true ->
  getNatType fuel (si_myAddr info) true true behind secs (network w now rnd rq info ext AddressDependent stack junk) =
    Val StunTypeIndependentFilter /\
  nat_kind true true AddressDependent = StunTypeDependentFilter.
Proof.
  intros Hs He Hst Hsecs Hf Hm Hb. split; [|done]. rewrite detection_result by done.
  by rewrite Hb, bool_decide_eq_true_2.
Qed.

Lemma restricted_nat_missed_witness :
  getNatType 20 ex_my true true (fun _ => true) 1
    (network (ex_world []) 0 0 (fun _ => (1, 2, 3, 4)%Z) ex_info (fun _ => ex_client) AddressDependent
       (zeros STUN_MAX_MESSAGE_SIZE) []) = Val StunTypeIndependentFilter /\
  nat_kind true true AddressDependent = StunTypeDependentFilter.
Proof.
  apply (restricted_nat_missed (ex_world []) 0 0 (fun _ => (1, 2, 3, 4)%Z) ex_info (fun _ => ex_client) (fun _ => true)
    (zeros STUN_MAX_MESSAGE_SIZE) [] 20 1);
    [apply ex_server_ok|apply ex_ext_ok|apply length_replicate|lia|lia|reflexivity|reflexivity].
Defined.

(** A read either answers the first test or leaves the count alone. *)
Definition counted (c c' : STUNClient) : Prop :=
  test1Responded c' = true \/ (sendCount c' = sendCount c /\ test1Responded c' = test1Responded c).

Lemma on_response_counted resp c : counted c (on_response resp c).
Proof. unfold on_response, counted. cbn zeta. repeat case_match; cbn; auto. Qed.

(** A datagram the parser can read, at the start of an array with room behind it. *)
Definition readable (read : str * str) : Prop :=
  3 <= length read.2 /\ ~ bad_error_in (read.1 ++ read.2) sizeof_StunMsgHdr (length read.1).

Lemma parse_readable data rest :
  readable (data, rest) -> exists ok m, stunParseMessage (data ++ rest) (length data) = Val (ok, m) /\ shaped m.
Proof. intros [Hr Hb]. apply parse_safe; [rewrite length_app; cbn in *; lia|done]. Qed.

Lemma reads_counted reads c :
  Forall readable reads -> exists c', handle_reads reads c = Val c' /\ counted c c'.
Proof.
  intros H. revert c. induction H as [|[data rest] reads Hr _ IH]; intros c; cbn [handle_reads].
  { exists c. split; [done|]. right. auto. }
  unfold handleReadNatType. destruct (parse_readable _ _ Hr) as (ok & m & -> & _). rewrite !val_bind.
  set (c1 := if ok then on_response m c else c).
  assert (H1 : counted c c1) by (subst c1; destruct ok; [apply on_response_counted|right; auto]).
  destruct (IH c1) as (c' & E & H2). exists c'. split; [done|]. clear -H1 H2. unfold counted in *. intuition congruence.
Qed.

(** The milliseconds left of the loop. *)
Definition single_left (maxSendCount sleepCount : Z) (c : STUNClient) : Z :=
  100 * (maxSendCount - sendCount c) + (if (sleepCount =? 0)%Z then 0 else 100 - sleepCount).

Lemma single_loop_stops reads maxSendCount fuel k sleep c sent :
  0 < fuel -> test1Responded c = true -> single_loop fuel maxSendCount reads k sleep c sent = Val (c, sent).
Proof. destruct fuel; [lia|]. intros _ H. cbn [single_loop]. rewrite H. by destruct (negb _). Qed.

Lemma single_loop_ends reads maxSendCount fuel k sleep c sent :
  (forall k, Forall readable (reads k)) -> (0 <= sleep < 100)%Z -> (sendCount c <= maxSendCount)%Z ->
  (single_left maxSendCount sleep c < Z.of_nat fuel)%Z -> test1Responded c = false ->
  exists c' n, single_loop fuel maxSendCount reads k sleep c sent = Val (c', n) /\
    (n <= sent + Z.to_nat (maxSendCount - sendCount c)) /\
    (test1Responded c' = false -> n = sent + Z.to_nat (maxSendCount - sendCount c)) /\
    ((forall k, reads k = []) -> test1Responded c' = false).
Proof.
  intros Hr. revert k sleep c sent. unfold single_left.
  induction fuel as [|fuel IH]; intros k sleep c sent Hs Hc Hf E1; [case_match; lia|].
  cbn [single_loop]. destruct (Z.ltb_spec (sendCount c) maxSendCount) as [Hlt|Hge]; cbn [negb].
  2:{ exists c, sent. split_and!; [done|lia|lia|done]. }
  rewrite E1. cbv iota.
  set (step := if (sleep =? 0)%Z then _ else _).
  assert (exists c1, step = (c1, sent + Z.to_nat (sendCount c1 - sendCount c)) /\ test1Responded c1 = false /\
    sendCount c1 = (sendCount c + if (sleep =? 0)%Z then 1 else 0)%Z) as (c1 & -> & E & Hc1).
  { subst step. destruct (sleep =? 0)%Z; eexists; (split_and!; [f_equal|done|]); cbn; lia. }
  destruct (reads_counted (reads k) c1 (Hr k)) as (c2 & E2 & Hcc). rewrite E2, val_bind. cbn zeta. unfold DEFAULT_STUN_SEND_INTERVAL.
  destruct Hcc as [H2|[H2 H2']].
  - rewrite single_loop_stops by (done || (revert Hf; case_match; lia)).
    exists c2. eexists. split_and!; [done|revert Hc1; case_match; lia|congruence|].
    intros Hq. rewrite Hq in E2. cbn in E2. congruence.
  - destruct (IH (S k) (if (sleep + 1 =? 100)%Z then 0 else sleep + 1)%Z c2 (sent + Z.to_nat (sendCount c1 - sendCount c)))
      as (c' & n & En & Hn & Hn' & Hq').
    1-4: repeat case_match; bools; lia || congruence.
    exists c', n. split_and!; [done|destruct (sleep =? 0)%Z; lia| |done].
    intros Hx. rewrite (Hn' Hx). destruct (sleep =? 0)%Z; lia.
Qed.

(** The request for the address of a socket ends.  When what arrives can be read,
    [createSingleSocket] returns after at most 100 rounds of a millisecond for each of
    its ten requests per second of the timeout; it sends no more than these requests,
    and it sends them all unless the server has answered. *)
Theorem single_socket_ends fuel readTimeout target localValid bound reads :
  let timeout := if (readTimeout =? 0)%Z then 5%Z else readTimeout in
  (0 <= readTimeout <= 4000000)%Z -> (forall k, Forall readable (reads k)) -> (1000 * timeout < Z.of_nat fuel)%Z ->
  exists r n, createSingleSocket fuel readTimeout target localValid bound reads = Val (r, n) /\
    n <= Z.to_nat (10 * timeout) /\
    (addr_valid target = true -> localValid = true -> bound = true -> (forall k, reads k = []) ->
     r = None /\ n = Z.to_nat (10 * timeout)).
Proof.
  intros timeout Ht Hr Hf. unfold createSingleSocket, DEFAULT_STUN_READ_TIMEOUT, DEFAULT_STUN_SEND_INTERVAL. fold timeout.
  cbn zeta. destruct (_ || _) eqn:Eo; [do 2 eexists; split_and!; [done|lia|]; intros Ha Hl; by rewrite Ha, Hl in Eo|].
  destruct bound; cbn [negb]; [|do 2 eexists; split_and!; [done|lia|done]].
  assert (Htt : (1 <= timeout <= 4000000)%Z) by (subst timeout; destruct (Z.eqb_spec readTimeout 0); lia).
  assert (E : (u32 (timeout * 1000) / 100 = 10 * timeout)%Z).
  { unfold u32. rewrite Z.mod_small by lia. replace (timeout * 1000)%Z with (10 * timeout * 100)%Z by lia. by apply Z.div_mul. }
  rewrite E. clearbody timeout.
  destruct (single_loop_ends reads (10 * timeout) fuel 0 0 reset_client 0 Hr) as (c & n & El & Hn & Hn' & Hq);
    [lia|cbn; lia|unfold single_left; cbn; lia|done|].
  rewrite El, val_bind. cbn [sendCount reset_client] in Hn, Hn'. rewrite Z.sub_0_r in Hn, Hn'.
  do 2 eexists. split_and!; [done|done|].
  intros _ _ _ Hn0. rewrite (Hq Hn0). auto.
Qed.

Lemma single_socket_ends_witness :
  exists r n, createSingleSocket (S (Z.to_nat 1000)) 1 ex_my true true (fun _ => []) = Val (r, n) /\
    n <= Z.to_nat (10 * 1) /\
    (addr_valid ex_my = true -> true = true -> true = true -> (nat -> @nil (str * str) = []) ->
     r = None /\ n = Z.to_nat (10 * 1)).
Proof.
  apply (single_socket_ends (S (Z.to_nat 1000)) 1 ex_my true true (fun _ => [])); [lia| |cbn [Z.eqb Pos.eqb]; lia].
  intros _. apply Forall_nil_2.
Defined.
