(* ===== verification/SdpText.v ===== *)
(** * Text of session descriptions

    What the classes of src/sdp take from Boost, [boost::split] and
    [boost::lexical_cast], as an interface with its documented behaviour, the
    helpers [string_tokenize] and [string_to_number] of CoreUtils on top of it, and
    the decimal output of the standard streams. *)

From S2P Require Import Prelude Abnf AbnfFacts AbnfSearch CoreStrings.
Open Scope nat_scope.

(** ** Decimal output of integers *)

Fixpoint dec_digits (fuel : nat) (z : Z) (acc : str) : str :=
  match fuel with
  | O => acc
  | S fuel =>
      let acc := chr (48 + z mod 10) :: acc in
      if (z / 10 =? 0)%Z then acc else dec_digits fuel (z / 10) acc
  end.
(** A number has no more decimal digits than binary ones. *)
Definition dec_nat (z : Z) : str := dec_digits (S (Z.to_nat (Z.log2 z))) z [].
Definition dec (z : Z) : str := if (z <? 0)%Z then #"-" ++ dec_nat (- z) else dec_nat z.

(** ** Boost *)

Inductive integral :=
| UShort
| Int
| UInt
| ULong.
Definition in_type (t : integral) (z : Z) : Prop :=
  match t with
  | UShort => 0 <= z < 2 ^ 16
  | Int => - 2 ^ 31 <= z < 2 ^ 31
  | UInt => 0 <= z < 2 ^ 32
  | ULong => 0 <= z < 2 ^ 64
  end%Z.

(** The characters of a number. *)
Definition lexical_char (c : ascii) : bool :=
  match digit_val c with Some _ => true | None => Ascii.eqb c "-" || Ascii.eqb c "+" end.

Class BoostText := {
  (** [boost::split] with [is_any_of] and [token_compress_on]. *)
  split : str -> str -> list str;
  (** [boost::lexical_cast] from a string; [None] is [bad_lexical_cast]. *)
  lexical_cast : integral -> str -> option Z;

  (** A text without separators is one token, also when it is empty. *)
  split_free : forall seps w, sep_free seps w -> split seps w = [w];
  (** A run of separators ends a token. *)
  split_run : forall seps w brk s, sep_free seps w -> brk <> [] -> Forall (fun c => is_sep seps c = true) brk ->
    match s with [] => True | c :: _ => is_sep seps c = false end ->
    split seps (w ++ brk ++ s) = w :: split seps s;
  lexical_range : forall t s v, lexical_cast t s = Some v -> in_type t v;
  lexical_chars : forall t s v, lexical_cast t s = Some v -> s <> [] /\ Forall (fun c => lexical_char c = true) s;
  lexical_dec : forall t v, in_type t v -> lexical_cast t (dec v) = Some v
}.

Section core_utils.
Context {text : BoostText}.

Definition string_tokenize (s tok : str) : list str := split tok s.
Definition string_to_number (t : integral) (s : str) : Z := default 0%Z (lexical_cast t s).

End core_utils.

(** Words with a separator between two of them. *)
Fixpoint join (sep : str) (ws : list str) : str :=
  match ws with
  | [] => []
  | [w] => w
  | w :: ws => w ++ sep ++ join sep ws
  end.
Abbreviation unwords := (join #" ").

Definition space_free (w : str) : Prop := sep_free #" " w.
(** Nothing that ends a word. *)
Definition word (w : str) : Prop := w <> [] /\ space_free w.

(** ** Facts about decimal output *)

(** A decimal digit. *)
Definition digit (c : ascii) : Prop := exists d, digit_val c = Some d.

Lemma decimal_chr z : (0 <= z < 10)%Z -> digit_val (chr (48 + z)) = Some z.
Proof.
  intros H. assert (E : (z = 0 \/ z = 1 \/ z = 2 \/ z = 3 \/ z = 4 \/ z = 5 \/ z = 6 \/ z = 7 \/ z = 8 \/ z = 9)%Z) by lia.
  by destruct E as [->|[->|[->|[->|[->|[->|[->|[->|[->| ->]]]]]]]]].
Qed.

Lemma dec_digits_digits fuel z acc : Forall digit acc -> Forall digit (dec_digits fuel z acc).
Proof.
  revert z acc. induction fuel as [|fuel IH]; intros z acc H; [done|]. cbn [dec_digits]. cbn zeta.
  assert (Forall digit (chr (48 + z mod 10) :: acc)).
  { apply Forall_cons_2; [|done]. eexists. apply decimal_chr, Z.mod_pos_bound. lia. }
  destruct (_ =? 0)%Z; [done|]. by apply IH.
Qed.

Lemma dec_digits_nonempty fuel z acc : 0 < fuel -> dec_digits fuel z acc <> [].
Proof.
  destruct fuel as [|fuel]; [lia|]. intros _. cbn [dec_digits]. cbn zeta. destruct (_ =? 0)%Z; [done|].
  generalize (chr (48 + z mod 10)). revert z acc. induction fuel as [|fuel IH]; intros z acc c; [done|].
  cbn [dec_digits]. cbn zeta. destruct (_ =? 0)%Z; [done|]. apply IH.
Qed.

(** The digits read back. *)
Lemma dec_digits_value fuel z acc a :
  (0 <= z < 2 ^ Z.of_nat fuel)%Z -> 0 < fuel ->
  exists k, (0 <= k)%Z /\ atoi_digits a (dec_digits fuel z acc) = atoi_digits (a * 10 ^ k + z) acc.
Proof.
  revert z acc a. induction fuel as [|fuel IH]; intros z acc a Hz Hf; [lia|].
  cbn [dec_digits]. cbn zeta. pose proof (Z.mod_pos_bound z 10) as Hm. pose proof (Z.div_mod z 10) as Hd.
  destruct (Z.eqb_spec (z / 10) 0) as [E|E].
  - exists 1%Z. cbn [atoi_digits]. rewrite decimal_chr by lia. split; [lia|]. f_equal. lia.
  - assert (0 < fuel). { destruct fuel; [|lia]. change (2 ^ Z.of_nat 1)%Z with 2%Z in Hz. lia. }
    rewrite Nat2Z.inj_succ, Z.pow_succ_r in Hz by lia.
    destruct (IH (z / 10)%Z (chr (48 + z mod 10) :: acc) a) as (k & Hk & Ek); [lia|done|].
    exists (k + 1)%Z. split; [lia|]. rewrite Ek. cbn [atoi_digits]. rewrite decimal_chr by lia. f_equal.
    rewrite Z.pow_add_r by lia. lia.
Qed.

Lemma dec_nat_value z : (0 <= z)%Z -> atoi_digits 0 (dec_nat z) = z.
Proof.
  intros Hz. unfold dec_nat. destruct (dec_digits_value (S (Z.to_nat (Z.log2 z))) z [] 0) as (k & _ & ->); [|lia|done].
  split; [done|]. rewrite Nat2Z.inj_succ, Z2Nat.id by apply Z.log2_nonneg.
  destruct (Z.eq_dec z 0) as [->|]; [done|]. apply Z.log2_spec. lia.
Qed.

Lemma dec_nat_digits z : Forall digit (dec_nat z).
Proof. by apply dec_digits_digits. Qed.

Lemma dec_nonempty z : dec z <> [].
Proof. unfold dec, dec_nat. destruct (_ <? 0)%Z; [done|]. apply dec_digits_nonempty. lia. Qed.

Lemma dec_chars z : Forall (fun c => lexical_char c = true) (dec z).
Proof.
  assert (H : forall z, Forall (fun c => lexical_char c = true) (dec_nat z)).
  { intros z'. eapply Forall_impl; [apply dec_nat_digits|]. intros c [d Hc]. unfold lexical_char. by rewrite Hc. }
  unfold dec. destruct (_ <? 0)%Z; [|apply H]. by apply Forall_cons_2.
Qed.

(** No separator is a character of a number. *)
Lemma dec_free seps z : forallb (fun c => negb (lexical_char c)) seps = true -> sep_free seps (dec z).
Proof.
  intros Hs. eapply Forall_impl; [apply dec_chars|]. intros c Hc. unfold is_sep. apply not_true_iff_false.
  intros (d & Hd & E)%existsb_exists. apply Ascii.eqb_eq in E as <-.
  rewrite forallb_forall in Hs. specialize (Hs c Hd). by rewrite Hc in Hs.
Qed.

(** ** Facts about tokens *)

(** A text is one token, or a token, a run of separators and the rest. *)
Lemma token_cases seps s :
  sep_free seps s \/
  exists w brk s', s = w ++ brk ++ s' /\ sep_free seps w /\ brk <> [] /\ Forall (fun c => is_sep seps c = true) brk /\
    match s' with [] => True | c :: _ => is_sep seps c = false end.
Proof.
  induction s as [|c s IH]; [left; constructor|]. destruct (is_sep seps c) eqn:Ec.
  - right. destruct s as [|d s]; [exists [], [c], []; repeat split; [constructor|done|by apply Forall_cons_2]|].
    destruct (is_sep seps d) eqn:Ed.
    + destruct IH as [IH|(w & brk & s' & E & Hw & Hb & Hbrk & Hs')]; [by inversion IH; congruence|].
      destruct w as [|x w].
      * exists [], (c :: brk), s'. rewrite E. repeat split; [constructor|done|by apply Forall_cons_2|done].
      * apply Forall_cons in Hw as [Hx _]. simplify_eq/=. congruence.
    + exists [], [c], (d :: s). repeat split; [constructor|done|by apply Forall_cons_2|done].
  - destruct IH as [IH|(w & brk & s' & -> & Hw & Hr)]; [left; by apply Forall_cons_2|].
    right. exists (c :: w), brk, s'. split; [done|]. split; [by apply Forall_cons_2|done].
Qed.

Section text.
Context {text : BoostText}.

(** Induction over the tokens of a text. *)
Lemma split_ind seps (P : str -> list str -> Prop) :
  (forall w, sep_free seps w -> P w [w]) ->
  (forall w brk s, sep_free seps w -> brk <> [] -> Forall (fun c => is_sep seps c = true) brk ->
     match s with [] => True | c :: _ => is_sep seps c = false end ->
     P s (split seps s) -> P (w ++ brk ++ s) (w :: split seps s)) ->
  forall s, P s (split seps s).
Proof.
  intros Hf Hr s. remember (length s) as n eqn:Hn. revert s Hn.
  induction (lt_wf n) as [n _ IH]. intros s ->.
  destruct (token_cases seps s) as [H|(w & brk & s' & -> & Hw & Hb & Hbrk & Hs')].
  - rewrite split_free by done. by apply Hf.
  - rewrite split_run by done. apply Hr; [done..|]. eapply IH; [|done].
    rewrite !length_app. destruct brk; [done|]. cbn. lia.
Qed.

(** The tokens [split] makes: no separators, and only the first and the last can be
    empty. *)
Fixpoint tokens_ok (ws : list str) : Prop :=
  match ws with
  | [] => False
  | w :: ws =>
      space_free w /\
      match ws with
      | [] => True
      | v :: vs => (v <> [] \/ vs = []) /\ tokens_ok ws
      end
  end.

Lemma split_ok s : tokens_ok (split #" " s).
Proof.
  apply (split_ind #" " (fun s ws => tokens_ok ws /\
    (hd [] ws = [] -> tl ws = [] \/ match s with c :: _ => is_sep #" " c = true | [] => False end))).
  - intros w Hw. repeat split; [done|]. by left.
  - intros w brk s' Hw Hb Hbrk Hs' [IH1 IH2]. split; [split; [done|]|].
    + destruct (split #" " s') as [|v vs] eqn:E; [done|]. split; [|done].
      destruct v as [|c v]; [|by left]. right. destruct (IH2 eq_refl) as [H|H]; [done|]. destruct s'; [done|congruence].
    + cbn. intros ->. right. destruct brk; [done|]. by apply Forall_cons in Hbrk as [? _].
Qed.

Lemma unwords_cons w ws : ws <> [] -> unwords (w :: ws) = w ++ #" " ++ unwords ws.
Proof. by destruct ws. Qed.

Lemma split_unwords ws : tokens_ok ws -> split #" " (unwords ws) = ws.
Proof.
  induction ws as [|w ws IH]; [done|]. intros [Hw H]. destruct ws as [|v vs]; [by apply split_free|].
  destruct H as [Hv H]. rewrite unwords_cons by done. rewrite split_run.
  - f_equal. by apply IH.
  - done.
  - done.
  - by apply Forall_cons_2.
  - destruct v as [|c v].
    + destruct Hv as [Hv| ->]; [done|]. done.
    + destruct H as [Hc _]. apply Forall_cons in Hc as [Hc _]. by destruct vs.
Qed.

(** Words are their own tokens. *)
Lemma words_ok w ws : space_free w -> Forall word ws -> tokens_ok (w :: ws).
Proof.
  revert w. induction ws as [|v ws IH]; intros w Hw H; [done|]. apply Forall_cons in H as [[Hv Hf] H].
  split; [done|]. split; [by left|]. by apply IH.
Qed.

Lemma split_words ws : ws <> [] -> Forall word ws -> split #" " (unwords ws) = ws.
Proof.
  destruct ws as [|w ws]; [done|]. intros _ [[_ Hw] H]%Forall_cons. apply split_unwords. by apply words_ok.
Qed.

Lemma dec_word z : word (dec z).
Proof. split; [apply dec_nonempty|]. by apply dec_free. Qed.

Lemma number_range t s : in_type t (string_to_number t s).
Proof.
  unfold string_to_number. destruct (lexical_cast t s) eqn:E; [by eapply lexical_range|]. destruct t; cbn; lia.
Qed.

Lemma number_dec t z : in_type t z -> string_to_number t (dec z) = z.
Proof. intros H. unfold string_to_number. by rewrite lexical_dec. Qed.

Lemma number_nil t : string_to_number t [] = 0%Z.
Proof.
  unfold string_to_number. destruct (lexical_cast t []) eqn:E; [|done]. by destruct (lexical_chars _ _ _ E).
Qed.

(** A text that does not look like a number is read as 0. *)
Lemma number_other t s c : In c s -> lexical_char c = false -> string_to_number t s = 0%Z.
Proof.
  intros Hc Hl. unfold string_to_number. destruct (lexical_cast t s) eqn:E; [|done].
  destruct (lexical_chars _ _ _ E) as [_ H]. rewrite List.Forall_forall in H. specialize (H c Hc). congruence.
Qed.

End text.

(** ** A reference instance *)

(** [cur] is the token being read. *)
Fixpoint ref_split (seps cur s : str) : list str :=
  match s with
  | [] => [cur]
  | c :: s =>
      if is_sep seps c then
        match s with
        | [] => [cur; []]
        | d :: _ => if is_sep seps d then ref_split seps cur s else cur :: ref_split seps [] s
        end
      else ref_split seps (cur ++ [c]) s
  end.

Definition ref_number (s : str) : option Z :=
  match s with
  | [] => None
  | c :: s' =>
      if Ascii.eqb c "-" then
        if forallb (fun c => match digit_val c with Some _ => true | None => false end) s' then Some (- atoi_digits 0 s')%Z else None
      else
        if forallb (fun c => match digit_val c with Some _ => true | None => false end) s then Some (atoi_digits 0 s) else None
  end.
Definition in_type_b (t : integral) (z : Z) : bool :=
  match t with
  | UShort => (0 <=? z) && (z <? 2 ^ 16)
  | Int => (- 2 ^ 31 <=? z) && (z <? 2 ^ 31)
  | UInt => (0 <=? z) && (z <? 2 ^ 32)
  | ULong => (0 <=? z) && (z <? 2 ^ 64)
  end%Z.
Definition ref_lexical (t : integral) (s : str) : option Z :=
  match ref_number s with Some v => if in_type_b t v then Some v else None | None => None end.

Lemma in_type_spec t z : in_type_b t z = true <-> in_type t z.
Proof. destruct t; cbn [in_type_b in_type]; rewrite andb_true_iff; lia. Qed.

Lemma ref_split_free seps cur w s :
  sep_free seps w -> ref_split seps cur (w ++ s) = ref_split seps (cur ++ w) s.
Proof.
  intros H. revert cur. induction H as [|c w Hc H IH]; intros cur; [by rewrite app_nil_r|].
  cbn [app ref_split]. rewrite Hc, IH, <- app_assoc. done.
Qed.

Lemma ref_split_run seps cur brk s :
  brk <> [] -> Forall (fun c => is_sep seps c = true) brk ->
  match s with [] => True | c :: _ => is_sep seps c = false end ->
  ref_split seps cur (brk ++ s) = cur :: ref_split seps [] s.
Proof.
  intros Hb H Hs. induction H as [|c brk Hc H IH]; [done|]. cbn [app ref_split]. rewrite Hc.
  destruct brk as [|d brk]; cbn [app].
  - destruct s as [|d s]; [done|]. by rewrite Hs.
  - apply Forall_cons in H as H'. destruct H' as [-> _]. by apply IH.
Qed.

Lemma ref_number_dec z : ref_number (dec z) = Some z.
Proof.
  assert (Hd : forall z, forallb (fun c => match digit_val c with Some _ => true | None => false end) (dec_nat z) = true).
  { intros z'. apply forallb_forall. intros c Hc. pose proof (dec_nat_digits z') as H. rewrite List.Forall_forall in H.
    destruct (H c Hc) as [d Hdc]. by rewrite Hdc. }
  unfold dec. destruct (Z.ltb_spec z 0).
  - change (#"-" ++ dec_nat (- z)) with ("-"%char :: dec_nat (- z)). unfold ref_number.
    change (Ascii.eqb "-" "-") with true. cbv iota. rewrite Hd, dec_nat_value by lia. f_equal. lia.
  - pose proof (dec_nonempty z) as Hn. unfold dec in Hn. rewrite (proj2 (Z.ltb_ge _ _)) in Hn by lia.
    pose proof (dec_nat_digits z) as H'. specialize (Hd z). pose proof (dec_nat_value z ltac:(lia)) as Hv.
    destruct (dec_nat z) as [|c s]; [done|]. unfold ref_number. rewrite Hd, Hv.
    destruct (Ascii.eqb_spec c "-") as [->|]; [|done]. apply Forall_cons in H' as [[d Hc] _]. by vm_compute in Hc.
Qed.

Lemma ref_number_chars s v : ref_number s = Some v -> s <> [] /\ Forall (fun c => lexical_char c = true) s.
Proof.
  assert (Hd : forall s, forallb (fun c => match digit_val c with Some _ => true | None => false end) s = true ->
    Forall (fun c => lexical_char c = true) s).
  { intros s' H. apply List.Forall_forall. intros c Hc. rewrite forallb_forall in H. specialize (H c Hc).
    unfold lexical_char. by destruct (digit_val c). }
  destruct s as [|c s]; [done|]. unfold ref_number. intros H. split; [done|].
  destruct (Ascii.eqb_spec c "-") as [->|].
  - apply Forall_cons_2; [done|]. apply Hd. by destruct (forallb _ s).
  - apply Hd. by destruct (forallb _ (c :: s)).
Qed.

#[export, refine] Instance text_reference : BoostText := {| split := fun seps s => ref_split seps [] s; lexical_cast := ref_lexical |}.
Proof.
  - intros seps w H. rewrite <- (app_nil_r w) at 1. by rewrite ref_split_free.
  - intros seps w brk s Hw Hb Hbrk Hs. rewrite ref_split_free by done. by apply ref_split_run.
  - intros t s v. unfold ref_lexical. destruct (ref_number s); [|done]. destruct (in_type_b t z) eqn:E; [|done].
    intros [= <-]. by apply in_type_spec.
  - intros t s v. unfold ref_lexical. destruct (ref_number s) eqn:E; [|done]. intros _. by eapply ref_number_chars.
  - intros t v H. unfold ref_lexical. rewrite ref_number_dec. apply in_type_spec in H. by rewrite H.
Defined.
