(* ===== verification/SdpHeaders.v ===== *)
(** * Header lists of a session description

    [SDPHeader] and [SDPHeaderList] of src/sdp/SDPHeader.cpp, src/sdp/SDPHeaderList.cpp
    and their headers: lines of a letter, an equals sign and a text, the state machine
    that reads them from a C string, and their output. *)

From S2P Require Import Prelude Abnf AbnfFacts AbnfSearch CoreStrings CMem.
Open Scope nat_scope.

Definition NUL : ascii := chr 0.

(** ** SDPHeader *)

Record SDPHeader := mkSDPHeader { hdr_name : ascii; hdr_value : str }.
#[export] Instance eta_header : Settable SDPHeader := fun h => mkSDPHeader (hdr_name h) (hdr_value h).
#[export] Instance header_eq_dec : EqDecision SDPHeader.
Proof. solve_decision. Defined.

(** The constructor from a name and a C string. *)
Definition new_header (name : ascii) (value : str) : SDPHeader := mkSDPHeader name (cstr value).

(** [SDPHeader::parse] of a C string with the text [rawHeader]: the character at
    the start and the text two characters further on, which has to be inside. *)
Definition header_parse (rawHeader : str) : cres SDPHeader :=
  match rawHeader with
  | name :: _ :: value => Val (new_header name value)
  | _ => Fault
  end.

Definition header_toString (h : SDPHeader) : str :=
  if negb (Ascii.eqb (hdr_name h) NUL) && negb (bool_decide (hdr_value h = []))
  then hdr_name h :: #"=" ++ hdr_value h
  else [].

(** [operator ==] and [operator <]; strings compare their characters as unsigned ones. *)
Definition header_eqb (a b : SDPHeader) : bool :=
  Ascii.eqb (hdr_name a) (hdr_name b) && bool_decide (hdr_value a = hdr_value b).
Fixpoint str_ltb (a b : str) : bool :=
  match a, b with
  | _, [] => false
  | [], _ :: _ => true
  | x :: a, y :: b => (uchar x <? uchar y)%Z || (uchar x =? uchar y)%Z && str_ltb a b
  end.
Definition header_ltb (a b : SDPHeader) : bool := str_ltb (header_toString a) (header_toString b).

(** ** SDPHeaderList *)

Inductive ParserState :=
| STATE_EXPECTING_NAME
| STATE_EXPECTING_EQUAL
| STATE_EXPECTING_BODY
| STATE_EXPECTING_LINE_END_OR_NAME.

Record SDPHeaderList := mkSDPHeaderList {
  headers : list SDPHeader;
  parserState : ParserState;
  isValid : bool;
  exitName : ascii;
  tail : str
}.
#[export] Instance eta_list : Settable SDPHeaderList := fun l =>
  mkSDPHeaderList (headers l) (parserState l) (isValid l) (exitName l) (tail l).

(** The two constructors before anything is parsed. *)
Definition empty_list (exitName : ascii) : SDPHeaderList :=
  mkSDPHeaderList [] STATE_EXPECTING_NAME false exitName [].

(** [is_char] of a signed [char]. *)
Definition is_char (c : ascii) : bool := (0 <=? schar c)%Z && (schar c <=? 127)%Z.
Definition is_eol (c : ascii) : bool := Ascii.eqb c CR || Ascii.eqb c LF.

Definition push (l : SDPHeaderList) (h : SDPHeader) : SDPHeaderList := l <| headers := headers l ++ [h] |>.

(** The [while] over the characters, from [parserData] on, and what follows it. *)
Fixpoint parse_loop (parserData : str) (name : ascii) (value : str) (l : SDPHeaderList) : SDPHeaderList :=
  let finish :=
    (if negb (Ascii.eqb name NUL) && negb (bool_decide (value = [])) then push l (new_header name value) else l)
      <| isValid := true |> in
  match parserData with
  | [] => finish
  | c :: rest =>
      if Ascii.eqb c NUL then finish
      else
        match parserState l with
        | STATE_EXPECTING_NAME =>
            if is_char c then parse_loop rest c value (l <| parserState := STATE_EXPECTING_EQUAL |>) else l
        | STATE_EXPECTING_EQUAL =>
            if Ascii.eqb c "=" then parse_loop rest name value (l <| parserState := STATE_EXPECTING_BODY |>) else l
        | STATE_EXPECTING_BODY =>
            if is_eol c then parse_loop rest name value (l <| parserState := STATE_EXPECTING_LINE_END_OR_NAME |>)
            else parse_loop rest name (value ++ [c]) l
        | STATE_EXPECTING_LINE_END_OR_NAME =>
            if negb (is_eol c) && is_char c then
              let l := (push l (new_header name value)) <| parserState := STATE_EXPECTING_EQUAL |> in
              if Ascii.eqb c (exitName l) then l <| isValid := true |> <| tail := cstr (c :: rest) |>
              else parse_loop rest c [] l
            else parse_loop rest name value l
        end
  end.

(** [SDPHeaderList::parse]: the headers are added to those there are. *)
Definition list_parse (l : SDPHeaderList) (rawHeader : str) : SDPHeaderList :=
  parse_loop rawHeader NUL [] (l <| parserState := STATE_EXPECTING_NAME |> <| isValid := false |>).

(** The constructor from a C string, also [operator =] of one. *)
Definition new_list (rawHeader : str) (exitName : ascii) : SDPHeaderList := list_parse (empty_list exitName) rawHeader.

Definition list_toString (l : SDPHeaderList) : str :=
  if isValid l then concat (map (fun h => header_toString h ++ CRLF) (headers l)) else [].

(** ** Facts *)

(** What a header has to be to be read back: a name the parser takes for one and a
    text on one line. *)
Definition name_ok (c : ascii) : Prop := is_char c = true /\ is_eol c = false /\ c <> NUL.
Definition value_ok (v : str) : Prop := v <> [] /\ Forall (fun c => is_eol c = false /\ c <> NUL) v.
Definition header_ok (h : SDPHeader) : Prop := name_ok (hdr_name h) /\ value_ok (hdr_value h).

Lemma schar_nul c : schar c = 0%Z -> c = NUL.
Proof.
  intros H.
  assert (E : negb (schar c =? 0)%Z || Ascii.eqb c NUL = true)
    by (apply (ascii_forallb (fun c => negb (schar c =? 0)%Z || Ascii.eqb c NUL)); vm_compute; reflexivity).
  rewrite H in E. by apply Ascii.eqb_eq.
Qed.

Lemma value_nul_free v : value_ok v -> nul_free v.
Proof. intros [_ H]. eapply Forall_impl; [exact H|]. intros c [_ Hc] E. by apply Hc, schar_nul. Qed.

Lemma new_header_ok h : header_ok h -> new_header (hdr_name h) (hdr_value h) = h.
Proof. intros [_ H]. unfold new_header. rewrite cstr_nul_free by by apply value_nul_free. by destruct h. Qed.

Lemma header_toString_ok h : header_ok h -> header_toString h = hdr_name h :: #"=" ++ hdr_value h.
Proof.
  intros [(_ & _ & Hn) [Hv _]]. unfold header_toString. rewrite bool_decide_eq_false_2 by done.
  destruct (Ascii.eqb_spec (hdr_name h) NUL); done.
Qed.

Lemma eqb_neq c d : c <> d -> Ascii.eqb c d = false.
Proof. intros H. by apply Ascii.eqb_neq. Qed.

(** The value of a header is read to the end of its line. *)
Lemma parse_text_body v rest name value l :
  Forall (fun c => is_eol c = false /\ c <> NUL) v -> parserState l = STATE_EXPECTING_BODY ->
  parse_loop (v ++ rest) name value l = parse_loop rest name (value ++ v) l.
Proof.
  intros Hv Hl. revert value. induction Hv as [|c v [He Hn] Hv IH]; intros value; [by rewrite app_nil_r|].
  cbn [app parse_loop]. rewrite eqb_neq, Hl, He by done. rewrite IH. by rewrite <- app_assoc.
Qed.

(** The text of a list of headers. *)
Definition lines (hs : list SDPHeader) : str := concat (map (fun h => header_toString h ++ CRLF) hs).

(** A line after its name: the header is read and still to be stored. *)
Lemma parse_line h rest l :
  header_ok h -> parserState l = STATE_EXPECTING_EQUAL ->
  parse_loop (#"=" ++ hdr_value h ++ CRLF ++ rest) (hdr_name h) [] l =
    parse_loop rest (hdr_name h) (hdr_value h) (l <| parserState := STATE_EXPECTING_LINE_END_OR_NAME |>).
Proof.
  intros [_ [_ Hv]] Hl. change (#"=" ++ hdr_value h ++ CRLF ++ rest) with ("="%char :: hdr_value h ++ CRLF ++ rest). cbn [parse_loop]. rewrite Hl. cbn [Ascii.eqb Bool.eqb].
  change (Ascii.eqb "=" NUL) with false. cbv iota.
  rewrite parse_text_body by done. unfold CRLF. cbn [app parse_loop].
  by change (Ascii.eqb CR NUL) with false; change (Ascii.eqb LF NUL) with false.
Qed.

(** The header that has been read is stored when the next line begins. *)
Lemma parse_next h0 h rest l :
  header_ok h0 -> header_ok h -> hdr_name h <> exitName l -> parserState l = STATE_EXPECTING_LINE_END_OR_NAME ->
  parse_loop (header_toString h ++ CRLF ++ rest) (hdr_name h0) (hdr_value h0) l =
    parse_loop rest (hdr_name h) (hdr_value h) (push l h0).
Proof.
  intros H0 H He Hl. rewrite header_toString_ok by done. pose proof H as [(Hc & Hn & Hz) _].
  rewrite <- app_comm_cons. cbn [parse_loop]. rewrite eqb_neq, Hl, Hn, Hc by done. cbn [negb andb].
  rewrite new_header_ok by done. cbn zeta.
  change (exitName ((push l h0) <| parserState := STATE_EXPECTING_EQUAL |>)) with (exitName l). rewrite eqb_neq by done.
  rewrite <- app_assoc, parse_line by done. f_equal. destruct l. cbn in Hl. by subst.
Qed.

Lemma parse_lines hs h0 rest l :
  header_ok h0 -> Forall header_ok hs -> Forall (fun h => hdr_name h <> exitName l) hs ->
  parserState l = STATE_EXPECTING_LINE_END_OR_NAME ->
  exists init h1, h0 :: hs = init ++ [h1] /\ header_ok h1 /\
    parse_loop (lines hs ++ rest) (hdr_name h0) (hdr_value h0) l =
      parse_loop rest (hdr_name h1) (hdr_value h1) (l <| headers := headers l ++ init |>).
Proof.
  intros H0 Hs. revert h0 l H0. induction Hs as [|h hs H Hs IH]; intros h0 l H0 He Hl.
  - exists [], h0. split; [done|]. split; [done|]. f_equal. rewrite app_nil_r. by destruct l.
  - apply Forall_cons in He as [He He']. destruct (IH h (push l h0) H He' Hl) as (init & h1 & E & H1 & Ep).
    exists (h0 :: init), h1. split; [by rewrite E|]. split; [done|].
    change (lines (h :: hs)) with ((header_toString h ++ CRLF) ++ lines hs).
    rewrite <- !app_assoc, parse_next by done. rewrite Ep.
    f_equal. cbn. by rewrite <- app_assoc.
Qed.

(** The first line. *)
Lemma parse_start h rest l :
  header_ok h -> parserState l = STATE_EXPECTING_NAME ->
  parse_loop (header_toString h ++ CRLF ++ rest) NUL [] l =
    parse_loop rest (hdr_name h) (hdr_value h) (l <| parserState := STATE_EXPECTING_LINE_END_OR_NAME |>).
Proof.
  intros H Hl. rewrite header_toString_ok by done. pose proof H as [(Hc & Hn & Hz) _].
  rewrite <- app_comm_cons. cbn [parse_loop]. rewrite eqb_neq, Hl, Hc by done.
  rewrite <- app_assoc. by rewrite parse_line.
Qed.

(** What is read of the lines of headers and what follows them: the end of the
    text, or a line with the exit name. *)
Lemma list_parse_lines h hs rest exit :
  header_ok h -> Forall header_ok hs -> Forall (fun h => hdr_name h <> exit) hs ->
  rest = [] \/ (exists r, rest = exit :: r /\ name_ok exit /\ nul_free rest) ->
  headers (new_list (lines (h :: hs) ++ rest) exit) = h :: hs /\
  isValid (new_list (lines (h :: hs) ++ rest) exit) = true /\
  tail (new_list (lines (h :: hs) ++ rest) exit) = rest.
Proof.
  intros H Hs He Hr. unfold new_list, list_parse. change (lines (h :: hs)) with ((header_toString h ++ CRLF) ++ lines hs).
  rewrite <- !app_assoc, parse_start by done.
  set (l := _ <| parserState := _ |>). destruct (parse_lines hs h rest l H Hs He eq_refl) as (init & h1 & E & H1 & ->).
  rewrite E. subst l. destruct Hr as [->|(r & -> & (Hc & Hn & Hz) & Hf)].
  - cbn [parse_loop]. pose proof H1 as [(_ & _ & Hz) [Hv _]].
    rewrite eqb_neq, bool_decide_eq_false_2, new_header_ok by done. done.
  - cbn [parse_loop]. rewrite eqb_neq by done. cbn [parserState]. rewrite Hn, Hc. cbn [negb andb].
    rewrite new_header_ok by done. cbn zeta. rewrite cstr_nul_free by done. cbn. by rewrite Ascii.eqb_refl.
Qed.
