(* ===== verification/SdpMedia.v ===== *)
(** * Media descriptions

    The class [SDPMedia] of src/sdp/SDPMedia.cpp and include/OSS/SDP/SDPMedia.h: a list
    of headers that begins with the media line, and members that keep what has been
    read from it.  A getter is a function of the object that returns the object with
    what it has kept.  [OSS_VERIFY] stops the program: a failed one is an [Abort].
    A parameter of type [const char*] is its text. *)

From S2P Require Import Prelude Abnf AbnfFacts AbnfSearch CoreStrings CMem SdpText SdpHeaders.
Open Scope nat_scope.

Inductive MediaType :=
| TYPE_NONE
| TYPE_AUDIO
| TYPE_VIDEO
| TYPE_FAX
| TYPE_DATA.
Inductive Direction :=
| MEDIA_UNSET
| MEDIA_SEND_AND_RECEIVE
| MEDIA_SEND_ONLY
| MEDIA_RECEIVE_ONLY
| MEDIA_INACTIVE.
Inductive Profile :=
| PROFILE_NONE
| PROFILE_AVP
| PROFILE_AVPF
| PROFILE_SAVP
| PROFILE_SAVPF
| PROFILE_DTLS_SAVP
| PROFILE_DTLS_SAVPF.
#[export] Instance media_type_eq_dec : EqDecision MediaType.
Proof. solve_decision. Defined.
#[export] Instance direction_eq_dec : EqDecision Direction.
Proof. solve_decision. Defined.
#[export] Instance profile_eq_dec : EqDecision Profile.
Proof. solve_decision. Defined.

Record SDPMedia := mkSDPMedia {
  m_list : SDPHeaderList;
  dataPort : Z;
  controlPort : Z;
  address : str;
  payloads : list Z;
  mediaType : MediaType;
  ptime : Z;
  direction : Direction;
  profile : Profile
}.
#[export] Instance eta_media : Settable SDPMedia := fun m =>
  mkSDPMedia (m_list m) (dataPort m) (controlPort m) (address m) (payloads m) (mediaType m) (ptime m)
    (direction m) (profile m).

(** ** Construction *)

(** The constructor from a text. *)
Definition new_media (rawHeader : str) : SDPMedia :=
  mkSDPMedia (new_list rawHeader "m") 0 0 [] [] TYPE_NONE 0 MEDIA_UNSET PROFILE_NONE.

(** [reset]; the default constructor calls it on an empty list. *)
Definition media_reset (m : SDPMedia) : SDPMedia :=
  mkSDPMedia
    ((m_list m) <| headers := [mkSDPHeader "m" #"none 0 RTP/AVP"] |> <| isValid := false |> <| tail := [] |>)
    0 0 [] [] TYPE_NONE 0 MEDIA_UNSET PROFILE_NONE.
Definition default_media : SDPMedia :=
  media_reset (mkSDPMedia (empty_list "m") 0 0 [] [] TYPE_NONE 0 MEDIA_UNSET PROFILE_NONE).

(** ** The headers *)

Definition hdrs (m : SDPMedia) : list SDPHeader := headers (m_list m).
Definition set_hdrs (m : SDPMedia) (hs : list SDPHeader) : SDPMedia :=
  m <| m_list := (m_list m) <| headers := hs |> |>.
Definition set_valid (m : SDPMedia) (b : bool) : SDPMedia := m <| m_list := (m_list m) <| isValid := b |> |>.
Definition append (m : SDPMedia) (h : SDPHeader) : SDPMedia := set_hdrs m (hdrs m ++ [h]).
Definition attribute (value : str) : SDPHeader := mkSDPHeader "a" value.

(** The value of the first header, when it is the media line. *)
Definition m_line (hs : list SDPHeader) : option str :=
  match hs with
  | h :: _ => if Ascii.eqb (hdr_name h) "m" then Some (hdr_value h) else None
  | [] => None
  end.
Definition set_m_line (m : SDPMedia) (value : str) : SDPMedia :=
  match hdrs m with
  | h :: hs => set_hdrs m (h <| hdr_value := value |> :: hs)
  | [] => m
  end.

(** [s.find(key) != npos]. *)
Definition contains (s key : str) : bool := match str_find key s with Some _ => true | None => false end.

Section media.
Context {boost : BoostString} {text : BoostText}.

(** ** The media line *)

Definition read_profile (hs : list SDPHeader) : Profile :=
  match m_line hs with
  | None => PROFILE_NONE
  | Some value =>
      let dtls := contains value #"UDP/TLS" in
      if contains value #"RTP/AVPF" then PROFILE_AVPF
      else if contains value #"RTP/AVP" then PROFILE_AVP
      else if contains value #"RTP/SAVPF" then if negb dtls then PROFILE_SAVPF else PROFILE_DTLS_SAVPF
      else if contains value #"RTP/SAVP" then if negb dtls then PROFILE_SAVP else PROFILE_DTLS_SAVP
      else PROFILE_NONE
  end.
Definition getRTPProfile (m : SDPMedia) : Profile * SDPMedia :=
  if decide (profile m = PROFILE_NONE) then
    let p := read_profile (hdrs m) in (p, m <| profile := p |>)
  else (profile m, m).

Definition profile_text (prof : Profile) : option str :=
  match prof with
  | PROFILE_NONE => None
  | PROFILE_AVP => Some #"RTP/AVP"
  | PROFILE_AVPF => Some #"RTP/AVPF"
  | PROFILE_SAVP => Some #"RTP/SAVP"
  | PROFILE_SAVPF => Some #"RTP/SAVPF"
  | PROFILE_DTLS_SAVP => Some #"UDP/TLS/RTP/SAVP"
  | PROFILE_DTLS_SAVPF => Some #"UDP/TLS/RTP/SAVPF"
  end.
(** The [for] over the tokens: the third one is replaced and followed by a space,
    the others but the last are followed by one. *)
Fixpoint profile_line (i : nat) (tokens : list str) (prof : str) : str :=
  match tokens with
  | [] => []
  | t :: ts =>
      (if i =? 2 then prof ++ #" " else t ++ (if bool_decide (ts = []) then [] else #" ")) ++ profile_line (S i) ts prof
  end.
Definition setRTPProfile (m : SDPMedia) (prof : Profile) : cres SDPMedia :=
  if decide (prof = profile m) then Val m
  else
    match profile_text prof with
    | None => Abort
    | Some text =>
        let m := m <| profile := prof |> in
        match m_line (hdrs m) with
        | Some value => Val (set_m_line m (profile_line 0 (string_tokenize value #" ") text))
        | None => Val m
        end
    end.

Definition read_type (hs : list SDPHeader) : MediaType :=
  match m_line hs with
  | None => TYPE_NONE
  | Some value =>
      if string_caseless_starts_with value #"audio" then TYPE_AUDIO
      else if string_caseless_starts_with value #"video" then TYPE_VIDEO
      else if string_caseless_starts_with value #"image" then TYPE_FAX
      else if string_caseless_starts_with value #"data" then TYPE_DATA
      else TYPE_NONE
  end.
Definition getMediaType (m : SDPMedia) : MediaType * SDPMedia :=
  if decide (mediaType m = TYPE_NONE) then
    let t := read_type (hdrs m) in (t, m <| mediaType := t |>)
  else (mediaType m, m).

Definition type_text (type : MediaType) : option str :=
  match type with
  | TYPE_NONE => None
  | TYPE_AUDIO => Some #"audio"
  | TYPE_VIDEO => Some #"video"
  | TYPE_FAX => Some #"image"
  | TYPE_DATA => Some #"data"
  end.
Definition setMediaType (m : SDPMedia) (type : MediaType) : cres SDPMedia :=
  if decide (type = mediaType m) then Val m
  else
    match type_text type with
    | None => Abort
    | Some mt =>
        match m_line (hdrs m) with
        | Some value =>
            match str_find #" " value with
            | Some index =>
                if index <? length value then
                  Val ((set_m_line m (mt ++ string_right value (length value - index))) <| mediaType := type |>)
                else Val m
            | None => Val m
            end
        | None => Val m
        end
    end.

Definition read_payloads (hs : list SDPHeader) : list Z :=
  match m_line hs with
  | None => []
  | Some value =>
      let tokens := string_tokenize value #" " in
      if 3 <? length tokens then map (string_to_number Int) (drop 3 tokens) else []
  end.
Definition getPayloads (m : SDPMedia) : list Z * SDPMedia :=
  match payloads m with
  | _ :: _ => (payloads m, m)
  | [] => let ps := read_payloads (hdrs m) in (ps, m <| payloads := ps |>)
  end.

(** The line that [setPayloads] and [removePayload] write. *)
Definition payload_line (tokens : list str) (ps : list Z) : str :=
  nth 0 tokens [] ++ #" " ++ nth 1 tokens [] ++ #" " ++ nth 2 tokens [] ++ #" " ++ unwords (map dec ps).
Definition setPayloads (m : SDPMedia) (ps : list Z) : SDPMedia :=
  match m_line (hdrs m) with
  | Some value =>
      let tokens := string_tokenize value #" " in
      if 3 <=? length tokens then
        set_valid ((set_m_line m (payload_line tokens ps)) <| payloads := ps |>) (negb (bool_decide (ps = [])))
      else m
  | None => m
  end.

Definition addPayload (m : SDPMedia) (payload : Z) : cres (bool * SDPMedia) :=
  if negb (payload <=? 255)%Z then Abort
  else
    let '(ps, m) := getPayloads m in
    if existsb (Z.eqb payload) ps then Val (false, m)
    else
      let m := match m_line (hdrs m) with
        | Some value => (set_m_line m (value ++ #" " ++ dec payload)) <| payloads := ps ++ [payload] |>
        | None => m
        end in
      Val (true, set_valid m (negb (bool_decide (payloads m = [])))).

Definition removePayload (m : SDPMedia) (payload : Z) : SDPMedia :=
  match payloads m with
  | [] => m
  | _ :: _ =>
      let m := match m_line (hdrs m) with
        | Some value =>
            let tokens := string_tokenize value #" " in
            if 3 <=? length tokens then
              let ps := List.filter (fun p => negb (p =? payload)%Z) (payloads m) in
              (set_m_line m (payload_line tokens ps)) <| payloads := ps |>
            else m
        | None => m
        end in
      set_valid m (negb (bool_decide (payloads m = [])))
  end.

Definition hasPayload (m : SDPMedia) (payload : Z) : bool * SDPMedia :=
  let m := match payloads m with [] => snd (getPayloads m) | _ :: _ => m end in
  (existsb (Z.eqb payload) (payloads m), m).

Definition read_dataPort (hs : list SDPHeader) : Z :=
  match m_line hs with
  | None => 0%Z
  | Some value =>
      let tokens := string_tokenize value #" " in
      if 2 <? length tokens then
        let port := nth 1 tokens [] in
        if negb (contains port #"/") then string_to_number UShort port
        else
          let subTokens := string_tokenize port #"/" in
          if length subTokens =? 2 then string_to_number UShort (nth 0 subTokens []) else 0%Z
      else 0%Z
  end.
Definition getDataPort (m : SDPMedia) : Z * SDPMedia :=
  if negb (dataPort m =? 0)%Z then (dataPort m, m)
  else let p := read_dataPort (hdrs m) in (p, m <| dataPort := p |>).

Definition setDataPort (m : SDPMedia) (port : Z) : cres SDPMedia :=
  match m_line (hdrs m) with
  | None => Abort
  | Some value =>
      let tokens := string_tokenize value #" " in
      if 2 <? length tokens then
        Val ((set_m_line m (unwords (<[1 := dec port]> tokens))) <| dataPort := port |>)
      else Val m
  end.

(** ** The connection line *)

Fixpoint find_header (name : ascii) (hs : list SDPHeader) : str :=
  match hs with
  | [] => []
  | h :: hs => if Ascii.eqb (hdr_name h) name then hdr_value h else find_header name hs
  end.
(** The address of a connection line. *)
Definition connection_address (data : str) : str :=
  match data with
  | [] => []
  | _ :: _ => let tokens := string_tokenize data #" " in if length tokens =? 3 then nth 2 tokens [] else []
  end.
Definition read_address (hs : list SDPHeader) : str := connection_address (find_header "c" hs).
Definition getAddress (m : SDPMedia) : str * SDPMedia :=
  match address m with
  | _ :: _ => (address m, m)
  | [] => let a := read_address (hdrs m) in (a, m <| address := a |>)
  end.

(** The headers behind the media line with the connection line [c] set. *)
Definition place_connection (c : SDPHeader) (hs : list SDPHeader) : list SDPHeader :=
  match hs with
  | [] => [c]
  | h :: rest =>
      if Ascii.eqb (hdr_name h) "c" then h <| hdr_value := hdr_value c |> :: rest
      else if Ascii.eqb (hdr_name h) "i" then h :: c :: rest
      else c :: h :: rest
  end.
Definition internalSetAddress (m : SDPMedia) (addr : str) (isV4 : bool) : SDPMedia :=
  match hdrs m with
  | h :: hs =>
      if Ascii.eqb (hdr_name h) "m" then
        let c := mkSDPHeader "c" ((if isV4 then #"IN IP4 " else #"IN IP6 ") ++ addr) in
        set_hdrs (m <| address := addr |>) (h :: place_connection c hs)
      else m
  | [] => m
  end.
Definition setAddressV4 (m : SDPMedia) (addr : str) : SDPMedia := internalSetAddress m addr true.
Definition setAddressV6 (m : SDPMedia) (addr : str) : SDPMedia := internalSetAddress m addr false.

(** ** Attributes *)

(** An attribute line that begins with a key. *)
Definition matches (key : str) (h : SDPHeader) : bool :=
  Ascii.eqb (hdr_name h) "a" && string_caseless_starts_with (hdr_value h) key.

(** The first header that satisfies a test, with those before and behind it. *)
Fixpoint find_split (p : SDPHeader -> bool) (hs : list SDPHeader) : option (list SDPHeader * SDPHeader * list SDPHeader) :=
  match hs with
  | [] => None
  | h :: hs =>
      if p h then Some ([], h, hs)
      else match find_split p hs with Some (a, x, b) => Some (h :: a, x, b) | None => None end
  end.
(** The value of the first such header is replaced, or a new attribute is added. *)
Definition put_attribute (p : SDPHeader -> bool) (value : str) (hs : list SDPHeader) : list SDPHeader :=
  match find_split p hs with
  | Some (a, h, b) => a ++ h <| hdr_value := value |> :: b
  | None => hs ++ [attribute value]
  end.
(** The first such header is erased. *)
Definition erase_first (p : SDPHeader -> bool) (hs : list SDPHeader) : list SDPHeader :=
  match find_split p hs with
  | Some (a, _, b) => a ++ b
  | None => hs
  end.

Definition getVectorAttributes (m : SDPMedia) (label : str) : list str :=
  let key := label ++ #":" in
  map (fun h => cstr (drop (length key) (hdr_value h))) (List.filter (matches key) (hdrs m)).
Definition setVectorAttributes (m : SDPMedia) (label : str) (attributeVector : list str) : SDPMedia :=
  let key := label ++ #":" in
  set_hdrs m (List.filter (fun h => negb (matches key h)) (hdrs m) ++ map (fun v => attribute (key ++ v)) attributeVector).

(** The last attribute with the label. *)
Definition getUniqueAttribute (m : SDPMedia) (label : str) : bool * str :=
  let v := fold_left (fun _ v => v) (getVectorAttributes m label) [] in
  (negb (bool_decide (v = [])), v).
Definition setUniqueAttribute (m : SDPMedia) (label v : str) : SDPMedia :=
  let key := label ++ #":" in set_hdrs m (put_attribute (matches key) (key ++ v) (hdrs m)).

(** The key of [findAttributeIterator]. *)
Definition payload_key (payload : Z) (attr : str) : str := attr ++ #":" ++ dec payload.

Definition setAttribute (m : SDPMedia) (payload : Z) (attr value : str) : cres SDPMedia :=
  if negb (payload <=? 255)%Z || bool_decide (value = []) then Abort
  else
    let key := payload_key payload attr in
    Val (set_hdrs m (put_attribute (matches key) (key ++ #" " ++ value) (hdrs m))).

(** What follows the first space. *)
Definition after_space (value : str) : option str :=
  match str_find #" " value with
  | Some pos => if pos <? length value then Some (cstr (drop (pos + 1) value)) else None
  | None => None
  end.
Definition getAttribute (m : SDPMedia) (payload : Z) (attr : str) : cres str :=
  if negb (payload <=? 255)%Z then Abort
  else
    match find_split (matches (payload_key payload attr)) (hdrs m) with
    | Some (_, h, _) => Val (default [] (after_space (hdr_value h)))
    | None => Val []
    end.
Definition removeAttribute (m : SDPMedia) (payload : Z) (attr : str) : cres SDPMedia :=
  if negb (payload <=? 255)%Z then Abort
  else Val (set_hdrs m (erase_first (matches (payload_key payload attr)) (hdrs m))).

Definition setRTPMap (m : SDPMedia) (payload : Z) (value : str) : cres SDPMedia := setAttribute m payload #"rtpmap" value.
Definition getRTPMap (m : SDPMedia) (payload : Z) : cres str := getAttribute m payload #"rtpmap".
Definition removeRTPMap (m : SDPMedia) (payload : Z) : cres SDPMedia := removeAttribute m payload #"rtpmap".
Definition setFTMP (m : SDPMedia) (payload : Z) (value : str) : cres SDPMedia := setAttribute m payload #"fmtp" value.
Definition getFMTP (m : SDPMedia) (payload : Z) : cres str := getAttribute m payload #"fmtp".
Definition removeFMTP (m : SDPMedia) (payload : Z) : cres SDPMedia := removeAttribute m payload #"fmtp".

(** The value of a common attribute: what follows the first space, or else the
    first colon. *)
Definition common_value (value : str) : option str :=
  match after_space value with
  | Some v => Some v
  | None =>
      let tokens := string_tokenize value #":" in
      if 2 <=? length tokens then Some (join #":" (drop 1 tokens)) else None
  end.
Fixpoint read_common (key : str) (hs : list SDPHeader) : str :=
  match hs with
  | [] => []
  | h :: hs =>
      if matches key h then
        match common_value (hdr_value h) with
        | Some v => v
        | None => read_common key hs
        end
      else read_common key hs
  end.
Definition getCommonAttribute (m : SDPMedia) (attr : str) : str := read_common (attr ++ #":") (hdrs m).
Definition setCommonAttribute (m : SDPMedia) (attr value : str) : cres SDPMedia :=
  if bool_decide (value = []) then Abort
  else
    let key := attr ++ #":" in
    Val (set_hdrs m (put_attribute (matches key) (key ++ value) (hdrs m))).
Definition removeCommonAttribute (m : SDPMedia) (attr : str) : SDPMedia :=
  set_hdrs m (erase_first (matches (attr ++ #":")) (hdrs m)).

(** ** The control port and the packet time *)

Definition getControlPort (m : SDPMedia) : Z * SDPMedia :=
  if negb (controlPort m =? 0)%Z then (controlPort m, m)
  else
    match getCommonAttribute m #"rtcp" with
    | (_ :: _) as port => let p := string_to_number UShort port in (p, m <| controlPort := p |>)
    | [] =>
        let m := if (dataPort m =? 0)%Z then snd (getDataPort m) else m in
        let m := if negb (dataPort m =? 0)%Z then m <| controlPort := u16 (dataPort m + 1) |> else m in
        (controlPort m, m)
    end.
Definition setControlPort (m : SDPMedia) (port : Z) : cres SDPMedia :=
  if (port =? 0)%Z then Abort
  else m ← setCommonAttribute m #"rtcp" (dec port); Val (m <| controlPort := port |>).
Definition removeControlPort (m : SDPMedia) : SDPMedia := removeCommonAttribute m #"rtcp".

Definition read_ptime (hs : list SDPHeader) : Z :=
  match read_common #"ptime:" hs with
  | [] => 0%Z
  | v => string_to_number UShort v
  end.
Definition getPtime (m : SDPMedia) : Z * SDPMedia :=
  if negb (ptime m =? 0)%Z then (ptime m, m)
  else let p := read_ptime (hdrs m) in (p, m <| ptime := p |>).
Definition setPtime (m : SDPMedia) (p : Z) : cres SDPMedia :=
  if (p =? 0)%Z then Abort
  else m ← setCommonAttribute m #"ptime" (dec p); Val (m <| ptime := p |>).
Definition removePtime (m : SDPMedia) : SDPMedia := removeCommonAttribute m #"ptime".

(** ** Flags and the direction *)

Definition is_flag (flag : str) (h : SDPHeader) : bool :=
  Ascii.eqb (hdr_name h) "a" && bool_decide (hdr_value h = flag).
Definition setFlagAttribute (m : SDPMedia) (flag : str) : SDPMedia :=
  if existsb (is_flag flag) (hdrs m) then m else append m (attribute flag).
Definition hasFlagAttribute (m : SDPMedia) (flag : str) : bool := existsb (is_flag flag) (hdrs m).
Definition removeFlagAttribute (m : SDPMedia) (flag : str) : SDPMedia := set_hdrs m (erase_first (is_flag flag) (hdrs m)).

Definition direction_text (d : Direction) : option str :=
  match d with
  | MEDIA_UNSET => None
  | MEDIA_SEND_AND_RECEIVE => Some #"sendrecv"
  | MEDIA_SEND_ONLY => Some #"sendonly"
  | MEDIA_RECEIVE_ONLY => Some #"recvonly"
  | MEDIA_INACTIVE => Some #"inactive"
  end.
Definition read_direction (hs : list SDPHeader) : Direction :=
  if existsb (is_flag #"sendrecv") hs then MEDIA_SEND_AND_RECEIVE
  else if existsb (is_flag #"sendonly") hs then MEDIA_SEND_ONLY
  else if existsb (is_flag #"recvonly") hs then MEDIA_RECEIVE_ONLY
  else if existsb (is_flag #"inactive") hs then MEDIA_INACTIVE
  else MEDIA_SEND_AND_RECEIVE.
Definition getDirection (m : SDPMedia) : Direction * SDPMedia :=
  if decide (direction m = MEDIA_UNSET) then
    let d := read_direction (hdrs m) in (d, m <| direction := d |>)
  else (direction m, m).
Definition setDirection (m : SDPMedia) (d : Direction) : SDPMedia :=
  if decide (direction m = d) then m
  else
    let m := snd (getDirection m) in
    let m := match direction_text (direction m) with Some flag => removeFlagAttribute m flag | None => m end in
    match direction_text d with Some flag => (setFlagAttribute m flag) <| direction := d |> | None => m end.

(** ** Attributes of the negotiation *)

Definition getICECandidates (m : SDPMedia) : list str := getVectorAttributes m #"candidate".
Definition setIceCandidates (m : SDPMedia) (v : list str) : SDPMedia := setVectorAttributes m #"candidate" v.
Definition getDTLSFingerPrints (m : SDPMedia) : list str := getVectorAttributes m #"fingerprint".
Definition setDTLSFingerPrints (m : SDPMedia) (v : list str) : SDPMedia := setVectorAttributes m #"fingerprint" v.
Definition getSSRC (m : SDPMedia) : list str := getVectorAttributes m #"ssrc".
Definition setSSRC (m : SDPMedia) (v : list str) : SDPMedia := setVectorAttributes m #"ssrc" v.
Definition getICESetup (m : SDPMedia) : bool * str := getUniqueAttribute m #"setup".
Definition setICESetup (m : SDPMedia) (v : str) : SDPMedia := setUniqueAttribute m #"setup" v.
Definition getICEPassword (m : SDPMedia) : bool * str := getUniqueAttribute m #"ice-pwd".
Definition setICEPassword (m : SDPMedia) (v : str) : SDPMedia := setUniqueAttribute m #"ice-pwd" v.
Definition getICEUFrag (m : SDPMedia) : bool * str := getUniqueAttribute m #"ice-ufrag".
Definition setICEUFrag (m : SDPMedia) (v : str) : SDPMedia := setUniqueAttribute m #"ice-ufrag" v.

End media.
