(* ===== verification/SdpSession.v ===== *)
(** * Session descriptions

    The class [SDPSession] of src/sdp/SDPSession.cpp.  The media descriptions of a
    session are shared objects: a session holds pointers to them, a copy of a
    session holds the same pointers, and what one changes the other sees.  The
    objects are in a store, the pointers are positions in it. *)

From S2P Require Import Prelude Abnf AbnfFacts AbnfSearch CoreStrings CMem SdpText SdpHeaders SdpMedia.
Open Scope nat_scope.

Abbreviation store := (list SDPMedia).

Record SDPSession := mkSDPSession {
  s_list : SDPHeaderList;
  mediaDescriptions : list nat
}.
#[export] Instance eta_session : Settable SDPSession := fun s => mkSDPSession (s_list s) (mediaDescriptions s).

Definition s_hdrs (s : SDPSession) : list SDPHeader := headers (s_list s).
Definition set_s_hdrs (s : SDPSession) (hs : list SDPHeader) : SDPSession :=
  s <| s_list := (s_list s) <| headers := hs |> |>.

(** A pointer that points to no object is not followed. *)
Definition load (st : store) (p : nat) : cres SDPMedia := match st !! p with Some m => Val m | None => Fault end.

Section session.
Context {boost : BoostString} {text : BoostText}.

(** ** Construction *)

(** The [while] of the constructor: a description for each media line. *)
Fixpoint media_loop (fuel : nat) (st : store) (ptrs : list nat) (tl : str) : cres (store * list nat * str) :=
  match fuel with
  | O => Endless
  | S fuel =>
      match tl with
      | [] => Val (st, ptrs, tl)
      | _ :: _ =>
          let media := new_media tl in
          media_loop fuel (st ++ [media]) (ptrs ++ [length st]) (tail (m_list media))
      end
  end.
Definition new_session (fuel : nat) (st : store) (session : str) : cres (store * SDPSession) :=
  let l := new_list session "m" in
  '(st, ptrs, tl) ← media_loop fuel st [] (tail l);
  Val (st, mkSDPSession (l <| tail := tl |>) ptrs).

(** [reset] and the default constructor. *)
Definition session_reset (s : SDPSession) : SDPSession :=
  s <| s_list := (s_list s)
    <| headers := [mkSDPHeader "v" #"0"; mkSDPHeader "o" #"_ 0 0 IN IP4 0.0.0.0"; mkSDPHeader "s" #"_"; mkSDPHeader "t" #"0 0"] |>
    <| isValid := true |> <| tail := [] |> |>.
Definition default_session : SDPSession := session_reset (mkSDPSession (empty_list "m") []).

(** ** Output *)

Definition session_toString (st : store) (s : SDPSession) : cres str :=
  (fix go (ptrs : list nat) (strm : str) : cres str :=
     match ptrs with
     | [] => Val strm
     | p :: ptrs => m ← load st p; go ptrs (strm ++ list_toString (m_list m))
     end) (mediaDescriptions s) (list_toString (s_list s)).

(** ** Media descriptions *)

Definition addMedia (s : SDPSession) (media : nat) : SDPSession :=
  s <| mediaDescriptions := mediaDescriptions s ++ [media] |>.

(** The [index]th pointer whose object has a type, with the pointers before and
    behind it; asking an object for its type changes the object. *)
Fixpoint locate (st : store) (type : MediaType) (index : nat) (ptrs : list nat)
    : cres (store * option (list nat * nat * list nat)) :=
  match ptrs with
  | [] => Val (st, None)
  | p :: ptrs =>
      m ← load st p;
      let '(t, m) := getMediaType m in
      let st := <[p := m]> st in
      if decide (t = type) then
        match index with
        | O => Val (st, Some ([], p, ptrs))
        | S index =>
            '(st, r) ← locate st type index ptrs;
            Val (st, match r with Some (a, q, b) => Some (p :: a, q, b) | None => None end)
        end
      else
        '(st, r) ← locate st type index ptrs;
        Val (st, match r with Some (a, q, b) => Some (p :: a, q, b) | None => None end)
  end.
Definition getMedia (st : store) (s : SDPSession) (type : MediaType) (index : nat) : cres (store * option nat) :=
  '(st, r) ← locate st type index (mediaDescriptions s);
  Val (st, match r with Some (_, p, _) => Some p | None => None end).
Definition getMedia_at (s : SDPSession) (index : nat) : option nat := mediaDescriptions s !! index.
Definition removeMedia (st : store) (s : SDPSession) (type : MediaType) (index : nat)
    : cres (store * SDPSession * option nat) :=
  '(st, r) ← locate st type index (mediaDescriptions s);
  Val (st, match r with Some (a, _, b) => s <| mediaDescriptions := a ++ b |> | None => s end,
       match r with Some (_, p, _) => Some p | None => None end).

Fixpoint count_type (st : store) (type : MediaType) (ptrs : list nat) : cres (store * nat) :=
  match ptrs with
  | [] => Val (st, 0)
  | p :: ptrs =>
      if decide (type = TYPE_NONE) then '(st, n) ← count_type st type ptrs; Val (st, S n)
      else
        m ← load st p;
        let '(t, m) := getMediaType m in
        '(st, n) ← count_type (<[p := m]> st) type ptrs;
        Val (st, if decide (t = type) then S n else n)
  end.
Definition getMediaCount (st : store) (s : SDPSession) (type : MediaType) : cres (store * nat) :=
  count_type st type (mediaDescriptions s).

(** ** Session headers *)

Definition findHeader (s : SDPSession) (name : ascii) : str := find_header name (s_hdrs s).
Definition removeHeader (s : SDPSession) (name : ascii) : bool * SDPSession :=
  match find_split (fun h => Ascii.eqb (hdr_name h) name) (s_hdrs s) with
  | Some (a, _, b) => (true, set_s_hdrs s (a ++ b))
  | None => (false, s)
  end.
Definition session_getAddress (s : SDPSession) : str := connection_address (find_header "c" (s_hdrs s)).
Definition changeAddress (s : SDPSession) (addr version : str) : SDPSession :=
  set_s_hdrs s (map (fun h => if Ascii.eqb (hdr_name h) "c" then h <| hdr_value := #"IN " ++ version ++ #" " ++ addr |> else h)
    (s_hdrs s)).
Definition session_setAddressV4 (s : SDPSession) (addr : str) : SDPSession := changeAddress s addr #"IP4".
Definition session_setAddressV6 (s : SDPSession) (addr : str) : SDPSession := changeAddress s addr #"IP6".

(** The six fields of the origin line. *)
Definition getOrigin (s : SDPSession) : option (str * str * str * str * str * str) :=
  match findHeader s "o" with
  | [] => None
  | (_ :: _) as oLine =>
      match string_tokenize oLine #" " with
      | [userName; sessionId; sessionVersion; netType; addressType; unicastAddress] =>
          Some (userName, sessionId, sessionVersion, netType, addressType, unicastAddress)
      | _ => None
      end
  end.

End session.
