(* ===== verification/SdpMediaFacts.v ===== *)
(** * Facts about media descriptions

    The searches of [SDPMedia] on the lines it writes: keys and prefixes, the words
    of the media line, and the headers behind it. *)

From S2P Require Import Prelude Abnf AbnfFacts AbnfSearch CoreStrings CMem SdpText SdpHeaders SdpMedia.
Open Scope nat_scope.

(** ** Prefixes and substrings *)

Lemma is_prefix_app key s : is_prefix key (key ++ s) = true.
Proof. apply is_prefix_spec. by exists s. Qed.

(** A key without the character that ends a word is found in the word or not at all. *)
Lemma is_prefix_word key w c s :
  Forall (fun x => x <> c) key -> is_prefix key (w ++ c :: s) = is_prefix key w.
Proof.
  intros H. revert w. induction H as [|k key Hk H IH]; intros w; [by destruct w|].
  destruct w as [|x w]; cbn [app is_prefix].
  - by rewrite (proj2 (Ascii.eqb_neq _ _)).
  - by rewrite IH.
Qed.

Lemma contains_word key w c s :
  key <> [] -> Forall (fun x => x <> c) key -> contains (w ++ c :: s) key = contains w key || contains s key.
Proof.
  intros Hn H. induction w as [|x w IH]; unfold contains in *.
  - cbn [app str_find]. destruct key as [|k key]; [done|]. apply Forall_cons in H as [Hk _].
    cbn [is_prefix]. rewrite (proj2 (Ascii.eqb_neq _ _)) by done. cbn. by destruct (str_find (k :: key) s).
  - rewrite <- app_comm_cons. rewrite (find_unfold key (x :: w)), (find_unfold key (x :: w ++ c :: s)).
    rewrite app_comm_cons, is_prefix_word by done. destruct (is_prefix key (x :: w)); [done|].
    cbn. revert IH. by destruct (str_find key (w ++ c :: s)), (str_find key w), (str_find key s).
Qed.

Lemma is_prefix_trans a b s : is_prefix (a ++ b) s = true -> is_prefix a s = true.
Proof. rewrite !is_prefix_spec. intros [r ->]. exists (b ++ r). by rewrite app_assoc. Qed.

(** A text without the beginning of a key does not contain the key. *)
Lemma contains_part a b s : contains s a = false -> contains s (a ++ b) = false.
Proof.
  unfold contains. induction s as [|c s IH]; rewrite (find_unfold (a ++ b)), (find_unfold a).
  - destruct (is_prefix (a ++ b) []) eqn:E; [|done]. by rewrite (is_prefix_trans a b) in *.
  - destruct (is_prefix a (c :: s)) eqn:E; [done|]. destruct (is_prefix (a ++ b) (c :: s)) eqn:E'.
    + apply is_prefix_trans in E'. congruence.
    + intros H. destruct (str_find a s); [done|]. cbn. specialize (IH eq_refl). by destruct (str_find (a ++ b) s).
Qed.

(** A text without a character of the key does not contain the key. *)
Lemma contains_without key s c : In c key -> Forall (fun x => x <> c) s -> contains s key = false.
Proof.
  intros Hc H. unfold contains. destruct (str_find key s) as [i|] eqn:E; [|done].
  apply find_some in E as [E _]. apply is_prefix_spec in E as [r E].
  apply (Forall_drop _ i) in H. rewrite E in H. apply Forall_app in H as [H _].
  rewrite List.Forall_forall in H. by destruct (H c Hc).
Qed.

Lemma is_prefix_both a b s : is_prefix a s = true -> is_prefix b s = true -> is_prefix a b = true \/ is_prefix b a = true.
Proof.
  revert b s. induction a as [|x a IH]; intros b s; [by left|]. destruct b as [|y b]; [by right|].
  destruct s as [|c s]; [done|]. cbn [is_prefix]. rewrite !andb_true_iff, !Ascii.eqb_eq. intros [-> Ha] [-> Hb].
  destruct (IH b s Ha Hb); [left|right]; by split.
Qed.

(** The position of the first space of a word and what follows. *)
Lemma find_space w s : space_free w -> str_find #" " (w ++ #" " ++ s) = Some (length w).
Proof.
  intros H. apply (find_first #" " w s). intros j Hj.
  destruct (lookup_lt_is_Some_2 w j Hj) as [c Hc]. rewrite drop_app_le by lia. rewrite (drop_S _ _ _ Hc).
  cbn [app is_prefix lit]. apply (Forall_lookup_1 _ _ _ _ H) in Hc. unfold is_sep in Hc. cbn in Hc.
  rewrite orb_false_r, Ascii.eqb_sym in Hc. change (is_prefix #" " (c :: ?r)) with (Ascii.eqb " " c && true). by rewrite Hc.
Qed.

Lemma find_space_none w : space_free w -> str_find #" " w = None.
Proof.
  intros H. induction H as [|c w Hc H IH]; [done|]. rewrite find_unfold, IH.
  unfold is_sep in Hc. cbn in Hc. rewrite orb_false_r, Ascii.eqb_sym in Hc.
  change (is_prefix #" " (c :: w)) with (Ascii.eqb " " c && true). by rewrite Hc.
Qed.

Lemma after_space_word w s : space_free w -> nul_free s -> after_space (w ++ #" " ++ s) = Some s.
Proof.
  intros Hw Hs. unfold after_space. rewrite find_space by done.
  rewrite (proj2 (Nat.ltb_lt _ _)) by (rewrite !length_app; cbn; lia).
  rewrite app_assoc, drop_app_length' by (rewrite length_app; cbn; lia). by rewrite cstr_nul_free.
Qed.

Lemma after_space_none w : space_free w -> after_space w = None.
Proof. intros H. unfold after_space. by rewrite find_space_none. Qed.

(** ** Searches in headers *)

Lemma find_split_some p hs a h b :
  find_split p hs = Some (a, h, b) -> hs = a ++ h :: b /\ Forall (fun x => p x = false) a /\ p h = true.
Proof.
  revert a h b. induction hs as [|x hs IH]; intros a h b; [done|]. cbn [find_split]. destruct (p x) eqn:E.
  - intros [= <- <- <-]. auto.
  - destruct (find_split p hs) as [[[a' y] b']|]; [|done]. intros [= <- <- <-].
    destruct (IH a' y b' eq_refl) as (-> & Ha & Hy). split; [done|]. split; [by apply Forall_cons_2|done].
Qed.

Lemma find_split_none p hs : find_split p hs = None -> Forall (fun x => p x = false) hs.
Proof.
  induction hs as [|x hs IH]; [constructor|]. cbn [find_split]. destruct (p x) eqn:E; [done|].
  destruct (find_split p hs) as [[[a y] b]|]; [done|]. intros _. apply Forall_cons_2; auto.
Qed.

Lemma find_split_first p a h b :
  Forall (fun x => p x = false) a -> p h = true -> find_split p (a ++ h :: b) = Some (a, h, b).
Proof.
  intros Ha Hh. induction Ha as [|x a Hx Ha IH]; cbn [app find_split]; [by rewrite Hh|]. by rewrite Hx, IH.
Qed.

(** What an edit of the list does: the header that is found gets the value, or a new
    one stands at the end. *)
Lemma put_cases p value hs :
  (exists a h b, hs = a ++ h :: b /\ Forall (fun x => p x = false) a /\ p h = true /\
     put_attribute p value hs = a ++ h <| hdr_value := value |> :: b) \/
  (Forall (fun x => p x = false) hs /\ put_attribute p value hs = hs ++ [attribute value]).
Proof.
  unfold put_attribute. destruct (find_split p hs) as [[[a h] b]|] eqn:E.
  - left. exists a, h, b. apply find_split_some in E as (? & ? & ?). auto.
  - right. split; [by apply find_split_none|done].
Qed.

Lemma erase_cases p hs :
  (exists a h b, hs = a ++ h :: b /\ Forall (fun x => p x = false) a /\ p h = true /\ erase_first p hs = a ++ b) \/
  (Forall (fun x => p x = false) hs /\ erase_first p hs = hs).
Proof.
  unfold erase_first. destruct (find_split p hs) as [[[a h] b]|] eqn:E.
  - left. exists a, h, b. apply find_split_some in E as (? & ? & ?). auto.
  - right. split; [by apply find_split_none|done].
Qed.

Section facts.
Context {boost : BoostString} {text : BoostText}.

(** ** Keys *)

Abbreviation lower := (map tolower).

Lemma caseless_prefix s key : nul_free key -> string_caseless_starts_with s key = is_prefix (lower key) (lower s).
Proof.
  intros H. unfold string_caseless_starts_with. cbn zeta. by rewrite find_is_zero, !to_lower_map, cstr_nul_free.
Qed.

Lemma matches_name key h : matches key h = true -> hdr_name h = "a"%char.
Proof. unfold matches. intros [H _]%andb_true_iff. by apply Ascii.eqb_eq. Qed.

Lemma matches_own key h v : nul_free key -> hdr_name h = "a"%char -> hdr_value h = key ++ v -> matches key h = true.
Proof.
  intros Hk Hn Hv. unfold matches. rewrite Hn, Hv, caseless_prefix, map_app by done. by rewrite is_prefix_app.
Qed.

(** Keys of which no line can have both. *)
Definition apart (k k' : str) : bool := negb (is_prefix (lower k) (lower k')) && negb (is_prefix (lower k') (lower k)).

Lemma apart_matches k k' h : nul_free k -> nul_free k' -> apart k k' = true -> matches k h = true -> matches k' h = false.
Proof.
  intros Hk Hk' [H1 H2]%andb_true_iff. apply negb_true_iff in H1, H2. unfold matches. rewrite !caseless_prefix by done.
  intros [-> Hp]%andb_true_iff. cbn [andb]. apply not_true_iff_false. intros Hp'.
  destruct (is_prefix_both _ _ _ Hp Hp'); congruence.
Qed.

Lemma apart_sym k k' : apart k k' = apart k' k.
Proof. unfold apart. apply andb_comm. Qed.

Lemma apart_app k k' v : apart k k' = true -> apart (k ++ v) k' = true.
Proof.
  unfold apart. rewrite !andb_true_iff, !negb_true_iff, map_app. intros [H1 H2]. split.
  - apply not_true_iff_false. intros H. apply is_prefix_trans in H. congruence.
  - apply not_true_iff_false. intros H. destruct (is_prefix_both _ _ _ H (is_prefix_app (lower k) (lower v))); congruence.
Qed.

(** ** The media line *)

(** The fields of a media line. *)
Record line := mkLine { l_type : str; l_port : str; l_proto : str; l_formats : list Z }.
#[export] Instance eta_line : Settable line := fun l => mkLine (l_type l) (l_port l) (l_proto l) (l_formats l).

Definition line_words (l : line) : list str := l_type l :: l_port l :: l_proto l :: map dec (l_formats l).
Definition line_text (l : line) : str := unwords (line_words l).
Definition media_line (l : line) : SDPHeader := mkSDPHeader "m" (line_text l).

(** No part of a profile. *)
Definition no_profile (w : str) : Prop := contains w #"RTP/" = false /\ contains w #"UDP/TLS" = false.

Record line_ok (l : line) : Prop := {
  ok_type : word (l_type l) /\ no_profile (l_type l);
  ok_number : word (l_port l) /\ no_profile (l_port l);
  ok_proto : word (l_proto l);
  ok_formats : Forall (in_type Int) (l_formats l)
}.

Lemma line_words_ok l : line_ok l -> Forall word (line_words l).
Proof.
  intros H. repeat apply Forall_cons_2; [apply H..|]. apply Forall_map, Forall_true. intros z. apply dec_word.
Qed.

Lemma line_tokens l : line_ok l -> string_tokenize (line_text l) #" " = line_words l.
Proof. intros H. apply split_words; [done|by apply line_words_ok]. Qed.

(** What is read of the words. *)
Definition type_of (w : str) : MediaType :=
  if string_caseless_starts_with w #"audio" then TYPE_AUDIO
  else if string_caseless_starts_with w #"video" then TYPE_VIDEO
  else if string_caseless_starts_with w #"image" then TYPE_FAX
  else if string_caseless_starts_with w #"data" then TYPE_DATA
  else TYPE_NONE.
Definition port_of (w : str) : Z :=
  if negb (contains w #"/") then string_to_number UShort w
  else
    let subTokens := string_tokenize w #"/" in
    if length subTokens =? 2 then string_to_number UShort (nth 0 subTokens []) else 0%Z.
Definition profile_of (w : str) : Profile :=
  let dtls := contains w #"UDP/TLS" in
  if contains w #"RTP/AVPF" then PROFILE_AVPF
  else if contains w #"RTP/AVP" then PROFILE_AVP
  else if contains w #"RTP/SAVPF" then if negb dtls then PROFILE_SAVPF else PROFILE_DTLS_SAVPF
  else if contains w #"RTP/SAVP" then if negb dtls then PROFILE_SAVP else PROFILE_DTLS_SAVP
  else PROFILE_NONE.

Lemma formats_read zs : Forall (in_type Int) zs -> map (string_to_number Int) (map dec zs) = zs.
Proof. induction 1 as [|z zs Hz H IH]; [done|]. cbn [map]. by rewrite number_dec, IH. Qed.

Lemma read_payloads_line l hs : line_ok l -> read_payloads (media_line l :: hs) = l_formats l.
Proof.
  intros H. unfold read_payloads. cbn [m_line media_line hdr_name hdr_value Ascii.eqb Bool.eqb].
  cbn zeta. rewrite line_tokens by done. unfold line_words. cbn [length drop Nat.ltb Nat.leb].
  rewrite drop_0, length_map, formats_read by apply H. by destruct (l_formats l).
Qed.

Lemma read_dataPort_line l hs : line_ok l -> read_dataPort (media_line l :: hs) = port_of (l_port l).
Proof.
  intros H. unfold read_dataPort. cbn [m_line media_line hdr_name hdr_value Ascii.eqb Bool.eqb].
  cbn zeta. by rewrite line_tokens.
Qed.

Lemma line_text_type l : line_text l = l_type l ++ " "%char :: unwords (l_port l :: l_proto l :: map dec (l_formats l)).
Proof. done. Qed.

Lemma caseless_word key w s :
  nul_free key -> Forall (fun c => c <> " "%char) (lower key) ->
  string_caseless_starts_with (w ++ " "%char :: s) key = string_caseless_starts_with w key.
Proof. intros H Hk. rewrite !caseless_prefix, map_app by done. cbn [map]. by apply is_prefix_word. Qed.

Lemma read_type_line l hs : read_type (media_line l :: hs) = type_of (l_type l).
Proof.
  unfold read_type, type_of. cbn [m_line media_line hdr_name hdr_value Ascii.eqb Bool.eqb].
  rewrite line_text_type, !caseless_word by (repeat (apply Forall_cons_2; [discriminate|]); apply Forall_nil_2). done.
Qed.

(** A key is found in the words of the line. *)
Lemma contains_words key ws :
  key <> [] -> Forall (fun x => x <> " "%char) key -> contains (unwords ws) key = existsb (fun w => contains w key) ws.
Proof.
  intros Hk Hs. induction ws as [|w ws IH]; [by destruct key|]. destruct ws as [|v ws].
  - cbn. by rewrite orb_false_r.
  - rewrite unwords_cons by done. change (#" " ++ unwords (v :: ws)) with (" "%char :: unwords (v :: ws)).
    rewrite contains_word by done. cbn [existsb]. by rewrite IH.
Qed.

Lemma dec_contains z key c : In c key -> lexical_char c = false -> contains (dec z) key = false.
Proof.
  intros Hc Hl. apply (contains_without key _ c Hc). eapply Forall_impl; [apply dec_chars|].
  intros x Hx ->. cbn in Hx. congruence.
Qed.

Lemma contains_line key c l :
  key <> [] -> Forall (fun x => x <> " "%char) key -> In c key -> lexical_char c = false ->
  contains (l_type l) key = false -> contains (l_port l) key = false ->
  contains (line_text l) key = contains (l_proto l) key.
Proof.
  intros Hk Hs Hc Hl Ht Hp. unfold line_text. rewrite contains_words by done. unfold line_words. cbn [existsb].
  rewrite Ht, Hp. cbn [orb]. replace (existsb _ (map dec (l_formats l))) with false; [by rewrite orb_false_r|].
  symmetry. apply not_true_iff_false. intros (w & Hw & E)%existsb_exists. apply in_map_iff in Hw as (z & <- & _).
  by rewrite (dec_contains z key c) in E.
Qed.

Lemma no_profile_key w key : no_profile w -> contains w (#"RTP/" ++ key) = false.
Proof. intros [H _]. by apply contains_part. Qed.

Lemma read_profile_line l hs : line_ok l -> read_profile (media_line l :: hs) = profile_of (l_proto l).
Proof.
  intros H. unfold read_profile, profile_of. cbn [m_line media_line hdr_name hdr_value Ascii.eqb Bool.eqb].
  destruct (ok_type l H) as [_ Ht], (ok_number l H) as [_ Hp].
  assert (E : forall key, Forall (fun x => x <> " "%char) key ->
    contains (line_text l) (#"RTP/" ++ key) = contains (l_proto l) (#"RTP/" ++ key)).
  { intros key Hk. apply (contains_line _ "/"%char); [done| |cbn; auto|done|by apply no_profile_key..].
    apply Forall_app. split; [|done]. repeat (apply Forall_cons_2; [discriminate|]); apply Forall_nil_2. }
  assert (E' : contains (line_text l) #"UDP/TLS" = contains (l_proto l) #"UDP/TLS").
  { apply (contains_line _ "/"%char); [done| |cbn; auto 8|done|apply Ht|apply Hp].
    repeat (apply Forall_cons_2; [discriminate|]); apply Forall_nil_2. }
  cbn zeta. change #"RTP/AVPF" with (#"RTP/" ++ #"AVPF"). change #"RTP/AVP" with (#"RTP/" ++ #"AVP").
  change #"RTP/SAVPF" with (#"RTP/" ++ #"SAVPF"). change #"RTP/SAVP" with (#"RTP/" ++ #"SAVP").
  rewrite E', !E by (repeat (apply Forall_cons_2; [discriminate|]); apply Forall_nil_2). done.
Qed.

(** *** Writing the line *)

Definition is_line (m : SDPMedia) (l : line) (rest : list SDPHeader) : Prop :=
  hdrs m = media_line l :: rest /\ line_ok l.
Definition with_line (m : SDPMedia) (l : line) (rest : list SDPHeader) : SDPMedia := set_hdrs m (media_line l :: rest).

Lemma line_read m l rest : is_line m l rest -> m_line (hdrs m) = Some (line_text l).
Proof. by intros [-> _]. Qed.

Lemma line_written m l rest l' :
  is_line m l rest -> set_m_line m (line_text l') = with_line m l' rest.
Proof. intros [E _]. unfold set_m_line. by rewrite E. Qed.

Lemma with_line_ok m l rest : line_ok l -> is_line (with_line m l rest) l rest.
Proof. by split. Qed.

Lemma string_right_drop s n : n <= length s -> string_right s (length s - n) = drop n s.
Proof.
  intros H. unfold string_right. destruct (Nat.leb_spec (length s) (length s - n)).
  - replace n with 0 by lia. by rewrite drop_0.
  - f_equal. lia.
Qed.

Lemma type_text_ok type mt : type_text type = Some mt -> word mt /\ no_profile mt /\ type_of mt = type.
Proof.
  destruct type; intros [= <-]; (split; [split; [discriminate|]|split; [done|]]).
  1,3,5,7: repeat (apply Forall_cons_2; [reflexivity|]); apply Forall_nil_2.
  all: unfold type_of; rewrite !caseless_prefix by (repeat (apply Forall_cons_2; [discriminate|]); apply Forall_nil_2); reflexivity.
Qed.

Lemma set_type_line m l rest type mt :
  is_line m l rest -> type <> mediaType m -> type_text type = Some mt ->
  let l' := l <| l_type := mt |> in
  setMediaType m type = Val ((with_line m l' rest) <| mediaType := type |>) /\ line_ok l'.
Proof.
  intros H Hn Ht l'. destruct (type_text_ok _ _ Ht) as (Hw & Hp & _). split.
  - unfold setMediaType. rewrite decide_False, Ht, (line_read m l rest H) by done.
    pose proof H as [_ Hl]. destruct (ok_type l Hl) as [[_ Hf] _].
    rewrite line_text_type. change (" "%char :: ?x) with (#" " ++ x). rewrite find_space by done.
    rewrite (proj2 (Nat.ltb_lt _ _)) by (rewrite !length_app; cbn; lia).
    rewrite string_right_drop by (rewrite length_app; lia). rewrite drop_app_length.
    change (mt ++ #" " ++ _) with (line_text l'). by rewrite (line_written m l rest).
  - destruct H as [_ []]. by constructor.
Qed.

Lemma set_port_line m l rest port :
  is_line m l rest ->
  let l' := l <| l_port := dec port |> in
  setDataPort m port = Val ((with_line m l' rest) <| dataPort := port |>) /\ line_ok l'.
Proof.
  intros H l'. split.
  - unfold setDataPort. rewrite (line_read m l rest H). pose proof H as [_ Hl].
    cbn zeta. rewrite line_tokens by done. cbn [line_words length Nat.ltb Nat.leb insert list_insert].
    change (unwords _) with (line_text l'). by rewrite (line_written m l rest).
  - destruct H as [_ []]. constructor; [done| |done..]. split; [apply dec_word|].
    split; apply (dec_contains _ _ "/"%char); done || (cbn; auto 8).
Qed.

Lemma port_of_dec port : (0 <= port < 2 ^ 16)%Z -> port_of (dec port) = port.
Proof.
  intros H. unfold port_of. rewrite (dec_contains _ _ "/"%char) by (done || (cbn; auto)). by apply number_dec.
Qed.

Lemma profile_line_text a b c ws prof :
  ws <> [] -> profile_line 0 (a :: b :: c :: ws) prof = unwords (a :: b :: prof :: ws).
Proof.
  intros Hw. assert (H : forall ws i, ws <> [] -> 2 < i -> profile_line i ws prof = unwords ws).
  { clear. induction ws as [|w ws IH]; intros i Hw Hi; [done|]. cbn [profile_line].
    rewrite (proj2 (Nat.eqb_neq i 2)) by lia. destruct ws as [|v ws].
    - cbn. by rewrite !app_nil_r.
    - rewrite bool_decide_eq_false_2 by done. rewrite IH by (done || lia). by rewrite (unwords_cons w), <- app_assoc by done. }
  cbn [profile_line Nat.eqb]. rewrite !bool_decide_eq_false_2, H by (done || lia).
  rewrite !unwords_cons by done. by rewrite <- !app_assoc.
Qed.

Lemma profile_text_ok prof w : profile_text prof = Some w -> word w /\ profile_of w = prof.
Proof.
  destruct prof; intros [= <-]; (split; [split; [discriminate|]|done]);
    repeat (apply Forall_cons_2; [reflexivity|]); apply Forall_nil_2.
Qed.

Lemma set_profile_line m l rest prof w :
  is_line m l rest -> l_formats l <> [] -> prof <> profile m -> profile_text prof = Some w ->
  let l' := l <| l_proto := w |> in
  setRTPProfile m prof = Val (with_line (m <| profile := prof |>) l' rest) /\ line_ok l'.
Proof.
  intros H Hf Hn Ht l'. destruct (profile_text_ok _ _ Ht) as [Hw _]. split.
  - unfold setRTPProfile. rewrite decide_False, Ht by done. cbn zeta.
    change (hdrs (m <| profile := prof |>)) with (hdrs m). rewrite (line_read m l rest H). pose proof H as [E Hl].
    rewrite line_tokens by done. unfold line_words. rewrite profile_line_text by (by destruct (l_formats l)).
    change (unwords _) with (line_text l'). by rewrite (line_written _ l rest).
  - destruct H as [_ []]. by constructor.
Qed.

Lemma payload_line_text l ps : ps <> [] -> payload_line (line_words l) ps = line_text (l <| l_formats := ps |>).
Proof.
  intros H. unfold payload_line, line_words, line_text. cbn [nth line_words l_type l_port l_proto l_formats].
  destruct ps; [done|]. reflexivity.
Qed.

Lemma formats_ok l ps : line_ok l -> Forall (in_type Int) ps -> line_ok (l <| l_formats := ps |>).
Proof. intros []. by constructor. Qed.

Lemma set_payloads_line m l rest ps :
  is_line m l rest -> ps <> [] ->
  setPayloads m ps = set_valid ((with_line m (l <| l_formats := ps |>) rest) <| payloads := ps |>) true.
Proof.
  intros H Hp. unfold setPayloads. rewrite (line_read m l rest H). pose proof H as [_ Hl]. cbn zeta.
  rewrite line_tokens by done. change (3 <=? length (line_words l)) with true. cbv iota.
  rewrite payload_line_text, (line_written m l rest), bool_decide_eq_false_2 by done. done.
Qed.

Lemma remove_payload_line m l rest x :
  is_line m l rest -> payloads m <> [] -> List.filter (fun p => negb (p =? x)%Z) (payloads m) <> [] ->
  let ps := List.filter (fun p => negb (p =? x)%Z) (payloads m) in
  removePayload m x = set_valid ((with_line m (l <| l_formats := ps |>) rest) <| payloads := ps |>) true.
Proof.
  intros H Hm Hp ps. unfold removePayload. rewrite (line_read m l rest H). pose proof H as [_ Hl]. cbn zeta.
  rewrite line_tokens by done. change (3 <=? length (line_words l)) with true. cbv iota. fold ps.
  rewrite payload_line_text, (line_written m l rest) by done.
  cbn [payloads set_valid]. destruct (payloads m); [done|]. cbn. by rewrite bool_decide_eq_false_2.
Qed.

Lemma line_text_snoc l x : line_text (l <| l_formats := l_formats l ++ [x] |>) = line_text l ++ #" " ++ dec x.
Proof.
  assert (H : forall ws w, ws <> [] -> unwords (ws ++ [w]) = unwords ws ++ #" " ++ w).
  { clear. induction ws as [|v ws IH]; intros w Hw; [done|]. destruct ws as [|u ws]; [done|].
    rewrite <- app_comm_cons, !unwords_cons, IH by (done || by destruct ws). by rewrite <- !app_assoc. }
  unfold line_text. rewrite <- H by done. f_equal. destruct l. unfold line_words. cbn -[dec].
  by rewrite map_app.
Qed.

Lemma add_payload_line m l rest x ps :
  is_line m l rest -> (x <= 255)%Z -> ps = l_formats l -> payloads m = ps \/ payloads m = [] ->
  existsb (Z.eqb x) ps = false ->
  addPayload m x = Val (true, set_valid ((with_line m (l <| l_formats := ps ++ [x] |>) rest) <| payloads := ps ++ [x] |>) true).
Proof.
  intros H Hx -> Hc Hn. unfold addPayload. rewrite (proj2 (Z.leb_le _ _)) by done. cbn [negb].
  assert (E : getPayloads m = (l_formats l, m <| payloads := l_formats l |>)).
  { unfold getPayloads. pose proof H as [E Hl]. rewrite E, read_payloads_line by done.
    destruct Hc as [Hc|Hc]; rewrite Hc; [|done]. destruct (l_formats l) eqn:Ef; [done|].
    rewrite <- Hc. by destruct m. }
  rewrite E, Hn. cbn zeta. change (hdrs (m <| payloads := l_formats l |>)) with (hdrs m). rewrite (line_read m l rest H).
  rewrite <- line_text_snoc, (line_written _ l rest) by exact H. cbn. f_equal. f_equal. f_equal.
  rewrite bool_decide_eq_false_2; [done|]. by destruct (l_formats l).
Qed.

End facts.
