(* ===== verification/SdpCoherence.v ===== *)
(** * What a media description keeps and what its text says

    The members of [SDPMedia] keep what has been read from the headers.  This file
    relates the two: what the getters return against what the headers say, the parts of
    the headers each of them depends on, and what each operation changes of them. *)

From S2P Require Import Prelude Abnf AbnfFacts AbnfSearch CoreStrings CMem SdpText SdpHeaders SdpMedia SdpMediaFacts.
Open Scope nat_scope.

(** A test that only looks at part of the headers. *)
Abbreviation keep := List.filter.

Section lists.
Variables (p q : SDPHeader -> bool).

(** Edits of headers that [q] does not select. *)
Lemma keep_put value hs :
  (forall h, p h = true -> hdr_name h = "a"%char /\ q h = false) -> q (attribute value) = false ->
  keep q (put_attribute p value hs) = keep q hs.
Proof.
  intros Hp Hv. destruct (put_cases p value hs) as [(a & h & b & -> & _ & Hh & ->)|[_ ->]].
  - rewrite !List.filter_app. cbn [List.filter]. destruct (Hp h Hh) as [Hn Hq]. rewrite Hq.
    replace (h <| hdr_value := value |>) with (attribute value) by (destruct h; cbn in *; by subst). by rewrite Hv.
  - rewrite List.filter_app. cbn [List.filter]. by rewrite Hv, app_nil_r.
Qed.

Lemma keep_erase hs : (forall h, p h = true -> q h = false) -> keep q (erase_first p hs) = keep q hs.
Proof.
  intros Hp. destruct (erase_cases p hs) as [(a & h & b & -> & _ & Hh & ->)|[_ ->]]; [|done].
  rewrite !List.filter_app. cbn [List.filter]. by rewrite (Hp h Hh).
Qed.

Lemma keep_keep hs : (forall h, q h = true -> p h = true) -> keep q (keep p hs) = keep q hs.
Proof.
  intros H. induction hs as [|h hs IH]; [done|]. cbn [List.filter]. destruct (p h) eqn:E; cbn [List.filter]; rewrite IH; [done|].
  destruct (q h) eqn:Eq; [|done]. rewrite H in E by done. done.
Qed.

Lemma keep_none hs : Forall (fun h => q h = false) hs -> keep q hs = [].
Proof. induction 1 as [|h hs Hh H IH]; [done|]. cbn [List.filter]. by rewrite Hh. Qed.

Lemma existsb_keep hs : (forall h, p h = true -> q h = true) -> existsb p (keep q hs) = existsb p hs.
Proof.
  intros H. induction hs as [|h hs IH]; [done|]. cbn [List.filter existsb]. destruct (q h) eqn:E; cbn [existsb]; rewrite IH; [done|].
  destruct (p h) eqn:Ep; [|done]. rewrite H in E by done. done.
Qed.

End lists.

Section media.
Context {boost : BoostString} {text : BoostText}.

(** ** What the headers say *)

Definition rtcp_key : str := #"rtcp:".
Definition ptime_key : str := #"ptime:".

Definition read_control (hs : list SDPHeader) : Z :=
  match read_common rtcp_key hs with
  | [] => let p := read_dataPort hs in if (p =? 0)%Z then 0%Z else u16 (p + 1)
  | port => string_to_number UShort port
  end.

(** What can be asked of a description. *)
Record view := mkView {
  v_type : MediaType; v_profile : Profile; v_payloads : list Z; v_port : Z; v_control : Z;
  v_address : str; v_ptime : Z; v_direction : Direction
}.
#[export] Instance eta_view : Settable view := fun v =>
  mkView (v_type v) (v_profile v) (v_payloads v) (v_port v) (v_control v) (v_address v) (v_ptime v) (v_direction v).
Definition observe (m : SDPMedia) : view :=
  mkView (getMediaType m).1 (getRTPProfile m).1 (getPayloads m).1 (getDataPort m).1 (getControlPort m).1
    (getAddress m).1 (getPtime m).1 (getDirection m).1.
Definition read_view (hs : list SDPHeader) : view :=
  mkView (read_type hs) (read_profile hs) (read_payloads hs) (read_dataPort hs) (read_control hs)
    (read_address hs) (read_ptime hs) (read_direction hs).

(** What is kept is nothing or what the headers say. *)
Record coherent (m : SDPMedia) : Prop := {
  co_type : mediaType m = TYPE_NONE \/ mediaType m = read_type (hdrs m);
  co_profile : profile m = PROFILE_NONE \/ profile m = read_profile (hdrs m);
  co_payloads : payloads m = [] \/ payloads m = read_payloads (hdrs m);
  co_port : dataPort m = 0%Z \/ dataPort m = read_dataPort (hdrs m);
  co_control : controlPort m = 0%Z \/ controlPort m = read_control (hdrs m);
  co_address : address m = [] \/ address m = read_address (hdrs m);
  co_ptime : ptime m = 0%Z \/ ptime m = read_ptime (hdrs m);
  co_direction : direction m = MEDIA_UNSET \/ direction m = read_direction (hdrs m)
}.

(** ** Getters *)

Lemma getMediaType_reads m : coherent m -> getMediaType m = (read_type (hdrs m), m <| mediaType := read_type (hdrs m) |>).
Proof.
  intros H. unfold getMediaType. case_decide; [done|]. destruct (co_type m H) as [E|E]; [done|]. rewrite <- E. by destruct m.
Qed.
Lemma getRTPProfile_reads m : coherent m -> getRTPProfile m = (read_profile (hdrs m), m <| profile := read_profile (hdrs m) |>).
Proof.
  intros H. unfold getRTPProfile. case_decide; [done|]. destruct (co_profile m H) as [E|E]; [done|]. rewrite <- E. by destruct m.
Qed.
Lemma getPayloads_reads m : coherent m -> getPayloads m = (read_payloads (hdrs m), m <| payloads := read_payloads (hdrs m) |>).
Proof.
  intros H. unfold getPayloads. destruct (payloads m) eqn:Ep; [done|]. destruct (co_payloads m H) as [E|E]; [congruence|].
  rewrite <- E, Ep. destruct m; cbn in *; by subst.
Qed.
Lemma getDataPort_reads m : coherent m -> getDataPort m = (read_dataPort (hdrs m), m <| dataPort := read_dataPort (hdrs m) |>).
Proof.
  intros H. unfold getDataPort. destruct (Z.eqb_spec (dataPort m) 0); [done|]. destruct (co_port m H) as [E|E]; [done|].
  rewrite <- E. by destruct m.
Qed.
Lemma getAddress_reads m : coherent m -> getAddress m = (read_address (hdrs m), m <| address := read_address (hdrs m) |>).
Proof.
  intros H. unfold getAddress. destruct (address m) eqn:Ep; [done|]. destruct (co_address m H) as [E|E]; [congruence|].
  rewrite <- E, Ep. destruct m; cbn in *; by subst.
Qed.
Lemma getPtime_reads m : coherent m -> getPtime m = (read_ptime (hdrs m), m <| ptime := read_ptime (hdrs m) |>).
Proof.
  intros H. unfold getPtime. destruct (Z.eqb_spec (ptime m) 0); [done|]. destruct (co_ptime m H) as [E|E]; [done|].
  rewrite <- E. by destruct m.
Qed.
Lemma getDirection_reads m : coherent m -> getDirection m = (read_direction (hdrs m), m <| direction := read_direction (hdrs m) |>).
Proof.
  intros H. unfold getDirection. case_decide; [done|]. destruct (co_direction m H) as [E|E]; [done|]. rewrite <- E. by destruct m.
Qed.

(** The control port keeps the data port as well when it has to ask for it. *)
Lemma getControlPort_reads m :
  coherent m -> exists d, (getControlPort m).1 = read_control (hdrs m) /\
    (getControlPort m).2 = m <| dataPort := d |> <| controlPort := read_control (hdrs m) |> /\
    (d = dataPort m \/ d = read_dataPort (hdrs m)).
Proof.
  intros H. unfold getControlPort. destruct (Z.eqb_spec (controlPort m) 0) as [E|E]; cbn [negb].
  2:{ destruct (co_control m H) as [?|Ec]; [done|]. exists (dataPort m). rewrite <- Ec. split_and!; [done|by destruct m|auto]. }
  unfold getCommonAttribute, read_control. change (#"rtcp" ++ #":") with rtcp_key.
  destruct (read_common rtcp_key (hdrs m)); [|exists (dataPort m); split_and!; [done|by destruct m|auto]].
  cbn zeta. destruct (Z.eqb_spec (dataPort m) 0) as [Ed|Ed].
  - rewrite getDataPort_reads by done. cbn [snd].
    change (dataPort (m <| dataPort := read_dataPort (hdrs m) |>)) with (read_dataPort (hdrs m)).
    exists (read_dataPort (hdrs m)). destruct (Z.eqb_spec (read_dataPort (hdrs m)) 0) as [Er|Er]; cbn [negb].
    + split_and!; [exact E|destruct m; cbn in *; by subst|auto].
    + split_and!; [done|done|auto].
  - destruct (co_port m H) as [?|Ep]; [done|]. rewrite <- Ep. exists (dataPort m).
    rewrite (proj2 (Z.eqb_neq _ _) Ed). split_and!; [done|by destruct m|auto].
Qed.

Lemma observe_reads m : coherent m -> observe m = read_view (hdrs m).
Proof.
  intros H. unfold observe, read_view. destruct (getControlPort_reads m H) as (d & -> & _).
  by rewrite getMediaType_reads, getRTPProfile_reads, getPayloads_reads, getDataPort_reads, getAddress_reads,
    getPtime_reads, getDirection_reads.
Qed.

(** A description that has kept nothing. *)
Lemma fresh_coherent raw : coherent (new_media raw).
Proof. constructor; by left. Qed.

End media.
