(* ===== verification/SdpOps.v ===== *)
(** * Operations on media descriptions

    A description with a proper media line and lines that can be printed; the
    operations of [SDPMedia] as data, what they ask of their arguments, and that each
    of them keeps the description proper and its members in agreement with its
    headers. *)

From S2P Require Import Prelude Abnf AbnfFacts AbnfSearch CoreStrings CMem SdpText SdpHeaders SdpMedia SdpMediaFacts SdpCoherence.
Open Scope nat_scope.

(** Text on one line. *)
Definition plain_text (s : str) : Prop := Forall (fun c => is_eol c = false /\ c <> NUL) s.

Lemma plain_nul_free s : plain_text s -> nul_free s.
Proof. intros H. eapply Forall_impl; [exact H|]. intros c [_ Hc] E. by apply Hc, schar_nul. Qed.

Lemma plain_app a b : plain_text (a ++ b) <-> plain_text a /\ plain_text b.
Proof. apply Forall_app. Qed.

(** A constant text is one. *)
Ltac constant := repeat (apply Forall_cons_2; [first [discriminate | reflexivity | split; [reflexivity|discriminate]]|]); apply Forall_nil_2.

Lemma lexical_plain c : lexical_char c = true -> is_eol c = false /\ c <> NUL.
Proof.
  assert (E : forall c, negb (lexical_char c) || (negb (is_eol c) && negb (Ascii.eqb c NUL)) = true)
    by (intros d; apply (ascii_forallb (fun c => negb (lexical_char c) || (negb (is_eol c) && negb (Ascii.eqb c NUL)))); vm_compute; reflexivity).
  intros H. specialize (E c). rewrite H in E. cbn in E. apply andb_true_iff in E as [E1 E2].
  apply negb_true_iff in E1, E2. split; [done|]. by apply Ascii.eqb_neq.
Qed.

Lemma dec_plain z : plain_text (dec z).
Proof. eapply Forall_impl; [apply dec_chars|]. intros c. apply lexical_plain. Qed.

Lemma unwords_plain ws : Forall plain_text ws -> plain_text (unwords ws).
Proof.
  intros H. induction H as [|w ws Hw H IH]; [constructor|]. destruct ws as [|v ws]; [done|].
  rewrite unwords_cons by done. rewrite !plain_app. split; [done|]. split; [constant|done].
Qed.

Section ops.
Context {boost : BoostString} {text : BoostText}.

(** ** The headers behind the media line *)

Definition connection (h : SDPHeader) : bool := Ascii.eqb (hdr_name h) "c".
Definition direction_flag (h : SDPHeader) : bool :=
  is_flag #"sendrecv" h || is_flag #"sendonly" h || is_flag #"recvonly" h || is_flag #"inactive" h.

Lemma find_header_keep hs : find_header "c" hs = find_header "c" (keep connection hs).
Proof.
  induction hs as [|h hs IH]; [done|]. cbn [find_header List.filter]. unfold connection at 1.
  destruct (Ascii.eqb (hdr_name h) "c") eqn:E; [|done]. cbn [find_header]. by rewrite E.
Qed.

Lemma read_common_keep key hs : read_common key hs = read_common key (keep (matches key) hs).
Proof.
  induction hs as [|h hs IH]; [done|]. cbn [read_common List.filter].
  destruct (matches key h) eqn:E; [|done]. cbn [read_common]. rewrite E. by destruct (common_value _).
Qed.

Lemma read_direction_keep hs : read_direction hs = read_direction (keep direction_flag hs).
Proof.
  unfold read_direction. rewrite !existsb_keep; [done|..]; intros h H; unfold direction_flag; rewrite H; by rewrite ?orb_true_r.
Qed.

(** What the headers behind the line say. *)
Definition rest_parts (rest : list SDPHeader) :=
  (keep connection rest, keep (matches rtcp_key) rest, keep (matches ptime_key) rest, keep direction_flag rest).

Definition view_of (l : line) (rest : list SDPHeader) : view :=
  let port := port_of (l_port l) in
  mkView (type_of (l_type l)) (profile_of (l_proto l)) (l_formats l) port
    (match read_common rtcp_key rest with
     | [] => if (port =? 0)%Z then 0%Z else u16 (port + 1)
     | rtcp => string_to_number UShort rtcp
     end)
    (connection_address (find_header "c" rest)) (read_ptime rest) (read_direction rest).

Lemma read_view_line l rest : line_ok l -> read_view (media_line l :: rest) = view_of l rest.
Proof.
  intros H. unfold read_view, view_of, read_control.
  rewrite read_type_line, read_profile_line, read_payloads_line, read_dataPort_line by done. reflexivity.
Qed.

Lemma view_parts l rest rest' : rest_parts rest = rest_parts rest' -> view_of l rest = view_of l rest'.
Proof.
  intros [= E1 E2 E3 E4]. unfold view_of, read_ptime. change #"ptime:" with ptime_key.
  rewrite (find_header_keep rest), (read_common_keep rtcp_key rest), (read_common_keep ptime_key rest),
    (read_direction_keep rest), E1, E2, E3, E4.
  by rewrite <- find_header_keep, <- !read_common_keep, <- read_direction_keep.
Qed.

(** ** Proper descriptions *)

(** The members against a view. *)
Record kept (m : SDPMedia) (v : view) : Prop := {
  k_type : mediaType m = TYPE_NONE \/ mediaType m = v_type v;
  k_profile : profile m = PROFILE_NONE \/ profile m = v_profile v;
  k_payloads : payloads m = [] \/ payloads m = v_payloads v;
  k_port : dataPort m = 0%Z \/ dataPort m = v_port v;
  k_control : controlPort m = 0%Z \/ controlPort m = v_control v;
  k_address : address m = [] \/ address m = v_address v;
  k_ptime : ptime m = 0%Z \/ ptime m = v_ptime v;
  k_direction : direction m = MEDIA_UNSET \/ direction m = v_direction v
}.

Lemma view_eq v v' :
  v_type v = v_type v' -> v_profile v = v_profile v' -> v_payloads v = v_payloads v' -> v_port v = v_port v' ->
  v_control v = v_control v' -> v_address v = v_address v' -> v_ptime v = v_ptime v' -> v_direction v = v_direction v' ->
  v = v'.
Proof. destruct v, v'. cbn. by intros; subst. Qed.


Record proper (m : SDPMedia) (l : line) (rest : list SDPHeader) : Prop := {
  pr_line : is_line m l rest;
  pr_text : plain_text (l_type l) /\ plain_text (l_port l) /\ plain_text (l_proto l);
  pr_rest : Forall (fun h => header_ok h /\ hdr_name h <> "m"%char) rest;
  pr_direction : length (keep direction_flag rest) <= 1;
  pr_valid : isValid (m_list m) = true;
  pr_kept : kept m (view_of l rest)
}.

Lemma proper_coherent m l rest : proper m l rest -> coherent m.
Proof.
  intros H. pose proof (pr_line _ _ _ H) as [E Hl]. pose proof (pr_kept _ _ _ H) as Hk.
  rewrite <- read_view_line, <- E in Hk by done. destruct Hk. by constructor.
Qed.

(** A description and the text it prints say the same. *)
Lemma proper_text m l rest : proper m l rest -> observe (new_media (list_toString (m_list m))) = observe m.
Proof.
  intros H. rewrite !observe_reads by (apply fresh_coherent || by eapply proper_coherent). f_equal.
  pose proof (pr_line _ _ _ H) as [E Hl]. unfold list_toString. rewrite (pr_valid _ _ _ H).
  change (concat _) with (lines (hdrs m)). rewrite E.
  destruct (pr_text _ _ _ H) as (H1 & H2 & H3).
  assert (Hm : header_ok (media_line l)).
  { split; [split_and!; done|]. split.
    - change (line_text l <> []). rewrite line_text_type. by destruct (l_type l).
    - apply unwords_plain. repeat apply Forall_cons_2; [done..|]. apply Forall_map, Forall_true. intros z. apply dec_plain. }
  destruct (list_parse_lines (media_line l) rest [] "m" Hm) as [Eh _]; [..|by left|].
  - eapply Forall_impl; [apply (pr_rest _ _ _ H)|]. by intros h [? _].
  - eapply Forall_impl; [apply (pr_rest _ _ _ H)|]. by intros h [_ ?].
  - by rewrite app_nil_r in Eh.
Qed.

(** Members that an operation leaves alone agree with the parts it leaves alone. *)
Ltac still_kept H :=
  destruct H as [K1 K2 K3 K4 K5 K6 K7 K8]; constructor;
  first [exact K1|exact K2|exact K3|exact K4|exact K5|exact K6|exact K7|exact K8|idtac].

(** ** The media line *)

Lemma set_type_proper m l rest type :
  proper m l rest -> type <> TYPE_NONE ->
  exists m' l', setMediaType m type = Val m' /\ proper m' l' rest /\ view_of l' rest = (view_of l rest) <| v_type := type |>.
Proof.
  intros [Hl Ht Hr Hd Hv Hk] Hn. destruct (decide (type = mediaType m)) as [->|Hne].
  - exists m, l. unfold setMediaType. rewrite decide_True by done. split; [done|]. split; [by constructor|].
    destruct (k_type _ _ Hk) as [?|E]; [done|]. by rewrite E.
  - destruct (type_text type) as [mt|] eqn:Em; [|by destruct type].
    destruct (set_type_line m l rest type mt Hl Hne Em) as [-> Hl'].
    destruct (type_text_ok _ _ Em) as (_ & _ & Et).
    eexists _, (l <| l_type := mt |>). split; [done|]. split; [|by rewrite <- Et]. constructor; [by split| |done..|].
    + split; [|apply Ht]. destruct type; simplify_eq/=; constant.
    + still_kept Hk. right. by symmetry.
Qed.

Lemma set_profile_proper m l rest prof :
  proper m l rest -> prof <> PROFILE_NONE -> l_formats l <> [] ->
  exists m' l', setRTPProfile m prof = Val m' /\ proper m' l' rest /\ view_of l' rest = (view_of l rest) <| v_profile := prof |>.
Proof.
  intros [Hl Ht Hr Hd Hv Hk] Hn Hf. destruct (decide (prof = profile m)) as [->|Hne].
  - exists m, l. unfold setRTPProfile. rewrite decide_True by done. split; [done|]. split; [by constructor|].
    destruct (k_profile _ _ Hk) as [?|E]; [done|]. by rewrite E.
  - destruct (profile_text prof) as [w|] eqn:Em; [|by destruct prof].
    destruct (set_profile_line m l rest prof w Hl Hf Hne Em) as [-> Hl'].
    destruct (profile_text_ok _ _ Em) as [_ Et].
    eexists _, (l <| l_proto := w |>). split; [done|]. split; [|by rewrite <- Et]. constructor; [by split| |done..|].
    + split; [apply Ht|]. split; [apply Ht|]. destruct prof; simplify_eq/=; constant.
    + still_kept Hk. right. by symmetry.
Qed.

(** The data port decides the control port unless an attribute does. *)
Lemma set_port_proper m l rest port :
  proper m l rest -> (0 <= port < 2 ^ 16)%Z -> controlPort m = 0%Z \/ read_common rtcp_key rest <> [] ->
  exists m' l', setDataPort m port = Val m' /\ proper m' l' rest /\
    view_of l' rest = (view_of l rest) <| v_port := port |> <| v_control :=
      match read_common rtcp_key rest with
      | [] => if (port =? 0)%Z then 0%Z else u16 (port + 1)
      | _ :: _ => v_control (view_of l rest)
      end |>.
Proof.
  intros [Hl Ht Hr Hd Hv Hk] Hp Hc. destruct (set_port_line m l rest port Hl) as [-> Hl'].
  eexists _, (l <| l_port := dec port |>). split; [done|]. split.
  2:{ apply view_eq; [done|done|done|by apply port_of_dec| |done|done|done].
      destruct (read_common rtcp_key rest) eqn:E; unfold view_of; cbn [v_control]; rewrite E; [|done].
      change (l_port (l <| l_port := dec port |>)) with (dec port). by rewrite port_of_dec. }
   constructor; [by split| |done..|].
  - split; [apply Ht|]. split; [apply dec_plain|apply Ht].
  - still_kept Hk.
    + right. cbn. by rewrite port_of_dec.
    + destruct Hc as [Hc|Hc]; [by left|]. destruct K5 as [K5|K5]; [by left|right].
      change (controlPort m = v_control (view_of (l <| l_port := dec port |>) rest)). rewrite K5.
      unfold view_of. cbn [v_control]. by destruct (read_common rtcp_key rest).
Qed.

Lemma set_payloads_proper m l rest ps :
  proper m l rest -> ps <> [] -> Forall (in_type Int) ps -> proper (setPayloads m ps) (l <| l_formats := ps |>) rest.
Proof.
  intros [Hl Ht Hr Hd Hv Hk] Hn Hf. rewrite (set_payloads_line m l rest) by done.
  constructor; [split; [done|apply formats_ok; [apply Hl|done]]|done..|]. still_kept Hk. by right.
Qed.

Lemma remove_payload_proper m l rest x :
  proper m l rest -> payloads m <> [] -> (exists y, In y (l_formats l) /\ y <> x) ->
  let l' := l <| l_formats := List.filter (fun p => negb (p =? x)%Z) (l_formats l) |> in
  proper (removePayload m x) l' rest.
Proof.
  intros [Hl Ht Hr Hd Hv Hk] Hp (y & Hy & Hyx) l'.
  destruct (k_payloads _ _ Hk) as [E|E]; [congruence|]. cbn in E.
  rewrite (remove_payload_line m l rest x); [|done|done|].
  - rewrite E. constructor; [split; [done|]|done..|].
    + apply formats_ok; [apply Hl|]. apply List.Forall_forall. intros z [Hz _]%filter_In.
      pose proof (ok_formats _ (proj2 Hl)) as Hf. rewrite List.Forall_forall in Hf. by apply Hf.
    + still_kept Hk. by right.
  - intros En. rewrite E in En. apply (in_nil (a := y)). rewrite <- En. apply filter_In. split; [done|].
    by apply negb_true_iff, Z.eqb_neq.
Qed.

Lemma add_payload_proper m l rest x :
  proper m l rest -> (x <= 255)%Z -> in_type Int x ->
  exists b m' l', addPayload m x = Val (b, m') /\ proper m' l' rest /\
    view_of l' rest =
      if existsb (Z.eqb x) (l_formats l) then view_of l rest else (view_of l rest) <| v_payloads := l_formats l ++ [x] |>.
Proof.
  intros H Hx Hi. pose proof H as [Hl Ht Hr Hd Hv Hk]. destruct (existsb (Z.eqb x) (l_formats l)) eqn:Ex.
  - unfold addPayload. rewrite (proj2 (Z.leb_le _ _)) by done. cbn [negb].
    rewrite getPayloads_reads by by eapply proper_coherent. rewrite (proj1 Hl), read_payloads_line, Ex by apply Hl.
    eexists _, _, l. split; [done|]. split; [|done]. constructor; [done..|]. still_kept Hk. by right.
  - rewrite (add_payload_line m l rest x (l_formats l)); [|done..| |done].
    + eexists _, _, (l <| l_formats := l_formats l ++ [x] |>). split; [done|]. split; [|done]. constructor; [split; [done|]|done..|].
      * apply formats_ok; [apply Hl|]. apply Forall_app. split; [apply Hl|]. by apply Forall_cons_2.
      * still_kept Hk. by right.
    + destruct (k_payloads _ _ Hk); auto.
Qed.


(** ** Attributes *)

(** A key that says nothing about what is kept. *)
Definition free_key (key : str) : Prop :=
  plain_text key /\ In ":"%char key /\ apart key rtcp_key = true /\ apart key ptime_key = true.

Lemma nul_free_rtcp : nul_free rtcp_key.
Proof. constant. Qed.
Lemma nul_free_ptime : nul_free ptime_key.
Proof. constant. Qed.

(** A flag has no colon, so that no key is the beginning of one. *)
Lemma key_no_flag key flag h :
  nul_free key -> In ":"%char key -> Forall (fun c => c <> ":"%char) (map tolower flag) ->
  matches key h = true -> is_flag flag h = false.
Proof.
  intros Hn Hk Hf Hm. apply not_true_iff_false. unfold is_flag. intros [_ Hv]%andb_true_iff.
  apply bool_decide_eq_true_1 in Hv. unfold matches in Hm. rewrite Hv, caseless_prefix in Hm by done.
  apply andb_true_iff in Hm as [_ Hm]. apply is_prefix_spec in Hm as [r Hm]. rewrite Hm in Hf.
  apply Forall_app in Hf as [Hf _]. rewrite List.Forall_forall in Hf. apply (Hf ":"%char); [|done].
  apply in_map_iff. by exists ":"%char.
Qed.

Lemma key_no_direction key h :
  nul_free key -> In ":"%char key -> matches key h = true -> direction_flag h = false.
Proof.
  intros Hn Hk Hm. unfold direction_flag. by rewrite !(key_no_flag key _ h Hn Hk) by (done || constant).
Qed.

Lemma free_key_selects key h :
  free_key key -> matches key h = true ->
  hdr_name h = "a"%char /\ connection h = false /\ matches rtcp_key h = false /\ matches ptime_key h = false /\
  direction_flag h = false.
Proof.
  intros (Hp & Hc & Ha & Hb) Hm. pose proof (matches_name _ _ Hm) as Hn. pose proof (plain_nul_free _ Hp) as Hf.
  split_and!; [done|unfold connection; by rewrite Hn|..].
  - by apply (apart_matches key); [|apply nul_free_rtcp|..].
  - by apply (apart_matches key); [|apply nul_free_ptime|..].
  - by apply (key_no_direction key).
Qed.

Lemma own_key key v : nul_free key -> matches key (attribute (key ++ v)) = true.
Proof. intros H. by apply (matches_own key _ v). Qed.

Lemma free_put key v rest :
  free_key key -> rest_parts (put_attribute (matches key) (key ++ v) rest) = rest_parts rest.
Proof.
  intros Hk. pose proof (free_key_selects key) as Hs.
  destruct (Hs (attribute (key ++ v)) Hk) as (_ & H1 & H2 & H3 & H4); [apply own_key, plain_nul_free, Hk|].
  unfold rest_parts. f_equal; [f_equal; [f_equal|]|]; apply keep_put; try done;
    intros h Hh; destruct (Hs h Hk Hh) as (? & ? & ? & ? & ?); done.
Qed.

Lemma free_erase key rest : free_key key -> rest_parts (erase_first (matches key) rest) = rest_parts rest.
Proof.
  intros Hk. unfold rest_parts.
  f_equal; [f_equal; [f_equal|]|]; apply keep_erase; intros h Hh;
    destruct (free_key_selects key h Hk Hh) as (? & ? & ? & ? & ?); done.
Qed.

Lemma free_vector key vs rest :
  free_key key ->
  rest_parts (keep (fun h => negb (matches key h)) rest ++ map (fun v => attribute (key ++ v)) vs) = rest_parts rest.
Proof.
  intros Hk.
  assert (H : forall q, (forall h, matches key h = true -> q h = false) ->
    keep q (keep (fun h => negb (matches key h)) rest ++ map (fun v => attribute (key ++ v)) vs) = keep q rest).
  { intros q Hq. rewrite List.filter_app, keep_keep.
    - rewrite (keep_none q (map _ _)); [by rewrite app_nil_r|]. apply Forall_map, Forall_true. intros v.
      apply Hq, own_key, plain_nul_free, Hk.
    - intros h Hh. apply negb_true_iff, not_true_iff_false. intros E. rewrite (Hq h E) in Hh. done. }
  unfold rest_parts. f_equal; [f_equal; [f_equal|]|]; apply H; intros h Hh;
    destruct (free_key_selects key h Hk Hh) as (? & ? & ? & ? & ?); done.
Qed.

(** The lines after an edit. *)
Abbreviation lines_ok := (Forall (fun h => header_ok h /\ hdr_name h <> "m"%char)).

Lemma attribute_ok v : v <> [] -> plain_text v -> header_ok (attribute v) /\ hdr_name (attribute v) <> "m"%char.
Proof. intros Hn Hv. split; [|done]. split; [split_and!; done|by split]. Qed.

Lemma put_ok p v rest :
  lines_ok rest -> v <> [] -> plain_text v -> lines_ok (put_attribute p v rest).
Proof.
  intros Hr Hn Hv. destruct (put_cases p v rest) as [(a & h & b & -> & _ & Hh & ->)|[_ ->]].
  - apply Forall_app in Hr as [Ha [[Hh' Hm] Hb]%Forall_cons]. apply Forall_app. split; [done|].
    apply Forall_cons_2; [|done]. split; [|done]. destruct Hh'. split; [done|by split].
  - apply Forall_app. split; [done|]. apply Forall_cons_2; [by apply attribute_ok|done].
Qed.

Lemma erase_ok p rest : lines_ok rest -> lines_ok (erase_first p rest).
Proof.
  intros Hr. destruct (erase_cases p rest) as [(a & h & b & -> & _ & Hh & ->)|[_ ->]]; [|done].
  apply Forall_app in Hr as [Ha [_ Hb]%Forall_cons]. by apply Forall_app.
Qed.

(** An edit behind the media line that leaves what is kept alone. *)
Lemma rest_proper m l rest rest' :
  proper m l rest -> lines_ok rest' -> rest_parts rest' = rest_parts rest -> proper (with_line m l rest') l rest' /\ view_of l rest' = view_of l rest.
Proof.
  intros [Hl Ht Hr Hd Hv Hk] Hr' Hp. split; [|by apply view_parts]. constructor; [split; [done|apply Hl]|done|done| |done|].
  - by injection Hp as _ _ _ ->.
  - rewrite (view_parts l rest' rest Hp). by still_kept Hk.
Qed.

Lemma put_head p v l rest :
  p (media_line l) = false -> put_attribute p v (media_line l :: rest) = media_line l :: put_attribute p v rest.
Proof.
  intros H. unfold put_attribute. cbn [find_split]. rewrite H. by destruct (find_split p rest) as [[[a h] b]|].
Qed.
Lemma erase_head p l rest :
  p (media_line l) = false -> erase_first p (media_line l :: rest) = media_line l :: erase_first p rest.
Proof.
  intros H. unfold erase_first. cbn [find_split]. rewrite H. by destruct (find_split p rest) as [[[a h] b]|].
Qed.

Lemma put_proper m l rest key v :
  proper m l rest -> free_key key -> plain_text v -> key ++ v <> [] ->
  exists rest', proper (set_hdrs m (put_attribute (matches key) (key ++ v) (hdrs m))) l rest' /\ view_of l rest' = view_of l rest.
Proof.
  intros H Hk Hv Hn. exists (put_attribute (matches key) (key ++ v) rest).
  rewrite (proj1 (pr_line _ _ _ H)), put_head by done.
  apply (rest_proper m l rest); [done| |by apply free_put].
  apply put_ok; [apply H|done|]. apply plain_app. split; [apply Hk|done].
Qed.

Lemma erase_proper m l rest key :
  proper m l rest -> free_key key ->
  exists rest', proper (set_hdrs m (erase_first (matches key) (hdrs m))) l rest' /\ view_of l rest' = view_of l rest.
Proof.
  intros H Hk. exists (erase_first (matches key) rest). rewrite (proj1 (pr_line _ _ _ H)), erase_head by done.
  apply (rest_proper m l rest); [done|apply erase_ok, H|by apply free_erase].
Qed.

Lemma vector_proper m l rest label vs :
  proper m l rest -> free_key (label ++ #":") -> Forall plain_text vs ->
  exists rest', proper (setVectorAttributes m label vs) l rest' /\ view_of l rest' = view_of l rest.
Proof.
  intros H Hk Hv. unfold setVectorAttributes. cbn zeta. rewrite (proj1 (pr_line _ _ _ H)). cbn [List.filter].
  change (matches (label ++ #":") (media_line l)) with false. cbn [negb]. eexists.
  apply (rest_proper m l rest); [done| |by apply free_vector].
  apply Forall_app. split.
  - apply List.Forall_forall. intros h [Hh _]%filter_In. pose proof (pr_rest _ _ _ H) as Hr.
    rewrite List.Forall_forall in Hr. by apply Hr.
  - apply Forall_map. eapply Forall_impl; [exact Hv|]. intros v Hpv. apply attribute_ok; [by destruct label|].
    apply plain_app. split; [apply Hk|done].
Qed.


(** ** The control port and the packet time *)

Lemma common_number name z :
  space_free name -> sep_free #":" name -> common_value (name ++ #":" ++ dec z) = Some (dec z).
Proof.
  intros Hs Hc. unfold common_value. rewrite after_space_none.
  - unfold string_tokenize. rewrite split_run; [|done|done|by apply Forall_cons_2|].
    + rewrite split_free by (by apply dec_free). done.
    + pose proof (dec_free #":" z eq_refl) as H. by destruct H.
  - apply Forall_app. split; [done|]. apply Forall_app. split; [by apply Forall_cons_2|]. by apply dec_free.
Qed.

Lemma read_common_put key v v' rest :
  nul_free key -> common_value (key ++ v) = Some v' -> read_common key (put_attribute (matches key) (key ++ v) rest) = v'.
Proof.
  intros Hk Hv.
  assert (H : forall a h b, Forall (fun x => matches key x = false) a -> hdr_name h = "a"%char -> hdr_value h = key ++ v ->
    read_common key (a ++ h :: b) = v').
  { intros a h b Ha Hn Hh. induction Ha as [|x a Hx Ha IH]; cbn [app read_common]; [|by rewrite Hx].
    by rewrite (matches_own key h v Hk Hn Hh), Hh, Hv. }
  destruct (put_cases (matches key) (key ++ v) rest) as [(a & h & b & -> & Ha & Hh & ->)|[Ha ->]].
  - apply H; [done| |done]. exact (matches_name _ _ Hh).
  - by apply H.
Qed.

(** Setting the one leaves the other alone. *)
Lemma number_parts key v q rest :
  plain_text key -> In ":"%char key -> (forall h, matches key h = true -> q h = false) ->
  keep q (put_attribute (matches key) (key ++ v) rest) = keep q rest.
Proof.
  intros Hp Hc Hq. apply keep_put.
  - intros h Hh. split; [exact (matches_name _ _ Hh)|by apply Hq].
  - apply Hq, own_key, plain_nul_free, Hp.
Qed.

(** Readings of the same parts. *)
Lemma address_same l r r' : keep connection r = keep connection r' -> v_address (view_of l r) = v_address (view_of l r').
Proof. intros E. cbn. by rewrite find_header_keep, E, <- find_header_keep. Qed.
Lemma common_same key r r' : keep (matches key) r = keep (matches key) r' -> read_common key r = read_common key r'.
Proof. intros E. by rewrite read_common_keep, E, <- read_common_keep. Qed.
Lemma control_same l r r' :
  keep (matches rtcp_key) r = keep (matches rtcp_key) r' -> v_control (view_of l r) = v_control (view_of l r').
Proof. intros E. unfold view_of. cbn [v_control]. by rewrite (common_same _ r r'). Qed.
Lemma ptime_same l r r' :
  keep (matches ptime_key) r = keep (matches ptime_key) r' -> v_ptime (view_of l r) = v_ptime (view_of l r').
Proof. intros E. unfold view_of, read_ptime. cbn [v_ptime]. change #"ptime:" with ptime_key. by rewrite (common_same _ r r'). Qed.
Lemma direction_same l r r' :
  keep direction_flag r = keep direction_flag r' -> v_direction (view_of l r) = v_direction (view_of l r').
Proof. intros E. unfold view_of. cbn [v_direction]. by rewrite read_direction_keep, E, <- read_direction_keep. Qed.

Lemma key_no_connection key h : matches key h = true -> connection h = false.
Proof. intros H. unfold connection. by rewrite (matches_name _ _ H). Qed.

Lemma set_control_proper m l rest port :
  proper m l rest -> (0 < port < 2 ^ 16)%Z ->
  exists m' rest', setControlPort m port = Val m' /\ proper m' l rest' /\ view_of l rest' = (view_of l rest) <| v_control := port |>.
Proof.
  intros H Hp. set (rest' := put_attribute (matches rtcp_key) (rtcp_key ++ dec port) rest).
  assert (Hpl : plain_text rtcp_key) by constant. assert (Hc : In ":"%char rtcp_key) by (cbn; auto 6).
  assert (Er : read_common rtcp_key rest' = dec port).
  { apply read_common_put; [apply nul_free_rtcp|]. apply (common_number #"rtcp"); constant. }
  assert (Ev : v_control (view_of l rest') = port).
  { unfold view_of. cbn [v_control]. rewrite Er. pose proof (dec_nonempty port). destruct (dec port) eqn:E; [done|].
    rewrite <- E. apply number_dec. cbn. lia. }
  assert (Hq : forall q, (forall h, matches rtcp_key h = true -> q h = false) -> keep q rest' = keep q rest)
    by (intros q Hq; by apply number_parts).
  assert (Ea : v_address (view_of l rest') = v_address (view_of l rest)) by (apply address_same, Hq, key_no_connection).
  assert (Et : v_ptime (view_of l rest') = v_ptime (view_of l rest)).
  { apply ptime_same, Hq. intros h. apply apart_matches; [apply nul_free_rtcp|apply nul_free_ptime|done]. }
  assert (Hdf : keep direction_flag rest' = keep direction_flag rest).
  { apply Hq. intros h. apply key_no_direction; [apply nul_free_rtcp|done]. }
  assert (Ed : v_direction (view_of l rest') = v_direction (view_of l rest)) by (by apply direction_same).
  pose proof H as [Hl Ht Hr Hd Hv Hk]. eexists ((with_line m l rest') <| controlPort := port |>), rest'. split.
  - unfold setControlPort. rewrite (proj2 (Z.eqb_neq _ _)) by lia. unfold setCommonAttribute.
    rewrite bool_decide_eq_false_2 by apply dec_nonempty. cbn zeta. change (#"rtcp" ++ #":") with rtcp_key.
    by rewrite (proj1 Hl), put_head.
  - split; [|by apply view_eq]. constructor; [split; [done|apply Hl]|done| |by rewrite Hdf|done|].
    + apply put_ok; [done|done|]. apply plain_app. split; [done|apply dec_plain].
    + still_kept Hk; [by rewrite Ev; right|by rewrite Ea|by rewrite Et|by rewrite Ed].
Qed.


Lemma set_ptime_proper m l rest p :
  proper m l rest -> (0 < p < 2 ^ 16)%Z ->
  exists m' rest', setPtime m p = Val m' /\ proper m' l rest' /\ view_of l rest' = (view_of l rest) <| v_ptime := p |>.
Proof.
  intros H Hp. set (rest' := put_attribute (matches ptime_key) (ptime_key ++ dec p) rest).
  assert (Hpl : plain_text ptime_key) by constant. assert (Hc : In ":"%char ptime_key) by (cbn; auto 7).
  assert (Ev : v_ptime (view_of l rest') = p).
  { unfold view_of, read_ptime. cbn [v_ptime]. change #"ptime:" with ptime_key. unfold rest'.
    rewrite (read_common_put _ _ (dec p)) by (apply nul_free_ptime || (apply (common_number #"ptime"); constant)).
    pose proof (dec_nonempty p). destruct (dec p) eqn:E; [done|]. rewrite <- E. apply number_dec. cbn. lia. }
  assert (Hq : forall q, (forall h, matches ptime_key h = true -> q h = false) -> keep q rest' = keep q rest)
    by (intros q Hq; by apply number_parts).
  assert (Ea : v_address (view_of l rest') = v_address (view_of l rest)) by (apply address_same, Hq, key_no_connection).
  assert (Ec : v_control (view_of l rest') = v_control (view_of l rest)).
  { apply control_same, Hq. intros h. apply apart_matches; [apply nul_free_ptime|apply nul_free_rtcp|done]. }
  assert (Hdf : keep direction_flag rest' = keep direction_flag rest).
  { apply Hq. intros h. apply key_no_direction; [apply nul_free_ptime|done]. }
  assert (Ed : v_direction (view_of l rest') = v_direction (view_of l rest)) by (by apply direction_same).
  pose proof H as [Hl Ht Hr Hd Hv Hk]. eexists ((with_line m l rest') <| ptime := p |>), rest'. split.
  - unfold setPtime. rewrite (proj2 (Z.eqb_neq _ _)) by lia. unfold setCommonAttribute.
    rewrite bool_decide_eq_false_2 by apply dec_nonempty. cbn zeta. change (#"ptime" ++ #":") with ptime_key.
    by rewrite (proj1 Hl), put_head.
  - split; [|by apply view_eq]. constructor; [split; [done|apply Hl]|done| |by rewrite Hdf|done|].
    + apply put_ok; [done|done|]. apply plain_app. split; [done|apply dec_plain].
    + still_kept Hk; [by rewrite Ec|by rewrite Ea|by rewrite Ev; right|by rewrite Ed].
Qed.

(** ** The connection line *)

Lemma keep_place q c rest :
  (forall h, hdr_name h = "c"%char -> q h = false) -> hdr_name c = "c"%char -> keep q (place_connection c rest) = keep q rest.
Proof.
  intros Hq Hc. destruct rest as [|h rest]; cbn [place_connection List.filter]; [by rewrite (Hq c)|].
  destruct (Ascii.eqb_spec (hdr_name h) "c") as [E|E].
  - cbn [List.filter]. by rewrite !(Hq _) by done.
  - destruct (Ascii.eqb (hdr_name h) "i"); cbn [List.filter]; by rewrite (Hq c).
Qed.

Lemma find_placed c rest : hdr_name c = "c"%char -> find_header "c" (place_connection c rest) = hdr_value c.
Proof.
  intros Hc. destruct rest as [|[n v] rest]; cbn [place_connection find_header]; [by rewrite Hc|].
  cbn [hdr_name]. destruct (Ascii.eqb n "c") eqn:E; [cbn; by rewrite E|].
  destruct (Ascii.eqb n "i"); cbn [find_header hdr_name]; [by rewrite E, Hc|by rewrite Hc].
Qed.

Definition connection_text (isV4 : bool) (addr : str) : str := (if isV4 then #"IN IP4 " else #"IN IP6 ") ++ addr.

Lemma connection_address_text isV4 addr : word addr -> connection_address (connection_text isV4 addr) = addr.
Proof.
  intros Ha. assert (E : connection_text isV4 addr = unwords [ #"IN"; if isV4 then #"IP4" else #"IP6"; addr]) by (by destruct isV4).
  unfold connection_address. destruct (connection_text isV4 addr) eqn:Ec; [by destruct isV4|]. rewrite E.
  unfold string_tokenize. rewrite split_words; [done|done|].
  repeat apply Forall_cons_2; [split; [done|constant]| |done|constructor].
  split; [by destruct isV4|]. destruct isV4; constant.
Qed.

Lemma set_address_proper m l rest isV4 addr :
  proper m l rest -> word addr -> plain_text addr ->
  exists rest', proper (internalSetAddress m addr isV4) l rest' /\ view_of l rest' = (view_of l rest) <| v_address := addr |>.
Proof.
  intros [Hl Ht Hr Hd Hv Hk] Ha Hp. set (c := mkSDPHeader "c" (connection_text isV4 addr)).
  exists (place_connection c rest).
  assert (Ev : v_address (view_of l (place_connection c rest)) = addr)
    by (cbn; rewrite find_placed by done; by apply connection_address_text).
  assert (Hq : forall q, (forall h, hdr_name h = "c"%char -> q h = false) -> keep q (place_connection c rest) = keep q rest)
    by (intros; by apply keep_place).
  assert (Hm : forall key h, hdr_name h = "c"%char -> matches key h = false) by (intros key h E; unfold matches; by rewrite E).
  assert (Hf : forall h, hdr_name h = "c"%char -> direction_flag h = false)
    by (intros h E; unfold direction_flag, is_flag; by rewrite E).
  assert (Ec : v_control (view_of l (place_connection c rest)) = v_control (view_of l rest)) by (apply control_same, Hq, Hm).
  assert (Et : v_ptime (view_of l (place_connection c rest)) = v_ptime (view_of l rest)) by (apply ptime_same, Hq, Hm).
  assert (Ed : v_direction (view_of l (place_connection c rest)) = v_direction (view_of l rest)) by (apply direction_same, Hq, Hf).
  split; [|by apply view_eq]. unfold internalSetAddress. rewrite (proj1 Hl). cbn [media_line hdr_name Ascii.eqb Bool.eqb]. cbn zeta.
  fold (connection_text isV4 addr). fold c. fold (media_line l).
  constructor; [split; [done|apply Hl]|done| |by rewrite Hq|done|].
  - assert (Hc : header_ok c /\ hdr_name c <> "m"%char).
    { split; [|done]. split; [split_and!; done|]. split; [by destruct isV4|]. apply plain_app. split; [|done].
      destruct isV4; constant. }
    destruct Hr as [|h rest' Hh Hr]; cbn [place_connection]; [by apply Forall_cons_2|].
    destruct (Ascii.eqb (hdr_name h) "c"); [|destruct (Ascii.eqb (hdr_name h) "i"); repeat apply Forall_cons_2; done].
    apply Forall_cons_2; [|done]. split; [split; [apply Hh|apply Hc]|apply Hh].
  - still_kept Hk; [by rewrite Ec|by rewrite Ev; right|by rewrite Et|by rewrite Ed].
Qed.


(** ** Flags and the direction *)

Definition free_flag (flag : str) : Prop :=
  flag <> [] /\ plain_text flag /\ matches rtcp_key (attribute flag) = false /\
  matches ptime_key (attribute flag) = false /\ direction_flag (attribute flag) = false.

Lemma is_flag_eq flag h : is_flag flag h = true <-> h = attribute flag.
Proof.
  unfold is_flag. rewrite andb_true_iff, Ascii.eqb_eq, bool_decide_eq_true. destruct h as [n v]. cbn.
  split; [by intros [-> ->]|by intros [= -> ->]].
Qed.

Lemma append_parts flag rest : free_flag flag -> rest_parts (rest ++ [attribute flag]) = rest_parts rest.
Proof.
  intros (_ & _ & H1 & H2 & H3). unfold rest_parts. rewrite !List.filter_app. cbn [List.filter].
  rewrite H1, H2, H3. change (connection (attribute flag)) with false. by rewrite !app_nil_r.
Qed.

Lemma set_flag_hdrs m l rest flag :
  is_line m l rest ->
  setFlagAttribute m flag = if existsb (is_flag flag) rest then m else with_line m l (rest ++ [attribute flag]).
Proof.
  intros [E _]. unfold setFlagAttribute, append. rewrite E. cbn [existsb].
  change (is_flag flag (media_line l)) with false. cbn [orb]. by destruct (existsb _ rest).
Qed.

Lemma remove_flag_hdrs m l rest flag :
  is_line m l rest -> removeFlagAttribute m flag = with_line m l (erase_first (is_flag flag) rest).
Proof. intros [E _]. unfold removeFlagAttribute. by rewrite E, erase_head. Qed.

Lemma set_flag_proper m l rest flag :
  proper m l rest -> free_flag flag -> exists rest', proper (setFlagAttribute m flag) l rest' /\ view_of l rest' = view_of l rest.
Proof.
  intros H Hf. rewrite (set_flag_hdrs m l rest flag) by apply H. destruct (existsb _ rest); [by exists rest|].
  eexists. apply (rest_proper m l rest); [done| |by apply append_parts].
  apply Forall_app. split; [apply H|]. apply Forall_cons_2; [|done]. apply attribute_ok; apply Hf.
Qed.

Lemma remove_flag_proper m l rest flag :
  proper m l rest -> free_flag flag -> exists rest', proper (removeFlagAttribute m flag) l rest' /\ view_of l rest' = view_of l rest.
Proof.
  intros H (_ & _ & H1 & H2 & H3). rewrite (remove_flag_hdrs m l rest flag) by apply H. eexists.
  apply (rest_proper m l rest); [done|apply erase_ok, H|].
  unfold rest_parts. f_equal; [f_equal; [f_equal|]|]; apply keep_erase; by intros h ->%is_flag_eq.
Qed.

(** Whether there is a flag for a direction, and which. *)
Lemma read_direction_none rest : keep direction_flag rest = [] -> read_direction rest = MEDIA_SEND_AND_RECEIVE.
Proof. intros E. by rewrite read_direction_keep, E. Qed.

Lemma read_direction_one rest d flag :
  direction_text d = Some flag -> keep direction_flag rest = [attribute flag] -> read_direction rest = d.
Proof. intros Hd E. rewrite read_direction_keep, E. by destruct d; simplify_eq/=. Qed.

Lemma direction_flags h : direction_flag h = true -> exists d flag, direction_text d = Some flag /\ h = attribute flag.
Proof.
  unfold direction_flag. rewrite !orb_true_iff, !is_flag_eq. intros [[[->| ->]| ->]| ->].
  - by exists MEDIA_SEND_AND_RECEIVE, #"sendrecv".
  - by exists MEDIA_SEND_ONLY, #"sendonly".
  - by exists MEDIA_RECEIVE_ONLY, #"recvonly".
  - by exists MEDIA_INACTIVE, #"inactive".
Qed.

Lemma direction_text_ok d flag :
  direction_text d = Some flag -> direction_flag (attribute flag) = true /\ plain_text flag /\ flag <> [] /\
    matches rtcp_key (attribute flag) = false /\ matches ptime_key (attribute flag) = false.
Proof.
  intros Hd. destruct d; simplify_eq/=; (split_and!; [done|constant|done|..]);
    unfold matches; rewrite caseless_prefix by (apply nul_free_rtcp || apply nul_free_ptime); reflexivity.
Qed.

(** Removing the flag of the direction leaves none. *)
Lemma erase_direction rest d flag :
  length (keep direction_flag rest) <= 1 -> read_direction rest = d -> direction_text d = Some flag ->
  keep direction_flag (erase_first (is_flag flag) rest) = [].
Proof.
  intros Hl Hr Hd. destruct (direction_text_ok _ _ Hd) as (Hf & _).
  destruct (erase_cases (is_flag flag) rest) as [(a & h & b & E & _ & Hh & ->)|[Hn ->]].
  - apply is_flag_eq in Hh as ->. rewrite E, List.filter_app in Hl. cbn [List.filter] in Hl. rewrite Hf, length_app in Hl.
    cbn in Hl. rewrite List.filter_app.
    destruct (keep direction_flag a), (keep direction_flag b); cbn in *; done || lia.
  - destruct (keep direction_flag rest) as [|h hs] eqn:E; [done|].
    assert (Hin : In h (keep direction_flag rest)) by (rewrite E; apply in_eq). apply filter_In in Hin as [Hin Hh].
    destruct (direction_flags h Hh) as (d' & flag' & Hd' & ->).
    assert (hs = []) as -> by (destruct hs; [done|cbn in Hl; lia]).
    assert (d' = d) as ->. { rewrite <- Hr. symmetry. by apply (read_direction_one rest d' flag'). }
    assert (flag' = flag) as -> by congruence.
    rewrite List.Forall_forall in Hn. specialize (Hn _ Hin). by rewrite (proj2 (is_flag_eq flag _)) in Hn.
Qed.

Lemma set_direction_proper m l rest d :
  proper m l rest -> d <> MEDIA_UNSET ->
  exists rest', proper (setDirection m d) l rest' /\ view_of l rest' = (view_of l rest) <| v_direction := d |>.
Proof.
  intros H Hn. pose proof H as [Hl Ht Hr Hd Hv Hk]. unfold setDirection. case_decide as Ed.
  { exists rest. split; [done|]. destruct (k_direction _ _ Hk) as [?|E]; [congruence|]. by rewrite <- Ed, E. }
  rewrite getDirection_reads by by eapply proper_coherent. cbn [snd]. cbn zeta.
  set (d0 := read_direction (hdrs m)). set (m0 := m <| direction := d0 |>). change (direction m0) with d0.
  assert (E0 : d0 = read_direction rest) by (subst d0; by rewrite (proj1 Hl)).
  destruct (direction_text d0) as [f0|] eqn:Ef0.
  2:{ subst d0. exfalso. revert Ef0. unfold read_direction. repeat case_match; done. }
  destruct (direction_text d) as [f|] eqn:Ef; [|by destruct d].
  destruct (direction_text_ok _ _ Ef) as (Hf & Hpl & Hne & Hm1 & Hm2).
  destruct (direction_text_ok _ _ Ef0) as (Hf0 & _ & _ & Hm3 & Hm4).
  rewrite (remove_flag_hdrs m0 l rest f0) by exact Hl. set (r1 := erase_first (is_flag f0) rest).
  assert (E1 : keep direction_flag r1 = []) by (by apply (erase_direction rest d0)).
  rewrite (set_flag_hdrs _ l r1 f) by (by apply with_line_ok, Hl).
  assert (Ex : existsb (is_flag f) r1 = false).
  { apply not_true_iff_false. intros (h & Hin & ->%is_flag_eq)%existsb_exists.
    apply (in_nil (a := attribute f)). rewrite <- E1. by apply filter_In. }
  rewrite Ex. set (r2 := r1 ++ [attribute f]).
  assert (E2 : keep direction_flag r2 = [attribute f]).
  { unfold r2. rewrite List.filter_app, E1. cbn [List.filter]. by rewrite Hf. }
  assert (Ev : v_direction (view_of l r2) = d) by (by apply (read_direction_one r2 d f)).
  assert (Hq : forall q, q (attribute f0) = false -> q (attribute f) = false -> keep q r2 = keep q rest).
  { intros q Hq0 Hq1. unfold r2. rewrite List.filter_app. cbn [List.filter]. rewrite Hq1, app_nil_r.
    apply keep_erase. by intros h ->%is_flag_eq. }
  assert (Ec : v_control (view_of l r2) = v_control (view_of l rest)) by (by apply control_same, Hq).
  assert (Ea : v_address (view_of l r2) = v_address (view_of l rest)) by (by apply address_same, Hq).
  assert (Ep : v_ptime (view_of l r2) = v_ptime (view_of l rest)) by (by apply ptime_same, Hq).
  exists r2. split; [|by apply view_eq]. constructor; [split; [done|apply Hl]|done| |by rewrite E2|done|].
  - apply Forall_app. split; [by apply erase_ok|]. apply Forall_cons_2; [by apply attribute_ok|done].
  - still_kept Hk; [by rewrite Ec|by rewrite Ea|by rewrite Ep|by rewrite Ev; right].
Qed.

End ops.
