(* ===== verification/SdpSessionFacts.v ===== *)
(** * Facts about sessions

    The constructor of [SDPSession] on any text and on the text of a session. *)

From S2P Require Import Prelude Abnf AbnfFacts AbnfSearch CoreStrings CMem SdpText SdpHeaders SdpMedia SdpSession.
Open Scope nat_scope.

(** ** Any text *)

(** The headers that are read go behind those there are; the first of them has
    the name that is being read. *)
Lemma parse_first s name value l :
  parserState l <> STATE_EXPECTING_NAME ->
  exists more, headers (parse_loop s name value l) = headers l ++ more /\
    match more with [] => True | h :: _ => hdr_name h = name end.
Proof.
  assert (Hp : forall l n v, headers (push l (new_header n v)) = headers l ++ [new_header n v]) by done.
  revert name value l. induction s as [|c s IH]; intros name value l Hl; cbn [parse_loop].
  - destruct (_ && _); [by exists [new_header name value]|]. exists []. by rewrite app_nil_r.
  - destruct (Ascii.eqb c NUL).
    { destruct (_ && _); [by exists [new_header name value]|]. exists []. by rewrite app_nil_r. }
    assert (Hs : forall l' v, headers l' = headers l -> parserState l' <> STATE_EXPECTING_NAME ->
      exists more, headers (parse_loop s name v l') = headers l ++ more /\
        match more with [] => True | h :: _ => hdr_name h = name end) by (intros l' v <- H; by apply IH).
    destruct (parserState l) eqn:Es; [done|..].
    + destruct (Ascii.eqb c "="); [by apply Hs|]. exists []. by rewrite app_nil_r.
    + destruct (is_eol c); apply Hs; done || congruence.
    + destruct (negb (is_eol c) && is_char c); [|apply Hs; done || congruence]. cbn zeta.
      destruct (Ascii.eqb c _); [by exists [new_header name value]|].
      set (l' := _ <| parserState := _ |>). destruct (IH c [] l') as (more & E & _); [done|].
      exists (new_header name value :: more). split; [|done]. rewrite E. subst l'. cbn. by rewrite <- app_assoc.
Qed.

(** What is left is shorter. *)
Lemma parse_tail s name value l :
  length (tail (parse_loop s name value l)) <= Nat.max (length (tail l)) (length s).
Proof.
  revert name value l. induction s as [|c s IH]; intros name value l; cbn [parse_loop].
  - destruct (_ && _); cbn; lia.
  - destruct (Ascii.eqb c NUL); [destruct (_ && _); cbn; lia|].
    assert (Hs : forall l', tail l' = tail l -> forall n v, length (tail (parse_loop s n v l')) <= Nat.max (length (tail l)) (length (c :: s))).
    { intros l' E n v. specialize (IH n v l'). rewrite E in IH. cbn. lia. }
    destruct (parserState l).
    + destruct (is_char c); [by apply Hs|lia].
    + destruct (Ascii.eqb c "="); [by apply Hs|lia].
    + destruct (is_eol c); by apply Hs.
    + destruct (negb (is_eol c) && is_char c); [|by apply Hs]. cbn zeta.
      destruct (Ascii.eqb c _); [|by apply Hs]. cbn -[cstr]. unfold cstr. rewrite length_take. cbn. lia.
Qed.

(** The state the parser starts in. *)
Ltac start_state :=
  match goal with |- context [parserState ?l] => change (parserState l) with STATE_EXPECTING_NAME end; cbv iota.

Lemma new_list_tail raw exit : raw <> [] -> length (tail (new_list raw exit)) < length raw.
Proof.
  destruct raw as [|c s]; [done|]. intros _. unfold new_list, list_parse. cbn [parse_loop].
  destruct (Ascii.eqb c NUL); [destruct (_ && _); cbn; lia|].
  start_state.
  destruct (is_char c); [|cbn; lia].
  set (l := _ <| parserState := STATE_EXPECTING_EQUAL |>). pose proof (parse_tail s c [] l) as H. cbn in H. cbn. lia.
Qed.

(** The first header of a description is its first line. *)
Lemma new_media_first c s :
  match hdrs (new_media (c :: s)) with [] => True | h :: _ => hdr_name h = c end.
Proof.
  unfold hdrs, new_media, new_list, list_parse. cbn [m_list parse_loop]. destruct (Ascii.eqb c NUL); [done|].
  start_state. destruct (is_char c); [|done].
  set (l := _ <| parserState := STATE_EXPECTING_EQUAL |>). destruct (parse_first s c [] l) as (more & -> & H); [done|].
  by destruct more.
Qed.

(** The tail is empty or begins with the exit name. *)
Lemma parse_tail_head s name value l :
  match tail l with [] => True | c :: _ => c = exitName l end ->
  match tail (parse_loop s name value l) with [] => True | c :: _ => c = exitName l end.
Proof.
  revert name value l. induction s as [|c s IH]; intros name value l Hl; cbn [parse_loop].
  - destruct (_ && _); exact Hl.
  - destruct (Ascii.eqb c NUL) eqn:Ez; [destruct (_ && _); exact Hl|].
    assert (Hs : forall l' n v, tail l' = tail l -> exitName l' = exitName l ->
      match tail (parse_loop s n v l') with [] => True | c :: _ => c = exitName l end).
    { intros l' n v E E'. rewrite <- E'. apply IH. by rewrite E, E'. }
    destruct (parserState l).
    + destruct (is_char c); [|done]. by apply Hs.
    + destruct (Ascii.eqb c "="); [|done]. by apply Hs.
    + destruct (is_eol c); by apply Hs.
    + destruct (negb (is_eol c) && is_char c); [|by apply Hs]. cbn zeta.
      set (l' := _ <| parserState := STATE_EXPECTING_EQUAL |>). change (exitName l') with (exitName l).
      destruct (Ascii.eqb_spec c (exitName l)) as [->|]; [|by apply Hs].
      cbn -[cstr]. unfold cstr. by destruct (strlen _).
Qed.

Lemma new_list_head raw exit : match tail (new_list raw exit) with [] => True | c :: _ => c = exit end.
Proof. unfold new_list, list_parse. by apply parse_tail_head. Qed.

Section session.
Context {boost : BoostString} {text : BoostText}.

(** A description that begins with its media line, if it has lines at all. *)
Definition led_by_m (m : SDPMedia) : Prop := match hdrs m with [] => True | h :: _ => hdr_name h = "m"%char end.

Lemma media_loop_ends fuel st ptrs tl :
  length tl < fuel -> match tl with [] => True | c :: _ => c = "m"%char end ->
  exists ms, media_loop fuel st ptrs tl = Val (st ++ ms, ptrs ++ seq (length st) (length ms), []) /\
    Forall (fun m => led_by_m m /\ exists raw, m = new_media raw) ms /\ length ms <= length tl.
Proof.
  revert st ptrs tl. induction fuel as [|fuel IH]; intros st ptrs tl Hf Hm; [lia|]. cbn [media_loop].
  destruct tl as [|c s]; [exists []; rewrite !app_nil_r; split_and!; [done|constructor|cbn; lia]|]. cbn zeta. subst c.
  pose proof (new_list_tail ("m"%char :: s) "m" ltac:(done)) as Ht. pose proof (new_list_head ("m"%char :: s) "m") as Hh.
  destruct (IH (st ++ [new_media ("m"%char :: s)]) (ptrs ++ [length st]) (tail (m_list (new_media ("m"%char :: s)))))
    as (ms & -> & Hms & Hl); [cbn in Ht, Hf |- *; lia|done|].
  exists (new_media ("m"%char :: s) :: ms). split_and!.
  - rewrite <- !app_assoc, length_app. cbn. by rewrite Nat.add_1_r.
  - apply Forall_cons_2; [|done]. split; [apply new_media_first|by eexists].
  - cbn in Hl, Ht |- *. lia.
Qed.

(** The constructor of a session. *)
Lemma new_session_ends fuel st raw :
  length raw < fuel ->
  exists ms, new_session fuel st raw =
      Val (st ++ ms, mkSDPSession ((new_list raw "m") <| tail := [] |>) (seq (length st) (length ms))) /\
    Forall (fun m => led_by_m m /\ exists raw, m = new_media raw) ms /\ length ms <= length raw.
Proof.
  intros Hf. unfold new_session. cbn zeta.
  assert (Hl : length (tail (new_list raw "m")) <= length raw).
  { destruct raw as [|c raw]; [vm_compute; lia|]. pose proof (new_list_tail (c :: raw) "m" ltac:(done)). lia. }
  destruct (media_loop_ends fuel st [] (tail (new_list raw "m"))) as (ms & -> & Hm & Hlen); [lia|apply new_list_head|].
  rewrite val_bind. exists ms. split; [done|]. split; [done|lia].
Qed.

(** ** The text of a session *)

(** Lines that can be read back. *)
Definition block (lead : SDPHeader) (hs : list SDPHeader) : Prop :=
  header_ok lead /\ Forall (fun h => header_ok h /\ hdr_name h <> "m"%char) hs.
Definition media_block (hs : list SDPHeader) : Prop :=
  match hs with [] => False | h :: hs => hdr_name h = "m"%char /\ block h hs end.

Lemma lines_nul_free hs : Forall header_ok hs -> nul_free (lines hs).
Proof.
  induction 1 as [|h hs Hh H IH]; [constructor|]. change (lines (h :: hs)) with ((header_toString h ++ CRLF) ++ lines hs).
  rewrite !nul_free_app. split; [split|done].
  - rewrite header_toString_ok by done. destruct Hh as [(_ & _ & Hn) Hv].
    apply Forall_cons_2; [intros E; by apply Hn, schar_nul|]. apply Forall_cons_2; [discriminate|]. by apply value_nul_free.
  - repeat (apply Forall_cons_2; [discriminate|]). constructor.
Qed.

Lemma block_ok h hs : block h hs -> Forall header_ok (h :: hs) /\ Forall (fun h => hdr_name h <> "m"%char) hs.
Proof.
  intros [Hh H]. split; [apply Forall_cons_2; [done|]|]; (eapply Forall_impl; [exact H|]); by intros x [? ?].
Qed.

Lemma blocks_nul_free blocks : Forall media_block blocks -> nul_free (concat (map lines blocks)).
Proof.
  induction 1 as [|hs blocks Hb H IH]; [constructor|]. cbn [map concat]. apply nul_free_app. split; [|done].
  destruct hs as [|h hs]; [done|]. destruct Hb as [_ Hb]. apply lines_nul_free. by destruct (block_ok h hs Hb).
Qed.

(** Blocks begin with the exit name. *)
Lemma blocks_lead blocks :
  Forall media_block blocks ->
  concat (map lines blocks) = [] \/
  exists r, concat (map lines blocks) = "m"%char :: r /\ name_ok "m" /\ nul_free (concat (map lines blocks)).
Proof.
  intros H. pose proof (blocks_nul_free _ H) as Hn. destruct H as [|[|h hs] blocks Hb H]; [by left|done|]. right.
  destruct Hb as [Hm [Hh _]]. cbn [map concat] in *.
  change (lines (h :: hs)) with ((header_toString h ++ CRLF) ++ lines hs) in *. rewrite header_toString_ok, Hm in * by done.
  eexists. split; [done|]. split; [split_and!; done|done].
Qed.

Lemma media_loop_blocks fuel st ptrs blocks :
  Forall media_block blocks -> length blocks < fuel ->
  exists ms, media_loop fuel st ptrs (concat (map lines blocks)) = Val (st ++ ms, ptrs ++ seq (length st) (length blocks), []) /\
    Forall2 (fun m hs => hdrs m = hs /\ isValid (m_list m) = true) ms blocks.
Proof.
  intros H. revert fuel st ptrs. induction H as [|hs blocks Hb H IH]; intros fuel st ptrs Hf; (destruct fuel as [|fuel]; [cbn in Hf; lia|]).
  - exists []. cbn. by rewrite !app_nil_r.
  - destruct hs as [|h hs]; [done|]. destruct Hb as [Hm Hb]. destruct (block_ok _ _ Hb) as [[Hh Hs]%Forall_cons Hn].
    destruct (list_parse_lines h hs (concat (map lines blocks)) "m" Hh Hs Hn (blocks_lead _ H)) as (E1 & E2 & E3).
    cbn [map concat media_loop]. destruct (lines (h :: hs) ++ concat (map lines blocks)) as [|c s] eqn:E.
    { exfalso. change (lines (h :: hs)) with ((header_toString h ++ CRLF) ++ lines hs) in E.
      by rewrite header_toString_ok in E. }
    cbn zeta. unfold new_media at 2. cbn [m_list]. rewrite E3.
    destruct (IH fuel (st ++ [new_media (c :: s)]) (ptrs ++ [length st])) as (ms & -> & Hms); [cbn in Hf; lia|].
    exists (new_media (c :: s) :: ms). split.
    + rewrite <- !app_assoc, length_app. cbn. by rewrite Nat.add_1_r.
    + by apply Forall2_cons_2.
Qed.

End session.
