(* ===== verification/SdpStore.v ===== *)
(** * The objects of a session

    Looking for descriptions in a session finds the first of their type, and setting the
    address or the port of one changes what it says and nothing else of it. *)

From S2P Require Import Prelude Abnf AbnfFacts AbnfSearch CoreStrings CMem SdpText SdpHeaders SdpMedia SdpSession SdpMediaFacts SdpCoherence SdpOps SdpSessionFacts.
Open Scope nat_scope.

Section store.
Context {boost : BoostString} {text : BoostText}.

(** A description that has kept nothing wrong of its type and its address. *)
Definition tidy (m : SDPMedia) : Prop :=
  (mediaType m = TYPE_NONE \/ mediaType m = read_type (hdrs m)) /\
  (address m = [] \/ address m = read_address (hdrs m)) /\ led_by_m m.

Lemma getMediaType_tidy m :
  tidy m -> exists m', getMediaType m = (read_type (hdrs m), m') /\ tidy m' /\ hdrs m' = hdrs m.
Proof.
  intros (Ht & Ha & Hm). unfold getMediaType. case_decide as E.
  - eexists. split; [done|]. split; [|done]. split; [by right|]. by split.
  - destruct Ht as [Ht|Ht]; [done|]. exists m. rewrite Ht. split; [done|]. split; [|done]. split; [by right|]. by split.
Qed.

Lemma getAddress_tidy m :
  tidy m -> exists m', getAddress m = (read_address (hdrs m), m') /\ tidy m' /\ hdrs m' = hdrs m.
Proof.
  intros (Ht & Ha & Hm). unfold getAddress. destruct (address m) as [|c a] eqn:E.
  - eexists. split; [done|]. split; [|done]. split; [done|]. split; [by right|done].
  - destruct Ha as [Ha|Ha]; [done|]. exists m. rewrite Ha. split; [done|]. split; [|done]. split; [done|]. split; [by right; congruence|done].
Qed.

(** Stores whose objects have the same headers. *)
Definition alike (st st' : store) : Prop := map hdrs st' = map hdrs st.

Lemma alike_insert st p m m' : st !! p = Some m -> hdrs m' = hdrs m -> alike st (<[p := m']> st).
Proof. intros E Eh. unfold alike. change (map hdrs) with (fmap (M := list) hdrs). rewrite list_fmap_insert, Eh.
  apply list_insert_id. by rewrite list_lookup_fmap, E. Qed.

Lemma alike_lookup st st' p m : alike st st' -> st !! p = Some m -> exists m', st' !! p = Some m' /\ hdrs m' = hdrs m.
Proof.
  intros H E. assert (Hl : map hdrs st' !! p = Some (hdrs m)) by (rewrite H; change (map hdrs) with (fmap (M := list) hdrs); by rewrite list_lookup_fmap, E).
  change (map hdrs) with (fmap (M := list) hdrs) in Hl. rewrite list_lookup_fmap in Hl. destruct (st' !! p); [|done]. cbn in Hl. simplify_eq. eauto.
Qed.

Lemma alike_trans a b c : alike a b -> alike b c -> alike a c.
Proof. unfold alike. congruence. Qed.

(** The type of the object a pointer points to. *)
Definition type_at (st : store) (p : nat) : MediaType :=
  match st !! p with Some m => read_type (hdrs m) | None => TYPE_NONE end.
Definition of_type (st : store) (type : MediaType) (ptrs : list nat) : list nat :=
  List.filter (fun p => bool_decide (type_at st p = type)) ptrs.

Lemma type_at_alike st st' p : alike st st' -> p < length st -> type_at st' p = type_at st p.
Proof.
  intros H Hp. destruct (lookup_lt_is_Some_2 st p Hp) as [m E]. destruct (alike_lookup _ _ _ _ H E) as (m' & E' & Eh).
  unfold type_at. by rewrite E, E', Eh.
Qed.

Lemma alike_length st st' : alike st st' -> length st' = length st.
Proof. intros H. apply (f_equal length) in H. by rewrite !length_map in H. Qed.

Lemma of_type_alike st st' type ptrs :
  alike st st' -> Forall (fun p => p < length st) ptrs -> of_type st' type ptrs = of_type st type ptrs.
Proof.
  intros H Hp. unfold of_type. induction Hp as [|p ptrs Hp Hps IH]; [done|]. cbn [List.filter].
  by rewrite (type_at_alike st st' p), IH.
Qed.

(** Looking for an object finds the one at its place among those of the type. *)
Lemma locate_finds st type index ptrs :
  Forall tidy st -> Forall (fun p => p < length st) ptrs ->
  exists st' r, locate st type index ptrs = Val (st', r) /\ Forall tidy st' /\ alike st st' /\
    of_type st type ptrs !! index = match r with Some (_, p, _) => Some p | None => None end.
Proof.
  intros Hs Hp. revert st index Hs Hp. induction ptrs as [|p ptrs IH]; intros st index Hs Hp.
  { exists st, None. done. }
  apply Forall_cons in Hp as [Hp Hps]. destruct (lookup_lt_is_Some_2 st p Hp) as [m E].
  cbn [locate]. unfold load. rewrite E, val_bind.
  destruct (getMediaType_tidy m) as (m' & -> & Hm' & Eh); [by eapply Forall_lookup_1|].
  assert (Ha : alike st (<[p := m']> st)) by (by apply (alike_insert st p m)).
  assert (Hs' : Forall tidy (<[p := m']> st)) by (by apply Forall_insert).
  assert (Hps' : Forall (fun q => q < length (<[p := m']> st)) ptrs) by (by rewrite length_insert).
  assert (Ep : type_at st p = read_type (hdrs m)) by (unfold type_at; by rewrite E).
  unfold of_type. cbn [List.filter]. case_decide as Et.
  - rewrite bool_decide_eq_true_2 by congruence. destruct index as [|index].
    + do 2 eexists. split; [done|]. done.
    + destruct (IH _ index Hs' Hps') as (st' & r & -> & Ht & Hal & Er). rewrite val_bind. do 2 eexists. split; [done|].
      split; [done|]. split; [by eapply alike_trans|].
      rewrite (of_type_alike st) in Er by done. by destruct r as [[[a q] b]|].
  - rewrite bool_decide_eq_false_2 by congruence.
    destruct (IH _ index Hs' Hps') as (st' & r & -> & Ht & Hal & Er). rewrite val_bind. do 2 eexists. split; [done|].
    split; [done|]. split; [by eapply alike_trans|].
    rewrite (of_type_alike st) in Er by done. by destruct r as [[[a q] b]|].
Qed.

Lemma count_counts st type ptrs :
  type <> TYPE_NONE -> Forall tidy st -> Forall (fun p => p < length st) ptrs ->
  exists st', count_type st type ptrs = Val (st', length (of_type st type ptrs)) /\ Forall tidy st' /\ alike st st'.
Proof.
  intros Hn Hs Hp. revert st Hs Hp. induction ptrs as [|p ptrs IH]; intros st Hs Hp; [by exists st|].
  apply Forall_cons in Hp as [Hp Hps]. destruct (lookup_lt_is_Some_2 st p Hp) as [m E].
  cbn [count_type]. rewrite decide_False by done. unfold load. rewrite E, val_bind.
  destruct (getMediaType_tidy m) as (m' & -> & Hm' & Eh); [by eapply Forall_lookup_1|].
  assert (Ha : alike st (<[p := m']> st)) by (by apply (alike_insert st p m)).
  destruct (IH (<[p := m']> st)) as (st' & -> & Ht & Hal); [by apply Forall_insert|by rewrite length_insert|].
  rewrite val_bind. exists st'. split; [|split; [done|by eapply alike_trans]].
  assert (Ep : type_at st p = read_type (hdrs m)) by (unfold type_at; by rewrite E).
  rewrite (of_type_alike st) by done. unfold of_type. cbn [List.filter].
  case_decide; [by rewrite bool_decide_eq_true_2 by congruence|by rewrite bool_decide_eq_false_2 by congruence].
Qed.

(** ** Addresses and ports *)

Lemma type_led m : read_type (hdrs m) <> TYPE_NONE -> exists h hs, hdrs m = h :: hs /\ hdr_name h = "m"%char.
Proof.
  unfold read_type, m_line. destruct (hdrs m) as [|h hs]; [done|]. destruct (Ascii.eqb_spec (hdr_name h) "m"); [|done].
  intros _. by exists h, hs.
Qed.

(** Setting the address of a description. *)
Lemma set_address_reads m h hs isV4 addr :
  hdrs m = h :: hs -> hdr_name h = "m"%char -> word addr ->
  exists rest, hdrs (internalSetAddress m addr isV4) = h :: rest /\
    read_address (hdrs (internalSetAddress m addr isV4)) = addr /\
    address (internalSetAddress m addr isV4) = addr /\ mediaType (internalSetAddress m addr isV4) = mediaType m.
Proof.
  intros E Hn Ha. unfold internalSetAddress. rewrite E, Hn. cbn [Ascii.eqb Bool.eqb]. cbn zeta. fold (connection_text isV4 addr).
  eexists. split; [done|]. split; [|done].
  change (hdrs (set_hdrs _ ?l)) with l. unfold read_address. cbn [find_header]. rewrite Hn. cbn [Ascii.eqb Bool.eqb].
  rewrite find_placed by done. by apply connection_address_text.
Qed.

Lemma first_header_type h hs hs' : read_type (h :: hs) = read_type (h :: hs').
Proof. done. Qed.

Lemma set_address_tidy m isV4 addr type :
  tidy m -> read_type (hdrs m) = type -> type <> TYPE_NONE -> word addr ->
  let m' := internalSetAddress m addr isV4 in
  tidy m' /\ read_type (hdrs m') = type /\ read_address (hdrs m') = addr /\ m_line (hdrs m') = m_line (hdrs m).
Proof.
  intros (Ht & _ & _) Hty Hn Ha m'. destruct (type_led m) as (h & hs & E & Hm); [by rewrite Hty|].
  destruct (set_address_reads m h hs isV4 addr E Hm Ha) as (rest & E' & Er & Ea & Et). fold m' in E', Er, Ea, Et.
  assert (Ety : read_type (hdrs m') = read_type (hdrs m)) by (by rewrite E, E').
  split; [|split; [congruence|split; [done|by rewrite E, E']]]. split; [rewrite Et, Ety; done|].
  split; [right; congruence|]. unfold led_by_m. by rewrite E'.
Qed.

(** The first word of a line with more of them decides the type. *)
Lemma line_type h hs value t ts :
  hdr_name h = "m"%char -> hdr_value h = value -> string_tokenize value #" " = t :: ts -> ts <> [] ->
  read_type (h :: hs) = type_of t.
Proof.
  intros Hn Hv Ht Hts. unfold string_tokenize in Ht.
  destruct (token_cases #" " value) as [Hf|(w & brk & s' & E & Hw & Hb & Hbrk & Hs')].
  - rewrite split_free in Ht by done. by simplify_eq.
  - rewrite E, split_run in Ht by done. injection Ht as <- <-.
    destruct brk as [|c brk]; [done|]. apply Forall_cons in Hbrk as [Hc _].
    assert (c = " "%char) as ->. { unfold is_sep in Hc. cbn in Hc. rewrite orb_false_r in Hc. by apply Ascii.eqb_eq. }
    unfold read_type, type_of, m_line. rewrite Hn, Hv, E. cbn [Ascii.eqb Bool.eqb app].
    by rewrite !caseless_word by constant.
Qed.

(** The words of the line after the port has been set. *)
Lemma port_tokens value port t0 t1 t2 ts :
  string_tokenize value #" " = t0 :: t1 :: t2 :: ts ->
  string_tokenize (unwords (t0 :: dec port :: t2 :: ts)) #" " = t0 :: dec port :: t2 :: ts.
Proof.
  intros E. apply split_unwords. pose proof (split_ok value) as H. unfold string_tokenize in E. rewrite E in H.
  destruct H as (H0 & _ & _ & H). split; [done|]. split; [left; apply dec_nonempty|].
  split; [by apply dec_word|done].
Qed.

Lemma set_port_tidy m type port :
  tidy m -> read_type (hdrs m) = type -> type <> TYPE_NONE -> (0 <= port < 2 ^ 16)%Z ->
  exists m', setDataPort m port = Val m' /\ tidy m' /\ read_type (hdrs m') = type /\
    read_address (hdrs m') = read_address (hdrs m) /\
    (read_dataPort (hdrs m') = port \/ exists value, m_line (hdrs m) = Some value /\ length (string_tokenize value #" ") <= 2).
Proof.
  intros Htd Hty Hn Hp. destruct (type_led m) as (h & hs & E & Hm); [by rewrite Hty|].
  unfold setDataPort. rewrite E. cbn [m_line]. rewrite Hm. cbn [Ascii.eqb Bool.eqb]. cbn zeta.
  destruct (string_tokenize (hdr_value h) #" ") as [|t0 [|t1 [|t2 ts]]] eqn:Et; cbn [length Nat.ltb Nat.leb].
  1-3: exists m; rewrite E in *; split_and!; try done; right; eexists; split; [done|]; rewrite Et; cbn; lia.
  set (value := unwords (<[1 := dec port]> (t0 :: t1 :: t2 :: ts))).
  assert (Ev : string_tokenize value #" " = t0 :: dec port :: t2 :: ts) by (by apply (port_tokens (hdr_value h) port t0 t1)).
  assert (Es : set_m_line m value = set_hdrs m (h <| hdr_value := value |> :: hs)) by (unfold set_m_line; by rewrite E).
  rewrite Es. set (h' := h <| hdr_value := value |>). eexists. split; [done|].
  assert (Ety : read_type (h' :: hs) = read_type (h :: hs)).
  { rewrite (line_type h' hs value t0 (dec port :: t2 :: ts)), (line_type h hs (hdr_value h) t0 (t1 :: t2 :: ts)) by done. done. }
  assert (Ea : read_address (h' :: hs) = read_address (h :: hs)).
  { unfold read_address. cbn [find_header]. change (hdr_name h') with (hdr_name h). by rewrite Hm. }
  destruct Htd as (T1 & T2 & T3). rewrite E in T1, T2, Hty. split_and!.
  - split; [change (mediaType m = TYPE_NONE \/ mediaType m = read_type (h' :: hs)); by rewrite Ety|].
    split; [change (address m = [] \/ address m = read_address (h' :: hs)); by rewrite Ea|exact Hm].
  - change (read_type (h' :: hs) = type). congruence.
  - exact Ea.
  - left. change (read_dataPort (h' :: hs) = port). unfold read_dataPort. cbn [m_line]. change (hdr_name h') with (hdr_name h).
    rewrite Hm. cbn [Ascii.eqb Bool.eqb]. change (hdr_value h') with value. cbn zeta. rewrite Ev. exact (port_of_dec port Hp).
Qed.

(** Changing the address of a session: it is shown, if the session has a line for it. *)
Lemma change_address_reads s addr :
  word addr -> session_getAddress (changeAddress s addr #"IP4") = addr \/
    session_getAddress (changeAddress s addr #"IP4") = [] /\ session_getAddress s = [].
Proof.
  intros Ha. unfold changeAddress, session_getAddress. change (s_hdrs (set_s_hdrs s ?l)) with l.
  change (#"IN " ++ #"IP4" ++ #" " ++ addr) with (connection_text true addr). generalize (s_hdrs s).
  induction l as [|[n v] hs IH]; [by right|]. cbn [map find_header hdr_name]. destruct (Ascii.eqb n "c") eqn:En; cbn [hdr_name].
  - left. cbn -[connection_text connection_address]. rewrite En. by apply connection_address_text.
  - by rewrite En.
Qed.

End store.
