(* ===== verification/SdpTheorems.v ===== *)
(** * The theorems about session descriptions

    The properties of the text of a session and of the objects that are read from
    it, each with an instance on concrete values. *)

From S2P Require Import Prelude Abnf AbnfFacts AbnfSearch CoreStrings CMem SdpText SdpHeaders SdpMedia SdpSession SdpMediaFacts SdpCoherence SdpOps SdpSessionFacts.
Open Scope nat_scope.

Section theorems.
Context {boost : BoostString} {text : BoostText}.

(** ** The operations as data *)

Inductive media_op :=
| GetMediaType | GetRTPProfile | GetPayloads | GetDataPort | GetControlPort | GetAddress | GetPtime | GetDirection
| SetMediaType (t : MediaType) | SetRTPProfile (p : Profile) | SetPayloads (ps : list Z)
| AddPayload (x : Z) | RemovePayload (x : Z) | SetDataPort (p : Z) | SetControlPort (p : Z) | SetPtime (p : Z)
| SetAddress (isV4 : bool) (a : str) | SetDirection (d : Direction)
| SetAttribute (p : Z) (a v : str) | RemoveAttribute (p : Z) (a : str)
| SetCommonAttribute (a v : str) | RemoveCommonAttribute (a : str)
| SetVectorAttributes (label : str) (vs : list str) | SetUniqueAttribute (label v : str)
| SetFlagAttribute (flag : str) | RemoveFlagAttribute (flag : str).

Definition apply_op (op : media_op) (m : SDPMedia) : cres SDPMedia :=
  match op with
  | GetMediaType => Val (getMediaType m).2
  | GetRTPProfile => Val (getRTPProfile m).2
  | GetPayloads => Val (getPayloads m).2
  | GetDataPort => Val (getDataPort m).2
  | GetControlPort => Val (getControlPort m).2
  | GetAddress => Val (getAddress m).2
  | GetPtime => Val (getPtime m).2
  | GetDirection => Val (getDirection m).2
  | SetMediaType t => setMediaType m t
  | SetRTPProfile p => setRTPProfile m p
  | SetPayloads ps => Val (setPayloads m ps)
  | AddPayload x => '(_, m) ← addPayload m x; Val m
  | RemovePayload x => Val (removePayload m x)
  | SetDataPort p => setDataPort m p
  | SetControlPort p => setControlPort m p
  | SetPtime p => setPtime m p
  | SetAddress isV4 a => Val (internalSetAddress m a isV4)
  | SetDirection d => Val (setDirection m d)
  | SetAttribute p a v => setAttribute m p a v
  | RemoveAttribute p a => removeAttribute m p a
  | SetCommonAttribute a v => setCommonAttribute m a v
  | RemoveCommonAttribute a => Val (removeCommonAttribute m a)
  | SetVectorAttributes label vs => Val (setVectorAttributes m label vs)
  | SetUniqueAttribute label v => Val (setUniqueAttribute m label v)
  | SetFlagAttribute flag => Val (setFlagAttribute m flag)
  | RemoveFlagAttribute flag => Val (removeFlagAttribute m flag)
  end.

(** What an operation asks for.  The attributes that have operations of their own are
    set by these; the last format of a line is not removed; the data port is
    not changed after a control port has been derived from it. *)
Definition op_ok (op : media_op) (m : SDPMedia) : Prop :=
  match op with
  | SetMediaType t => t <> TYPE_NONE
  | SetRTPProfile p => p <> PROFILE_NONE /\ read_payloads (hdrs m) <> []
  | SetPayloads ps => ps <> [] /\ Forall (in_type Int) ps
  | AddPayload x => (x <= 255)%Z /\ in_type Int x
  | RemovePayload x => payloads m <> [] /\ exists y, In y (read_payloads (hdrs m)) /\ y <> x
  | SetDataPort p => (0 <= p < 2 ^ 16)%Z /\ (controlPort m = 0%Z \/ read_common rtcp_key (hdrs m) <> [])
  | SetControlPort p | SetPtime p => (0 < p < 2 ^ 16)%Z
  | SetAddress _ a => word a /\ plain_text a
  | SetDirection d => d <> MEDIA_UNSET
  | SetAttribute p a v => (p <= 255)%Z /\ v <> [] /\ plain_text v /\ free_key (payload_key p a)
  | RemoveAttribute p a => (p <= 255)%Z /\ free_key (payload_key p a)
  | SetCommonAttribute a v => v <> [] /\ plain_text v /\ free_key (a ++ #":")
  | SetUniqueAttribute a v => plain_text v /\ free_key (a ++ #":")
  | RemoveCommonAttribute a => free_key (a ++ #":")
  | SetVectorAttributes a vs => Forall plain_text vs /\ free_key (a ++ #":")
  | SetFlagAttribute flag | RemoveFlagAttribute flag => free_flag flag
  | _ => True
  end.

(** What an operation does to what can be asked of the description. *)
Definition op_effect (op : media_op) (v : view) (control : Z) : view :=
  match op with
  | SetMediaType t => v <| v_type := t |>
  | SetRTPProfile p => v <| v_profile := p |>
  | SetPayloads ps => v <| v_payloads := ps |>
  | AddPayload x => if existsb (Z.eqb x) (v_payloads v) then v else v <| v_payloads := v_payloads v ++ [x] |>
  | RemovePayload x => v <| v_payloads := List.filter (fun p => negb (p =? x)%Z) (v_payloads v) |>
  | SetDataPort p => v <| v_port := p |> <| v_control := control |>
  | SetControlPort p => v <| v_control := p |>
  | SetPtime p => v <| v_ptime := p |>
  | SetAddress _ a => v <| v_address := a |>
  | SetDirection d => v <| v_direction := d |>
  | _ => v
  end.
(** The control port after the data port has been set. *)
Definition next_control (m : SDPMedia) (op : media_op) : Z :=
  match op with
  | SetDataPort p =>
      match read_common rtcp_key (hdrs m) with
      | [] => if (p =? 0)%Z then 0%Z else u16 (p + 1)
      | port => string_to_number UShort port
      end
  | _ => 0%Z
  end.

(** A description the operations can be used on. *)
Definition usable (m : SDPMedia) : Prop := exists l rest, proper m l rest.

Lemma observe_view m l rest : proper m l rest -> observe m = view_of l rest.
Proof.
  intros H. rewrite observe_reads by by eapply proper_coherent. destruct (pr_line _ _ _ H) as [-> Hl].
  by apply read_view_line.
Qed.

(** A getter changes nothing that can be asked. *)
Lemma kept_proper m m' l rest :
  proper m l rest -> m_list m' = m_list m -> kept m' (view_of l rest) -> proper m' l rest.
Proof.
  intros [Hl Ht Hr Hd Hv Hk] E Hk'. assert (Eh : hdrs m' = hdrs m) by (unfold hdrs; by rewrite E).
  constructor; [|done..| |done]; [split; [by rewrite Eh; apply Hl|apply Hl]|by rewrite E].
Qed.

(** The members a getter leaves alone, and the one it has read. *)
Ltac reads E :=
  split; [done|]; split; [|done];
  match goal with H : proper ?m _ _ |- _ => apply (kept_proper m); [done|done|]; destruct (pr_kept _ _ _ H) end;
  rewrite <- E in *; by constructor; auto.

Lemma getter_proper op m l rest :
  proper m l rest ->
  match op with
  | GetMediaType | GetRTPProfile | GetPayloads | GetDataPort | GetControlPort | GetAddress | GetPtime | GetDirection =>
      exists m', apply_op op m = Val m' /\ proper m' l rest /\ op_effect op (view_of l rest) (next_control m op) = view_of l rest
  | _ => True
  end.
Proof.
  intros H. pose proof (proper_coherent _ _ _ H) as Hc.
  assert (E : read_view (hdrs m) = view_of l rest)
    by (destruct (pr_line _ _ _ H) as [-> Hl]; by apply read_view_line).
  destruct op; try exact I; cbn [apply_op].
  - rewrite getMediaType_reads by done. eexists. reads E.
  - rewrite getRTPProfile_reads by done. eexists. reads E.
  - rewrite getPayloads_reads by done. eexists. reads E.
  - rewrite getDataPort_reads by done. eexists. reads E.
  - destruct (getControlPort_reads m Hc) as (d & _ & -> & Hd). eexists. split; [done|]. split; [|done].
    apply (kept_proper m); [done|done|]. destruct (pr_kept _ _ _ H). rewrite <- E in *. constructor; auto.
    destruct Hd as [->| ->]; [done|by right].
  - rewrite getAddress_reads by done. eexists. reads E.
  - rewrite getPtime_reads by done. eexists. reads E.
  - rewrite getDirection_reads by done. eexists. reads E.
Qed.

Lemma op_proper op m l rest :
  proper m l rest -> op_ok op m ->
  exists m' l' rest', apply_op op m = Val m' /\ proper m' l' rest' /\
    view_of l' rest' = op_effect op (view_of l rest) (next_control m op).
Proof.
  intros H Hok. pose proof (getter_proper op m l rest H) as Hg. destruct (pr_line _ _ _ H) as [Eh Hl].
  destruct op; cbn [apply_op op_effect op_ok] in *;
    try (destruct Hg as (m' & E & Hp & _); exists m', l, rest; done); clear Hg.
  - destruct (set_type_proper m l rest t H Hok) as (m' & l' & ?). by exists m', l', rest.
  - rewrite Eh, read_payloads_line in Hok by done. destruct (set_profile_proper m l rest p H) as (m' & l' & ?); [apply Hok..|].
    by exists m', l', rest.
  - eexists _, (l <| l_formats := ps |>), rest. split; [done|]. split; [|done]. apply set_payloads_proper; [done|apply Hok..].
  - destruct (add_payload_proper m l rest x H) as (b & m' & l' & -> & Hp & E); [apply Hok..|].
    exists m', l', rest. split; [done|]. split; [done|]. rewrite E. by destruct (existsb _ _).
  - rewrite Eh, read_payloads_line in Hok by done. eexists _, _, rest. split; [done|].
    split; [apply remove_payload_proper; [exact H|apply Hok..]|done].
  - rewrite Eh in Hok. destruct (set_port_proper m l rest p H) as (m' & l' & E & Hp & Ev); [apply Hok..|].
    exists m', l', rest. split; [done|]. split; [done|]. rewrite Ev. unfold next_control. rewrite Eh.
    change (read_common rtcp_key (media_line l :: rest)) with (read_common rtcp_key rest).
    f_equal. unfold view_of. cbn [v_control]. by destruct (read_common rtcp_key rest).
  - destruct (set_control_proper m l rest p H Hok) as (m' & rest' & ?). by exists m', l, rest'.
  - destruct (set_ptime_proper m l rest p H Hok) as (m' & rest' & ?). by exists m', l, rest'.
  - destruct (set_address_proper m l rest isV4 a H) as (rest' & ?); [apply Hok..|]. by eexists _, l, rest'.
  - destruct (set_direction_proper m l rest d H Hok) as (rest' & ?). by eexists _, l, rest'.
  - destruct Hok as (Hp & Hv & Hpl & Hk). unfold setAttribute.
    rewrite (proj2 (Z.leb_le _ _)), bool_decide_eq_false_2 by done. cbn [negb orb]. cbn zeta.
    destruct (put_proper m l rest (payload_key p a) (#" " ++ v) H Hk) as (rest' & ?); [|by destruct a|by eexists _, l, rest'].
    apply plain_app. split; [constant|done].
  - destruct Hok as [Hp Hk]. unfold removeAttribute. rewrite (proj2 (Z.leb_le _ _)) by done. cbn [negb].
    destruct (erase_proper m l rest (payload_key p a) H Hk) as (rest' & ?). by eexists _, l, rest'.
  - destruct Hok as (Hv & Hpl & Hk). unfold setCommonAttribute. rewrite bool_decide_eq_false_2 by done. cbn zeta.
    destruct (put_proper m l rest (a ++ #":") v H Hk) as (rest' & ?); [done|by destruct a|by eexists _, l, rest'].
  - destruct (erase_proper m l rest (a ++ #":") H Hok) as (rest' & ?). by eexists _, l, rest'.
  - destruct Hok as [Hv Hk]. destruct (vector_proper m l rest label vs H Hk Hv) as (rest' & ?). by eexists _, l, rest'.
  - destruct Hok as [Hpl Hk]. unfold setUniqueAttribute. cbn zeta.
    destruct (put_proper m l rest (label ++ #":") v H Hk) as (rest' & ?); [done|by destruct label|by eexists _, l, rest'].
  - destruct (set_flag_proper m l rest flag H Hok) as (rest' & ?). by eexists _, l, rest'.
  - destruct (remove_flag_proper m l rest flag H Hok) as (rest' & ?). by eexists _, l, rest'.
Qed.


(** Operations one after the other. *)
Fixpoint run_ops (ops : list media_op) (m : SDPMedia) : cres SDPMedia :=
  match ops with
  | [] => Val m
  | op :: ops => m ← apply_op op m; run_ops ops m
  end.
Fixpoint run_ok (ops : list media_op) (m : SDPMedia) : Prop :=
  match ops with
  | [] => True
  | op :: ops => op_ok op m /\ forall m', apply_op op m = Val m' -> run_ok ops m'
  end.
Fixpoint run_view (ops : list media_op) (m : SDPMedia) (v : view) : view :=
  match ops with
  | [] => v
  | op :: ops =>
      let v := op_effect op v (next_control m op) in
      match apply_op op m with Val m => run_view ops m v | _ => v end
  end.


(** ** Attributes *)

Lemma key_space_free p a : space_free a -> space_free (payload_key p a).
Proof. intros H. apply Forall_app. split; [done|]. apply Forall_cons_2; [done|]. by apply dec_free. Qed.
Lemma payload_key_nul_free p a : nul_free a -> nul_free (payload_key p a).
Proof.
  intros H. apply nul_free_app. split; [done|]. apply Forall_cons_2; [discriminate|]. apply plain_nul_free, dec_plain.
Qed.

Lemma set_attribute_val m p a v :
  (p <= 255)%Z -> v <> [] ->
  setAttribute m p a v =
    Val (set_hdrs m (put_attribute (matches (payload_key p a)) (payload_key p a ++ #" " ++ v) (hdrs m))).
Proof. intros Hp Hv. unfold setAttribute. by rewrite (proj2 (Z.leb_le _ _)), bool_decide_eq_false_2. Qed.

(** What the search finds after an attribute has been set. *)
Lemma find_put key v hs :
  nul_free key -> exists x b h, find_split (matches key) (put_attribute (matches key) (key ++ v) hs) = Some (x, h, b) /\
    hdr_value h = key ++ v.
Proof.
  intros Hk. destruct (put_cases (matches key) (key ++ v) hs) as [(a & h & b & _ & Ha & Hh & ->)|[Ha ->]].
  - rewrite find_split_first; [by do 3 eexists|done|]. apply (matches_own key _ v Hk); [|done]. exact (matches_name _ _ Hh).
  - rewrite find_split_first; [by do 3 eexists|done|by apply own_key].
Qed.

(** An attribute of a payload is read as it was set.  After [setAttribute] the
    getter returns the value, and the lines that do not begin with the attribute
    and the payload are as before. *)
Theorem attribute_set_get m p a v :
  (p <= 255)%Z -> space_free a -> nul_free a -> v <> [] -> nul_free v ->
  exists m', setAttribute m p a v = Val m' /\ getAttribute m' p a = Val v /\
    keep (fun h => negb (matches (payload_key p a) h)) (hdrs m') = keep (fun h => negb (matches (payload_key p a) h)) (hdrs m).
Proof.
  intros Hp Hs Ha Hv Hn. rewrite set_attribute_val by done. eexists. split; [done|].
  pose proof (payload_key_nul_free p a Ha) as Hk. split.
  - unfold getAttribute. rewrite (proj2 (Z.leb_le _ _)) by done. cbn [negb].
    destruct (find_put (payload_key p a) (#" " ++ v) (hdrs m) Hk) as (x & b & h & E & Eh). cbn [hdrs set_hdrs] in E |- *.
    change (hdrs (set_hdrs m ?hs)) with hs. rewrite E, Eh. by rewrite after_space_word by (done || by apply key_space_free).
  - change (hdrs (set_hdrs m ?hs)) with hs. apply keep_put.
    + intros h Hh. split; [exact (matches_name _ _ Hh)|by rewrite Hh].
    + by rewrite own_key.
Qed.


(** The key of a payload is the beginning of the keys of others. *)
Lemma longer_key p q a s : dec q = dec p ++ s -> payload_key q a = payload_key p a ++ s.
Proof. intros E. unfold payload_key. rewrite E. by rewrite <- !app_assoc. Qed.

(** What the shorter key has set does not begin with the longer one. *)
Lemma longer_key_fails p q a s v h :
  nul_free a -> dec q = dec p ++ s -> s <> [] -> hdr_value h = payload_key p a ++ #" " ++ v ->
  matches (payload_key q a) h = false.
Proof.
  intros Hn E Hs Hh. unfold matches. rewrite caseless_prefix by by apply payload_key_nul_free.
  rewrite Hh, (longer_key p q a s E), !map_app. apply not_true_iff_false. intros [_ Hx]%andb_true_iff.
  apply is_prefix_spec in Hx as [r Hx]. rewrite <- app_assoc in Hx. apply app_inv_head in Hx.
  destruct s as [|c s]; [done|]. cbn [map app] in Hx. injection Hx as Hx _.
  pose proof (dec_chars q) as Hd. rewrite E in Hd. apply Forall_app in Hd as [_ [Hl _]%Forall_cons].
  assert (Ht : negb (lexical_char c) || negb (Ascii.eqb (tolower " ") (tolower c)) = true)
    by (apply (ascii_forallb (fun c => negb (lexical_char c) || negb (Ascii.eqb (tolower " ") (tolower c)))); vm_compute; reflexivity).
  rewrite Hl, <- Hx, Ascii.eqb_refl in Ht. done.
Qed.

(** The attributes of payloads run into each other.  When the number of one payload
    is the beginning of that of another (9 and 97), setting an attribute of the
    first overwrites that of the second: it is gone afterwards. *)
Theorem attribute_prefix_clash m p q a s v w :
  (p <= 255)%Z -> (q <= 255)%Z -> dec q = dec p ++ s -> s <> [] ->
  space_free a -> nul_free a -> v <> [] -> w <> [] ->
  Forall (fun h => matches (payload_key p a) h = false) (hdrs m) ->
  exists m1 m2, setAttribute m q a w = Val m1 /\ setAttribute m1 p a v = Val m2 /\ getAttribute m2 q a = Val [].
Proof.
  intros Hp Hq E Hs Ha Hn Hv Hw Hm. rewrite set_attribute_val by done. eexists _, _. split; [done|].
  rewrite set_attribute_val by done. split; [done|]. unfold getAttribute. rewrite (proj2 (Z.leb_le _ _)) by done. cbn [negb].
  set (kp := payload_key p a) in *. set (kq := payload_key q a). assert (Ek : kq = kp ++ s) by (by apply longer_key).
  assert (Hkp : nul_free kp) by (by apply payload_key_nul_free). assert (Hkq : nul_free kq) by (by apply payload_key_nul_free).
  assert (Hc : forall h, matches kq h = true -> matches kp h = true).
  { intros h. unfold matches. rewrite !caseless_prefix, Ek, map_app by done. rewrite !andb_true_iff. intros [? Hx].
    split; [done|]. by apply is_prefix_trans in Hx. }
  assert (Hmq : Forall (fun h => matches kq h = false) (hdrs m)).
  { eapply Forall_impl; [exact Hm|]. intros h Hh. apply not_true_iff_false. intros Hx. apply Hc in Hx. congruence. }
  destruct (put_cases (matches kq) (kq ++ #" " ++ w) (hdrs m)) as [(x & h & b & Eh & _ & Hh & _)|[_ E1]].
  { rewrite List.Forall_forall, Eh in Hmq. specialize (Hmq h (in_elt h x b)). cbn in Hmq. congruence. }
  cbn [hdrs set_hdrs m_list headers]. change (hdrs (set_hdrs m ?hs)) with hs. rewrite E1.
  set (h1 := attribute (kq ++ #" " ++ w)).
  assert (H1 : matches kp h1 = true) by (apply Hc; by apply own_key).
  unfold put_attribute. rewrite (find_split_first (matches kp) (hdrs m) h1 []) by done.
  set (h2 := h1 <| hdr_value := kp ++ #" " ++ v |>).
  assert (H2 : matches kq h2 = false) by (apply (longer_key_fails p q a s v); done).
  change (hdrs (set_hdrs _ (hdrs m ++ [h2]))) with (hdrs m ++ [h2]).
  destruct (find_split (matches kq) (hdrs m ++ [h2])) as [[[x h] b]|] eqn:Ef; [|done].
  apply find_split_some in Ef as (Ef & _ & Hh). exfalso.
  assert (Hin : In h (hdrs m ++ [h2])) by (rewrite Ef; apply in_elt).
  apply in_app_iff in Hin as [Hin|[<-|[]]]; [|congruence].
  rewrite List.Forall_forall in Hmq. specialize (Hmq h Hin). cbn in Hmq. congruence.
Qed.

(** ** What is kept too long *)

(** The control port is not the one of the data port.  A control port that has been
    derived from the data port is kept: after the data port is changed, the getter
    still returns the old one, while a reader of the text takes the new one. *)
Theorem control_port_stale m l rest port :
  proper m l rest -> controlPort m = 0%Z -> read_common rtcp_key rest = [] ->
  (0 < port < 2 ^ 16)%Z -> (0 < port_of (l_port l) < 2 ^ 16 - 1)%Z ->
  exists m', setDataPort (getControlPort m).2 port = Val m' /\
    (getDataPort m').1 = port /\ (getControlPort m').1 = (port_of (l_port l) + 1)%Z /\
    read_control (hdrs m') = u16 (port + 1).
Proof.
  intros H Hc Hr Hp Hq. pose proof (proper_coherent _ _ _ H) as Hco. destruct (pr_line _ _ _ H) as [Eh Hl].
  destruct (getControlPort_reads m Hco) as (d & _ & -> & _).
  set (m1 := m <| dataPort := d |> <| controlPort := read_control (hdrs m) |>).
  assert (H1 : is_line m1 l rest) by (by split).
  destruct (set_port_line m1 l rest port H1) as [-> Hl']. eexists. split; [done|].
  assert (Ec : read_control (hdrs m) = (port_of (l_port l) + 1)%Z).
  { unfold read_control. rewrite Eh. change (read_common rtcp_key (media_line l :: rest)) with (read_common rtcp_key rest).
    rewrite Hr, read_dataPort_line by done. cbn zeta. rewrite (proj2 (Z.eqb_neq _ _)) by lia. unfold u16. apply Z.mod_small. lia. }
  split_and!.
  - unfold getDataPort. cbn. by rewrite (proj2 (Z.eqb_neq _ _)) by lia.
  - unfold getControlPort. cbn -[read_control]. rewrite Ec. by rewrite (proj2 (Z.eqb_neq _ _)) by lia.
  - unfold read_control. change (hdrs _) with (media_line (l <| l_port := dec port |>) :: rest).
    change (read_common rtcp_key (media_line _ :: rest)) with (read_common rtcp_key rest).
    rewrite Hr, read_dataPort_line by done. cbn zeta. change (l_port (l <| l_port := dec port |>)) with (dec port).
    rewrite port_of_dec by lia. by rewrite (proj2 (Z.eqb_neq _ _)) by lia.
Qed.

(** Removing the last payload leaves payload 0.  The line that is written ends with
    a space, the empty word behind it is read as a number, and the number of what is
    no number is 0. *)
Theorem last_payload_zero m l rest x :
  is_line m l rest -> l_formats l = [x] -> payloads m = [x] ->
  let m' := removePayload m x in
  payloads m' = [] /\ isValid (m_list m') = false /\ (getPayloads m').1 = [0%Z] /\ (hasPayload m' 0).1 = true.
Proof.
  intros [Eh Hl] Hf Hp m'.
  assert (Em : m' = set_valid ((set_m_line m (unwords [l_type l; l_port l; l_proto l; []])) <| payloads := [] |>) false).
  { subst m'. unfold removePayload. rewrite Hp, Eh. cbn [m_line media_line hdr_name hdr_value Ascii.eqb Bool.eqb]. cbn zeta.
    rewrite line_tokens by done. change (3 <=? length (line_words l)) with true. cbv iota.
    cbn [List.filter]. rewrite Z.eqb_refl. done. }
  assert (Er : read_payloads (hdrs m') = [0%Z]).
  { rewrite Em. unfold set_m_line. rewrite Eh. unfold read_payloads.
    cbn [hdrs set_valid set_hdrs m_list headers m_line media_line hdr_name hdr_value].
    change (m_line _) with (Some (unwords [l_type l; l_port l; l_proto l; []])). cbv iota zeta.
    unfold string_tokenize. rewrite split_unwords; [cbn; by rewrite number_nil|].
    destruct (ok_type l Hl) as [[_ H1] _], (ok_number l Hl) as [[H2 H2'] _], (ok_proto l Hl) as [H3 H3'].
    cbn. split_and!; auto. constructor. }
  assert (E0 : payloads m' = []) by (by rewrite Em). split_and!.
  - done.
  - by rewrite Em.
  - unfold getPayloads. by rewrite E0, Er.
  - unfold hasPayload, getPayloads. by rewrite E0, Er.
Qed.


(** The control port of an attribute with an address, as in "rtcp:53020 IN IP4
    126.16.64.4", is 0: the getter looks behind the space. *)
Theorem rtcp_address_lost m before h after port c s :
  hdrs m = before ++ h :: after -> Forall (fun x => matches rtcp_key x = false) before ->
  hdr_name h = "a"%char -> hdr_value h = rtcp_key ++ dec port ++ #" " ++ c :: s ->
  lexical_char c = false -> nul_free (c :: s) -> controlPort m = 0%Z ->
  (getControlPort m).1 = 0%Z.
Proof.
  intros Eh Hb Hn Hv Hc Hf H0. unfold getControlPort. rewrite H0. cbn [Z.eqb negb]. unfold getCommonAttribute.
  change (#"rtcp" ++ #":") with rtcp_key.
  assert (E : read_common rtcp_key (hdrs m) = c :: s).
  { rewrite Eh. clear Eh. induction Hb as [|x before Hx Hb IH]; cbn [app read_common]; [|by rewrite Hx].
    rewrite (matches_own rtcp_key h _ nul_free_rtcp Hn Hv), Hv. unfold common_value.
    rewrite app_assoc, after_space_word; [done| |done]. apply Forall_app. split; [constant|by apply dec_free]. }
  rewrite E. cbn zeta. by apply (number_other _ _ c); [apply in_eq|].
Qed.

(** A second connection line: behind a title line the new one is put in front of
    the old one, which stays. *)
Theorem connection_line_doubled m hm hi hc rest addr isV4 :
  hdrs m = hm :: hi :: hc :: rest -> hdr_name hm = "m"%char -> hdr_name hi = "i"%char -> hdr_name hc = "c"%char ->
  hdrs (internalSetAddress m addr isV4) = hm :: hi :: mkSDPHeader "c" (connection_text isV4 addr) :: hc :: rest.
Proof. intros E Hm Hi Hc. unfold internalSetAddress. rewrite E, Hm. cbn. by rewrite Hi. Qed.

(** ** Sessions *)


(** A session that can be printed and read back. *)
Record printable (st : store) (s : SDPSession) : Prop := {
  p_valid : isValid (s_list s) = true;
  p_hdrs : match s_hdrs s with [] => False | h :: hs => hdr_name h <> "m"%char /\ block h hs end;
  p_media : Forall (fun p => exists m, st !! p = Some m /\ isValid (m_list m) = true /\ media_block (hdrs m)) (mediaDescriptions s)
}.

Lemma toString_blocks (st : store) s blocks :
  isValid (s_list s) = true ->
  Forall2 (fun p hs => exists m, st !! p = Some m /\ isValid (m_list m) = true /\ hdrs m = hs) (mediaDescriptions s) blocks ->
  session_toString st s = Val (lines (s_hdrs s) ++ concat (map lines blocks)).
Proof.
  intros Hv H. unfold session_toString. unfold list_toString at 2. rewrite Hv. fold (lines (s_hdrs s)).
  change (concat (map (fun h => header_toString h ++ CRLF) (headers (s_list s)))) with (lines (s_hdrs s)).
  generalize (lines (s_hdrs s)). induction H as [|p hs ptrs blocks (m & Em & Hm & Eh) H IH]; intros t; [by rewrite app_nil_r|].
  unfold load. rewrite Em, val_bind. rewrite IH. unfold list_toString. rewrite Hm.
  cbn [map concat]. change (concat (map (fun h => header_toString h ++ CRLF) (headers (m_list m)))) with (lines (hdrs m)).
  by rewrite Eh, app_assoc.
Qed.

(** The objects of a store in their order. *)
Lemma numbered (ms : store) blocks :
  Forall2 (fun m hs => hdrs m = hs /\ isValid (m_list m) = true) ms blocks ->
  Forall2 (fun p hs => exists m, ms !! p = Some m /\ isValid (m_list m) = true /\ hdrs m = hs) (seq 0 (length blocks)) blocks.
Proof.
  intros H. apply Forall2_same_length_lookup_2; [by rewrite length_seq|]. intros i p hs Hp Hh.
  apply lookup_seq in Hp as [-> _]. cbn. destruct (Forall2_lookup_r _ _ _ _ _ H Hh) as (m & Em & Ehm & Hv). by exists m.
Qed.

Lemma pointers (st st' : store) (ptrs : list nat) blocks (ptrs' : list nat) :
  Forall2 (fun p hs => exists m, st !! p = Some m /\ isValid (m_list m) = true /\ hdrs m = hs) ptrs blocks ->
  Forall2 (fun p hs => exists m, st' !! p = Some m /\ isValid (m_list m) = true /\ hdrs m = hs) ptrs' blocks ->
  Forall2 (fun p p' => exists m m', st !! p = Some m /\ st' !! p' = Some m' /\ hdrs m' = hdrs m) ptrs ptrs'.
Proof.
  intros H. revert ptrs'. induction H as [|p hs ptrs blocks (m & E & _ & Eh) H IH]; intros ptrs' H';
    [apply Forall2_nil_inv_r in H' as ->; constructor|].
  apply Forall2_cons_inv_r in H' as (p' & ptrs'' & (m' & E' & _ & Eh') & H' & ->).
  apply Forall2_cons_2; [|by apply IH]. exists m, m'. split_and!; [done|done|congruence].
Qed.

(** C16: a session that is printed is read back.  The text of a session whose lines are
    lines is parsed to a session with the same headers and, in the same order,
    descriptions with the same headers, in a round for each of them and one more; and
    the new session prints the same text. *)
Theorem session_roundtrip st s :
  printable st s ->
  exists raw st' s', session_toString st s = Val raw /\
    new_session (S (length (mediaDescriptions s))) [] raw = Val (st', s') /\ s_hdrs s' = s_hdrs s /\
    Forall2 (fun p p' => exists m m', st !! p = Some m /\ st' !! p' = Some m' /\ hdrs m' = hdrs m)
      (mediaDescriptions s) (mediaDescriptions s') /\
    session_toString st' s' = Val raw.
Proof.
  intros [Hv Hh Hm].
  assert (exists blocks, Forall2 (fun p hs => exists m, st !! p = Some m /\ isValid (m_list m) = true /\ hdrs m = hs)
    (mediaDescriptions s) blocks /\ Forall media_block blocks) as (blocks & Hb & Hbl).
  { induction Hm as [|p ptrs (m & E & Hvm & Hbm) Hm (blocks & Hb & Hbl)]; [by exists []|].
    exists (hdrs m :: blocks). split; [apply Forall2_cons_2; [by exists m|done]|by apply Forall_cons_2]. }
  rewrite (toString_blocks st s blocks Hv Hb). destruct (s_hdrs s) as [|h hs] eqn:Es; [done|].
  exists (lines (h :: hs) ++ concat (map lines blocks)).
  destruct Hh as [Hnm Hblk]. destruct (block_ok _ _ Hblk) as [[Hoh Hohs]%Forall_cons Hn].
  destruct (list_parse_lines h hs (concat (map lines blocks)) "m" Hoh Hohs Hn (blocks_lead _ Hbl)) as (E1 & E2 & E3).
  destruct (media_loop_blocks (S (length (mediaDescriptions s))) [] [] blocks Hbl) as (ms & El & Hms).
  { apply Forall2_length in Hb. lia. }
  unfold new_session. cbn zeta. rewrite E3, El, val_bind. do 2 eexists. split; [done|]. split; [done|].
  cbn [app length s_hdrs mediaDescriptions]. split; [exact E1|].
  assert (Hp : Forall2 (fun p' hs => exists m, ms !! p' = Some m /\ isValid (m_list m) = true /\ hdrs m = hs)
    (seq 0 (length blocks)) blocks) by (by apply numbered).
  split.
  - apply (pointers st ms (mediaDescriptions s) blocks); done.
  - rewrite (toString_blocks ms _ blocks); [|exact E2|done]. f_equal. f_equal. f_equal. exact E1.
Qed.

End theorems.

(** ** Instances *)

Definition ex_text : str :=
  #"m=audio 49170 RTP/AVP 0 8" ++ CRLF ++ #"c=IN IP4 192.0.2.1" ++ CRLF ++ #"a=fmtp:8 x" ++ CRLF.
Definition ex_line : line := mkLine #"audio" #"49170" #"RTP/AVP" [0%Z; 8%Z].
Definition ex_rest : list SDPHeader := [mkSDPHeader "c" #"IN IP4 192.0.2.1"; mkSDPHeader "a" #"fmtp:8 x"].

Lemma ex_line_ok : line_ok ex_line.
Proof.
  constructor; cbn [ex_line l_type l_port l_proto l_formats].
  1,2: split; [split; [discriminate|constant]|split; reflexivity].
  - split; [discriminate|constant].
  - repeat (apply Forall_cons_2; [cbn; lia|]). apply Forall_nil_2.
Qed.

Lemma ex_headers : hdrs (new_media ex_text) = media_line ex_line :: ex_rest.
Proof. vm_compute. reflexivity. Qed.

Lemma ex_proper : proper (new_media ex_text) ex_line ex_rest.
Proof.
  constructor.
  - split; [exact ex_headers|exact ex_line_ok].
  - split_and!; constant.
  - repeat (apply Forall_cons_2; [split; [split; [split_and!; reflexivity || discriminate|split; [discriminate|constant]]|discriminate]|]).
    apply Forall_nil_2.
  - vm_compute. lia.
  - vm_compute. reflexivity.
  - constructor; left; reflexivity.
Qed.


Lemma attribute_set_get_witness :
  exists m', setAttribute (new_media ex_text) 97 #"rtpmap" #"iLBC/8000" = Val m' /\
    getAttribute m' 97 #"rtpmap" = Val #"iLBC/8000" /\
    keep (fun h => negb (matches (payload_key 97 #"rtpmap") h)) (hdrs m') =
      keep (fun h => negb (matches (payload_key 97 #"rtpmap") h)) (hdrs (new_media ex_text)).
Proof.
  apply (attribute_set_get (new_media ex_text) 97 #"rtpmap" #"iLBC/8000"); [lia|constant|constant|discriminate|constant].
Defined.

Lemma attribute_prefix_clash_witness :
  exists m1 m2, setAttribute (new_media ex_text) 97 #"rtpmap" #"iLBC/8000" = Val m1 /\
    setAttribute m1 9 #"rtpmap" #"G722/8000" = Val m2 /\ getAttribute m2 97 #"rtpmap" = Val [].
Proof.
  apply (attribute_prefix_clash (new_media ex_text) 9 97 #"rtpmap" #"7" #"G722/8000" #"iLBC/8000");
    [lia|lia|reflexivity|discriminate|constant|constant|discriminate|discriminate|].
  rewrite ex_headers. repeat (apply Forall_cons_2; [reflexivity|]). apply Forall_nil_2.
Defined.

Lemma control_port_stale_witness :
  exists m', setDataPort (getControlPort (new_media ex_text)).2 5000 = Val m' /\
    (getDataPort m').1 = 5000%Z /\ (getControlPort m').1 = (port_of #"49170" + 1)%Z /\
    read_control (hdrs m') = u16 (5000 + 1).
Proof.
  apply (control_port_stale (new_media ex_text) ex_line ex_rest 5000);
    [exact ex_proper|reflexivity|reflexivity|lia|change (port_of (l_port ex_line)) with 49170%Z; lia].
Defined.

Lemma last_payload_zero_witness :
  let m := setPayloads (new_media ex_text) [8%Z] in
  let m' := removePayload m 8 in
  payloads m' = [] /\ isValid (m_list m') = false /\ (getPayloads m').1 = [0%Z] /\ (hasPayload m' 0).1 = true.
Proof.
  apply (last_payload_zero (setPayloads (new_media ex_text) [8%Z]) (mkLine #"audio" #"49170" #"RTP/AVP" [8%Z]) ex_rest 8);
    [|reflexivity|reflexivity].
  split; [vm_compute; reflexivity|]. destruct ex_line_ok. constructor; [done..|].
  apply Forall_cons_2; [cbn; lia|]. apply Forall_nil_2.
Defined.

Definition ex_session : str := #"v=0" ++ CRLF ++ #"m=audio 1 RTP/AVP 0" ++ CRLF ++ #"m=video 2 RTP/AVP 9".


Lemma session_roundtrip_witness :
  let st := [new_media ex_text] in
  let s := addMedia default_session 0 in
  exists raw st' s', session_toString st s = Val raw /\
    new_session 2 [] raw = Val (st', s') /\ s_hdrs s' = s_hdrs s /\
    Forall2 (fun p p' => exists m m', st !! p = Some m /\ st' !! p' = Some m' /\ hdrs m' = hdrs m)
      [0] (mediaDescriptions s') /\
    session_toString st' s' = Val raw.
Proof.
  apply (session_roundtrip [new_media ex_text] (addMedia default_session 0)). constructor.
  - reflexivity.
  - split; [discriminate|]. split; [split; [split_and!; reflexivity || discriminate|split; [discriminate|constant]]|].
    repeat (apply Forall_cons_2; [split; [split; [split_and!; reflexivity || discriminate|split; [discriminate|constant]]|discriminate]|]).
    apply Forall_nil_2.
  - apply Forall_cons_2; [|apply Forall_nil_2]. exists (new_media ex_text). split; [reflexivity|]. split; [reflexivity|].
    rewrite ex_headers. split; [reflexivity|]. split; [|apply (pr_rest _ _ _ ex_proper)].
    split; [split_and!; reflexivity || discriminate|split; [discriminate|constant]].
Defined.
