(* ===== verification/IceCandidate.v ===== *)
(** * ICE candidates

    The class [ICECandidate] of src/sdp/ICECandidate.cpp: a candidate attribute is
    parsed into its fields, and the fields are formatted to a line.  A candidate that
    is made of a text has the numbers that happen to stand in its memory until
    they are parsed. *)

From S2P Require Import Prelude Abnf AbnfFacts AbnfSearch CoreStrings CMem SdpText.
Open Scope nat_scope.

Record ICECandidate := mkICECandidate {
  component : Z; priority : Z; port : Z; rport : Z; generation : Z;
  identifier : str; ip : str; protocol : str; type : str; tcpType : str; raddr : str; data : str
}.
#[export] Instance eta_candidate : Settable ICECandidate := fun c =>
  mkICECandidate (component c) (priority c) (port c) (rport c) (generation c)
    (identifier c) (ip c) (protocol c) (type c) (tcpType c) (raddr c) (data c).

Definition default_candidate : ICECandidate := mkICECandidate 0 0 0 0 0 [] [] [] [] [] [] [].

Section candidate.
Context {text : BoostText}.

(** One turn of the first [for], over the six elements every candidate has. *)
Definition set_element (index : nat) (t : str) (c : ICECandidate) : ICECandidate :=
  match index with
  | 0 => c <| identifier := t |>
  | 1 => c <| component := string_to_number UInt t |>
  | 2 => c <| protocol := t |>
  | 3 => c <| priority := string_to_number ULong t |>
  | 4 => c <| ip := t |>
  | 5 => c <| port := string_to_number UShort t |>
  | _ => c
  end.
Fixpoint set_elements (index : nat) (tokens : list str) (c : ICECandidate) : ICECandidate * list str :=
  match tokens with
  | t :: ts => if index <=? 5 then set_elements (S index) ts (set_element index t c) else (c, tokens)
  | [] => (c, [])
  end.

(** The value of a label. *)
Definition set_label (label v : str) (c : ICECandidate) : ICECandidate :=
  if decide (label = #"typ") then c <| type := v |>
  else if decide (label = #"generation") then c <| generation := string_to_number UInt v |>
  else if decide (label = #"tcptype") then c <| tcpType := v |>
  else if decide (label = #"raddr") then c <| raddr := v |>
  else if decide (label = #"rport") then c <| rport := string_to_number UShort v |>
  else c.
(** The second [for]: labels and values in turn. *)
Fixpoint set_labels (previousLabel : str) (isLabelIndex : bool) (tokens : list str) (c : ICECandidate) : ICECandidate :=
  match tokens with
  | [] => c
  | t :: ts => if isLabelIndex then set_labels t false ts c else set_labels previousLabel true ts (set_label previousLabel t c)
  end.

Definition parseCandidate (candidate : str) (c : ICECandidate) : bool * ICECandidate :=
  let tokens := string_tokenize candidate #" " in
  if length tokens <? 8 then (false, c)
  else let '(c, rest) := set_elements 0 tokens c in (true, set_labels [] true rest c).

Definition formatCandidate (c : ICECandidate) : ICECandidate :=
  c <| data :=
    #"a=candidate:" ++ identifier c ++ #" " ++ dec (component c) ++ #" " ++ protocol c ++ #" " ++ dec (priority c) ++
    #" " ++ ip c ++ #" " ++ dec (port c) ++ #" type " ++ type c ++ #" generation " ++ dec (generation c) |>.
(** [str]. *)
Definition candidate_str (c : ICECandidate) : str * ICECandidate := let c := formatCandidate c in (data c, c).

(** ** Parsing *)

(** The labels of a candidate in their order. *)
Fixpoint labels (ls : list (str * str)) : list str :=
  match ls with [] => [] | (l, v) :: ls => l :: v :: labels ls end.

Lemma set_labels_pairs ls prev c :
  set_labels prev true (labels ls) c = fold_left (fun c '(l, v) => set_label l v c) ls c.
Proof. revert prev c. induction ls as [|[l v] ls IH]; intros prev c; [done|]. cbn. apply IH. Qed.

(** A candidate is parsed into its fields.  Of a line with the six elements and pairs of
    a label and a value, the numbers are read at their widths, and each label sets
    its field, those that are not known nothing. *)
Theorem candidate_parsed id comp proto prio addr prt ls c0 :
  word id -> word proto -> word addr -> in_type UInt comp -> in_type ULong prio -> in_type UShort prt ->
  ls <> [] -> Forall word (labels ls) ->
  parseCandidate (unwords ([id; dec comp; proto; dec prio; addr; dec prt] ++ labels ls)) c0 =
    (true, fold_left (fun c '(l, v) => set_label l v c) ls
      (c0 <| identifier := id |> <| component := comp |> <| protocol := proto |> <| priority := prio |>
          <| ip := addr |> <| port := prt |>)).
Proof.
  intros Hid Hpr Ha Hc Hp Ht Hl Hw. unfold parseCandidate, string_tokenize. rewrite split_words; [|done|].
  2:{ apply Forall_app. split; [|done]. repeat apply Forall_cons_2; [done|apply dec_word|done|apply dec_word|done|apply dec_word|].
      apply Forall_nil_2. }
  cbn zeta. destruct ls as [|[l v] ls]; [done|]. change (_ <? 8) with false. cbv iota.
  cbn [app set_elements Nat.leb set_element labels]. rewrite !number_dec by done. f_equal.
  exact (set_labels_pairs ((l, v) :: ls) [] _).
Qed.

(** What a candidate prints it does not read.  The printed line, which begins with
    the name of the attribute, is parsed to a candidate whose identifier has that
    name in front of it and whose type is the one it had before: the line says "type"
    where the parser looks for "typ". *)
Theorem candidate_str_misread c c0 :
  word (identifier c) -> word (protocol c) -> word (ip c) -> word (type c) ->
  in_type UInt (component c) -> in_type ULong (priority c) -> in_type UShort (port c) -> in_type UInt (generation c) ->
  let c' := (parseCandidate (candidate_str c).1 c0).2 in
  identifier c' = #"a=candidate:" ++ identifier c /\ type c' = type c0 /\ generation c' = generation c.
Proof.
  intros Hid Hpr Ha Hty Hc Hp Ht Hg c'.
  assert (E : (candidate_str c).1 = unwords ([ #"a=candidate:" ++ identifier c; dec (component c); protocol c; dec (priority c);
    ip c; dec (port c)] ++ labels [(#"type", type c); (#"generation", dec (generation c))])).
  { unfold candidate_str, formatCandidate. cbn -[dec]. rewrite <- ?app_assoc. reflexivity. }
  assert (Hid' : word (#"a=candidate:" ++ identifier c)).
  { split; [done|]. apply Forall_app. split; [|apply Hid]. repeat (apply Forall_cons_2; [reflexivity|]). apply Forall_nil_2. }
  subst c'. rewrite E, candidate_parsed; [|first [assumption|discriminate]..|].
  - cbn [fold_left snd]. unfold set_label. cbn. by rewrite number_dec.
  - repeat (apply Forall_cons_2; [|]); [|done| |apply dec_word|apply Forall_nil_2].
    all: split; [discriminate|]; repeat (apply Forall_cons_2; [reflexivity|]); apply Forall_nil_2.
Qed.

End candidate.

Lemma candidate_str_misread_witness :
  let c := mkICECandidate 1 2122260223 38639 0 0 #"39" #"192.168.0.11" #"udp" #"host" [] [] [] in
  let c' := (parseCandidate (candidate_str c).1 default_candidate).2 in
  identifier c' = #"a=candidate:" ++ identifier c /\ type c' = [] /\ generation c' = generation c.
Proof.
  apply (candidate_str_misread (mkICECandidate 1 2122260223 38639 0 0 #"39" #"192.168.0.11" #"udp" #"host" [] [] []) default_candidate).
  1-4: split; [discriminate|]; repeat (apply Forall_cons_2; [reflexivity|]); apply Forall_nil_2.
  all: cbn; lia.
Defined.
