(* ===== verification/SbcSdp.v ===== *)
(** * Session descriptions in the session border controller

    The functions of src/sbc/SBCSDPBehavior.cpp that rewrite the session description of
    a message: [patch_sdp_media_address], [finalize_session_description] and
    [patch_ipv6_as_rfc1918_address].  The properties of the transaction are a
    function from names to values.  [IPAddress::isV4Address] of src/net/IPAddress.cpp
    is the grammar rule of an IPv4 address on the whole text. *)

From S2P Require Import Prelude Abnf AbnfFacts AbnfSearch SipGrammar CoreStrings CMem SdpText SdpHeaders SdpMedia SdpSession.
Open Scope nat_scope.

Definition isV4Address (address : str) : cres bool :=
  match ABNFEvaluate ABNFSIPIPV4Address (cstr address) with Some b => Val b | None => Fault end.

Section sbc.
Context {boost : BoostString} {text : BoostText}.

(** The loops over the descriptions of a type, from the [index]th on: [n] more of
    them, of which the next is the [i]th; [act] works on an object and says
    whether it has patched it. *)
Fixpoint media_for (act : store -> nat -> cres (store * bool)) (type : MediaType) (s : SDPSession)
    (index n i : nat) (st : store) (patched : bool) : cres (store * bool) :=
  match n with
  | O => Val (st, patched)
  | S n =>
      if i <? index then media_for act type s index n (S i) st patched
      else
        '(st, media) ← getMedia st s type i;
        match media with
        | Some p => '(st, b) ← act st p; media_for act type s index n (S i) st (patched || b)
        | None => media_for act type s index n (S i) st patched
        end
  end.
Definition each_media (act : store -> nat -> cres (store * bool)) (type : MediaType) (index : nat)
    (st : store) (s : SDPSession) : cres (store * bool) :=
  '(st, count) ← getMediaCount st s type;
  media_for act type s index count 0 st false.

(** ** patch_sdp_media_address *)

Definition force_address (addr : str) (port : Z) (st : store) (p : nat) : cres (store * bool) :=
  m ← load st p;
  let m := (getAddress m).2 in
  v4 ← isV4Address addr;
  let m := if (v4 : bool) then setAddressV4 m addr else setAddressV6 m addr in
  m ← (if negb (port =? 0)%Z then setDataPort m port else Val m);
  Val (<[p := m]> st, true).
Definition patch_sdp_media_address (type : MediaType) (addr : str) (port : Z) (index : nat)
    (st : store) (s : SDPSession) : cres store :=
  '(st, _) ← each_media (force_address addr port) type index st s; Val st.

(** ** finalize_session_description *)

(** [getProperty] with a value that is not empty. *)
Definition property (props : str -> option str) (name : str) : option str :=
  match props name with
  | Some ((_ :: _) as v) => Some v
  | _ => None
  end.
Definition force_global (props : str -> option str) (s : SDPSession) (patched : bool) : cres (SDPSession * bool) :=
  match property props #"force-sdp-global-ip" with
  | Some addr =>
      v4 ← isV4Address addr;
      Val (if (v4 : bool) then session_setAddressV4 s addr else session_setAddressV6 s addr, true)
  | None => Val (s, patched)
  end.
(** The two blocks for the audio and the video descriptions.  The port is converted to
    an [unsigned short] when it is passed on. *)
Definition force_media (props : str -> option str) (ip_name port_name : str) (type : MediaType)
    (st : store) (s : SDPSession) (patched : bool) : cres (store * bool) :=
  match property props ip_name with
  | Some addr =>
      let port := match property props port_name with Some v => string_to_number Int v | None => 0%Z end in
      st ← patch_sdp_media_address type addr (u16 port) 0 st s;
      Val (st, true)
  | None => Val (st, patched)
  end.
(** The four blocks that change attributes of the first description of a type. *)
Definition edit_first (props : str -> option str) (name : str) (type : MediaType) (edit : SDPMedia -> str -> SDPMedia)
    (st : store) (s : SDPSession) (patched : bool) : cres (store * bool) :=
  match property props name with
  | Some v =>
      let tokens := string_tokenize v #"~" in
      '(st, media) ← getMedia st s type 0;
      match media with
      | Some p =>
          m ← load st p;
          Val (<[p := fold_left (fun m t => edit m (cstr t)) tokens m]> st, match tokens with [] => patched | _ :: _ => true end)
      | None => Val (st, patched)
      end
  | None => Val (st, patched)
  end.
Definition finalize_session_description (fuel : nat) (props : str -> option str) (sdp : str) : cres str :=
  '(st, s) ← new_session fuel [] (cstr sdp);
  '(s, patched) ← force_global props s false;
  '(st, patched) ← force_media props #"force-sdp-audio-ip" #"force-sdp-audio-port" TYPE_AUDIO st s patched;
  '(st, patched) ← force_media props #"force-sdp-video-ip" #"force-sdp-video-port" TYPE_VIDEO st s patched;
  '(st, patched) ← edit_first props #"sdp-audio-attributes" TYPE_AUDIO setFlagAttribute st s patched;
  '(st, patched) ← edit_first props #"sdp-video-attributes" TYPE_VIDEO setFlagAttribute st s patched;
  '(st, patched) ← edit_first props #"sdp-remove-audio-attributes" TYPE_AUDIO removeCommonAttribute st s patched;
  '(st, patched) ← edit_first props #"sdp-remove-video-attributes" TYPE_VIDEO removeCommonAttribute st s patched;
  if (patched : bool) then session_toString st s else Val sdp.

(** ** patch_ipv6_as_rfc1918_address *)

Definition replacementAddress : str := #"192.168.250.250".

Definition masquerade (st : store) (p : nat) : cres (store * bool) :=
  m ← load st p;
  let '(addr, m) := getAddress m in
  v4 ← isV4Address addr;
  if negb v4 then Val (<[p := setAddressV4 m replacementAddress]> st, true) else Val (<[p := m]> st, false).
(** What is done to a session. *)
Definition masquerade_session (st : store) (s : SDPSession) : cres (store * SDPSession * bool) :=
  v4 ← isV4Address (session_getAddress s);
  let '(s, patched) := if negb v4 then (session_setAddressV4 s replacementAddress, true) else (s, false) in
  '(st, b1) ← each_media masquerade TYPE_AUDIO 0 st s;
  '(st, b2) ← each_media masquerade TYPE_VIDEO 0 st s;
  '(st, b3) ← each_media masquerade TYPE_FAX 0 st s;
  Val (st, s, patched || b1 || b2 || b3).
Definition patch_ipv6_as_rfc1918_address (fuel : nat) (doWePatch : option str) (sdp : str) : cres str :=
  if negb (bool_decide (doWePatch = Some #"1")) then Val sdp
  else
    '(st, s) ← new_session fuel [] (cstr sdp);
    '(st, s, patched) ← masquerade_session st s;
    if (patched : bool) then session_toString st s else Val sdp.

End sbc.
