(* ===== verification/SbcSdpTheorems.v ===== *)
(** * The theorems about rewritten session descriptions

    The loops of src/sbc/SBCSDPBehavior.cpp reach every description of their type and no
    other, and what the rewritten descriptions say. *)

From S2P Require Import Prelude Abnf AbnfFacts AbnfSearch SipGrammar SipGrammarFacts CoreStrings CMem SdpText SdpHeaders SdpMedia SdpSession SdpMediaFacts SdpCoherence SdpOps SdpSessionFacts SdpStore SbcSdp.
Open Scope nat_scope.

Lemma isV4_total a : exists b, isV4Address a = Val b.
Proof.
  unfold isV4Address, ABNFEvaluate. destruct (safe (r := ABNFSIPIPV4Address) (cstr a)) as (n & -> & _). by eexists.
Qed.

Section sbc.
Context {boost : BoostString} {text : BoostText}.

(** ** The loops *)

Section loop.
Context (act : store -> nat -> cres (store * bool)) (type : MediaType) (s : SDPSession) (Q : list SDPHeader -> Prop).
Context (Htype : type <> TYPE_NONE).
Context (Hact : forall st p m, Forall tidy st -> st !! p = Some m -> read_type (hdrs m) = type ->
  exists m' b, act st p = Val (<[p := m']> st, b) /\ tidy m' /\ read_type (hdrs m') = type /\ Q (hdrs m')).
Abbreviation ptrs := (mediaDescriptions s).

(** The objects keep their type; those of the type may have been worked on. *)
Definition worked (st st' : store) : Prop :=
  length st' = length st /\
  forall p m, st !! p = Some m -> exists m', st' !! p = Some m' /\ read_type (hdrs m') = read_type (hdrs m) /\
    (hdrs m' = hdrs m \/ (read_type (hdrs m) = type /\ Q (hdrs m'))).

Lemma alike_worked st st' : alike st st' -> worked st st'.
Proof.
  intros H. split; [by apply alike_length|]. intros p m E. destruct (alike_lookup _ _ _ _ H E) as (m' & E' & Eh).
  exists m'. rewrite Eh. auto.
Qed.

Lemma worked_trans a b c : worked a b -> worked b c -> worked a c.
Proof.
  intros [L1 H1] [L2 H2]. split; [congruence|]. intros p m E. destruct (H1 p m E) as (m1 & E1 & T1 & D1).
  destruct (H2 p m1 E1) as (m2 & E2 & T2 & D2). exists m2. split; [done|]. split; [congruence|].
  destruct D2 as [D2|[D2 D2']]; [rewrite D2; destruct D1; auto|right; split; [congruence|done]].
Qed.

Lemma worked_types st st' ps :
  worked st st' -> Forall (fun p => p < length st) ps -> of_type st' type ps = of_type st type ps.
Proof.
  intros [_ H] Hp. unfold of_type. induction Hp as [|p ps Hp Hps IH]; [done|]. cbn [List.filter].
  destruct (lookup_lt_is_Some_2 st p Hp) as [m E]. destruct (H p m E) as (m' & E' & Et & _).
  assert (Ep : type_at st' p = type_at st p) by (unfold type_at; by rewrite E, E', Et). by rewrite Ep, IH.
Qed.

Lemma worked_insert st p m m' :
  st !! p = Some m -> read_type (hdrs m) = type -> read_type (hdrs m') = type -> Q (hdrs m') -> worked st (<[p := m']> st).
Proof.
  intros E Ht Ht' Hq. split; [apply length_insert|]. intros q x Ex. destruct (decide (p = q)) as [<-|Hne].
  - exists m'. rewrite list_lookup_insert_eq by by eapply lookup_lt_Some. simplify_eq. split; [done|]. split; [congruence|auto].
  - exists x. rewrite list_lookup_insert_ne by done. auto.
Qed.

(** Whether the object of a pointer has been worked on. *)
Definition done_at (st : store) (p : nat) : Prop := exists m, st !! p = Some m /\ Q (hdrs m).

Lemma done_worked st st' p : worked st st' -> done_at st p -> done_at st' p.
Proof.
  intros [_ H] (m & E & Hq). destruct (H p m E) as (m' & E' & _ & [D|[_ D]]); exists m'; [by rewrite D|done].
Qed.

Lemma of_type_in st j p ps : of_type st type ps !! j = Some p -> In p ps /\ type_at st p = type.
Proof.
  intros E. apply list_elem_of_lookup_2, list_elem_of_In, filter_In in E as [Hi Hb]. split; [done|]. by apply bool_decide_eq_true_1 in Hb.
Qed.

Lemma media_for_ok n i st patched :
  Forall tidy st -> Forall (fun p => p < length st) ptrs ->
  exists st' b, media_for act type s 0 n i st patched = Val (st', b) /\ Forall tidy st' /\ worked st st' /\
    forall j p, i <= j < i + n -> of_type st type ptrs !! j = Some p -> done_at st' p.
Proof.
  revert i st patched. induction n as [|n IH]; intros i st patched Hs Hp.
  { exists st, patched. split; [done|]. split; [done|]. split; [by apply alike_worked|]. lia. }
  cbn [media_for]. rewrite (proj2 (Nat.ltb_ge i 0)) by lia. unfold getMedia.
  destruct (locate_finds st type i ptrs Hs Hp) as (st1 & r & -> & Hs1 & Ha1 & Er). rewrite !val_bind.
  assert (Hp1 : Forall (fun p => p < length st1) ptrs) by (by rewrite (alike_length st st1)).
  pose proof (alike_worked _ _ Ha1) as Hw1. destruct r as [[[a p] b]|].
  - destruct (of_type_in _ _ _ _ Er) as [_ Ht].
    assert (exists m, st1 !! p = Some m /\ read_type (hdrs m) = type) as (m & Em & Htm).
    { destruct (lookup_lt_is_Some_2 st1 p) as [m Em]; [rewrite (alike_length st st1) by done; unfold type_at in Ht;
        destruct (st !! p) eqn:Ex; [by eapply lookup_lt_Some|congruence]|].
      exists m. split; [done|]. rewrite <- (type_at_alike st st1) in Ht; [|done|]; unfold type_at in Ht.
      - by rewrite Em in Ht.
      - apply lookup_lt_Some in Em. by rewrite (alike_length st st1) in Em. }
    destruct (Hact st1 p m Hs1 Em Htm) as (m' & b' & -> & Htidy & Ht' & Hq). rewrite val_bind.
    assert (Hw2 : worked st1 (<[p := m']> st1)) by (by apply (worked_insert st1 p m)).
    destruct (IH (S i) (<[p := m']> st1) (patched || b')) as (st' & bb & -> & Hs' & Hw' & Hd);
      [by apply Forall_insert|by rewrite length_insert|].
    exists st', bb. split; [done|]. split; [done|]. split; [by eapply worked_trans; [|eapply worked_trans]|].
    intros j q Hj Ej. destruct (decide (j = i)) as [->|Hji].
    + rewrite Er in Ej. simplify_eq. apply (done_worked (<[q := m']> st1)); [done|]. exists m'.
      rewrite list_lookup_insert_eq by by eapply lookup_lt_Some. done.
    + apply (Hd j q); [lia|]. rewrite (worked_types st1), (of_type_alike st) by done. done.
  - destruct (IH (S i) st1 patched Hs1 Hp1) as (st' & bb & -> & Hs' & Hw' & Hd).
    exists st', bb. split; [done|]. split; [done|]. split; [by eapply worked_trans|].
    intros j q Hj Ej. destruct (decide (j = i)) as [->|Hji]; [congruence|].
    apply (Hd j q); [lia|]. by rewrite (of_type_alike st).
Qed.

Lemma each_media_ok st :
  Forall tidy st -> Forall (fun p => p < length st) ptrs ->
  exists st' b, each_media act type 0 st s = Val (st', b) /\ Forall tidy st' /\ worked st st' /\
    forall p, In p ptrs -> type_at st p = type -> done_at st' p.
Proof.
  intros Hs Hp. unfold each_media, getMediaCount.
  destruct (count_counts st type ptrs Htype Hs Hp) as (st1 & -> & Hs1 & Ha1). rewrite val_bind.
  assert (Hp1 : Forall (fun p => p < length st1) ptrs) by (by rewrite (alike_length st st1)).
  destruct (media_for_ok (length (of_type st type ptrs)) 0 st1 false Hs1 Hp1) as (st' & b & -> & Hs' & Hw & Hd).
  exists st', b. split; [done|]. split; [done|]. split; [eapply worked_trans; [by apply alike_worked|done]|].
  intros p Hi Ht. assert (Hin : In p (of_type st type ptrs)) by (apply filter_In; split; [done|by apply bool_decide_eq_true_2]).
  apply list_elem_of_In, list_elem_of_lookup in Hin as [j Ej]. apply (Hd j p).
  - apply lookup_lt_Some in Ej. lia.
  - by rewrite (of_type_alike st).
Qed.

End loop.


(** ** The descriptions *)

Definition v4_text (hs : list SDPHeader) : Prop := isV4Address (read_address hs) = Val true.

Lemma replacement_word : word replacementAddress.
Proof. split; [discriminate|constant]. Qed.

Lemma replacement_v4 : isV4Address replacementAddress = Val true.
Proof. vm_compute. reflexivity. Qed.

Lemma masquerade_ok type :
  type <> TYPE_NONE -> forall st p m, Forall tidy st -> st !! p = Some m -> read_type (hdrs m) = type ->
  exists m' b, masquerade st p = Val (<[p := m']> st, b) /\ tidy m' /\ read_type (hdrs m') = type /\ v4_text (hdrs m').
Proof.
  intros Hn st p m Hs E Ht. unfold masquerade, load. rewrite E, val_bind.
  destruct (getAddress_tidy m) as (m1 & -> & Hm1 & Eh); [by eapply Forall_lookup_1|].
  destruct (isV4_total (read_address (hdrs m))) as [v4 Ev]. rewrite Ev, val_bind.
  destruct v4; cbn [negb].
  - exists m1, false. split; [done|]. split; [done|]. unfold v4_text. by rewrite Eh.
  - destruct (set_address_tidy m1 true replacementAddress type) as (Ht' & Hty & Hr & _);
      [done|by rewrite Eh|done|apply replacement_word|].
    do 2 eexists. split; [done|]. split; [done|]. split; [done|]. unfold v4_text, setAddressV4. rewrite Hr. apply replacement_v4.
Qed.

(** The session line. *)
Lemma change_address_v4 s : isV4Address (session_getAddress (session_setAddressV4 s replacementAddress)) = Val true.
Proof.
  unfold session_setAddressV4. destruct (change_address_reads s replacementAddress replacement_word) as [-> | [-> _]]; [|done].
  apply replacement_v4.
Qed.

Lemma worked_type_at type Q st st' p : worked type Q st st' -> p < length st -> type_at st' p = type_at st p.
Proof.
  intros [_ H] Hp. destruct (lookup_lt_is_Some_2 st p Hp) as [m E]. destruct (H p m E) as (m' & E' & Et & _).
  unfold type_at. by rewrite E, E', Et.
Qed.


(** The types the patch is for. *)
Definition patched_type (t : MediaType) : Prop := t = TYPE_AUDIO \/ t = TYPE_VIDEO \/ t = TYPE_FAX.

Lemma masquerade_session_ok st s :
  Forall tidy st -> Forall (fun p => p < length st) (mediaDescriptions s) ->
  exists st' s' b, masquerade_session st s = Val (st', s', b) /\ mediaDescriptions s' = mediaDescriptions s /\
    isV4Address (session_getAddress s') = Val true /\ length st' = length st /\
    (forall p, In p (mediaDescriptions s) -> patched_type (type_at st p) -> done_at v4_text st' p) /\
    (forall p m, st !! p = Some m -> ~ patched_type (read_type (hdrs m)) -> exists m', st' !! p = Some m' /\ hdrs m' = hdrs m).
Proof.
  intros Hs Hp. unfold masquerade_session. destruct (isV4_total (session_getAddress s)) as [v4 Ev]. rewrite Ev, val_bind.
  set (r := if negb v4 then _ else _). assert (exists s' b, r = (s', b) /\ mediaDescriptions s' = mediaDescriptions s /\
    isV4Address (session_getAddress s') = Val true) as (s' & b0 & -> & Ed & Ev').
  { subst r. destruct v4; cbn [negb]; [by exists s, false|]. do 2 eexists. split; [done|]. split; [done|apply change_address_v4]. }
  rewrite <- Ed in Hp.
  destruct (each_media_ok masquerade TYPE_AUDIO s' v4_text ltac:(done) (masquerade_ok TYPE_AUDIO ltac:(done)) st Hs Hp)
    as (st1 & b1 & -> & Hs1 & Hw1 & Hd1). rewrite val_bind.
  assert (Hp1 : Forall (fun p => p < length st1) (mediaDescriptions s')) by (by rewrite (proj1 Hw1)).
  destruct (each_media_ok masquerade TYPE_VIDEO s' v4_text ltac:(done) (masquerade_ok TYPE_VIDEO ltac:(done)) st1 Hs1 Hp1)
    as (st2 & b2 & -> & Hs2 & Hw2 & Hd2). rewrite val_bind.
  assert (Hp2 : Forall (fun p => p < length st2) (mediaDescriptions s')) by (by rewrite (proj1 Hw2)).
  destruct (each_media_ok masquerade TYPE_FAX s' v4_text ltac:(done) (masquerade_ok TYPE_FAX ltac:(done)) st2 Hs2 Hp2)
    as (st3 & b3 & -> & Hs3 & Hw3 & Hd3). rewrite val_bind.
  exists st3, s'. eexists. split; [done|]. split; [done|]. split; [done|].
  split; [by rewrite (proj1 Hw3), (proj1 Hw2), (proj1 Hw1)|]. rewrite Ed in Hp, Hd1, Hd2, Hd3. split.
  - intros p Hi Ht. rewrite List.Forall_forall in Hp. specialize (Hp p Hi).
    pose proof (worked_type_at _ _ _ _ p Hw1 Hp) as E1. assert (Hp' : p < length st1) by (by rewrite (proj1 Hw1)).
    pose proof (worked_type_at _ _ _ _ p Hw2 Hp') as E2. destruct Ht as [Ht|[Ht|Ht]].
    + by apply (done_worked TYPE_FAX v4_text st2), (done_worked TYPE_VIDEO v4_text st1), Hd1.
    + apply (done_worked TYPE_FAX v4_text st2), Hd2; [done|done|congruence].
    + apply Hd3; [done|congruence].
  - intros p m E Hn. destruct (proj2 Hw1 p m E) as (m1 & E1 & T1 & [D1|[D1 _]]); [|by destruct Hn; left].
    destruct (proj2 Hw2 p m1 E1) as (m2 & E2 & T2 & [D2|[D2 _]]); [|by destruct Hn; right; left; congruence].
    destruct (proj2 Hw3 p m2 E2) as (m3 & E3 & T3 & [D3|[D3 _]]); [|by destruct Hn; right; right; congruence].
    exists m3. split; [done|congruence].
Qed.



(** ** Forced addresses *)

(** What is asked for: the address, and the port unless the line has no place for it. *)
Definition forced (addr : str) (port : Z) (hs : list SDPHeader) : Prop :=
  read_address hs = addr /\
  (port = 0%Z \/ read_dataPort hs = port \/ exists value, m_line hs = Some value /\ length (string_tokenize value #" ") <= 2).

Lemma force_ok type addr port :
  type <> TYPE_NONE -> word addr -> (0 <= port < 2 ^ 16)%Z -> forall st p m,
  Forall tidy st -> st !! p = Some m -> read_type (hdrs m) = type ->
  exists m' b, force_address addr port st p = Val (<[p := m']> st, b) /\ tidy m' /\ read_type (hdrs m') = type /\
    forced addr port (hdrs m').
Proof.
  intros Hn Ha Hp st p m Hs E Ht. unfold force_address, load. rewrite E, val_bind. cbn zeta.
  destruct (getAddress_tidy m) as (m1 & -> & Hm1 & Eh); [by eapply Forall_lookup_1|]. cbn [snd].
  destruct (isV4_total addr) as [v4 ->]. rewrite val_bind.
  replace (if v4 then setAddressV4 m1 addr else setAddressV6 m1 addr) with (internalSetAddress m1 addr v4) by (by destruct v4).
  destruct (set_address_tidy m1 v4 addr type) as (Ht2 & Hty2 & Hr2 & _); [done|by rewrite Eh|done|done|].
  destruct (Z.eqb_spec port 0) as [->|Hp0]; cbn [negb].
  - do 2 eexists. rewrite val_bind. split; [done|]. split; [done|]. split; [done|]. split; [done|by left].
  - destruct (set_port_tidy _ type port Ht2 Hty2 Hn Hp) as (m3 & E3 & Ht3 & Hty3 & Hr3 & Hp3). rewrite E3, val_bind.
    do 2 eexists. split; [done|]. split; [done|]. split; [done|]. split; [congruence|]. right.
    destruct Hp3 as [Hp3|(value & Hv & Hl)]; [by left|]. right.
    revert E3. unfold setDataPort. rewrite Hv. cbn zeta. rewrite (proj2 (Nat.ltb_ge _ _)) by lia. intros [= <-]. by exists value.
Qed.

(** Forced addresses reach the descriptions of their type.  After
    [patch_sdp_media_address] on any session that has been read, every description of
    the type has the address and, if one is given and its line has a place for it,
    the port; the descriptions of other types have the lines they had. *)
Theorem media_address_forced fuel raw type addr port :
  length raw < fuel -> type <> TYPE_NONE -> word addr -> (0 <= port < 2 ^ 16)%Z ->
  exists st s st', new_session fuel [] raw = Val (st, s) /\
    patch_sdp_media_address type addr port 0 st s = Val st' /\
    (forall p, In p (mediaDescriptions s) -> type_at st p = type -> done_at (forced addr port) st' p) /\
    (forall p m, st !! p = Some m -> read_type (hdrs m) <> type -> exists m', st' !! p = Some m' /\ hdrs m' = hdrs m).
Proof.
  intros Hf Hn Ha Hp. destruct (new_session_ends fuel [] raw Hf) as (st & E & Hm & _). cbn [app length] in E.
  set (s := mkSDPSession _ _) in E.
  destruct (each_media_ok (force_address addr port) type s (forced addr port) Hn (force_ok type addr port Hn Ha Hp) st)
    as (st' & b & E' & _ & Hw & Hd).
  - eapply Forall_impl; [exact Hm|]. intros m [Hl [r ->]]. split; [by left|]. split; [by left|done].
  - apply List.Forall_forall. intros p Hpp. apply in_seq in Hpp. lia.
  - exists st, s, st'. split; [done|]. split; [unfold patch_sdp_media_address; by rewrite E'|]. split; [done|].
    intros p m Em Ht. destruct (proj2 Hw p m Em) as (m' & Em' & _ & [D|[D _]]); [by exists m'|done].
Qed.

End sbc.

(** ** Instances *)

Definition ex_offer : str :=
  #"v=0" ++ CRLF ++ #"c=IN IP6 2001:db8::1" ++ CRLF ++ #"m=audio 49170 RTP/AVP 0" ++ CRLF ++ #"c=IN IP6 2001:db8::2" ++ CRLF ++
  #"m=data 5000 x" ++ CRLF ++ #"c=IN IP6 2001:db8::3" ++ CRLF.


(** What becomes of the text. *)
Example ipv6_patched_text :
  patch_ipv6_as_rfc1918_address 200 (Some #"1") ex_offer = Val (
    #"v=0" ++ CRLF ++ #"c=IN IP4 192.168.250.250" ++ CRLF ++ #"m=audio 49170 RTP/AVP 0" ++ CRLF ++ #"c=IN IP4 192.168.250.250" ++ CRLF ++
    #"m=data 5000 x" ++ CRLF ++ #"c=IN IP6 2001:db8::3" ++ CRLF).
Proof. vm_compute. reflexivity. Qed.

Lemma media_address_forced_witness :
  exists st s st', new_session 200 [] ex_offer = Val (st, s) /\
    patch_sdp_media_address TYPE_AUDIO #"10.0.0.1" 6000 0 st s = Val st' /\
    (forall p, In p (mediaDescriptions s) -> type_at st p = TYPE_AUDIO -> done_at (forced #"10.0.0.1" 6000) st' p) /\
    (forall p m, st !! p = Some m -> read_type (hdrs m) <> TYPE_AUDIO -> exists m', st' !! p = Some m' /\ hdrs m' = hdrs m).
Proof.
  apply (media_address_forced 200 ex_offer TYPE_AUDIO #"10.0.0.1" 6000); [vm_compute; lia|discriminate| |lia].
  split; [discriminate|constant].
Defined.
