(* ===== verification/IpAddress.v ===== *)
(** * IP addresses

    The class [IPAddress] of src/net/IPAddress.cpp and include/OSS/Net/IPAddress.h.  The
    addresses of Boost.Asio are data; their conversions from and to text, and the
    resolver, are parameters with the behaviour their documentation states. *)

From S2P Require Import Prelude Abnf AbnfFacts AbnfSearch CoreStrings CMem SdpText SdpHeaders.
Open Scope nat_scope.

(** ** Boost.Asio *)

(** [boost::asio::ip::address]: the number of an IPv4 address, the sixteen bytes and
    the scope of an IPv6 address. *)
Inductive ip_address :=
| V4 (n : Z)
| V6 (bytes : str) (scope : Z).
#[export] Instance ip_address_eq : EqDecision ip_address.
Proof. solve_decision. Defined.

Definition is_v4 (a : ip_address) : bool := match a with V4 _ => true | V6 _ _ => false end.
Definition is_v6 (a : ip_address) : bool := negb (is_v4 a).
Definition any_address : ip_address := V4 0.

(** The order of the class: IPv4 before IPv6, then by value, then by scope. *)
Fixpoint bytes_ltb (a b : str) : bool :=
  match a, b with
  | [], [] => false
  | [], _ :: _ => true
  | _ :: _, [] => false
  | x :: a, y :: b => (uchar x <? uchar y)%Z || ((uchar x =? uchar y)%Z && bytes_ltb a b)
  end.
Definition address_ltb (a b : ip_address) : bool :=
  match a, b with
  | V4 m, V4 n => (m <? n)%Z
  | V4 _, V6 _ _ => true
  | V6 _ _, V4 _ => false
  | V6 x s, V6 y t => bytes_ltb x y || (negb (bytes_ltb y x) && (s <? t)%Z)
  end.

Definition octet (n : Z) (i : Z) : Z := (n / 256 ^ i) mod 256.
Definition dotted (n : Z) : str :=
  dec (octet n 3) ++ #"." ++ dec (octet n 2) ++ #"." ++ dec (octet n 1) ++ #"." ++ dec (octet n 0).
Definition v4_range (n : Z) : Prop := (0 <= n < 2 ^ 32)%Z.

(** The characters of the text of an address. *)
Definition address_char (c : ascii) : bool :=
  match digit_val c with
  | Some _ => true
  | None =>
      Ascii.eqb c "." || Ascii.eqb c ":" || Ascii.eqb c "%" || ((97 <=? uchar c) && (uchar c <=? 102))%Z
  end.

Class AsioAddress := {
  (** [None] is an exception. *)
  from_string : str -> option ip_address;
  to_string : ip_address -> str;
  (** [resolver::resolve], its first result. *)
  resolve : str -> option ip_address;

  (** An IPv4 address is written in dotted decimal form, and read from it. *)
  to_string_v4 : forall n, v4_range n -> to_string (V4 n) = dotted n;
  from_dotted : forall n, v4_range n -> from_string (dotted n) = Some (V4 n);
  (** A numeric host name is the address. *)
  resolve_dotted : forall n, v4_range n -> resolve (dotted n) = Some (V4 n);
  to_string_chars : forall a, to_string a <> [] /\ (is_v6 a = true -> Forall (fun c => address_char c = true) (to_string a))
}.

(** ** IPAddress *)

Inductive Protocol := UDP | TCP | TLS | WS | WSS | SCTP | UnknownTransport.

Record IPAddress := mkIPAddress {
  ip : ip_address;
  externalAddress : str;
  port : Z;
  cidr : Z;
  ip_isVirtual : bool;
  protocol : Protocol;
  alias : str
}.
#[export] Instance eta_ip : Settable IPAddress := fun a =>
  mkIPAddress (ip a) (externalAddress a) (port a) (cidr a) (ip_isVirtual a) (protocol a) (alias a).

Definition default_ip : IPAddress := mkIPAddress any_address [] 0 0 false UnknownTransport [].
Definition ip_of_ulong (n : Z) : IPAddress := default_ip <| ip := V4 n |>.
Definition ip_of_bytes (bytes : str) : IPAddress := default_ip <| ip := V6 bytes 0 |>.
Definition setPort (a : IPAddress) (p : Z) : IPAddress := a <| port := p |>.

Section address.
Context {text : BoostText} {asio : AsioAddress}.

Definition read_ip (address : str) : ip_address := default any_address (from_string address).

(** The constructors from text, without and with a port and a protocol, and the assignment of text. *)
Definition ip_of_string (address : str) : IPAddress := default_ip <| ip := read_ip address |>.
Definition ip_of_string_port (address : str) (p : Z) (proto : Protocol) : IPAddress :=
  match from_string address with
  | Some a => default_ip <| ip := a |> <| port := p |> <| protocol := proto |>
  | None => default_ip <| protocol := proto |>
  end.
Definition assign_string (a : IPAddress) (address : str) : IPAddress := a <| ip := read_ip address |>.

(** *** Comparisons *)

Definition ip_eqb (a b : IPAddress) : bool := bool_decide (ip a = ip b) && (port a =? port b)%Z.
Definition ip_neqb (a b : IPAddress) : bool := negb (bool_decide (ip a = ip b)) || negb (port a =? port b)%Z.
Definition compare (a b : IPAddress) (includePort : bool) : bool :=
  if includePort then bool_decide (ip a = ip b) && (port a =? port b)%Z else bool_decide (ip a = ip b).
Definition ip_ltb (a b : IPAddress) : bool :=
  if bool_decide (ip a = ip b) then (port a <? port b)%Z else address_ltb (ip a) (ip b).
Definition ip_gtb (a b : IPAddress) : bool := negb (ip_ltb a b).

(** *** Classes of addresses *)

Definition isPrivate (a : IPAddress) : bool :=
  match ip a with
  | V6 _ _ => false
  | V4 n =>
      ((0x0a000000 <=? n) && (n <=? 0x0affffff) || (0xac100000 <=? n) && (n <=? 0xac1fffff) ||
       (0xc0a80000 <=? n) && (n <=? 0xc0a8ffff))%Z
  end.
Definition isInaddrAny (a : IPAddress) : bool :=
  match ip a with
  | V4 n => (n =? 0)%Z
  | V6 bytes _ => forallb (fun c => (uchar c =? 0)%Z) bytes
  end.
Definition ip_isValid (a : IPAddress) : bool := negb (isInaddrAny a).

(** *** Text *)

Definition ip_toString (a : IPAddress) : str := to_string (ip a).
Definition toCidrString (a : IPAddress) : str := to_string (ip a) ++ #"/" ++ dec (cidr a).
Definition toIpPortString (a : IPAddress) : str :=
  if negb (port a =? 0)%Z then
    if is_v6 (ip a) then #"[" ++ to_string (ip a) ++ #"]:" ++ dec (port a)
    else to_string (ip a) ++ #":" ++ dec (port a)
  else to_string (ip a).

Definition fromHost (host : str) : IPAddress :=
  match resolve host with
  | Some a => ip_of_string (to_string a)
  | None => default_ip
  end.
Definition fromV4IPPort (ipPortTuple : str) : IPAddress :=
  match string_tokenize ipPortTuple #":" with
  | [host] => fromHost (cstr host)
  | [host; p] => setPort (fromHost (cstr host)) (string_to_number UShort (cstr p))
  | _ => default_ip
  end.

(** ** Theorems *)

(** The private addresses are those of RFC 1918. *)
Lemma isPrivate_spec a n :
  ip a = V4 n -> v4_range n ->
  isPrivate a = true <-> octet n 3 = 10%Z \/ (octet n 3 = 172 /\ 16 <= octet n 2 < 32)%Z \/ (octet n 3 = 192 /\ octet n 2 = 168)%Z.
Proof.
  intros E [H0 H1]. unfold isPrivate, octet. rewrite E. rewrite !orb_true_iff, !andb_true_iff, !Z.leb_le.
  change (256 ^ 3)%Z with 16777216%Z. change (256 ^ 2)%Z with 65536%Z.
  rewrite (Z.mod_small (n / 16777216)) by (split; [apply Z.div_pos; lia|apply Z.div_lt_upper_bound; lia]).
  pose proof (Z.div_mod n 65536 ltac:(lia)). pose proof (Z.mod_pos_bound n 65536 ltac:(lia)).
  pose proof (Z.div_mod (n / 65536) 256 ltac:(lia)). pose proof (Z.mod_pos_bound (n / 65536) 256 ltac:(lia)).
  rewrite Z.div_div in * by lia. change (65536 * 256)%Z with 16777216%Z in *. lia.
Qed.

(** *** The text of an address *)

Lemma octet_range n i : (0 <= octet n i < 256)%Z.
Proof. unfold octet. apply Z.mod_pos_bound. lia. Qed.

(** What an IPv4 address is not made of, its text is free of. *)
Lemma dotted_free seps n : forallb (fun c => negb (lexical_char c) && negb (Ascii.eqb c ".")) seps = true -> sep_free seps (dotted n).
Proof.
  intros H. assert (Hd : forall z, sep_free seps (dec z)).
  { intros z. apply dec_free. rewrite forallb_forall in H |- *. intros c Hc. by destruct (andb_prop _ _ (H c Hc)). }
  assert (Hp : sep_free seps #".").
  { apply Forall_cons_2; [|apply Forall_nil_2]. apply not_true_iff_false. intros Hs. apply existsb_exists in Hs as (c & Hc & Ec).
    apply Ascii.eqb_eq in Ec. subst c. rewrite forallb_forall in H. destruct (andb_prop _ _ (H _ Hc)) as [_ E]. done. }
  unfold dotted, sep_free. rewrite !Forall_app. split_and!; done || apply Hd.
Qed.

Lemma dotted_nonempty n : dotted n <> [].
Proof. unfold dotted. pose proof (dec_nonempty (octet n 3)). by destruct (dec (octet n 3)). Qed.

Lemma sep_free_nul w : sep_free [NUL] w -> nul_free w.
Proof. intros H. eapply Forall_impl; [exact H|]. intros c Hc E. apply schar_nul in E. by subst c. Qed.
Lemma dotted_nul_free n : nul_free (dotted n).
Proof. by apply sep_free_nul, dotted_free. Qed.
Lemma dec_nul_free z : nul_free (dec z).
Proof. by apply sep_free_nul, dec_free. Qed.

(** *** An address and a port as text *)

Lemma fromHost_dotted n : v4_range n -> fromHost (dotted n) = default_ip <| ip := V4 n |>.
Proof. intros Hn. unfold fromHost. rewrite resolve_dotted, to_string_v4 by done. unfold ip_of_string, read_ip. by rewrite from_dotted. Qed.
Lemma ip_port_back n p : v4_range n -> (0 <= p < 2 ^ 16)%Z ->
  fromV4IPPort (dotted n ++ #":" ++ dec p) = default_ip <| ip := V4 n |> <| port := p |>.
Proof.
  intros Hn Hp. assert (Hf : sep_free #":" (dotted n)) by by apply dotted_free. unfold fromV4IPPort, string_tokenize.
  rewrite split_run; [|done|done|by repeat constructor|].
  - rewrite split_free by by apply dec_free. rewrite !cstr_nul_free by (apply dotted_nul_free || apply dec_nul_free).
    rewrite fromHost_dotted by done. unfold setPort. by rewrite number_dec.
  - pose proof (dec_free #":" p eq_refl) as Hd. destruct (dec p); [done|]. by inversion Hd.
Qed.
Lemma toIpPortString_back a n :
  ip a = V4 n -> v4_range n -> (0 <= port a < 2 ^ 16)%Z ->
  fromV4IPPort (toIpPortString a) = default_ip <| ip := V4 n |> <| port := port a |>.
Proof.
  intros Ea Hn Hp. unfold toIpPortString. rewrite Ea. cbn [is_v6 is_v4 negb]. rewrite to_string_v4 by done.
  destruct (Z.eqb_spec (port a) 0) as [E|E]; cbn [negb]; [|by apply ip_port_back]. unfold fromV4IPPort, string_tokenize.
  rewrite split_free by by apply dotted_free. rewrite cstr_nul_free by apply dotted_nul_free. by rewrite fromHost_dotted, E.
Qed.

End address.

(** *** The order *)

Lemma bytes_ltb_irrefl a : bytes_ltb a a = false.
Proof. induction a as [|x a IH]; [done|]. cbn. rewrite Z.ltb_irrefl, IH. by rewrite andb_false_r. Qed.
Lemma ip_ltb_irrefl a : ip_ltb a a = false.
Proof. unfold ip_ltb. rewrite bool_decide_eq_true_2 by done. apply Z.ltb_irrefl. Qed.

(** [operator >] is the negation of [operator <], so that it holds of an address and itself. *)
Theorem greater_than_itself a : ip_gtb a a = true.
Proof. unfold ip_gtb. by rewrite ip_ltb_irrefl. Qed.

(** ** A reference instance *)

Definition ref_octet (s : str) : option Z :=
  match ref_number s with Some v => if ((0 <=? v) && (v <? 256))%Z then Some v else None | None => None end.
Definition ref_from_string (s : str) : option ip_address :=
  match ref_split #"." [] s with
  | [a; b; c; d] =>
      match ref_octet a, ref_octet b, ref_octet c, ref_octet d with
      | Some a, Some b, Some c, Some d => Some (V4 (a * 256 ^ 3 + b * 256 ^ 2 + c * 256 + d))
      | _, _, _, _ => None
      end
  | _ => None
  end.
Definition ref_to_string (a : ip_address) : str := match a with V4 n => dotted n | V6 _ _ => #"::" end.

Lemma ref_octet_dec n i : ref_octet (dec (octet n i)) = Some (octet n i).
Proof.
  unfold ref_octet. rewrite ref_number_dec. pose proof (octet_range n i).
  by rewrite (proj2 (Z.leb_le _ _)), (proj2 (Z.ltb_lt _ _)) by lia.
Qed.

Lemma octets n : v4_range n -> (octet n 3 * 256 ^ 3 + octet n 2 * 256 ^ 2 + octet n 1 * 256 + octet n 0 = n)%Z.
Proof.
  intros [H0 H1]. unfold octet. change (256 ^ 3)%Z with (256 * (256 * 256))%Z. change (256 ^ 2)%Z with (256 * 256)%Z.
  change (256 ^ 1)%Z with 256%Z. change (256 ^ 0)%Z with 1%Z. rewrite <- !Z.div_div, Z.div_1_r by lia.
  pose proof (Z.div_mod n 256 ltac:(lia)). pose proof (Z.div_mod (n / 256) 256 ltac:(lia)).
  pose proof (Z.div_mod (n / 256 / 256) 256 ltac:(lia)).
  assert (0 <= n / 256 / 256 / 256 < 256)%Z.
  { rewrite !Z.div_div by lia. split; [apply Z.div_pos; lia|apply Z.div_lt_upper_bound; lia]. }
  rewrite (Z.mod_small (n / 256 / 256 / 256)) by done. lia.
Qed.

Lemma ref_from_dotted n : v4_range n -> ref_from_string (dotted n) = Some (V4 n).
Proof.
  intros H. assert (Hd : forall i, sep_free #"." (dec (octet n i))) by (intros i; by apply dec_free).
  assert (Hn : forall i s, match dec (octet n i) ++ s with [] => True | c :: _ => is_sep #"." c = false end).
  { intros i s. specialize (Hd i). destruct (dec (octet n i)) eqn:E; [by pose proof (dec_nonempty (octet n i))|]. by inversion Hd. }
  unfold ref_from_string, dotted.
  rewrite ref_split_free, (ref_split_run #"." _ #".") by (done || apply Hn || by repeat constructor).
  rewrite ref_split_free, (ref_split_run #"." _ #".") by (done || apply Hn || by repeat constructor).
  rewrite ref_split_free, (ref_split_run #"." _ #".") by
    (done || (rewrite <- (app_nil_r (dec _)); apply Hn) || by repeat constructor).
  rewrite <- (app_nil_r (dec (octet n 0))), ref_split_free by done. cbn [app ref_split].
  rewrite !ref_octet_dec. by rewrite octets.
Qed.

Lemma ref_to_string_chars a :
  ref_to_string a <> [] /\ (is_v6 a = true -> Forall (fun c => address_char c = true) (ref_to_string a)).
Proof. destruct a as [n|bytes scope]; (split; [|done || by repeat constructor]); [apply dotted_nonempty|done]. Qed.

#[export] Instance asio_reference : AsioAddress := {|
  from_string := ref_from_string;
  to_string := ref_to_string;
  resolve := ref_from_string;
  to_string_v4 := fun n _ => eq_refl;
  from_dotted := ref_from_dotted;
  resolve_dotted := ref_from_dotted;
  to_string_chars := ref_to_string_chars
|}.
