(* ===== verification/SipXor.v ===== *)
(** * The XOR cipher of SIP and RTP packets

    src/siptransport/SIPXOR.cpp: the bytes of a packet are combined with a key of two
    bytes, in place.  A packet is the array of its bytes and the number of them that are
    in use; an access outside of the array is a [Fault].  The handlers an application
    installs are arguments. *)

From S2P Require Import Prelude CMem.
Open Scope nat_scope.

Record xor_sip_config := mkXorConfig {
  xor_enabled : bool;
  pad_rtp : bool;
  key0 : ascii;
  key1 : ascii
}.
Definition xor_default : xor_sip_config := mkXorConfig false false "G" "S".
Definition setKey (cfg : xor_sip_config) (k0 k1 : ascii) : xor_sip_config := mkXorConfig (xor_enabled cfg) (pad_rtp cfg) k0 k1.
Definition xor_enable (cfg : xor_sip_config) (yes : bool) : xor_sip_config := mkXorConfig yes (pad_rtp cfg) (key0 cfg) (key1 cfg).

(** [^] on two characters. *)
Definition bxor (a b : ascii) : ascii :=
  match a, b with
  | Ascii a0 a1 a2 a3 a4 a5 a6 a7, Ascii b0 b1 b2 b3 b4 b5 b6 b7 =>
      Ascii (xorb a0 b0) (xorb a1 b1) (xorb a2 b2) (xorb a3 b3) (xorb a4 b4) (xorb a5 b5) (xorb a6 b6) (xorb a7 b7)
  end.

(** [packet[i] = old[j] ^ k]. *)
Definition put_xor (packet old : str) (i j : nat) (k : ascii) : cres str :=
  match old !! j with
  | Some c => if i <? length packet then Val (<[i := bxor c k]> packet) else Fault
  | None => Fault
  end.

Section xor.
Context (cfg : xor_sip_config).

(** An application's handler: the bytes in use are given to it and replaced by its result. *)
Definition external_handler (f : str -> str) (packet : str) (len : nat) : cres (str * nat) :=
  input ← rdn packet 0 len;
  packet ← wrn packet 0 (f input);
  Val (packet, length (f input)).

(** The loop of [sipEncrypt] and [rtpEncrypt]; it advances by two. *)
Fixpoint xor_loop (fuel : nat) (packet : str) (size i : nat) : cres str :=
  match fuel with
  | O => Endless
  | S fuel =>
      if i <? size then
        packet ← put_xor packet packet i i (key0 cfg);
        packet ← put_xor packet packet (i + 1) (i + 1) (key1 cfg);
        if i + 3 =? size then put_xor packet packet (i + 2) (i + 2) (key1 cfg)
        else xor_loop fuel packet size (i + 2)
      else Val packet
  end.

Definition sipEncrypt (encryptExternal : option (str -> str)) (packet : str) (len : nat) : cres (str * nat) :=
  if negb (xor_enabled cfg) then Val (packet, len)
  else
    match encryptExternal with
    | Some f => external_handler f packet len
    | None => packet ← xor_loop (S len) packet len 0; Val (packet, len)
    end.
Definition sipDecrypt (encryptExternal decryptExternal : option (str -> str)) (packet : str) (len : nat) : cres (str * nat) :=
  match decryptExternal with
  | Some f => external_handler f packet len
  | None => sipEncrypt encryptExternal packet len
  end.

Definition rtpEncrypt (encryptExternal : option (str -> str)) (packet : str) (len : nat) : cres (str * nat) :=
  if negb (xor_enabled cfg) then Val (packet, len)
  else
    match encryptExternal with
    | Some f => external_handler f packet len
    | None => packet ← xor_loop (S len) packet len 0; Val (packet, len)
    end.

(** The zeros in front of a padded packet; the array is read before the end of it is looked for. *)
Fixpoint zeros_from (fuel : nat) (packet : str) (boundary : nat) : cres nat :=
  match fuel with
  | O => Endless
  | S fuel =>
      match packet !! boundary with
      | None => Fault
      | Some c => if (schar c =? 0)%Z && (boundary <? length packet) then zeros_from fuel packet (S boundary) else Val boundary
      end
  end.
Fixpoint unpad_loop (fuel : nat) (packet old : str) (len boundary i : nat) : cres str :=
  match fuel with
  | O => Endless
  | S fuel =>
      if (Z.of_nat i <? u64 (Z.of_nat len - Z.of_nat boundary))%Z then
        packet ← put_xor packet old i (i + boundary) (key0 cfg);
        packet ← put_xor packet old (i + 1) (i + 1 + boundary) (key1 cfg);
        if (Z.of_nat i + 2 =? u64 (Z.of_nat len - 1))%Z then put_xor packet old (i + 2) (i + 2 + boundary) (key1 cfg)
        else unpad_loop fuel packet old len boundary (i + 2)
      else Val packet
  end.
Definition rtpDecrypt (encryptExternal decryptExternal : option (str -> str)) (packet : str) (len : nat) : cres (str * nat) :=
  if negb (xor_enabled cfg) then Val (packet, len)
  else if negb (pad_rtp cfg) then
    match decryptExternal with
    | Some f => external_handler f packet len
    | None => rtpEncrypt encryptExternal packet len
    end
  else
    boundary ← zeros_from (S (length packet)) packet 0;
    if len =? boundary then Val (packet, len)
    else
      r ← unpad_loop (S (length packet)) packet packet len boundary 0;
      Val (r, Z.to_nat (u64 (Z.of_nat len - Z.of_nat boundary))).

(** ** The cipher is its own inverse *)

Lemma bxor_twice c k : bxor (bxor c k) k = c.
Proof. destruct c, k. cbn [bxor]. by rewrite !xorb_assoc, !xorb_nilpotent, !xorb_false_r. Qed.

(** The number of bytes the loop changes, and the key of each: the last byte of an
    odd number has the key of the byte before it, a single byte takes the next along. *)
Definition reach (size : nat) : nat := if size =? 1 then 2 else size.
Definition key_at (size j : nat) : ascii :=
  if Nat.odd j || ((3 <=? size) && (j + 1 =? size)) then key1 cfg else key0 cfg.
Definition cipher (size i : nat) (packet : str) : str :=
  imap (fun j c => if (i <=? j) && (j <? reach size) then bxor c (key_at size j) else c) packet.

Lemma put_xor_in packet i k :
  i < length packet -> exists c, packet !! i = Some c /\ put_xor packet packet i i k = Val (<[i := bxor c k]> packet).
Proof.
  intros H. destruct (lookup_lt_is_Some_2 packet i H) as [c Hc]. exists c. split; [done|].
  unfold put_xor. by rewrite Hc, (proj2 (Nat.ltb_lt _ _)).
Qed.

Lemma lookup_cipher size i packet j :
  cipher size i packet !! j = (fun c => if (i <=? j) && (j <? reach size) then bxor c (key_at size j) else c) <$> packet !! j.
Proof. unfold cipher. apply list_lookup_imap. Qed.

Lemma cipher_done size i packet : reach size <= i -> cipher size i packet = packet.
Proof.
  intros H. apply list_eq. intros j. rewrite lookup_cipher. destruct (packet !! j); [|done]. cbn -[Nat.ltb Nat.leb]. f_equal.
  destruct (Nat.leb_spec i j); [|done]. by rewrite (proj2 (Nat.ltb_ge _ _)) by lia.
Qed.

(** One byte of the loop. *)
Lemma cipher_step size i packet c :
  packet !! i = Some c -> i < reach size ->
  cipher size (S i) (<[i := bxor c (key_at size i)]> packet) = cipher size i packet.
Proof.
  intros Hc Hi. apply list_eq. intros j. rewrite !lookup_cipher. destruct (decide (i = j)) as [<-|Hn].
  - rewrite list_lookup_insert_eq by by eapply lookup_lt_Some. rewrite Hc. cbn -[Nat.ltb Nat.leb].
    rewrite (proj2 (Nat.leb_gt _ _)), Nat.leb_refl, (proj2 (Nat.ltb_lt _ _)) by lia. done.
  - rewrite list_lookup_insert_ne by done. destruct (packet !! j); [|done]. cbn -[Nat.ltb Nat.leb]. f_equal.
    replace (S i <=? j) with (i <=? j); [done|]. apply eq_true_iff_eq. rewrite !Nat.leb_le. lia.
Qed.

Lemma xor_step size i packet k :
  i < length packet -> i < reach size -> k = key_at size i ->
  exists packet', put_xor packet packet i i k = Val packet' /\ length packet' = length packet /\
    cipher size (S i) packet' = cipher size i packet.
Proof.
  intros Hl Hi ->. destruct (put_xor_in packet i (key_at size i) Hl) as (c & Hc & E). eexists. split; [exact E|].
  split; [apply length_insert|]. by apply cipher_step.
Qed.

Lemma xor_loop_spec fuel packet size i :
  Nat.even i = true -> size - i < fuel -> reach size <= length packet -> i + 1 <> size \/ size = 1 -> i <= reach size ->
  xor_loop fuel packet size i = Val (cipher size i packet).
Proof.
  revert packet i. induction fuel as [|fuel IH]; intros packet i He Hf Hl Hn Hi; [lia|]. cbn [xor_loop].
  assert (Hr : size <= reach size <= S size) by (unfold reach; destruct (Nat.eqb_spec size 1); lia).
  destruct (Nat.ltb_spec i size) as [H|H].
  2:{ rewrite cipher_done; [done|]. unfold reach in *. destruct (Nat.eqb_spec size 1); [|lia].
      destruct (Nat.eq_dec i 1) as [->|]; [done|lia]. }
  assert (Ho : Nat.odd i = false) by by rewrite <- Nat.negb_even, He.
  assert (Hr1 : i + 1 < reach size) by (unfold reach in *; destruct (Nat.eqb_spec size 1); lia).
  destruct (xor_step size i packet (key0 cfg)) as (p1 & -> & L1 & C1); [lia|lia| |].
  { unfold key_at. rewrite Ho. destruct (Nat.leb_spec 3 size); [|done]. by rewrite (proj2 (Nat.eqb_neq _ _)) by lia. }
  rewrite val_bind. destruct (xor_step size (i + 1) p1 (key1 cfg)) as (p2 & -> & L2 & C2); [lia|lia| |].
  { unfold key_at. rewrite Nat.add_1_r, Nat.odd_succ, He. done. }
  rewrite val_bind. rewrite <- C1. rewrite <- (Nat.add_1_r i). rewrite <- C2.
  destruct (Nat.eqb_spec (i + 3) size) as [E|E].
  - destruct (xor_step size (i + 2) p2 (key1 cfg)) as (p3 & -> & L3 & C3); [lia|lia| |].
    { unfold key_at. rewrite (proj2 (Nat.leb_le _ _)), (proj2 (Nat.eqb_eq _ _)) by lia. by rewrite orb_true_r. }
    replace (S (i + 1)) with (i + 2) by lia. rewrite <- C3. rewrite cipher_done; [done|]. unfold reach. destruct (Nat.eqb_spec size 1); lia.
  - replace (S (i + 1)) with (i + 2) by lia. apply IH; [|lia|lia| |].
    + rewrite Nat.even_add. by rewrite He.
    + destruct (Nat.eq_dec size 1); [by right|left; lia].
    + unfold reach in *. destruct (Nat.eqb_spec size 1); lia.
Qed.

Lemma cipher_twice size packet : cipher size 0 (cipher size 0 packet) = packet.
Proof.
  apply list_eq. intros j. rewrite !lookup_cipher. destruct (packet !! j); [|done]. cbn -[Nat.ltb Nat.leb].
  destruct (_ && _); [|done]. by rewrite bxor_twice.
Qed.
Lemma length_cipher size packet : length (cipher size 0 packet) = length packet.
Proof. apply length_imap. Qed.

(** C24: a media packet that is enciphered is deciphered to what it was: for every key and every array that
    has the packet (and, for a packet of one byte, another one behind it), enciphering
    stays within the array and keeps its length, and deciphering gives back every byte. *)
Theorem rtp_xor_roundtrip packet len :
  pad_rtp cfg = false -> reach len <= length packet ->
  exists packet', rtpEncrypt None packet len = Val (packet', len) /\ length packet' = length packet /\
    rtpDecrypt None None packet' len = Val (packet, len).
Proof.
  intros Hp Hl. unfold rtpEncrypt, rtpDecrypt. rewrite Hp. cbn [negb]. destruct (xor_enabled cfg) eqn:E; cbn [negb]; [|by exists packet].
  assert (Hn : 0 + 1 <> len \/ len = 1) by lia.
  rewrite xor_loop_spec by (done || lia). rewrite val_bind. exists (cipher len 0 packet). split; [done|].
  split; [apply length_cipher|]. unfold rtpEncrypt. rewrite E. cbn [negb].
  rewrite xor_loop_spec by (done || lia || by rewrite length_cipher). by rewrite val_bind, cipher_twice.
Qed.

End xor.

Lemma rtp_xor_roundtrip_witness :
  exists packet', rtpEncrypt (xor_enable xor_default true) None #"abcde" 5 = Val (packet', 5) /\ length packet' = 5 /\
    rtpDecrypt (xor_enable xor_default true) None None packet' 5 = Val (#"abcde", 5).
Proof. apply (rtp_xor_roundtrip (xor_enable xor_default true) #"abcde" 5); [reflexivity|]. unfold reach. cbn. lia. Defined.
