(* ===== verification/RtpPacket.v ===== *)
(** * RTP packets and the queue that resizes them

    [RTPPacket] of include/OSS/RTP/RTPPacket.h and src/rtp/RTPPacket.cpp: the bytes of
    the structure [Packet], as a little-endian machine lays them out, and the
    number of them that are in use.  [RTPResizingQueue] of
    src/rtp/RTPResizingQueue.cpp: packets of one codec go in, and packets of the
    wanted size come out.

    [junk] is what the memory of a new packet holds behind its header, and [stack]
    what an array on the stack holds: the source leaves both uninitialised.  A copy
    outside of a packet or of an array is a [Fault], and so is a division by zero. *)

From S2P Require Import Prelude CMem.
Open Scope nat_scope.

Definition RTP_PACKET_BUFFER_SIZE : nat := 4098.
Definition sizeof_Packet : nat := 76 + RTP_PACKET_BUFFER_SIZE.
Arguments RTP_PACKET_BUFFER_SIZE : simpl never.
Arguments sizeof_Packet : simpl never.

(** ** RTPPacket *)

Record RTPPacket := mkRTPPacket {
  packet : str;
  packetSize : nat;
  packetSourceIp : str;
  packetSourcePort : Z;
  packetDestinationIp : str;
  packetDestinationPort : Z
}.
#[export] Instance eta_packet : Settable RTPPacket := fun p =>
  mkRTPPacket (packet p) (packetSize p) (packetSourceIp p) (packetSourcePort p) (packetDestinationIp p) (packetDestinationPort p).

(** *** The members of the structure *)

Definition byte (p : RTPPacket) (i : nat) : Z := uchar (default (chr 0) (packet p !! i)).
Definition put_bytes (p : RTPPacket) (i : nat) (s : str) : RTPPacket := p <| packet := splice (packet p) i s |>.

Definition getContributingSourceCount (p : RTPPacket) : Z := Z.land (byte p 0) 15.
Definition getExtension (p : RTPPacket) : Z := Z.land (Z.shiftr (byte p 0) 4) 1.
Definition getPadding (p : RTPPacket) : Z := Z.land (Z.shiftr (byte p 0) 5) 1.
Definition getVersion (p : RTPPacket) : Z := Z.shiftr (byte p 0) 6.
Definition getPayloadType (p : RTPPacket) : Z := Z.land (byte p 1) 127.
Definition getMarker (p : RTPPacket) : Z := Z.shiftr (byte p 1) 7.
(** [byteSwap16] and [byteSwap32] of a stored integer are its value in network order. *)
Definition getSequenceNumber (p : RTPPacket) : Z := be_val (take 2 (drop 2 (packet p))).
Definition getTimeStamp (p : RTPPacket) : Z := be_val (take 4 (drop 4 (packet p))).
Definition getSynchronizationSource (p : RTPPacket) : Z := be_val (take 4 (drop 8 (packet p))).
Definition getContributingSource (p : RTPPacket) (index : Z) : Z :=
  if (getContributingSourceCount p <=? index)%Z then 0
  else be_val (take 4 (drop (12 + 4 * Z.to_nat index) (packet p))).

(** The bits of a byte outside of [keep] replaced. *)
Definition put_bits (p : RTPPacket) (i : nat) (keep v : Z) : RTPPacket :=
  put_bytes p i [chr (Z.lor (Z.land (byte p i) keep) v)].
Definition setContributingSourceCount (p : RTPPacket) (v : Z) : RTPPacket := put_bits p 0 240 (Z.land v 15).
Definition setExtension (p : RTPPacket) (v : Z) : RTPPacket := put_bits p 0 239 (Z.shiftl (Z.land v 1) 4).
Definition setPadding (p : RTPPacket) (v : Z) : RTPPacket := put_bits p 0 223 (Z.shiftl (Z.land v 1) 5).
Definition setVersion (p : RTPPacket) (v : Z) : RTPPacket := put_bits p 0 63 (Z.shiftl (Z.land v 3) 6).
Definition setPayloadType (p : RTPPacket) (v : Z) : RTPPacket := put_bits p 1 128 (Z.land v 127).
Definition setMarker (p : RTPPacket) (v : Z) : RTPPacket := put_bits p 1 127 (Z.shiftl (Z.land v 1) 7).
Definition setSequenceNumber (p : RTPPacket) (v : Z) : RTPPacket := put_bytes p 2 (be_bytes 2 v).
Definition setTimeStamp (p : RTPPacket) (v : Z) : RTPPacket := put_bytes p 4 (be_bytes 4 v).
Definition setSynchronizationSource (p : RTPPacket) (v : Z) : RTPPacket := put_bytes p 8 (be_bytes 4 v).
Definition setContributingSource (p : RTPPacket) (v index : Z) : cres RTPPacket :=
  if (index <? 16)%Z then Val (put_bytes p (12 + 4 * Z.to_nat index) (be_bytes 4 v)) else Abort.

(** *** Sizes and payload *)

Definition getHeaderSize (p : RTPPacket) : nat := 12 + 4 * Z.to_nat (getContributingSourceCount p).
Arguments getHeaderSize : simpl never.
Definition getPayloadSize (p : RTPPacket) : nat :=
  if (packetSize p =? 0) || (packetSize p <? getHeaderSize p) then 0 else packetSize p - getHeaderSize p.

(** The array [buf] with the payload copied to it, and [length]. *)
Definition getPayload (p : RTPPacket) (buf : str) : cres (str * nat) :=
  if getPayloadSize p =? 0 then Val (buf, 0)
  else
    s ← rdn (packet p) (getHeaderSize p) (getPayloadSize p);
    buf ← wrn buf 0 s;
    Val (buf, getPayloadSize p).
(** The payload is [n] bytes of [buf] from [i] on. *)
Definition setPayload (p : RTPPacket) (buf : str) (i n : nat) : cres RTPPacket :=
  s ← rdn buf i n;
  b ← wrn (packet p) (getHeaderSize p) s;
  Val (p <| packet := b |> <| packetSize := getHeaderSize p + n |>).

(** *** Construction *)

(** [parse]; the test of the size is against the header the object had before. *)
Definition parse (p : RTPPacket) (data : str) (size : nat) : cres (bool * RTPPacket) :=
  if size <? getHeaderSize p then Val (false, p)
  else
    s ← rdn data 0 size;
    b ← wrn (packet p) 0 s;
    let p := p <| packet := b |> <| packetSize := size |> in
    Val ((getVersion p =? 2)%Z, p).

(** [operator=]. *)
Definition assign (p q : RTPPacket) : cres RTPPacket :=
  '(_, p) ← parse (q <| packet := packet p |>) (packet q) (packetSize q);
  Val p.

Section resizing.
Context (junk stack : str).

Definition new_packet : RTPPacket := mkRTPPacket (replicate 12 (chr 0) ++ junk) 0 [] 0 [] 0.
(** The copy constructor. *)
Definition copy_packet (q : RTPPacket) : cres RTPPacket := assign new_packet q.
Definition packet_of (data : str) (size : nat) : cres RTPPacket :=
  '(_, p) ← parse new_packet data size;
  Val p.

(** ** RTPResizingQueue *)

Record RTPResizingQueue := mkRTPResizingQueue {
  q_in : list RTPPacket;
  q_out : list RTPPacket;
  payloadType : Z;
  clockRate : Z;
  baseSampleSize : Z;
  lastSequence : Z;
  lastTimeSent : Z;
  packetizationBaseTime : Z;
  packetizationTargetTime : Z;
  isResizing : bool
}.
#[export] Instance eta_queue : Settable RTPResizingQueue := fun q =>
  mkRTPResizingQueue (q_in q) (q_out q) (payloadType q) (clockRate q) (baseSampleSize q) (lastSequence q)
    (lastTimeSent q) (packetizationBaseTime q) (packetizationTargetTime q) (isResizing q).

Definition new_queue (payloadType clockRate baseSampleSize baseTime targetTime : Z) : RTPResizingQueue :=
  mkRTPResizingQueue [] [] payloadType clockRate baseSampleSize 0 0 baseTime targetTime false.
Definition setPacketizationTargetTime (q : RTPResizingQueue) (t : Z) : RTPResizingQueue :=
  q <| packetizationTargetTime := u32 t |>.

Definition getTargetSize (q : RTPResizingQueue) : cres Z :=
  if (packetizationBaseTime q =? 0)%Z then Fault
  else Val (u32 (packetizationTargetTime q / packetizationBaseTime q * baseSampleSize q)).
Definition getTargetClockRate (q : RTPResizingQueue) : cres Z :=
  target ← getTargetSize q;
  if (baseSampleSize q =? 0)%Z then Fault else Val (u32 (target / baseSampleSize q * clockRate q)).

(** [push] of a queue: a copy of the packet. *)
Definition push_in (q : RTPResizingQueue) (p : RTPPacket) : cres RTPResizingQueue :=
  p ← copy_packet p; Val (q <| q_in := q_in q ++ [p] |>).
Definition push_out (q : RTPResizingQueue) (p : RTPPacket) : cres RTPResizingQueue :=
  p ← copy_packet p; Val (q <| q_out := q_out q ++ [p] |>).

Definition enqueue (q : RTPResizingQueue) (p : RTPPacket) : cres (bool * RTPResizingQueue) :=
  let other := negb (getPayloadType p =? payloadType q)%Z in
  let size := Z.of_nat (getPayloadSize p) in
  if negb (isResizing q) && other then Val (false, q)
  else if isResizing q && other then q ← push_out q p; Val (true, q)
  else if isResizing q && (size =? 0)%Z then Val (true, q)
  else
    let q := if (lastSequence q =? 0)%Z then q <| lastSequence := u32 (getSequenceNumber p - 1) |> else q in
    if (baseSampleSize q =? 0)%Z then Fault
    else if (0 <? size mod baseSampleSize q)%Z then q ← push_out q p; Val (true, q)
    else
      target ← getTargetSize q;
      if (target =? size)%Z then q ← push_out q p; Val (true, q)
      else q ← push_in q p; Val (true, q).

(** [packet = p] with the next sequence number. *)
Definition sent (q : RTPResizingQueue) (old p : RTPPacket) : cres (RTPPacket * RTPResizingQueue) :=
  p ← assign old p;
  let q := q <| lastTimeSent := getTimeStamp p |> <| lastSequence := u32 (lastSequence q + 1) |> in
  Val (setSequenceNumber p (lastSequence q), q).
(** The front of [_out]. *)
Definition pop_out (q : RTPResizingQueue) (old : RTPPacket) : cres (bool * RTPPacket * RTPResizingQueue) :=
  match q_out q with
  | [] => Val (false, old, q)
  | p :: rest =>
      '(p, q) ← sent q old p;
      Val (true, p, q <| q_out := rest |> <| isResizing := true |>)
  end.

Fixpoint drop_late (last : Z) (ps : list RTPPacket) : list RTPPacket :=
  match ps with
  | p :: rest => if (getTimeStamp p <? last)%Z then drop_late last rest else ps
  | [] => []
  end.

(** The loop that cuts a packet: [n] more samples, of which the next begins at
    [offset]. *)
Fixpoint split_loop (n : nat) (p : RTPPacket) (buff : str) (offset target : nat) (rate : Z) (q : RTPResizingQueue)
    : cres RTPResizingQueue :=
  match n with
  | O => Val q
  | S n =>
      sample ← copy_packet p;
      let sample := setTimeStamp sample (u32 (getTimeStamp p - Z.of_nat n * rate)) in
      sample ← setPayload sample buff offset target;
      q ← push_out q sample;
      split_loop n p buff (offset + target) target rate q
  end.

(** The loop that joins the first [n] packets. *)
Fixpoint join_loop (n : nat) (ps : list RTPPacket) (resized : str) (offset : nat) (ts : Z)
    : cres (list RTPPacket * str * nat * Z) :=
  match n with
  | O => Val (ps, resized, offset, ts)
  | S n =>
      match ps with
      | [] => Fault
      | p :: ps =>
          '(buff, len) ← getPayload p stack;
          resized ← wrn resized offset (take len buff);
          join_loop n ps resized (offset + len) (getTimeStamp p)
      end
  end.

Definition dequeue (q : RTPResizingQueue) (old : RTPPacket) : cres (bool * RTPPacket * RTPResizingQueue) :=
  match q_out q with
  | _ :: _ => pop_out q old
  | [] =>
      let q := q <| q_in := drop_late (lastTimeSent q) (q_in q) |> in
      match q_in q with
      | [] => Val (false, old, q)
      | p :: rest =>
          target ← getTargetSize q;
          let front := getPayloadSize p in
          if (target =? 0)%Z || (front =? 0) then Val (false, old, q <| q_in := rest |>)
          else
            let target := Z.to_nat target in
            if target <? front then
              if 0 <? front mod target then
                '(p, q) ← sent q old p;
                Val (true, p, q <| q_in := rest |>)
              else
                p ← assign old p;
                '(buff, _) ← getPayload p stack;
                rate ← getTargetClockRate q;
                q ← split_loop (front / target) p buff 0 target rate q;
                pop_out (q <| q_in := rest |>) p
            else
              let required := target / front in
              if required <=? length (q_in q) then
                sample ← copy_packet p;
                '(rest, resized, offset, ts) ← join_loop required (q_in q) stack 0 0;
                sample ← setPayload sample resized 0 offset;
                q ← push_out (q <| q_in := rest |>) (setTimeStamp sample ts);
                pop_out q old
              else pop_out q old
      end
  end.

(** The variants on the arrays of the proxy. *)
Definition enqueue_data (q : RTPResizingQueue) (buff : str) (size : nat) : cres (bool * RTPResizingQueue) :=
  p ← packet_of buff size; enqueue q p.
Definition dequeue_data (q : RTPResizingQueue) (buff : str) (size : nat) : cres (bool * str * nat * RTPResizingQueue) :=
  '(b, p, q) ← dequeue q new_packet;
  if (b : bool) then
    buff ← wrn buff 0 (take (packetSize p) (packet p));
    Val (true, buff, packetSize p, q)
  else Val (false, buff, size, q).

End resizing.
