(* ===== verification/RtpPacketFacts.v ===== *)
(** * The bytes of an RTP packet

    What a packet is to its users is the bytes it sends, [wire].  The getters read
    them there, a copy has the same, and the setters change a part of them. *)

From S2P Require Import Prelude CMem RtpPacket.
Open Scope nat_scope.

(** ** Fields of a sequence of bytes *)

Definition w_byte (w : str) (i : nat) : Z := uchar (default (chr 0) (w !! i)).
Definition w_head (w : str) : nat := 12 + 4 * Z.to_nat (Z.land (w_byte w 0) 15).
Definition w_type (w : str) : Z := Z.land (w_byte w 1) 127.
Definition w_seq (w : str) : Z := be_val (take 2 (drop 2 w)).
Definition w_time (w : str) : Z := be_val (take 4 (drop 4 w)).
Definition w_payload (w : str) : str := drop (w_head w) w.

(** A packet with all of its header. *)
Definition w_ok (w : str) : Prop := w_head w <= length w /\ length w <= sizeof_Packet.

Definition wire (p : RTPPacket) : str := take (packetSize p) (packet p).
Definition wf_packet (p : RTPPacket) : Prop :=
  length (packet p) = sizeof_Packet /\ packetSize p <= sizeof_Packet /\ getHeaderSize p <= packetSize p.

Lemma head_min w : 12 <= w_head w.
Proof. unfold w_head. lia. Qed.
Lemma head_max w : w_head w <= 72.
Proof.
  unfold w_head. pose proof (Z.land_nonneg (w_byte w 0) 15) as H.
  assert (Z.land (w_byte w 0) 15 < 16)%Z; [|lia].
  change 15%Z with (Z.ones 4). rewrite Z.land_ones by lia. by apply Z.mod_pos_bound.
Qed.

Lemma header_min p : 12 <= getHeaderSize p.
Proof. unfold getHeaderSize. lia. Qed.

Lemma byte_wire p i : i < packetSize p -> w_byte (wire p) i = byte p i.
Proof. intros H. unfold w_byte, byte, wire. by rewrite lookup_take_lt. Qed.

Lemma head_wire p : 0 < packetSize p -> w_head (wire p) = getHeaderSize p.
Proof. intros H. unfold w_head, getHeaderSize, getContributingSourceCount. by rewrite byte_wire. Qed.

Lemma time_wire p : 8 <= packetSize p -> w_time (wire p) = getTimeStamp p.
Proof. intros H. unfold w_time, getTimeStamp, wire. rewrite skipn_firstn_comm, take_take. do 2 f_equal. lia. Qed.
Lemma seq_wire p : 4 <= packetSize p -> w_seq (wire p) = getSequenceNumber p.
Proof. intros H. unfold w_seq, getSequenceNumber, wire. rewrite skipn_firstn_comm, take_take. do 2 f_equal. lia. Qed.
Lemma type_wire p : 2 <= packetSize p -> w_type (wire p) = getPayloadType p.
Proof. intros H. unfold w_type, getPayloadType. by rewrite byte_wire. Qed.

Section wf.
Context (p : RTPPacket) (Hp : wf_packet p).

Lemma wf_12 : 12 <= packetSize p.
Proof. destruct Hp as (_ & _ & H). unfold getHeaderSize in H. lia. Qed.
Lemma length_wire : length (wire p) = packetSize p.
Proof. destruct Hp as (H1 & H2 & _). unfold wire. rewrite length_take. lia. Qed.
Lemma wire_ok : w_ok (wire p).
Proof.
  destruct Hp as (_ & H2 & H3). pose proof wf_12. unfold w_ok. rewrite length_wire, head_wire by lia. done.
Qed.
Lemma payload_size : getPayloadSize p = length (w_payload (wire p)).
Proof.
  pose proof wf_12. destruct Hp as (_ & _ & H3). unfold getPayloadSize, w_payload.
  rewrite length_drop, length_wire, head_wire by lia.
  rewrite (proj2 (Nat.eqb_neq _ _)), (proj2 (Nat.ltb_ge _ _)) by lia. done.
Qed.
Lemma payload_bytes : take (getPayloadSize p) (drop (getHeaderSize p) (packet p)) = w_payload (wire p).
Proof.
  pose proof wf_12. rewrite payload_size. unfold w_payload. rewrite head_wire by lia. unfold wire. rewrite skipn_firstn_comm.
  rewrite length_take, length_drop. destruct Hp as (H1 & H2 & _). f_equal. lia.
Qed.
Lemma getPayload_run buf :
  length (w_payload (wire p)) <= length buf ->
  getPayload p buf = Val (splice buf 0 (w_payload (wire p)), length (w_payload (wire p))).
Proof.
  intros H. unfold getPayload. pose proof payload_bytes as E. pose proof payload_size as S. rewrite S in *.
  destruct (length _ =? 0) eqn:El.
  - apply Nat.eqb_eq in El. rewrite El in *. apply nil_length_inv in El. by rewrite El, splice_nil.
  - rewrite rdn_in, E, val_bind, wrn_in, val_bind by (try done; destruct Hp as (H1 & H2 & H3);
      rewrite <- S in *; unfold getPayloadSize in *; repeat case_match; lia). done.
Qed.

End wf.

(** ** Copies *)

Definition fits (old : RTPPacket) (w : str) : Prop := length (packet old) = sizeof_Packet /\ getHeaderSize old <= length w.

Lemma parse_run p data size :
  length (packet p) = sizeof_Packet -> getHeaderSize p <= size -> size <= sizeof_Packet -> size <= length data ->
  w_head (take size data) <= size ->
  exists b p', parse p data size = Val (b, p') /\ wire p' = take size data /\ wf_packet p'.
Proof.
  intros Hl Hh Hs Hd Hw. unfold parse. rewrite (proj2 (Nat.ltb_ge _ _)) by done.
  rewrite rdn_in, drop_0, val_bind, wrn_in, val_bind by (rewrite ?length_take; lia).
  assert (Ew : wire (p <| packet := splice (packet p) 0 (take size data) |> <| packetSize := size |>) = take size data).
  { unfold wire. cbn. unfold splice. rewrite take_0. cbn [app].
    rewrite take_app_length'; [done|]. rewrite length_take. lia. }
  do 2 eexists. split; [done|]. split; [done|]. repeat split.
  - cbn. rewrite length_splice; [done|]. rewrite length_take. lia.
  - done.
  - rewrite <- head_wire, Ew; [done|]. cbn. unfold getHeaderSize in Hh. lia.
Qed.

Lemma assign_run old p : wf_packet p -> fits old (wire p) -> exists p', assign old p = Val p' /\ wire p' = wire p /\ wf_packet p'.
Proof.
  intros Hp [Hl Hh]. rewrite length_wire in Hh by done. pose proof Hp as (H1 & H2 & H3). unfold assign.
  destruct (parse_run (p <| packet := packet old |>) (packet p) (packetSize p)) as (b & p' & E & Ew & Hw); try done; [lia| |].
  { fold (wire p). rewrite head_wire; [done|]. pose proof (wf_12 p Hp). lia. }
  rewrite E, val_bind. by exists p'.
Qed.

Lemma fits_wire p w : wf_packet p -> w_head (wire p) <= length w -> fits p w.
Proof. intros Hp H. split; [apply Hp|]. rewrite head_wire in H; [done|]. pose proof (wf_12 p Hp). lia. Qed.

(** ** Setters *)

Lemma splice_elsewhere (w : str) i s j :
  i + length s <= length w -> j < i \/ i + length s <= j -> splice w i s !! j = w !! j.
Proof.
  intros H [Hj|Hj]; unfold splice.
  - rewrite lookup_app_l by (rewrite length_take; lia). by rewrite lookup_take_lt.
  - rewrite app_assoc, lookup_app_r; rewrite length_app, length_take; [|lia].
    rewrite lookup_drop. f_equal. lia.
Qed.

Lemma slice_splice (w : str) i s k n :
  i + length s <= length w -> k + n <= i \/ i + length s <= k -> take n (drop k (splice w i s)) = take n (drop k w).
Proof.
  intros H Hk. apply list_eq. intros j. destruct (decide (j < n)).
  - rewrite !lookup_take_lt, !lookup_drop by done. apply splice_elsewhere; [done|lia].
  - rewrite !lookup_take_ge by lia. done.
Qed.

Lemma tail_splice (w : str) i s k : i + length s <= length w -> i + length s <= k -> drop k (splice w i s) = drop k w.
Proof. intros H Hk. apply list_eq. intros j. rewrite !lookup_drop. apply splice_elsewhere; [done|lia]. Qed.

Lemma slice_written (w : str) i s n : n = length s -> i + length s <= length w -> take n (drop i (splice w i s)) = s.
Proof. intros -> H. rewrite drop_splice by lia. apply take_app_length. Qed.

(** The bytes behind the first two, and up to the end of the fixed header, changed. *)
Lemma head_splice w i s : 0 < i -> i + length s <= length w -> w_head (splice w i s) = w_head w.
Proof. intros Hi H. unfold w_head, w_byte. rewrite splice_elsewhere by lia. done. Qed.
Lemma type_splice w i s : 1 < i -> i + length s <= length w -> w_type (splice w i s) = w_type w.
Proof. intros Hi H. unfold w_type, w_byte. rewrite splice_elsewhere by lia. done. Qed.
Lemma payload_splice w i s :
  0 < i -> i + length s <= 12 -> 12 <= length w -> w_payload (splice w i s) = w_payload w.
Proof.
  intros Hi Hs H. pose proof (head_min w). unfold w_payload. rewrite head_splice, tail_splice by lia. done.
Qed.

Lemma wire_put p i s : i + length s <= packetSize p -> wf_packet p -> wire (put_bytes p i s) = splice (wire p) i s.
Proof.
  intros Hi (H1 & H2 & H3). unfold wire, put_bytes. cbn. apply list_eq. intros j.
  destruct (decide (j < packetSize p)) as [Hj|Hj].
  - rewrite lookup_take_lt by done. destruct (decide (j < i \/ i + length s <= j)) as [Hd|Hd].
    + rewrite !splice_elsewhere, lookup_take_lt by (try done; rewrite ?length_take; lia). done.
    + unfold splice. rewrite take_take, Nat.min_l by lia. rewrite !(lookup_app_r (take i (packet p))) by (rewrite length_take; lia).
      by rewrite !(lookup_app_l s) by (rewrite length_take; lia).
  - rewrite lookup_take_ge by lia. rewrite lookup_ge_None_2; [done|]. rewrite length_splice; rewrite length_take; lia.
Qed.

Lemma wf_put p i s : 0 < i -> i + length s <= packetSize p -> wf_packet p -> wf_packet (put_bytes p i s).
Proof.
  intros Hi Hs Hp. pose proof (wf_12 p Hp). pose proof Hp as (H1 & H2 & H3). repeat split.
  - cbn. rewrite length_splice; lia.
  - done.
  - rewrite <- head_wire, wire_put, head_splice, head_wire; cbn; try done; try lia. rewrite length_wire; done.
Qed.

Section setters.
Context (p : RTPPacket) (Hp : wf_packet p) (v : Z).

Lemma setSequenceNumber_run :
  wf_packet (setSequenceNumber p v) /\ length (wire (setSequenceNumber p v)) = length (wire p) /\
  w_head (wire (setSequenceNumber p v)) = w_head (wire p) /\
  w_type (wire (setSequenceNumber p v)) = w_type (wire p) /\ w_time (wire (setSequenceNumber p v)) = w_time (wire p) /\
  w_payload (wire (setSequenceNumber p v)) = w_payload (wire p) /\ w_seq (wire (setSequenceNumber p v)) = (v mod 65536)%Z.
Proof.
  pose proof (wf_12 p Hp). pose proof (length_wire p Hp) as Hl. unfold setSequenceNumber.
  rewrite wire_put by (rewrite ?length_be_bytes; lia || done).
  assert (Hs : 2 + length (be_bytes 2 v) <= length (wire p)) by (rewrite length_be_bytes; lia).
  split_and!; [apply wf_put; rewrite ?length_be_bytes; lia || done|by rewrite length_splice|by rewrite head_splice by lia|by rewrite type_splice by lia| | |].
  - unfold w_time. rewrite slice_splice; [done..|]. rewrite length_be_bytes. lia.
  - apply payload_splice; rewrite ?length_be_bytes; lia.
  - unfold w_seq. rewrite slice_written by (rewrite ?length_be_bytes; lia || done). by rewrite be_val_bytes.
Qed.

Lemma setTimeStamp_run :
  wf_packet (setTimeStamp p v) /\ length (wire (setTimeStamp p v)) = length (wire p) /\
  w_head (wire (setTimeStamp p v)) = w_head (wire p) /\
  w_type (wire (setTimeStamp p v)) = w_type (wire p) /\ w_time (wire (setTimeStamp p v)) = u32 v /\
  w_payload (wire (setTimeStamp p v)) = w_payload (wire p) /\ w_seq (wire (setTimeStamp p v)) = w_seq (wire p).
Proof.
  pose proof (wf_12 p Hp). pose proof (length_wire p Hp) as Hl. unfold setTimeStamp.
  rewrite wire_put by (rewrite ?length_be_bytes; lia || done).
  assert (Hs : 4 + length (be_bytes 4 v) <= length (wire p)) by (rewrite length_be_bytes; lia).
  split_and!; [apply wf_put; rewrite ?length_be_bytes; lia || done|by rewrite length_splice|by rewrite head_splice by lia|by rewrite type_splice by lia| | |].
  - unfold w_time. rewrite slice_written by (rewrite ?length_be_bytes; lia || done). by rewrite be_val_bytes.
  - apply payload_splice; rewrite ?length_be_bytes; lia.
  - unfold w_seq. rewrite slice_splice; [done..|]. lia.
Qed.

End setters.

(** A new payload behind the header. *)
Lemma payload_put w s :
  w_ok w -> w_head (take (w_head w) w ++ s) = w_head w /\ w_type (take (w_head w) w ++ s) = w_type w /\
  w_time (take (w_head w) w ++ s) = w_time w /\ w_payload (take (w_head w) w ++ s) = s.
Proof.
  intros [Hh _]. pose proof (head_min w).
  assert (Hb : forall i, i < 12 -> (take (w_head w) w ++ s) !! i = w !! i).
  { intros i Hi. rewrite lookup_app_l by (rewrite length_take; lia). by rewrite lookup_take_lt by lia. }
  assert (E : w_head (take (w_head w) w ++ s) = w_head w).
  { unfold w_head at 1, w_byte. rewrite Hb by lia. done. }
  split_and!; [done|unfold w_type, w_byte; by rewrite Hb by lia| |].
  - unfold w_time. f_equal. apply list_eq. intros j. destruct (decide (j < 4)).
    + rewrite !lookup_take_lt, !lookup_drop by done. apply Hb. lia.
    + by rewrite !lookup_take_ge by lia.
  - unfold w_payload. rewrite E. rewrite drop_app_length'; [done|]. rewrite length_take. lia.
Qed.

Lemma setPayload_run p buf i n :
  wf_packet p -> i + n <= length buf -> w_head (wire p) + n <= sizeof_Packet ->
  exists p', setPayload p buf i n = Val p' /\ wf_packet p' /\
    wire p' = take (w_head (wire p)) (wire p) ++ take n (drop i buf).
Proof.
  intros Hp Hb Hn. pose proof (wf_12 p Hp). pose proof (header_min p). pose proof Hp as (H1 & H2 & H3). rewrite head_wire in * by lia.
  unfold setPayload. rewrite rdn_in, val_bind by done.
  assert (Hl : length (take n (drop i buf)) = n) by (rewrite length_take, length_drop; lia).
  rewrite wrn_in, val_bind by lia. eexists. split; [done|].
  assert (Ew : wire (p <| packet := splice (packet p) (getHeaderSize p) (take n (drop i buf)) |> <| packetSize := getHeaderSize p + n |>)
    = take (getHeaderSize p) (wire p) ++ take n (drop i buf)).
  { unfold wire. cbn. unfold splice. rewrite app_assoc, take_take, Nat.min_l by lia.
    apply take_app_length'. rewrite length_app, length_take. lia. }
  split; [|done]. repeat split.
  - cbn. rewrite length_splice; lia.
  - cbn. lia.
  - rewrite <- head_wire, Ew by (cbn; lia). pose proof (payload_put (wire p) (take n (drop i buf)) (wire_ok p Hp)) as [E _].
    rewrite head_wire in E by lia. rewrite E. cbn. lia.
Qed.
