(* ===== verification/RtpQueue.v ===== *)
(** * What the resizing queue does to a stream

    Packets of one codec and one payload size, in the order of their time stamps, are
    put into the queue and taken out of it in any interleaving.  The queue is then
    a buffer of bytes: what comes out and what is still held are the payloads that
    went in, in their order, cut into pieces of the size [chunk]. *)

From Stdlib Require Import Sorted.
From S2P Require Import Prelude CMem RtpPacket RtpPacketFacts.
Open Scope nat_scope.

(** The size of the packets that come out. *)
Definition chunk (target size : nat) : nat :=
  if target <? size then if size mod target =? 0 then target else size else target / size * size.

Lemma chunk_pos target size : 0 < target -> 0 < size -> 0 < chunk target size.
Proof.
  intros Ht Hs. unfold chunk. destruct (Nat.ltb_spec target size); [by destruct (_ =? 0)|].
  pose proof (Nat.div_str_pos target size). nia.
Qed.

Definition payload_of (p : RTPPacket) : str := w_payload (wire p).
Definition time_of (p : RTPPacket) : Z := w_time (wire p).
Definition payloads (ps : list RTPPacket) : str := concat (map payload_of ps).
(** The bytes the queue has not yet given out. *)
Definition held (q : RTPResizingQueue) : str := payloads (q_out q) ++ payloads (q_in q).

(** The time stamp of the last packet that has left the queue or is ready to. *)
Definition due (q : RTPResizingQueue) : Z :=
  match last (q_out q) with Some p => time_of p | None => lastTimeSent q end.

Lemma payloads_app ps qs : payloads (ps ++ qs) = payloads ps ++ payloads qs.
Proof. unfold payloads. by rewrite map_app, concat_app. Qed.
Lemma payloads_cons p ps : payloads (p :: ps) = payload_of p ++ payloads ps.
Proof. done. Qed.

Section stream.
Context (junk stack : str) (Hjunk : length junk = 64 + RTP_PACKET_BUFFER_SIZE) (Hstack : length stack = RTP_PACKET_BUFFER_SIZE).
Context (pt clock base baseTime targetTime : Z) (size : nat).

Definition target : nat := Z.to_nat (targetTime / baseTime * base).

(** The parameters of the queue and the size of the payloads that go in. *)
Definition sensible : Prop :=
  (0 < base)%Z /\ (0 < baseTime)%Z /\ (0 < targetTime / baseTime * base <= Z.of_nat RTP_PACKET_BUFFER_SIZE)%Z /\
  0 < size <= RTP_PACKET_BUFFER_SIZE /\ (Z.of_nat size mod base = 0)%Z /\ size <> target.

(** A packet of the stream. *)
Definition streamed (p : RTPPacket) : Prop :=
  wf_packet p /\ w_type (wire p) = pt /\ length (payload_of p) = size.
(** A packet of the queue that is ready. *)
Definition ready (p : RTPPacket) : Prop := wf_packet p /\ length (payload_of p) = chunk target size.

(** The state of the queue between two operations; [latest] is the time stamp of the
    packet that was put in last. *)
Record inv (latest : Z) (q : RTPResizingQueue) : Prop := {
  inv_type : payloadType q = pt;
  inv_clock : clockRate q = clock;
  inv_base : baseSampleSize q = base;
  inv_baseTime : packetizationBaseTime q = baseTime;
  inv_targetTime : packetizationTargetTime q = targetTime;
  inv_in : Forall streamed (q_in q);
  inv_out : Forall ready (q_out q);
  inv_sorted : StronglySorted (fun p r => time_of p <= time_of r)%Z (q_in q);
  inv_times : Forall (fun p => due q <= time_of p <= latest)%Z (q_in q);
  inv_due : (due q <= latest)%Z
}.

Context (Hs : sensible).

Lemma chunk_target_pos : 0 < chunk target size.
Proof. destruct Hs as (? & ? & ? & ? & ? & ?). apply chunk_pos; unfold target; lia. Qed.

Lemma target_run q latest : inv latest q -> getTargetSize q = Val (Z.of_nat target).
Proof.
  intros H. destruct Hs as (? & ? & Ht & _). unfold getTargetSize. rewrite (inv_base _ _ H), (inv_baseTime _ _ H), (inv_targetTime _ _ H).
  rewrite (proj2 (Z.eqb_neq _ _)) by lia. unfold u32. rewrite Z.mod_small; [f_equal; unfold target; lia|].
  assert (Z.of_nat RTP_PACKET_BUFFER_SIZE < 2 ^ 32)%Z by done. lia.
Qed.

(** *** Copies *)

Lemma new_fits p : wf_packet p -> fits (new_packet junk) (wire p).
Proof.
  intros Hp. pose proof (wf_12 p Hp). split.
  - unfold new_packet. cbn [packet]. rewrite length_app, length_replicate, Hjunk. done.
  - rewrite length_wire by done. done.
Qed.

Lemma copy_run p : wf_packet p -> exists p', copy_packet junk p = Val p' /\ wire p' = wire p /\ wf_packet p'.
Proof. intros Hp. apply assign_run; [done|by apply new_fits]. Qed.

Lemma streamed_wire p p' : wire p' = wire p -> wf_packet p' -> streamed p -> streamed p'.
Proof. intros E Hp' (Hp & Ht & Hl). unfold streamed, payload_of in *. by rewrite E. Qed.

Lemma streamed_size p : streamed p -> getPayloadSize p = size.
Proof. intros (Hp & _ & Hl). by rewrite payload_size by done. Qed.
Lemma streamed_time p : streamed p -> getTimeStamp p = time_of p.
Proof. intros (Hp & _ & _). unfold time_of. pose proof (wf_12 p Hp). by rewrite time_wire by lia. Qed.

(** ** Putting in *)

(** The queue as [enqueue] has prepared it for a packet. *)
Definition numbered (q : RTPResizingQueue) (p : RTPPacket) : RTPResizingQueue :=
  if (lastSequence q =? 0)%Z then q <| lastSequence := u32 (getSequenceNumber p - 1) |> else q.

Lemma enqueue_run latest q p :
  inv latest q -> streamed p -> (latest <= time_of p)%Z ->
  exists p', wire p' = wire p /\ wf_packet p' /\
    enqueue junk q p = Val (true, (numbered q p) <| q_in := q_in q ++ [p'] |>).
Proof.
  intros H Hp Hl. pose proof Hs as (Hb & _ & Ht & Hsz & Hm & Hn). pose proof Hp as (Hw & Hty & Hlen).
  assert (E1 : getPayloadType p = payloadType q).
  { pose proof (wf_12 p Hw). rewrite (inv_type _ _ H), <- Hty. by rewrite type_wire by lia. }
  unfold enqueue. rewrite E1, Z.eqb_refl. cbn [negb]. rewrite !andb_false_r, (streamed_size p Hp).
  rewrite (proj2 (Z.eqb_neq _ _)), andb_false_r by lia. fold (numbered q p).
  assert (Hq : inv latest (numbered q p)) by (unfold numbered; destruct (_ =? 0)%Z; [by destruct H|done]).
  rewrite (inv_base _ _ Hq), (proj2 (Z.eqb_neq _ _)) by lia. rewrite Hm. cbv iota beta. cbn [Z.ltb Z.compare].
  rewrite (target_run _ _ Hq), val_bind, (proj2 (Z.eqb_neq _ _)) by lia.
  destruct (copy_run p Hw) as (p' & E & Ew & Hw'). unfold push_in. rewrite E, !val_bind. exists p'. split_and!; try done.
  unfold numbered. by destruct (_ =? 0)%Z.
Qed.

Lemma inv_numbered latest q p : inv latest q -> inv latest (numbered q p).
Proof. intros H. unfold numbered. destruct (_ =? 0)%Z; [by destruct H|done]. Qed.

Lemma enqueue_inv latest q p p' :
  inv latest q -> streamed p -> (latest <= time_of p)%Z -> wire p' = wire p -> wf_packet p' ->
  inv (time_of p) ((numbered q p) <| q_in := q_in q ++ [p'] |>).
Proof.
  intros H Hp Hl Ew Hw. apply (inv_numbered _ _ p) in H as H'.
  assert (Et : time_of p' = time_of p) by (unfold time_of; by rewrite Ew).
  assert (Ei : q_in (numbered q p) = q_in q) by (unfold numbered; by destruct (_ =? 0)%Z).
  assert (Ed : due ((numbered q p) <| q_in := q_in q ++ [p'] |>) = due (numbered q p)) by done.
  pose proof (inv_due _ _ H') as Hd. destruct H'. rewrite Ei in *. constructor; try done.
  - cbn. apply Forall_app. split; [done|]. constructor; [|done]. by apply (streamed_wire p).
  - cbn. revert inv_sorted0 inv_times0. generalize (q_in q) as rs. induction rs as [|r rs IH]; intros Hss Hts; cbn; [by repeat constructor|].
    inversion Hss; subst. inversion Hts; subst. constructor; [by apply IH|].
    apply Forall_app. split; [done|]. constructor; [lia|done].
  - rewrite Ed. cbn. apply Forall_app. split; [|constructor; [lia|done]].
    eapply Forall_impl; [done|]. intros r Hr. cbn in Hr. lia.
  - rewrite Ed. lia.
Qed.

(** ** Taking out *)

(** What a call of [dequeue] does: a packet of the right size with the next number, or
    nothing, when less than such a packet is held. *)
Definition gives (latest : Z) (q : RTPResizingQueue) (b : bool) (p : RTPPacket) (q' : RTPResizingQueue) : Prop :=
  inv latest q' /\
  if b then
    ready p /\ payload_of p ++ held q' = held q /\ lastSequence q' = u32 (lastSequence q + 1) /\
    w_seq (wire p) = (lastSequence q' mod 65536)%Z
  else held q' = held q /\ length (held q) < chunk target size /\ lastSequence q' = lastSequence q.

Lemma sent_run q old p :
  wf_packet p -> fits old (wire p) ->
  exists p', sent q old p = Val (p', q <| lastTimeSent := time_of p |> <| lastSequence := u32 (lastSequence q + 1) |>) /\
    wf_packet p' /\ payload_of p' = payload_of p /\ w_seq (wire p') = (u32 (lastSequence q + 1) mod 65536)%Z.
Proof.
  intros Hp Hf. destruct (assign_run old p Hp Hf) as (r & E & Ew & Hr). unfold sent. rewrite E, val_bind.
  assert (Et : getTimeStamp r = time_of p).
  { pose proof (wf_12 r Hr). unfold time_of. rewrite <- Ew, time_wire by lia. done. }
  rewrite Et. eexists. split; [done|].
  destruct (setSequenceNumber_run r Hr (u32 (lastSequence q + 1))) as (Hw & _ & _ & _ & _ & Hpl & Hsq).
  split_and!; [done| |done]. unfold payload_of. by rewrite <- Ew.
Qed.

Lemma last_cons_some {A} (x : A) l : exists y, last (x :: l) = Some y.
Proof. revert x. induction l as [|z l IH]; intros x; [by exists x|]. destruct (IH z) as [y Hy]. by exists y. Qed.

Lemma pop_run latest q old p rest :
  inv latest q -> q_out q = p :: rest -> fits old (wire p) ->
  exists p' q', pop_out q old = Val (true, p', q') /\ gives latest q true p' q'.
Proof.
  intros H Eo Hf. destruct H. rewrite Eo in inv_out0. inversion inv_out0 as [|? ? [Hp Hl] Hr]; subst.
  destruct (sent_run q old p Hp Hf) as (p' & E & Hw & Hpl & Hsq). unfold pop_out. rewrite Eo, E, val_bind.
  do 2 eexists. split; [done|].
  assert (Ed : due (q <| lastTimeSent := time_of p |> <| lastSequence := u32 (lastSequence q + 1) |> <| q_out := rest |>
    <| isResizing := true |>) = due q).
  { unfold due. rewrite Eo. destruct rest as [|r rest]; [done|]. destruct (last_cons_some r rest) as [y Hy].
    change (last (p :: r :: rest)) with (last (r :: rest)). cbn -[last]. by rewrite Hy. }
  split; [constructor; try rewrite Ed; done|]. split_and!; try done.
  - by split; [|rewrite Hpl].
  - unfold held. rewrite Eo, payloads_cons, Hpl. cbn. by rewrite app_assoc.
Qed.

Lemma drop_late_none q latest : inv latest q -> q_out q = [] -> drop_late (lastTimeSent q) (q_in q) = q_in q.
Proof.
  intros H Eo. pose proof (inv_times _ _ H) as Ht. pose proof (inv_in _ _ H) as Hi. unfold due in Ht. rewrite Eo in Ht. cbn in Ht.
  destruct (q_in q) as [|p ps]; [done|]. inversion Ht; subst. inversion Hi; subst. cbn [drop_late].
  rewrite streamed_time by done. rewrite (proj2 (Z.ltb_ge _ _)) by lia. done.
Qed.

(** *** Cutting *)

(** A piece of a packet. *)
Definition piece (p r : RTPPacket) (s : str) (v : Z) : Prop :=
  wf_packet r /\ w_head (wire r) = w_head (wire p) /\ payload_of r = s /\ time_of r = v.

Lemma sample_run p buff offset n v :
  wf_packet p -> offset + n <= length buff -> w_head (wire p) + n <= sizeof_Packet ->
  exists r1 r2 r3, copy_packet junk p = Val r1 /\ setPayload (setTimeStamp r1 v) buff offset n = Val r2 /\
    copy_packet junk r2 = Val r3 /\ piece p r3 (take n (drop offset buff)) (u32 v).
Proof.
  intros Hp Hb Hn. destruct (copy_run p Hp) as (r & E & Ew & Hr).
  destruct (setTimeStamp_run r Hr v) as (Hw & _ & Hh & _ & Ht & _ & _).
  destruct (setPayload_run (setTimeStamp r v) buff offset n Hw Hb) as (r2 & E2 & Hw2 & Ew2); [by rewrite Hh, Ew|].
  destruct (copy_run r2 Hw2) as (r3 & E3 & Ew3 & Hw3). exists r, r2, r3. split_and!; try done.
  destruct (payload_put _ (take n (drop offset buff)) (wire_ok _ Hw)) as (P1 & _ & P3 & P4).
  unfold piece, payload_of, time_of. rewrite Ew3, Ew2, P1, P3, P4, Hh, Ew. done.
Qed.

Lemma time_range p : (u32 (time_of p) = time_of p)%Z.
Proof.
  unfold u32, time_of, w_time. apply Z.mod_small. pose proof (be_val_range (take 4 (drop 4 (wire p)))) as Hr.
  split; [lia|]. eapply Z.lt_le_trans; [apply Hr|]. change (2 ^ 32)%Z with (256 ^ 4)%Z.
  apply Z.pow_le_mono_r; [lia|]. rewrite length_take. lia.
Qed.

Lemma u32_idem z : u32 (u32 z) = u32 z.
Proof. unfold u32. by rewrite Z.mod_mod. Qed.

Lemma split_run n p buff offset t rate q :
  wf_packet p -> offset + n * t <= length buff -> w_head (wire p) + t <= sizeof_Packet ->
  exists ss, split_loop junk n p buff offset t rate q = Val (q <| q_out := q_out q ++ ss |>) /\ length ss = n /\
    Forall (fun r => wf_packet r /\ w_head (wire r) = w_head (wire p) /\ length (payload_of r) = t) ss /\
    payloads ss = take (n * t) (drop offset buff) /\
    (0 < n -> exists r, last ss = Some r /\ time_of r = time_of p).
Proof.
  intros Hp. revert offset q. induction n as [|n IH]; intros offset q Hb Hh; cbn [split_loop].
  { exists []. split_and!; try done; [rewrite app_nil_r; by destruct q|lia]. }
  assert (Etp : getTimeStamp p = time_of p).
  { pose proof (wf_12 p Hp). unfold time_of. by rewrite time_wire by lia. }
  destruct (sample_run p buff offset t (u32 (getTimeStamp p - Z.of_nat n * rate)) Hp) as (r1 & r2 & r & E1 & E2 & E3 & Hr); [lia|done|].
  rewrite E1, val_bind. cbn zeta. rewrite E2, val_bind. unfold push_out. rewrite E3, !val_bind.
  destruct (IH (offset + t) (q <| q_out := q_out q ++ [r] |>)) as (ss & E & Hl & Hf & Hc & Ht); [lia|done|].
  rewrite E. exists (r :: ss). destruct Hr as (R1 & R2 & R3 & R4). split_and!.
  - cbn. by rewrite <- app_assoc.
  - by cbn; f_equal.
  - constructor; [|done]. split_and!; [done|done|]. rewrite R3, length_take, length_drop. lia.
  - rewrite payloads_cons, R3, Hc, <- drop_drop. cbn [Nat.mul].
    rewrite <- (take_drop t (take (t + n * t) (drop offset buff))), take_take, skipn_firstn_comm.
    f_equal; [f_equal; lia|f_equal; lia].
  - intros _. destruct n as [|n].
    + destruct ss; [|done]. exists r. split; [done|]. rewrite R4, u32_idem, Etp.
      replace (time_of p - Z.of_nat 0 * rate)%Z with (time_of p) by lia. apply time_range.
    + destruct (Ht ltac:(lia)) as (x & Hx & Hxt). exists x. split; [|done]. destruct ss; [done|]. done.
Qed.

(** *** Joining *)

Lemma join_run n ps resized offset ts :
  Forall streamed ps -> n <= length ps -> offset + n * size <= length resized ->
  exists ts', join_loop stack n ps resized offset ts =
      Val (drop n ps, splice resized offset (payloads (take n ps)), offset + n * size, ts') /\
    (0 < n -> exists r, last (take n ps) = Some r /\ ts' = time_of r).
Proof.
  revert ps resized offset ts. induction n as [|n IH]; intros ps resized offset ts Hf Hn Hr; cbn [join_loop].
  { exists ts. split; [|lia]. cbn [take drop Nat.mul]. by rewrite splice_nil, Nat.add_0_r. }
  destruct ps as [|p ps]; [cbn in Hn; lia|]. inversion Hf as [|? ? Hp Hf']; subst. pose proof Hp as (Hw & _ & Hl).
  destruct Hs as (_ & _ & _ & [H0 Hsz] & _).
  rewrite (getPayload_run p Hw); fold (payload_of p); [|by rewrite Hl, Hstack]. rewrite val_bind, Hl.
  assert (Et : take size (splice stack 0 (payload_of p)) = payload_of p).
  { unfold splice. rewrite take_0. cbn [app]. by apply take_app_length'. }
  rewrite Et, wrn_in, val_bind by lia.
  destruct (IH ps (splice resized offset (payload_of p)) (offset + size) (getTimeStamp p)) as (ts' & E & Ht); [done|cbn in Hn; lia| |].
  { rewrite length_splice; lia. }
  rewrite E. exists ts'. split.
  - cbn [drop take]. rewrite payloads_cons, splice_app by lia. cbn [Nat.mul]. by rewrite Nat.add_assoc.
  - intros _. destruct n as [|n].
    + exists p. split; [done|]. cbn [join_loop] in E. injection E as _ _ <-. by apply streamed_time.
    + destruct (Ht ltac:(lia)) as (r & Er & Hr'). exists r. split; [|done].
      destruct ps as [|p2 ps]; [cbn in Er; by destruct n|]. done.
Qed.

Lemma sorted_tail (x : RTPPacket) pre rest :
  StronglySorted (fun p r => time_of p <= time_of r)%Z (pre ++ x :: rest) ->
  StronglySorted (fun p r => time_of p <= time_of r)%Z rest /\ Forall (fun r => time_of x <= time_of r)%Z rest.
Proof. induction pre as [|p pre IH]; cbn; intros H; inversion H; subst; [done|by apply IH]. Qed.

(** The packets up to [x] have left for the other side of the queue. *)
Lemma inv_next latest q q' pre x rest :
  inv latest q -> q_in q = pre ++ x :: rest ->
  payloadType q' = pt -> clockRate q' = clock -> baseSampleSize q' = base -> packetizationBaseTime q' = baseTime ->
  packetizationTargetTime q' = targetTime ->
  q_in q' = rest -> Forall ready (q_out q') -> due q' = time_of x -> inv latest q'.
Proof.
  intros H Ei E1 E2 E3 E4 E5 Ei' Ho Ed. destruct H. rewrite Ei in *.
  destruct (sorted_tail x pre rest) as [S1 S2]; [done|].
  apply Forall_app in inv_in0 as [_ I2]. apply Forall_app in inv_times0 as [_ T2].
  inversion I2; subst. inversion T2; subst. constructor; try done.
  - rewrite Ed. apply Forall_forall. intros r Hr.
    rewrite Forall_forall in S2. match goal with H : Forall _ (q_in q') |- _ => rewrite Forall_forall in H; specialize (H r Hr) end.
    specialize (S2 r Hr). cbn in *. lia.
  - rewrite Ed. cbn in *. lia.
Qed.

(** Solves the fields of a queue that an operation has left alone. *)
Ltac unchanged H :=
  first [exact H|exact (inv_type _ _ H)|exact (inv_clock _ _ H)|exact (inv_base _ _ H)|exact (inv_baseTime _ _ H)
        |exact (inv_targetTime _ _ H)|reflexivity].

Lemma payloads_length ps : Forall streamed ps -> length (payloads ps) = length ps * size.
Proof.
  induction 1 as [|p ps (_ & _ & Hl) _ IH]; [done|]. rewrite payloads_cons, length_app, IH, Hl. cbn. lia.
Qed.

(** *** The whole operation *)

Lemma take_head latest q old p rest :
  inv latest q -> q_out q = [] -> q_in q = p :: rest -> target < size -> size mod target <> 0 -> fits old (wire p) ->
  exists p', sent q old p = Val (p', q <| lastTimeSent := time_of p |> <| lastSequence := u32 (lastSequence q + 1) |>) /\
    gives latest q true p' (q <| lastTimeSent := time_of p |> <| lastSequence := u32 (lastSequence q + 1) |> <| q_in := rest |>).
Proof.
  intros H Eo Ei Ht Hm Hf. assert (Hp : streamed p) by (pose proof (inv_in _ _ H) as Hi; rewrite Ei in Hi; by inversion Hi).
  pose proof Hp as (Hw & _ & Hl). destruct (sent_run q old p Hw Hf) as (p' & E & Hw' & Hpl & Hsq).
  exists p'. split; [done|]. split.
  - apply (inv_next latest q _ [] p rest); try unchanged H; [done|cbn; rewrite Eo; constructor|].
    unfold due. cbn. by rewrite Eo.
  - split_and!; [|unfold held; rewrite Hpl, Ei; cbn; by rewrite Eo|done|done]. split; [done|]. rewrite Hpl, Hl.
    unfold chunk. rewrite (proj2 (Nat.ltb_lt _ _)), (proj2 (Nat.eqb_neq _ _)) by done. done.
Qed.

Lemma cut_head latest q old p rest rate :
  inv latest q -> q_out q = [] -> q_in q = p :: rest -> 0 < target < size -> size mod target = 0 -> fits old (wire p) ->
  exists r buff q1 p' q', assign old p = Val r /\ getPayload r stack = Val (buff, size) /\
    split_loop junk (size / target) r buff 0 target rate q = Val q1 /\
    pop_out (q1 <| q_in := rest |>) r = Val (true, p', q') /\ gives latest q true p' q'.
Proof.
  intros H Eo Ei Ht Hm Hf. assert (Hp : streamed p) by (pose proof (inv_in _ _ H) as Hi; rewrite Ei in Hi; by inversion Hi).
  pose proof Hp as (Hw & _ & Hl). destruct Hs as (_ & _ & _ & [_ Hsz] & _).
  destruct (assign_run old p Hw Hf) as (r & E & Ew & Hr).
  assert (Epr : payload_of r = payload_of p) by (unfold payload_of; by rewrite Ew).
  assert (Etr : time_of r = time_of p) by (unfold time_of; by rewrite Ew).
  pose proof (getPayload_run r Hr stack) as Eg. fold (payload_of r) in Eg. rewrite Epr, Hl in Eg.
  specialize (Eg ltac:(lia)).
  assert (Hd : size / target * target = size) by (pose proof (Nat.div_mod_eq size target); nia).
  assert (Hb : length (splice stack 0 (payload_of p)) = RTP_PACKET_BUFFER_SIZE) by (rewrite length_splice; lia).
  pose proof (head_max (wire r)).
  destruct (split_run (size / target) r (splice stack 0 (payload_of p)) 0 target rate q Hr) as (ss & E2 & Hn & Hss & Hc & Hlast); [lia| |].
  { assert (RTP_PACKET_BUFFER_SIZE + 76 = sizeof_Packet) by done. lia. }
  assert (Hdp : 0 < size / target) by nia. destruct (Hlast Hdp) as (x & Ex & Hx). clear Hlast.
  rewrite drop_0, Hd in Hc.
  assert (Ec : payloads ss = payload_of p).
  { rewrite Hc. unfold splice. rewrite take_0. cbn [app]. by apply take_app_length'. }
  rewrite Eo in E2. cbn [app] in E2.
  destruct ss as [|s1 ss]; [cbn in Hn; lia|]. inversion Hss as [|? ? (W1 & W2 & W3) Hss']; subst.
  assert (Hready : Forall ready (s1 :: ss)).
  { eapply Forall_impl; [done|]. intros y (Y1 & Y2 & Y3). split; [done|]. unfold chunk.
    by rewrite (proj2 (Nat.ltb_lt _ _)), (proj2 (Nat.eqb_eq _ _)) by lia. }
  destruct (pop_run latest (q <| q_out := s1 :: ss |> <| q_in := rest |>) r s1 ss) as (p' & q' & E3 & G1 & G2 & G3 & G4 & G5).
  - apply (inv_next latest q _ [] p rest); try unchanged H; [done|done|]. unfold due. cbn -[last]. by rewrite Ex, Hx.
  - done.
  - apply fits_wire; [done|]. rewrite <- W2. apply wire_ok. done.
  - exists r, (splice stack 0 (payload_of p)), (q <| q_out := s1 :: ss |>), p', q'. split_and!; try done. split; [done|].
    split_and!; try done. rewrite G3. unfold held. rewrite Eo, Ei, payloads_cons. cbn [q_out q_in]. by rewrite <- Ec.
Qed.

Lemma join_heads latest q old p rest :
  inv latest q -> q_out q = [] -> q_in q = p :: rest -> size < target -> target / size <= length (q_in q) ->
  length (packet old) = sizeof_Packet -> getHeaderSize old = 12 ->
  exists r rest' resized ts r2 q1 p' q', copy_packet junk p = Val r /\
    join_loop stack (target / size) (q_in q) stack 0 0 = Val (rest', resized, target / size * size, ts) /\
    setPayload r resized 0 (target / size * size) = Val r2 /\
    push_out junk (q <| q_in := rest' |>) (setTimeStamp r2 ts) = Val q1 /\
    pop_out q1 old = Val (true, p', q') /\ gives latest q true p' q'.
Proof.
  intros H Eo Ei Ht Hn Hold Hhold. pose proof (inv_in _ _ H) as Hi.
  assert (Hp : streamed p) by (rewrite Ei in Hi; by inversion Hi).
  pose proof Hp as (Hw & _ & Hl). pose proof Hs as (_ & _ & [Ht0 Htm] & [Hs0 Hsz] & _).
  set (n := target / size) in *.
  assert (Hn0 : 0 < n) by (apply Nat.div_str_pos; lia).
  assert (Hns : n * size <= target) by (pose proof (Nat.div_mod_eq target size); subst n; nia).
  assert (Htb : target <= RTP_PACKET_BUFFER_SIZE) by (unfold target; lia).
  destruct (copy_run p Hw) as (r & E1 & Ew & Hr).
  destruct (join_run n (q_in q) stack 0 0 Hi Hn) as (ts & E2 & Hts); [lia|]. destruct (Hts Hn0) as (x & Ex & ->). clear Hts.
  set (bytes := payloads (take n (q_in q))) in *.
  assert (Hlb : length bytes = n * size).
  { subst bytes. rewrite payloads_length by (by apply Forall_take). by rewrite length_take, Nat.min_l. }
  assert (Hls : length (splice stack 0 bytes) = RTP_PACKET_BUFFER_SIZE) by (rewrite length_splice; lia).
  pose proof (head_max (wire r)).
  destruct (setPayload_run r (splice stack 0 bytes) 0 (n * size) Hr) as (r2 & E3 & Hr2 & Ew2); [lia| |].
  { assert (RTP_PACKET_BUFFER_SIZE + 76 = sizeof_Packet) by done. lia. }
  destruct (payload_put (wire r) (take (n * size) (drop 0 (splice stack 0 bytes))) (wire_ok r Hr)) as (P1 & _ & _ & P4).
  rewrite <- Ew2 in P1, P4.
  destruct (setTimeStamp_run r2 Hr2 (time_of x)) as (Hw3 & Hl3 & Hh3 & _ & Ht3 & Hp3 & _).
  destruct (copy_run _ Hw3) as (r4 & E4 & Ew4 & Hw4).
  assert (Epl : payload_of r4 = bytes).
  { unfold payload_of. rewrite Ew4, Hp3, P4, drop_0. unfold splice. rewrite take_0. cbn [app]. by apply take_app_length'. }
  assert (Etx : time_of r4 = time_of x) by (unfold time_of; rewrite Ew4, Ht3; apply time_range).
  assert (Hin : exists pre, q_in q = pre ++ x :: drop n (q_in q)).
  { destruct (last_Some (take n (q_in q)) x) as [[pre Hpre] _]; [done|]. exists pre.
    rewrite <- (take_drop n (q_in q)) at 1. rewrite Hpre, <- app_assoc. done. }
  destruct Hin as [pre Hin].
  destruct (pop_run latest (q <| q_in := drop n (q_in q) |> <| q_out := [r4] |>) old r4 []) as (p' & q' & E5 & G1 & G2 & G3 & G4 & G5).
  - apply (inv_next latest q _ pre x (drop n (q_in q))); try unchanged H; [done| |by rewrite <- Etx].
    constructor; [|constructor]. split; [done|]. rewrite Epl, Hlb. unfold chunk. rewrite (proj2 (Nat.ltb_ge _ _)) by lia. done.
  - done.
  - split; [done|]. rewrite Hhold. apply wf_12 in Hw4 as Hx. rewrite length_wire; done.
  - exists r, (drop n (q_in q)), (splice stack 0 bytes), (time_of x), r2, (q <| q_in := drop n (q_in q) |> <| q_out := [r4] |>), p', q'.
    split_and!; try done.
    + unfold push_out. rewrite E4, val_bind. cbn. by rewrite Eo.
    + split; [done|]. split_and!; try done. rewrite G3. transitivity (payloads [r4] ++ payloads (drop n (q_in q))); [done|].
      rewrite payloads_cons, Epl. unfold held. rewrite Eo. cbn [payloads map concat app]. rewrite app_nil_r. subst bytes. by rewrite <- payloads_app, take_drop.
Qed.

(** The operation on any state of the queue, into a packet that is new. *)
Lemma dequeue_run latest q old :
  inv latest q -> length (packet old) = sizeof_Packet -> getHeaderSize old = 12 ->
  exists b p q', dequeue junk stack q old = Val (b, p, q') /\ gives latest q b p q'.
Proof.
  intros H Hold Hhold. pose proof Hs as (_ & _ & [Ht0 Htm] & [Hs0 Hsz] & _ & Hne).
  assert (Hfit : forall p, wf_packet p -> fits old (wire p)).
  { intros p Hp. split; [done|]. rewrite Hhold, length_wire by done. by apply wf_12. }
  unfold dequeue. destruct (q_out q) as [|p rest] eqn:Eo.
  2:{ destruct (pop_run latest q old p rest H Eo) as (p' & q' & E & G); [|by exists true, p', q'].
      apply Hfit. pose proof (inv_out _ _ H) as Ho. rewrite Eo in Ho. inversion Ho as [|? ? [Hp _] _]. done. }
  rewrite (drop_late_none q latest H Eo). replace (q <| q_in := q_in q |>) with q by (by destruct q).
  destruct (q_in q) as [|p rest] eqn:Ei.
  { exists false, old, q. split; [done|]. split; [done|]. split_and!; try done. unfold held. rewrite Eo, Ei. apply chunk_target_pos. }
  assert (Hp : streamed p) by (pose proof (inv_in _ _ H) as Hi; rewrite Ei in Hi; by inversion Hi). pose proof Hp as (Hw & _ & _).
  assert (Ht : 0 < target) by (unfold target; lia).
  rewrite (target_run q latest H), val_bind, (streamed_size p Hp). rewrite (proj2 (Z.eqb_neq _ _)), (proj2 (Nat.eqb_neq _ _)) by lia.
  cbn [orb]. rewrite Nat2Z.id. destruct (Nat.ltb_spec target size) as [Hlt|Hge].
  - destruct (Nat.ltb_spec 0 (size mod target)) as [Hm|Hm].
    + destruct (take_head latest q old p rest H Eo Ei Hlt ltac:(lia) (Hfit p Hw)) as (p' & E & G).
      rewrite E, val_bind. by do 3 eexists.
    + destruct (getTargetClockRate q) as [rate| | |] eqn:Er; [|exfalso..].
      2-4: unfold getTargetClockRate in Er; rewrite (target_run q latest H), val_bind, (inv_base _ _ H) in Er;
        destruct Hs as (Hb & _); rewrite (proj2 (Z.eqb_neq _ _)) in Er by lia; done.
      destruct (cut_head latest q old p rest rate H Eo Ei ltac:(lia) ltac:(lia) (Hfit p Hw)) as (r & buff & q1 & p' & q' & E1 & E2 & E3 & E4 & G).
      rewrite E1, val_bind, E2, val_bind, val_bind, E3, val_bind, E4. by do 3 eexists.
  - destruct (Nat.leb_spec (target / size) (length (p :: rest))) as [Hn|Hn].
    + rewrite <- Ei in Hn. destruct (join_heads latest q old p rest H Eo Ei ltac:(lia) Hn Hold Hhold)
        as (r & rest' & resized & ts & r2 & q1 & p' & q' & E1 & E2 & E3 & E4 & E5 & G).
      rewrite E1, val_bind, <- Ei, E2, val_bind, E3, val_bind, E4, val_bind, E5. by do 3 eexists.
    + unfold pop_out. rewrite Eo. exists false, old, q. split; [done|]. split; [done|]. split_and!; try done.
      unfold held. rewrite Eo. cbn [payloads map concat app]. fold (payloads (q_in q)). rewrite payloads_length by apply (inv_in _ _ H).
      unfold chunk. rewrite (proj2 (Nat.ltb_ge _ _)), Ei by lia. nia.
Qed.

(** ** Runs *)

Inductive queue_op := Put (p : RTPPacket) | Take.
Definition inputs (ops : list queue_op) : list RTPPacket := omap (fun o => match o with Put p => Some p | Take => None end) ops.

(** The packets that come out and the queue in the end. *)
Fixpoint run_queue (q : RTPResizingQueue) (ops : list queue_op) : cres (list RTPPacket * RTPResizingQueue) :=
  match ops with
  | [] => Val ([], q)
  | Put p :: ops => '(_, q) ← enqueue junk q p; run_queue q ops
  | Take :: ops =>
      '(b, p, q) ← dequeue junk stack q (new_packet junk);
      '(ps, q) ← run_queue q ops;
      Val (if (b : bool) then p :: ps else ps, q)
  end.

Definition in_order (latest : Z) (ps : list RTPPacket) : Prop :=
  Forall streamed ps /\ Forall (fun p => latest <= time_of p)%Z ps /\
  StronglySorted (fun p r => time_of p <= time_of r)%Z ps.

Lemma in_order_cons latest p ps : in_order latest (p :: ps) -> streamed p /\ (latest <= time_of p)%Z /\ in_order (time_of p) ps.
Proof. intros (H1 & H2 & H3). inversion H1; inversion H2; inversion H3; subst. split_and!; try done. Qed.

Lemma new_header : length (packet (new_packet junk)) = sizeof_Packet /\ getHeaderSize (new_packet junk) = 12.
Proof. unfold new_packet. cbn [packet]. rewrite length_app, length_replicate, Hjunk. split; reflexivity. Qed.

(** The sequence numbers that follow [n]. *)
Definition counted_from (n : Z) (ps : list RTPPacket) : Prop :=
  forall i p, ps !! i = Some p -> w_seq (wire p) = ((n + 1 + Z.of_nat i) mod 65536)%Z.

(** What a run shows of a state whose numbering has begun. *)
Definition resized (latest : Z) (q : RTPResizingQueue) (ops : list queue_op) : Prop :=
  exists outs q' latest', run_queue q ops = Val (outs, q') /\ inv latest' q' /\
    payloads outs ++ held q' = held q ++ payloads (inputs ops) /\ Forall ready outs /\ counted_from (lastSequence q) outs.

Lemma held_put q p p' : wire p' = wire p -> held ((numbered q p) <| q_in := q_in q ++ [p'] |>) = held q ++ payload_of p.
Proof.
  intros E. transitivity (payloads (q_out q) ++ payloads (q_in q ++ [p'])).
  - unfold held, numbered. by destruct (_ =? 0)%Z.
  - rewrite payloads_app, app_assoc. unfold held. f_equal. cbn. rewrite app_nil_r. unfold payload_of. by rewrite E.
Qed.

Lemma run_numbered ops latest q :
  inv latest q -> in_order latest (inputs ops) ->
  (0 < lastSequence q)%Z -> (lastSequence q + Z.of_nat (length ops) < 2 ^ 32)%Z -> resized latest q ops.
Proof.
  revert latest q. induction ops as [|[p|] ops IH]; intros latest q Hq Hi H0 Hb; cbn [run_queue inputs omap list_omap length] in *.
  - exists [], q, latest. split_and!; try done. by rewrite app_nil_r.
  - apply in_order_cons in Hi as (Hp & Hl & Hi). destruct (enqueue_run latest q p Hq Hp Hl) as (p' & Ew & Hw & E).
    unfold resized. cbn [run_queue]. rewrite E, val_bind. pose proof (enqueue_inv latest q p p' Hq Hp Hl Ew Hw) as Hq'.
    assert (El : lastSequence ((numbered q p) <| q_in := q_in q ++ [p'] |>) = lastSequence q).
    { unfold numbered. by rewrite (proj2 (Z.eqb_neq _ _)) by lia. }
    destruct (IH _ _ Hq' Hi) as (outs & q2 & l2 & E2 & I2 & C2 & R2 & N2); [lia|lia|].
    exists outs, q2, l2. rewrite El in N2. split_and!; try done. rewrite C2, (held_put q p p' Ew), <- app_assoc. done.
  - destruct new_header as [Hn1 Hn2]. destruct (dequeue_run latest q (new_packet junk) Hq Hn1 Hn2) as (b & p & q1 & E & Hq1 & G).
    unfold resized. cbn [run_queue]. rewrite E, val_bind. destruct b.
    + destruct G as (Gr & Gp & Gl & Gs). assert (El : lastSequence q1 = (lastSequence q + 1)%Z).
      { rewrite Gl. unfold u32. apply Z.mod_small. lia. }
      destruct (IH _ _ Hq1 Hi) as (outs & q2 & l2 & E2 & I2 & C2 & R2 & N2); [lia|lia|].
      rewrite E2, val_bind. exists (p :: outs), q2, l2. split_and!; try done.
      * rewrite payloads_cons, <- app_assoc, C2, app_assoc, Gp. done.
      * by constructor.
      * intros [|i] r Hr; cbn in Hr.
        -- injection Hr as <-. rewrite Gs, El. f_equal. lia.
        -- rewrite (N2 i r Hr), El. f_equal. lia.
    + destruct G as (Gh & _ & Gl). destruct (IH _ _ Hq1 Hi) as (outs & q2 & l2 & E2 & I2 & C2 & R2 & N2); [lia|lia|].
      rewrite E2, val_bind. exists outs, q2, l2. rewrite Gh in C2. rewrite Gl in N2. done.
Qed.

Lemma run_fresh ops latest q :
  inv latest q -> held q = [] -> lastSequence q = 0%Z -> in_order latest (inputs ops) ->
  (forall p, head (inputs ops) = Some p -> 2 <= w_seq (wire p))%Z -> (Z.of_nat (length ops) < 2 ^ 31)%Z ->
  exists outs q' latest', run_queue q ops = Val (outs, q') /\ inv latest' q' /\
    payloads outs ++ held q' = payloads (inputs ops) /\ Forall ready outs /\
    (forall p, head (inputs ops) = Some p -> counted_from (w_seq (wire p) - 1) outs).
Proof.
  revert latest q. induction ops as [|[p|] ops IH]; intros latest q Hq Hh H0 Hi H2 Hb; cbn [run_queue inputs omap list_omap length] in *.
  - exists [], q, latest. split_and!; try done.
  - pose proof Hi as Hi'. apply in_order_cons in Hi as (Hp & Hl & Hi). destruct (enqueue_run latest q p Hq Hp Hl) as (p' & Ew & Hw & E).
    pose proof (enqueue_inv latest q p p' Hq Hp Hl Ew Hw) as Hq'. specialize (H2 p eq_refl).
    assert (Hr : (w_seq (wire p) < 2 ^ 16)%Z).
    { unfold w_seq. pose proof (be_val_range (take 2 (drop 2 (wire p)))) as [_ Hr]. rewrite length_take in Hr.
      eapply Z.lt_le_trans; [done|]. change (2 ^ 16)%Z with (256 ^ 2)%Z. apply Z.pow_le_mono_r; lia. }
    assert (El : lastSequence ((numbered q p) <| q_in := q_in q ++ [p'] |>) = (w_seq (wire p) - 1)%Z).
    { unfold numbered. rewrite H0. cbn. destruct Hp as (Hw0 & _). pose proof (wf_12 p Hw0).
      rewrite <- seq_wire by lia. unfold u32. apply Z.mod_small. lia. }
    destruct (run_numbered ops _ _ Hq' Hi) as (outs & q2 & l2 & E2 & I2 & C2 & R2 & N2); [lia|lia|].
    rewrite E, val_bind. exists outs, q2, l2. rewrite El in N2. split_and!; try done.
    + rewrite C2, (held_put q p p' Ew), Hh. done.
    + intros r [= <-]. done.
  - destruct new_header as [Hn1 Hn2]. destruct (dequeue_run latest q (new_packet junk) Hq Hn1 Hn2) as (b & p & q1 & E & Hq1 & G).
    rewrite E, val_bind. destruct b.
    + destruct G as ((_ & Hc) & Gp & _). rewrite Hh in Gp. apply app_eq_nil in Gp as [Gp _]. rewrite Gp in Hc.
      pose proof chunk_target_pos. cbn in Hc. lia.
    + destruct G as (Gh & _ & Gl). rewrite Hh in Gh. rewrite H0 in Gl.
      destruct (IH _ _ Hq1 Gh Gl Hi H2) as (outs & q2 & l2 & E2 & G2); [lia|]. rewrite E2, val_bind. by exists outs, q2, l2.
Qed.

Lemma inv_new : inv 0 (new_queue pt clock base baseTime targetTime).
Proof. constructor; try done; by constructor. Qed.

End stream.

(** ** The theorem and an instance *)

(** A byte array. *)
Definition zeros (n : nat) : str := replicate n (chr 0).

(** A packet of the stream with the numbers and the payload given. *)
Definition sample (pt seq ts : Z) (payload : str) : RTPPacket :=
  let w := [chr 128; chr pt] ++ be_bytes 2 seq ++ be_bytes 4 ts ++ be_bytes 4 7 ++ payload in
  mkRTPPacket (w ++ zeros (sizeof_Packet - length w)) (length w) [] 0 [] 0.
Definition wf_packetb (p : RTPPacket) : bool :=
  (length (packet p) =? sizeof_Packet) && (packetSize p <=? sizeof_Packet) && (getHeaderSize p <=? packetSize p).

Lemma wf_packetb_ok p : wf_packetb p = true -> wf_packet p.
Proof. unfold wf_packetb. rewrite !andb_true_iff, Nat.eqb_eq, !Nat.leb_le. by intros [[? ?] ?]. Qed.

Definition streamedb (pt : Z) (size : nat) (p : RTPPacket) : bool :=
  wf_packetb p && (w_type (wire p) =? pt)%Z && (length (payload_of p) =? size).
Lemma streamedb_ok pt size p : streamedb pt size p = true -> streamed pt size p.
Proof. unfold streamedb. rewrite !andb_true_iff, Nat.eqb_eq, Z.eqb_eq. intros [[H ?] ?]. split_and!; [by apply wf_packetb_ok|done|done]. Qed.



(** ** Where the queue loses packets *)

(** Packets whose time stamps are smaller than the last one sent are dropped, and those are
    all packets of the stream from the wrap-around of its 32-bit time stamp on. *)
Theorem late_dropped junk stack q old :
  q_out q = [] -> Forall (fun p => getTimeStamp p < lastTimeSent q)%Z (q_in q) ->
  dequeue junk stack q old = Val (false, old, q <| q_in := [] |>).
Proof.
  intros Eo Hf. unfold dequeue. rewrite Eo.
  assert (E : drop_late (lastTimeSent q) (q_in q) = []).
  { induction Hf as [|p ps Hp _ IH]; [done|]. cbn [drop_late]. by rewrite (proj2 (Z.ltb_lt _ _) Hp). }
  rewrite E. done.
Qed.

(** A small packet followed by large ones: the number of packets that are joined comes from
    the first alone, and the copies leave the array of the joined payload. *)
Definition uneven : list queue_op :=
  [Put (sample 18 5 100 (zeros 10)); Put (sample 18 6 180 (zeros 2000)); Put (sample 18 7 260 (zeros 2000));
   Put (sample 18 8 340 (zeros 2000)); Take].

Theorem join_overflows :
  Forall wf_packet (inputs uneven) /\
  run_queue (zeros (64 + RTP_PACKET_BUFFER_SIZE)) (zeros RTP_PACKET_BUFFER_SIZE) (new_queue 18 80 10 10 40) uneven = Fault.
Proof.
  split; [|vm_compute; reflexivity].
  repeat apply Forall_cons_2; try apply Forall_nil_2; apply wf_packetb_ok; vm_compute; reflexivity.
Qed.
