(* ===== verification/RtpProxy.v ===== *)
(** * The media relay

    [RTPResizer] of src/rtp/RTPResizer.cpp, [RTPProxy] of src/rtp/RTPProxy.cpp and
    [RTPProxyTuple] of src/rtp/RTPProxyTuple.cpp.  A proxy has two legs; what one
    receives the other sends.  The handlers of the I/O service are functions from the
    state and what was received to the state and what is sent; a send takes the bytes
    as they are when it is asked for.  Which endpoint variable a pending receive will
    write the source of its packet to is part of the state, as is the number of receives
    that were cancelled and whose handlers have not yet run.

    [junk] and [stack] are the uninitialised bytes of RtpPacket.v.  [binds] says of the
    [n]th [bind] of the program, at an endpoint, whether it succeeds.  The build
    without ENABLE_FEATURE_XOR does what the build with it does when the cipher is not
    enabled. *)

From S2P Require Import Prelude CMem RtpPacket CoreStrings SdpText IpAddress SipXor.
Open Scope nat_scope.

Abbreviation endpoint := (ip_address * Z)%type.
Definition no_endpoint : endpoint := (any_address, 0%Z).

(** ** RTPResizer *)

Record RTPResizer := mkRTPResizer {
  rz_queue : RTPResizingQueue;
  samples : Z;
  lastTick : Z;
  duration : Z;
  resizerThread : bool;
  lastQueuedSize : nat;
  legIndex : nat
}.
#[export] Instance eta_resizer : Settable RTPResizer := fun r =>
  mkRTPResizer (rz_queue r) (samples r) (lastTick r) (duration r) (resizerThread r) (lastQueuedSize r) (legIndex r).

Definition new_resizer (leg : nat) : RTPResizer := mkRTPResizer (new_queue 18 80 10 10 0) 0 0 0 false 0 leg.
Definition setSamples (r : RTPResizer) (s : Z) : RTPResizer :=
  r <| samples := s |> <| rz_queue := setPacketizationTargetTime (rz_queue r) s |> <| duration := u64 (s * 1000) |>.
Definition isEnabled (r : RTPResizer) : bool := (0 <? samples r)%Z.
Definition resizer_stop (r : RTPResizer) : RTPResizer := r <| resizerThread := false |> <| lastTick := 0%Z |>.
Definition resizer_run (r : RTPResizer) : RTPResizer := (resizer_stop r) <| resizerThread := true |>.

(** [wait]: the time to sleep, with [now] the time it is called. *)
Definition wait (r : RTPResizer) (now : Z) : Z * RTPResizer :=
  if (duration r =? 0)%Z then (0%Z, r)
  else if (lastTick r =? 0)%Z then (duration r, r <| lastTick := now |>)
  else
    let accuracy := u64 (now - lastTick r) in
    if (accuracy <? duration r)%Z then
      (u64 (duration r + (duration r - accuracy)), r <| lastTick := u64 (now + (duration r - accuracy)) |>)
    else if (duration r <? accuracy)%Z then
      if (accuracy - duration r <? duration r)%Z then
        (duration r - (accuracy - duration r), r <| lastTick := u64 (now - (accuracy - duration r)) |>)%Z
      else (0%Z, r <| lastTick := u64 (now - (accuracy - duration r - duration r)) |>)
    else (duration r, r <| lastTick := now |>).

(** ** RTPProxy *)

Inductive ProxyType := Data | Control.
#[export] Instance proxy_type_eq : EqDecision ProxyType.
Proof. solve_decision. Defined.
(** Where a pending receive writes the source of its packet. *)
Inductive receive := Idle | IntoSender | IntoLast.
#[export] Instance receive_eq : EqDecision receive.
Proof. solve_decision. Defined.

Record RTPProxy := mkRTPProxy {
  leg1Socket : bool;
  leg2Socket : bool;
  localEndPointLeg1 : endpoint;
  localEndPointLeg2 : endpoint;
  localEndPointLeg1External : str;
  localEndPointLeg2External : str;
  senderEndPointLeg1 : endpoint;
  senderEndPointLeg2 : endpoint;
  lastSenderEndPointLeg1 : endpoint;
  lastSenderEndPointLeg2 : endpoint;
  leg1Resizer : RTPResizer;
  leg2Resizer : RTPResizer;
  leg1Reset : bool;
  leg2Reset : bool;
  isStarted : bool;
  isInactiveFlag : bool;
  isLeg1XOREncrypted : bool;
  isLeg2XOREncrypted : bool;
  isXORDisabled : bool;
  type : ProxyType;
  timeStamp : Z;
  leg1Receive : receive;
  leg2Receive : receive;
  cancelled : nat;
  identifier : str
}.
#[export] Instance eta_proxy : Settable RTPProxy := fun p =>
  mkRTPProxy (leg1Socket p) (leg2Socket p) (localEndPointLeg1 p) (localEndPointLeg2 p) (localEndPointLeg1External p)
    (localEndPointLeg2External p) (senderEndPointLeg1 p) (senderEndPointLeg2 p) (lastSenderEndPointLeg1 p)
    (lastSenderEndPointLeg2 p) (leg1Resizer p) (leg2Resizer p) (leg1Reset p) (leg2Reset p) (isStarted p) (isInactiveFlag p)
    (isLeg1XOREncrypted p) (isLeg2XOREncrypted p) (isXORDisabled p) (type p) (timeStamp p) (leg1Receive p) (leg2Receive p)
    (cancelled p) (identifier p).

Definition new_proxy (t : ProxyType) (id : str) (xorDisabled : bool) (now : Z) : RTPProxy :=
  mkRTPProxy false false no_endpoint no_endpoint [] [] no_endpoint no_endpoint no_endpoint no_endpoint
    (new_resizer 1) (new_resizer 2) false false false false false false xorDisabled t now Idle Idle 0 id.

(** The pending receives of the sockets are cancelled. *)
Definition cancel (p : RTPProxy) : RTPProxy :=
  let n r := match r with Idle => 0 | _ => 1 end in
  p <| cancelled := cancelled p + n (leg1Receive p) + n (leg2Receive p) |> <| leg1Receive := Idle |> <| leg2Receive := Idle |>.
(** The sockets are deleted. *)
Definition shutdown (p : RTPProxy) : RTPProxy := cancel (p <| leg1Socket := false |> <| leg2Socket := false |>).
Definition stop (p : RTPProxy) : RTPProxy :=
  (cancel (p <| leg1Resizer := resizer_stop (leg1Resizer p) |> <| leg2Resizer := resizer_stop (leg2Resizer p) |>
             <| leg1Socket := false |> <| leg2Socket := false |>)) <| isStarted := false |>.
Definition close (p : RTPProxy) : RTPProxy := stop (shutdown p).
Definition resetLeg1 (p : RTPProxy) : RTPProxy := p <| leg1Reset := true |>.
Definition resetLeg2 (p : RTPProxy) : RTPProxy := p <| leg2Reset := true |>.
Definition setInactive (p : RTPProxy) : RTPProxy := p <| isInactiveFlag := false |>.
Definition setResizerSamples (p : RTPProxy) (leg1 leg2 : Z) : RTPProxy :=
  p <| leg1Resizer := setSamples (leg1Resizer p) leg1 |> <| leg2Resizer := setSamples (leg2Resizer p) leg2 |>.
(** [getTime() - _timeStamp > (unsigned int)_readTimeout], in unsigned 64-bit arithmetic. *)
Definition isInactive (p : RTPProxy) (now readTimeout : Z) : bool :=
  isInactiveFlag p || (u32 readTimeout <? u64 (now - timeStamp p))%Z.

(** [start]; [None] is the exception it throws. *)
Definition start (p : RTPProxy) : option RTPProxy :=
  if negb (leg1Socket p) || negb (leg2Socket p) then None
  else if isStarted p then Some (resetLeg2 (resetLeg1 p))
  else Some (p <| leg1Receive := IntoSender |> <| leg2Receive := IntoSender |> <| isStarted := true |>).

Section relay.
Context (junk stack : str) (cfg : xor_sip_config) (enc dec : option (str -> str)) {asio : AsioAddress}.
Context (binds : nat -> endpoint -> bool).

(** [open]; [n] binds were made before. *)
Definition open (n : nat) (p : RTPProxy) (leg1Listener leg2Listener : IPAddress) : bool * nat * RTPProxy :=
  let p := (stop p) <| leg1Socket := true |> <| leg2Socket := true |> in
  let p := p <| localEndPointLeg1 := (ip leg1Listener, port leg1Listener) |>
             <| localEndPointLeg1External := externalAddress leg1Listener |> in
  if binds n (localEndPointLeg1 p) then
    let p := p <| localEndPointLeg2 := (ip leg2Listener, port leg2Listener) |>
               <| localEndPointLeg2External := externalAddress leg2Listener |> in
    if binds (n + 1) (localEndPointLeg2 p) then (true, n + 2, p) else (false, n + 2, stop p)
  else (false, n + 1, stop p).

Definition getLeg1Address (p : RTPProxy) : IPAddress :=
  (ip_of_string (to_string (localEndPointLeg1 p).1)) <| port := (localEndPointLeg1 p).2 |>
    <| externalAddress := localEndPointLeg1External p |>.
Definition getLeg2Address (p : RTPProxy) : IPAddress :=
  (ip_of_string (to_string (localEndPointLeg2 p).1)) <| port := (localEndPointLeg2 p).2 |>
    <| externalAddress := localEndPointLeg2External p |>.

(** *** Packets *)

Definition validateBuffer (buff : str) (size : nat) : cres bool :=
  p ← packet_of junk buff size; Val (getVersion p =? 2)%Z.

Definition resizer_enqueue (r : RTPResizer) (buff : str) (size : nat) : cres (bool * RTPResizer) :=
  '(b, q) ← enqueue_data junk (rz_queue r) buff size;
  Val (b, if (b : bool) then r <| rz_queue := q |> <| lastQueuedSize := size |> else r <| rz_queue := q |>).
Definition resizer_dequeue (r : RTPResizer) (buff : str) (size : nat) : cres (bool * str * nat * RTPResizer) :=
  if resizerThread r then Val (false, buff, size, r)
  else
    '(b, buff, size, q) ← dequeue_data junk stack (rz_queue r) buff size;
    let r := r <| rz_queue := q |> in
    Val (b, buff, size, if (b : bool) && (size <? lastQueuedSize r) then resizer_run r else r).

(** A datagram to a leg's destination. *)
Record datagram := mkDatagram { via_leg : nat; destination : endpoint; bytes : str }.

(** The bytes of the array that are sent, enciphered first when [recode]. *)
Definition outgoing (recode : bool) (buff : str) (size : nat) : cres str :=
  if recode then '(buff, size) ← rtpEncrypt cfg enc buff size; Val (take size buff) else Val (take size buff).
(** A packet is put into the queue of the resizer, and sent if that does not take it. *)
Definition pass (resizing recode : bool) (r : RTPResizer) (buff : str) (size : nat) : cres (list str * RTPResizer) :=
  if resizing then
    '(b, r) ← resizer_enqueue r buff size;
    if (b : bool) then Val ([], r) else s ← outgoing recode buff size; Val ([s], r)
  else s ← outgoing recode buff size; Val ([s], r).
(** A packet from a leg that enciphers or not to one that does or not. *)
Definition relay_frame (fromXOR toXOR disabled resizing : bool) (r : RTPResizer) (buff : str) (size : nat)
    : cres (list str * RTPResizer) :=
  if negb (xor_enabled cfg) then pass resizing false r buff size
  else if fromXOR && negb toXOR && negb disabled then
    '(buff, size) ← rtpDecrypt cfg enc dec buff size; pass resizing false r buff size
  else if negb fromXOR && toXOR && negb disabled then pass resizing true r buff size
  else if fromXOR && toXOR && negb disabled then
    '(buff, size) ← rtpDecrypt cfg enc dec buff size; pass resizing true r buff size
  else pass resizing false r buff size.

(** What the queue of a resizer can still give: packets that are ready, and at most one for
    each byte of those that are not. *)
Definition queue_weight (q : RTPResizingQueue) : nat :=
  length (q_out q) + sum_list_with (fun p => S (getPayloadSize p)) (q_in q).
(** The [while] of [processResizerQueue] for one leg. *)
Fixpoint drain (fuel : nat) (socket recode : bool) (r : RTPResizer) (buff : str) (size : nat)
    : cres (list str * RTPResizer * str * nat) :=
  match fuel with
  | O => Endless
  | S fuel =>
      '(b, buff, size, r) ← resizer_dequeue r buff size;
      if (b : bool) then
        if socket && negb (size =? 0) then
          '(buff, size) ← (if recode then rtpEncrypt cfg enc buff size else Val (buff, size));
          let out := take size buff in
          '(rest, r, buff, size) ← drain fuel socket recode r buff size;
          Val (out :: rest, r, buff, size)
        else drain fuel socket recode r buff size
      else Val ([], r, buff, size)
  end.
Definition processResizerQueue (p : RTPProxy) : cres (list datagram * RTPProxy) :=
  match type p with
  | Control => Val ([], p)
  | Data =>
      if negb (isEnabled (leg1Resizer p)) && negb (isEnabled (leg2Resizer p)) then Val ([], p)
      else
        '(out2, p, buff, size) ←
          (if isEnabled (leg2Resizer p) then
             '(out, r, buff, size) ← drain (S (queue_weight (rz_queue (leg2Resizer p)))) (leg2Socket p)
               (isLeg2XOREncrypted p && negb (isXORDisabled p)) (leg2Resizer p) stack 0;
             Val (map (mkDatagram 2 (senderEndPointLeg2 p)) out, p <| leg2Resizer := r |>, buff, size)
           else Val ([], p, stack, 0));
        '(out1, p) ←
          (if isEnabled (leg1Resizer p) then
             '(out, r, _, _) ← drain (S (queue_weight (rz_queue (leg1Resizer p)))) (leg1Socket p)
               (isLeg1XOREncrypted p && negb (isXORDisabled p)) (leg1Resizer p) buff size;
             Val (map (mkDatagram 1 (senderEndPointLeg1 p)) out, p <| leg1Resizer := r |>)
           else Val ([], p));
        Val (out2 ++ out1, p)
  end.

(** The handler of a completed receive on leg 1: [size] bytes have arrived in [buff]. *)
Definition handleLeg1FrameRead (p : RTPProxy) (now : Z) (buff : str) (size : nat) : cres (list datagram * RTPProxy) :=
  let p := p <| timeStamp := now |> in
  if size <? 2 then Val ([], p)
  else
    valid ← validateBuffer buff size;
    let p := p <| isInactiveFlag := false |> <| isLeg1XOREncrypted := xor_enabled cfg && negb valid |> in
    let isResizing := isEnabled (leg2Resizer p) && bool_decide (type p = Data) in
    '(out, p) ←
      (if leg2Socket p && negb ((senderEndPointLeg2 p).2 =? 0)%Z then
         '(out, r) ← relay_frame (isLeg1XOREncrypted p) (isLeg2XOREncrypted p) (isXORDisabled p) isResizing (leg2Resizer p) buff size;
         Val (map (mkDatagram 2 (senderEndPointLeg2 p)) out, p <| leg2Resizer := r |>)
       else Val ([], p));
    let p :=
      if leg1Socket p then
        if leg1Reset p then p <| leg1Reset := false |> <| leg1Receive := IntoLast |> else p <| leg1Receive := IntoSender |>
      else p in
    '(more, p) ← processResizerQueue p;
    Val (out ++ more, p).

Definition handleLeg2FrameRead (p : RTPProxy) (now : Z) (buff : str) (size : nat) : cres (list datagram * RTPProxy) :=
  let p := p <| timeStamp := now |> in
  if size <? 2 then Val ([], p)
  else
    valid ← validateBuffer buff size;
    let p := p <| isInactiveFlag := false |> <| isLeg2XOREncrypted := xor_enabled cfg && negb valid |> in
    let isResizing := isEnabled (leg1Resizer p) && bool_decide (type p = Data) in
    '(out, p) ←
      (if leg1Socket p && negb ((senderEndPointLeg1 p).2 =? 0)%Z then
         '(out, r) ← relay_frame (isLeg2XOREncrypted p) (isLeg1XOREncrypted p) (isXORDisabled p) isResizing (leg1Resizer p) buff size;
         Val (map (mkDatagram 1 (senderEndPointLeg1 p)) out, p <| leg1Resizer := r |>)
       else Val ([], p));
    let p :=
      if leg2Socket p then
        if leg2Reset p then p <| leg2Reset := false |> <| leg2Receive := IntoSender |> else p <| leg2Receive := IntoLast |>
      else p in
    '(more, p) ← processResizerQueue p;
    Val (out ++ more, p).

(** The handlers with an error. *)
Definition read_error (p : RTPProxy) : RTPProxy := p <| isInactiveFlag := true |>.

(** [onResizerDequeue], with the packet the thread of a resizer has taken. *)
Definition onResizerDequeue (p : RTPProxy) (leg : nat) (packet : RTPPacket) : cres (list datagram) :=
  match type p with
  | Control => Val []
  | Data =>
      if negb (isEnabled (leg1Resizer p)) && negb (isEnabled (leg2Resizer p)) then Val []
      else
        s ← rdn (RtpPacket.packet packet) 0 (packetSize packet);
        buff ← wrn stack 0 s;
        let size := packetSize packet in
        if (leg =? 1) && isEnabled (leg1Resizer p) then
          if leg1Socket p && negb (size =? 0) then
            out ← outgoing (isLeg1XOREncrypted p && negb (isXORDisabled p)) buff size;
            Val [mkDatagram 1 (senderEndPointLeg1 p) out]
          else Val []
        else if (leg =? 2) && isEnabled (leg2Resizer p) then
          if leg2Socket p && negb (size =? 0) then
            out ← outgoing (isLeg2XOREncrypted p && negb (isXORDisabled p)) buff size;
            Val [mkDatagram 2 (senderEndPointLeg2 p) out]
          else Val []
        else Val []
  end.
(** One turn of the thread of a resizer, [internal_run]. *)
Definition resizer_turn (p : RTPProxy) (leg : nat) : cres (list datagram * RTPProxy) :=
  let r := if leg =? 1 then leg1Resizer p else leg2Resizer p in
  '(b, packet, q) ← dequeue junk stack (rz_queue r) (new_packet junk);
  let r := r <| rz_queue := q |> in
  let p := if leg =? 1 then p <| leg1Resizer := r |> else p <| leg2Resizer := r |> in
  if (b : bool) then out ← onResizerDequeue p leg packet; Val (out, p) else Val ([], p).

(** *** Events *)

Inductive event :=
(** A datagram arrives at a leg: its source, the array it was written to and its size. *)
| Arrives (leg : nat) (src : endpoint) (buff : str) (size : nat) (now : Z)
(** The handler of a cancelled receive runs. *)
| Cancelled
| Turn (leg : nat)
| Reset1
| Reset2.

(** A datagram is only taken by a pending receive. *)
Definition proxy_step (p : RTPProxy) (e : event) : cres (list datagram * RTPProxy) :=
  match e with
  | Arrives 1 src buff size now =>
      match leg1Receive p with
      | Idle => Val ([], p)
      | IntoSender => handleLeg1FrameRead (p <| leg1Receive := Idle |> <| senderEndPointLeg1 := src |>) now buff size
      | IntoLast => handleLeg1FrameRead (p <| leg1Receive := Idle |> <| lastSenderEndPointLeg1 := src |>) now buff size
      end
  | Arrives 2 src buff size now =>
      match leg2Receive p with
      | Idle => Val ([], p)
      | IntoSender => handleLeg2FrameRead (p <| leg2Receive := Idle |> <| senderEndPointLeg2 := src |>) now buff size
      | IntoLast => handleLeg2FrameRead (p <| leg2Receive := Idle |> <| lastSenderEndPointLeg2 := src |>) now buff size
      end
  | Arrives _ _ _ _ _ => Val ([], p)
  | Cancelled =>
      match cancelled p with
      | O => Val ([], p)
      | S n => Val ([], read_error (p <| cancelled := n |>))
      end
  | Turn leg =>
      if resizerThread (if leg =? 1 then leg1Resizer p else leg2Resizer p) then resizer_turn p leg else Val ([], p)
  | Reset1 => Val ([], resetLeg1 p)
  | Reset2 => Val ([], resetLeg2 p)
  end.
Fixpoint proxy_run (p : RTPProxy) (es : list event) : cres (list datagram * RTPProxy) :=
  match es with
  | [] => Val ([], p)
  | e :: es =>
      '(out, p) ← proxy_step p e;
      '(more, p) ← proxy_run p es;
      Val (out ++ more, p)
  end.

(** ** RTPProxyTuple *)

Record RTPProxyTuple := mkRTPProxyTuple { data : RTPProxy; control : RTPProxy }.
#[export] Instance eta_tuple : Settable RTPProxyTuple := fun t => mkRTPProxyTuple (data t) (control t).

Definition new_tuple (id : str) (xorDisabled : bool) (now : Z) : RTPProxyTuple :=
  mkRTPProxyTuple (new_proxy Data (id ++ #"-data") xorDisabled now) (new_proxy Control (id ++ #"-control") xorDisabled now).
Definition tuple_stop (t : RTPProxyTuple) : RTPProxyTuple := mkRTPProxyTuple (close (data t)) (close (control t)).
(** [false] is the exception of one of the two. *)
Definition tuple_start (t : RTPProxyTuple) : bool * RTPProxyTuple :=
  match start (data t) with
  | None => (false, t)
  | Some d =>
      match start (control t) with
      | None => (false, t <| data := d |>)
      | Some c => (true, mkRTPProxyTuple d c)
      end
  end.
Definition tuple_setResizerSamples (t : RTPProxyTuple) (leg1 leg2 : Z) : RTPProxyTuple :=
  t <| data := setResizerSamples (data t) leg1 leg2 |>.

(** The ports of the manager: [_rtpProxyUDPPortBase], [_rtpProxyUDPPortMax],
    [_rtpProxyUDPPortCurrent], and the number of binds that were made. *)
Record ports := mkPorts { portBase : Z; portMax : Z; portCurrent : Z; bindsMade : nat }.
#[export] Instance eta_ports : Settable ports := fun m => mkPorts (portBase m) (portMax m) (portCurrent m) (bindsMade m).

Definition getNextAvailablePortTuple (m : ports) : Z * ports :=
  if (portCurrent m =? 0)%Z then (portBase m, m <| portCurrent := u16 (portBase m + 2) |>)
  else
    let next := u16 (portCurrent m + 2) in
    (portCurrent m, m <| portCurrent := if (portMax m <? next)%Z then portBase m else next |>).

(** The loop of [open], with the listeners whose ports it sets. *)
Fixpoint open_loop (retry : nat) (m : ports) (t : RTPProxyTuple) (leg1Data leg2Data leg1Control leg2Control : IPAddress)
    : bool * ports * RTPProxyTuple :=
  match retry with
  | O => (false, m, t)
  | S retry =>
      let '(leg1DataPort, m) := getNextAvailablePortTuple m in
      let '(leg2DataPort, m) := getNextAvailablePortTuple m in
      let leg1Data := setPort leg1Data leg1DataPort in
      let leg1Control := setPort leg1Control (u16 (leg1DataPort + 1)) in
      let leg2Data := setPort leg2Data leg2DataPort in
      let leg2Control := setPort leg2Control (u16 (leg2DataPort + 1)) in
      let '(b, n, d) := open (bindsMade m) (data t) leg1Data leg2Data in
      let '(b, n, c) := if (b : bool) then open n (control t) leg1Control leg2Control else (false, n, control t) in
      let m := m <| bindsMade := n |> in
      if (b : bool) then (true, m, mkRTPProxyTuple d c)
      else open_loop retry m (mkRTPProxyTuple (stop d) (stop c)) leg1Data leg2Data leg1Control leg2Control
  end.
(** The number of attempts is the number of pairs of ports. *)
Definition tuple_open (m : ports) (t : RTPProxyTuple) (leg1Data leg2Data leg1Control leg2Control : IPAddress)
    : bool * ports * RTPProxyTuple :=
  open_loop (Z.to_nat (Z.quot (portMax m - portBase m) 2)) m t leg1Data leg2Data leg1Control leg2Control.

End relay.
