(* ===== verification/RtpProxyFacts.v ===== *)
(** * Facts about the media relay

    The loops of the resizer end, the ports that are handed out, the sockets that are
    opened, and what becomes of a datagram. *)

From S2P Require Import Prelude CMem RtpPacket CoreStrings SdpText IpAddress SipXor RtpProxy.
Open Scope nat_scope.

(** ** The queue is emptied in finitely many steps *)

Section drain.
Context (junk stack : str).

Lemma bind_val {A B} (m : cres A) (f : A -> cres B) b : m ≫= f = Val b -> exists a, m = Val a /\ f a = Val b.
Proof. destruct m as [a| | |]; [|done..]. intros H. by exists a. Qed.

Lemma sent_queues q old p p' q' : sent q old p = Val (p', q') -> q_out q' = q_out q /\ q_in q' = q_in q.
Proof. unfold sent. intros H. apply bind_val in H as (a & _ & H). by injection H as _ <-. Qed.

Lemma pop_out_queues q old p q' :
  pop_out q old = Val (true, p, q') -> S (length (q_out q')) = length (q_out q) /\ q_in q' = q_in q.
Proof.
  unfold pop_out. destruct (q_out q) as [|x rest] eqn:E; [done|]. intros H. apply bind_val in H as ([a q1] & Hs & H).
  injection H as <- <-. apply sent_queues in Hs as [_ Hi]. cbn. by rewrite Hi.
Qed.

Lemma push_out_queues q p q' : push_out junk q p = Val q' -> length (q_out q') = S (length (q_out q)) /\ q_in q' = q_in q.
Proof. unfold push_out. intros H. apply bind_val in H as (a & _ & H). injection H as <-. cbn. rewrite length_app. cbn. by rewrite Nat.add_1_r. Qed.

Lemma split_queues n p buff offset target rate q q' :
  split_loop junk n p buff offset target rate q = Val q' -> length (q_out q') = n + length (q_out q) /\ q_in q' = q_in q.
Proof.
  revert offset q. induction n as [|n IH]; intros offset q H; cbn [split_loop] in H; [by injection H as <-|].
  apply bind_val in H as (a & _ & H). cbn zeta in H. apply bind_val in H as (b & _ & H). apply bind_val in H as (q1 & H1 & H).
  apply push_out_queues in H1 as [L1 I1]. apply IH in H as [L I]. rewrite I, I1. split; [lia|done].
Qed.

Definition weigh (ps : list RTPPacket) : nat := sum_list_with (fun p => S (getPayloadSize p)) ps.
#[local] Arguments weigh : simpl never.

Lemma weigh_drop_late last ps : weigh (drop_late last ps) <= weigh ps.
Proof. induction ps as [|p ps IH]; [done|]. cbn [drop_late]. destruct (_ <? _)%Z; [|done]. unfold weigh in *. cbn [sum_list_with foldr]. lia. Qed.

Lemma join_weight n ps resized offset ts rest b o t :
  join_loop stack n ps resized offset ts = Val (rest, b, o, t) -> n + weigh rest <= weigh ps.
Proof.
  revert ps resized offset ts. induction n as [|n IH]; intros ps resized offset ts H; cbn [join_loop] in H; [by injection H as <- _ _ _|].
  destruct ps as [|p ps]; [done|]. apply bind_val in H as ([? ?] & _ & H). apply bind_val in H as (? & _ & H).
  apply IH in H. unfold weigh in *. cbn [sum_list_with foldr]. lia.
Qed.

(** Every packet that comes out makes the queue lighter. *)
Lemma dequeue_weight q old p q' :
  dequeue junk stack q old = Val (true, p, q') -> queue_weight q' < queue_weight q.
Proof.
  unfold queue_weight. fold (weigh (q_in q)) (weigh (q_in q')). unfold dequeue. destruct (q_out q) as [|x rest] eqn:Eo.
  2:{ intros H. apply pop_out_queues in H as [L ->]. rewrite Eo in L. cbn in *. lia. }
  pose proof (weigh_drop_late (lastTimeSent q) (q_in q)) as Hd. cbn zeta. set (q0 := q <| q_in := _ |>).
  assert (E0 : q_out q0 = []) by done. assert (Hd0 : weigh (q_in q0) <= weigh (q_in q)) by exact Hd. clearbody q0. clear Hd Eo.
  destruct (q_in q0) as [|f rest] eqn:Ei; [done|]. intros H. apply bind_val in H as (t & _ & H).
  destruct (_ || _) eqn:Ez; [done|]. apply orb_false_iff in Ez as [Et Ef]. apply Nat.eqb_neq in Ef. apply Z.eqb_neq in Et.
  set (t' := Z.to_nat t) in *. assert (Hw : weigh (f :: rest) = S (getPayloadSize f) + weigh rest) by done. rewrite Hw in Hd0.
  destruct (Nat.ltb_spec t' (getPayloadSize f)) as [Hlt|Hge].
  - destruct (Nat.ltb_spec 0 (getPayloadSize f mod t')).
    + apply bind_val in H as ([? ?] & Hs & H). injection H as <- <-. apply sent_queues in Hs as [Ho _]. cbn. rewrite Ho, E0. cbn. lia.
    + apply bind_val in H as (? & _ & H). apply bind_val in H as ([? ?] & _ & H). apply bind_val in H as (? & _ & H).
      apply bind_val in H as (q1 & H1 & H). apply split_queues in H1 as [L1 _]. rewrite E0, Nat.add_0_r in L1.
      apply pop_out_queues in H as [L ->]. cbn in L |- *. rewrite L1 in L.
      assert (getPayloadSize f / t' <= getPayloadSize f); [|lia].
      destruct t'; [cbn; lia|]. apply Nat.Div0.div_le_upper_bound; nia.
  - cbn zeta in H. destruct (_ <=? _) eqn:El.
    + apply bind_val in H as (? & _ & H). apply bind_val in H as ([[[? ?] ?] ?] & Hj & H). apply bind_val in H as (? & _ & H).
      apply bind_val in H as (q1 & H1 & H). apply join_weight in Hj. rewrite Hw in Hj.
      apply push_out_queues in H1 as [L1 I1]. apply pop_out_queues in H as [L ->]. rewrite I1. cbn in L1 |- *.
      rewrite E0 in L1. cbn in L1. assert (0 < t' / getPayloadSize f) by (apply Nat.div_str_pos; lia). lia.
    + apply pop_out_queues in H as [L _]. by rewrite E0 in L.
Qed.

Lemma dequeue_data_weight q buff size b buff' size' q' :
  dequeue_data junk stack q buff size = Val (b, buff', size', q') -> b = true -> queue_weight q' < queue_weight q.
Proof.
  unfold dequeue_data. intros H ->. apply bind_val in H as ([[b p] q1] & Hd & H). destruct b; [|done].
  apply bind_val in H as (? & _ & H). injection H as _ _ <-. by eapply dequeue_weight.
Qed.

(** *** No function of the queue runs out of steps *)

Lemma parse_ends p d n : ends (parse p d n).
Proof. unfold parse. walk. Qed.
Lemma assign_ends p q : ends (assign p q).
Proof. unfold assign. apply ends_bind; [apply parse_ends|]. walk. Qed.
Lemma getPayload_ends p buf : ends (getPayload p buf).
Proof. unfold getPayload. walk. Qed.
Lemma setPayload_ends p buf i n : ends (setPayload p buf i n).
Proof. unfold setPayload. walk. Qed.
Lemma target_ends q : ends (getTargetSize q).
Proof. unfold getTargetSize. walk. Qed.
#[local] Hint Resolve parse_ends assign_ends getPayload_ends setPayload_ends target_ends : ends.
Lemma copy_ends p : ends (copy_packet junk p).
Proof. unfold copy_packet. walk. Qed.
Lemma rate_ends q : ends (getTargetClockRate q).
Proof. unfold getTargetClockRate. walk. Qed.
#[local] Hint Resolve copy_ends rate_ends : ends.
Lemma push_ends q p : ends (push_in junk q p) /\ ends (push_out junk q p).
Proof. unfold push_in, push_out. split; walk. Qed.
Lemma push_out_ends q p : ends (push_out junk q p).
Proof. apply push_ends. Qed.
Lemma sent_ends q old p : ends (sent q old p).
Proof. unfold sent. walk. Qed.
#[local] Hint Resolve push_out_ends sent_ends : ends.
Lemma pop_out_ends q old : ends (pop_out q old).
Proof. unfold pop_out. walk. Qed.
Lemma split_ends n p buff offset target rate q : ends (split_loop junk n p buff offset target rate q).
Proof. revert offset q. induction n as [|n IH]; intros offset q; cbn [split_loop]; walk. Qed.
Lemma join_ends n ps resized offset ts : ends (join_loop stack n ps resized offset ts).
Proof. revert ps resized offset ts. induction n as [|n IH]; intros ps resized offset ts; cbn [join_loop]; walk. Qed.
#[local] Hint Resolve pop_out_ends split_ends join_ends : ends.
Lemma dequeue_ends q old : ends (dequeue junk stack q old).
Proof. unfold dequeue. cbn zeta. walk. Qed.
#[local] Hint Resolve dequeue_ends : ends.
Lemma dequeue_data_ends q buff size : ends (dequeue_data junk stack q buff size).
Proof. unfold dequeue_data. walk. Qed.

Lemma put_xor_ends p o i j k : ends (put_xor p o i j k).
Proof. unfold put_xor. walk. Qed.
#[local] Hint Resolve put_xor_ends dequeue_data_ends : ends.
Lemma xor_loop_ends cfg fuel p size i : size - i < fuel -> ends (xor_loop cfg fuel p size i).
Proof.
  revert p i. induction fuel as [|fuel IH]; intros p i H; [lia|]. cbn [xor_loop].
  destruct (Nat.ltb_spec i size); walk. apply IH. lia.
Qed.
Lemma rtpEncrypt_ends cfg enc p size : ends (rtpEncrypt cfg enc p size).
Proof. unfold rtpEncrypt, external_handler. walk. apply xor_loop_ends. lia. Qed.
#[local] Hint Resolve rtpEncrypt_ends : ends.

(** The loop that empties a queue. *)
Lemma drain_ends cfg enc fuel socket recode r buff size :
  queue_weight (rz_queue r) < fuel -> ends (drain junk stack cfg enc fuel socket recode r buff size).
Proof.
  revert r buff size. induction fuel as [|fuel IH]; intros r buff size H; [lia|]. cbn [drain].
  assert (Hr : ends (resizer_dequeue junk stack r buff size)) by (unfold resizer_dequeue; walk).
  apply ends_bind; [exact Hr|]. intros [[[b buff'] size'] r'] E.
  assert (Hw : b = true -> queue_weight (rz_queue r') < fuel).
  { intros ->. unfold resizer_dequeue in E. destruct (resizerThread r); [done|].
    apply bind_val in E as ([[[b ?] ?] q] & Hq & E). injection E as -> -> -> <-.
    apply dequeue_data_weight in Hq; [|done]. destruct (_ && _); cbn; lia. }
  destruct b; [|walk]. specialize (Hw eq_refl). destruct (_ && _); [|by apply IH].
  apply ends_bind; [walk|]. intros [? ?] _. cbn zeta. apply ends_bind; [by apply IH|]. walk.
Qed.

End drain.

(** ** Ports *)

(** A range of ports that leaves room for a control port behind the last one. *)
Record ports_ok (m : ports) : Prop := {
  po_base : (1 <= portBase m)%Z;
  po_room : (portBase m + 2 <= portMax m)%Z;
  po_max : (portMax m <= 65533)%Z;
  po_current : portCurrent m = 0%Z \/ (portBase m <= portCurrent m <= portMax m)%Z
}.

Definition same_range (m m' : ports) : Prop := portBase m' = portBase m /\ portMax m' = portMax m.

Lemma next_port m :
  ports_ok m ->
  exists p m', getNextAvailablePortTuple m = (p, m') /\ (portBase m <= p <= portMax m)%Z /\ ports_ok m' /\
    same_range m m' /\ bindsMade m' = bindsMade m /\ portCurrent m' <> p /\ portCurrent m' <> 0%Z.
Proof.
  intros [H1 H2 H3 H4]. unfold getNextAvailablePortTuple, u16. destruct (Z.eqb_spec (portCurrent m) 0) as [E|E].
  - eexists _, _. split; [done|]. rewrite Z.mod_small by lia. cbn. split; [lia|]. split; [|split_and!; done || lia].
    constructor; cbn; lia.
  - destruct H4 as [H4|H4]; [done|]. eexists _, _. split; [done|]. rewrite Z.mod_small by lia. split; [done|].
    destruct (Z.ltb_spec (portMax m) (portCurrent m + 2)) as [Hw|Hw].
    + split; [constructor; cbn; lia|]. split_and!; try done; cbn; lia.
    + split; [constructor; cbn; lia|]. split_and!; try done; cbn; lia.
Qed.

(** Two in a row are different. *)
Lemma next_ports m :
  ports_ok m ->
  exists p1 p2 m1 m', getNextAvailablePortTuple m = (p1, m1) /\ getNextAvailablePortTuple m1 = (p2, m') /\
    (portBase m <= p1 <= portMax m)%Z /\ (portBase m <= p2 <= portMax m)%Z /\ p1 <> p2 /\ ports_ok m' /\ same_range m m'.
Proof.
  intros H. destruct (next_port m H) as (p1 & m1 & E1 & R1 & O1 & [B1 M1] & _ & N1 & Z1).
  destruct (next_port m1 O1) as (p2 & m2 & E2 & R2 & O2 & [B2 M2] & _ & _ & _).
  exists p1, p2, m1, m2. split_and!; try done; try lia.
  - unfold getNextAvailablePortTuple in E2. rewrite (proj2 (Z.eqb_neq _ _) Z1) in E2. injection E2 as <- _. congruence.
  - split; congruence.
Qed.

Section open.
Context (binds : nat -> endpoint -> bool).

(** A proxy whose sockets are bound and which is not yet started. *)
Record listens (p : RTPProxy) (l1 l2 : IPAddress) : Prop := {
  li_socket1 : leg1Socket p = true;
  li_socket2 : leg2Socket p = true;
  li_local1 : localEndPointLeg1 p = (ip l1, port l1);
  li_local2 : localEndPointLeg2 p = (ip l2, port l2);
  li_external1 : localEndPointLeg1External p = externalAddress l1;
  li_external2 : localEndPointLeg2External p = externalAddress l2;
  li_started : isStarted p = false
}.

Lemma open_listens n p l1 l2 n' p' :
  open binds n p l1 l2 = (true, n', p') ->
  listens p' l1 l2 /\ binds n (ip l1, port l1) = true /\ binds (n + 1) (ip l2, port l2) = true /\ n' = n + 2.
Proof.
  unfold open. cbn zeta. cbn [localEndPointLeg1 localEndPointLeg2].
  change (localEndPointLeg1 (_ <| localEndPointLeg1External := _ |>)) with (ip l1, port l1).
  destruct (binds n _) eqn:E1; [|done].
  change (localEndPointLeg2 (_ <| localEndPointLeg2External := _ |>)) with (ip l2, port l2).
  destruct (binds (n + 1) _) eqn:E2; [|done]. intros [= <- <-]. split; [by constructor|done].
Qed.

Lemma open_succeeds n p l1 l2 :
  binds n (ip l1, port l1) = true -> binds (n + 1) (ip l2, port l2) = true ->
  exists p', open binds n p l1 l2 = (true, n + 2, p').
Proof.
  intros E1 E2. unfold open. cbn zeta.
  change (localEndPointLeg1 (_ <| localEndPointLeg1External := _ |>)) with (ip l1, port l1). rewrite E1.
  change (localEndPointLeg2 (_ <| localEndPointLeg2External := _ |>)) with (ip l2, port l2). rewrite E2. by eexists.
Qed.

(** What the loop of [open] gives when it succeeds: ports of the range, different for the
    two legs, with the control ports behind them. *)
Lemma open_loop_listens retry m t d1 d2 c1 c2 m' t' :
  ports_ok m -> open_loop binds retry m t d1 d2 c1 c2 = (true, m', t') ->
  exists p1 p2, (portBase m <= p1 <= portMax m)%Z /\ (portBase m <= p2 <= portMax m)%Z /\ p1 <> p2 /\
    listens (data t') (setPort d1 p1) (setPort d2 p2) /\ listens (control t') (setPort c1 (p1 + 1)) (setPort c2 (p2 + 1)) /\
    ports_ok m' /\ same_range m m'.
Proof.
  revert m t d1 d2 c1 c2. induction retry as [|retry IH]; intros m t d1 d2 c1 c2 Hm H; [done|]. cbn [open_loop] in H.
  destruct (next_ports m Hm) as (p1 & p2 & m1 & m2 & E1 & E2 & R1 & R2 & Hn & O2 & [B2 M2]). rewrite E1, E2 in H.
  pose proof (po_max _ Hm). pose proof (po_base _ Hm).
  assert (U1 : u16 (p1 + 1) = (p1 + 1)%Z) by (unfold u16; apply Z.mod_small; lia).
  assert (U2 : u16 (p2 + 1) = (p2 + 1)%Z) by (unfold u16; apply Z.mod_small; lia). rewrite U1, U2 in H.
  cbn zeta in H. destruct (open binds (bindsMade m2) (data t) _ _) as [[b n] d] eqn:Ed.
  destruct (if b then _ else _) as [[b' n'] c] eqn:Ec. destruct b'.
  - injection H as <- <-. destruct b; [|done]. apply open_listens in Ed as (Ld & _). apply open_listens in Ec as (Lc & _).
    exists p1, p2. split_and!; try done; try lia. destruct O2. by constructor.
  - assert (O2' : ports_ok (m2 <| bindsMade := n' |>)) by (destruct O2; by constructor).
    apply (IH _ _ _ _ _ _ O2') in H as (q1 & q2 & Q1 & Q2 & Hq & Ld & Lc & O & [B M]). cbn in Q1, Q2, B, M.
    exists q1, q2. split_and!; first [done|lia|split; cbn; congruence].
Qed.

Lemma open_loop_ports retry m t d1 d2 c1 c2 b m' t' :
  ports_ok m -> open_loop binds retry m t d1 d2 c1 c2 = (b, m', t') -> ports_ok m' /\ same_range m m'.
Proof.
  revert m t d1 d2 c1 c2. induction retry as [|retry IH]; intros m t d1 d2 c1 c2 Hm H; cbn [open_loop] in H; [by injection H as <- <- <-|].
  destruct (next_ports m Hm) as (p1 & p2 & m1 & m2 & E1 & E2 & _ & _ & _ & O2 & [B2 M2]). rewrite E1, E2 in H.
  cbn zeta in H. destruct (open binds (bindsMade m2) (data t) _ _) as [[b1 n] d]. destruct (if b1 then _ else _) as [[b2 n'] c].
  assert (O2' : ports_ok (m2 <| bindsMade := n' |>)) by (destruct O2; by constructor). destruct b2.
  - injection H as <- <- <-. split; [done|]. by split.
  - apply (IH _ _ _ _ _ _ O2') in H as [O [B M]]. split; [done|]. cbn in B, M. split; congruence.
Qed.

(** A first attempt at which every port is free is the last. *)
Lemma tuple_open_succeeds m t d1 d2 c1 c2 :
  ports_ok m -> (forall n e, binds n e = true) -> exists m' t', tuple_open binds m t d1 d2 c1 c2 = (true, m', t').
Proof.
  intros Hm Hb. unfold tuple_open. pose proof (po_room _ Hm).
  destruct (Z.to_nat _) as [|retry] eqn:Er.
  { assert (1 <= Z.quot (portMax m - portBase m) 2)%Z; [|lia]. apply Z.quot_le_lower_bound; lia. }
  cbn [open_loop]. destruct (next_ports m Hm) as (p1 & p2 & m1 & m2 & E1 & E2 & _). rewrite E1, E2. cbn zeta.
  destruct (open_succeeds (bindsMade m2) (data t) (setPort d1 p1) (setPort d2 p2)) as [d ->]; [done|done|].
  destruct (open_succeeds (bindsMade m2 + 2) (control t) (setPort c1 (u16 (p1 + 1))) (setPort c2 (u16 (p2 + 1)))) as [c ->]; [done|done|].
  by eexists _, _.
Qed.

End open.
