(* ===== verification/RtpRelay.v ===== *)
(** * What the relay does to datagrams

    The relay against a reference: two destinations, of which the first follows the
    source of every datagram of its leg and the second is the source of the first one;
    the bytes, recoded when exactly one of the legs is enciphered; and a datagram of less
    than two bytes, after which a leg hears nothing. *)

From S2P Require Import Prelude CMem RtpPacket CoreStrings SdpText IpAddress SipXor RtpProxy RtpProxyFacts.
Open Scope nat_scope.

Section relay.
Context (junk stack : str) (cfg : xor_sip_config).
Context (Hjunk : length junk = 64 + RTP_PACKET_BUFFER_SIZE) (Hpad : pad_rtp cfg = false).

(** A datagram in the array of a leg. *)
Definition in_array (buff : str) (size : nat) : Prop :=
  length buff = RTP_PACKET_BUFFER_SIZE /\ 2 <= size <= RTP_PACKET_BUFFER_SIZE.

Lemma validate_run buff size : in_array buff size -> exists v, validateBuffer junk buff size = Val v.
Proof.
  intros [Hb [H0 H1]]. unfold validateBuffer, packet_of, parse.
  assert (Hn : length (packet (new_packet junk)) = sizeof_Packet).
  { unfold new_packet. cbn [packet]. rewrite length_app, length_replicate, Hjunk. done. }
  destruct (_ <? _); [by eexists|]. rewrite rdn_in by lia. rewrite val_bind, wrn_in; [by eexists|].
  rewrite length_take, drop_0, Hb, Hn. unfold sizeof_Packet. lia.
Qed.

Lemma reach_in buff size : in_array buff size -> reach size <= length buff.
Proof. intros [-> [H0 H1]]. unfold reach. destruct (Nat.eqb_spec size 1); lia. Qed.

Lemma encrypt_run buff size :
  in_array buff size -> xor_enabled cfg = true -> rtpEncrypt cfg None buff size = Val (cipher cfg size 0 buff, size).
Proof.
  intros H E. unfold rtpEncrypt. rewrite E. cbn [negb]. rewrite xor_loop_spec; [done|done|lia|by apply reach_in|lia|lia].
Qed.
Lemma decrypt_run buff size :
  in_array buff size -> xor_enabled cfg = true -> rtpDecrypt cfg None None buff size = Val (cipher cfg size 0 buff, size).
Proof. intros H E. unfold rtpDecrypt. rewrite E, Hpad. cbn [negb]. by apply encrypt_run. Qed.
Lemma in_array_cipher buff size : in_array buff size -> in_array (cipher cfg size 0 buff) size.
Proof. intros [Hb H]. split; [by rewrite length_cipher|done]. Qed.

(** The bytes that are sent for those that came: recoded when one leg is enciphered and the other is not. *)
Definition recoded (fromXOR toXOR disabled : bool) (buff : str) (size : nat) : str :=
  take size (if xor_enabled cfg && negb disabled && xorb fromXOR toXOR then cipher cfg size 0 buff else buff).

Lemma relay_frame_run fromXOR toXOR disabled r buff size :
  in_array buff size ->
  relay_frame junk cfg None None fromXOR toXOR disabled false r buff size = Val ([recoded fromXOR toXOR disabled buff size], r).
Proof.
  intros H. unfold relay_frame, recoded, pass, outgoing. destruct (xor_enabled cfg) eqn:E; cbn [negb andb]; [|done].
  destruct disabled; cbn [negb andb]; [by rewrite !andb_false_r|]. rewrite !andb_true_r.
  destruct fromXOR, toXOR; cbn [xorb andb negb].
  - rewrite decrypt_run, val_bind, encrypt_run, val_bind by (done || by apply in_array_cipher). by rewrite cipher_twice.
  - by rewrite decrypt_run, val_bind.
  - by rewrite encrypt_run, val_bind.
  - done.
Qed.

(** ** One datagram *)

(** Both sockets open, nothing resized. *)
Record relaying (p : RTPProxy) : Prop := {
  re_socket1 : leg1Socket p = true;
  re_socket2 : leg2Socket p = true;
  re_resizer1 : isEnabled (leg1Resizer p) = false;
  re_resizer2 : isEnabled (leg2Resizer p) = false
}.

Lemma resizer_idle p : relaying p -> processResizerQueue junk stack cfg None p = Val ([], p).
Proof. intros [_ _ E1 E2]. unfold processResizerQueue. destruct (type p); [|done]. by rewrite E1, E2. Qed.

Definition sends (leg : nat) (to : endpoint) (s : str) : list datagram := if (to.2 =? 0)%Z then [] else [mkDatagram leg to s].

Lemma leg1_run p now buff size :
  relaying p -> in_array buff size ->
  exists v p', handleLeg1FrameRead junk stack cfg None None p now buff size = Val
      (sends 2 (senderEndPointLeg2 p) (recoded (xor_enabled cfg && negb v) (isLeg2XOREncrypted p) (isXORDisabled p) buff size), p') /\
    validateBuffer junk buff size = Val v /\ relaying p' /\
    senderEndPointLeg1 p' = senderEndPointLeg1 p /\ senderEndPointLeg2 p' = senderEndPointLeg2 p /\
    leg1Receive p' = (if leg1Reset p then IntoLast else IntoSender) /\ leg2Receive p' = leg2Receive p /\
    leg1Reset p' = false /\ leg2Reset p' = leg2Reset p /\
    isLeg1XOREncrypted p' = xor_enabled cfg && negb v /\ isLeg2XOREncrypted p' = isLeg2XOREncrypted p /\
    isXORDisabled p' = isXORDisabled p.
Proof.
  intros H Hb. destruct (validate_run buff size Hb) as [v Ev]. exists v. unfold handleLeg1FrameRead. cbn zeta.
  rewrite (proj2 (Nat.ltb_ge _ _)) by apply Hb. rewrite Ev, val_bind.
  set (p1 := p <| timeStamp := _ |> <| isInactiveFlag := _ |> <| isLeg1XOREncrypted := _ |>).
  assert (H1 : relaying p1) by by destruct H.
  rewrite (re_resizer2 _ H1), (re_socket2 _ H1). cbn [andb].
  set (s := recoded _ _ _ _ _).
  assert (E : (if negb ((senderEndPointLeg2 p1).2 =? 0)%Z then
     '(out, r) ← relay_frame junk cfg None None (isLeg1XOREncrypted p1) (isLeg2XOREncrypted p1) (isXORDisabled p1) false (leg2Resizer p1) buff size;
     Val (map (mkDatagram 2 (senderEndPointLeg2 p1)) out, p1 <| leg2Resizer := r |>)
     else Val ([], p1)) = Val (sends 2 (senderEndPointLeg2 p) s, p1)).
  { unfold sends. change (senderEndPointLeg2 p1) with (senderEndPointLeg2 p). destruct (_ =? 0)%Z; cbn [negb]; [done|].
    rewrite relay_frame_run, val_bind by done. cbn [map]. done. }
  rewrite E, val_bind, (re_socket1 _ H1). clear E. change (leg1Reset p1) with (leg1Reset p).
  destruct (leg1Reset p) eqn:Er; rewrite resizer_idle, val_bind, app_nil_r by by destruct H1.
  - eexists. split; [done|]. split; [done|]. split; [by destruct H1|]. done.
  - eexists. split; [done|]. split; [done|]. split; [by destruct H1|]. split_and!; try done.
Qed.

Lemma leg2_run p now buff size :
  relaying p -> in_array buff size ->
  exists v p', handleLeg2FrameRead junk stack cfg None None p now buff size = Val
      (sends 1 (senderEndPointLeg1 p) (recoded (xor_enabled cfg && negb v) (isLeg1XOREncrypted p) (isXORDisabled p) buff size), p') /\
    validateBuffer junk buff size = Val v /\ relaying p' /\
    senderEndPointLeg1 p' = senderEndPointLeg1 p /\ senderEndPointLeg2 p' = senderEndPointLeg2 p /\
    leg2Receive p' = (if leg2Reset p then IntoSender else IntoLast) /\ leg1Receive p' = leg1Receive p /\
    leg2Reset p' = false /\ leg1Reset p' = leg1Reset p /\
    isLeg2XOREncrypted p' = xor_enabled cfg && negb v /\ isLeg1XOREncrypted p' = isLeg1XOREncrypted p /\
    isXORDisabled p' = isXORDisabled p.
Proof.
  intros H Hb. destruct (validate_run buff size Hb) as [v Ev]. exists v. unfold handleLeg2FrameRead. cbn zeta.
  rewrite (proj2 (Nat.ltb_ge _ _)) by apply Hb. rewrite Ev, val_bind.
  set (p1 := p <| timeStamp := _ |> <| isInactiveFlag := _ |> <| isLeg2XOREncrypted := _ |>).
  assert (H1 : relaying p1) by by destruct H.
  rewrite (re_resizer1 _ H1), (re_socket1 _ H1). cbn [andb].
  set (s := recoded _ _ _ _ _).
  assert (E : (if negb ((senderEndPointLeg1 p1).2 =? 0)%Z then
     '(out, r) ← relay_frame junk cfg None None (isLeg2XOREncrypted p1) (isLeg1XOREncrypted p1) (isXORDisabled p1) false (leg1Resizer p1) buff size;
     Val (map (mkDatagram 1 (senderEndPointLeg1 p1)) out, p1 <| leg1Resizer := r |>)
     else Val ([], p1)) = Val (sends 1 (senderEndPointLeg1 p) s, p1)).
  { unfold sends. change (senderEndPointLeg1 p1) with (senderEndPointLeg1 p). destruct (_ =? 0)%Z; cbn [negb]; [done|].
    rewrite relay_frame_run, val_bind by done. cbn [map]. done. }
  rewrite E, val_bind, (re_socket2 _ H1). clear E. change (leg2Reset p1) with (leg2Reset p).
  destruct (leg2Reset p) eqn:Er; rewrite resizer_idle, val_bind, app_nil_r by by destruct H1.
  - eexists. split; [done|]. split; [done|]. split; [by destruct H1|]. done.
  - eexists. split; [done|]. split; [done|]. split; [by destruct H1|]. split_and!; try done.
Qed.

(** ** The reference *)

(** Whether a datagram is an RTP packet as it is. *)
Definition is_rtp (buff : str) (size : nat) : bool := match validateBuffer junk buff size with Val v => v | _ => false end.

(** [d1] and [d2] are where the legs send to, [x1] and [x2] say whether they are enciphered. *)
Fixpoint relay_ref (disabled : bool) (d1 d2 : endpoint) (x1 x2 latched : bool) (es : list event) : list datagram :=
  match es with
  | Arrives 1 src buff size _ :: es =>
      let x1 := xor_enabled cfg && negb (is_rtp buff size) in
      sends 2 d2 (recoded x1 x2 disabled buff size) ++ relay_ref disabled src d2 x1 x2 latched es
  | Arrives 2 src buff size _ :: es =>
      let x2 := xor_enabled cfg && negb (is_rtp buff size) in
      let d2 := if latched then d2 else src in
      sends 1 d1 (recoded x2 x1 disabled buff size) ++ relay_ref disabled d1 d2 x1 x2 true es
  | _ => []
  end.

(** Datagrams that arrive at one of the legs. *)
Definition arrival (e : event) : Prop :=
  match e with
  | Arrives leg _ buff size _ => (leg = 1 \/ leg = 2) /\ in_array buff size
  | _ => False
  end.

Lemma is_rtp_val buff size v : validateBuffer junk buff size = Val v -> is_rtp buff size = v.
Proof. unfold is_rtp. by intros ->. Qed.

Lemma relay_run es p (latched : bool) :
  relaying p -> Forall arrival es -> leg1Reset p = false -> leg2Reset p = false ->
  leg1Receive p = IntoSender -> leg2Receive p = (if latched then IntoLast else IntoSender) ->
  exists p', proxy_run junk stack cfg None None p es = Val
    (relay_ref (isXORDisabled p) (senderEndPointLeg1 p) (senderEndPointLeg2 p) (isLeg1XOREncrypted p) (isLeg2XOREncrypted p) latched es, p').
Proof.
  intros H He. revert p latched H. induction He as [|e es Ha He IH]; intros p latched H R1 R2 V1 V2; [by exists p|].
  destruct e as [leg src buff size now| | | |]; [|done..]. destruct Ha as [[-> | ->] Hb]; cbn [proxy_run proxy_step relay_ref].
  - rewrite V1. set (p0 := p <| leg1Receive := Idle |> <| senderEndPointLeg1 := src |>).
    destruct (leg1_run p0 now buff size) as (v & p1 & E & Ev & H1 & S1 & S2 & L1 & L2 & Q1 & Q2 & X1 & X2 & XD); [by destruct H|done|].
    rewrite E, val_bind, (is_rtp_val _ _ _ Ev). change (leg1Reset p0) with (leg1Reset p) in L1. rewrite R1 in L1.
    destruct (IH p1 latched H1 Q1) as [p2 E2]; [by rewrite Q2|done|by rewrite L2|]. rewrite E2, val_bind.
    exists p2. cbn zeta. rewrite S1, S2, X1, X2, XD. done.
  - set (p0 := if latched then p <| leg2Receive := Idle |> <| lastSenderEndPointLeg2 := src |> else p <| leg2Receive := Idle |> <| senderEndPointLeg2 := src |>).
    assert (E0 : (match leg2Receive p with
      | Idle => Val ([], p)
      | IntoSender => handleLeg2FrameRead junk stack cfg None None (p <| leg2Receive := Idle |> <| senderEndPointLeg2 := src |>) now buff size
      | IntoLast => handleLeg2FrameRead junk stack cfg None None (p <| leg2Receive := Idle |> <| lastSenderEndPointLeg2 := src |>) now buff size
      end) = handleLeg2FrameRead junk stack cfg None None p0 now buff size) by (rewrite V2; by destruct latched).
    rewrite E0. clear E0.
    destruct (leg2_run p0 now buff size) as (v & p1 & E & Ev & H1 & S1 & S2 & L2 & L1 & Q2 & Q1 & X2 & X1 & XD);
      [by destruct latched, H|done|].
    rewrite E, val_bind, (is_rtp_val _ _ _ Ev).
    assert (P : leg2Reset p0 = leg2Reset p /\ leg1Reset p0 = leg1Reset p /\ leg1Receive p0 = leg1Receive p /\
      senderEndPointLeg1 p0 = senderEndPointLeg1 p /\ senderEndPointLeg2 p0 = (if latched then senderEndPointLeg2 p else src) /\
      isLeg1XOREncrypted p0 = isLeg1XOREncrypted p /\ isXORDisabled p0 = isXORDisabled p) by by destruct latched.
    destruct P as (P1 & P2 & P3 & P4 & P5 & P6 & P7). rewrite P1, R2 in L2.
    destruct (IH p1 true H1) as [p2 E2]; [by rewrite Q1, P2|done|by rewrite L1, P3|done|]. rewrite E2, val_bind.
    exists p2. cbn zeta. rewrite S1, S2, X1, X2, XD, P4, P5, P6, P7. done.
Qed.

(** ** Short datagrams *)

Lemma short_run leg p src buff size now es :
  leg = 1 \/ leg = 2 -> size < 2 -> Forall (fun e => match e with Arrives l _ _ _ _ => l = leg | _ => False end) es ->
  exists p', proxy_run junk stack cfg None None p (Arrives leg src buff size now :: es) = Val ([], p').
Proof.
  intros Hl Hs He.
  assert (Hd : forall p, (if leg =? 1 then leg1Receive p else leg2Receive p) = Idle -> proxy_run junk stack cfg None None p es = Val ([], p)).
  { clear -Hl He. intros p Hp. induction He as [|e es Ha He IH]; [done|]. destruct e as [l s b n t| | | |]; [|done..]. subst l.
    cbn [proxy_run proxy_step]. destruct Hl as [-> | ->]; cbn [Nat.eqb] in Hp; rewrite Hp, val_bind, IH; done. }
  cbn [proxy_run proxy_step]. destruct Hl as [-> | ->].
  - destruct (leg1Receive p) eqn:E; unfold handleLeg1FrameRead; rewrite ?(proj2 (Nat.ltb_lt _ _) Hs); cbn zeta;
      rewrite val_bind, Hd by done; by eexists.
  - destruct (leg2Receive p) eqn:E; unfold handleLeg2FrameRead; rewrite ?(proj2 (Nat.ltb_lt _ _) Hs); cbn zeta;
      rewrite val_bind, Hd by done; by eexists.
Qed.

End relay.
