(* ===== verification/RtpSession.v ===== *)
(** * Media sessions

    [RTPProxySession] of src/rtp/RTPProxySession.cpp: the state of an offer and its
    answer, the proxies of its three media, and the session descriptions that are
    rewritten to lead through them.  A handler works on the session, the ports of the
    manager, the text of the description and the attributes, all of which it may have
    changed when it throws an exception.

    What is written to files or a database is in RtpRecord.v.  The
    constructor of a session description is given one step more than its text is long. *)

From S2P Require Import Prelude CMem CoreStrings SdpText SdpHeaders SdpMedia SdpSession IpAddress SipXor RtpPacket RtpProxy.
Open Scope nat_scope.

Inductive RequestType :=
| INVITE
| INVITE_RESPONSE
| INVITE_ACK
| UPDATE
| UPDATE_RESPONSE
| PRACK
| PRACK_RESPONSE.
#[export] Instance request_type_eq : EqDecision RequestType.
Proof. solve_decision. Defined.

Inductive State :=
| IDLE
| INVITE_WAITING_ANSWER_RESPONSE
| INVITE_WAITING_ANSWER_ACK_OR_PRACK
| OFFER_WAITING_AUTHENTICATION
| ANSWER_REQUIRED_AUTHENTICATION
| UPDATE_WAITING_ANSWER
| PRACK_WAITING_ANSWER
| NEGOTIATED
| STATE_INVALID.
#[export] Instance state_eq : EqDecision State.
Proof. solve_decision. Defined.

(** [state_transition]. *)
Definition state_transition (currentState : State) (requestType : RequestType) : State :=
  match currentState, requestType with
  | IDLE, INVITE => INVITE_WAITING_ANSWER_RESPONSE
  | IDLE, INVITE_RESPONSE => INVITE_WAITING_ANSWER_ACK_OR_PRACK
  | NEGOTIATED, INVITE => INVITE_WAITING_ANSWER_RESPONSE
  | NEGOTIATED, INVITE_RESPONSE => INVITE_WAITING_ANSWER_ACK_OR_PRACK
  | NEGOTIATED, UPDATE => UPDATE_WAITING_ANSWER
  | NEGOTIATED, PRACK => PRACK_WAITING_ANSWER
  | INVITE_WAITING_ANSWER_RESPONSE, INVITE_RESPONSE => NEGOTIATED
  | INVITE_WAITING_ANSWER_ACK_OR_PRACK, INVITE_ACK => NEGOTIATED
  | INVITE_WAITING_ANSWER_ACK_OR_PRACK, PRACK => NEGOTIATED
  | UPDATE_WAITING_ANSWER, UPDATE_RESPONSE => NEGOTIATED
  | PRACK_WAITING_ANSWER, PRACK_RESPONSE => NEGOTIATED
  | _, _ => STATE_INVALID
  end.

(** [RTPProxy::Attributes]. *)
Record Attributes := mkAttributes {
  verbose : bool;
  forceCreate : bool;
  forcePEAEncryption : bool;
  allowHairPin : bool;
  at_callId : str;
  at_from : str;
  at_to : str;
  at_resizerSamplesLeg1 : Z;
  at_resizerSamplesLeg2 : Z;
  countSessions : bool
}.
#[export] Instance eta_attributes : Settable Attributes := fun a =>
  mkAttributes (verbose a) (forceCreate a) (forcePEAEncryption a) (allowHairPin a) (at_callId a) (at_from a) (at_to a)
    (at_resizerSamplesLeg1 a) (at_resizerSamplesLeg2 a) (countSessions a).
Definition default_attributes : Attributes := mkAttributes false false false false [] [] [] 0 0 false.

(** ** The session *)

Inductive kind := Audio | Video | Fax.
#[export] Instance kind_eq : EqDecision kind.
Proof. solve_decision. Defined.
Definition media_type (k : kind) : MediaType := match k with Audio => TYPE_AUDIO | Video => TYPE_VIDEO | Fax => TYPE_FAX end.

(** One value for each of the members [_audio], [_video] and [_fax] and the flags named after them. *)
Record three (A : Type) := mkThree { of_audio : A; of_video : A; of_fax : A }.
Arguments mkThree {A}.
Arguments of_audio {A}.
Arguments of_video {A}.
Arguments of_fax {A}.
Definition at_kind {A} (t : three A) (k : kind) : A := match k with Audio => of_audio t | Video => of_video t | Fax => of_fax t end.
Definition put_kind {A} (k : kind) (a : A) (t : three A) : three A :=
  match k with
  | Audio => mkThree a (of_video t) (of_fax t)
  | Video => mkThree (of_audio t) a (of_fax t)
  | Fax => mkThree (of_audio t) (of_video t) a
  end.
Definition any_kind (t : three bool) : bool := of_audio t || of_video t || of_fax t.

Record RTPProxySession := mkRTPProxySession {
  state : State;
  proxies : three RTPProxyTuple;
  hasOffered : three bool;
  isNegotiated : three bool;
  leg1Identifier : str;
  leg2Identifier : str;
  leg1OriginAddress : str;
  leg2OriginAddress : str;
  isExpectingInitialAnswer : bool;
  lastOfferIndex : nat;
  lastSDPInAck : str;
  lastOffer : str;
  lastAnswer : str;
  resizerSamplesLeg1 : Z;
  resizerSamplesLeg2 : Z;
  authTimer : bool;
  isAuthTimeout : bool;
  s_callId : str;
  s_from : str;
  s_to : str;
  monitoredRoute : str;
  s_identifier : str;
  logId : str;
  s_verbose : bool
}.
#[export] Instance eta_rtp_session : Settable RTPProxySession := fun s =>
  mkRTPProxySession (state s) (proxies s) (hasOffered s) (isNegotiated s) (leg1Identifier s) (leg2Identifier s)
    (leg1OriginAddress s) (leg2OriginAddress s) (isExpectingInitialAnswer s) (lastOfferIndex s) (lastSDPInAck s)
    (lastOffer s) (lastAnswer s) (resizerSamplesLeg1 s) (resizerSamplesLeg2 s) (authTimer s) (isAuthTimeout s)
    (s_callId s) (s_from s) (s_to s) (monitoredRoute s) (s_identifier s) (logId s) (s_verbose s).

Definition new_rtp_session (id : str) (now : Z) : RTPProxySession :=
  mkRTPProxySession IDLE
    (mkThree (new_tuple (id ++ #"-audio") false now) (new_tuple (id ++ #"-video") false now) (new_tuple (id ++ #"-fax") true now))
    (mkThree false false false) (mkThree false false false) [] [] [] [] false 0 [] [] [] 0 0 false false [] [] [] [] id [] false.

Definition proxy (s : RTPProxySession) (k : kind) : RTPProxyTuple := at_kind (proxies s) k.
Definition put_proxy (k : kind) (t : RTPProxyTuple) (s : RTPProxySession) : RTPProxySession := s <| proxies := put_kind k t (proxies s) |>.
Definition put_offered (k : kind) (b : bool) (s : RTPProxySession) : RTPProxySession := s <| hasOffered := put_kind k b (hasOffered s) |>.
Definition put_negotiated (k : kind) (b : bool) (s : RTPProxySession) : RTPProxySession :=
  s <| isNegotiated := put_kind k b (isNegotiated s) |>.

Definition session_stop (s : RTPProxySession) : RTPProxySession :=
  s <| proxies := mkThree (tuple_stop (proxy s Audio)) (tuple_stop (proxy s Video)) (tuple_stop (proxy s Fax)) |>.
Definition on_data (f : RTPProxy -> RTPProxy) (t : RTPProxyTuple) : RTPProxyTuple := t <| data := f (data t) |>.
Definition session_setInactive (s : RTPProxySession) : RTPProxySession :=
  s <| proxies := mkThree (on_data setInactive (proxy s Audio)) (on_data setInactive (proxy s Video)) (on_data setInactive (proxy s Fax)) |>.
Definition isVoiceInactive (s : RTPProxySession) (now readTimeout : Z) : bool := isInactive (data (proxy s Audio)) now readTimeout.
Definition setResizerSamples_session (s : RTPProxySession) (leg1 leg2 : Z) : RTPProxySession :=
  let s := s <| resizerSamplesLeg1 := leg1 |> <| resizerSamplesLeg2 := leg2 |> in
  put_proxy Audio (tuple_setResizerSamples (proxy s Audio) leg1 leg2) s.
Definition setState (s : RTPProxySession) (st : State) : RTPProxySession :=
  s <| authTimer := bool_decide (st = OFFER_WAITING_AUTHENTICATION) |> <| state := st |>.
Definition handleAuthStateTimeout (s : RTPProxySession) : RTPProxySession := s <| authTimer := false |> <| isAuthTimeout := true |>.

(** ** Handlers *)

(** [w_saved] is the session as it was when [dumpStateFile] was last called. *)
Record world := mkWorld {
  w_ports : ports;
  w_session : RTPProxySession;
  w_sdp : str;
  w_attr : Attributes;
  w_saved : option RTPProxySession
}.
#[export] Instance eta_world : Settable world := fun w => mkWorld (w_ports w) (w_session w) (w_sdp w) (w_attr w) (w_saved w).

Inductive exn :=
| SDPException (what : str)
| RTPProxyException (what : str).

(** A handler: the world it leaves, and its result or an exception. *)
Definition act (A : Type) : Type := world -> cres (world * (exn + A)).
#[export] Instance act_ret : MRet act := fun A a w => Val (w, inr a).
#[export] Instance act_bind : MBind act := fun A B f m w =>
  '(w, r) ← m w;
  match r with
  | inl e => Val (w, inl e)
  | inr a => f a w
  end.
Definition throw {A} (e : exn) : act A := fun w => Val (w, inl e).
Definition lift {A} (m : cres A) : act A := fun w => a ← m; Val (w, inr a).
Definition gets {A} (f : world -> A) : act A := fun w => Val (w, inr (f w)).
Definition modify (f : world -> world) : act unit := fun w => Val (f w, inr tt).
Definition modify_session (f : RTPProxySession -> RTPProxySession) : act unit := modify (fun w => w <| w_session := f (w_session w) |>).
(** An object whose destructor copies the description to a member, when the scope is left in any way. *)
Definition with_logger {A} (f : str -> RTPProxySession -> RTPProxySession) (m : act A) : act A := fun w =>
  '(w, r) ← m w;
  Val (w <| w_session := f (w_sdp w) (w_session w) |>, r).

(** What the caller says about a request. *)
Record call := mkCall {
  packetSourceIP : IPAddress;
  packetLocalInterface : IPAddress;
  routeLocalInterface : IPAddress;
  requestType : RequestType
}.

Section session.
Context {boost : BoostString} {text : BoostText} {asio : AsioAddress}.
Context (binds : nat -> endpoint -> bool) (enableHairpins : bool) (c : call).

(** *** The parts the handlers share *)

(** The description being rewritten: its media objects, the session and whether the address of the session was changed. *)
Record draft := mkDraft { d_store : store; d_session : SDPSession; d_changed : bool }.
Definition parse_sdp (sdp : str) : cres draft :=
  '(st, s) ← new_session (S (length sdp)) [] (cstr sdp); Val (mkDraft st s false).

(** The tokens of the origin line: the session id and the address. *)
Definition origin (s : SDPSession) : act (str * str) :=
  match findHeader s "o" with
  | [] => throw (SDPException #"Unable to parse session-id from SDP offer.")
  | (_ :: _) as oLine =>
      match string_tokenize oLine #" " with
      | [_; sessionId; _; _; _; addr] =>
          match sessionId, addr with
          | _ :: _, _ :: _ => mret (sessionId, addr)
          | _, _ => throw (SDPException #"Unable to parse session-id from SDP offer.")
          end
      | _ => throw (SDPException #"Unable to parse session-id from SDP offer.")
      end
  end.

(** The address that is shown for an interface. *)
Definition shown (a : IPAddress) : str := match externalAddress a with [] => ip_toString a | ext => ext end.

(** "rewrite the SDP to be presented to" the other leg. *)
Definition present (d : draft) (p : nat) (hasSessionAddress isBlackhole hasMediaLevelAddress : bool)
    (dataAddress controlAddress : IPAddress) : cres draft :=
  m ← load (d_store d) p;
  let '(s, changed, m) :=
    if hasSessionAddress then
      let '(s, changed) :=
        if negb (d_changed d) && negb isBlackhole then (changeAddress (d_session d) (shown dataAddress) #"IP4", true)
        else (d_session d, d_changed d) in
      (s, changed, if hasMediaLevelAddress then setAddressV4 m (shown dataAddress) else m)
    else (d_session d, d_changed d, setAddressV4 m (shown dataAddress)) in
  m ← (if negb isBlackhole then
         m ← setDataPort m (port dataAddress);
         if negb (port controlAddress =? port dataAddress + 1)%Z then setControlPort m (port controlAddress) else Val m
       else Val m);
  Val (mkDraft (<[p := m]> (d_store d)) s changed).

(** The address of a description, whether it has one of its own, and the two ports; [None] when neither the
    description nor the session has an address. *)
Definition media_address (d : draft) (p : nat) (sessionAddress : str) : cres (draft * bool * option IPAddress) :=
  m ← load (d_store d) p;
  let '(addr, m) := getAddress m in
  let hasMediaLevelAddress := match addr with [] => false | _ :: _ => true end in
  let a :=
    if hasMediaLevelAddress then Some (assign_string default_ip addr)
    else match sessionAddress with [] => None | _ :: _ => Some (assign_string default_ip sessionAddress) end in
  Val (mkDraft (<[p := m]> (d_store d)) (d_session d) (d_changed d), hasMediaLevelAddress, a).
Definition media_ports (d : draft) (p : nat) : cres (draft * Z * Z) :=
  m ← load (d_store d) p;
  let '(dataPort, m) := getDataPort m in
  let '(controlPort, m) := getControlPort m in
  Val (mkDraft (<[p := m]> (d_store d)) (d_session d) (d_changed d), dataPort, controlPort).
Definition get_media (d : draft) (k : kind) : cres (draft * option nat) :=
  '(st, r) ← getMedia (d_store d) (d_session d) (media_type k) 0;
  Val (mkDraft st (d_session d) (d_changed d), r).

(** The flags of the session address. *)
Definition blackhole (sessionAddress : str) : bool := bool_decide (sessionAddress = #"0.0.0.0").
Definition nonempty (s : str) : bool := match s with [] => false | _ :: _ => true end.

(** Changes to the two proxies of a tuple. *)
Definition set_leg1 (d ctl : endpoint) (t : RTPProxyTuple) : RTPProxyTuple :=
  mkRTPProxyTuple ((data t) <| senderEndPointLeg1 := d |>) ((control t) <| senderEndPointLeg1 := ctl |>).
Definition set_leg2 (d ctl : endpoint) (t : RTPProxyTuple) : RTPProxyTuple :=
  mkRTPProxyTuple ((data t) <| senderEndPointLeg2 := d |>) ((control t) <| senderEndPointLeg2 := ctl |>).
Definition set_xor1 (b : bool) (t : RTPProxyTuple) : RTPProxyTuple :=
  mkRTPProxyTuple ((data t) <| isLeg1XOREncrypted := b |>) ((control t) <| isLeg1XOREncrypted := b |>).
Definition set_xor2 (b : bool) (t : RTPProxyTuple) : RTPProxyTuple :=
  mkRTPProxyTuple ((data t) <| isLeg2XOREncrypted := b |>) ((control t) <| isLeg2XOREncrypted := b |>).
Definition reset1 (t : RTPProxyTuple) : RTPProxyTuple := mkRTPProxyTuple (resetLeg1 (data t)) (resetLeg1 (control t)).
Definition reset2 (t : RTPProxyTuple) : RTPProxyTuple := mkRTPProxyTuple (resetLeg2 (data t)) (resetLeg2 (control t)).
Definition put_tuple (k : kind) (t : RTPProxyTuple) : act unit := modify_session (put_proxy k t).

(** *** The first offer *)

Definition createProxy (forceCreateProxy : bool) (allow : bool) (mediaAddress : IPAddress) : bool :=
  if negb enableHairpins && compare mediaAddress (routeLocalInterface c) false then allow
  else if negb forceCreateProxy && ip_isValid mediaAddress && isPrivate mediaAddress && ip_neqb mediaAddress (packetSourceIP c) then true
  else forceCreateProxy.

Definition initial_offer_media (k : kind) (forceCreateProxy : bool) (sessionAddress : str) (d : draft) : act draft :=
  '(d, r) ← lift (get_media d k);
  match r with
  | None => mret d
  | Some p =>
      '(d, hasMediaLevelAddress, a) ← lift (media_address d p sessionAddress);
      match a with
      | None => throw (SDPException #"Unable to parse media address from SDP offer.")
      | Some mediaAddress =>
          w ← gets id;
          if createProxy forceCreateProxy (allowHairPin (w_attr w)) mediaAddress then
            let '(opened, ports, t) := tuple_open binds (w_ports w) (proxy (w_session w) k) (packetLocalInterface c)
              (routeLocalInterface c) (packetLocalInterface c) (routeLocalInterface c) in
            _ ← modify (fun w => w <| w_ports := ports |>);
            _ ← put_tuple k t;
            if (opened : bool) then
              '(d, dataPort, controlPort) ← lift (media_ports d p);
              let a := if negb (isPrivate mediaAddress) then ip mediaAddress else ip (packetSourceIP c) in
              let t := set_leg1 (a, dataPort) (a, controlPort) (set_xor1 (forcePEAEncryption (w_attr w)) t) in
              _ ← put_tuple k t;
              d ← lift (present d p (nonempty sessionAddress) (blackhole sessionAddress) hasMediaLevelAddress
                (getLeg2Address (data t)) (getLeg2Address (control t)));
              _ ← modify_session (put_offered k true);
              mret d
            else mret d
          else mret d
      end
  end.

(** The three copies of it in the handler. *)
Definition initial_offer_audio := initial_offer_media Audio.
Definition initial_offer_video := initial_offer_media Video.
Definition initial_offer_fax := initial_offer_media Fax.

(** [sdp = offer.toString()] if a proxy was offered. *)
Definition publish (d : draft) : act bool :=
  w ← gets id;
  if any_kind (hasOffered (w_session w)) then
    s ← lift (session_toString (d_store d) (d_session d));
    _ ← modify (fun w => w <| w_sdp := s |>);
    mret true
  else mret false.

(** [dumpStateFile], which does not change the session. *)
Definition dumpStateFile : act unit := modify (fun w => w <| w_saved := Some (w_session w) |>).

(** What is known of an earlier exchange is forgotten; the origin of a leg is noted. *)
Definition forget_offer (s : RTPProxySession) : RTPProxySession :=
  s <| hasOffered := mkThree false false false |> <| leg1Identifier := [] |> <| leg2Identifier := [] |>
    <| leg1OriginAddress := [] |> <| leg2OriginAddress := [] |> <| lastOfferIndex := 0 |> <| isExpectingInitialAnswer := true |>.
Definition note_leg1 (sessionId addr : str) (s : RTPProxySession) : RTPProxySession :=
  s <| leg1Identifier := sessionId |> <| leg1OriginAddress := addr |>.
Definition note_leg2 (sessionId addr : str) (s : RTPProxySession) : RTPProxySession :=
  s <| leg2Identifier := sessionId |> <| leg2OriginAddress := addr |>.

Definition handleInitialSDPOffer : act unit :=
  _ ← modify_session forget_offer;
  w ← gets id;
  let forceCreateProxy := forceCreate (w_attr w) || forcePEAEncryption (w_attr w) in
  d ← lift (parse_sdp (w_sdp w));
  let sessionAddress := session_getAddress (d_session d) in
  '(sessionId, addr) ← origin (d_session d);
  _ ← modify_session (note_leg1 sessionId addr);
  d ← initial_offer_audio forceCreateProxy sessionAddress d;
  d ← initial_offer_video forceCreateProxy sessionAddress d;
  d ← initial_offer_fax forceCreateProxy sessionAddress d;
  _ ← publish d;
  mret tt.

(** *** The answer to it *)

Definition initial_answer_media (k : kind) (sessionAddress : str) (d : draft) : act draft :=
  w ← gets id;
  if at_kind (hasOffered (w_session w)) k then
    '(d, r) ← lift (get_media d k);
    match r with
    | None =>
        _ ← modify_session (fun s => put_negotiated k false (put_proxy k (tuple_stop (proxy s k)) s));
        mret d
    | Some p =>
        '(d, hasMediaLevelAddress, a) ← lift (media_address d p sessionAddress);
        let mediaAddress := default default_ip a in
        '(d, dataPort, controlPort) ← lift (media_ports d p);
        let t := set_xor2 (forcePEAEncryption (w_attr w))
          (set_leg2 (ip mediaAddress, dataPort) (ip mediaAddress, controlPort) (proxy (w_session w) k)) in
        let '(started, t) := tuple_start t in
        _ ← modify_session (fun s => put_negotiated k true (put_proxy k t s));
        if (started : bool) then
          lift (present d p (nonempty sessionAddress) (blackhole sessionAddress) hasMediaLevelAddress
            (getLeg1Address (data t)) (getLeg1Address (control t)))
        else throw (RTPProxyException #"Socket is NULL while calling RTPProxy::start")
    end
  else mret d.

Definition initial_answer_audio := initial_answer_media Audio.
Definition initial_answer_video := initial_answer_media Video.
Definition initial_answer_fax := initial_answer_media Fax.

Definition handleInitialSDPAnswer : act unit :=
  w ← gets id;
  if negb (isExpectingInitialAnswer (w_session w)) then lift Abort
  else
    _ ← modify_session (fun s => s <| isExpectingInitialAnswer := false |>);
    d ← lift (parse_sdp (w_sdp w));
    let sessionAddress := session_getAddress (d_session d) in
    '(sessionId, addr) ← origin (d_session d);
    _ ← modify_session (note_leg2 sessionId addr);
    d ← initial_answer_audio sessionAddress d;
    d ← initial_answer_video sessionAddress d;
    d ← initial_answer_fax sessionAddress d;
    published ← publish d;
    if (published : bool) then dumpStateFile else modify_session session_setInactive.

(** *** A further offer *)

(** Where a leg's media goes and what is shown to the other one. *)
Definition turn_leg (legIndex : nat) (a : ip_address) (dataPort controlPort : Z) (t : RTPProxyTuple)
    : RTPProxyTuple * IPAddress * IPAddress :=
  if legIndex =? 1 then
    let t := reset1 (set_leg1 (a, dataPort) (a, controlPort) t) in
    (t, getLeg2Address (data t), getLeg2Address (control t))
  else
    let t := reset2 (set_leg2 (a, dataPort) (a, controlPort) t) in
    (t, getLeg1Address (data t), getLeg1Address (control t)).

Definition offer_media (k : kind) (legIndex : nat) (sessionAddress : str) (r : option nat) (d : draft) : act draft :=
  w ← gets id;
  match r with
  | None =>
      if at_kind (isNegotiated (w_session w)) k then
        _ ← modify_session (fun s => put_negotiated k false (put_offered k false (put_proxy k (tuple_stop (proxy s k)) s)));
        mret d
      else mret d
  | Some p =>
      if at_kind (isNegotiated (w_session w)) k then
        '(d, hasMediaLevelAddress, a) ← lift (media_address d p sessionAddress);
        match a with
        | None => throw (SDPException #"Unable to parse media address from SDP offer.")
        | Some mediaAddress =>
            d ← (if ip_isValid mediaAddress then
                   '(d, dataPort, controlPort) ← lift (media_ports d p);
                   let '(t, dataAddress, controlAddress) :=
                     turn_leg legIndex (ip mediaAddress) dataPort controlPort (proxy (w_session w) k) in
                   _ ← put_tuple k t;
                   lift (present d p (nonempty sessionAddress) (blackhole sessionAddress) hasMediaLevelAddress dataAddress controlAddress)
                 else mret d);
            _ ← modify_session (put_offered k true);
            mret d
        end
      else mret d
  end.

Definition offer_audio := offer_media Audio.
Definition offer_video := offer_media Video.
Definition offer_fax := offer_media Fax.

(** The leg an offer comes from; [None] for a new session. *)
Definition offer_leg (s : RTPProxySession) (sessionId addr : str) : exn + option nat :=
  if nonempty (leg1Identifier s) && bool_decide (leg1Identifier s = leg2Identifier s) then
    if bool_decide (leg1OriginAddress s = leg2OriginAddress s) then inl (SDPException #"Unable to determine session from origin")
    else if bool_decide (leg1OriginAddress s = addr) then inr (Some 1)
    else if bool_decide (leg2OriginAddress s = addr) then inr (Some 2)
    else inr None
  else if nonempty (leg1Identifier s) && bool_decide (leg1Identifier s = sessionId) then inr (Some 1)
  else if nonempty (leg2Identifier s) && bool_decide (leg2Identifier s = sessionId) then inr (Some 2)
  else inr None.

Definition fresh_offer : act unit := _ ← modify_session session_stop; handleInitialSDPOffer.

Definition is_some {A} (o : option A) : bool := match o with Some _ => true | None => false end.
(** A medium of the offer that has no proxy yet. *)
Definition unproxied (s : RTPProxySession) (k : kind) (r : option nat) : bool := is_some r && negb (at_kind (isNegotiated s) k).

Definition handleSDPOffer : act unit :=
  w ← gets id;
  d ← lift (parse_sdp (w_sdp w));
  let sessionAddress := session_getAddress (d_session d) in
  _ ← modify_session (fun s => s <| lastOffer := [] |> <| lastAnswer := [] |>);
  with_logger (fun sdp s => s <| lastOffer := sdp |>)
    ('(sessionId, addr) ← origin (d_session d);
     w ← gets id;
     match offer_leg (w_session w) sessionId addr with
     | inl e => throw e
     | inr None => fresh_offer
     | inr (Some legIndex) =>
         _ ← modify_session (fun s => s <| lastOfferIndex := legIndex |>);
         '(d, audio) ← lift (get_media d Audio);
         '(d, video) ← lift (get_media d Video);
         '(d, fax) ← lift (get_media d Fax);
         if unproxied (w_session w) Audio audio || unproxied (w_session w) Video video || unproxied (w_session w) Fax fax then fresh_offer
         else
           d ← offer_audio legIndex sessionAddress audio d;
           d ← offer_video legIndex sessionAddress video d;
           d ← offer_fax legIndex sessionAddress fax d;
           _ ← publish d;
           mret tt
     end).

(** *** A further answer *)

Definition answer_media (k : kind) (legIndex : nat) (sessionAddress : str) (d : draft) : act draft :=
  w ← gets id;
  if at_kind (hasOffered (w_session w)) k then
    '(d, r) ← lift (get_media d k);
    match r with
    | None =>
        _ ← modify_session (fun s => put_negotiated k false (put_proxy k (tuple_stop (proxy s k)) s));
        mret d
    | Some p =>
        '(d, hasMediaLevelAddress, a) ← lift (media_address d p sessionAddress);
        let mediaAddress := default default_ip a in
        '(d, dataPort, controlPort) ← lift (media_ports d p);
        let '(t, dataAddress, controlAddress) :=
          turn_leg legIndex (ip mediaAddress) dataPort controlPort (proxy (w_session w) k) in
        _ ← modify_session (fun s => put_negotiated k true (put_proxy k t s));
        lift (present d p (nonempty sessionAddress) (blackhole sessionAddress) hasMediaLevelAddress dataAddress controlAddress)
    end
  else mret d.

Definition answer_audio := answer_media Audio.
Definition answer_video := answer_media Video.
Definition answer_fax := answer_media Fax.

(** The leg an answer comes from, with what is noted about it. *)
Definition answer_leg (s : RTPProxySession) (sessionId addr : str) : exn + (nat * RTPProxySession) :=
  let found :=
    if bool_decide (leg1Identifier s = leg2Identifier s) then
      if bool_decide (leg1OriginAddress s = leg2OriginAddress s) then inl (SDPException #"Unable to determine session from origin")
      else if bool_decide (leg1OriginAddress s = addr) then inr 1
      else if bool_decide (leg2OriginAddress s = addr) then inr 2
      else inr 0
    else if bool_decide (leg1Identifier s = sessionId) then inr 1
    else if bool_decide (leg2Identifier s = sessionId) then inr 2
    else inr 0 in
  match found with
  | inl e => inl e
  | inr ((S _) as legIndex) => inr (legIndex, s)
  | inr O =>
      match lastOfferIndex s with
      | O => inl (SDPException #"Illegal session-id change")
      | 1 => inr (2, note_leg2 sessionId addr s)
      | _ => inr (1, note_leg1 sessionId addr s)
      end
  end.

Definition handleSDPAnswer : act unit :=
  w ← gets id;
  d ← lift (parse_sdp (w_sdp w));
  let sessionAddress := session_getAddress (d_session d) in
  with_logger (fun sdp s => s <| lastAnswer := sdp |>)
    ('(sessionId, addr) ← origin (d_session d);
     w ← gets id;
     match answer_leg (w_session w) sessionId addr with
     | inl e => throw e
     | inr (legIndex, s) =>
         _ ← modify_session (fun _ => s <| lastOfferIndex := 0 |>);
         d ← answer_audio legIndex sessionAddress d;
         d ← answer_video legIndex sessionAddress d;
         d ← answer_fax legIndex sessionAddress d;
         published ← publish d;
         if (published : bool) then dumpStateFile else mret tt
     end).

(** *** The states *)

(** An answer, the first or a further one. *)
Definition handleAnyAnswer : act unit :=
  w ← gets id;
  _ ← (if isExpectingInitialAnswer (w_session w) then handleInitialSDPAnswer else handleSDPAnswer);
  modify_session (fun s => s <| isExpectingInitialAnswer := false |>).
Definition handleStateOfferWaitingAuthentication : act unit := handleSDPOffer.
Definition handleStateAnswerRequiredAuthentication : act unit :=
  if decide (requestType c = INVITE_RESPONSE) then handleAnyAnswer else mret tt.
Definition handleStateInviteWaitingAnswerResponse : act unit :=
  if decide (requestType c = INVITE_RESPONSE) then handleAnyAnswer else mret tt.
Definition handleStateInviteWaitingAnswerAckOrPrack : act unit := handleAnyAnswer.
Definition handleStateUpdateWaitingAnswer : act unit :=
  _ ← handleSDPAnswer; modify_session (fun s => s <| isExpectingInitialAnswer := false |>).
Definition handleStatePrackWaitingAnswer : act unit :=
  _ ← handleSDPAnswer; modify_session (fun s => s <| isExpectingInitialAnswer := false |>).
Definition handleStateNegotiated : act unit :=
  _ ← modify (fun w => w <| w_attr := (w_attr w) <| forceCreate := any_kind (hasOffered (w_session w)) |> |>);
  handleSDPOffer.

(** The part of [handleSDP] before the switch: a session that resizes is always proxied, and its
    audio has no packet time. *)
Definition prepare_resizing : act unit :=
  _ ← modify (fun w =>
    let s := w_session w in
    let s := if (resizerSamplesLeg1 s =? 0)%Z && negb (at_resizerSamplesLeg1 (w_attr w) =? 0)%Z
             then s <| resizerSamplesLeg1 := at_resizerSamplesLeg1 (w_attr w) |> else s in
    let s := if (resizerSamplesLeg2 s =? 0)%Z && negb (at_resizerSamplesLeg2 (w_attr w) =? 0)%Z
             then s <| resizerSamplesLeg2 := at_resizerSamplesLeg2 (w_attr w) |> else s in
    w <| w_session := s |>);
  w ← gets id;
  if negb (resizerSamplesLeg1 (w_session w) =? 0)%Z || negb (resizerSamplesLeg2 (w_session w) =? 0)%Z then
    _ ← modify (fun w => w <| w_attr := (w_attr w) <| forceCreate := true |> |>);
    d ← lift (parse_sdp (w_sdp w));
    '(d, audio) ← lift (get_media d Audio);
    match audio with
    | None => mret tt
    | Some p =>
        m ← lift (load (d_store d) p);
        s ← lift (session_toString (<[p := removePtime m]> (d_store d)) (d_session d));
        modify (fun w => w <| w_sdp := s |>)
    end
  else mret tt.

Definition enter (st : State) : act unit := modify_session (fun s => s <| state := st |>).

Definition handleSDP : act unit :=
  _ ← prepare_resizing;
  w ← gets id;
  match state (w_session w), requestType c with
  | IDLE, INVITE => _ ← handleInitialSDPOffer; enter INVITE_WAITING_ANSWER_RESPONSE
  | IDLE, INVITE_RESPONSE => _ ← handleInitialSDPOffer; enter INVITE_WAITING_ANSWER_ACK_OR_PRACK
  | INVITE_WAITING_ANSWER_RESPONSE, INVITE_RESPONSE => _ ← handleStateInviteWaitingAnswerResponse; enter NEGOTIATED
  | INVITE_WAITING_ANSWER_ACK_OR_PRACK, INVITE_ACK =>
      _ ← handleStateInviteWaitingAnswerAckOrPrack;
      _ ← modify (fun w => w <| w_session := (w_session w) <| lastSDPInAck := w_sdp w |> |>);
      enter NEGOTIATED
  | INVITE_WAITING_ANSWER_ACK_OR_PRACK, PRACK => _ ← handleStateInviteWaitingAnswerAckOrPrack; enter NEGOTIATED
  | OFFER_WAITING_AUTHENTICATION, INVITE => _ ← handleStateOfferWaitingAuthentication; enter ANSWER_REQUIRED_AUTHENTICATION
  | ANSWER_REQUIRED_AUTHENTICATION, INVITE_RESPONSE => _ ← handleStateAnswerRequiredAuthentication; enter NEGOTIATED
  | UPDATE_WAITING_ANSWER, UPDATE_RESPONSE => _ ← handleStateUpdateWaitingAnswer; enter NEGOTIATED
  | PRACK_WAITING_ANSWER, PRACK_RESPONSE => _ ← handleStatePrackWaitingAnswer; enter NEGOTIATED
  | NEGOTIATED, INVITE => _ ← handleStateNegotiated; enter INVITE_WAITING_ANSWER_RESPONSE
  | NEGOTIATED, INVITE_RESPONSE =>
      _ ← handleStateNegotiated;
      modify_session (fun s => s <| state := INVITE_WAITING_ANSWER_ACK_OR_PRACK |> <| lastSDPInAck := [] |>)
  | NEGOTIATED, PRACK => _ ← handleStateNegotiated; enter PRACK_WAITING_ANSWER
  | NEGOTIATED, INVITE_ACK =>
      modify (fun w => match lastSDPInAck (w_session w) with [] => w | (_ :: _) as sdp => w <| w_sdp := sdp |> end)
  | _, _ => mret tt
  end.

End session.
