(* ===== verification/RtpSessionFacts.v ===== *)
(** * Facts about media sessions

    A logic for the handlers of [RTPProxySession], what they keep of the session, and
    that they return, with a result or an exception, whatever the description says. *)

From S2P Require Import Prelude Abnf AbnfFacts AbnfSearch CoreStrings CMem SdpText SdpHeaders SdpMedia SdpSession SdpMediaFacts SdpCoherence SdpOps SdpSessionFacts SdpStore IpAddress SipXor RtpPacket RtpProxy RtpProxyFacts RtpSession.
Open Scope nat_scope.

(** ** Running handlers *)

Lemma run_lift {A B} (m : cres A) a (f : A -> act B) w : m = Val a -> (lift m ≫= f) w = f a w.
Proof. by intros ->. Qed.
Lemma run_gets {A B} (g : world -> A) (f : A -> act B) w : (gets g ≫= f) w = f (g w) w.
Proof. done. Qed.
Lemma run_modify {B} g (f : unit -> act B) w : (modify g ≫= f) w = f tt (g w).
Proof. done. Qed.
Lemma run_bind {A B} (m : act A) (f : A -> act B) w w' r :
  m w = Val (w', r) -> (m ≫= f) w = match r with inl e => Val (w', inl e) | inr a => f a w' end.
Proof. intros E. unfold mbind at 1, act_bind. by rewrite E, val_bind. Qed.

(** ** Interfaces and proxies *)

(** An address and a port that can be shown in a description. *)
Definition presentable (a : ip_address) (p : Z) (ext : str) : Prop :=
  (exists n, a = V4 n /\ v4_range n) /\ (1 <= p < 2 ^ 16)%Z /\ (ext = [] \/ word ext).
Record placed (p : RTPProxy) : Prop := {
  pl_leg1 : presentable (localEndPointLeg1 p).1 (localEndPointLeg1 p).2 (localEndPointLeg1External p);
  pl_leg2 : presentable (localEndPointLeg2 p).1 (localEndPointLeg2 p).2 (localEndPointLeg2External p)
}.
Definition placed_tuple (t : RTPProxyTuple) : Prop := placed (data t) /\ placed (control t).
(** An interface of the server. *)
Definition interface (a : IPAddress) : Prop :=
  (exists n, ip a = V4 n /\ v4_range n) /\ (externalAddress a = [] \/ word (externalAddress a)).

Abbreviation ptrs d := (mediaDescriptions (d_session d)).

Section facts.
Context {boost : BoostString} {text : BoostText} {asio : AsioAddress}.
Context (binds : nat -> endpoint -> bool) (enableHairpins : bool) (c : call).
Context (Hlocal : interface (packetLocalInterface c)) (Hroute : interface (routeLocalInterface c)).

Lemma dotted_word n : word (dotted n).
Proof. split; [apply dotted_nonempty|by apply dotted_free]. Qed.

(** What is shown of a proxy's leg. *)
Definition shown_text (a : ip_address) (ext : str) : str := match ext with [] => to_string a | _ :: _ => ext end.
Lemma shown_text_word a p ext : presentable a p ext -> word (shown_text a ext).
Proof.
  intros ((n & -> & Hn) & _ & He). unfold shown_text. destruct ext; [rewrite to_string_v4 by done; apply dotted_word|].
  by destruct He as [He|He].
Qed.
Lemma shown_leg1 p : placed p -> shown (getLeg1Address p) = shown_text (localEndPointLeg1 p).1 (localEndPointLeg1External p).
Proof.
  intros [((n & E & Hn) & _) _]. unfold shown, shown_text, getLeg1Address. cbn [externalAddress].
  change (externalAddress (_ <| externalAddress := ?x |>)) with x.
  destruct (localEndPointLeg1External p); [|done]. unfold ip_toString. cbn [ip]. rewrite E, to_string_v4 by done.
  change (ip _) with (read_ip (dotted n)). unfold read_ip. rewrite from_dotted by done. cbn. by rewrite to_string_v4.
Qed.
Lemma shown_leg2 p : placed p -> shown (getLeg2Address p) = shown_text (localEndPointLeg2 p).1 (localEndPointLeg2External p).
Proof.
  intros [_ ((n & E & Hn) & _)]. unfold shown, shown_text, getLeg2Address.
  change (externalAddress (_ <| externalAddress := ?x |>)) with x.
  destruct (localEndPointLeg2External p); [|done]. unfold ip_toString. rewrite E, to_string_v4 by done.
  change (ip _) with (read_ip (dotted n)). unfold read_ip. rewrite from_dotted by done. cbn. by rewrite to_string_v4.
Qed.

Lemma stop_placed p : placed p -> placed (stop p).
Proof. intros []. by constructor. Qed.

(** Opening leaves a placed proxy placed, and places it when it succeeds. *)
Lemma open_placed n p l1 l2 b n' p' :
  interface l1 -> interface l2 -> (1 <= port l1 < 2 ^ 16)%Z -> (1 <= port l2 < 2 ^ 16)%Z ->
  open binds n p l1 l2 = (b, n', p') -> b = true \/ placed p -> placed p'.
Proof.
  intros [I1 X1] [I2 X2] P1 P2. unfold open. cbn zeta.
  change (localEndPointLeg1 (_ <| localEndPointLeg1External := _ |>)) with (ip l1, port l1).
  change (localEndPointLeg2 (_ <| localEndPointLeg2External := _ |>)) with (ip l2, port l2).
  destruct (binds n _); [destruct (binds (n + 1) _)|]; intros [= <- <- <-]; intros [|[H1 H2]]; try done; by constructor.
Qed.

Lemma set_port_interface l p : interface l -> interface (setPort l p).
Proof. done. Qed.

Lemma open_loop_placed retry m t d1 d2 c1 c2 b m' t' :
  ports_ok m -> interface d1 -> interface d2 -> interface c1 -> interface c2 ->
  open_loop binds retry m t d1 d2 c1 c2 = (b, m', t') -> b = true \/ placed_tuple t -> placed_tuple t'.
Proof.
  revert m t d1 d2 c1 c2. induction retry as [|retry IH]; intros m t d1 d2 c1 c2 Hm I1 I2 I3 I4 H Hb; cbn [open_loop] in H.
  { injection H as <- <- <-. by destruct Hb. }
  destruct (next_ports m Hm) as (p1 & p2 & m1 & m2 & E1 & E2 & R1 & R2 & _ & O2 & _). rewrite E1, E2 in H.
  pose proof (po_max _ Hm). pose proof (po_base _ Hm). cbn zeta in H.
  assert (U : forall p, (portBase m <= p <= portMax m)%Z -> u16 (p + 1) = (p + 1)%Z) by (intros; unfold u16; apply Z.mod_small; lia).
  rewrite !U in H by done. destruct (open binds (bindsMade m2) (data t) _ _) as [[b1 n] d] eqn:Ed.
  destruct (if b1 then _ else _) as [[b2 n'] ctl] eqn:Ec.
  assert (Pd : b1 = true \/ placed (data t) -> placed d) by (eapply open_placed; [..|exact Ed]; done || (cbn; lia)).
  assert (Pc : b2 = true \/ placed (control t) -> placed ctl).
  { destruct b1; [eapply open_placed; [..|exact Ec]; done || (cbn; lia)|]. injection Ec as <- _ <-. by intros [|]. }
  destruct b2.
  - injection H as <- <- <-. split; [|by apply Pc; left]. apply Pd. left. by destruct b1.
  - eapply IH; [..|exact H|]; try done; [destruct O2; by constructor|]. destruct Hb as [->|[Hd Hc]]; [by left|right].
    split; apply stop_placed; auto.
Qed.

(** A proxy that was not told to forget its peers and that does not resize. *)
Record calm (p : RTPProxy) : Prop := {
  ca_reset1 : leg1Reset p = false;
  ca_reset2 : leg2Reset p = false;
  ca_resizer1 : isEnabled (leg1Resizer p) = false;
  ca_resizer2 : isEnabled (leg2Resizer p) = false
}.
Definition calm_tuple (t : RTPProxyTuple) : Prop := calm (data t) /\ calm (control t).
Lemma stop_calm p : calm p -> calm (stop p).
Proof. intros []. by constructor. Qed.
Lemma open_calm n p l1 l2 b n' p' : open binds n p l1 l2 = (b, n', p') -> calm p -> calm p'.
Proof. unfold open. cbn zeta. intros H []. destruct (binds n _); [destruct (binds (n + 1) _)|]; injection H as <- <- <-; by constructor. Qed.
Lemma open_loop_calm retry m t d1 d2 c1 c2 b m' t' :
  open_loop binds retry m t d1 d2 c1 c2 = (b, m', t') -> calm_tuple t -> calm_tuple t'.
Proof.
  revert m t d1 d2 c1 c2. induction retry as [|retry IH]; intros m t d1 d2 c1 c2 H [Hd Hc]; cbn [open_loop] in H; [by injection H as <- <- <-|].
  destruct (getNextAvailablePortTuple m) as [p1 m1]. destruct (getNextAvailablePortTuple m1) as [p2 m2]. cbn zeta in H.
  destruct (open binds (bindsMade m2) (data t) _ _) as [[b1 n] d] eqn:Ed. apply open_calm in Ed; [|done].
  destruct (if b1 then _ else _) as [[b2 n'] ctl] eqn:Ec.
  assert (Cc : calm ctl) by (destruct b1; [by apply open_calm in Ec|by injection Ec as <- _ <-]).
  destruct b2; [by injection H as <- <- <-|]. eapply IH; [exact H|]. split; by apply stop_calm.
Qed.

(** ** Descriptions *)


Definition fine (d : draft) : Prop := Forall tidy (d_store d) /\ Forall (fun p => p < length (d_store d)) (ptrs d).
(** A description whose type is that of a medium. *)
Definition typed (d : draft) (k : kind) (p : nat) : Prop := exists m, d_store d !! p = Some m /\ read_type (hdrs m) = media_type k.

Lemma kind_type k : media_type k <> TYPE_NONE.
Proof. by destruct k. Qed.
Lemma kind_inj k k' : media_type k = media_type k' -> k = k'.
Proof. by destruct k, k'. Qed.

(** Objects that differ at most in the type and the address they have kept. *)
Definition quiet (m m' : SDPMedia) : Prop := hdrs m' = hdrs m /\ dataPort m' = dataPort m /\ controlPort m' = controlPort m.
#[export] Instance quiet_reflexive : Reflexive quiet.
Proof. done. Qed.
Lemma quiet_insert st p m m' : st !! p = Some m -> quiet m m' -> Forall2 quiet st (<[p := m']> st).
Proof.
  intros E H. apply Forall2_same_length_lookup. split; [by rewrite length_insert|]. intros i a b Ea Eb.
  destruct (decide (p = i)) as [<-|Hne].
  - rewrite list_lookup_insert_eq in Eb by by eapply lookup_lt_Some. by simplify_eq.
  - rewrite list_lookup_insert_ne in Eb by done. by simplify_eq.
Qed.
#[export] Instance quiet_transitive : Transitive quiet.
Proof. intros m1 m2 m3 (H1 & H2 & H3) (G1 & G2 & G3). split_and!; congruence. Qed.
Lemma quiet_trans l1 l2 l3 : Forall2 quiet l1 l2 -> Forall2 quiet l2 l3 -> Forall2 quiet l1 l3.
Proof. intros H1 H2. by transitivity l2. Qed.
Lemma getMediaType_quiet m : quiet m (getMediaType m).2.
Proof. unfold getMediaType. by case_decide. Qed.
Lemma getAddress_quiet m : quiet m (getAddress m).2.
Proof. unfold getAddress. by destruct (address m). Qed.

Lemma locate_quiet st type i l st' r : locate st type i l = Val (st', r) -> Forall2 quiet st st'.
Proof.
  revert st i st' r. induction l as [|p l IH]; intros st i st' r H; cbn [locate] in H.
  { by injection H as <- <-. }
  unfold load in H. destruct (st !! p) as [m|] eqn:E; [|done]. rewrite val_bind in H.
  pose proof (getMediaType_quiet m) as Hq. destruct (getMediaType m) as [t m'] eqn:Et. cbn [snd] in Hq.
  pose proof (quiet_insert st p m m' E Hq) as Hi. assert (Hrest : forall i st' r,
    ('(st, r) ← locate (<[p := m']> st) type i l; Val (st, match r with Some (a, q, b) => Some (p :: a, q, b) | None => None end)) = Val (st', r) ->
    Forall2 quiet st st').
  { clear -IH Hi. intros i st' r H. apply bind_val in H as ([s1 r1] & H1 & H). injection H as <- _.
    eapply quiet_trans; [exact Hi|]. by eapply IH. }
  case_decide; [|by eapply Hrest]. destruct i; [|by eapply Hrest]. by injection H as <- <-.
Qed.

Lemma get_media_run d k :
  fine d -> exists st r, get_media d k = Val (mkDraft st (d_session d) (d_changed d), r) /\ Forall tidy st /\
    alike (d_store d) st /\ Forall2 quiet (d_store d) st /\ r = of_type (d_store d) (media_type k) (ptrs d) !! 0.
Proof.
  intros [Ht Hp]. unfold get_media, getMedia.
  destruct (locate_finds (d_store d) (media_type k) 0 (ptrs d) Ht Hp) as (st & r & E & Hs & Ha & Er).
  rewrite E, !val_bind. exists st, (match r with Some (_, p, _) => Some p | None => None end). split; [done|].
  split_and!; try done. by eapply locate_quiet.
Qed.

Lemma of_type_typed d k p :
  of_type (d_store d) (media_type k) (ptrs d) !! 0 = Some p -> typed d k p.
Proof.
  intros E. apply list_elem_of_lookup_2, list_elem_of_In, filter_In in E as [_ Hb]. apply bool_decide_eq_true_1 in Hb.
  unfold type_at in Hb. destruct (d_store d !! p) as [m|] eqn:Em; [by exists m|]. by destruct k.
Qed.

Lemma alike_fine d st : fine d -> Forall tidy st -> alike (d_store d) st -> fine (mkDraft st (d_session d) (d_changed d)).
Proof. intros [_ Hp] Ht Ha. split; [done|]. cbn. by rewrite (alike_length _ _ Ha). Qed.
Lemma alike_typed d st k p : alike (d_store d) st -> typed d k p -> typed (mkDraft st (d_session d) (d_changed d)) k p.
Proof. intros Ha (m & E & Ht). destruct (alike_lookup _ _ _ _ Ha E) as (m' & E' & Eh). exists m'. by rewrite Eh. Qed.

Lemma tidy_quiet m m' : tidy m -> hdrs m' = hdrs m -> mediaType m' = mediaType m -> address m' = address m -> tidy m'.
Proof. intros (H1 & H2 & H3) E1 E2 E3. unfold tidy, led_by_m in *. by rewrite E1, E2, E3. Qed.

(** The address of a description or of its session. *)
Definition address_of (hs : list SDPHeader) (sessionAddress : str) : option IPAddress :=
  match read_address hs, sessionAddress with
  | (_ :: _) as a, _ => Some (assign_string default_ip a)
  | [], _ :: _ => Some (assign_string default_ip sessionAddress)
  | [], [] => None
  end.

Lemma media_address_run d p m sessionAddress :
  Forall tidy (d_store d) -> d_store d !! p = Some m ->
  exists m', media_address d p sessionAddress = Val (mkDraft (<[p := m']> (d_store d)) (d_session d) (d_changed d),
      nonempty (read_address (hdrs m)), address_of (hdrs m) sessionAddress) /\ tidy m' /\ quiet m m'.
Proof.
  intros Ht E. unfold media_address, load. rewrite E, val_bind.
  pose proof (getAddress_quiet m) as Hq.
  destruct (getAddress_tidy m) as (m' & Ea & Hm' & Eh); [by eapply Forall_lookup_1|]. rewrite Ea in Hq |- *.
  exists m'. split; [|done]. unfold address_of. by destruct (read_address (hdrs m)), sessionAddress.
Qed.

(** The ports of a description that has kept none. *)
Lemma media_ports_run d p m :
  d_store d !! p = Some m -> tidy m ->
  exists dp cp m', media_ports d p = Val (mkDraft (<[p := m']> (d_store d)) (d_session d) (d_changed d), dp, cp) /\
    tidy m' /\ hdrs m' = hdrs m /\
    (dataPort m = 0%Z -> controlPort m = 0%Z -> dp = read_dataPort (hdrs m) /\ cp = read_control (hdrs m)).
Proof.
  intros E Ht. unfold media_ports, load. rewrite E, val_bind.
  set (m1 := (getDataPort m).2). assert (E1 : getDataPort m = ((getDataPort m).1, m1)) by apply surjective_pairing. rewrite E1.
  set (m2 := (getControlPort m1).2). assert (E2 : getControlPort m1 = ((getControlPort m1).1, m2)) by apply surjective_pairing. rewrite E2.
  assert (Q1 : hdrs m1 = hdrs m /\ mediaType m1 = mediaType m /\ address m1 = address m /\ controlPort m1 = controlPort m).
  { subst m1. unfold getDataPort. by destruct (negb _). }
  assert (Q2 : hdrs m2 = hdrs m1 /\ mediaType m2 = mediaType m1 /\ address m2 = address m1).
  { subst m2. unfold getControlPort. destruct (negb _); [done|]. destruct (getCommonAttribute _ _); [|done]. cbn zeta.
    unfold getDataPort. destruct (dataPort m1 =? 0)%Z; cbn [negb snd]; (destruct (negb _); done). }
  destruct Q1 as (H1 & T1 & A1 & C1). destruct Q2 as (H2 & T2 & A2).
  exists (getDataPort m).1, (getControlPort m1).1, m2. split; [done|]. split; [eapply (tidy_quiet m); congruence|].
  split; [congruence|]. intros D0 C0. unfold getDataPort at 1. rewrite D0. cbn [Z.eqb negb fst]. split; [done|].
  assert (D1 : dataPort m1 = read_dataPort (hdrs m)) by (subst m1; unfold getDataPort; by rewrite D0).
  unfold getControlPort. rewrite C1, C0. cbn [Z.eqb negb]. unfold getCommonAttribute. rewrite H1.
  unfold read_control. change (#"rtcp" ++ #":") with rtcp_key. destruct (read_common rtcp_key (hdrs m)) eqn:Er; [|done]. cbn zeta.
  rewrite D1. destruct (Z.eqb_spec (read_dataPort (hdrs m)) 0) as [E0|E0]; cbn [negb].
  - unfold getDataPort. rewrite D1, E0. cbn [Z.eqb negb snd]. change (dataPort (_ <| dataPort := ?x |>)) with x.
    rewrite H1, E0. cbn [Z.eqb negb fst]. change (controlPort (_ <| dataPort := _ |>)) with (controlPort m1). by rewrite C1, C0.
  - rewrite D1, (proj2 (Z.eqb_neq _ _) E0). cbn [negb fst]. change (controlPort (_ <| controlPort := ?x |>)) with x. done.
Qed.

(** *** What is presented *)

Lemma attribute_not_m key h : hdr_name h = "m"%char -> matches key h = false.
Proof. intros E. unfold matches. by rewrite E. Qed.

Lemma control_tidy m k port :
  tidy m -> read_type (hdrs m) = media_type k -> (1 <= port)%Z ->
  exists m', setControlPort m port = Val m' /\ tidy m' /\ read_type (hdrs m') = read_type (hdrs m) /\
    read_address (hdrs m') = read_address (hdrs m) /\ read_dataPort (hdrs m') = read_dataPort (hdrs m).
Proof.
  intros Ht Hty Hp. destruct (type_led m) as (h & hs & E & Hm); [rewrite Hty; apply kind_type|].
  unfold setControlPort, setCommonAttribute. rewrite (proj2 (Z.eqb_neq _ _)) by lia.
  rewrite bool_decide_eq_false_2 by apply dec_nonempty. rewrite val_bind. eexists. split; [done|].
  set (hs' := put_attribute _ _ (hdrs m)). change (hdrs (_ <| controlPort := _ |>)) with hs'.
  assert (E' : exists rest, hs' = h :: rest /\ find_header "c" rest = find_header "c" hs).
  { subst hs'. rewrite E. unfold put_attribute. cbn [find_split]. rewrite attribute_not_m by done.
    destruct (find_split _ hs) as [[[a x] b]|] eqn:Es.
    - apply find_split_some in Es as (-> & _ & Hx). exists (a ++ x <| hdr_value := #"rtcp" ++ #":" ++ dec port |> :: b).
      split; [by rewrite <- !app_assoc|]. apply andb_prop in Hx as [Hx _]. apply Ascii.eqb_eq in Hx.
      clear -Hx. induction a as [|y a IH]; cbn [app find_header]; [|by rewrite IH].
      change (hdr_name (x <| hdr_value := _ |>)) with (hdr_name x). by rewrite Hx.
    - eexists. split; [by rewrite <- app_comm_cons|]. clear. induction hs as [|y hs IH]; [done|]. cbn [app find_header]. by rewrite IH. }
  destruct E' as (rest & E1 & E2).
  assert (A1 : read_type hs' = read_type (hdrs m)) by by rewrite E, E1.
  assert (A2 : read_address hs' = read_address (hdrs m)).
  { rewrite E, E1. unfold read_address. cbn [find_header]. rewrite Hm. cbn [Ascii.eqb Bool.eqb]. by rewrite E2. }
  split; [|by rewrite A1, A2, E, E1]. destruct Ht as (T1 & T2 & T3). split; [by rewrite <- A1 in T1|].
  split; [by rewrite <- A2 in T2|]. unfold led_by_m. change (hdrs _) with hs'. by rewrite E1.
Qed.

(** A line that has no place for a port. *)
Definition short_line (hs : list SDPHeader) : Prop := exists value, m_line hs = Some value /\ length (string_tokenize value #" ") <= 2.

Lemma port_run m k da ca :
  tidy m -> read_type (hdrs m) = media_type k -> (0 <= port da < 2 ^ 16)%Z -> (1 <= port ca)%Z ->
  exists m', (m ← setDataPort m (port da);
      if negb (port ca =? port da + 1)%Z then setControlPort m (port ca) else Val m) = Val m' /\ tidy m' /\
    read_type (hdrs m') = media_type k /\ read_address (hdrs m') = read_address (hdrs m) /\
    (read_dataPort (hdrs m') = port da \/ short_line (hdrs m)).
Proof.
  intros Ht Hty Hd Hc. destruct (set_port_tidy m (media_type k) (port da) Ht Hty (kind_type k) Hd) as (m1 & -> & T1 & Y1 & A1 & P1).
  rewrite val_bind. destruct (negb _); [|by exists m1; auto].
  destruct (control_tidy m1 k (port ca) T1 Y1 Hc) as (m2 & -> & T2 & Y2 & A2 & P2). exists m2.
  split; [done|]. split; [done|]. split; [congruence|]. split; [congruence|]. by rewrite P2.
Qed.

(** What the description and the session say after they have been rewritten. *)
Definition session_line (d : draft) (hasSession bh : bool) (addr : str) : SDPSession :=
  if hasSession && negb (d_changed d) && negb bh then changeAddress (d_session d) addr #"IP4" else d_session d.
Lemma session_line_ptrs d b bh addr : mediaDescriptions (session_line d b bh addr) = ptrs d.
Proof. unfold session_line. by destruct (b && negb (d_changed d) && negb bh). Qed.

Lemma present_run d p m k hasSession bh hasMedia da ca :
  d_store d !! p = Some m -> tidy m -> read_type (hdrs m) = media_type k -> word (shown da) -> (0 <= port da < 2 ^ 16)%Z -> (1 <= port ca)%Z ->
  exists m', present d p hasSession bh hasMedia da ca = Val (mkDraft (<[p := m']> (d_store d))
      (session_line d hasSession bh (shown da)) (d_changed d || hasSession && negb bh)) /\
    tidy m' /\ read_type (hdrs m') = media_type k /\
    read_address (hdrs m') = (if negb hasSession || hasMedia then shown da else read_address (hdrs m)) /\
    (bh = false -> read_dataPort (hdrs m') = port da \/ short_line (hdrs m)).
Proof.
  intros E Ht Hty Hw Hd Hc. unfold present, load. rewrite E, val_bind.
  set (m1 := if negb hasSession || hasMedia then setAddressV4 m (shown da) else m).
  assert (M1 : tidy m1 /\ read_type (hdrs m1) = media_type k /\ m_line (hdrs m1) = m_line (hdrs m) /\
    read_address (hdrs m1) = (if negb hasSession || hasMedia then shown da else read_address (hdrs m))).
  { subst m1. destruct (negb _ || _); [|done].
    destruct (set_address_tidy m true (shown da) (media_type k)) as (H1 & H2 & H3 & H4); try done. apply kind_type. }
  destruct M1 as (T1 & Y1 & L1 & A1).
  assert (Es : (if hasSession then
      let '(s, changed) := if negb (d_changed d) && negb bh then (changeAddress (d_session d) (shown da) #"IP4", true) else (d_session d, d_changed d) in
      (s, changed, if hasMedia then setAddressV4 m (shown da) else m)
    else (d_session d, d_changed d, setAddressV4 m (shown da))) =
    (session_line d hasSession bh (shown da), d_changed d || hasSession && negb bh, m1)).
  { subst m1. unfold session_line. by destruct hasSession, (d_changed d), bh, hasMedia. }
  rewrite Es. destruct bh; cbn [negb].
  - rewrite val_bind. exists m1. by rewrite Y1.
  - destruct (port_run m1 k da ca T1 Y1 Hd Hc) as (m2 & -> & T2 & Y2 & A2 & P2). rewrite val_bind. exists m2.
    split; [done|]. split; [done|]. split; [done|]. split; [congruence|]. intros _. unfold short_line in *. by rewrite L1 in P2.
Qed.

Lemma toString_run st s : Forall (fun p => p < length st) (mediaDescriptions s) -> exists t, session_toString st s = Val t.
Proof.
  intros H. unfold session_toString. generalize (list_toString (s_list s)). induction H as [|p l Hp H IH]; intros t; [by exists t|].
  destruct (lookup_lt_is_Some_2 st p Hp) as [m E]. unfold load. rewrite E, val_bind. apply IH.
Qed.

(** The draft a description is parsed to. *)
Lemma parse_sdp_run sdp :
  exists d, parse_sdp sdp = Val d /\ fine d /\ Forall (fun m => dataPort m = 0 /\ controlPort m = 0)%Z (d_store d) /\ d_changed d = false.
Proof.
  unfold parse_sdp. assert (Hc : length (cstr sdp) < S (length sdp)) by (unfold cstr; rewrite length_take; lia).
  destruct (new_session_ends (S (length sdp)) [] (cstr sdp) Hc) as (st & E & Hm & _). cbn [app length] in E. rewrite E, val_bind.
  eexists. split; [done|]. split_and!; [split| |done].
  - eapply Forall_impl; [exact Hm|]. intros m [Hl [raw ->]]. split; [by left|]. split; [by left|done].
  - apply List.Forall_forall. intros p Hp. apply in_seq in Hp. cbn in *. lia.
  - eapply Forall_impl; [exact Hm|]. by intros m [_ [raw ->]].
Qed.

(** ** The invariant of a session *)

Definition used (s : RTPProxySession) (k : kind) : Prop := at_kind (hasOffered s) k = true \/ at_kind (isNegotiated s) k = true.
(** The proxies that were offered or negotiated have addresses to show; and what no handler touches. *)
Record keeps (s0 : RTPProxySession) (w : world) : Prop := {
  ke_ports : ports_ok (w_ports w);
  ke_state : state (w_session w) = state s0;
  ke_route : monitoredRoute (w_session w) = monitoredRoute s0;
  ke_placed : forall k, used (w_session w) k -> placed_tuple (proxy (w_session w) k)
}.

Lemma at_put {A} k k' (a : A) t : at_kind (put_kind k a t) k' = if decide (k = k') then a else at_kind t k'.
Proof. by destruct k, k'. Qed.
Lemma at_put_eq {A} k (a : A) t : at_kind (put_kind k a t) k = a.
Proof. by destruct k. Qed.
Lemma put_kind_twice {A} k (a b : A) t : put_kind k a (put_kind k b t) = put_kind k a t.
Proof. by destruct k. Qed.

(** The proxy of a medium is replaced by one that is placed, or that is not in use. *)
Lemma keeps_put s0 w k t :
  keeps s0 w -> (used (w_session w) k -> placed_tuple t) -> keeps s0 (w <| w_session := put_proxy k t (w_session w) |>).
Proof.
  intros [H1 H2 H3 H4] Ht. constructor; try done. intros k' Hk'. unfold proxy. cbn. rewrite at_put. case_decide as E; [subst; auto|]. by apply H4.
Qed.
Lemma keeps_offered s0 w k b :
  keeps s0 w -> placed_tuple (proxy (w_session w) k) -> keeps s0 (w <| w_session := put_offered k b (w_session w) |>).
Proof.
  intros [H1 H2 H3 H4] Ht. constructor; try done. intros k' Hk'. destruct (decide (k = k')) as [<-|Hn]; [done|]. apply H4.
  unfold used in *. cbn in Hk'. by rewrite at_put, decide_False in Hk'.
Qed.
Lemma keeps_negotiated s0 w k b :
  keeps s0 w -> placed_tuple (proxy (w_session w) k) -> keeps s0 (w <| w_session := put_negotiated k b (w_session w) |>).
Proof.
  intros [H1 H2 H3 H4] Ht. constructor; try done. intros k' Hk'. destruct (decide (k = k')) as [<-|Hn]; [done|]. apply H4.
  unfold used in *. cbn in Hk'. by rewrite at_put, decide_False in Hk'.
Qed.
Lemma keeps_ports s0 w m : keeps s0 w -> ports_ok m -> keeps s0 (w <| w_ports := m |>).
Proof. intros [] ?. by constructor. Qed.

(** Changes to a tuple that leave it where it is. *)
Lemma placed_set_leg1 d ctl t : placed_tuple t -> placed_tuple (set_leg1 d ctl t).
Proof. intros [[] []]. by split; constructor. Qed.
Lemma placed_set_leg2 d ctl t : placed_tuple t -> placed_tuple (set_leg2 d ctl t).
Proof. intros [[] []]. by split; constructor. Qed.
Lemma placed_set_xor1 b t : placed_tuple t -> placed_tuple (set_xor1 b t).
Proof. intros [[] []]. by split; constructor. Qed.
Lemma placed_set_xor2 b t : placed_tuple t -> placed_tuple (set_xor2 b t).
Proof. intros [[] []]. by split; constructor. Qed.
Lemma placed_reset t : placed_tuple t -> placed_tuple (reset1 t) /\ placed_tuple (reset2 t).
Proof. intros [[] []]. by split; split; constructor. Qed.
Lemma placed_stop t : placed_tuple t -> placed_tuple (tuple_stop t).
Proof. intros [[] []]. by split; constructor. Qed.
Lemma start_placed p p' : placed p -> start p = Some p' -> placed p'.
Proof. intros []. unfold start. repeat case_match; intros; simplify_eq; by constructor. Qed.
Lemma placed_start t : placed_tuple t -> placed_tuple (tuple_start t).2.
Proof.
  intros [Hd Hc]. unfold tuple_start. destruct (start (data t)) as [d|] eqn:Ed; [|done].
  destruct (start (control t)) as [ctl|] eqn:Ec; cbn; split; eauto using start_placed.
Qed.

(** What is presented of a placed tuple. *)
Lemma presents1 t : placed_tuple t -> word (shown (getLeg1Address (data t))) /\
  (0 <= port (getLeg1Address (data t)) < 2 ^ 16)%Z /\ (1 <= port (getLeg1Address (control t)))%Z.
Proof.
  intros [Hd Hc]. rewrite shown_leg1 by done. destruct Hd as [Hd _], Hc as [Hc _]. split; [by eapply shown_text_word|].
  destruct Hd as (_ & Hd & _), Hc as (_ & Hc & _). cbn. lia.
Qed.
Lemma presents2 t : placed_tuple t -> word (shown (getLeg2Address (data t))) /\
  (0 <= port (getLeg2Address (data t)) < 2 ^ 16)%Z /\ (1 <= port (getLeg2Address (control t)))%Z.
Proof.
  intros [Hd Hc]. rewrite shown_leg2 by done. destruct Hd as [_ Hd], Hc as [_ Hc]. split; [by eapply shown_text_word|].
  destruct Hd as (_ & Hd & _), Hc as (_ & Hc & _). cbn. lia.
Qed.

(** ** The first offer *)

(** A draft that has become another: [T] is the description that was worked on. *)
Record moved (d d' : draft) (T : option nat) : Prop := {
  mv_fine : fine d';
  mv_ptrs : ptrs d' = ptrs d;
  mv_rest : forall q m, d_store d !! q = Some m -> T <> Some q -> exists m', d_store d' !! q = Some m' /\ quiet m m';
  mv_type : forall q m, d_store d !! q = Some m -> exists m', d_store d' !! q = Some m' /\ read_type (hdrs m') = read_type (hdrs m)
}.

Lemma quiet_at st st' q m : Forall2 quiet st st' -> st !! q = Some m -> exists m', st' !! q = Some m' /\ quiet m m'.
Proof. intros H E. by apply (Forall2_lookup_l _ _ _ _ _ H). Qed.

(** Nothing but what is kept has changed. *)
Lemma moved_quiet d st : fine d -> Forall tidy st -> Forall2 quiet (d_store d) st -> moved d (mkDraft st (d_session d) (d_changed d)) None.
Proof.
  intros [_ Hp] Ht Hq. pose proof (Forall2_length _ _ _ Hq) as Hl. split; cbn [d_store d_session].
  - split; cbn; [done|by rewrite <- Hl].
  - done.
  - intros q m E _. by apply (quiet_at (d_store d)).
  - intros q m E. destruct (quiet_at _ _ _ _ Hq E) as (m' & E' & Eh & _). exists m'. by rewrite Eh.
Qed.

(** One object has been replaced as well. *)
Lemma moved_at d d1 p m m' s ch :
  moved d d1 None -> d_store d !! p = Some m -> tidy m' -> read_type (hdrs m') = read_type (hdrs m) -> mediaDescriptions s = ptrs d1 ->
  moved d (mkDraft (<[p := m']> (d_store d1)) s ch) (Some p).
Proof.
  intros [[Ht Hp] H2 H3 H4] E Hm Hy Hs.
  assert (Hl : p < length (d_store d1)) by (destruct (H4 p m E) as (? & ? & _); by eapply lookup_lt_Some).
  split; cbn [d_store d_session].
  - split; cbn [d_store d_session]; [by apply Forall_insert|]. by rewrite length_insert, Hs.
  - congruence.
  - intros q x Ex Hn. rewrite list_lookup_insert_ne by congruence. by apply H3.
  - intros q x Ex. destruct (decide (p = q)) as [<-|Hne].
    + rewrite list_lookup_insert_eq by done. exists m'. split; [done|]. congruence.
    + rewrite list_lookup_insert_ne by done. by apply H4.
Qed.

Lemma moved_then d d1 d2 T : moved d d1 None -> moved d1 d2 T -> moved d d2 T.
Proof.
  intros [A1 A2 A3 A4] [B1 B2 B3 B4]. split; [done|congruence| |].
  - intros q m E Hn. destruct (A3 q m E) as (m1 & E1 & Q1); [done|]. destruct (B3 q m1 E1 Hn) as (m2 & E2 & Q2).
    exists m2. split; [done|]. by transitivity m1.
  - intros q m E. destruct (A4 q m E) as (m1 & E1 & Q1). destruct (B4 q m1 E1) as (m2 & E2 & Q2). exists m2. split; [done|congruence].
Qed.

(** The first description of a medium. *)
Definition first_of (d : draft) (k : kind) : option nat := of_type (d_store d) (media_type k) (ptrs d) !! 0.

(** Why a medium is not offered: there is none, it needs no proxy, or ports are taken. *)
Definition unoffered (k : kind) (force allow : bool) (sa : str) (d : draft) : Prop :=
  first_of d k = None \/
  (exists p m a, first_of d k = Some p /\ d_store d !! p = Some m /\ address_of (hdrs m) sa = Some a /\
    createProxy enableHairpins c force allow a = false) \/
  ~ (forall n e, binds n e = true).

(** Where the media of an offer goes. *)
Definition offered_to (a : IPAddress) : ip_address := if negb (isPrivate a) then ip a else ip (packetSourceIP c).

(** The sockets of a tuple: ports of the range, the control ports behind the data ports. *)
Definition opened (m : ports) (t : RTPProxyTuple) : Prop :=
  exists p1 p2, (portBase m <= p1 <= portMax m)%Z /\ (portBase m <= p2 <= portMax m)%Z /\ p1 <> p2 /\
    listens (data t) (setPort (packetLocalInterface c) p1) (setPort (routeLocalInterface c) p2) /\
    listens (control t) (setPort (packetLocalInterface c) (p1 + 1)) (setPort (routeLocalInterface c) (p2 + 1)).

(** What a description and its proxy are after the medium was offered. *)
Record offered (k : kind) (sa : str) (d d' : draft) (t : RTPProxyTuple) (p : nat) (m m' : SDPMedia) (a : IPAddress) : Prop := {
  of_first : first_of d k = Some p;
  of_before : d_store d !! p = Some m;
  of_after : d_store d' !! p = Some m';
  of_session : d_session d' = session_line d (nonempty sa) (blackhole sa) (shown (getLeg2Address (data t)));
  of_changed : d_changed d' = (d_changed d || nonempty sa && negb (blackhole sa));
  of_address : read_address (hdrs m') =
    if negb (nonempty sa) || nonempty (read_address (hdrs m)) then shown (getLeg2Address (data t)) else read_address (hdrs m);
  of_port : blackhole sa = false -> read_dataPort (hdrs m') = (localEndPointLeg2 (data t)).2 \/ short_line (hdrs m);
  of_source : address_of (hdrs m) sa = Some a;
  of_leg1 : dataPort m = 0%Z -> controlPort m = 0%Z ->
    senderEndPointLeg1 (data t) = (offered_to a, read_dataPort (hdrs m)) /\
    senderEndPointLeg1 (control t) = (offered_to a, read_control (hdrs m))
}.

Lemma tuple_open_run m t :
  ports_ok m -> exists b m' t', tuple_open binds m t (packetLocalInterface c) (routeLocalInterface c) (packetLocalInterface c)
      (routeLocalInterface c) = (b, m', t') /\ ports_ok m' /\ same_range m m' /\ (b = true \/ placed_tuple t -> placed_tuple t') /\
    (b = true -> opened m t') /\ (calm_tuple t -> calm_tuple t').
Proof.
  intros Hm. unfold tuple_open. destruct (open_loop _ _ _ _ _ _ _ _) as [[b m'] t'] eqn:E. exists b, m', t'.
  destruct (open_loop_ports _ _ _ _ _ _ _ _ _ _ _ Hm E) as [O R]. split; [done|]. split; [done|]. split; [done|].
  split; [eapply open_loop_placed; [exact Hm|..|exact E]; done|]. split; [|by eapply open_loop_calm]. intros ->.
  destruct (open_loop_listens _ _ _ _ _ _ _ _ _ _ Hm E) as (p1 & p2 & R1 & R2 & Hn & L1 & L2 & _). by exists p1, p2.
Qed.

Lemma initial_offer_media_run s0 k force sa d w :
  fine d -> keeps s0 w ->
  exists w' r, initial_offer_media binds enableHairpins c k force sa d w = Val (w', r) /\ keeps s0 w' /\
    w_sdp w' = w_sdp w /\ w_attr w' = w_attr w /\ same_range (w_ports w) (w_ports w') /\
    (exists t b, w_session w' = (w_session w) <| proxies := put_kind k t (proxies (w_session w)) |> <| hasOffered := put_kind k b (hasOffered (w_session w)) |>) /\
    (calm_tuple (proxy (w_session w) k) -> calm_tuple (proxy (w_session w') k)) /\
    match r with
    | inl _ => True
    | inr d' =>
        (at_kind (hasOffered (w_session w')) k = at_kind (hasOffered (w_session w)) k /\ moved d d' None /\
         d_session d' = d_session d /\ d_changed d' = d_changed d /\ unoffered k force (allowHairPin (w_attr w)) sa d) \/
        (at_kind (hasOffered (w_session w')) k = true /\ exists p m m' a, moved d d' (Some p) /\
          offered k sa d d' (proxy (w_session w') k) p m m' a /\ opened (w_ports w) (proxy (w_session w') k) /\
          placed_tuple (proxy (w_session w') k))
    end.
Proof.
  intros Hd Hw. unfold initial_offer_media.
  assert (Hsame : exists t b, w_session w = (w_session w) <| proxies := put_kind k t (proxies (w_session w)) |>
    <| hasOffered := put_kind k b (hasOffered (w_session w)) |>).
  { exists (at_kind (proxies (w_session w)) k), (at_kind (hasOffered (w_session w)) k). destruct (w_session w) as [? [] [] ? ? ? ? ? ? ? ? ? ? ? ? ? ? ? ? ? ? ? ? ?], k; done. }
  destruct (get_media_run d k Hd) as (st & r & E & Ht & Ha & Hq & Er). rewrite (run_lift _ _ _ _ E).
  pose proof (moved_quiet d st Hd Ht Hq) as M1. set (d1 := mkDraft st (d_session d) (d_changed d)) in *.
  destruct r as [p|].
  2:{ exists w, (inr d1). split_and!; try done. left. split_and!; try done. by left. }
  symmetry in Er. destruct (of_type_typed d k p Er) as (m & Em & Hty).
  destruct (quiet_at _ _ _ _ Hq Em) as (m1 & Em1 & Q1). pose proof Q1 as (H1 & D1 & C1).
  destruct (media_address_run d1 p m1 sa Ht Em1) as (m2 & E2 & T2 & Q2). rewrite (run_lift _ _ _ _ E2). rewrite H1.
  pose proof Q2 as (H2 & D2 & C2). clear E E2.
  destruct (address_of (hdrs m) sa) as [a|] eqn:Ea.
  2:{ exists w. eexists. split; [done|]. by split_and!. }
  assert (Hq2 : Forall2 quiet (d_store d) (<[p := m2]> st)) by (eapply quiet_trans; [exact Hq|by apply (quiet_insert st p m1)]).
  assert (Ht2 : Forall tidy (<[p := m2]> st)) by by apply Forall_insert.
  pose proof (moved_quiet d _ Hd Ht2 Hq2) as M2. cbn [d_store d_session d_changed d1]. set (d2 := mkDraft (<[p := m2]> st) (d_session d) (d_changed d)) in *.
  rewrite run_gets. cbn [id]. destruct (createProxy _ _ _ _ _) eqn:Ec.
  2:{ exists w, (inr d2). split_and!; try done. left. split_and!; try done. right; left. by exists p, m, a. }
  destruct (tuple_open_run (w_ports w) (proxy (w_session w) k) (ke_ports _ _ Hw)) as (b & m' & t & Eo & Om & Rm & Pl & Op & Ca).
  rewrite Eo. rewrite run_modify. unfold put_tuple, modify_session. rewrite run_modify.
  set (w1 := w <| w_ports := m' |>). set (w2 := w1 <| w_session := put_proxy k t (w_session w1) |>).
  assert (K1 : keeps s0 w1) by by apply keeps_ports.
  destruct b.
  2:{ exists w2, (inr d2). split; [done|]. split; [apply keeps_put; [done|]; intros Hu; apply Pl; right; by apply (ke_placed _ _ Hw)|].
      split; [done|]. split; [done|]. split; [done|]. split; [|split; [unfold proxy; cbn; by rewrite at_put_eq|]].
      - exists t, (at_kind (hasOffered (w_session w)) k). cbn. unfold put_proxy.
        by destruct (w_session w) as [? [] [] ? ? ? ? ? ? ? ? ? ? ? ? ? ? ? ? ? ? ? ? ?], k.
      - left. split_and!; try done. right; right. intros Hb.
        destruct (tuple_open_succeeds binds (w_ports w) (proxy (w_session w) k) (packetLocalInterface c) (routeLocalInterface c)
          (packetLocalInterface c) (routeLocalInterface c) (ke_ports _ _ Hw) Hb) as (? & ? & E). by rewrite E in Eo. }
  specialize (Pl (or_introl eq_refl)). specialize (Op eq_refl).
  assert (Em2 : d_store d2 !! p = Some m2) by (cbn; apply list_lookup_insert_eq; by eapply lookup_lt_Some).
  destruct (media_ports_run d2 p m2 Em2 T2) as (dp & cp & m3 & E3 & T3 & H3 & P3). rewrite (run_lift _ _ _ _ E3). rewrite run_modify.
  fold (offered_to a). set (t' := set_leg1 _ _ _). set (w3 := w2 <| w_session := _ |>).
  assert (Pl' : placed_tuple t') by by apply placed_set_leg1, placed_set_xor1.
  destruct (presents2 t' Pl') as (W & P1 & P2). set (d3 := mkDraft (<[p := m3]> (d_store d2)) _ _).
  assert (Hl : p < length (d_store d2)) by by eapply lookup_lt_Some.
  assert (Em3 : d_store d3 !! p = Some m3) by by apply list_lookup_insert_eq.
  assert (Y3 : read_type (hdrs m3) = media_type k) by by rewrite H3, H2, H1.
  destruct (present_run d3 p m3 k (nonempty sa) (blackhole sa) (nonempty (read_address (hdrs m))) _ _ Em3 T3 Y3 W P1 P2)
    as (m4 & E4 & T4 & Y4 & A4 & O4). rewrite (run_lift _ _ _ _ E4). rewrite run_modify.
  assert (K2 : keeps s0 w3).
  { change w3 with (w1 <| w_session := put_proxy k t' (put_proxy k t (w_session w1)) |>).
    replace (put_proxy k t' (put_proxy k t (w_session w1))) with (put_proxy k t' (w_session w1)); [by apply keeps_put|].
    unfold put_proxy. cbn. by rewrite put_kind_twice. }
  assert (Ep : proxy (w_session w3) k = t') by (unfold proxy; cbn; by rewrite at_put_eq).
  eexists _, (inr _). split; [done|]. split; [by apply keeps_offered; [|rewrite Ep]|].
  split; [done|]. split; [done|]. split; [done|]. split.
  { exists t', true. cbn. unfold put_offered, put_proxy. cbn. by rewrite put_kind_twice. }
  split; [intros Hc; specialize (Ca Hc) as [[] []]; change (calm_tuple (proxy (w_session w3) k)); rewrite Ep; by split; constructor|].
  right. split; [cbn; apply at_put_eq|]. exists p, m, m4, a.
  change (proxy (w_session (w3 <| w_session := _ |>)) k) with (proxy (w_session w3) k). rewrite Ep.
  split_and!; try done.
  - replace (<[p := m4]> (d_store d3)) with (<[p := m4]> (d_store d2)) by (cbn; by rewrite !list_insert_insert_eq).
    apply (moved_at d d2 p m); [done|done|done|congruence|]. by rewrite session_line_ptrs.
  - constructor; try done.
    + apply list_lookup_insert_eq. cbn. by rewrite length_insert.
    + by rewrite A4, H3, H2, H1.
    + intros B. specialize (O4 B). unfold short_line in *. rewrite H3, H2, H1 in O4. done.
    + intros D0 C0. destruct P3 as [P3 P4]; [congruence|congruence|]. rewrite <- H1, <- H2, <- P3, <- P4. done.
  - destruct Op as (p1 & p2 & ? & ? & ? & [] & []). exists p1, p2. do 3 (split; [done|]). by split; constructor.
Qed.

End facts.
