(* ===== verification/RtpSessionSafe.v ===== *)
(** * Handlers always return

    A small program logic for the handlers of [RTPProxySession]: a handler run from a
    session that keeps its invariant returns, with a result or an exception, and the
    session it leaves keeps the invariant, whatever the text of the description is. *)

From S2P Require Import Prelude CoreStrings CMem SdpText SdpHeaders SdpMedia SdpSession SdpSessionFacts SdpStore IpAddress RtpPacket RtpProxy RtpProxyFacts RtpSession RtpSessionFacts.
Open Scope nat_scope.

Section safe.
Context {boost : BoostString} {text : BoostText} {asio : AsioAddress}.
Context (binds : nat -> endpoint -> bool) (enableHairpins : bool) (c : call).
Context (Hlocal : interface (packetLocalInterface c)) (Hroute : interface (routeLocalInterface c)).
Context (s0 : RTPProxySession).

(** ** The logic *)

Definition runs {A} (m : act A) (w : world) (Q : A -> world -> Prop) : Prop :=
  exists w' r, m w = Val (w', r) /\ keeps s0 w' /\ match r with inl _ => True | inr a => Q a w' end.

Lemma runs_ret {A} (a : A) w (Q : A -> world -> Prop) : keeps s0 w -> Q a w -> runs (mret a) w Q.
Proof. intros. by exists w, (inr a). Qed.
Lemma runs_throw {A} e w (Q : A -> world -> Prop) : keeps s0 w -> runs (throw e) w Q.
Proof. intros. by exists w, (inl e). Qed.
Lemma runs_bind {A B} (m : act A) (f : A -> act B) w Q :
  runs m w (fun a w' => keeps s0 w' -> runs (f a) w' Q) -> runs (m ≫= f) w Q.
Proof.
  intros (w' & r & E & K & H). unfold runs. rewrite (run_bind _ _ _ _ _ E). destruct r as [e|a]; [by exists w', (inl e)|]. by apply H.
Qed.
Lemma runs_lift {A B} (m : cres A) a (f : A -> act B) w Q : m = Val a -> runs (f a) w Q -> runs (lift m ≫= f) w Q.
Proof. intros E H. unfold runs. by rewrite (run_lift _ _ _ _ E). Qed.
Lemma runs_lift_last {A} (m : cres A) a w (Q : A -> world -> Prop) : m = Val a -> keeps s0 w -> Q a w -> runs (lift m) w Q.
Proof. intros -> K H. by exists w, (inr a). Qed.
Lemma runs_gets {A B} (g : world -> A) (f : A -> act B) w Q : runs (f (g w)) w Q -> runs (gets g ≫= f) w Q.
Proof. done. Qed.
Lemma runs_modify {B} g (f : unit -> act B) w Q : runs (f tt) (g w) Q -> runs (modify g ≫= f) w Q.
Proof. done. Qed.
Lemma runs_modify_last g w (Q : unit -> world -> Prop) : keeps s0 (g w) -> Q tt (g w) -> runs (modify g) w Q.
Proof. intros K H. by exists (g w), (inr tt). Qed.
Lemma runs_weaken {A} (m : act A) w (Q Q' : A -> world -> Prop) :
  runs m w Q -> (forall a w', keeps s0 w' -> Q a w' -> Q' a w') -> runs m w Q'.
Proof. intros (w' & r & E & K & H) HQ. exists w', r. split; [done|]. split; [done|]. destruct r; auto. Qed.

(** Members that the invariant does not speak of. *)
Lemma keeps_session w s :
  keeps s0 w -> state s = state (w_session w) -> monitoredRoute s = monitoredRoute (w_session w) ->
  (forall k, used s k -> placed_tuple (proxy s k)) -> keeps s0 (w <| w_session := s |>).
Proof. intros [H1 H2 H3 H4] E1 E2 Hp. constructor; cbn; try done; congruence. Qed.
Lemma keeps_other w s :
  keeps s0 w -> state s = state (w_session w) -> monitoredRoute s = monitoredRoute (w_session w) ->
  proxies s = proxies (w_session w) -> hasOffered s = hasOffered (w_session w) -> isNegotiated s = isNegotiated (w_session w) ->
  keeps s0 (w <| w_session := s |>).
Proof.
  intros K E1 E2 E3 E4 E5. apply keeps_session; [done..|]. intros k. unfold used, proxy. rewrite E3, E4, E5. apply (ke_placed _ _ K).
Qed.
Lemma keeps_sdp w t : keeps s0 w -> keeps s0 (w <| w_sdp := t |>).
Proof. intros []. by constructor. Qed.
Lemma keeps_attr w a : keeps s0 w -> keeps s0 (w <| w_attr := a |>).
Proof. intros []. by constructor. Qed.

Lemma runs_logger {A} f (m : act A) w Q :
  (forall w, keeps s0 w -> keeps s0 (w <| w_session := f (w_sdp w) (w_session w) |>)) ->
  (forall a w', Q a w' -> Q a (w' <| w_session := f (w_sdp w') (w_session w') |>)) ->
  runs m w Q -> runs (with_logger f m) w Q.
Proof.
  intros Hf HQ (w' & r & E & K & H). unfold runs, with_logger. rewrite E, val_bind. eexists _, r. split; [done|].
  split; [by apply Hf|]. destruct r; [done|]. by apply HQ.
Qed.

(** ** The parts of the handlers *)

(** A draft that has the descriptions of another. *)
Definition kept (d d' : draft) : Prop :=
  fine d' /\ ptrs d' = ptrs d /\ forall k q, typed d k q -> typed d' k q.
Lemma kept_trans d1 d2 d3 : kept d1 d2 -> kept d2 d3 -> kept d1 d3.
Proof. intros (F1 & P1 & T1) (F2 & P2 & T2). split; [done|]. split; [congruence|]. auto. Qed.
Lemma moved_kept d d' T : moved d d' T -> kept d d'.
Proof.
  intros [F P _ Ty]. split; [done|]. split; [done|]. intros k q (m & E & Ht). destruct (Ty q m E) as (m' & E' & Ht').
  exists m'. split; [done|congruence].
Qed.

Lemma get_media_kept d k :
  fine d -> exists d' r, get_media d k = Val (d', r) /\ kept d d' /\ (forall p, r = Some p -> typed d' k p) /\ d_changed d' = d_changed d.
Proof.
  intros Hd. destruct (get_media_run d k Hd) as (st & r & E & Ht & Ha & Hq & Er). eexists _, r. split; [done|].
  pose proof (moved_kept _ _ _ (moved_quiet d st Hd Ht Hq)) as K. split; [done|]. split; [|done]. intros p ->. apply K. by apply of_type_typed.
Qed.

Lemma media_address_kept d k p sa :
  fine d -> typed d k p -> exists d' b a, media_address d p sa = Val (d', b, a) /\ kept d d'.
Proof.
  intros Hd (m & E & Hty). destruct (media_address_run d p m sa (proj1 Hd) E) as (m' & -> & Ht & Hq). eexists _, _, _. split; [done|].
  eapply moved_kept, moved_quiet; [done|apply Forall_insert; [apply Hd|done]|by eapply quiet_insert].
Qed.

Lemma moved_self d : fine d -> moved d d None.
Proof. intros Hd. destruct d as [st s ch]. apply (moved_quiet (mkDraft st s ch) st Hd (proj1 Hd)). reflexivity. Qed.

Lemma media_ports_kept d k p : fine d -> typed d k p -> exists d' dp cp, media_ports d p = Val (d', dp, cp) /\ kept d d'.
Proof.
  intros Hd (m & E & Hty). destruct (media_ports_run d p m E) as (dp & cp & m' & -> & Ht & Hh & _); [by eapply Forall_lookup_1; [apply Hd|]|].
  eexists _, _, _. split; [done|]. eapply moved_kept, (moved_at d d p m); [by apply moved_self|done|done|by rewrite Hh|done].
Qed.

Lemma present_kept d k p b1 b2 b3 da ca :
  fine d -> typed d k p -> word (shown da) -> (0 <= port da < 2 ^ 16)%Z -> (1 <= port ca)%Z ->
  exists d', present d p b1 b2 b3 da ca = Val d' /\ kept d d'.
Proof.
  intros Hd (m & E & Hty) W P1 P2.
  destruct (present_run d p m k b1 b2 b3 da ca E) as (m' & -> & Ht & Hy & _); [by eapply Forall_lookup_1; [apply Hd|]|done..|].
  eexists. split; [done|]. eapply moved_kept, (moved_at d d p m); [by apply moved_self|done|done|congruence|apply session_line_ptrs].
Qed.

Lemma turn_leg_placed i a dp cp t :
  placed_tuple t -> exists t' da ca, turn_leg i a dp cp t = (t', da, ca) /\ placed_tuple t' /\
    word (shown da) /\ (0 <= port da < 2 ^ 16)%Z /\ (1 <= port ca)%Z.
Proof.
  intros Ht. unfold turn_leg. destruct (i =? 1); cbn zeta; eexists _, _, _; (split; [done|]).
  - assert (P : placed_tuple (reset1 (set_leg1 (a, dp) (a, cp) t))) by by apply placed_reset, placed_set_leg1.
    split; [done|]. by apply presents2.
  - assert (P : placed_tuple (reset2 (set_leg2 (a, dp) (a, cp) t))) by by apply placed_reset, placed_set_leg2.
    split; [done|]. by apply presents1.
Qed.

(** What the invariant needs of a change to one medium. *)
Lemma keeps_medium w k t bo bn :
  keeps s0 w -> (bo || bn = true -> placed_tuple t) ->
  keeps s0 (w <| w_session := put_negotiated k bn (put_offered k bo (put_proxy k t (w_session w))) |>).
Proof.
  intros K Ht. apply keeps_session; [done..|]. intros k' Hk'. unfold used, proxy in *. cbn in Hk' |- *. rewrite !at_put in *.
  case_decide; [|by apply (ke_placed _ _ K)]. apply Ht. destruct Hk' as [-> | ->]; [done|apply orb_true_r].
Qed.
Lemma put_at {A} k (t : three A) : put_kind k (at_kind t k) t = t.
Proof. by destruct t, k. Qed.
Lemma medium_negotiated w k t bn :
  put_negotiated k bn (put_proxy k t (w_session w)) =
  put_negotiated k bn (put_offered k (at_kind (hasOffered (w_session w)) k) (put_proxy k t (w_session w))).
Proof. unfold put_negotiated, put_offered, put_proxy. cbn. by rewrite put_at. Qed.
Lemma keeps_proxy_negotiated w k t bn :
  keeps s0 w -> placed_tuple t -> keeps s0 (w <| w_session := put_negotiated k bn (put_proxy k t (w_session w)) |>).
Proof. intros K Ht. rewrite medium_negotiated. by apply keeps_medium. Qed.

Lemma publish_runs d w : keeps s0 w -> fine d -> runs (publish d) w (fun _ _ => True).
Proof.
  intros K Hd. apply runs_gets. destruct (any_kind _); [|by apply runs_ret].
  destruct (toString_run (d_store d) (d_session d)) as [t Et]; [apply Hd|]. eapply runs_lift; [exact Et|].
  apply runs_modify, runs_ret; [by apply keeps_sdp|done].
Qed.

Lemma dump_runs w : keeps s0 w -> runs dumpStateFile w (fun _ _ => True).
Proof. intros []. apply runs_modify_last; [by constructor|done]. Qed.

Lemma origin_runs s w : keeps s0 w -> runs (origin s) w (fun _ _ => True).
Proof. intros K. unfold origin. repeat case_match; by first [apply runs_throw|apply runs_ret]. Qed.

(** ** The media of the handlers *)

Lemma initial_offer_media_runs k force sa d w :
  fine d -> keeps s0 w -> runs (initial_offer_media binds enableHairpins c k force sa d) w (fun d' _ => fine d').
Proof.
  intros Hd K. destruct (initial_offer_media_run binds enableHairpins c Hlocal Hroute s0 k force sa d w Hd K)
    as (w' & r & E & K' & _ & _ & _ & _ & _ & H). exists w', r. split; [done|]. split; [done|]. destruct r as [|d']; [done|].
  destruct H as [(_ & M & _)|(_ & p & m & m' & a & M & _)]; apply M.
Qed.

Lemma initial_answer_media_runs k sa d w :
  fine d -> keeps s0 w -> runs (initial_answer_media k sa d) w (fun d' _ => fine d').
Proof.
  intros Hd K. apply runs_gets. cbn [id]. destruct (at_kind (hasOffered (w_session w)) k) eqn:Eo; [|by apply runs_ret].
  assert (Pl : placed_tuple (proxy (w_session w) k)) by (apply (ke_placed _ _ K); by left).
  destruct (get_media_kept d k Hd) as (d1 & r & E1 & K1 & Hr & _). eapply runs_lift; [exact E1|]. destruct r as [p|].
  2:{ apply runs_modify, runs_ret; [|apply K1]. by apply keeps_proxy_negotiated, placed_stop. }
  specialize (Hr p eq_refl). destruct (media_address_kept d1 k p sa) as (d2 & b & a & E2 & K2); [apply K1|done|].
  eapply runs_lift; [exact E2|]. destruct (media_ports_kept d2 k p) as (d3 & dp & cp & E3 & K3); [apply K2|by apply K2|].
  eapply runs_lift; [exact E3|]. cbv beta iota zeta. set (t := set_xor2 _ _).
  assert (Pt : placed_tuple (tuple_start t).2) by (by apply placed_start, placed_set_xor2, placed_set_leg2).
  destruct (tuple_start t) as [b' t']. cbn [snd] in Pt. apply runs_modify.
  assert (K' : keeps s0 (w <| w_session := put_negotiated k true (put_proxy k t' (w_session w)) |>)) by by apply keeps_proxy_negotiated.
  destruct b'; [|by apply runs_throw]. destruct (presents1 t' Pt) as (W & P1 & P2).
  destruct (present_kept d3 k p (nonempty sa) (blackhole sa) b _ _ (proj1 K3) (proj2 (proj2 K3) k p (proj2 (proj2 K2) k p Hr)) W P1 P2)
    as (d4 & E4 & K4). eapply runs_lift_last; [exact E4|done|apply K4].
Qed.

Lemma turned_runs k i sa d p b a dp cp w d1 d2 :
  kept d d1 -> kept d1 d2 -> typed d k p -> placed_tuple (proxy (w_session w) k) ->
  exists t da ca d3, turn_leg i a dp cp (proxy (w_session w) k) = (t, da, ca) /\ placed_tuple t /\
    present d2 p (nonempty sa) (blackhole sa) b da ca = Val d3 /\ kept d d3.
Proof.
  intros K1 K2 Ht Pl. destruct (turn_leg_placed i a dp cp _ Pl) as (t & da & ca & E & Pt & W & P1 & P2).
  destruct (present_kept d2 k p (nonempty sa) (blackhole sa) b da ca (proj1 K2)) as (d3 & E3 & K3); [by apply K2, K1|done..|].
  exists t, da, ca, d3. split_and!; try done. eapply kept_trans; [exact K1|]. by eapply kept_trans.
Qed.

Lemma offer_media_runs k i sa r d w :
  fine d -> (forall p, r = Some p -> typed d k p) -> keeps s0 w -> runs (offer_media k i sa r d) w (fun d' _ => kept d d').
Proof.
  intros Hd Hr K. assert (Kd : kept d d) by done. apply runs_gets. cbn [id]. destruct r as [p|].
  2:{ destruct (at_kind (isNegotiated _) k); [|by apply runs_ret]. apply runs_modify, runs_ret; [|done]. by apply keeps_medium. }
  specialize (Hr p eq_refl). destruct (at_kind (isNegotiated _) k) eqn:En; [|by apply runs_ret].
  assert (Pl : placed_tuple (proxy (w_session w) k)) by (apply (ke_placed _ _ K); by right).
  destruct (media_address_kept d k p sa Hd Hr) as (d1 & b & a & E1 & K1). eapply runs_lift; [exact E1|].
  destruct a as [a|]; [|by apply runs_throw]. apply runs_bind. destruct (ip_isValid a).
  2:{ apply runs_ret; [done|]. intros _. apply runs_modify, runs_ret; [by apply keeps_offered|done]. }
  destruct (media_ports_kept d1 k p) as (d2 & dp & cp & E2 & K2); [apply K1|by apply K1|]. eapply runs_lift; [exact E2|].
  destruct (turned_runs k i sa d p b (ip a) dp cp w d1 d2 K1 K2 Hr Pl) as (t & da & ca & d3 & -> & Pt & E3 & K3).
  apply runs_modify. eapply runs_lift_last; [exact E3|by apply keeps_put|]. intros K'.
  apply runs_modify, runs_ret; [|done]. apply keeps_offered; [done|]. unfold proxy. cbn. by rewrite at_put_eq.
Qed.

Lemma answer_media_runs k i sa d w :
  fine d -> keeps s0 w -> runs (answer_media k i sa d) w (fun d' _ => fine d').
Proof.
  intros Hd K. apply runs_gets. cbn [id]. destruct (at_kind (hasOffered (w_session w)) k) eqn:Eo; [|by apply runs_ret].
  assert (Pl : placed_tuple (proxy (w_session w) k)) by (apply (ke_placed _ _ K); by left).
  destruct (get_media_kept d k Hd) as (d1 & r & E1 & K1 & Hr & _). eapply runs_lift; [exact E1|]. destruct r as [p|].
  2:{ apply runs_modify, runs_ret; [|apply K1]. by apply keeps_proxy_negotiated, placed_stop. }
  specialize (Hr p eq_refl). destruct (media_address_kept d1 k p sa) as (d2 & b & a & E2 & K2); [apply K1|done|].
  eapply runs_lift; [exact E2|]. destruct (media_ports_kept d2 k p) as (d3 & dp & cp & E3 & K3); [apply K2|by apply K2|].
  eapply runs_lift; [exact E3|]. cbv beta iota zeta.
  destruct (turned_runs k i sa d1 p b (ip (default default_ip a)) dp cp w d2 d3 K2 K3 Hr Pl)
    as (t & da & ca & d4 & -> & Pt & E4 & K4).
  apply runs_modify. eapply runs_lift_last; [exact E4|by apply keeps_proxy_negotiated|apply K4].
Qed.

(** ** The handlers *)

Lemma cleared w s :
  keeps s0 w -> state s = state (w_session w) -> monitoredRoute s = monitoredRoute (w_session w) -> proxies s = proxies (w_session w) ->
  hasOffered s = mkThree false false false -> isNegotiated s = isNegotiated (w_session w) -> keeps s0 (w <| w_session := s |>).
Proof.
  intros K E1 E2 E3 E4 E5. apply keeps_session; [done..|]. intros k. unfold used, proxy. rewrite E3, E4, E5.
  intros [H|H]; [by destruct k|]. apply (ke_placed _ _ K). by right.
Qed.

Lemma handleInitialSDPOffer_runs w : keeps s0 w -> runs (handleInitialSDPOffer binds enableHairpins c) w (fun _ _ => True).
Proof.
  intros K. apply runs_modify. set (w0 := w <| w_session := _ |>). assert (K1 : keeps s0 w0) by by apply cleared.
  apply runs_gets. cbn zeta. destruct (parse_sdp_run (w_sdp w)) as (d & E & Hd & _). eapply runs_lift; [exact E|].
  apply runs_bind. eapply runs_weaken; [by apply origin_runs|]. intros [i a] w1 K2 _ _. apply runs_modify.
  apply runs_bind. eapply runs_weaken; [apply initial_offer_media_runs; [done|by apply keeps_other]|]. intros d1 w2 K3 F1 _.
  apply runs_bind. eapply runs_weaken; [by apply initial_offer_media_runs|]. intros d2 w3 K4 F2 _.
  apply runs_bind. eapply runs_weaken; [by apply initial_offer_media_runs|]. intros d3 w4 K5 F3 _.
  apply runs_bind. eapply runs_weaken; [by apply publish_runs|]. intros _ w5 K6 _ _. by apply runs_ret.
Qed.

Lemma keeps_inactive w : keeps s0 w -> keeps s0 (w <| w_session := session_setInactive (w_session w) |>).
Proof.
  intros K. apply keeps_session; [done..|]. intros k Hu. apply (ke_placed _ _ K) in Hu as [[] []]. by destruct k; split; constructor.
Qed.
Lemma keeps_stop w : keeps s0 w -> keeps s0 (w <| w_session := session_stop (w_session w) |>).
Proof.
  intros K. apply keeps_session; [done..|]. intros k Hu. apply (ke_placed _ _ K) in Hu. apply placed_stop in Hu. by destruct k.
Qed.

Lemma handleInitialSDPAnswer_runs w :
  keeps s0 w -> isExpectingInitialAnswer (w_session w) = true -> runs handleInitialSDPAnswer w (fun _ _ => True).
Proof.
  intros K Ex. apply runs_gets. cbn [id]. rewrite Ex. cbn [negb]. apply runs_modify.
  destruct (parse_sdp_run (w_sdp w)) as (d & E & Hd & _). eapply runs_lift; [exact E|].
  apply runs_bind. eapply runs_weaken; [by apply origin_runs, keeps_other|]. intros [i a] w1 K2 _ _. apply runs_modify.
  apply runs_bind. eapply runs_weaken; [apply initial_answer_media_runs; [done|by apply keeps_other]|]. intros d1 w2 K3 F1 _.
  apply runs_bind. eapply runs_weaken; [by apply initial_answer_media_runs|]. intros d2 w3 K4 F2 _.
  apply runs_bind. eapply runs_weaken; [by apply initial_answer_media_runs|]. intros d3 w4 K5 F3 _.
  apply runs_bind. eapply runs_weaken; [by apply publish_runs|]. intros [] w5 K6 _ _; [by apply dump_runs|].
  apply runs_modify_last; [by apply keeps_inactive|done].
Qed.

Lemma fresh_offer_runs w : keeps s0 w -> runs (fresh_offer binds enableHairpins c) w (fun _ _ => True).
Proof. intros K. apply runs_modify, handleInitialSDPOffer_runs. by apply keeps_stop. Qed.

Lemma handleSDPOffer_runs w : keeps s0 w -> runs (handleSDPOffer binds enableHairpins c) w (fun _ _ => True).
Proof.
  intros K. apply runs_gets. destruct (parse_sdp_run (w_sdp w)) as (d & E & Hd & _). eapply runs_lift; [exact E|]. cbn zeta.
  apply runs_modify, runs_logger; [intros; by apply keeps_other|done|].
  apply runs_bind. eapply runs_weaken; [by apply origin_runs, keeps_other|]. intros [i a] w1 K1 _ _. apply runs_gets. cbn [id].
  destruct (offer_leg _ i a) as [e|[leg|]]; [by apply runs_throw| |by apply fresh_offer_runs].
  apply runs_modify. set (w2 := w1 <| w_session := _ |>). assert (K2 : keeps s0 w2) by by apply keeps_other.
  destruct (get_media_kept d Audio Hd) as (d1 & r1 & E1 & D1 & R1 & _). eapply runs_lift; [exact E1|].
  destruct (get_media_kept d1 Video) as (d2 & r2 & E2 & D2 & R2 & _); [apply D1|]. eapply runs_lift; [exact E2|].
  destruct (get_media_kept d2 Fax) as (d3 & r3 & E3 & D3 & R3 & _); [apply D2|]. eapply runs_lift; [exact E3|]. cbv beta iota.
  destruct (unproxied _ _ _ || _ || _); [by apply fresh_offer_runs|].
  apply runs_bind. eapply runs_weaken; [apply offer_media_runs; [apply D3|intros p Hp; by apply D3, D2, R1|done]|]. intros d4 w3 K3 D4 _.
  apply runs_bind. eapply runs_weaken; [apply offer_media_runs; [apply D4|intros p Hp; by apply D4, D3, R2|done]|]. intros d5 w4 K4 D5 _.
  apply runs_bind. eapply runs_weaken; [apply offer_media_runs; [apply D5|intros p Hp; by apply D5, D4, R3|done]|]. intros d6 w5 K5 D6 _.
  apply runs_bind. eapply runs_weaken; [apply publish_runs; [done|apply D6]|]. intros _ w6 K6 _ _. by apply runs_ret.
Qed.

Lemma answer_leg_keeps s i a leg s' :
  answer_leg s i a = inr (leg, s') -> state s' = state s /\ monitoredRoute s' = monitoredRoute s /\
  proxies s' = proxies s /\ hasOffered s' = hasOffered s /\ isNegotiated s' = isNegotiated s.
Proof. unfold answer_leg. cbn zeta. repeat case_match; intros; by simplify_eq. Qed.

Lemma handleSDPAnswer_runs w : keeps s0 w -> runs handleSDPAnswer w (fun _ _ => True).
Proof.
  intros K. apply runs_gets. destruct (parse_sdp_run (w_sdp w)) as (d & E & Hd & _). eapply runs_lift; [exact E|]. cbn zeta.
  apply runs_logger; [intros; by apply keeps_other|done|].
  apply runs_bind. eapply runs_weaken; [by apply origin_runs|]. intros [i a] w1 K1 _ _. apply runs_gets. cbn [id].
  destruct (answer_leg _ i a) as [e|[leg s]] eqn:Es; [by apply runs_throw|]. apply answer_leg_keeps in Es as (Q1 & Q2 & Q3 & Q4 & Q5).
  apply runs_modify. apply runs_bind. eapply runs_weaken; [apply answer_media_runs; [done|by apply keeps_other]|]. intros d1 w2 K3 F1 _.
  apply runs_bind. eapply runs_weaken; [by apply answer_media_runs|]. intros d2 w3 K4 F2 _.
  apply runs_bind. eapply runs_weaken; [by apply answer_media_runs|]. intros d3 w4 K5 F3 _.
  apply runs_bind. eapply runs_weaken; [by apply publish_runs|]. intros [] w5 K6 _ _; [by apply dump_runs|by apply runs_ret].
Qed.

Lemma handleAnyAnswer_runs w : keeps s0 w -> runs handleAnyAnswer w (fun _ _ => True).
Proof.
  intros K. apply runs_gets. cbn [id]. apply runs_bind. eapply runs_weaken.
  { destruct (isExpectingInitialAnswer (w_session w)) eqn:E; [by apply handleInitialSDPAnswer_runs|by apply handleSDPAnswer_runs]. }
  intros _ w1 K1 _ _. apply runs_modify_last; [by apply keeps_other|done].
Qed.

Lemma prepare_resizing_runs w : keeps s0 w -> runs prepare_resizing w (fun _ _ => True).
Proof.
  intros K. apply runs_modify. set (w1 := w <| w_session := _ |>). assert (K1 : keeps s0 w1).
  { apply keeps_other; [done|..]; cbn zeta; (destruct (_ && _); destruct (_ && _); done). }
  clearbody w1. apply runs_gets. cbn [id]. destruct (_ || _); [|by apply runs_ret].
  apply runs_modify. destruct (parse_sdp_run (w_sdp w1)) as (d & E & Hd & _). eapply runs_lift; [exact E|].
  destruct (get_media_kept d Audio Hd) as (d1 & r1 & E1 & D1 & R1 & _). eapply runs_lift; [exact E1|]. cbv beta iota.
  assert (K2 : keeps s0 (w1 <| w_attr := (w_attr w1) <| forceCreate := true |> |>)) by by apply keeps_attr.
  destruct r1 as [p|]; [|by apply runs_ret]. destruct (R1 p eq_refl) as (m & Em & _).
  assert (El : load (d_store d1) p = Val m) by (unfold load; by rewrite Em). eapply runs_lift; [exact El|].
  destruct (toString_run (<[p := removePtime m]> (d_store d1)) (d_session d1)) as [t Et].
  { rewrite length_insert. apply D1. }
  eapply runs_lift; [exact Et|]. apply runs_modify_last; [by apply keeps_sdp|done].
Qed.

(** *** The states *)

Lemma response_runs w :
  keeps s0 w -> runs (if decide (requestType c = INVITE_RESPONSE) then handleAnyAnswer else mret tt) w (fun _ _ => True).
Proof. intros K. case_decide; [by apply handleAnyAnswer_runs|by apply runs_ret]. Qed.
Lemma further_answer_runs w :
  keeps s0 w -> runs (handleSDPAnswer ≫= fun _ => modify_session (fun s => s <| isExpectingInitialAnswer := false |>)) w (fun _ _ => True).
Proof.
  intros K. apply runs_bind. eapply runs_weaken; [by apply handleSDPAnswer_runs|]. intros _ w1 K1 _ _.
  apply runs_modify_last; [by apply keeps_other|done].
Qed.
Lemma handleStateNegotiated_runs w : keeps s0 w -> runs (handleStateNegotiated binds enableHairpins c) w (fun _ _ => True).
Proof. intros K. apply runs_modify, handleSDPOffer_runs. by apply keeps_attr. Qed.

End safe.

Create HintDb runs.
#[export] Hint Resolve handleInitialSDPOffer_runs handleSDPOffer_runs handleAnyAnswer_runs response_runs further_answer_runs handleStateNegotiated_runs prepare_resizing_runs : runs.

(** ** Sessions and requests *)

(** The state a session is in after a request that was handled. *)
Definition next_state (st : State) (r : RequestType) : State :=
  match st, r with
  | OFFER_WAITING_AUTHENTICATION, INVITE => ANSWER_REQUIRED_AUTHENTICATION
  | ANSWER_REQUIRED_AUTHENTICATION, INVITE_RESPONSE => NEGOTIATED
  | NEGOTIATED, UPDATE => NEGOTIATED
  | _, _ => if decide (state_transition st r = STATE_INVALID) then st else state_transition st r
  end.

Record session_ok (w : world) : Prop := {
  so_ports : ports_ok (w_ports w);
  so_placed : forall k, used (w_session w) k -> placed_tuple (proxy (w_session w) k)
}.
Lemma ok_keeps w : session_ok w -> keeps (w_session w) w.
Proof. intros []. by constructor. Qed.
Lemma keeps_ok s0 w : keeps s0 w -> session_ok w.
Proof. intros []. by constructor. Qed.

Section handle.
Context {boost : BoostString} {text : BoostText} {asio : AsioAddress}.
Context (binds : nat -> endpoint -> bool) (enableHairpins : bool) (c : call).
Context (Hlocal : interface (packetLocalInterface c)) (Hroute : interface (routeLocalInterface c)).

(** What a handler followed by a change of state leaves. *)
Definition handled (w : world) (m : act unit) : Prop :=
  exists w' r, m w = Val (w', r) /\ session_ok w' /\ monitoredRoute (w_session w') = monitoredRoute (w_session w) /\
    state (w_session w') = match r with inl _ => state (w_session w) | inr _ => next_state (state (w_session w)) (requestType c) end.

Lemma handled_bind s0 w (m : act unit) (g : unit -> act unit) :
  keeps s0 w -> runs s0 m w (fun _ _ => True) -> (forall w, keeps s0 w -> handled w (g tt)) -> handled w (m ≫= g).
Proof.
  intros K (w' & r & E & K' & _) Hg. unfold handled. rewrite (run_bind _ _ _ _ _ E), (ke_route _ _ K), (ke_state _ _ K).
  destruct r as [e|[]].
  - exists w', (inl e). split; [done|]. split; [by eapply keeps_ok|]. by rewrite (ke_route _ _ K'), (ke_state _ _ K').
  - rewrite <- (ke_route _ _ K'), <- (ke_state _ _ K'). by apply Hg.
Qed.

Lemma ok_state w st : session_ok w -> session_ok (w <| w_session := (w_session w) <| state := st |> |>).
Proof. intros []. by constructor. Qed.

(** The last steps of the cases. *)
Lemma entered w st : session_ok w -> next_state (state (w_session w)) (requestType c) = st -> handled w (enter st).
Proof. intros H E. eexists _, (inr tt). split; [done|]. split; [by apply ok_state|]. done. Qed.
Lemma then_entered s0 w m st :
  keeps s0 w -> runs s0 m w (fun _ _ => True) -> next_state (state s0) (requestType c) = st ->
  handled w (m ≫= fun _ : unit => enter st).
Proof.
  intros K R Hst. eapply handled_bind; [done|done|]. intros w1 K1. apply entered; [by eapply keeps_ok|]. by rewrite (ke_state _ _ K1).
Qed.

Lemma unchanged w : session_ok w -> next_state (state (w_session w)) (requestType c) = state (w_session w) -> handled w (mret tt).
Proof. intros H E. exists w, (inr tt). by rewrite E. Qed.

Lemma handled_gets w (f : world -> act unit) : handled w (f w) -> handled w (gets id ≫= f).
Proof. done. Qed.

Lemma handleSDP_handled w : session_ok w -> handled w (handleSDP binds enableHairpins c).
Proof.
  intros H. pose proof (ok_keeps w H) as K. set (s0 := w_session w) in *.
  apply (handled_bind s0); [done|by apply prepare_resizing_runs|]. intros w1 K1. apply handled_gets.
  pose proof (keeps_ok _ _ K1) as H1.
  assert (Hu : next_state (state (w_session w1)) (requestType c) = state (w_session w1) -> handled w1 (mret tt)) by by apply unchanged.
  assert (Ho : forall m st, runs s0 m w1 (fun _ _ => True) -> next_state (state (w_session w1)) (requestType c) = st ->
    handled w1 (m ≫= fun _ : unit => enter st)).
  { intros m st R E. eapply then_entered; [done|done|]. by rewrite <- (ke_state _ _ K1). }
  destruct (state (w_session w1)) eqn:Es, (requestType c) eqn:Er; try by apply Hu.
  all: try (apply Ho; [|done]; by eauto with runs).
  - eapply handled_bind; [exact K1|by eauto with runs|]. intros w2 K2. eexists _, (inr tt). split; [done|].
    split; [apply ok_state; destruct K2; by constructor|]. split; [done|]. cbn. by rewrite (ke_state _ _ K2), <- (ke_state _ _ K1), Es, Er.
  - eapply handled_bind; [exact K1|by eauto with runs|]. intros w2 K2. eexists _, (inr tt). split; [done|].
    split; [destruct K2; by constructor|]. split; [done|]. cbn. by rewrite (ke_state _ _ K2), <- (ke_state _ _ K1), Es, Er.
  - eexists _, (inr tt). split; [done|]. rewrite Es, Er. destruct (lastSDPInAck (w_session w1)); [done|].
    split; [destruct H1; by constructor|done].
Qed.

End handle.
