(* ===== verification/RtpExchange.v ===== *)
(** * The first offer and its answer

    What the descriptions of an offer and of its answer say after they went through
    [handleInitialSDPOffer] and [handleInitialSDPAnswer], and the sockets and destinations
    of the proxies that stand behind them. *)

From S2P Require Import Prelude CoreStrings CMem SdpText SdpHeaders SdpMedia SdpSession SdpMediaFacts SdpCoherence SdpOps SdpSessionFacts SdpStore IpAddress SipXor RtpPacket RtpProxy RtpProxyFacts RtpSession RtpSessionFacts RtpSessionSafe.
Open Scope nat_scope.

(** ** Descriptions that are rewritten one after the other *)

Section drafts.
Context {boost : BoostString} {text : BoostText} {asio : AsioAddress}.
Context (sa addr : str) (Haddr : word addr).

(** The description of a medium shows the address [addr] and the port [po]. *)
Record rewritten (k : kind) (po : Z) (d d' : draft) (p : nat) (m m' : SDPMedia) : Prop := {
  rw_first : first_of d k = Some p;
  rw_before : d_store d !! p = Some m;
  rw_after : d_store d' !! p = Some m';
  rw_address : read_address (hdrs m') = if negb (nonempty sa) || nonempty (read_address (hdrs m)) then addr else read_address (hdrs m);
  rw_port : blackhole sa = false -> read_dataPort (hdrs m') = po \/ short_line (hdrs m)
}.

(** One medium has been worked on; [o] is the port that is now shown. *)
Definition stepped (k : kind) (o : option Z) (d d' : draft) : Prop :=
  match o with
  | None => moved d d' None /\ d_session d' = d_session d /\ d_changed d' = d_changed d
  | Some po => exists p m m', moved d d' (Some p) /\ rewritten k po d d' p m m' /\
      d_session d' = session_line d (nonempty sa) (blackhole sa) addr /\ d_changed d' = (d_changed d || nonempty sa && negb (blackhole sa))
  end.
Inductive steps : list (kind * option Z) -> draft -> draft -> Prop :=
| steps_nil d : steps [] d d
| steps_cons k o l d d1 d2 : stepped k o d d1 -> steps l d1 d2 -> steps ((k, o) :: l) d d2.

Lemma stepped_moved k o d d' : stepped k o d d' -> exists T, moved d d' T /\ (forall q, T = Some q -> first_of d k = Some q /\ o <> None).
Proof.
  destruct o as [po|]; [intros (p & m & m' & M & R & _)|intros [M _]]; eexists; (split; [exact M|]); [|done].
  intros q [= <-]. split; [apply R|done].
Qed.

Lemma moved_first d d' T k : fine d -> moved d d' T -> first_of d' k = first_of d k.
Proof.
  intros [_ Hp] [_ E _ Ty]. unfold first_of, of_type. rewrite E. f_equal. clear E.
  induction Hp as [|q l Hq Hp IH]; [done|]. cbn [List.filter]. rewrite IH.
  destruct (lookup_lt_is_Some_2 _ _ Hq) as [m Em]. destruct (Ty q m Em) as (m' & Em' & Et). unfold type_at. by rewrite Em, Em', Et.
Qed.
Lemma first_inj d k k' p : first_of d k = Some p -> first_of d k' = Some p -> k = k'.
Proof.
  intros H1 H2. apply of_type_typed in H1 as (m & E & T1), H2 as (m' & E' & T2). rewrite E in E'. injection E' as <-.
  apply kind_inj. congruence.
Qed.

(** What a step leaves of the description of another medium, or of one that is not the first. *)
Lemma stepped_rest k o d d' q m :
  stepped k o d d' -> d_store d !! q = Some m -> (o = None \/ first_of d k <> Some q) -> exists m', d_store d' !! q = Some m' /\ quiet m m'.
Proof.
  intros S E H. destruct (stepped_moved _ _ _ _ S) as (T & M & HT). apply (mv_rest _ _ _ M q m E).
  intros ->. destruct (HT q eq_refl) as [H1 H2]. by destruct H.
Qed.

Lemma steps_fine l d d' : fine d -> steps l d d' -> fine d' /\ ptrs d' = ptrs d.
Proof.
  intros Hd S. induction S as [|k o l d d1 d2 S1 S IH]; [done|]. destruct (stepped_moved _ _ _ _ S1) as (T & [F P _ _] & _).
  destruct (IH F) as [F' P']. split; [done|congruence].
Qed.

Lemma steps_rest l d d' q m :
  fine d -> steps l d d' -> d_store d !! q = Some m -> (forall k po, In (k, Some po) l -> first_of d k <> Some q) ->
  exists m', d_store d' !! q = Some m' /\ quiet m m'.
Proof.
  intros Hd S. revert m. induction S as [|k o l d d1 d2 S1 S IH]; intros m E H; [by exists m|].
  destruct (stepped_moved _ _ _ _ S1) as (T & M & _).
  destruct (stepped_rest k o d d1 q m S1 E) as (m1 & E1 & Q1).
  { destruct o as [po|]; [right|by left]. apply (H k po). by left. }
  destruct (IH (mv_fine _ _ _ M) m1 E1) as (m2 & E2 & Q2).
  - intros k' po Hi. rewrite (moved_first d d1 T) by done. apply (H k' po). by right.
  - exists m2. split; [done|]. by transitivity m1.
Qed.

Lemma steps_rewritten l d d' k po :
  fine d -> steps l d d' -> NoDup (map fst l) -> In (k, Some po) l -> exists p m m', rewritten k po d d' p m m'.
Proof.
  intros Hd S. induction S as [|k1 o l d d1 d2 S1 S IH]; intros N H; [done|]. cbn [map fst] in N. apply NoDup_cons in N as [N1 N].
  destruct (stepped_moved _ _ _ _ S1) as (T & M & _). pose proof (mv_fine _ _ _ M) as F1. destruct H as [[= -> ->]|H].
  - destruct S1 as (p & m & m' & _ & [R1 R2 R3 R4 R5] & _). destruct (steps_rest l d1 d2 p m' F1 S R3) as (m2 & E2 & Hh & _).
    + intros k' po' Hi Hf. rewrite (moved_first d d1 T) in Hf by done. assert (k = k') as <- by by eapply first_inj.
      apply N1, list_elem_of_In. by apply (in_map fst) in Hi.
    + exists p, m, m2. constructor; try done; by rewrite Hh.
  - destruct (IH F1 N H) as (p & m & m' & [R1 R2 R3 R4 R5]). rewrite (moved_first d d1 T) in R1 by done.
    destruct (of_type_typed d k p R1) as (m0 & E0 & _). destruct (stepped_rest k1 o d d1 p m0 S1 E0) as (m1 & E1 & Hh & _).
    { right. intros Hf. assert (k1 = k) as <- by by eapply first_inj. apply N1, list_elem_of_In. by apply (in_map fst) in H. }
    rewrite R2 in E1. injection E1 as <-. exists p, m0, m'. unfold short_line in *. rewrite Hh in *. by constructor.
Qed.

(** The address of the session is that shown as soon as one medium shows it, unless the session is on hold. *)
Definition session_address (d : draft) : str := session_getAddress (d_session d).
Definition shows : bool := nonempty sa && negb (blackhole sa).

Lemma stepped_session k o d d' :
  stepped k o d d' -> session_address d = (if d_changed d then addr else sa) ->
  d_changed d' = (d_changed d || is_some o && shows) /\ session_address d' = (if d_changed d' then addr else sa).
Proof.
  unfold shows. intros S E. destruct o as [po|]; cbn [is_some andb].
  2:{ destruct S as (_ & Es & Ec). unfold session_address in *. rewrite Es, Ec, orb_false_r. done. }
  destruct S as (p & m & m' & _ & _ & Es & Ec). split; [done|]. rewrite Ec. unfold session_address in *. rewrite Es. unfold session_line.
  destruct (d_changed d); cbn [negb orb]; [by rewrite andb_false_r|]. rewrite andb_true_r.
  destruct (nonempty sa && negb (blackhole sa)) eqn:En; [|done]. destruct (change_address_reads (d_session d) addr Haddr) as [H|[_ H]]; [done|].
  rewrite E in H. by rewrite H in En.
Qed.

Lemma steps_session l d d' :
  steps l d d' -> session_address d = (if d_changed d then addr else sa) ->
  session_address d' = if d_changed d || existsb (fun x => is_some x.2) l && shows then addr else sa.
Proof.
  intros S. induction S as [|k o l d d1 d2 S1 S IH]; intros E; [by rewrite orb_false_r|].
  destruct (stepped_session _ _ _ _ S1 E) as [Ec E1]. rewrite (IH E1), Ec. cbn [existsb snd].
  by destruct (d_changed d), (is_some o), shows, (existsb _ l).
Qed.

(** The address that a description shows, its own or that of its session. *)
Definition effective (m : SDPMedia) (d : draft) : str :=
  match read_address (hdrs m) with [] => session_address d | (_ :: _) as a => a end.

Lemma steps_effective l d d' k po p m m' :
  steps l d d' -> session_address d = sa -> d_changed d = false -> In (k, Some po) l -> rewritten k po d d' p m m' ->
  blackhole sa = false \/ nonempty (read_address (hdrs m)) = true -> effective m' d' = addr.
Proof.
  intros S Es Ec Hi [_ _ _ Ra _] Hb. unfold effective. rewrite Ra.
  assert (exists x y, addr = x :: y) as (x & y & Ea) by (pose proof (proj1 Haddr); destruct addr; eauto; done).
  destruct (nonempty (read_address (hdrs m))) eqn:En; [rewrite orb_true_r; by rewrite Ea|]. rewrite orb_false_r.
  destruct (nonempty sa) eqn:Esa; cbn [negb]; [|by rewrite Ea].
  destruct (read_address (hdrs m)); [|done]. rewrite (steps_session l d d' S) by (by rewrite Ec). rewrite Ec. cbn [orb].
  unfold shows. rewrite Esa. destruct Hb as [->|]; [|done]. replace (existsb _ l) with true; [done|]. symmetry. apply existsb_exists. by exists (k, Some po).
Qed.

(** A step does not touch the description of another medium. *)
Definition untouched (k : kind) (d d' : draft) : Prop :=
  first_of d' k = first_of d k /\
  forall p m, first_of d k = Some p -> d_store d !! p = Some m -> exists m', d_store d' !! p = Some m' /\ quiet m m'.

(** A description of which no port was read. *)
Definition unread (k : kind) (d : draft) : Prop :=
  forall p m, first_of d k = Some p -> d_store d !! p = Some m -> dataPort m = 0%Z /\ controlPort m = 0%Z.

End drafts.

(** ** Media that are worked on one after the other *)

Abbreviation tuple_of w k := (proxy (w_session w) k).
Definition offers_medium (w : world) (k : kind) : bool := at_kind (hasOffered (w_session w)) k.
Definition negotiated (w : world) (k : kind) : bool := at_kind (isNegotiated (w_session w)) k.

(** Nothing but the proxies and their marks has changed; and nothing of one medium. *)
Definition beside (w w' : world) : Prop :=
  (exists ps os ns, w_session w' = (w_session w) <| proxies := ps |> <| hasOffered := os |> <| isNegotiated := ns |>) /\
  w_sdp w' = w_sdp w /\ w_attr w' = w_attr w /\ same_range (w_ports w) (w_ports w').
Record frame (k : kind) (w w' : world) : Prop := {
  fr_beside : beside w w';
  fr_tuple : tuple_of w' k = tuple_of w k;
  fr_offers : offers_medium w' k = offers_medium w k;
  fr_negotiated : negotiated w' k = negotiated w k
}.
#[export] Instance beside_preorder : PreOrder beside.
Proof.
  split.
  - intros w. split; [|done]. exists (proxies (w_session w)), (hasOffered (w_session w)), (isNegotiated (w_session w)). by destruct (w_session w).
  - intros w1 w2 w3 ((ps & os & ns & E) & S1 & A1 & [B1 M1]) ((ps' & os' & ns' & E') & S2 & A2 & [B2 M2]).
    split; [exists ps', os', ns'; by rewrite E', E|]. split_and!; try congruence. split; congruence.
Qed.
#[export] Instance frame_preorder k : PreOrder (frame k).
Proof. split; [by split|]. intros w1 w2 w3 [] []. split; [by etransitivity|congruence..]. Qed.

Lemma put_frame k k' w w' t o n m :
  w_session w' = (w_session w) <| proxies := put_kind k t (proxies (w_session w)) |> <| hasOffered := put_kind k o (hasOffered (w_session w)) |>
    <| isNegotiated := put_kind k n (isNegotiated (w_session w)) |> ->
  w_sdp w' = w_sdp w -> w_attr w' = w_attr w -> w_ports w' = m -> same_range (w_ports w) m -> beside w w' /\ (k <> k' -> frame k' w w').
Proof.
  intros E E1 E2 <- E3. assert (B : beside w w') by (split; [by eexists _, _, _|done]). split; [done|]. intros Hn.
  split; [done|..]; unfold proxy, offers_medium, negotiated; rewrite E; cbn; by rewrite at_put, decide_False.
Qed.

Lemma kinds_distinct : NoDup [Audio; Video; Fax].
Proof. by apply (bool_decide_unpack _). Qed.
Lemma kinds_all k : k ∈ [Audio; Video; Fax].
Proof. apply (bool_decide_unpack _). by destruct k. Qed.

Section chain.
Context {boost : BoostString} {text : BoostText} {asio : AsioAddress}.
Context (s0 : RTPProxySession) (sa addr : str) (step : kind -> draft -> act draft).
(** What a step needs of the world, what it gives, and the port it shows. *)
Context (Pre : kind -> world -> Prop) (Post : kind -> draft -> world -> world -> Prop) (shows_port : world -> kind -> option Z).
Context (Hpre : forall k w w', frame k w w' -> Pre k w -> Pre k w').
Context (Hport : forall k w w', frame k w w' -> shows_port w' k = shows_port w k).
Context (Hback : forall k d d' w w', untouched k d d' -> Post k d' w w' -> Post k d w w').
Context (Hbefore : forall k d w w1 w', frame k w w1 -> Post k d w1 w' -> Post k d w w').
Context (Hafter : forall k d w w1 w', frame k w1 w' -> Post k d w w1 -> Post k d w w').
Context (Hstep : forall k d w, fine d -> keeps s0 w -> unread k d -> Pre k w ->
  exists w' r, step k d w = Val (w', r) /\ keeps s0 w' /\ beside w w' /\ (forall k', k <> k' -> frame k' w w') /\
    match r with inl _ => True | inr d' => stepped sa addr k (shows_port w' k) d d' /\ Post k d w w' end).

Lemma stepped_untouched k k' o d d' : fine d -> stepped sa addr k o d d' -> k <> k' -> untouched k' d d'.
Proof.
  intros Hd S Hn. destruct (stepped_moved _ _ _ _ _ _ S) as (T & M & _). split; [exact (moved_first _ _ _ _ Hd M)|].
  intros p m Hf E. eapply stepped_rest; [exact S|exact E|]. right. intros Hk. by apply Hn, (first_inj d k k' p).
Qed.
Lemma unread_forward k d d' : untouched k d d' -> unread k d -> unread k d'.
Proof.
  intros [Hf Hq] H p m E1 E2. rewrite Hf in E1. destruct (of_type_typed d k p E1) as (m1 & Em & _).
  destruct (Hq p m1 E1 Em) as (m' & E' & _ & D & C). rewrite E2 in E'. injection E' as <-. rewrite D, C. by apply (H p).
Qed.

Fixpoint chain (ks : list kind) (d : draft) : act draft :=
  match ks with
  | [] => mret d
  | k :: ks => d ← step k d; chain ks d
  end.
Lemma chain_three {B} d (f : draft -> act B) w :
  (d ← step Audio d; d ← step Video d; d ← step Fax d; f d) w = (chain [Audio; Video; Fax] d ≫= f) w.
Proof.
  cbn [chain]. unfold mbind, act_bind. destruct (step Audio d w) as [[w1 [e|d1]]| | |]; cbn; try done.
  destruct (step Video d1 w1) as [[w2 [e|d2]]| | |]; cbn; try done. by destruct (step Fax d2 w2) as [[w3 [e|d3]]| | |].
Qed.

Lemma chain_run ks d w :
  NoDup ks -> fine d -> keeps s0 w -> (forall k, k ∈ ks -> unread k d /\ Pre k w) ->
  exists w' r, chain ks d w = Val (w', r) /\ keeps s0 w' /\ beside w w' /\ (forall k, k ∉ ks -> frame k w w') /\
    match r with
    | inl _ => True
    | inr d' => steps sa addr (map (fun k => (k, shows_port w' k)) ks) d d' /\ forall k, k ∈ ks -> Post k d w w'
    end.
Proof.
  intros N. revert d w. induction N as [|k ks Hk N IH]; intros d w Hd K Hu.
  { exists w, (inr d). split; [done|]. split; [done|]. split; [done|]. split; [done|]. split; [constructor|]. by intros k ?%elem_of_nil. }
  cbn [chain]. destruct (Hu k) as [Uk Pk]; [by left|].
  destruct (Hstep k d w Hd K Uk Pk) as (w1 & r & E & K1 & B1 & F1 & H). rewrite (run_bind _ _ _ _ _ E).
  destruct r as [e|d1].
  { exists w1, (inl e). split_and!; try done. intros k' Hk'. apply F1. intros ->. apply Hk'. by left. }
  destruct H as [S1 P1]. pose proof (stepped_moved _ _ _ _ _ _ S1) as (T & M & _). pose proof (mv_fine _ _ _ M) as Hd1.
  assert (U1 : forall k', k' ∈ ks -> untouched k' d d1) by (intros k' Hk'; eapply stepped_untouched; [done|exact S1|congruence]).
  destruct (IH d1 w1 Hd1 K1) as (w2 & r & E' & K2 & B2 & F2 & H).
  { intros k' Hk'. destruct (Hu k') as [Uk' Pk']; [by right|]. split; [eapply unread_forward; [by apply U1|done]|].
    eapply Hpre; [apply F1; congruence|done]. }
  rewrite E'. exists w2, r. split; [done|]. split; [done|]. split; [by transitivity w1|]. split.
  { intros k' [Hn Hk']%not_elem_of_cons. transitivity w1; [by apply F1|by apply F2]. }
  destruct r as [|d2]; [done|]. destruct H as [S2 P2]. split.
  - cbn [map]. econstructor; [|exact S2]. by rewrite (Hport k w1 w2) by by apply F2.
  - intros k' [-> | Hk']%elem_of_cons; [eapply Hafter; [by apply F2|done]|]. eapply Hbefore; [apply F1; congruence|].
    eapply Hback; [by apply U1|]. by apply P2.
Qed.

End chain.

(** ** The offer *)

Section offer.
Context {boost : BoostString} {text : BoostText} {asio : AsioAddress}.
Context (binds : nat -> endpoint -> bool) (enableHairpins : bool) (c : call).
Context (Hlocal : interface (packetLocalInterface c)) (Hroute : interface (routeLocalInterface c)).
Context (s0 : RTPProxySession) (force : bool) (sa : str).

(** What is shown of an interface. *)
Definition shown_of (a : IPAddress) : str := shown_text (ip a) (externalAddress a).
Lemma interface_word a : interface a -> word (shown_of a).
Proof. intros [H1 H2]. apply (shown_text_word _ 1). split; [done|]. split; [lia|done]. Qed.

Lemma opened_shown m t : opened c m t -> placed_tuple t ->
  shown (getLeg2Address (data t)) = shown_of (routeLocalInterface c) /\ shown (getLeg1Address (data t)) = shown_of (packetLocalInterface c).
Proof.
  intros (p1 & p2 & _ & _ & _ & [] & _) [Pd _]. rewrite shown_leg1, shown_leg2 by done. unfold shown_of.
  by rewrite li_local1, li_local2, li_external1, li_external2.
Qed.
Lemma opened_range m m' t : same_range m m' -> opened c m' t -> opened c m t.
Proof. intros [E1 E2] (p1 & p2 & H). exists p1, p2. by rewrite E1, E2 in H. Qed.

(** The proxy of a medium that was offered. *)
Record at_offer (m0 : ports) (k : kind) (d : draft) (t : RTPProxyTuple) (p : nat) (m : SDPMedia) (a : IPAddress) : Prop := {
  ao_first : first_of d k = Some p;
  ao_before : d_store d !! p = Some m;
  ao_source : address_of (hdrs m) sa = Some a;
  ao_data : senderEndPointLeg1 (data t) = (offered_to c a, read_dataPort (hdrs m));
  ao_control : senderEndPointLeg1 (control t) = (offered_to c a, read_control (hdrs m));
  ao_opened : opened c m0 t;
  ao_placed : placed_tuple t
}.
(** It is there for a medium that was offered; for another there is a reason. *)
Definition offer_of (k : kind) (d : draft) (w w' : world) : Prop :=
  (if offers_medium w' k then exists p m a, at_offer (w_ports w) k d (tuple_of w' k) p m a
   else unoffered binds enableHairpins c k force (allowHairPin (w_attr w)) sa d) /\
  (calm_tuple (tuple_of w k) -> calm_tuple (tuple_of w' k)).

Lemma at_offer_back m0 k d d' t p m a :
  untouched k d d' -> at_offer m0 k d' t p m a -> exists m, at_offer m0 k d t p m a.
Proof.
  intros [Hf Hq] [A1 A2 A3 A4 A5 A6 A7]. rewrite Hf in A1. destruct (of_type_typed d k p A1) as (m1 & E1 & _).
  destruct (Hq p m1 A1 E1) as (m' & E' & Hh & _). rewrite A2 in E'. injection E' as <-. rewrite Hh in A3, A4, A5.
  exists m1. by constructor.
Qed.
Lemma unoffered_back k allow d d' :
  untouched k d d' -> unoffered binds enableHairpins c k force allow sa d' -> unoffered binds enableHairpins c k force allow sa d.
Proof.
  intros [Hf Hq] [H|[(p & m & a & A1 & A2 & A3 & A4)|H]]; [left; congruence| |by right; right].
  right; left. rewrite Hf in A1. destruct (of_type_typed d k p A1) as (m1 & E1 & _).
  destruct (Hq p m1 A1 E1) as (m' & E' & Hh & _). rewrite A2 in E'. injection E' as <-. rewrite Hh in A3. by exists p, m1, a.
Qed.

Lemma offer_of_back k d d' w w' : untouched k d d' -> offer_of k d' w w' -> offer_of k d w w'.
Proof.
  intros U [H C]. split; [|done]. destruct (offers_medium w' k); [|by eapply unoffered_back]. destruct H as (p & x & a & H).
  destruct (at_offer_back _ _ _ _ _ _ _ _ U H) as [m1 H1]. by exists p, m1, a.
Qed.
Lemma offer_of_before k d w w1 w' : frame k w w1 -> offer_of k d w1 w' -> offer_of k d w w'.
Proof.
  intros [(_ & _ & Ea & Er) Et _ _] [H C]. rewrite Et, Ea in *. split; [|done]. destruct (offers_medium w' k); [|done].
  destruct H as (p & x & a & []). exists p, x, a. constructor; try done. by eapply opened_range.
Qed.
Lemma offer_of_after k d w w1 w' : frame k w1 w' -> offer_of k d w w1 -> offer_of k d w w'.
Proof. intros [_ Et Eo _]. unfold offer_of. by rewrite Et, Eo. Qed.

(** The port that is shown for a medium. *)
Definition offered_port (w : world) (k : kind) : option Z :=
  if offers_medium w k then Some (localEndPointLeg2 (data (tuple_of w k))).2 else None.
Lemma offered_port_frame k w w' : frame k w w' -> offered_port w' k = offered_port w k.
Proof. intros [_ Et Eo _]. unfold offered_port. by rewrite Et, Eo. Qed.

(** One medium, as a step on its description. *)
Lemma offer_step k d w :
  fine d -> keeps s0 w -> unread k d -> offers_medium w k = false ->
  exists w' r, initial_offer_media binds enableHairpins c k force sa d w = Val (w', r) /\ keeps s0 w' /\
    beside w w' /\ (forall k', k <> k' -> frame k' w w') /\
    match r with
    | inl _ => True
    | inr d' => stepped sa (shown_of (routeLocalInterface c)) k (offered_port w' k) d d' /\ offer_of k d w w'
    end.
Proof.
  intros Hd K Hu Hn. destruct (initial_offer_media_run binds enableHairpins c Hlocal Hroute s0 k force sa d w Hd K)
    as (w' & r & E & K' & E1 & E2 & E3 & (t & b & E4) & E5 & H). exists w', r. split; [done|]. split; [done|].
  assert (Hf : forall k', beside w w' /\ (k <> k' -> frame k' w w')).
  { intros k'. eapply (put_frame k k' w w' t b (negotiated w k)); try done. rewrite E4. unfold negotiated. cbn.
    rewrite put_at. by destruct (w_session w). }
  split; [exact (proj1 (Hf k))|]. split; [exact (fun k' => proj2 (Hf k'))|]. destruct r as [|d']; [done|].
  unfold offered_port, offer_of, offers_medium in *. destruct H as [(Ho & M & Es & Ec & U)|(Ho & p & m & m' & a & M & O & Op & Pl)]; rewrite Ho, ?Hn.
  - by split.
  - destruct O as [O1 O2 O3 O4 O5 O6 O7 O8 O9]. destruct (opened_shown _ _ Op Pl) as [Sh _]. rewrite Sh in *. split; [|split; [|done]].
    + exists p, m, m'. split; [done|]. split; [by constructor|]. by split.
    + exists p, m, a. destruct (Hu p m O1 O2) as [D0 C0]. destruct (O9 D0 C0) as [F1 F2]. by constructor.
Qed.

Lemma offers_run d w :
  fine d -> keeps s0 w -> (forall k, unread k d /\ offers_medium w k = false) ->
  exists w' r, chain (fun k d => initial_offer_media binds enableHairpins c k force sa d) [Audio; Video; Fax] d w = Val (w', r) /\
    keeps s0 w' /\ beside w w' /\
    match r with
    | inl _ => True
    | inr d' => steps sa (shown_of (routeLocalInterface c)) (map (fun k => (k, offered_port w' k)) [Audio; Video; Fax]) d d' /\
        forall k, offer_of k d w w'
    end.
Proof.
  intros Hd K Hu.
  destruct (chain_run s0 sa (shown_of (routeLocalInterface c)) (fun k d => initial_offer_media binds enableHairpins c k force sa d)
    (fun k w => offers_medium w k = false) offer_of offered_port) with (ks := [Audio; Video; Fax]) (d := d) (w := w)
    as (w' & r & E & K' & B & _ & H); try done.
  - intros k w1 w2 F. by rewrite (fr_offers _ _ _ F).
  - apply offered_port_frame.
  - apply offer_of_back.
  - apply offer_of_before.
  - apply offer_of_after.
  - apply offer_step.
  - apply kinds_distinct.
  - exists w', r. split_and!; try done. destruct r as [|d']; [done|]. destruct H as [H1 H2]. split; [done|].
    intros k. apply H2, kinds_all.
Qed.

End offer.

(** ** The handler of the first offer *)

Section first_offer.
Context {boost : BoostString} {text : BoostText} {asio : AsioAddress}.
Context (binds : nat -> endpoint -> bool) (enableHairpins : bool) (c : call).
Context (Hlocal : interface (packetLocalInterface c)) (Hroute : interface (routeLocalInterface c)).
Context (s0 : RTPProxySession).

Lemma origin_run s w : exists r, origin s w = Val (w, r).
Proof. unfold origin. repeat case_match; by eexists. Qed.
Lemma publish_run d w :
  fine d -> exists t, publish d w = Val (w <| w_sdp := t |>, inr (any_kind (hasOffered (w_session w)))) /\
    (if any_kind (hasOffered (w_session w)) then session_toString (d_store d) (d_session d) = Val t else t = w_sdp w).
Proof.
  intros Hd. unfold publish. rewrite run_gets. cbn [id]. destruct (any_kind _).
  - destruct (toString_run (d_store d) (d_session d)) as [t Et]; [apply Hd|]. rewrite (run_lift _ _ _ _ Et), run_modify. by exists t.
  - exists (w_sdp w). by destruct w.
Qed.

Lemma parsed_unread sdp d k :
  parse_sdp sdp = Val d -> unread k d /\ fine d /\ d_changed d = false.
Proof.
  intros E. destruct (parse_sdp_run sdp) as (d' & E' & F & P & Ch). rewrite E in E'. injection E' as <-. split; [|done].
  intros p m _ Em. by eapply Forall_lookup_1 in P.
Qed.

(** The text after the handler, and what was offered in it. *)
Record offer_made (w w' : world) (d0 d : draft) : Prop := {
  om_parsed : parse_sdp (w_sdp w) = Val d0;
  om_steps : steps (session_address d0) (shown_of (routeLocalInterface c)) (map (fun k => (k, offered_port w' k)) [Audio; Video; Fax]) d0 d;
  om_text : if any_kind (hasOffered (w_session w')) then session_toString (d_store d) (d_session d) = Val (w_sdp w') else w_sdp w' = w_sdp w;
  om_offer : forall k, offer_of binds enableHairpins c (forceCreate (w_attr w) || forcePEAEncryption (w_attr w)) (session_address d0) k d0 w w';
  om_expecting : isExpectingInitialAnswer (w_session w') = true;
  om_samples : resizerSamplesLeg1 (w_session w') = resizerSamplesLeg1 (w_session w) /\ resizerSamplesLeg2 (w_session w') = resizerSamplesLeg2 (w_session w);
  om_attr : w_attr w' = w_attr w
}.

Lemma forgotten w :
  keeps s0 w -> let w0 := w <| w_session := forget_offer (w_session w) |> in keeps s0 w0 /\
    w_sdp w0 = w_sdp w /\ w_attr w0 = w_attr w /\ w_ports w0 = w_ports w /\ isExpectingInitialAnswer (w_session w0) = true /\
    resizerSamplesLeg1 (w_session w0) = resizerSamplesLeg1 (w_session w) /\ resizerSamplesLeg2 (w_session w0) = resizerSamplesLeg2 (w_session w) /\
    forall k, offers_medium w0 k = false /\ tuple_of w0 k = tuple_of w k.
Proof. intros K w0. split; [by apply cleared|]. split_and!; try done. by intros []. Qed.
Lemma keeps_noted w i a :
  keeps s0 w -> keeps s0 (w <| w_session := note_leg1 i a (w_session w) |>) /\ keeps s0 (w <| w_session := note_leg2 i a (w_session w) |>).
Proof. intros K. split; by apply keeps_other. Qed.

Lemma first_offer_run w :
  keeps s0 w -> exists w' r, handleInitialSDPOffer binds enableHairpins c w = Val (w', r) /\ keeps s0 w' /\
    match r with inl _ => True | inr _ => exists d0 d, offer_made w w' d0 d end.
Proof.
  intros K. unfold handleInitialSDPOffer, initial_offer_audio, initial_offer_video, initial_offer_fax, modify_session. rewrite run_modify. set (w0 := w <| w_session := _ |>).
  destruct (forgotten w K) as [K0 W0]. fold w0 in K0, W0.
  clearbody w0. destruct W0 as (W1 & W2 & W3 & W4 & W6 & W7 & W5). rewrite run_gets. cbn [id]. cbn zeta.
  destruct (parse_sdp_run (w_sdp w0)) as (d0 & E & F0 & _).
  rewrite (run_lift _ _ _ _ E). destruct (origin_run (d_session d0) w0) as [r Er]. rewrite (run_bind _ _ _ _ _ Er).
  destruct r as [e|[i a]]; [by exists w0, (inl e)|]. rewrite run_modify. set (w1 := w0 <| w_session := _ |>).
  destruct (keeps_noted w0 i a K0) as [K1 _]. fold w1 in K1. fold (session_address d0).
  rewrite (chain_three (fun k d => initial_offer_media binds enableHairpins c k _ _ d)).
  destruct (offers_run binds enableHairpins c Hlocal Hroute s0 (forceCreate (w_attr w0) || forcePEAEncryption (w_attr w0)) (session_address d0) d0 w1 F0 K1)
    as (w2 & r & E2 & K2 & B2 & H).
  { intros k. split; [by apply (parsed_unread (w_sdp w0))|]. apply W5. }
  rewrite (run_bind _ _ _ _ _ E2). destruct r as [e|d]; [by exists w2, (inl e)|]. destruct H as [S Of].
  assert (Fd : fine d) by (by eapply steps_fine). destruct (publish_run d w2 Fd) as (t & Ep & Et). rewrite (run_bind _ _ _ _ _ Ep).
  eexists _, (inr tt). split; [done|]. split; [by apply keeps_sdp|]. exists d0, d.
  destruct B2 as ((ps & os & ns & Es) & Esd & Ea & _). constructor.
  - by rewrite <- W1.
  - done.
  - change (hasOffered (w_session (w2 <| w_sdp := t |>))) with (hasOffered (w_session w2)). destruct (any_kind _); [done|].
    cbn. rewrite Et, Esd. exact W1.
  - intros k. destruct (Of k) as [Ok Ck]. unfold offer_of in *. rewrite <- W2, <- W3. split; [done|]. destruct (W5 k) as [_ <-]. done.
  - cbn. by rewrite Es.
  - cbn. rewrite Es. by split.
  - cbn. rewrite Ea. exact W2.
Qed.

End first_offer.
