(* ===== verification/RtpAnswer.v ===== *)
(** * The answer to the first offer

    What [handleInitialSDPAnswer] makes of the proxies that were offered and of the
    description of the answer; and the path of the media after an offer and its answer. *)

From S2P Require Import Prelude CoreStrings CMem SdpText SdpHeaders SdpMedia SdpSession SdpMediaFacts SdpCoherence SdpOps SdpSessionFacts SdpStore IpAddress SipXor RtpPacket RtpProxy RtpProxyFacts RtpSession RtpSessionFacts RtpSessionSafe RtpExchange.
Open Scope nat_scope.

(** ** The answer *)

Section answer.
Context {boost : BoostString} {text : BoostText} {asio : AsioAddress}.
Context (s0 : RTPProxySession) (sa addr : str).

(** The proxy of a medium that was answered: started, with the destination of its second leg. *)
Definition answered_tuple (w : world) (k : kind) (hs : list SDPHeader) : RTPProxyTuple :=
  let a := ip (default default_ip (address_of hs sa)) in
  set_xor2 (forcePEAEncryption (w_attr w)) (set_leg2 (a, read_dataPort hs) (a, read_control hs) (tuple_of w k)).
Definition answer_of (k : kind) (d : draft) (w w' : world) : Prop :=
  offers_medium w' k = offers_medium w k /\
  if offers_medium w k then
    match first_of d k with
    | None => negotiated w' k = false /\ tuple_of w' k = tuple_stop (tuple_of w k)
    | Some p => exists m, d_store d !! p = Some m /\ negotiated w' k = true /\ tuple_start (answered_tuple w k (hdrs m)) = (true, tuple_of w' k)
    end
  else tuple_of w' k = tuple_of w k /\ negotiated w' k = negotiated w k.

Lemma answer_of_back k d d' w w' : untouched k d d' -> answer_of k d' w w' -> answer_of k d w w'.
Proof.
  intros [Hf Hq] [E H]. split; [done|]. rewrite Hf in H. destruct (offers_medium w k); [|done]. destruct (first_of d k) as [p|] eqn:E1; [|done].
  destruct H as (m & Em & H). destruct (of_type_typed d k p E1) as (m1 & Em1 & _). destruct (Hq p m1 eq_refl Em1) as (m' & Em' & Hh & _).
  rewrite Em in Em'. injection Em' as <-. exists m1. split; [done|]. by rewrite Hh in H.
Qed.
Lemma answer_of_before k d w w1 w' : frame k w w1 -> answer_of k d w1 w' -> answer_of k d w w'.
Proof. intros [(_ & _ & Ea & _) Et Eo En]. unfold answer_of, answered_tuple. by rewrite Et, Eo, En, Ea. Qed.
Lemma answer_of_after k d w w1 w' : frame k w1 w' -> answer_of k d w w1 -> answer_of k d w w'.
Proof. intros [_ Et Eo En]. unfold answer_of. by rewrite Et, Eo, En. Qed.

Definition answered_port (w : world) (k : kind) : option Z :=
  if offers_medium w k && negotiated w k then Some (localEndPointLeg1 (data (tuple_of w k))).2 else None.
Lemma answered_port_frame k w w' : frame k w w' -> answered_port w' k = answered_port w k.
Proof. intros [_ Et Eo En]. unfold answered_port. by rewrite Et, Eo, En. Qed.

(** The address that is shown to the one who offered. *)
Definition shows_offerer (k : kind) (w : world) : Prop := offers_medium w k = true -> shown (getLeg1Address (data (tuple_of w k))) = addr.

Lemma start_local p p' : start p = Some p' ->
  localEndPointLeg1 p' = localEndPointLeg1 p /\ localEndPointLeg1External p' = localEndPointLeg1External p.
Proof. unfold start. destruct (_ || _); [done|]. by destruct (isStarted p); intros [= <-]. Qed.
Lemma tuple_start_local t t' : tuple_start t = (true, t') ->
  localEndPointLeg1 (data t') = localEndPointLeg1 (data t) /\ getLeg1Address (data t') = getLeg1Address (data t).
Proof.
  unfold tuple_start. destruct (start (data t)) as [d|] eqn:Ed; [|done]. destruct (start (control t)); [|done]. intros [= <-].
  destruct (start_local _ _ Ed) as [E1 E2]. cbn. unfold getLeg1Address. by rewrite E1, E2.
Qed.
Lemma answered_local w k hs : getLeg1Address (data (answered_tuple w k hs)) = getLeg1Address (data (tuple_of w k)).
Proof. done. Qed.

(** What is read of the description before it is rewritten. *)
Lemma media_read d k :
  fine d -> unread k d ->
  exists d1 r, get_media d k = Val (d1, r) /\ r = first_of d k /\ stepped sa addr k None d d1 /\
    forall p, r = Some p -> exists m d2 d3 m3, d_store d !! p = Some m /\ read_type (hdrs m) = media_type k /\
      media_address d1 p sa = Val (d2, nonempty (read_address (hdrs m)), address_of (hdrs m) sa) /\
      media_ports d2 p = Val (d3, read_dataPort (hdrs m), read_control (hdrs m)) /\
      d_store d3 !! p = Some m3 /\ tidy m3 /\ hdrs m3 = hdrs m /\ moved d d3 (Some p) /\
      d_session d3 = d_session d /\ d_changed d3 = d_changed d.
Proof.
  intros Hd Hu. destruct (get_media_run d k Hd) as (st & r & E & Ht & Ha & Hq & Er). fold (first_of d k) in Er.
  pose proof (moved_quiet d st Hd Ht Hq) as M1. eexists _, r. split; [exact E|]. split; [done|]. split; [by split|].
  intros p ->. destruct (of_type_typed d k p (eq_sym Er)) as (m & Em & Hty). destruct (Hu p m (eq_sym Er) Em) as [D0 C0].
  destruct (quiet_at _ _ _ _ Hq Em) as (m1 & Em1 & H1 & D1 & C1).
  destruct (media_address_run (mkDraft st (d_session d) (d_changed d)) p m1 sa Ht Em1) as (m2 & E2 & T2 & H2 & D2 & C2). rewrite H1 in E2.
  set (d2 := mkDraft (<[p := m2]> st) (d_session d) (d_changed d)) in *.
  assert (Em2 : d_store d2 !! p = Some m2) by (cbn; apply list_lookup_insert_eq; by eapply lookup_lt_Some).
  destruct (media_ports_run d2 p m2 Em2 T2) as (dp & cp & m3 & E3 & T3 & H3 & P3).
  destruct P3 as [-> ->]; [congruence..|]. rewrite H2, H1 in E3. exists m, d2. eexists. exists m3.
  split; [done|]. split; [done|]. split; [exact E2|]. split; [exact E3|].
  split; [apply list_lookup_insert_eq; by eapply lookup_lt_Some|]. split; [done|]. split; [congruence|]. split; [|done].
  assert (M2 : moved d d2 None).
  { apply moved_quiet; [done|by apply Forall_insert|]. eapply quiet_trans; [exact Hq|]. by apply (quiet_insert st p m1). }
  apply (moved_at d d2 p m); [done|done|done|congruence|done].
Qed.

(** The description is rewritten after it was read. *)
Lemma present_stepped k d d3 p m m3 da ca :
  first_of d k = Some p -> d_store d !! p = Some m -> read_type (hdrs m) = media_type k ->
  d_store d3 !! p = Some m3 -> tidy m3 -> hdrs m3 = hdrs m -> moved d d3 (Some p) -> d_session d3 = d_session d -> d_changed d3 = d_changed d ->
  word (shown da) -> (0 <= port da < 2 ^ 16)%Z -> (1 <= port ca)%Z -> shown da = addr ->
  exists d', present d3 p (nonempty sa) (blackhole sa) (nonempty (read_address (hdrs m))) da ca = Val d' /\ stepped sa addr k (Some (port da)) d d'.
Proof.
  intros Hf Em Hty Em3 T3 H3 M Es Ec W P1 P2 <-.
  destruct (present_run d3 p m3 k (nonempty sa) (blackhole sa) (nonempty (read_address (hdrs m))) da ca Em3 T3) as (m4 & E4 & T4 & Y4 & A4 & O4);
    [congruence|done..|]. eexists. split; [exact E4|]. exists p, m, m4. unfold session_line, short_line in *. rewrite H3, ?Es, ?Ec in *. split; [|split; [|done]].
  - destruct M as [[Ht Hp] Mp Mr My]. split; cbn [d_store d_session d_changed].
    + split; cbn; [by apply Forall_insert|]. rewrite length_insert, <- Es. by destruct (_ && _ && _).
    + rewrite <- Mp, Es. by destruct (_ && _ && _).
    + intros q x Ex Hn. rewrite list_lookup_insert_ne by congruence. by apply Mr.
    + intros q x Ex. destruct (decide (p = q)) as [<-|Hne]; [|rewrite list_lookup_insert_ne by done; by apply My].
      rewrite list_lookup_insert_eq by by eapply lookup_lt_Some. exists m4. split; [done|congruence].
  - constructor; try done. apply list_lookup_insert_eq. by eapply lookup_lt_Some.
Qed.

Lemma answered_put w k t n :
  let w' := w <| w_session := put_negotiated k n (put_proxy k t (w_session w)) |> in
  beside w w' /\ (forall k', k <> k' -> frame k' w w') /\ offers_medium w' k = offers_medium w k /\ tuple_of w' k = t /\ negotiated w' k = n.
Proof.
  intros w'. assert (H : forall k', beside w w' /\ (k <> k' -> frame k' w w')).
  { intros k'. eapply (put_frame k k' w w' t (offers_medium w k) n); try done. subst w'. unfold offers_medium, put_negotiated, put_proxy. cbn.
    rewrite put_at. by destruct (w_session w). }
  split; [exact (proj1 (H k))|]. split; [exact (fun k' => proj2 (H k'))|]. unfold offers_medium, negotiated, proxy. cbn. by rewrite !at_put_eq.
Qed.

Lemma answer_step k d w :
  fine d -> keeps s0 w -> unread k d -> shows_offerer k w ->
  exists w' r, initial_answer_media k sa d w = Val (w', r) /\ keeps s0 w' /\ beside w w' /\ (forall k', k <> k' -> frame k' w w') /\
    match r with inl _ => True | inr d' => stepped sa addr k (answered_port w' k) d d' /\ answer_of k d w w' end.
Proof.
  intros Hd K Hu Hs. unfold initial_answer_media. rewrite run_gets. cbn [id]. unfold answered_port, answer_of.
  change (at_kind (hasOffered (w_session w)) k) with (offers_medium w k). destruct (offers_medium w k) eqn:Eo.
  2:{ exists w, (inr d). split; [done|]. split; [done|]. split; [done|]. split; [done|]. rewrite Eo. split; [|done]. by split; [apply moved_self|]. }
  specialize (Hs Eo). assert (Pl : placed_tuple (tuple_of w k)) by (apply (ke_placed _ _ K); by left).
  destruct (media_read d k Hd Hu) as (d1 & r & E1 & Er & S1 & Hr). rewrite (run_lift _ _ _ _ E1). rewrite <- Er. destruct r as [p|].
  2:{ unfold modify_session. rewrite run_modify. eexists _, (inr d1). split; [done|]. split; [by apply keeps_proxy_negotiated, placed_stop|].
      destruct (answered_put w k (tuple_stop (tuple_of w k)) false) as (B & F & O & T & N). rewrite O, T, N, Eo. by split_and!. }
  destruct (Hr p eq_refl) as (m & d2 & d3 & m3 & Em & Hty & E2 & E3 & Em3 & T3 & H3 & M3 & Es3 & Ec3).
  rewrite (run_lift _ _ _ _ E2), (run_lift _ _ _ _ E3). cbv beta iota zeta. fold (answered_tuple w k (hdrs m)).
  assert (Pt : placed_tuple (tuple_start (answered_tuple w k (hdrs m))).2) by (by apply placed_start, placed_set_xor2, placed_set_leg2).
  destruct (tuple_start (answered_tuple w k (hdrs m))) as [b t] eqn:Et. cbn [snd] in Pt. unfold modify_session. rewrite run_modify.
  destruct (answered_put w k t true) as (B & F & O & T & N). set (w' := w <| w_session := _ |>) in *.
  assert (K' : keeps s0 w') by by apply keeps_proxy_negotiated. clearbody w'. destruct b; [|by exists w', (inl (RTPProxyException #"Socket is NULL while calling RTPProxy::start"))].
  destruct (presents1 t Pt) as (W & P1 & P2). destruct (tuple_start_local _ _ Et) as [L1 L2].
  destruct (present_stepped k d d3 p m m3 (getLeg1Address (data t)) (getLeg1Address (control t))) as (d4 & E4 & S4); try done.
  { by rewrite L2. }
  unfold lift. rewrite E4, val_bind. exists w', (inr d4). do 4 (split; [done|]). rewrite O, T, N, Eo. split; [done|]. split; [done|].
  by exists m.
Qed.

End answer.

(** ** The handler of the answer *)

Section first_answer.
Context {boost : BoostString} {text : BoostText} {asio : AsioAddress}.
Context (s0 : RTPProxySession) (addr : str).

Lemma answers_run sa d w :
  fine d -> keeps s0 w -> (forall k, unread k d /\ shows_offerer addr k w) ->
  exists w' r, chain (fun k d => initial_answer_media k sa d) [Audio; Video; Fax] d w = Val (w', r) /\ keeps s0 w' /\ beside w w' /\
    match r with
    | inl _ => True
    | inr d' => steps sa addr (map (fun k => (k, answered_port w' k)) [Audio; Video; Fax]) d d' /\ forall k, answer_of sa k d w w'
    end.
Proof.
  intros Hd K Hu.
  destruct (chain_run s0 sa addr (fun k d => initial_answer_media k sa d) (shows_offerer addr) (answer_of sa) answered_port)
    with (ks := [Audio; Video; Fax]) (d := d) (w := w) as (w' & r & E & K' & B & _ & H); try done.
  - intros k w1 w2 F H Ho. rewrite (fr_tuple _ _ _ F). apply H. by rewrite <- (fr_offers _ _ _ F).
  - apply answered_port_frame.
  - apply answer_of_back.
  - apply answer_of_before.
  - apply answer_of_after.
  - apply answer_step.
  - apply kinds_distinct.
  - exists w', r. split_and!; try done. destruct r as [|d']; [done|]. destruct H as [H1 H2]. split; [done|].
    intros k. apply H2, kinds_all.
Qed.

Record answer_made (w w' : world) (d0 d : draft) : Prop := {
  am_parsed : parse_sdp (w_sdp w) = Val d0;
  am_steps : steps (session_address d0) addr (map (fun k => (k, answered_port w' k)) [Audio; Video; Fax]) d0 d;
  am_text : if any_kind (hasOffered (w_session w')) then session_toString (d_store d) (d_session d) = Val (w_sdp w') else w_sdp w' = w_sdp w;
  am_answer : forall k, offers_medium w k = true -> answer_of (session_address d0) k d0 w w'
}.

(** The world in which the descriptions are read. *)
Lemma answering w i a :
  keeps s0 w -> let w1 := w <| w_session := note_leg2 i a ((w_session w) <| isExpectingInitialAnswer := false |>) |> in
  keeps s0 w1 /\ w_sdp w1 = w_sdp w /\ w_attr w1 = w_attr w /\
  forall k, offers_medium w1 k = offers_medium w k /\ tuple_of w1 k = tuple_of w k.
Proof. intros K w1. split; [by apply keeps_other|done]. Qed.

Lemma offered_any w k : offers_medium w k = true -> any_kind (hasOffered (w_session w)) = true.
Proof. unfold offers_medium, any_kind. destruct k; cbn; intros ->; by rewrite ?orb_true_r. Qed.

Lemma first_answer_run w :
  keeps s0 w -> isExpectingInitialAnswer (w_session w) = true -> (forall k, shows_offerer addr k w) ->
  exists w' r, handleInitialSDPAnswer w = Val (w', r) /\ keeps s0 w' /\ match r with
    | inl _ => True
    | inr _ => (exists d0 d, answer_made w w' d0 d) /\ (any_kind (hasOffered (w_session w')) = true -> w_saved w' = Some (w_session w'))
    end.
Proof.
  intros K Ex Hs. unfold handleInitialSDPAnswer, initial_answer_audio, initial_answer_video, initial_answer_fax. rewrite run_gets. cbn [id]. rewrite Ex. cbn [negb]. unfold modify_session. rewrite run_modify.
  destruct (parse_sdp_run (w_sdp w)) as (d0 & E & F0 & _). rewrite (run_lift _ _ _ _ E). cbn zeta. set (w0 := w <| w_session := _ |>).
  assert (K0 : keeps s0 w0) by by apply keeps_other.
  destruct (origin_run (d_session d0) w0) as [r Er]. rewrite (run_bind _ _ _ _ _ Er). destruct r as [e|[i a]]; [by exists w0, (inl e)|]. rewrite run_modify.
  destruct (answering w i a K) as (K1 & W1 & W2 & W5). change (w0 <| w_session := _ |>) with (w <| w_session := note_leg2 i a ((w_session w) <| isExpectingInitialAnswer := false |>) |>).
  set (w1 := w <| w_session := note_leg2 _ _ _ |>) in *. clearbody w1. clear w0 K0 Er. fold (session_address d0).
  rewrite (chain_three (fun k d => initial_answer_media k _ d)).
  destruct (answers_run (session_address d0) d0 w1 F0 K1) as (w2 & r & E2 & K2 & B2 & H).
  { intros k. split; [by apply (parsed_unread (w_sdp w))|]. intros Ho. destruct (W5 k) as [Eo Et]. rewrite Et. apply Hs. by rewrite <- Eo. }
  rewrite (run_bind _ _ _ _ _ E2). destruct r as [e|d]; [by exists w2, (inl e)|]. destruct H as [S An].
  assert (Fd : fine d) by (by eapply steps_fine). destruct (publish_run d w2 Fd) as (t & Ep & Et). rewrite (run_bind _ _ _ _ _ Ep).
  assert (Hk : forall k, offers_medium w k = true -> answer_of (session_address d0) k d0 w w2 /\ any_kind (hasOffered (w_session w2)) = true).
  { intros k Ho. destruct (W5 k) as [Eo Et']. pose proof (An k) as H. unfold answer_of, answered_tuple in *. rewrite Eo, Et', W2 in H.
    rewrite Ho in *. split; [done|]. apply (offered_any w2 k). apply H. }
  destruct (any_kind (hasOffered (w_session w2))) eqn:Ea.
  - eexists _, (inr tt). split; [done|]. split; [destruct K2; by constructor|]. split; [|done]. exists d0, d. constructor; try done.
    + change (hasOffered (w_session (_ <| w_saved := _ |>))) with (hasOffered (w_session w2)). by rewrite Ea.
    + intros k Ho. by destruct (Hk k Ho).
  - eexists _, (inr tt). split; [done|]. split; [by apply keeps_inactive, keeps_sdp|].
    split; [|change (hasOffered (w_session (_ <| w_session := _ |>))) with (hasOffered (w_session w2)); by rewrite Ea]. exists d0, d. constructor.
    + done.
    + exact S.
    + change (hasOffered (w_session (_ <| w_session := _ |>))) with (hasOffered (w_session w2)). rewrite Ea. cbn. rewrite Et. destruct B2 as (_ & -> & _). done.
    + intros k Ho. by destruct (Hk k Ho).
Qed.

End first_answer.

(** ** From the exchange to the relay *)

(** A tuple that was opened and is started for the first time relays. *)
Record ready (p : RTPProxy) (d1 d2 : endpoint) : Prop := {
  rd_socket1 : leg1Socket p = true;
  rd_socket2 : leg2Socket p = true;
  rd_calm : calm p;
  rd_receive1 : leg1Receive p = IntoSender;
  rd_receive2 : leg2Receive p = IntoSender;
  rd_leg1 : senderEndPointLeg1 p = d1;
  rd_leg2 : senderEndPointLeg2 p = d2
}.

Lemma start_ready p p' :
  leg1Socket p = true -> leg2Socket p = true -> isStarted p = false -> calm p -> start p = Some p' ->
  ready p' (senderEndPointLeg1 p) (senderEndPointLeg2 p).
Proof. intros E1 E2 E3 []. unfold start. rewrite E1, E2, E3. cbn [negb orb]. intros [= <-]. by constructor. Qed.

Section path.
Context {boost : BoostString} {text : BoostText} {asio : AsioAddress}.

Lemma answered_ready sa c m w k hs t :
  opened c m (tuple_of w k) -> calm_tuple (tuple_of w k) -> tuple_start (answered_tuple sa w k hs) = (true, t) ->
  let a := ip (default default_ip (address_of hs sa)) in
  ready (data t) (senderEndPointLeg1 (data (tuple_of w k))) (a, read_dataPort hs) /\
  ready (control t) (senderEndPointLeg1 (control (tuple_of w k))) (a, read_control hs).
Proof.
  intros (p1 & p2 & _ & _ & _ & [L1 L2 _ _ _ _ L3] & [M1 M2 _ _ _ _ M3]) [Cd Cc]. unfold tuple_start. set (t0 := answered_tuple sa w k hs).
  assert (Cd0 : calm (data t0)) by (destruct Cd; by constructor). assert (Cc0 : calm (control t0)) by (destruct Cc; by constructor).
  destruct (start (data t0)) as [d|] eqn:Ed; [|done]. destruct (start (control t0)) as [ctl|] eqn:Ec; [|done]. intros [= <-].
  split; [by apply (start_ready (data t0))|by apply (start_ready (control t0))].
Qed.

(** The world in which the answer is handled, after the offer. *)
Lemma unresized w :
  resizerSamplesLeg1 (w_session w) = 0%Z -> resizerSamplesLeg2 (w_session w) = 0%Z ->
  at_resizerSamplesLeg1 (w_attr w) = 0%Z -> at_resizerSamplesLeg2 (w_attr w) = 0%Z -> prepare_resizing w = Val (w, inr tt).
Proof.
  intros E1 E2 E3 E4. unfold prepare_resizing. rewrite run_modify, E1, E3. cbn [Z.eqb negb andb]. rewrite E2, E4. cbn [Z.eqb negb andb].
  replace (w <| w_session := w_session w |>) with w by by destruct w. rewrite run_gets. cbn [id]. by rewrite E1, E2.
Qed.

End path.
