(* ===== verification/RtpSessionTheorems.v ===== *)
(** * What media sessions and the relay promise

    The theorems about [RTPProxySession] and [RTPProxy]: every request is answered and
    moves the session along its states; the first offer and its answer show the proxies;
    and the media that then arrives takes the path that was negotiated. *)

From S2P Require Import Prelude CoreStrings CMem SdpText SdpHeaders SdpMedia SdpSession SdpMediaFacts SdpCoherence SdpOps SdpSessionFacts SdpStore IpAddress SipXor RtpPacket RtpProxy RtpProxyFacts RtpRelay RtpSession RtpSessionFacts RtpSessionSafe RtpExchange RtpAnswer.
Open Scope nat_scope.

(** ** The life of a session *)

(** What happens to a session: a request, what its manager does with it, and the ports that other sessions take. *)
Inductive session_event :=
| Request (c : call) (sdp : str) (attr : Attributes)
| SetState (st : State)
| AuthTimeout
| SetInactive
| Samples (leg1 leg2 : Z)
| Stopped
| Elsewhere (m : ports).

Section life.
Context {boost : BoostString} {text : BoostText} {asio : AsioAddress}.
Context (binds : nat -> endpoint -> bool) (enableHairpins : bool).

Definition session_step (w : world) (e : session_event) : cres (world * option exn) :=
  match e with
  | Request c sdp attr =>
      '(w, r) ← handleSDP binds enableHairpins c (w <| w_sdp := sdp |> <| w_attr := attr |>);
      Val (w, match r with inl e => Some e | inr _ => None end)
  | SetState st => Val (w <| w_session := setState (w_session w) st |>, None)
  | AuthTimeout => Val (w <| w_session := handleAuthStateTimeout (w_session w) |>, None)
  | SetInactive => Val (w <| w_session := session_setInactive (w_session w) |>, None)
  | Samples leg1 leg2 => Val (w <| w_session := setResizerSamples_session (w_session w) leg1 leg2 |>, None)
  | Stopped => Val (w <| w_session := session_stop (w_session w) |>, None)
  | Elsewhere m => Val (w <| w_ports := m |>, None)
  end.
Fixpoint session_run (w : world) (es : list session_event) : cres (world * list (option exn)) :=
  match es with
  | [] => Val (w, [])
  | e :: es => '(w, o) ← session_step w e; '(w, os) ← session_run w es; Val (w, o :: os)
  end.

(** The states by themselves: a request that fails changes nothing. *)
Fixpoint states (st : State) (es : list session_event) (os : list (option exn)) : State :=
  match es, os with
  | Request c _ _ :: es, o :: os => states (match o with None => next_state st (requestType c) | Some _ => st end) es os
  | SetState st' :: es, _ :: os => states st' es os
  | _ :: es, _ :: os => states st es os
  | _, _ => st
  end.

(** Requests come in over interfaces of the server, and the range of ports is one. *)
Definition session_event_ok (e : session_event) : Prop :=
  match e with
  | Request c _ _ => interface (packetLocalInterface c) /\ interface (routeLocalInterface c)
  | Elsewhere m => ports_ok m
  | _ => True
  end.

Lemma step_ok w e :
  session_ok w -> session_event_ok e -> exists w' o, session_step w e = Val (w', o) /\ session_ok w' /\
    state (w_session w') = states (state (w_session w)) [e] [o].
Proof.
  intros H He. destruct e as [c sdp attr|st| | |l1 l2| |m]; cbn [session_step].
  - destruct He as [I1 I2]. destruct (handleSDP_handled binds enableHairpins c I1 I2 (w <| w_sdp := sdp |> <| w_attr := attr |>)) as (w' & r & -> & H' & _ & Es).
    { destruct H. by constructor. }
    rewrite val_bind. eexists _, _. split; [done|]. split; [done|]. rewrite Es. by destruct r.
  - eexists _, _. split; [done|]. split; [destruct H; by constructor|done].
  - eexists _, _. split; [done|]. split; [destruct H; by constructor|done].
  - eexists _, _. split; [done|]. split; [by eapply keeps_ok, keeps_inactive, ok_keeps|done].
  - eexists _, _. split; [done|]. split; [|done]. destruct H as [Hp Hs]. constructor; [done|]. intros k Hu.
    specialize (Hs k Hu) as [[] []]. by destruct k; split; constructor.
  - eexists _, _. split; [done|]. split; [by eapply keeps_ok, keeps_stop, ok_keeps|done].
  - eexists _, _. split; [done|]. split; [destruct H; by constructor|done].
Qed.


End life.

(** ** The first offer *)

Section offer.
Context {boost : BoostString} {text : BoostText} {asio : AsioAddress}.
Context (binds : nat -> endpoint -> bool) (enableHairpins : bool) (c : call).

Lemma port_in w k : offers_medium w k = true -> In (k, Some (localEndPointLeg2 (data (tuple_of w k))).2) (map (fun k => (k, offered_port w k)) [Audio; Video; Fax]).
Proof.
  intros Ho. apply in_map_iff. exists k. split; [unfold offered_port; by rewrite Ho|]. apply list_elem_of_In, kinds_all.
Qed.
Lemma port_of (f : kind -> option Z) k po : In (k, Some po) (map (fun k => (k, f k)) [Audio; Video; Fax]) -> f k = Some po.
Proof. intros (k' & [= -> H] & _)%in_map_iff. done. Qed.
Lemma kinds_nodup {A} (f : kind -> A) : NoDup (map fst (map (fun k => (k, f k)) [Audio; Video; Fax])).
Proof. apply kinds_distinct. Qed.

(** The description of a medium of an offer or an answer, before and after: the address it shows, its own or that of
    the session, is [addr] and its port [po]; on hold only an own address is replaced. *)
Definition presented (d0 d : draft) (m m' : SDPMedia) (addr : str) (po : Z) : Prop :=
  (blackhole (session_address d0) = false \/ nonempty (read_address (hdrs m)) = true -> effective m' d = addr) /\
  (blackhole (session_address d0) = false -> read_dataPort (hdrs m') = po \/ short_line (hdrs m)).

Lemma steps_presented addr (f : kind -> option Z) d0 d k po :
  word addr -> fine d0 -> d_changed d0 = false -> steps (session_address d0) addr (map (fun k => (k, f k)) [Audio; Video; Fax]) d0 d ->
  In (k, Some po) (map (fun k => (k, f k)) [Audio; Video; Fax]) ->
  exists p m m', first_of d0 k = Some p /\ d_store d0 !! p = Some m /\ d_store d !! p = Some m' /\ presented d0 d m m' addr po.
Proof.
  intros Ha Hd Hc S Hi. destruct (steps_rewritten _ _ _ _ _ k po Hd S (kinds_nodup f) Hi) as (p & m & m' & R).
  exists p, m, m'. split_and!; [apply R..|]. split; [|apply R]. intros Hb. by eapply steps_effective.
Qed.


End offer.

(** ** From the offer and its answer to the media *)

Section path.
Context {boost : BoostString} {text : BoostText} {asio : AsioAddress}.
Context (binds : nat -> endpoint -> bool) (enableHairpins : bool) (junk stack : str) (cfg : xor_sip_config).

Definition resizes_nothing (attr : Attributes) : Prop := at_resizerSamplesLeg1 attr = 0%Z /\ at_resizerSamplesLeg2 attr = 0%Z.

(** The offer to a new session, as its handler leaves it. *)
Lemma offer_handled c m0 name now offer attr :
  interface (packetLocalInterface c) -> interface (routeLocalInterface c) -> requestType c = INVITE -> ports_ok m0 -> resizes_nothing attr ->
  let w0 := mkWorld m0 (new_rtp_session name now) offer attr None in
  exists w1 r, handleSDP binds enableHairpins c w0 = Val (w1, r) /\ forall u, r = inr u ->
    state (w_session w1) = INVITE_WAITING_ANSWER_RESPONSE /\ session_ok w1 /\ exists d0 d, offer_made binds enableHairpins c w0 w1 d0 d.
Proof.
  intros I1 I2 Er Hm [R1 R2] w0. assert (H0 : session_ok w0) by (constructor; [done|]; intros k [H|H]; by destruct k).
  destruct (first_offer_run binds enableHairpins c I1 I2 (w_session w0) w0 (ok_keeps w0 H0)) as (w1 & r & E & K & H).
  unfold handleSDP. rewrite (run_bind _ _ _ _ _ (unresized w0 eq_refl eq_refl R1 R2)), run_gets, Er. cbn [id state w_session w0 new_rtp_session].
  rewrite (run_bind _ _ _ _ _ E). destruct r as [e|[]]; [by exists w1, (inl e)|]. eexists _, (inr tt). split; [done|]. intros _ _.
  split; [done|]. split; [by eapply ok_state, keeps_ok|]. destruct H as (d0 & d & []). exists d0, d. by constructor.
Qed.

(** What an offer that was made shows to the one who answers. *)
Lemma made_offerer c w0 w1 d0 d k :
  offer_made binds enableHairpins c w0 w1 d0 d -> shows_offerer (shown_of (packetLocalInterface c)) k w1.
Proof.
  intros H Ho. destruct (om_offer _ _ _ _ _ _ _ H k) as [Ok _]. rewrite Ho in Ok. destruct Ok as (p & m & a & []). by eapply opened_shown.
Qed.

Lemma answer_handled c w addr :
  requestType c = INVITE_RESPONSE -> session_ok w -> state (w_session w) = INVITE_WAITING_ANSWER_RESPONSE ->
  isExpectingInitialAnswer (w_session w) = true -> resizerSamplesLeg1 (w_session w) = 0%Z -> resizerSamplesLeg2 (w_session w) = 0%Z ->
  resizes_nothing (w_attr w) -> (forall k, shows_offerer addr k w) ->
  exists w2 r, handleSDP binds enableHairpins c w = Val (w2, r) /\ forall u, r = inr u ->
    state (w_session w2) = NEGOTIATED /\ (exists d0 d, answer_made addr w w2 d0 d) /\
    (any_kind (hasOffered (w_session w2)) = true -> exists s, w_saved w2 = Some s /\ state s = INVITE_WAITING_ANSWER_RESPONSE /\
      w_session w2 = s <| isExpectingInitialAnswer := false |> <| state := NEGOTIATED |>).
Proof.
  intros Er H0 Es Ex S1 S2 [R1 R2] Hs.
  destruct (first_answer_run (w_session w) addr w (ok_keeps w H0) Ex Hs) as (w1 & r & E & K & H).
  unfold handleSDP. rewrite (run_bind _ _ _ _ _ (unresized w S1 S2 R1 R2)), run_gets. cbn [id]. rewrite Es, Er.
  unfold handleStateInviteWaitingAnswerResponse. rewrite decide_True by done.
  assert (Ea : handleAnyAnswer w = match r with inl e => Val (w1, inl e) | inr _ => Val (w1 <| w_session := (w_session w1) <| isExpectingInitialAnswer := false |> |>, inr tt) end).
  { unfold handleAnyAnswer. rewrite run_gets. cbn [id]. rewrite Ex, (run_bind _ _ _ _ _ E). by destruct r. }
  destruct r as [e|[]]; rewrite (run_bind _ _ _ _ _ Ea); [by exists w1, (inl e)|]. eexists _, (inr tt). split; [done|]. intros _ _. split; [done|].
  destruct H as [(d0 & d & []) Sv]. split; [exists d0, d; by constructor|]. intros Ha. exists (w_session w1).
  rewrite <- Es, (ke_state _ _ K). split; [by apply Sv|done].
Qed.

Lemma new_calm name now k : calm_tuple (proxy (new_rtp_session name now) k).
Proof. by destruct k; split; constructor. Qed.

(** A proxy that is ready relays. *)
Lemma ready_relays p d1 d2 es :
  length junk = 64 + RTP_PACKET_BUFFER_SIZE -> pad_rtp cfg = false -> ready p d1 d2 -> Forall arrival es ->
  exists p', proxy_run junk stack cfg None None p es =
    Val (relay_ref junk cfg (isXORDisabled p) d1 d2 (isLeg1XOREncrypted p) (isLeg2XOREncrypted p) false es, p').
Proof.
  intros Hj Hp [S1 S2 [C1 C2 C3 C4] R1 R2 <- <-] He. by apply relay_run.
Qed.

(** The description of a medium of the answer. *)
Lemma answer_presented c w w2 d0 d k p :
  answer_made (shown_of (packetLocalInterface c)) w w2 d0 d -> interface (packetLocalInterface c) -> offers_medium w k = true -> first_of d0 k = Some p ->
  exists m m', d_store d0 !! p = Some m /\ d_store d !! p = Some m' /\
    presented d0 d m m' (shown_of (packetLocalInterface c)) (localEndPointLeg1 (data (proxy (w_session w2) k))).2 /\
    tuple_start (answered_tuple (session_address d0) w k (hdrs m)) = (true, proxy (w_session w2) k).
Proof.
  intros [P S T An] I Ho Hf. destruct (parsed_unread _ _ Audio P) as (_ & Hd & Hc). destruct (An k Ho) as [Eo H]. rewrite Ho, Hf in H.
  destruct H as (m & Em & En & Et).
  destruct (steps_presented (shown_of (packetLocalInterface c)) (answered_port w2) d0 d k (localEndPointLeg1 (data (proxy (w_session w2) k))).2)
    as (p' & x & m' & B1 & B2 & B3 & Pr); [by apply interface_word|done..| |].
  - apply in_map_iff. exists k. split; [|apply list_elem_of_In, kinds_all]. unfold answered_port. by rewrite Eo, Ho, En.
  - rewrite Hf in B1. injection B1 as <-. rewrite Em in B2. injection B2 as <-. by exists m, m'.
Qed.

(** An exchange that does not throw: the session that was saved is still waiting for the answer. *)
Lemma exchange_saved c1 c2 m0 name now offer attr1 answer attr2 :
  interface (packetLocalInterface c1) -> interface (routeLocalInterface c1) -> requestType c1 = INVITE -> requestType c2 = INVITE_RESPONSE ->
  ports_ok m0 -> resizes_nothing attr1 -> resizes_nothing attr2 ->
  exists w1 r1, handleSDP binds enableHairpins c1 (mkWorld m0 (new_rtp_session name now) offer attr1 None) = Val (w1, r1) /\ forall u, r1 = inr u ->
  exists w2 r2, handleSDP binds enableHairpins c2 (w1 <| w_sdp := answer |> <| w_attr := attr2 |>) = Val (w2, r2) /\ forall v, r2 = inr v ->
    state (w_session w2) = NEGOTIATED /\
    (any_kind (hasOffered (w_session w2)) = true -> exists s, w_saved w2 = Some s /\ state s = INVITE_WAITING_ANSWER_RESPONSE /\
      w_session w2 = s <| isExpectingInitialAnswer := false |> <| state := NEGOTIATED |>).
Proof.
  intros I1 I2 E1 E2 Hm R1 R2. destruct (offer_handled c1 m0 name now offer attr1 I1 I2 E1 Hm R1) as (w1 & r1 & H1 & O).
  exists w1, r1. split; [done|]. intros u Eu. destruct (O u Eu) as (Es & Ok & od & od' & Om).
  destruct (answer_handled c2 (w1 <| w_sdp := answer |> <| w_attr := attr2 |>) (shown_of (packetLocalInterface c1)) E2) as (w2 & r2 & H2 & An); try done.
  { destruct Ok. by constructor. }
  { apply (om_expecting _ _ _ _ _ _ _ Om). }
  { apply (om_samples _ _ _ _ _ _ _ Om). }
  { apply (om_samples _ _ _ _ _ _ _ Om). }
  { exact (fun k => made_offerer c1 _ _ _ _ k Om). }
  exists w2, r2. split; [done|]. intros v Ev. by destruct (An v Ev) as (? & _ & ?).
Qed.


End path.

(** ** Short datagrams *)


(** ** Instances *)

Definition ex_lines (l : list str) : str := concat (map (fun s => s ++ CRLF) l).
Definition ex_offer : str :=
  ex_lines [ #"v=0"; #"o=- 11 1 IN IP4 192.168.0.9"; #"s=-"; #"c=IN IP4 192.168.0.9"; #"t=0 0"; #"m=audio 4000 RTP/AVP 0"; #"m=video 4002 RTP/AVP 31"].
Definition ex_answer : str :=
  ex_lines [ #"v=0"; #"o=- 22 1 IN IP4 8.8.8.8"; #"s=-"; #"c=IN IP4 8.8.8.8"; #"t=0 0"; #"m=audio 5000 RTP/AVP 0"].
Definition ex_lan : IPAddress := ip_of_string #"10.0.0.1".
Definition ex_wan : IPAddress := ip_of_string #"20.0.0.1".
Definition ex_invite : call := mkCall (ip_of_string #"192.168.0.9") ex_lan ex_wan INVITE.
Definition ex_response : call := mkCall (ip_of_string #"8.8.8.8") ex_wan ex_lan INVITE_RESPONSE.
Definition ex_forced : Attributes := default_attributes <| forceCreate := true |>.
Definition ex_ports : ports := mkPorts 10000 20000 0 0.
Definition ex_world : world := mkWorld ex_ports (new_rtp_session [] 0) ex_offer ex_forced None.
Definition ex_binds : nat -> endpoint -> bool := fun _ _ => true.

Lemma ex_lan_ok : interface ex_lan.
Proof. split; [|by left]. eexists. split; [vm_compute; reflexivity|]. split; [discriminate|reflexivity]. Qed.
Lemma ex_wan_ok : interface ex_wan.
Proof. split; [|by left]. eexists. split; [vm_compute; reflexivity|]. split; [discriminate|reflexivity]. Qed.
Lemma ex_ports_ok : ports_ok ex_ports.
Proof. constructor; cbn; lia. Qed.
Lemma ex_world_ok : session_ok ex_world.
Proof. constructor; [apply ex_ports_ok|]. intros k [H|H]; by destruct k. Qed.

Definition ex_world1 : world := Eval vm_compute in match handleSDP ex_binds false ex_invite ex_world with Val (w, _) => w | _ => ex_world end.
Lemma ex_offered : handleSDP ex_binds false ex_invite ex_world = Val (ex_world1, inr tt).
Proof. vm_compute. reflexivity. Qed.

(** What the handlers make of the two descriptions. *)
Example exchange_texts :
  exists w1 w2, handleSDP ex_binds false ex_invite ex_world = Val (w1, inr tt) /\
    handleSDP ex_binds false ex_response (w1 <| w_sdp := ex_answer |> <| w_attr := default_attributes |>) = Val (w2, inr tt) /\
    w_sdp w1 = ex_lines [ #"v=0"; #"o=- 11 1 IN IP4 192.168.0.9"; #"s=-"; #"c=IN IP4 20.0.0.1"; #"t=0 0"; #"m=audio 10002 RTP/AVP 0"; #"m=video 10006 RTP/AVP 31"] /\
    w_sdp w2 = ex_lines [ #"v=0"; #"o=- 22 1 IN IP4 8.8.8.8"; #"s=-"; #"c=IN IP4 10.0.0.1"; #"t=0 0"; #"m=audio 10000 RTP/AVP 0"].
Proof. eexists _, _. split; [vm_compute; reflexivity|]. split; [vm_compute; reflexivity|]. split; reflexivity. Qed.



Definition ex_junk : str := replicate (64 + RTP_PACKET_BUFFER_SIZE) "000"%char.


