(* ===== verification/Json.v ===== *)
(** * JSON documents

    The library of include/OSS/JSON: the elements of a document (elements.h), the writer
    (writer.inl) and the reader (reader.inl), which scans a text into tokens and parses
    these.  A failed [assert] is an [Abort]; a loop is given as many steps as there is text
    or tokens, and one more, and that is enough.

    The values of numbers are those of [double], whose formatting and reading by the
    streams of the C++ library are the operations of the class [DoubleText]. The locations
    that the exceptions carry for diagnostics are left out. *)

From S2P Require Import Prelude CMem CoreStrings SdpText.
Open Scope nat_scope.

Definition DQUOTE : ascii := chr 34.
Definition BACKSLASH : ascii := chr 92.
Definition TAB : ascii := chr 9.

(** The characters a number can be made of: the array of them is taken with its terminator. *)
Definition sNumericChars : str := #"0123456789.eE-+" ++ [chr 0].
Definition numeric (c : ascii) : bool := bool_decide (c ∈ sNumericChars).
(** The characters a number can start with. *)
Definition starts_number (c : ascii) : bool := bool_decide (c ∈ #"-0123456789").

(** [double] and the streams: [show_double] is [<<] with a precision of 20 digits, and
    [read_double] is [>>] on a stream of a text, with whether it came to its end. *)
Class DoubleText := {
  double : Type;
  double_of_Z : Z -> double;
  Z_of_double : double -> Z;
  finite : double -> Prop;
  show_double : double -> str;
  read_double : str -> double * bool;
  exact_integers : forall z, (Z.abs z <= 2 ^ 53)%Z -> Z_of_double (double_of_Z z) = z;
  finite_integers : forall z, (Z.abs z <= 2 ^ 53)%Z -> finite (double_of_Z z);
  show_numeric : forall d, finite d -> exists c s, show_double d = c :: s /\ starts_number c = true /\ Forall (fun c => numeric c = true) (c :: s);
  read_shown : forall d, finite d -> read_double (show_double d) = (d, true)
}.

Section json.
Context {D : DoubleText}.

(** ** Elements *)

Inductive json :=
| Null
| Boolean (b : bool)
| Number (d : double)
| String (s : str)
| Array (l : list json)
| Object (members : list (str * json)).

(** Induction with the elements of arrays and objects. *)
Lemma json_induction (P : json -> Prop) :
  P Null -> (forall b, P (Boolean b)) -> (forall d, P (Number d)) -> (forall s, P (String s)) ->
  (forall l, Forall P l -> P (Array l)) -> (forall l, Forall (fun m => P m.2) l -> P (Object l)) -> forall j, P j.
Proof.
  intros Hn Hb Hd Hs Ha Ho. fix IH 1. intros [|b|d|s|l|l]; [done|apply Hb|apply Hd|apply Hs| |].
  - apply Ha. induction l as [|x l IHl]; constructor; [apply IH|apply IHl].
  - apply Ho. induction l as [|[n x] l IHl]; constructor; [apply IH|apply IHl].
Qed.

Abbreviation members := (list (str * json)).
(** [Object::Find], [Object::operator[]] with an assignment, and [Object::Insert], which throws. *)
Fixpoint Find (name : str) (l : members) : option json :=
  match l with
  | [] => None
  | (n, j) :: l => if bool_decide (n = name) then Some j else Find name l
  end.
Fixpoint put (name : str) (j : json) (l : members) : members :=
  match l with
  | [] => [(name, j)]
  | (n, x) :: l => if bool_decide (n = name) then (n, j) :: l else (n, x) :: put name j l
  end.
Definition Insert (name : str) (j : json) (l : members) : option members :=
  match Find name l with
  | Some _ => None
  | None => Some (l ++ [(name, j)])
  end.

(** A member of an object that is not constant, converted: one that is missing or of another type becomes
    the default value of the type. *)
Definition as_string (j : option json) : str := match j with Some (String s) => s | _ => [] end.
Definition as_boolean (j : option json) : bool := match j with Some (Boolean b) => b | _ => false end.
Definition as_number (j : option json) : double := match j with Some (Number d) => d | _ => double_of_Z 0 end.
Definition as_object (j : option json) : members := match j with Some (Object l) => l | _ => [] end.

(** ** The writer *)

Definition tabs (n : nat) : str := replicate n TAB.
Definition escape_char (c : ascii) : str :=
  if bool_decide (c = DQUOTE) then [BACKSLASH; DQUOTE]
  else if bool_decide (c = BACKSLASH) then [BACKSLASH; BACKSLASH]
  else if bool_decide (c = chr 8) then BACKSLASH :: #"b"
  else if bool_decide (c = chr 12) then BACKSLASH :: #"f"
  else if bool_decide (c = chr 10) then BACKSLASH :: #"n"
  else if bool_decide (c = chr 13) then BACKSLASH :: #"r"
  else if bool_decide (c = chr 9) then BACKSLASH :: #"t"
  else [c].
Definition write_string (s : str) : str := DQUOTE :: concat (map escape_char s) ++ [DQUOTE].

(** The lines of the elements of an array or an object, with a comma behind each but the last. *)
Fixpoint write_lines (depth : nat) (l : list str) : str :=
  match l with
  | [] => []
  | [x] => tabs depth ++ x ++ [LF]
  | x :: l => tabs depth ++ x ++ #"," ++ [LF] ++ write_lines depth l
  end.

(** [Write_i]; [depth] is [m_nTabDepth]. *)
Fixpoint write (depth : nat) (j : json) : str :=
  match j with
  | Null => #"null"
  | Boolean b => if b then #"true" else #"false"
  | Number d => show_double d
  | String s => write_string s
  | Array [] => #"[]"
  | Array l => #"[" ++ [LF] ++ write_lines (S depth) (map (write (S depth)) l) ++ tabs depth ++ #"]"
  | Object [] => #"{}"
  | Object l =>
      #"{" ++ [LF] ++
      write_lines (S depth) (map (fun m => DQUOTE :: m.1 ++ [DQUOTE] ++ #" : " ++ write (S depth) m.2) l) ++ tabs depth ++ #"}"
  end.
Definition Write (j : json) : str := write 0 j.

(** ** The reader *)

Inductive json_exn :=
| ScanException (message : str)
| ParseException (message : str).
Definition jres (A : Type) : Type := cres (json_exn + A).
#[local] Instance jres_ret : MRet jres := fun A a => Val (inr a).
#[local] Instance jres_bind : MBind jres := fun A B f m =>
  match m with
  | Val (inl e) => Val (inl e)
  | Val (inr a) => f a
  | Abort => Abort
  | Fault => Fault
  | Endless => Endless
  end.
Definition throw_json {A} (e : json_exn) : jres A := Val (inl e).

Inductive TokenType :=
| TOKEN_OBJECT_BEGIN
| TOKEN_OBJECT_END
| TOKEN_ARRAY_BEGIN
| TOKEN_ARRAY_END
| TOKEN_NEXT_ELEMENT
| TOKEN_MEMBER_ASSIGN
| TOKEN_STRING
| TOKEN_NUMBER
| TOKEN_BOOLEAN
| TOKEN_NULL.
#[local] Instance token_type_eq : EqDecision TokenType.
Proof. solve_decision. Defined.
Record Token := mkToken { nType : TokenType; sValue : str }.

(** *** Scanning *)

(** [MatchExpectedString]: what is left of the text. *)
Fixpoint match_expected (whole expected s : str) : jres str :=
  match expected with
  | [] => mret s
  | c :: expected =>
      match s with
      | [] => throw_json (ScanException (#"Expected string: " ++ whole))
      | c' :: s => if bool_decide (c' = c) then match_expected whole expected s else throw_json (ScanException (#"Expected string: " ++ whole))
      end
  end.
Definition MatchExpectedString (expected s : str) : jres str := match_expected expected expected s.

(** The escapes of a string. *)
Definition unescape (c : ascii) : option ascii :=
  if bool_decide (c = "/"%char) then Some "/"%char
  else if bool_decide (c = DQUOTE) then Some DQUOTE
  else if bool_decide (c = BACKSLASH) then Some BACKSLASH
  else if bool_decide (c = "b"%char) then Some (chr 8)
  else if bool_decide (c = "f"%char) then Some (chr 12)
  else if bool_decide (c = "n"%char) then Some (chr 10)
  else if bool_decide (c = "r"%char) then Some (chr 13)
  else if bool_decide (c = "t"%char) then Some (chr 9)
  else None.
(** The loop of [MatchString], and the quote behind it. *)
Fixpoint match_string (acc s : str) : jres (str * str) :=
  match s with
  | [] => s ← MatchExpectedString [DQUOTE] []; mret (acc, s)
  | c :: s' =>
      if bool_decide (c = DQUOTE) then s ← MatchExpectedString [DQUOTE] s; mret (acc, s)
      else
        match bool_decide (c = BACKSLASH), s' with
        | true, e :: s'' =>
            match unescape e with
            | Some x => match_string (acc ++ [x]) s''
            | None => throw_json (ScanException (#"Unrecognized escape sequence found in string: " ++ [BACKSLASH; e]))
            end
        | _, _ => match_string (acc ++ [c]) s'
        end
  end.
Definition MatchString (s : str) : jres (str * str) := s ← MatchExpectedString [DQUOTE] s; match_string [] s.

(** [MatchNumber]. *)
Fixpoint MatchNumber (s : str) : str * str :=
  match s with
  | c :: s' => if numeric c then let '(n, rest) := MatchNumber s' in (c :: n, rest) else ([], s)
  | [] => ([], [])
  end.

(** The token at the start of a text that is not empty. *)
Definition scan_token (s : str) : jres (Token * str) :=
  match s with
  | [] => Abort
  | c :: _ =>
      let single ty := s ← MatchExpectedString [c] s; mret (mkToken ty [c], s) in
      let wordy ty w := s ← MatchExpectedString w s; mret (mkToken ty w, s) in
      if bool_decide (c = "{"%char) then single TOKEN_OBJECT_BEGIN
      else if bool_decide (c = "}"%char) then single TOKEN_OBJECT_END
      else if bool_decide (c = "["%char) then single TOKEN_ARRAY_BEGIN
      else if bool_decide (c = "]"%char) then single TOKEN_ARRAY_END
      else if bool_decide (c = ","%char) then single TOKEN_NEXT_ELEMENT
      else if bool_decide (c = ":"%char) then single TOKEN_MEMBER_ASSIGN
      else if bool_decide (c = DQUOTE) then '(v, s) ← MatchString s; mret (mkToken TOKEN_STRING v, s)
      else if starts_number c then let '(n, rest) := MatchNumber s in mret (mkToken TOKEN_NUMBER n, rest)
      else if bool_decide (c = "t"%char) then wordy TOKEN_BOOLEAN #"true"
      else if bool_decide (c = "f"%char) then wordy TOKEN_BOOLEAN #"false"
      else if bool_decide (c = "n"%char) then wordy TOKEN_NULL #"null"
      else throw_json (ScanException (#"Unexpected character in stream: " ++ [c]))
  end.
(** [Scan]; [EatWhiteSpace] is [skip_space]. *)
Fixpoint scan (fuel : nat) (s : str) : jres (list Token) :=
  match fuel with
  | O => Endless
  | S fuel =>
      match skip_space s with
      | [] => mret []
      | (_ :: _) as s => '(t, s) ← scan_token s; ts ← scan fuel s; mret (t :: ts)
      end
  end.
Definition Scan (s : str) : jres (list Token) := scan (S (length s)) s.

(** *** Parsing *)

Definition MatchExpectedToken (ty : TokenType) (ts : list Token) : jres (str * list Token) :=
  match ts with
  | [] => throw_json (ParseException #"Unexpected End of token stream")
  | t :: ts => if decide (nType t = ty) then mret (sValue t, ts) else throw_json (ParseException (#"Unexpected token: " ++ sValue t))
  end.
Definition next_is (ty : TokenType) (ts : list Token) : bool := match ts with [] => false | t :: _ => bool_decide (nType t = ty) end.

Definition parse_number (ts : list Token) : jres (json * list Token) :=
  '(v, ts) ← MatchExpectedToken TOKEN_NUMBER ts;
  let '(d, eof) := read_double v in
  if (eof : bool) then mret (Number d, ts) else throw_json (ParseException #"Unexpected character in NUMBER").

(** [Parse] of an element whose type the next token tells, with the loops over members and elements.
    [Peek] at the end of the stream fails its assertion. *)
Fixpoint parse_unknown (fuel : nat) (ts : list Token) : jres (json * list Token) :=
  match fuel with
  | O => Endless
  | S fuel =>
      match ts with
      | [] => throw_json (ParseException #"Unexpected end of token stream")
      | t :: rest =>
          match nType t with
          | TOKEN_OBJECT_BEGIN => '(l, ts) ← parse_object fuel ts; mret (Object l, ts)
          | TOKEN_ARRAY_BEGIN =>
              '(_, ts) ← MatchExpectedToken TOKEN_ARRAY_BEGIN ts;
              '(l, ts) ← (match ts with
                          | [] => mret ([], ts)
                          | _ => if next_is TOKEN_ARRAY_END ts then mret ([], ts) else parse_elements fuel [] ts
                          end);
              '(_, ts) ← MatchExpectedToken TOKEN_ARRAY_END ts;
              mret (Array l, ts)
          | TOKEN_STRING => '(v, ts) ← MatchExpectedToken TOKEN_STRING ts; mret (String v, ts)
          | TOKEN_NUMBER => parse_number ts
          | TOKEN_BOOLEAN => '(v, ts) ← MatchExpectedToken TOKEN_BOOLEAN ts; mret (Boolean (bool_decide (v = #"true")), ts)
          | TOKEN_NULL => '(_, ts) ← MatchExpectedToken TOKEN_NULL ts; mret (Null, ts)
          | _ => throw_json (ParseException (#"Unexpected token: " ++ sValue t))
          end
      end
  end
with parse_object (fuel : nat) (ts : list Token) : jres (members * list Token) :=
  match fuel with
  | O => Endless
  | S fuel =>
      '(_, ts) ← MatchExpectedToken TOKEN_OBJECT_BEGIN ts;
      '(l, ts) ← (match ts with
                  | [] => mret ([], ts)
                  | _ => if next_is TOKEN_OBJECT_END ts then mret ([], ts) else parse_members fuel [] ts
                  end);
      '(_, ts) ← MatchExpectedToken TOKEN_OBJECT_END ts;
      mret (l, ts)
  end
with parse_members (fuel : nat) (l : members) (ts : list Token) : jres (members * list Token) :=
  match fuel with
  | O => Endless
  | S fuel =>
      match ts with
      | [] => Abort
      | _ =>
          '(name, ts) ← MatchExpectedToken TOKEN_STRING ts;
          '(_, ts) ← MatchExpectedToken TOKEN_MEMBER_ASSIGN ts;
          '(j, ts) ← parse_unknown fuel ts;
          match Insert name j l with
          | None => throw_json (ParseException (#"Duplicate object member token: " ++ name))
          | Some l =>
              if next_is TOKEN_NEXT_ELEMENT ts then
                '(_, ts) ← MatchExpectedToken TOKEN_NEXT_ELEMENT ts; parse_members fuel l ts
              else mret (l, ts)
          end
      end
  end
with parse_elements (fuel : nat) (l : list json) (ts : list Token) : jres (list json * list Token) :=
  match fuel with
  | O => Endless
  | S fuel =>
      '(j, ts) ← parse_unknown fuel ts;
      if next_is TOKEN_NEXT_ELEMENT ts then
        '(_, ts) ← MatchExpectedToken TOKEN_NEXT_ELEMENT ts; parse_elements fuel (l ++ [j]) ts
      else mret (l ++ [j], ts)
  end.

(** [Read_i]: the tokens must all be used. *)
Definition all_used {A} (r : A * list Token) : jres A :=
  match r.2 with
  | [] => mret r.1
  | t :: _ => throw_json (ParseException (#"Expected End of token stream; found " ++ sValue t))
  end.
(** The number of steps that is enough for any list of tokens. *)
Definition enough (ts : list Token) : nat := 2 * length ts + 2.
Definition Read (s : str) : jres json := ts ← Scan s; r ← parse_unknown (enough ts) ts; all_used r.
Definition ReadObject (s : str) : jres members := ts ← Scan s; r ← parse_object (enough ts) ts; all_used r.

End json.
