(* ===== verification/JsonTheorems.v ===== *)
(** * Facts about JSON documents

    The reader ends on every text; the tokens of a document, the scanner on the text that
    the writer gives, the parser on these tokens, and the theorems about the reader and the
    writer together. *)

From S2P Require Import Prelude CMem CoreStrings SdpText Json.
Open Scope nat_scope.

Section reader.
Context {D : DoubleText}.
#[local] Existing Instance jres_ret.
#[local] Existing Instance jres_bind.

Lemma ret_bind {A B} (a : A) (f : A -> jres B) : ((mret a : jres A) ≫= f) = f a.
Proof. done. Qed.
Lemma jbind_inv {A B} (m : jres A) (f : A -> jres B) b : m ≫= f = Val (inr b) -> exists a, m = Val (inr a) /\ f a = Val (inr b).
Proof. destruct m as [[e|a]| | |]; [done| |done..]. intros H. by exists a. Qed.
Lemma ends_jbind {A B} (m : jres A) (f : A -> jres B) :
  ends m -> (forall a, m = Val (inr a) -> ends (f a)) -> ends (m ≫= f).
Proof. intros Hm Hf. destruct m as [[e|a]| | |]; try done. by apply Hf. Qed.

(** ** The reader ends *)

Lemma match_expected_ends whole e s : ends (match_expected whole e s).
Proof. revert s. induction e as [|c e IH]; intros s; cbn [match_expected]; [done|]. destruct s; [done|]. destruct (bool_decide _); [apply IH|done]. Qed.
Lemma match_expected_shorter whole e s s' : match_expected whole e s = Val (inr s') -> length s = length e + length s'.
Proof.
  revert s. induction e as [|c e IH]; intros s H; cbn [match_expected] in H; [by injection H as ->|].
  destruct s; [done|]. destruct (bool_decide _); [|done]. apply IH in H. cbn. lia.
Qed.
Lemma match_string_ends n acc s : length s <= n -> ends (match_string acc s).
Proof.
  revert acc s. induction n as [|n IH]; intros acc s H; (destruct s as [|c s]; [done|]); cbn [length] in H; [lia|]. cbn [match_string].
  destruct (bool_decide (c = DQUOTE)); [apply ends_jbind; [apply match_expected_ends|done]|].
  destruct (bool_decide _), s as [|e s]; try (apply IH; cbn in *; lia). destruct (unescape e); [apply IH; cbn in *; lia|done].
Qed.
Lemma match_string_shorter n acc s v s' : length s <= n -> match_string acc s = Val (inr (v, s')) -> length s' <= length s.
Proof.
  revert acc s. induction n as [|n IH]; intros acc s H E; (destruct s as [|c s]; [done|]); cbn [length] in H; [lia|]. cbn [match_string] in E.
  destruct (bool_decide (c = DQUOTE)).
  { apply jbind_inv in E as (x & E & H'). injection H' as _ ->. apply match_expected_shorter in E. cbn in *. lia. }
  destruct (bool_decide _), s as [|e s]; try (apply IH in E; cbn in *; lia). destruct (unescape e); [apply IH in E; cbn in *; lia|done].
Qed.
Lemma MatchNumber_split s : MatchNumber s = ((MatchNumber s).1, (MatchNumber s).2) /\ s = (MatchNumber s).1 ++ (MatchNumber s).2.
Proof.
  split; [apply surjective_pairing|]. induction s as [|c s IH]; [done|]. cbn [MatchNumber]. destruct (numeric c); [|done].
  destruct (MatchNumber s) as [n rest]. cbn in *. congruence.
Qed.
Lemma starts_numeric c : starts_number c = true -> numeric c = true.
Proof. revert c. apply ascii_pred_impl. vm_compute. reflexivity. Qed.

Lemma scan_token_ends c s : ends (scan_token (c :: s)).
Proof.
  unfold scan_token, MatchString, MatchExpectedString.
  assert (S : forall whole e ty v, ends (s ← match_expected whole e (c :: s); mret (mkToken ty v, s) : jres (Token * str)))
    by (intros; apply ends_jbind; [apply match_expected_ends|done]).
  do 6 (destruct (bool_decide _); [apply S|]). destruct (bool_decide _).
  { apply ends_jbind; [|by intros []]. apply ends_jbind; [apply match_expected_ends|]. intros x _. by eapply match_string_ends. }
  destruct (starts_number c); [by destruct (MatchNumber _)|]. do 3 (destruct (bool_decide _); [apply S|]). done.
Qed.
Lemma scan_token_shorter c s t s' : scan_token (c :: s) = Val (inr (t, s')) -> length s' < length (c :: s).
Proof.
  unfold scan_token, MatchString, MatchExpectedString.
  assert (S : forall whole e ty v, e <> [] -> (s ← match_expected whole e (c :: s); mret (mkToken ty v, s) : jres (Token * str)) = Val (inr (t, s')) -> length s' < length (c :: s)).
  { intros whole e ty v He H. apply jbind_inv in H as (x & H & H'). injection H' as _ ->. apply match_expected_shorter in H. destruct e; [done|]. cbn in *. lia. }
  do 6 (destruct (bool_decide _); [by apply S|]). destruct (bool_decide _).
  { intros H. apply jbind_inv in H as ([v x] & H & H'). injection H' as _ ->. apply jbind_inv in H as (y & H & H'). apply match_expected_shorter in H.
    apply (match_string_shorter (length y)) in H'; [|done]. cbn in *. lia. }
  destruct (starts_number c) eqn:En.
  { destruct (MatchNumber_split (c :: s)) as [-> E]. intros [= _ <-]. cbn [MatchNumber] in *. rewrite starts_numeric in * by done.
    destruct (MatchNumber_split s) as [E1 E2]. rewrite E1 in *. cbn. pose proof (f_equal length E2) as L. rewrite length_app in L. cbn in L. lia. }
  do 3 (destruct (bool_decide _); [by apply S|]). done.
Qed.

Lemma skip_space_shorter s : length (skip_space s) <= length s.
Proof. induction s as [|c s IH]; cbn; [done|]. destruct (isspace c); cbn; lia. Qed.
Lemma scan_ends fuel s : length s < fuel -> ends (scan fuel s).
Proof.
  revert s. induction fuel as [|fuel IH]; intros s H; [lia|]. cbn [scan]. pose proof (skip_space_shorter s) as Hs.
  destruct (skip_space s) as [|c s1]; [done|]. apply ends_jbind; [apply scan_token_ends|]. intros [t s2] E.
  apply scan_token_shorter in E. apply ends_jbind; [apply IH; lia|done].
Qed.

Lemma MatchExpectedToken_inv ty ts v ts' : MatchExpectedToken ty ts = Val (inr (v, ts')) -> exists t, ts = t :: ts' /\ nType t = ty /\ sValue t = v.
Proof. destruct ts as [|t ts]; cbn; [done|]. destruct (decide _); [|done]. intros [= <- <-]. by exists t. Qed.
Lemma MatchExpectedToken_ends ty ts : ends (MatchExpectedToken ty ts).
Proof. destruct ts as [|t ts]; cbn; [done|]. by destruct (decide _). Qed.

(** The functions that parse leave less than they are given. *)
Definition consumes {A} (p : list Token -> jres (A * list Token)) : Prop :=
  forall ts a ts', p ts = Val (inr (a, ts')) -> length ts' < length ts.

Ltac token_inv H := let v := fresh "v" in let ts := fresh "ts" in let E := fresh "E" in
  apply jbind_inv in H as ([v ts] & E & H); apply MatchExpectedToken_inv in E as (? & -> & _ & _).

Lemma parse_number_consumes : consumes parse_number.
Proof.
  intros ts j ts' H. unfold parse_number in H. token_inv H. destruct (read_double v) as [d []]; [|done]. injection H as _ ->. cbn. lia.
Qed.
Lemma object_consumes fuel : (forall l, consumes (parse_members fuel l)) -> consumes (parse_object (S fuel)).
Proof.
  intros IH ts l ts' H. cbn [parse_object] in H. token_inv H. apply jbind_inv in H as ([l' ts1] & E & H). token_inv H. injection H as _ ->.
  destruct ts0 as [|t ts0]; [done|]. destruct (next_is _ _); [injection E as _ _ ->; cbn; lia|]. apply IH in E. cbn in *. lia.
Qed.
Lemma array_consumes fuel ts l ts' :
  (forall l, consumes (parse_elements fuel l)) ->
  (match ts with [] => mret ([], ts) | _ => if next_is TOKEN_ARRAY_END ts then mret ([], ts) else parse_elements fuel [] ts end) = Val (inr (l, ts')) ->
  length ts' <= length ts.
Proof. intros IH E. destruct ts as [|t ts]; [by injection E as _ <-|]. destruct (next_is _ _); [by injection E as _ <-|]. apply IH in E. cbn in *. lia. Qed.
Lemma parse_consumes fuel :
  consumes (parse_unknown fuel) /\ consumes (parse_object fuel) /\ (forall l, consumes (parse_members fuel l)) /\ (forall l, consumes (parse_elements fuel l)).
Proof.
  induction fuel as [|fuel (IHu & IHo & IHm & IHe)]; [done|]. split; [|split; [by apply object_consumes|split]].
  - intros [|t rest] j ts' H; [done|]. cbn [parse_unknown] in H. destruct (nType t); try done.
    + apply jbind_inv in H as ([l ts1] & E & H). injection H as _ ->. by apply IHo in E.
    + token_inv H. apply jbind_inv in H as ([l ts1] & E & H). apply array_consumes in E; [|done]. token_inv H. injection H as _ ->. cbn in *. lia.
    + token_inv H. injection H as _ ->. cbn. lia.
    + by apply parse_number_consumes in H.
    + token_inv H. injection H as _ ->. cbn. lia.
    + token_inv H. injection H as _ ->. cbn. lia.
  - intros l ts l' ts' H. cbn [parse_members] in H. destruct ts as [|t ts]; [done|]. token_inv H. token_inv H.
    apply jbind_inv in H as ([j rest] & E & H). apply IHu in E. destruct (Insert _ _ _); [|done]. destruct (next_is _ _).
    + token_inv H. apply IHm in H. cbn in *. lia.
    + injection H as _ ->. cbn. lia.
  - intros l ts l' ts' H. cbn [parse_elements] in H. apply jbind_inv in H as ([j ts1] & E & H). apply IHu in E. destruct (next_is _ _).
    + token_inv H. apply IHe in H. cbn in *. lia.
    + by injection H as _ ->.
Qed.

Lemma object_ends fuel ts : (forall l ts', length ts' < length ts -> ends (parse_members fuel l ts')) -> ends (parse_object (S fuel) ts).
Proof.
  intros IH. cbn [parse_object]. apply ends_jbind; [apply MatchExpectedToken_ends|]. intros [v ts1] E. apply MatchExpectedToken_inv in E as (t & -> & _).
  apply ends_jbind; [|intros [l ts2] _; apply ends_jbind; [apply MatchExpectedToken_ends|by intros []]].
  destruct ts1; [done|]. destruct (next_is _ _); [done|]. apply IH. cbn. lia.
Qed.
Lemma array_ends fuel ts : ends (parse_elements fuel [] ts) ->
  ends (match ts with [] => mret ([], ts) | _ => if next_is TOKEN_ARRAY_END ts then mret ([], ts) else parse_elements fuel [] ts end : jres (list json * list Token)).
Proof. intros H. destruct ts; [done|]. by destruct (next_is _ _). Qed.
Lemma tokens_parse_ends fuel :
  (forall ts, 2 * length ts < fuel -> ends (parse_unknown fuel ts)) /\
  (forall ts, 2 * length ts <= fuel -> 0 < fuel -> ends (parse_object fuel ts)) /\
  (forall l ts, 2 * length ts < fuel -> ends (parse_members fuel l ts)) /\
  (forall l ts, 2 * length ts + 1 < fuel -> ends (parse_elements fuel l ts)).
Proof.
  induction fuel as [|fuel (IHu & IHo & IHm & IHe)]; [split_and!; intros; lia|]. destruct (parse_consumes fuel) as (Cu & _). split_and!.
  - intros [|t rest] Hf; [done|]. cbn [parse_unknown]. cbn [length] in Hf. destruct (nType t); try done;
      try (apply ends_jbind; [apply MatchExpectedToken_ends|by intros []]).
    + apply ends_jbind; [|by intros []]. apply IHo; cbn; lia.
    + apply ends_jbind; [apply MatchExpectedToken_ends|]. intros [v ts] E. apply MatchExpectedToken_inv in E as (? & [= _ ->] & _).
      apply ends_jbind; [apply array_ends, IHe; lia|]. intros [l ts1] _. apply ends_jbind; [apply MatchExpectedToken_ends|by intros []].
    + apply ends_jbind; [apply MatchExpectedToken_ends|]. intros [v ts] _. by destruct (read_double v) as [d []].
  - intros ts Hf _. apply object_ends. intros l ts' Hl. apply IHm. lia.
  - intros l ts Hf. cbn [parse_members]. destruct ts as [|t ts]; [done|]. cbn [length] in Hf.
    apply ends_jbind; [apply MatchExpectedToken_ends|]. intros [n ts1] E. apply MatchExpectedToken_inv in E as (? & [= _ ->] & _).
    apply ends_jbind; [apply MatchExpectedToken_ends|]. intros [a ts2] E. apply MatchExpectedToken_inv in E as (? & -> & _). cbn [length] in Hf.
    apply ends_jbind; [apply IHu; lia|]. intros [j ts3] E. apply Cu in E. destruct (Insert _ _ _); [|done]. destruct (next_is _ _); [|done].
    apply ends_jbind; [apply MatchExpectedToken_ends|]. intros [c ts4] E'. apply MatchExpectedToken_inv in E' as (? & -> & _). cbn [length] in E. apply IHm. lia.
  - intros l ts Hf. cbn [parse_elements]. apply ends_jbind; [apply IHu; lia|]. intros [j ts1] E. apply Cu in E. destruct (next_is _ _); [|done].
    apply ends_jbind; [apply MatchExpectedToken_ends|]. intros [c ts2] E'. apply MatchExpectedToken_inv in E' as (? & -> & _). cbn [length] in E. apply IHe. lia.
Qed.

End reader.

Section facts.
Context {D : DoubleText}.
#[local] Existing Instance jres_ret.
#[local] Existing Instance jres_bind.

(** ** The documents the writer is right about *)

(** The name of a member is written as it is. *)
Definition plain_name (n : str) : Prop := Forall (fun c => c <> DQUOTE /\ c <> BACKSLASH) n.
Fixpoint writable (j : json) : Prop :=
  match j with
  | Number d => finite d
  | Array l => foldr and True (map writable l)
  | Object l => NoDup l.*1 /\ foldr and True (map (fun m => plain_name m.1 /\ writable m.2) l)
  | _ => True
  end.
Lemma foldr_and {A} (P : A -> Prop) l : foldr and True (map P l) <-> Forall P l.
Proof. induction l as [|x l IH]; cbn; [done|]. rewrite IH, Forall_cons. done. Qed.

(** ** The tokens of a document *)

Definition sep : Token := mkToken TOKEN_NEXT_ELEMENT #",".
Fixpoint commas (l : list (list Token)) : list Token :=
  match l with
  | [] => []
  | [x] => x
  | x :: l => x ++ sep :: commas l
  end.
Fixpoint tokens_of (j : json) : list Token :=
  match j with
  | Null => [mkToken TOKEN_NULL #"null"]
  | Boolean b => [mkToken TOKEN_BOOLEAN (if b then #"true" else #"false")]
  | Number d => [mkToken TOKEN_NUMBER (show_double d)]
  | String s => [mkToken TOKEN_STRING s]
  | Array l => mkToken TOKEN_ARRAY_BEGIN #"[" :: commas (map tokens_of l) ++ [mkToken TOKEN_ARRAY_END #"]"]
  | Object l =>
      mkToken TOKEN_OBJECT_BEGIN #"{" ::
      commas (map (fun m => mkToken TOKEN_STRING m.1 :: mkToken TOKEN_MEMBER_ASSIGN #":" :: tokens_of m.2) l) ++ [mkToken TOKEN_OBJECT_END #"}"]
  end.

(** ** Scanning what is written *)

(** The scanner makes the tokens of the text. *)
Definition scans (s : str) (ts : list Token) : Prop := forall fuel, length s < fuel -> scan fuel s = mret ts.
(** A text that does not go on with a number. *)
Definition apart (s : str) : Prop := match s with c :: _ => numeric c = false | [] => True end.
(** A piece of text is some tokens wherever it stands. *)
Definition piece (p : str) (ts : list Token) : Prop := forall rest ts', apart rest -> scans rest ts' -> scans (p ++ rest) (ts ++ ts').

Lemma scans_nil : scans [] [].
Proof. intros [|fuel] H; [lia|]. done. Qed.
Lemma scans_space w s ts : Forall (fun c => isspace c = true) w -> scans s ts -> scans (w ++ s) ts.
Proof.
  intros Hw Hs fuel Hf. rewrite length_app in Hf. destruct fuel as [|fuel]; [lia|]. specialize (Hs (S fuel)).
  cbn [scan] in *. rewrite skip_space_app by exact Hw. apply Hs. lia.
Qed.
Lemma piece_skip w p ts : Forall (fun c => isspace c = true) w -> piece p ts -> piece (w ++ p) ts.
Proof. intros Hw H rest us Ha Hs. rewrite <- app_assoc. apply scans_space; [done|]. by apply H. Qed.
Lemma piece_token c p t : isspace c = false -> (forall rest, apart rest -> scan_token ((c :: p) ++ rest) = mret (t, rest)) -> piece (c :: p) [t].
Proof.
  intros Hc Ht rest ts Ha Hs fuel Hf. destruct fuel as [|fuel]; [lia|]. cbn [scan]. cbn [app]. unfold skip_space at 1; fold skip_space. rewrite Hc.
  specialize (Ht rest Ha). cbn [app] in Ht. rewrite Ht, ret_bind. rewrite (Hs fuel); [done|]. cbn in Hf. rewrite length_app in Hf. lia.
Qed.
Lemma piece_app p q ts us : (forall rest, apart rest -> apart (q ++ rest)) -> piece p ts -> piece q us -> piece (p ++ q) (ts ++ us).
Proof. intros Hq H1 H2 rest ts' Ha Hs. rewrite <- !app_assoc. apply H1; [by apply Hq|]. by apply H2. Qed.
(** The text begins apart, whatever follows. *)
Lemma apart_cons c q rest : numeric c = false -> apart ((c :: q) ++ rest).
Proof. done. Qed.

Lemma match_expected_app whole e rest : match_expected whole e (e ++ rest) = mret rest.
Proof. induction e as [|c e IH]; cbn [match_expected app]; [done|]. by rewrite bool_decide_eq_true_2. Qed.
Lemma MatchNumber_app n rest : Forall (fun c => numeric c = true) n -> apart rest -> MatchNumber (n ++ rest) = (n, rest).
Proof.
  induction 1 as [|c n Hc _ IH]; intros Ha; cbn [app MatchNumber].
  - destruct rest as [|c rest]; [done|]. cbn [MatchNumber]. by rewrite Ha.
  - by rewrite Hc, IH.
Qed.
Lemma match_string_escaped acc s rest : match_string acc (concat (map escape_char s) ++ DQUOTE :: rest) = mret (acc ++ s, rest).
Proof.
  revert acc. induction s as [|c s IH]; intros acc.
  { cbn [map concat app match_string]. rewrite bool_decide_eq_true_2 by done. by rewrite app_nil_r. }
  cbn [map concat]. rewrite <- app_assoc. cut (match_string acc (escape_char c ++ concat (map escape_char s) ++ DQUOTE :: rest) = match_string (acc ++ [c]) (concat (map escape_char s) ++ DQUOTE :: rest)).
  { intros ->. rewrite IH. by rewrite <- app_assoc. }
  generalize (concat (map escape_char s) ++ DQUOTE :: rest). clear. intros s. unfold escape_char.
  repeat (match goal with |- context [if bool_decide (c = ?x) then _ else _] => destruct (bool_decide_reflect (c = x)) as [->|?]; [reflexivity|] end).
  cbn [app match_string]. rewrite !bool_decide_eq_false_2 by done. by destruct s.
Qed.
Lemma match_string_plain acc n rest : plain_name n -> match_string acc (n ++ DQUOTE :: rest) = mret (acc ++ n, rest).
Proof.
  intros Hn. revert acc. induction Hn as [|c n [H1 H2] _ IH]; intros acc; cbn [app match_string].
  - rewrite bool_decide_eq_true_2 by done. by rewrite app_nil_r.
  - rewrite !bool_decide_eq_false_2 by done. cbn match. rewrite IH. by rewrite <- app_assoc.
Qed.

Lemma scan_token_quote s : scan_token (DQUOTE :: s) = '(v, s) ← match_string [] s; mret (mkToken TOKEN_STRING v, s).
Proof. reflexivity. Qed.
Lemma piece_string s : piece (write_string s) [mkToken TOKEN_STRING s].
Proof. apply piece_token; [done|]. intros rest _. cbn [app]. rewrite scan_token_quote, <- app_assoc. cbn [app]. by rewrite match_string_escaped. Qed.
Lemma piece_name n : plain_name n -> piece (DQUOTE :: n ++ [DQUOTE]) [mkToken TOKEN_STRING n].
Proof. intros Hn. apply piece_token; [done|]. intros rest _. cbn [app]. rewrite scan_token_quote, <- app_assoc. cbn [app]. by rewrite match_string_plain. Qed.
Lemma starts_no_space c : starts_number c = true -> negb (isspace c || bool_decide (c ∈ #"{}[],:" ++ [DQUOTE])) = true.
Proof. revert c. apply ascii_pred_impl. vm_compute. reflexivity. Qed.
Lemma piece_number d : finite d -> piece (show_double d) [mkToken TOKEN_NUMBER (show_double d)].
Proof.
  intros Hd. destruct (show_numeric d Hd) as (c & s & -> & Hc & Hs). pose proof (starts_no_space c Hc) as Hn.
  apply negb_true_iff, orb_false_iff in Hn as [Hn1 Hn2]. apply bool_decide_eq_false_1 in Hn2.
  apply piece_token; [done|]. intros rest Ha. unfold scan_token. cbn [app].
  rewrite !(bool_decide_eq_false_2 (c = _)) by (intros ->; apply Hn2; cbn; set_solver). rewrite Hc. change (c :: s ++ rest) with ((c :: s) ++ rest). by rewrite MatchNumber_app.
Qed.
(** A token that is always the same text. *)
Ltac fixed := apply piece_token; [reflexivity|]; intros rest _; reflexivity.
Lemma piece_open_array : piece #"[" [mkToken TOKEN_ARRAY_BEGIN #"["]. Proof. fixed. Qed.
Lemma piece_close_array : piece #"]" [mkToken TOKEN_ARRAY_END #"]"]. Proof. fixed. Qed.
Lemma piece_open_object : piece #"{" [mkToken TOKEN_OBJECT_BEGIN #"{"]. Proof. fixed. Qed.
Lemma piece_close_object : piece #"}" [mkToken TOKEN_OBJECT_END #"}"]. Proof. fixed. Qed.
Lemma piece_comma : piece #"," [sep]. Proof. fixed. Qed.
Lemma piece_colon : piece #":" [mkToken TOKEN_MEMBER_ASSIGN #":"]. Proof. fixed. Qed.
Lemma piece_null : piece #"null" [mkToken TOKEN_NULL #"null"]. Proof. fixed. Qed.
Lemma piece_boolean b : piece (if b : bool then #"true" else #"false") [mkToken TOKEN_BOOLEAN (if b then #"true" else #"false")].
Proof. destruct b; fixed. Qed.

Lemma tabs_space n : Forall (fun c => isspace c = true) (tabs n).
Proof. by apply Forall_replicate. Qed.
Lemma apart_tabs n s : apart s -> apart (tabs n ++ s).
Proof. by destruct n. Qed.
(** [write_lines] of texts each of which is a piece, in front of the bracket that closes them. *)
Lemma scans_lines {A} (f : A -> str) (g : A -> list Token) depth l :
  Forall (fun x => piece (f x) (g x)) l ->
  forall rest ts, apart rest -> scans rest ts -> scans (write_lines (S depth) (map f l) ++ rest) (commas (map g l) ++ ts).
Proof.
  induction 1 as [|x l Hx _ IH]; intros rest ts Ha Hs; [done|].
  destruct l as [|y l]; cbn [map write_lines commas] in *; rewrite <- !app_assoc; (apply scans_space; [apply tabs_space|]); apply Hx; try done.
  - apply (scans_space [LF]); [by repeat constructor|done].
  - change (sep :: ?a) with ([sep] ++ a). rewrite <- app_assoc.
    apply piece_comma; [done|]. apply (scans_space [LF]); [by repeat constructor|by apply IH].
Qed.
(** What is between the brackets of an array or an object that is not empty. *)
Lemma piece_body {A} (f : A -> str) (g : A -> list Token) depth l close t :
  Forall (fun x => piece (f x) (g x)) l -> (forall rest, apart (close ++ rest)) -> piece close [t] ->
  piece ([LF] ++ write_lines (S depth) (map f l) ++ tabs depth ++ close) (commas (map g l) ++ [t]).
Proof.
  intros Hl Hc Ht rest ts Ha Hs. rewrite <- !app_assoc. apply (scans_space [LF]); [by repeat constructor|].
  apply scans_lines; [done|by apply apart_tabs|]. rewrite app_assoc. apply piece_skip; [apply tabs_space|done..].
Qed.
Lemma piece_member n p ts : plain_name n -> piece p ts ->
  piece (DQUOTE :: n ++ [DQUOTE] ++ #" : " ++ p) (mkToken TOKEN_STRING n :: mkToken TOKEN_MEMBER_ASSIGN #":" :: ts).
Proof.
  intros Hn Hp. change (DQUOTE :: ?n ++ [DQUOTE] ++ ?r) with ((DQUOTE :: n) ++ [DQUOTE] ++ r). rewrite app_assoc.
  apply (piece_app _ _ [_] _); [done|by apply piece_name|]. apply (piece_app #" :" (#" " ++ _) [_] _); [done| |].
  - apply (piece_skip #" "); [by repeat constructor|apply piece_colon].
  - apply piece_skip; [by repeat constructor|done].
Qed.
Lemma piece_write j : writable j -> forall depth, piece (write depth j) (tokens_of j).
Proof.
  induction j as [|b|d|s|l IH|l IH] using json_induction; intros Hw depth; cbn [write tokens_of].
  - apply piece_null.
  - apply piece_boolean.
  - by apply piece_number.
  - apply piece_string.
  - cbn in Hw. apply foldr_and in Hw. destruct l as [|x l].
    { apply (piece_app #"[" #"]" [_] [_]); [done|apply piece_open_array|apply piece_close_array]. }
    apply (piece_app #"[" _ [_] _); [done|apply piece_open_array|]. apply piece_body; [|done|apply piece_close_array].
    eapply Forall_impl; [exact (proj2 (Forall_and _ _) (conj IH Hw))|]. intros y [Hy ?]. by apply Hy.
  - cbn in Hw. destruct Hw as [_ Hw]. apply foldr_and in Hw. destruct l as [|x l].
    { apply (piece_app #"{" #"}" [_] [_]); [done|apply piece_open_object|apply piece_close_object]. }
    apply (piece_app #"{" _ [_] _); [done|apply piece_open_object|]. apply piece_body; [|done|apply piece_close_object].
    eapply Forall_impl; [exact (proj2 (Forall_and _ _) (conj IH Hw))|]. intros y [Hy [Hn ?]].
    apply piece_member; [done|]. by apply Hy.
Qed.

(** ** Parsing the tokens of a document *)

Lemma MatchExpectedToken_hit ty v ts : MatchExpectedToken ty (mkToken ty v :: ts) = mret (v, ts).
Proof. cbn. by destruct (decide _). Qed.
Lemma tokens_of_first j : exists t r, tokens_of j = t :: r /\ nType t <> TOKEN_ARRAY_END.
Proof. destruct j; cbn; eauto. Qed.
(** The parser gives the document back from its tokens. *)
Definition parsed_back (j : json) : Prop := forall fuel ts, 2 * length (tokens_of j) < fuel -> parse_unknown fuel (tokens_of j ++ ts) = mret (j, ts).

Lemma elements_parsed l acc ts fuel :
  Forall parsed_back l -> l <> [] -> next_is TOKEN_NEXT_ELEMENT ts = false -> 2 * length (commas (map tokens_of l)) + 1 < fuel ->
  parse_elements fuel acc (commas (map tokens_of l) ++ ts) = mret (acc ++ l, ts).
Proof.
  intros Hl. revert acc fuel. induction Hl as [|x l Hx Hl IH]; intros acc fuel Hn Ht Hf; [done|]. destruct fuel as [|fuel]; [lia|].
  cbn [parse_elements]. destruct l as [|y l]; cbn [map commas] in *.
  - rewrite Hx by lia. cbn -[next_is]. by rewrite Ht.
  - rewrite <- app_assoc. rewrite length_app in Hf. cbn [length] in Hf. rewrite Hx by lia. rewrite ret_bind. cbn [app next_is sep nType].
    rewrite bool_decide_eq_true_2 by done. unfold sep. rewrite MatchExpectedToken_hit, ret_bind, IH by (done || lia). by rewrite <- app_assoc.
Qed.

Lemma Find_none name (l : list (str * json)) : name ∉ l.*1 -> Find name l = None.
Proof. induction l as [|[n j] l IH]; cbn; [done|]. intros H. rewrite bool_decide_eq_false_2 by (intros ->; apply H; left). apply IH. intros Hin. apply H. by right. Qed.
Definition member_tokens (m : str * json) : list Token := mkToken TOKEN_STRING m.1 :: mkToken TOKEN_MEMBER_ASSIGN #":" :: tokens_of m.2.
Lemma members_parsed l acc ts fuel :
  Forall (fun m => parsed_back m.2) l -> NoDup (acc ++ l).*1 -> l <> [] -> next_is TOKEN_NEXT_ELEMENT ts = false ->
  2 * length (commas (map member_tokens l)) < fuel -> parse_members fuel acc (commas (map member_tokens l) ++ ts) = mret (acc ++ l, ts).
Proof.
  intros Hl. revert acc fuel. induction Hl as [|[n x] l Hx Hl IH]; intros acc fuel Hd Hn Ht Hf; [done|]. destruct fuel as [|fuel]; [lia|]. cbn in Hx.
  assert (Hi : Insert n x acc = Some (acc ++ [(n, x)])).
  { unfold Insert. rewrite Find_none; [done|]. rewrite fmap_app in Hd. apply NoDup_app in Hd as (_ & Hd & _). intros Hin. apply (Hd n Hin). left. }
  cbn [parse_members]. destruct l as [|y l]; cbn [map commas member_tokens fst snd app length] in *.
  - rewrite !MatchExpectedToken_hit, ret_bind, MatchExpectedToken_hit, ret_bind, Hx, ret_bind, Hi by lia. by rewrite Ht.
  - rewrite <- app_assoc. rewrite length_app in Hf. cbn [length] in Hf.
    rewrite MatchExpectedToken_hit, ret_bind, MatchExpectedToken_hit, ret_bind, Hx, ret_bind, Hi by lia. cbn [app next_is sep nType].
    rewrite bool_decide_eq_true_2 by done. unfold sep. rewrite MatchExpectedToken_hit, ret_bind, IH; [|by rewrite <- app_assoc|done|done|lia]. by rewrite <- app_assoc.
Qed.

Lemma object_parsed l ts fuel :
  Forall (fun m => parsed_back m.2) l -> NoDup l.*1 -> 2 * length (tokens_of (Object l)) <= fuel -> parse_object fuel (tokens_of (Object l) ++ ts) = mret (l, ts).
Proof.
  intros Hl Hd Hf. cbn [tokens_of] in *. change (fun m => _ :: _ :: tokens_of m.2) with member_tokens in *. cbn [length app] in *. rewrite length_app in Hf. cbn [length] in Hf.
  destruct fuel as [|fuel]; [lia|]. cbn [parse_object]. rewrite MatchExpectedToken_hit, ret_bind. destruct l as [|m l]; [done|].
  pose proof (members_parsed (m :: l) [] (mkToken TOKEN_OBJECT_END #"}" :: ts) fuel Hl Hd) as H. rewrite <- app_assoc. cbn [app] in *.
  destruct (commas (map member_tokens (m :: l))) as [|t r] eqn:E; [by destruct l|]. assert (nType t = TOKEN_STRING) as Hty by (by destruct l; injection E as <- _).
  cbn [app next_is]. rewrite bool_decide_eq_false_2 by (by rewrite Hty). cbn [app] in H. rewrite H, ret_bind by (done || lia). by rewrite MatchExpectedToken_hit.
Qed.
Lemma parse_tokens j : writable j -> parsed_back j.
Proof.
  induction j as [|b|d|s|l IH|l IH] using json_induction; intros Hw fuel ts Hf; (destruct fuel as [|fuel]; [lia|]); try done.
  - by destruct b.
  - cbn [tokens_of app parse_unknown nType]. unfold parse_number. rewrite MatchExpectedToken_hit, ret_bind. by rewrite read_shown.
  - cbn in Hw. apply foldr_and in Hw. assert (Hl : Forall parsed_back l) by (eapply Forall_impl; [exact (proj2 (Forall_and _ _) (conj IH Hw))|]; by intros y [Hy ?]; apply Hy).
    cbn [tokens_of app parse_unknown nType length] in *. rewrite MatchExpectedToken_hit, ret_bind. destruct l as [|x l]; [done|].
    rewrite length_app in Hf. cbn [length] in Hf.
    pose proof (elements_parsed (x :: l) [] (mkToken TOKEN_ARRAY_END #"]" :: ts) fuel Hl) as H. rewrite <- app_assoc. cbn [app] in *.
    destruct (commas (map tokens_of (x :: l))) as [|t r] eqn:E; [destruct (tokens_of_first x) as (t & r & Hx & _); cbn in E; rewrite Hx in E; by destruct l|].
    assert (nType t <> TOKEN_ARRAY_END) as Hty by (destruct (tokens_of_first x) as (t' & r' & Hx & ?); cbn in E; rewrite Hx in E; destruct l; by injection E as <- _).
    cbn [app next_is]. rewrite bool_decide_eq_false_2 by done. cbn [app] in H. rewrite H, ret_bind by (done || lia). by rewrite MatchExpectedToken_hit.
  - cbn in Hw. destruct Hw as [Hd Hw]. apply foldr_and in Hw.
    change (parse_unknown (S fuel) (tokens_of (Object l) ++ ts)) with ('(l, ts) ← parse_object fuel (tokens_of (Object l) ++ ts); mret (Object l, ts) : jres (json * list Token)).
    rewrite object_parsed; [done| |done|lia]. eapply Forall_impl; [exact (proj2 (Forall_and _ _) (conj IH Hw))|]. by intros y [Hy [? ?]]; apply Hy.
Qed.

(** ** Theorems *)

(** C26: the reader comes to an end on every text: what it gives is a document or an exception, or
    an assertion fails. *)
Theorem json_reader_ends s : ends (Read s) /\ ends (ReadObject s).
Proof.
  assert (U : forall A (r : A * list Token), ends (all_used r)) by (intros A [a []]; done).
  split; (apply ends_jbind; [apply scan_ends; lia|]); intros ts _; (apply ends_jbind; [|done]); unfold enough;
    destruct (tokens_parse_ends (2 * length ts + 2)) as (Hu & Ho & _); [apply Hu|apply Ho]; lia.
Qed.

Lemma read_back j : writable j -> Read (Write j) = Val (inr j) /\ forall l, j = Object l -> ReadObject (Write j) = Val (inr l).
Proof.
  intros Hw. assert (Hs : Scan (Write j) = mret (tokens_of j)).
  { pose proof (piece_write j Hw 0 [] [] I scans_nil) as H. rewrite !app_nil_r in H. apply H. unfold Write. lia. }
  split.
  - unfold Read. rewrite Hs, ret_bind. rewrite <- (app_nil_r (tokens_of j)) at 2. by rewrite parse_tokens by (done || unfold enough; lia).
  - intros l ->. unfold ReadObject. rewrite Hs, ret_bind. rewrite <- (app_nil_r (tokens_of (Object l))) at 2. cbn in Hw. destruct Hw as [Hd Hw].
    apply foldr_and in Hw. rewrite object_parsed; [done| |done|unfold enough; lia]. eapply Forall_impl; [exact Hw|]. intros m [_ ?]. by apply parse_tokens.
Qed.

(** C25: what the writer gives of a document is read back as the document it was, if its numbers
    are finite, and the names of the members of each object are distinct and free of quotes and
    backslashes. *)
Theorem json_roundtrip j : writable j ->
  Read (Write j) = Val (inr j) /\ forall l, j = Object l -> ReadObject (Write j) = Val (inr l).
Proof. apply read_back. Qed.

(** The text of an object that ends behind a comma does not make the reader throw: the
    assertion of [Peek] fails, whatever the member in front of the comma is. *)
Theorem json_trailing_comma_aborts n j : plain_name n -> writable j ->
  Read (#"{" ++ (DQUOTE :: n ++ [DQUOTE] ++ #" : " ++ Write j) ++ #",") = Abort.
Proof.
  intros Hn Hj. set (ts := mkToken TOKEN_OBJECT_BEGIN #"{" :: mkToken TOKEN_STRING n :: mkToken TOKEN_MEMBER_ASSIGN #":" :: tokens_of j ++ [sep]).
  assert (Hs : Scan (#"{" ++ (DQUOTE :: n ++ [DQUOTE] ++ #" : " ++ Write j) ++ #",") = mret ts).
  { unfold Scan. apply (piece_open_object _ (tail ts)); [done| |lia].
    apply (piece_member n (Write j) (tokens_of j) Hn (piece_write j Hj 0) #"," [sep]); [done|]. exact (piece_comma [] [] I scans_nil). }
  unfold Read. rewrite Hs, ret_bind. unfold enough. destruct (2 * length ts + 2) as [|[|[|fuel]]] eqn:E; [cbn in E; lia..|]. subst ts. cbn [length] in E. rewrite length_app in E. cbn [length] in E.
  cbn [parse_unknown parse_object parse_members nType]. rewrite MatchExpectedToken_hit, ret_bind. cbn [next_is nType]. rewrite bool_decide_eq_false_2 by done.
  rewrite MatchExpectedToken_hit, ret_bind, MatchExpectedToken_hit, ret_bind, parse_tokens, ret_bind; [|done|lia].
  cbn [Insert Find next_is sep nType]. rewrite bool_decide_eq_true_2 by done. unfold sep. rewrite MatchExpectedToken_hit, ret_bind. destruct fuel; [lia|done].
Qed.

End facts.

(** ** A reference instance *)

Lemma digit_numeric c : digit c -> starts_number c && numeric c = true.
Proof.
  intros [d Hd]. assert (H : match digit_val c with Some _ => true | None => false end = true) by (by rewrite Hd). clear Hd. revert c H.
  apply ascii_pred_impl. vm_compute. reflexivity.
Qed.
Lemma dec_numeric z : True -> exists c s, dec z = c :: s /\ starts_number c = true /\ Forall (fun c => numeric c = true) (c :: s).
Proof.
  intros _. pose proof (dec_nonempty z). assert (S : forall s, Forall digit s -> Forall (fun c => numeric c = true) s).
  { intros s Hs. eapply Forall_impl; [exact Hs|]. intros c Hc%digit_numeric%andb_true_iff. by destruct Hc. }
  pose proof (dec_nat_digits (- z)) as H1. pose proof (dec_nat_digits z) as H2. unfold dec in *. destruct (_ <? 0)%Z.
  - exists "-"%char, (dec_nat (- z)). split_and!; [done|done|]. constructor; [done|by apply S].
  - destruct (dec_nat z) as [|c s]; [done|]. exists c, s. split_and!; [done| |by apply S].
    inversion_clear H2 as [|? ? Hc]. apply digit_numeric, andb_true_iff in Hc. by destruct Hc.
Qed.
Definition read_integer (s : str) : Z * bool := match ref_number s with Some z => (z, true) | None => (0%Z, false) end.
Lemma read_integer_dec z : True -> read_integer (dec z) = (z, true).
Proof. intros _. unfold read_integer. by rewrite ref_number_dec. Qed.
(** Integers as numbers. *)
#[export] Instance integers_as_doubles : DoubleText := {|
  double := Z; double_of_Z := fun z => z; Z_of_double := fun z => z; finite := fun _ => True; show_double := dec; read_double := read_integer;
  exact_integers := fun z _ => eq_refl; finite_integers := fun _ _ => I; show_numeric := dec_numeric; read_shown := read_integer_dec |}.

Definition sample : json :=
  Object [ (#"Identifier", String (#"a" ++ [DQUOTE; LF; BACKSLASH])); (#"Codecs", Array [Number 8%Z; Number (-1)%Z; Array []]); (#"Hold", Boolean false); (#"Fax", Object []); (#"Next", Null) ].
Example sample_text :
  Write sample =
  #"{" ++ [LF; TAB; DQUOTE] ++ #"Identifier" ++ [DQUOTE] ++ #" : " ++ [DQUOTE] ++ #"a" ++ [BACKSLASH; DQUOTE; BACKSLASH] ++ #"n" ++ [BACKSLASH; BACKSLASH; DQUOTE] ++ #"," ++
  [LF; TAB; DQUOTE] ++ #"Codecs" ++ [DQUOTE] ++ #" : [" ++ [LF; TAB; TAB] ++ #"8," ++ [LF; TAB; TAB] ++ #"-1," ++ [LF; TAB; TAB] ++ #"[]" ++ [LF; TAB] ++ #"]," ++
  [LF; TAB; DQUOTE] ++ #"Hold" ++ [DQUOTE] ++ #" : false," ++ [LF; TAB; DQUOTE] ++ #"Fax" ++ [DQUOTE] ++ #" : {}," ++
  [LF; TAB; DQUOTE] ++ #"Next" ++ [DQUOTE] ++ #" : null" ++ [LF] ++ #"}".
Proof. vm_compute. reflexivity. Qed.
Lemma plain_decided n : forallb (fun c => negb (bool_decide (c = DQUOTE)) && negb (bool_decide (c = BACKSLASH))) n = true -> plain_name n.
Proof.
  intros H. apply Forall_forall. intros c Hc. rewrite forallb_forall in H. apply list_elem_of_In in Hc. specialize (H c Hc).
  apply andb_true_iff in H as [H1 H2]. apply negb_true_iff in H1, H2. by split; [apply bool_decide_eq_false_1 in H1|apply bool_decide_eq_false_1 in H2].
Qed.
Lemma sample_writable : writable sample.
Proof.
  split; [apply (bool_decide_unpack (NoDup [ #"Identifier"; #"Codecs"; #"Hold"; #"Fax"; #"Next" ])); reflexivity|]. repeat split; try (by apply plain_decided); try done. constructor.
Qed.

Lemma json_roundtrip_witness : writable sample /\ Read (Write sample) = Val (inr sample).
Proof. split; [exact sample_writable|]. exact (proj1 (json_roundtrip sample sample_writable)). Defined.
Lemma json_trailing_comma_aborts_witness :
  plain_name #"Session" /\ writable sample /\ Read (#"{" ++ (DQUOTE :: #"Session" ++ [DQUOTE] ++ #" : " ++ Write sample) ++ #",") = Abort.
Proof.
  assert (Hn : plain_name #"Session") by (by apply plain_decided). split; [exact Hn|]. split; [exact sample_writable|].
  exact (json_trailing_comma_aborts #"Session" sample Hn sample_writable).
Defined.
