(* ===== verification/RtpRecord.v ===== *)
(** * The records of sessions

    What is kept of a session (RTPProxyRecord.cpp, RTPProxySession.cpp), the documents it is
    written to and read from, the clients of the servers that keep these (RedisClient.cpp),
    and the session that is made of a record after a restart.

    A server is an argument: [RedisServer] states what SETEX and GET are documented to do. *)

From S2P Require Import Prelude CMem CoreStrings SdpText IpAddress RtpPacket RtpProxy RtpSession Json.
Open Scope nat_scope.

(** ** Records *)

Record SBCMediaRecord := mkMediaRecord {
  mr_identifier : str;
  mr_localEndPointLeg1 : str;
  mr_localEndPointLeg2 : str;
  mr_senderEndPointLeg1 : str;
  mr_senderEndPointLeg2 : str;
  mr_lastSenderEndPointLeg1 : str;
  mr_lastSenderEndPointLeg2 : str;
  mr_adjustSenderFromPacketSource : bool;
  mr_leg1Reset : bool;
  mr_leg2Reset : bool;
  mr_isStarted : bool;
  mr_isInactive : bool;
  mr_isLeg1XOREncrypted : bool;
  mr_isLeg2XOREncrypted : bool
}.
Record SBCMediaTuple := mkMediaTuple { mt_data : SBCMediaRecord; mt_control : SBCMediaRecord }.
Record RTPProxyRecord := mkProxyRecord {
  pr_identifier : str;
  pr_logId : str;
  pr_leg1Identifier : str;
  pr_leg2Identifier : str;
  pr_leg1OriginAddress : str;
  pr_leg2OriginAddress : str;
  pr_lastSDPInAck : str;
  pr_isExpectingInitialAnswer : bool;
  pr_hasOffered : three bool;
  pr_isNegotiated : three bool;
  pr_verbose : bool;
  pr_state : Z;
  pr_lastOfferIndex : Z;
  pr_timestamp : Z;
  pr_media : three SBCMediaTuple
}.
(** The constructor. *)
Definition empty_media : SBCMediaRecord := mkMediaRecord [] [] [] [] [] [] [] false false false false false false false.
Definition empty_tuple : SBCMediaTuple := mkMediaTuple empty_media empty_media.

(** The number of a state in its enumeration. *)
Definition state_number (st : State) : Z :=
  match st with
  | IDLE => 0
  | INVITE_WAITING_ANSWER_RESPONSE => 1
  | INVITE_WAITING_ANSWER_ACK_OR_PRACK => 2
  | OFFER_WAITING_AUTHENTICATION => 3
  | ANSWER_REQUIRED_AUTHENTICATION => 4
  | UPDATE_WAITING_ANSWER => 5
  | PRACK_WAITING_ANSWER => 6
  | NEGOTIATED => 7
  | STATE_INVALID => 8
  end%Z.
(** The conversion; a number of no state is none of those the code asks for. *)
Definition state_of_number (n : Z) : State :=
  match n with
  | 0 => IDLE
  | 1 => INVITE_WAITING_ANSWER_RESPONSE
  | 2 => INVITE_WAITING_ANSWER_ACK_OR_PRACK
  | 3 => OFFER_WAITING_AUTHENTICATION
  | 4 => ANSWER_REQUIRED_AUTHENTICATION
  | 5 => UPDATE_WAITING_ANSWER
  | 6 => PRACK_WAITING_ANSWER
  | 7 => NEGOTIATED
  | _ => STATE_INVALID
  end%Z.

(** ** The servers *)

(** SETEX with its status, and GET, whose reply is empty when there is no value. *)
Class RedisServer := {
  server : Type;
  redis_setex : server -> Z -> str -> Z -> str -> server * str;
  redis_get : server -> Z -> str -> str;
  (** A value that was set is there until it expires. *)
  redis_get_set : forall sv now key seconds v sv',
    redis_setex sv now key seconds v = (sv', #"OK") -> forall t, (now <= t < now + 1000 * seconds)%Z -> redis_get sv' t key = v
}.

Section record.
Context {boost : BoostString} {text : BoostText} {asio : AsioAddress} {D : DoubleText}.

(** ** From a session to a record *)

Definition endpoint_text (e : endpoint) : str := to_string e.1 ++ #":" ++ dec e.2.
(** [_adjustSenderFromPacketSource] is true in every relay. *)
Definition media_record (p : RTPProxy) : SBCMediaRecord :=
  mkMediaRecord (cstr (identifier p)) (cstr (endpoint_text (localEndPointLeg1 p))) (cstr (endpoint_text (localEndPointLeg2 p)))
    (cstr (endpoint_text (senderEndPointLeg1 p))) (cstr (endpoint_text (senderEndPointLeg2 p)))
    (cstr (endpoint_text (lastSenderEndPointLeg1 p))) (cstr (endpoint_text (lastSenderEndPointLeg2 p)))
    true (leg1Reset p) (leg2Reset p) (isStarted p) (isInactiveFlag p) (isLeg1XOREncrypted p) (isLeg2XOREncrypted p).
Definition media_tuple (s : RTPProxySession) (k : kind) : SBCMediaTuple :=
  if at_kind (hasOffered s) k then mkMediaTuple (media_record (data (proxy s k))) (media_record (control (proxy s k))) else empty_tuple.
(** The record that [dumpStateToRedis] fills. *)
Definition record_of (s : RTPProxySession) : RTPProxyRecord :=
  mkProxyRecord (cstr (s_identifier s)) (cstr (logId s)) (cstr (leg1Identifier s)) (cstr (leg2Identifier s))
    (cstr (leg1OriginAddress s)) (cstr (leg2OriginAddress s)) (cstr (lastSDPInAck s)) (isExpectingInitialAnswer s)
    (hasOffered s) (isNegotiated s) (s_verbose s) (state_number (state s)) (Z.of_nat (lastOfferIndex s)) 0
    (mkThree (media_tuple s Audio) (media_tuple s Video) (media_tuple s Fax)).

(** ** From a record to a document *)

(** An object to whose members values are assigned one after the other. *)
Definition assign_members (o l : list (str * json)) : list (str * json) := foldl (fun o m => put m.1 m.2 o) o l.
Definition media_members (r : SBCMediaRecord) : list (str * json) :=
  assign_members [] [
    (#"identifier", String (mr_identifier r));
    (#"localEndPointLeg1", String (mr_localEndPointLeg1 r));
    (#"localEndPointLeg2", String (mr_localEndPointLeg2 r));
    (#"senderEndPointLeg1", String (mr_senderEndPointLeg1 r));
    (#"senderEndPointLeg2", String (mr_senderEndPointLeg2 r));
    (#"lastSenderEndPointLeg1", String (mr_lastSenderEndPointLeg1 r));
    (#"lastSenderEndPointLeg2", String (mr_lastSenderEndPointLeg2 r));
    (#"adjustSenderFromPacketSource", Boolean (mr_adjustSenderFromPacketSource r));
    (#"leg1Reset", Boolean (mr_leg1Reset r));
    (#"leg2Reset", Boolean (mr_leg2Reset r));
    (#"isStarted", Boolean (mr_isStarted r));
    (#"isInactive", Boolean (mr_isInactive r));
    (#"isLeg1XOREncrypted", Boolean (mr_isLeg1XOREncrypted r));
    (#"isLeg2XOREncrypted", Boolean (mr_isLeg2XOREncrypted r)) ].
Definition session_members (now : Z) (r : RTPProxyRecord) : list (str * json) :=
  assign_members [] [
    (#"timestamp", Number (double_of_Z now));
    (#"identifier", String (pr_identifier r));
    (#"logId", String (pr_logId r));
    (#"leg1Identifier", String (pr_leg1Identifier r));
    (#"leg2Identifier", String (pr_leg2Identifier r));
    (#"leg1OriginAddress", String (pr_leg1OriginAddress r));
    (#"leg2OriginAddress", String (pr_leg2OriginAddress r));
    (#"lastSDPInAck", String (pr_lastSDPInAck r));
    (#"isExpectingInitialAnswer", Boolean (pr_isExpectingInitialAnswer r));
    (#"hasOfferedAudioProxy", Boolean (of_audio (pr_hasOffered r)));
    (#"hasOfferedVideoProxy", Boolean (of_video (pr_hasOffered r)));
    (#"hasOfferedFaxProxy", Boolean (of_fax (pr_hasOffered r)));
    (#"isAudioProxyNegotiated", Boolean (of_audio (pr_isNegotiated r)));
    (#"isVideoProxyNegotiated", Boolean (of_video (pr_isNegotiated r)));
    (#"isFaxProxyNegotiated", Boolean (of_fax (pr_isNegotiated r)));
    (#"verbose", Boolean (pr_verbose r));
    (#"state", Number (double_of_Z (pr_state r)));
    (#"lastOfferIndex", Number (double_of_Z (pr_lastOfferIndex r))) ].
Definition data_name (k : kind) : str := match k with Audio => #"audio_data" | Video => #"video_data" | Fax => #"fax_data" end.
Definition control_name (k : kind) : str := match k with Audio => #"audio_control" | Video => #"video_control" | Fax => #"fax_control" end.
Definition write_kind (r : RTPProxyRecord) (k : kind) (params : list (str * json)) : list (str * json) :=
  if at_kind (pr_hasOffered r) k then
    assign_members params [
      (data_name k, Object (media_members (mt_data (at_kind (pr_media r) k))));
      (control_name k, Object (media_members (mt_control (at_kind (pr_media r) k)))) ]
  else params.
(** The document of [writeToRedis]. *)
Definition record_members (now : Z) (r : RTPProxyRecord) : list (str * json) :=
  write_kind r Fax (write_kind r Video (write_kind r Audio (session_members now r))).

(** ** From a document to a record *)

Definition read_media (o : list (str * json)) : SBCMediaRecord :=
  mkMediaRecord (as_string (Find #"identifier" o)) (as_string (Find #"localEndPointLeg1" o)) (as_string (Find #"localEndPointLeg2" o))
    (as_string (Find #"senderEndPointLeg1" o)) (as_string (Find #"senderEndPointLeg2" o))
    (as_string (Find #"lastSenderEndPointLeg1" o)) (as_string (Find #"lastSenderEndPointLeg2" o))
    (as_boolean (Find #"adjustSenderFromPacketSource" o)) (as_boolean (Find #"leg1Reset" o)) (as_boolean (Find #"leg2Reset" o))
    (as_boolean (Find #"isStarted" o)) (as_boolean (Find #"isInactive" o)) (as_boolean (Find #"isLeg1XOREncrypted" o))
    (as_boolean (Find #"isLeg2XOREncrypted" o)).
Definition read_kind (params : list (str * json)) (offered : bool) (k : kind) : SBCMediaTuple :=
  if offered then
    mkMediaTuple (read_media (as_object (Find (data_name k) params))) (read_media (as_object (Find (control_name k) params)))
  else empty_tuple.
(** The record [readFromRedis] makes of a document. *)
Definition read_record (params : list (str * json)) : RTPProxyRecord :=
  let audio := as_boolean (Find #"hasOfferedAudioProxy" params) in
  let video := as_boolean (Find #"hasOfferedVideoProxy" params) in
  let fax := as_boolean (Find #"hasOfferedFaxProxy" params) in
  mkProxyRecord (as_string (Find #"identifier" params)) (as_string (Find #"logId" params))
    (as_string (Find #"leg1Identifier" params)) (as_string (Find #"leg2Identifier" params))
    (as_string (Find #"leg1OriginAddress" params)) (as_string (Find #"leg2OriginAddress" params))
    (as_string (Find #"lastSDPInAck" params)) (as_boolean (Find #"isExpectingInitialAnswer" params))
    (mkThree audio video fax)
    (mkThree (as_boolean (Find #"isAudioProxyNegotiated" params)) (as_boolean (Find #"isVideoProxyNegotiated" params))
       (as_boolean (Find #"isFaxProxyNegotiated" params)))
    (as_boolean (Find #"verbose" params)) (Z_of_double (as_number (Find #"state" params)))
    (Z_of_double (as_number (Find #"lastOfferIndex" params))) (Z_of_double (as_number (Find #"timestamp" params)))
    (mkThree (read_kind params audio Audio) (read_kind params video Video) (read_kind params fax Fax)).

(** ** The clients *)

Context {R : RedisServer}.

(** [RedisClient::set] and [get] of an object; an exception of the reader is caught, a failed assertion is not. *)
Definition client_set (sv : server) (now : Z) (key : str) (value : list (str * json)) (expires : Z) : bool * server :=
  let '(sv, status) := redis_setex sv now key expires (Write (Object value)) in
  (bool_decide (string_to_lower status = #"ok"), sv).
Definition client_get (sv : server) (now : Z) (key : str) : cres (option (list (str * json))) :=
  match redis_get sv now key with
  | [] => Val None
  | (_ :: _) as buff =>
      r ← ReadObject buff;
      Val (match r with inl _ => None | inr value => Some value end)
  end.

(** [RedisBroadcastClient]: its clients, and which of them is the default one. *)
Record RedisBroadcastClient := mkBroadcast { pool : list server; defaultClient : option nat }.
Definition broadcast_set (b : RedisBroadcastClient) (now : Z) (key : str) (value : list (str * json)) (expires : Z) : RedisBroadcastClient :=
  mkBroadcast (map (fun sv => (client_set sv now key value expires).2) (pool b)) (defaultClient b).
(** The first of the clients that has the value. *)
Fixpoint first_get (now : Z) (key : str) (l : list server) : cres (option (list (str * json))) :=
  match l with
  | [] => Val None
  | sv :: l =>
      r ← client_get sv now key;
      match r with
      | Some value => Val (Some value)
      | None => first_get now key l
      end
  end.
Definition broadcast_get (b : RedisBroadcastClient) (now : Z) (key : str) : cres (option (list (str * json))) :=
  match defaultClient b with
  | None => Val None
  | Some i => first_get now key (option_list (pool b !! i) ++ delete i (pool b))
  end.

(** [dumpStateToRedis], with [writeToRedis]. *)
Definition dumpStateToRedis (b : RedisBroadcastClient) (now : Z) (s : RTPProxySession) : RedisBroadcastClient :=
  broadcast_set b now (s_identifier s) (record_members now (record_of s)) (3600 * 12).
Definition readFromRedis (b : RedisBroadcastClient) (now : Z) (key : str) : cres (option RTPProxyRecord) :=
  r ← broadcast_get b now key;
  Val (match r with None => None | Some params => Some (read_record params) end).

(** ** From a record to a session *)

Context (binds : nat -> endpoint -> bool).

(** A relay of a new session gets what was recorded of one. *)
Definition endpoint_of (tuple : str) : endpoint := let e := fromV4IPPort (cstr tuple) in (ip e, port e).
Definition fill_proxy (p : RTPProxy) (r : SBCMediaRecord) : RTPProxy :=
  p <| identifier := mr_identifier r |>
    <| senderEndPointLeg1 := endpoint_of (mr_senderEndPointLeg1 r) |> <| senderEndPointLeg2 := endpoint_of (mr_senderEndPointLeg2 r) |>
    <| lastSenderEndPointLeg1 := endpoint_of (mr_lastSenderEndPointLeg1 r) |> <| lastSenderEndPointLeg2 := endpoint_of (mr_lastSenderEndPointLeg2 r) |>
    <| leg1Reset := mr_leg1Reset r |> <| leg2Reset := mr_leg2Reset r |> <| isStarted := mr_isStarted r |>
    <| isInactiveFlag := mr_isInactive r |> <| isLeg1XOREncrypted := mr_isLeg1XOREncrypted r |>
    <| isLeg2XOREncrypted := mr_isLeg2XOREncrypted r |>.
(** It is opened and started; [n] binds were made before. *)
Definition restore_proxy (n : nat) (p : RTPProxy) (r : SBCMediaRecord) : exn + (bool * nat * RTPProxy) :=
  let '(opened, n, p) := open binds n (fill_proxy p r) (fromV4IPPort (cstr (mr_localEndPointLeg1 r))) (fromV4IPPort (cstr (mr_localEndPointLeg2 r))) in
  if (opened : bool) then
    match start p with
    | Some p => inr (true, n, p)
    | None => inl (RTPProxyException #"Socket is NULL while calling RTPProxy::start")
    end
  else inr (false, n, p).
(** The two relays of a kind of media; [None] if a socket cannot be bound. *)
Definition restore_tuple (n : nat) (t : RTPProxyTuple) (r : SBCMediaTuple) : exn + (nat * option RTPProxyTuple) :=
  match restore_proxy n (data t) (mt_data r) with
  | inl e => inl e
  | inr (false, n, _) => inr (n, None)
  | inr (true, n, d) =>
      match restore_proxy n (control t) (mt_control r) with
      | inl e => inl e
      | inr (false, n, _) => inr (n, None)
      | inr (true, n, c) => inr (n, Some (mkRTPProxyTuple d c))
      end
  end.
Definition restore_kind (r : RTPProxyRecord) (k : kind) (x : exn + (nat * option RTPProxySession)) : exn + (nat * option RTPProxySession) :=
  match x with
  | inr (n, Some s) =>
      if at_kind (hasOffered s) k then
        match restore_tuple n (proxy s k) (at_kind (pr_media r) k) with
        | inl e => inl e
        | inr (n, None) => inr (n, None)
        | inr (n, Some t) => inr (n, Some (put_proxy k t s))
        end
      else x
  | _ => x
  end.

(** The new session before its relays are opened. *)
Definition session_of (r : RTPProxyRecord) (now : Z) : RTPProxySession :=
  (new_rtp_session (pr_identifier r) now)
    <| logId := pr_logId r |> <| leg1Identifier := pr_leg1Identifier r |> <| leg2Identifier := pr_leg2Identifier r |>
    <| leg1OriginAddress := pr_leg1OriginAddress r |> <| leg2OriginAddress := pr_leg2OriginAddress r |>
    <| lastSDPInAck := pr_lastSDPInAck r |> <| isExpectingInitialAnswer := pr_isExpectingInitialAnswer r |>
    <| hasOffered := pr_hasOffered r |> <| isNegotiated := pr_isNegotiated r |> <| s_verbose := pr_verbose r |>
    <| state := state_of_number (pr_state r) |> <| lastOfferIndex := Z.to_nat (pr_lastOfferIndex r) |>.
Definition restore (r : RTPProxyRecord) (now : Z) (n : nat) : exn + (nat * option RTPProxySession) :=
  restore_kind r Fax (restore_kind r Video (restore_kind r Audio (inr (n, Some (session_of r now))))).
(** [reconstructFromRedis], when the manager has a database. *)
Definition reconstructFromRedis (b : RedisBroadcastClient) (now : Z) (n : nat) (key : str) : cres (exn + (nat * option RTPProxySession)) :=
  r ← readFromRedis b now key;
  Val (match r with None => inr (n, None) | Some r => restore r now n end).

End record.
