(* ===== verification/RtpRestore.v ===== *)
(** * Sessions that survive a restart

    A record is read back from the document it is written to; a session that is made of the
    record of another has its relays at the same ports and with the same destinations; and
    what is lost. *)

From S2P Require Import Prelude AbnfFacts CMem CoreStrings SdpText IpAddress SipXor RtpPacket RtpProxy RtpProxyFacts RtpRelay RtpSession RtpSessionFacts RtpSessionSafe RtpExchange RtpAnswer RtpSessionTheorems Json JsonTheorems RtpRecord.
Open Scope nat_scope.

Section restore.
Context {boost : BoostString} {text : BoostText} {asio : AsioAddress} {D : DoubleText}.

(** ** Records and documents *)

Lemma media_read_back r : read_media (media_members r) = r.
Proof. by destruct r. Qed.

(** The kinds that were not offered have no record. *)
Definition sparse (r : RTPProxyRecord) : Prop := forall k, at_kind (pr_hasOffered r) k = false -> at_kind (pr_media r) k = empty_tuple.
Definition small (z : Z) : Prop := (Z.abs z <= 2 ^ 53)%Z.

Lemma record_read_back now r :
  sparse r -> small now -> small (pr_state r) -> small (pr_lastOfferIndex r) ->
  read_record (record_members now r) =
  mkProxyRecord (pr_identifier r) (pr_logId r) (pr_leg1Identifier r) (pr_leg2Identifier r) (pr_leg1OriginAddress r) (pr_leg2OriginAddress r)
    (pr_lastSDPInAck r) (pr_isExpectingInitialAnswer r) (pr_hasOffered r) (pr_isNegotiated r) (pr_verbose r) (pr_state r) (pr_lastOfferIndex r)
    now (pr_media r).
Proof.
  intros Hs H1 H2 H3. pose proof (Hs Audio) as Sa. pose proof (Hs Video) as Sv. pose proof (Hs Fax) as Sf. clear Hs.
  pose (back (b : bool) m := if b then mkMediaTuple (read_media (media_members (mt_data m))) (read_media (media_members (mt_control m))) else empty_tuple).
  assert (M : forall (b : bool) m, (b = false -> m = empty_tuple) -> back b m = m).
  { intros [] [d c] H; unfold back; cbn [mt_data mt_control]; [by rewrite !media_read_back|by rewrite H]. }
  destruct r as [id lid i1 i2 o1 o2 ack ex [ha hv hf] [na nv nf] vb st li ts [ma mv mf]].
  cbn [pr_hasOffered pr_media pr_state pr_lastOfferIndex at_kind of_audio of_video of_fax] in *.
  transitivity (mkProxyRecord id lid i1 i2 o1 o2 ack ex (mkThree ha hv hf) (mkThree na nv nf) vb (Z_of_double (double_of_Z st)) (Z_of_double (double_of_Z li))
    (Z_of_double (double_of_Z now)) (mkThree (back ha ma) (back hv mv) (back hf mf))); [|by rewrite !exact_integers, !M].
  unfold back. clear. destruct ha, hv, hf; reflexivity.
Qed.

(** Documents of a record are written and read back. *)
Definition names_ok (names : list str) : bool :=
  bool_decide (NoDup names) && forallb (forallb (fun c => negb (bool_decide (c = DQUOTE)) && negb (bool_decide (c = BACKSLASH)))) names.
Lemma object_writable l : names_ok l.*1 = true -> Forall (fun m => writable m.2) l -> writable (Object l).
Proof.
  intros [Hn Hp]%andb_true_iff Hl. cbn. split; [by apply bool_decide_eq_true_1 in Hn|]. apply foldr_and. rewrite forallb_forall in Hp.
  rewrite Forall_forall in Hl |- *. intros m Hm. split; [|by apply Hl]. apply plain_decided, Hp, list_elem_of_In. by apply (list_elem_of_fmap_2 fst).
Qed.
Lemma put_forall (P : json -> Prop) n j o : P j -> Forall (fun m => P m.2) o -> Forall (fun m => P m.2) (put n j o).
Proof. intros Hj. induction 1 as [|[n' x] o Hx Ho IH]; cbn; [by constructor|]. destruct (bool_decide _); by constructor. Qed.
Lemma assign_forall (P : json -> Prop) l o : Forall (fun m => P m.2) l -> Forall (fun m => P m.2) o -> Forall (fun m => P m.2) (assign_members o l).
Proof. intros Hl. revert o. induction Hl as [|[n x] l Hx Hl IH]; intros o Ho; [done|]. apply IH. by apply put_forall. Qed.
Lemma media_writable r : writable (Object (media_members r)).
Proof. apply object_writable; [vm_compute; reflexivity|]. by apply assign_forall; repeat constructor. Qed.
Lemma record_writable now r : small now -> small (pr_state r) -> small (pr_lastOfferIndex r) -> writable (Object (record_members now r)).
Proof.
  intros H1 H2 H3. apply finite_integers in H1, H2, H3. destruct r as [id lid i1 i2 o1 o2 ack ex [ha hv hf] [na nv nf] vb st li ts [ma mv mf]].
  cbn [pr_state pr_lastOfferIndex] in *.
  apply object_writable; [destruct ha, hv, hf; vm_compute; reflexivity|].
  assert (K : forall r k o, Forall (fun m => writable m.2) o -> Forall (fun m => writable m.2) (write_kind r k o)).
  { intros r k o Ho. unfold write_kind. destruct (at_kind _ k); [|done]. apply assign_forall; [|done]. repeat (apply Forall_cons_2; [apply media_writable|]). constructor. }
  do 3 apply K. apply assign_forall; [|constructor]. by repeat constructor.
Qed.

(** ** The servers *)

Context {R : RedisServer}.

(** The default client's server takes the value. *)
Definition takes (b : RedisBroadcastClient) (now : Z) (key v : str) : Prop :=
  exists i sv sv', defaultClient b = Some i /\ pool b !! i = Some sv /\ redis_setex sv now key (3600 * 12) v = (sv', #"OK").

Lemma get_after_set b now key l t :
  writable (Object l) -> takes b now key (Write (Object l)) -> (now <= t < now + 1000 * (3600 * 12))%Z ->
  broadcast_get (broadcast_set b now key l (3600 * 12)) t key = Val (Some l).
Proof.
  intros Hw (i & sv & sv' & Hd & Hi & Hs) Ht. unfold broadcast_get, broadcast_set. cbn [defaultClient pool]. rewrite Hd.
  change (map ?f (pool b)) with (f <$> pool b). rewrite list_lookup_fmap, Hi. cbn [fmap option_fmap option_map option_list app first_get].
  unfold client_set. rewrite Hs. change (option_list (Some ?x) ++ ?l) with (x :: l). cbn [snd first_get]. unfold client_get. rewrite (redis_get_set _ _ _ _ _ _ Hs t Ht).
  assert (Hn : exists c r, Write (Object l) = c :: r) by (unfold Write; cbn [write]; destruct l; eauto). destruct Hn as (c & r & Hn). rewrite Hn, <- Hn.
  by rewrite (proj2 (read_back _ Hw) l eq_refl), val_bind.
Qed.

(** ** Relays that are opened again *)

(** An endpoint that survives as text. *)
Definition v4_endpoint (e : endpoint) : Prop := exists n, e.1 = V4 n /\ v4_range n /\ (0 <= e.2 < 2 ^ 16)%Z.

Lemma endpoint_back e : v4_endpoint e ->
  let a := fromV4IPPort (cstr (cstr (endpoint_text e))) in (ip a, port a) = e /\ externalAddress a = [].
Proof.
  destruct e as [i p]. intros (n & E & Hn & Hp). cbn [fst snd] in *. subst i. unfold endpoint_text. cbn [fst snd]. rewrite to_string_v4 by done.
  assert (Hf : nul_free (dotted n ++ #":" ++ dec p)).
  { apply nul_free_app. split; [apply dotted_nul_free|]. apply nul_free_app. split; [by repeat constructor|apply dec_nul_free]. }
  rewrite !cstr_nul_free by (by rewrite ?cstr_nul_free). by rewrite ip_port_back.
Qed.

(** What a relay must be like for its record to be whole. *)
Record recordable (p : RTPProxy) : Prop := {
  rc_identifier : nul_free (identifier p);
  rc_local1 : v4_endpoint (localEndPointLeg1 p);
  rc_local2 : v4_endpoint (localEndPointLeg2 p);
  rc_sender1 : v4_endpoint (senderEndPointLeg1 p);
  rc_sender2 : v4_endpoint (senderEndPointLeg2 p);
  rc_last1 : v4_endpoint (lastSenderEndPointLeg1 p);
  rc_last2 : v4_endpoint (lastSenderEndPointLeg2 p)
}.
(** [q] is [p], opened anew: receiving, at the same ports and with the same destinations. *)
Record reopened (p q : RTPProxy) : Prop := {
  ro_socket1 : leg1Socket q = true;
  ro_socket2 : leg2Socket q = true;
  ro_identifier : identifier q = identifier p;
  ro_local1 : localEndPointLeg1 q = localEndPointLeg1 p;
  ro_local2 : localEndPointLeg2 q = localEndPointLeg2 p;
  ro_external1 : localEndPointLeg1External q = [];
  ro_external2 : localEndPointLeg2External q = [];
  ro_sender1 : senderEndPointLeg1 q = senderEndPointLeg1 p;
  ro_sender2 : senderEndPointLeg2 q = senderEndPointLeg2 p;
  ro_last1 : lastSenderEndPointLeg1 q = lastSenderEndPointLeg1 p;
  ro_last2 : lastSenderEndPointLeg2 q = lastSenderEndPointLeg2 p;
  ro_reset1 : leg1Reset q = leg1Reset p;
  ro_reset2 : leg2Reset q = leg2Reset p;
  ro_inactive : isInactiveFlag q = isInactiveFlag p;
  ro_xor1 : isLeg1XOREncrypted q = isLeg1XOREncrypted p;
  ro_xor2 : isLeg2XOREncrypted q = isLeg2XOREncrypted p;
  ro_receive1 : leg1Receive q = IntoSender;
  ro_receive2 : leg2Receive q = IntoSender;
  ro_started : isStarted q = true
}.

Context (binds : nat -> endpoint -> bool) (Hbinds : forall n e, binds n e = true).

(** What opening and starting do not touch. *)
Record alike (p q : RTPProxy) : Prop := {
  al_identifier : identifier q = identifier p;
  al_sender1 : senderEndPointLeg1 q = senderEndPointLeg1 p;
  al_sender2 : senderEndPointLeg2 q = senderEndPointLeg2 p;
  al_last1 : lastSenderEndPointLeg1 q = lastSenderEndPointLeg1 p;
  al_last2 : lastSenderEndPointLeg2 q = lastSenderEndPointLeg2 p;
  al_reset1 : leg1Reset q = leg1Reset p;
  al_reset2 : leg2Reset q = leg2Reset p;
  al_inactive : isInactiveFlag q = isInactiveFlag p;
  al_xor1 : isLeg1XOREncrypted q = isLeg1XOREncrypted p;
  al_xor2 : isLeg2XOREncrypted q = isLeg2XOREncrypted p;
  al_disabled : isXORDisabled q = isXORDisabled p;
  al_samples1 : samples (leg1Resizer q) = samples (leg1Resizer p);
  al_samples2 : samples (leg2Resizer q) = samples (leg2Resizer p);
  al_type : type q = type p
}.
Lemma opened_alike_trans p q r : alike p q -> alike q r -> alike p r.
Proof. intros [] []. constructor; congruence. Qed.
Lemma stop_alike p : alike p (stop p).
Proof. by constructor. Qed.
Lemma open_alike n p l1 l2 b n' p' : open binds n p l1 l2 = (b, n', p') -> alike p p'.
Proof.
  intros H. apply (opened_alike_trans p (stop p)); [apply stop_alike|]. unfold open in H. cbn zeta in H. generalize dependent (stop p). clear p. intros p H.
  destruct (binds n _); [destruct (binds (n + 1) _)|]; injection H as <- <- <-; [by constructor|..]; (eapply opened_alike_trans; [|apply stop_alike]); by constructor.
Qed.
Lemma start_alike p : leg1Socket p = true -> leg2Socket p = true -> isStarted p = false ->
  exists q, start p = Some q /\ alike p q /\ leg1Socket q = true /\ leg2Socket q = true /\ localEndPointLeg1 q = localEndPointLeg1 p /\
    localEndPointLeg2 q = localEndPointLeg2 p /\ localEndPointLeg1External q = localEndPointLeg1External p /\
    localEndPointLeg2External q = localEndPointLeg2External p /\ leg1Receive q = IntoSender /\ leg2Receive q = IntoSender /\ isStarted q = true.
Proof. intros S1 S2 St. unfold start. rewrite S1, S2, St. eexists. split; [reflexivity|]. split; [by constructor|]. done. Qed.
Lemma filled p r : let q := fill_proxy p r in
  identifier q = mr_identifier r /\ senderEndPointLeg1 q = endpoint_of (mr_senderEndPointLeg1 r) /\ senderEndPointLeg2 q = endpoint_of (mr_senderEndPointLeg2 r) /\
  lastSenderEndPointLeg1 q = endpoint_of (mr_lastSenderEndPointLeg1 r) /\ lastSenderEndPointLeg2 q = endpoint_of (mr_lastSenderEndPointLeg2 r) /\
  leg1Reset q = mr_leg1Reset r /\ leg2Reset q = mr_leg2Reset r /\ isInactiveFlag q = mr_isInactive r /\
  isLeg1XOREncrypted q = mr_isLeg1XOREncrypted r /\ isLeg2XOREncrypted q = mr_isLeg2XOREncrypted r /\
  isXORDisabled q = isXORDisabled p /\ samples (leg1Resizer q) = samples (leg1Resizer p) /\ samples (leg2Resizer q) = samples (leg2Resizer p) /\ type q = type p.
Proof. unfold fill_proxy. generalize (endpoint_of (mr_senderEndPointLeg1 r)), (endpoint_of (mr_senderEndPointLeg2 r)), (endpoint_of (mr_lastSenderEndPointLeg1 r)), (endpoint_of (mr_lastSenderEndPointLeg2 r)). by destruct p, r. Qed.

Lemma restore_proxy_run n p p0 : recordable p ->
  exists q, restore_proxy binds n p0 (media_record p) = inr (true, n + 2, q) /\ reopened p q /\
    isXORDisabled q = isXORDisabled p0 /\ samples (leg1Resizer q) = samples (leg1Resizer p0) /\ samples (leg2Resizer q) = samples (leg2Resizer p0) /\ type q = type p0.
Proof.
  intros [Hi [L1 X1]%endpoint_back [L2 X2]%endpoint_back [S1 _]%endpoint_back [S2 _]%endpoint_back [T1 _]%endpoint_back [T2 _]%endpoint_back].
  unfold restore_proxy. destruct (filled p0 (media_record p)) as (F1 & F2 & F3 & F4 & F5 & F6 & F7 & F8 & F9 & F10 & F11 & F12 & F13 & F14).
  set (l1 := fromV4IPPort _). set (l2 := fromV4IPPort _). destruct (open_succeeds binds n (fill_proxy p0 (media_record p)) l1 l2) as [q Eq]; [apply Hbinds..|].
  rewrite Eq. destruct (open_listens _ _ _ _ _ _ _ Eq) as ([] & _). destruct (start_alike q) as (q' & -> & Aq & Q1 & Q2 & Q3 & Q4 & Q5 & Q6 & Q7 & Q8 & Q9); [done..|].
  destruct (opened_alike_trans _ _ _ (open_alike _ _ _ _ _ _ _ Eq) Aq) as [A1 A2 A3 A4 A5 A6 A7 A8 A9 A10 A11 A12 A13 A14].
  exists q'. split; [done|]. split; [|split_and!; congruence]. constructor; try done.
  - rewrite A1, F1. by apply cstr_nul_free.
  - rewrite Q3, li_local1. exact L1.
  - rewrite Q4, li_local2. exact L2.
  - rewrite Q5, li_external1. exact X1.
  - rewrite Q6, li_external2. exact X2.
  - rewrite A2, F2. exact S1.
  - rewrite A3, F3. exact S2.
  - rewrite A4, F4. exact T1.
  - rewrite A5, F5. exact T2.
Qed.

(** ** The session *)

(** What a session must be like for its record to be whole. *)
Record saveable (s : RTPProxySession) : Prop := {
  sv_identifier : nul_free (s_identifier s);
  sv_logId : nul_free (logId s);
  sv_leg1 : nul_free (leg1Identifier s);
  sv_leg2 : nul_free (leg2Identifier s);
  sv_origin1 : nul_free (leg1OriginAddress s);
  sv_origin2 : nul_free (leg2OriginAddress s);
  sv_ack : nul_free (lastSDPInAck s);
  sv_offer : lastOfferIndex s <= 2;
  sv_media : forall k, at_kind (hasOffered s) k = true -> recordable (data (proxy s k)) /\ recordable (control (proxy s k))
}.
(** [s'] is [s] after a restart at the time [now]. *)
Record restored (s s' : RTPProxySession) (now : Z) : Prop := {
  rs_identifier : s_identifier s' = s_identifier s;
  rs_logId : logId s' = logId s;
  rs_leg1 : leg1Identifier s' = leg1Identifier s;
  rs_leg2 : leg2Identifier s' = leg2Identifier s;
  rs_origin1 : leg1OriginAddress s' = leg1OriginAddress s;
  rs_origin2 : leg2OriginAddress s' = leg2OriginAddress s;
  rs_ack : lastSDPInAck s' = lastSDPInAck s;
  rs_expecting : isExpectingInitialAnswer s' = isExpectingInitialAnswer s;
  rs_offered : hasOffered s' = hasOffered s;
  rs_negotiated : isNegotiated s' = isNegotiated s;
  rs_verbose : s_verbose s' = s_verbose s;
  rs_state : state s' = state s;
  rs_index : lastOfferIndex s' = lastOfferIndex s;
  rs_resizing : resizerSamplesLeg1 s' = 0%Z /\ resizerSamplesLeg2 s' = 0%Z;
  rs_media : forall k, if at_kind (hasOffered s) k
    then reopened (data (proxy s k)) (data (proxy s' k)) /\ reopened (control (proxy s k)) (control (proxy s' k)) /\
      relaying (data (proxy s' k)) /\ isXORDisabled (data (proxy s' k)) = bool_decide (k = Fax)
    else proxy s' k = proxy (new_rtp_session (s_identifier s) now) k
}.

Lemma state_back st : state_of_number (state_number st) = st.
Proof. by destruct st. Qed.
Lemma record_sparse s : sparse (record_of s).
Proof. intros k. unfold record_of. cbn [pr_hasOffered pr_media]. intros H. destruct k; cbn [at_kind of_audio of_video of_fax]; unfold media_tuple; by rewrite H. Qed.

(** A kind of media, restored: opened anew when it was offered. *)
Definition back (s : RTPProxySession) (t0 : RTPProxyTuple) (k : kind) (t : RTPProxyTuple) : Prop :=
  if at_kind (hasOffered s) k
  then reopened (data (proxy s k)) (data t) /\ reopened (control (proxy s k)) (control t) /\
    isXORDisabled (data t) = isXORDisabled (data t0) /\ samples (leg1Resizer (data t)) = samples (leg1Resizer (data t0)) /\
    samples (leg2Resizer (data t)) = samples (leg2Resizer (data t0))
  else t = t0.
Lemma put_proxy_same k s : put_proxy k (proxy s k) s = s.
Proof. destruct s as [? [? ? ?]]. by destruct k. Qed.
Lemma restore_kind_run s r k n s1 : saveable s -> at_kind (pr_media r) k = media_tuple s k -> hasOffered s1 = hasOffered s ->
  exists n' t, restore_kind binds r k (inr (n, Some s1)) = inr (n', Some (put_proxy k t s1)) /\ back s (proxy s1 k) k t.
Proof.
  intros Hs Hr Ho. unfold restore_kind, back. rewrite Ho, Hr. unfold media_tuple. destruct (at_kind (hasOffered s) k) eqn:E.
  - destruct (sv_media _ Hs k E) as [Hd Hc]. unfold restore_tuple. cbn [mt_data mt_control].
    destruct (restore_proxy_run n _ (data (proxy s1 k)) Hd) as (d & -> & Rd & Xd & S1 & S2 & _).
    destruct (restore_proxy_run (n + 2) _ (control (proxy s1 k)) Hc) as (c & -> & Rc & _). by eexists _, _.
  - exists n, (proxy s1 k). by rewrite put_proxy_same.
Qed.

Definition record_at (now : Z) (s : RTPProxySession) : RTPProxyRecord :=
  mkProxyRecord (s_identifier s) (logId s) (leg1Identifier s) (leg2Identifier s) (leg1OriginAddress s) (leg2OriginAddress s) (lastSDPInAck s)
    (isExpectingInitialAnswer s) (hasOffered s) (isNegotiated s) (s_verbose s) (state_number (state s)) (Z.of_nat (lastOfferIndex s)) now
    (mkThree (media_tuple s Audio) (media_tuple s Video) (media_tuple s Fax)).
Lemma numbers_small s : saveable s -> small (state_number (state s)) /\ small (Z.of_nat (lastOfferIndex s)).
Proof. intros H. apply sv_offer in H. unfold small. split; [destruct (state s); cbn; lia|lia]. Qed.
Lemma saved_read_back now s : saveable s -> small now -> read_record (record_members now (record_of s)) = record_at now s.
Proof.
  intros H Hn. destruct (numbers_small s H) as [N1 N2]. rewrite record_read_back; [|apply record_sparse|done..]. destruct H. unfold record_of, record_at. cbn -[cstr media_tuple].
  by rewrite !cstr_nul_free.
Qed.

Lemma back_media s t0 k t now : back s t0 k t -> t0 = proxy (new_rtp_session (s_identifier s) now) k ->
  if at_kind (hasOffered s) k
  then reopened (data (proxy s k)) (data t) /\ reopened (control (proxy s k)) (control t) /\ relaying (data t) /\ isXORDisabled (data t) = bool_decide (k = Fax)
  else t = proxy (new_rtp_session (s_identifier s) now) k.
Proof.
  unfold back. intros H ->. destruct (at_kind _ k); [|done]. destruct H as (Rd & Rc & X & S1 & S2). split; [done|]. split; [done|].
  split; [|rewrite X; by destruct k]. destruct Rd. constructor; [done|done|..]; unfold isEnabled; [rewrite S1|rewrite S2]; by destruct k.
Qed.
Lemma restore_run now now' n s : saveable s -> exists n' s', restore binds (record_at now s) now' n = inr (n', Some s') /\ restored s s' now'.
Proof.
  intros Hs. unfold restore. set (r := record_at now s). set (s0 := session_of r now').
  destruct (restore_kind_run s r Audio n s0 Hs) as (n1 & t1 & -> & B1); [done..|].
  destruct (restore_kind_run s r Video n1 (put_proxy Audio t1 s0) Hs) as (n2 & t2 & -> & B2); [done..|].
  destruct (restore_kind_run s r Fax n2 (put_proxy Video t2 (put_proxy Audio t1 s0)) Hs) as (n3 & t3 & -> & B3); [done..|].
  eexists _, _. split; [reflexivity|]. apply (back_media _ _ _ _ now') in B1, B2, B3; [|done..].
  constructor; try done.
  - exact (state_back (state s)).
  - exact (Nat2Z.id (lastOfferIndex s)).
  - intros []; [exact B1|exact B2|exact B3].
Qed.

Lemma restored_from b now t n s : saveable s -> small now ->
  takes b now (s_identifier s) (Write (Object (record_members now (record_of s)))) -> (now <= t < now + 1000 * (3600 * 12))%Z ->
  exists n' s', reconstructFromRedis binds (dumpStateToRedis b now s) t n (s_identifier s) = Val (inr (n', Some s')) /\ restored s s' t.
Proof.
  intros Hs Hn Ht Hr. destruct (numbers_small s Hs) as [N1 N2]. destruct (restore_run now t n s Hs) as (n' & s' & E & Rs). exists n', s'. split; [|done].
  unfold reconstructFromRedis, readFromRedis, dumpStateToRedis. rewrite get_after_set; [|by apply record_writable|done|done].
  rewrite !val_bind. by rewrite saved_read_back, E.
Qed.

(** ** Theorems *)



End restore.

(** ** Instances *)

(** A server that keeps values until they expire. *)
Definition kept_set (sv : gmap str (str * Z)) (now : Z) (key : str) (seconds : Z) (v : str) : gmap str (str * Z) * str :=
  (<[key := (v, now + 1000 * seconds)%Z]> sv, #"OK").
Definition kept_get (sv : gmap str (str * Z)) (t : Z) (key : str) : str :=
  match sv !! key with
  | Some (v, e) => if (t <? e)%Z then v else []
  | None => []
  end.
Lemma kept_get_set sv now key seconds v sv' :
  kept_set sv now key seconds v = (sv', #"OK") -> forall t, (now <= t < now + 1000 * seconds)%Z -> kept_get sv' t key = v.
Proof. intros [= <-] t Ht. unfold kept_get. rewrite lookup_insert_eq, (proj2 (Z.ltb_lt _ _)) by lia. done. Qed.
#[export] Instance redis_reference : RedisServer := {| redis_setex := kept_set; redis_get := kept_get; redis_get_set := kept_get_set |}.

Definition ex_saved : RTPProxySession := Eval vm_compute in
  match handleSDP ex_binds false ex_response (ex_world1 <| w_sdp := ex_answer |> <| w_attr := default_attributes |>) with
  | Val (w, _) => default (w_session ex_world1) (w_saved w)
  | _ => w_session ex_world1
  end.
Definition ex_servers : RedisBroadcastClient := mkBroadcast [∅; ∅] (Some 1).

Ltac endpoint := eexists; split; [reflexivity|]; split; split; discriminate || reflexivity.
Lemma ex_saveable : saveable ex_saved.
Proof.
  constructor; try (by repeat constructor).
  intros [] E; [..|discriminate E]; split; constructor; (by repeat constructor) || endpoint.
Qed.


