(* ===== verification/RtpManager.v ===== *)
(** * The manager of media sessions

    [RTPProxyManager] of src/rtp/RTPProxyManager.cpp: the sessions by their identifiers, the
    number of sessions towards each monitored route, the ports and the servers that keep
    the state of sessions.  The lists are locked by mutexes in the code; a step here is
    what happens while they are held, or one call of a handler of a session.

    Threads and timers are not modelled: the house keeping is a step that takes the time it
    runs at.  State files are not modelled: the state of a session is kept by a server or not
    at all. *)

From S2P Require Import Prelude CoreStrings CMem SdpText IpAddress SipXor RtpPacket RtpProxy RtpSession Json RtpRecord.
Open Scope nat_scope.

Section manager.
Context {boost : BoostString} {text : BoostText} {asio : AsioAddress} {D : DoubleText} {R : RedisServer}.

Record RTPProxyManager := mkManager {
  mg_ports : ports;
  sessionList : gmap str RTPProxySession;
  sessionCounter : gmap str Z;
  rtpSessionMax : nat;
  readTimeout : Z;
  enabled : bool;
  alwaysProxyMedia : bool;
  mg_enableHairpins : bool;
  hasRtpDb : bool;
  persistStateFiles : bool;
  redisClient : RedisBroadcastClient
}.
#[export] Instance eta_manager : Settable RTPProxyManager := fun m =>
  mkManager (mg_ports m) (sessionList m) (sessionCounter m) (rtpSessionMax m) (readTimeout m) (enabled m) (alwaysProxyMedia m) (mg_enableHairpins m)
    (hasRtpDb m) (persistStateFiles m) (redisClient m).

Definition new_manager : RTPProxyManager := mkManager (mkPorts 30000 60000 0 0) ∅ ∅ 1000 0 true false false false false (mkBroadcast [] None).

(** ** Counting sessions *)

Definition incrementSessionCount (address : str) (n : gmap str Z) : gmap str Z :=
  match n !! address with
  | Some k => <[address := u64 (k + 1)]> n
  | None => <[address := 1%Z]> n
  end.
Definition decrementSessionCount (address : str) (n : gmap str Z) : gmap str Z :=
  match n !! address with
  | Some k => <[address := u64 (k - 1)]> n
  | None => n
  end.
Definition getSessionCount (m : RTPProxyManager) (address : str) : Z := default 0%Z (sessionCounter m !! address).

(** ** Operations *)

(** [if (!proxy->getMonitoredRoute().empty()) decrementSessionCount(proxy->getMonitoredRoute())]. *)
Definition release (s : RTPProxySession) (n : gmap str Z) : gmap str Z :=
  match monitoredRoute s with [] => n | (_ :: _) as route => decrementSessionCount route n end.

(** With the session that is stopped. *)
Definition removeSession (m : RTPProxyManager) (sessionId : str) : RTPProxyManager * list RTPProxySession :=
  match sessionList m !! sessionId with
  | None => (m, [])
  | Some s => (m <| sessionCounter := release s (sessionCounter m) |> <| sessionList := delete sessionId (sessionList m) |>, [session_stop s])
  end.

Definition changeSessionState (m : RTPProxyManager) (sessionId : str) (st : State) : RTPProxyManager :=
  match sessionList m !! sessionId with
  | None => m
  | Some s => m <| sessionList := <[sessionId := setState s st]> (sessionList m) |>
  end.

(** A session the house keeping removes. *)
Definition expired (now readTimeout : Z) (s : RTPProxySession) : bool := isVoiceInactive s now readTimeout || isAuthTimeout s.
(** The loop over the list, with the identifiers it has yet to visit. *)
Fixpoint collect (now : Z) (ids : list str) (m : RTPProxyManager) : RTPProxyManager * list RTPProxySession :=
  match ids with
  | [] => (m, [])
  | sessionId :: ids =>
      match sessionList m !! sessionId with
      | Some s =>
          if expired now (readTimeout m) s then
            let '(m, stopped) := collect now ids
              (m <| sessionCounter := release s (sessionCounter m) |> <| sessionList := delete sessionId (sessionList m) |>) in
            (m, session_stop s :: stopped)
          else collect now ids m
      | None => collect now ids m
      end
  end.
Definition collectInactiveSessions (m : RTPProxyManager) (now : Z) : RTPProxyManager * list RTPProxySession :=
  collect now (map_to_list (sessionList m)).*1 m.

Definition getSDP (m : RTPProxyManager) (sessionId : str) : str * str :=
  match sessionList m !! sessionId with Some s => (lastOffer s, lastAnswer s) | None => ([], []) end.

Inductive manager_exn :=
| RTPProxyTooManySession
| NoSuchProxy
| FromSession (e : exn).

Context (junk stack : str) (cfg : xor_sip_config) (enc dec : option (str -> str)).
Context (binds : nat -> endpoint -> bool).

Definition name_session (attr : Attributes) (s : RTPProxySession) : RTPProxySession :=
  match at_callId attr with
  | [] => s
  | _ :: _ => s <| s_callId := at_callId attr |> <| s_from := at_from attr |> <| s_to := at_to attr |>
  end.

(** The session of a request, created if it may start one. *)
Definition find_session (m : RTPProxyManager) (now : Z) (sessionId : str) (route : IPAddress) (rt : RequestType) (attr : Attributes)
    : manager_exn + (RTPProxyManager * RTPProxySession) :=
  if bool_decide (rt = INVITE) || bool_decide (rt = INVITE_RESPONSE) then
    match sessionList m !! sessionId with
    | Some s =>
        let s := name_session attr s in
        inr (m <| sessionList := <[sessionId := s]> (sessionList m) |>, s)
    | None =>
        if rtpSessionMax m <? size (sessionList m) then inl RTPProxyTooManySession
        else
          let s := name_session attr (new_rtp_session sessionId now) in
          let '(s, n) :=
            if countSessions attr then
              (s <| monitoredRoute := ip_toString route |>, incrementSessionCount (ip_toString route) (sessionCounter m))
            else (s, sessionCounter m) in
          let s :=
            if (0 <? at_resizerSamplesLeg1 attr)%Z && (0 <? at_resizerSamplesLeg2 attr)%Z
            then setResizerSamples_session s (at_resizerSamplesLeg1 attr) (at_resizerSamplesLeg2 attr) else s in
          inr (m <| sessionCounter := n |> <| sessionList := <[sessionId := s]> (sessionList m) |>, s)
    end
  else
    match sessionList m !! sessionId with
    | None => inl NoSuchProxy
    | Some s => inr (m, s)
    end.

(** The state that a handler saves is written to the servers. *)
Definition keep_state (m : RTPProxyManager) (now : Z) (saved : option RTPProxySession) : RedisBroadcastClient :=
  match saved with
  | Some s => if hasRtpDb m then dumpStateToRedis (redisClient m) now s else redisClient m
  | None => redisClient m
  end.

(** The description and the attributes are given by reference. *)
Definition manager_handleSDP (m : RTPProxyManager) (now : Z) (lid sessionId : str) (route : IPAddress) (c : call) (sdp : str) (attr : Attributes)
    : cres (RTPProxyManager * str * Attributes * option manager_exn) :=
  if negb (enabled m) then Val (m, sdp, attr, None)
  else
    let attr := if alwaysProxyMedia m then attr <| forceCreate := true |> else attr in
    match find_session m now sessionId route (requestType c) attr with
    | inl e => Val (m, sdp, attr, Some e)
    | inr (m, s) =>
        let s := s <| logId := lid |> <| s_verbose := verbose attr |> in
        '(w, r) ← handleSDP binds (mg_enableHairpins m) c (mkWorld (mg_ports m) s sdp attr None);
        Val (m <| mg_ports := w_ports w |> <| sessionList := <[sessionId := w_session w]> (sessionList m) |>
               <| redisClient := keep_state m now (w_saved w) |>,
          w_sdp w, w_attr w, match r with inl e => Some (FromSession e) | inr _ => None end)
    end.

(** The loop of [recycleState] over the keys that the servers hold. *)
Fixpoint recycle (now : Z) (keys : list str) (m : RTPProxyManager) : cres (RTPProxyManager * option manager_exn) :=
  match keys with
  | [] => Val (m, None)
  | key :: keys =>
      r ← reconstructFromRedis binds (redisClient m) now (bindsMade (mg_ports m)) key;
      match r with
      | inl e => Val (m, Some (FromSession e))
      | inr (n, restored) =>
          let m := m <| mg_ports := mkPorts (portBase (mg_ports m)) (portMax (mg_ports m)) (portCurrent (mg_ports m)) n |> in
          recycle now keys
            (match restored with
             | None => m
             | Some s =>
                 match sessionList m !! s_identifier s with
                 | Some _ => m
                 | None => m <| sessionList := <[s_identifier s := s]> (sessionList m) |>
                 end
             end)
      end
  end.
(** [directory]: the directory of state files exists or can be made.  The files themselves, which a
    manager without servers reads, are not modelled: such a manager gets no session here. *)
Definition recycleState (m : RTPProxyManager) (now : Z) (directory : bool) (keys : list str) : cres (RTPProxyManager * option manager_exn) :=
  if negb (persistStateFiles m) then Val (m, None)
  else if negb directory then Val (m, None)
  else if hasRtpDb m then recycle now keys m else Val (m, None).

(** ** Steps *)

Inductive manager_event :=
| HandleSDP (now : Z) (lid sessionId : str) (route : IPAddress) (c : call) (sdp : str) (attr : Attributes)
| RemoveSession (sessionId : str)
| ChangeState (sessionId : str) (st : State)
| HouseKeeping (now : Z)
| SessionTimeout (sessionId : str)
(** Something happens at a relay of a session. *)
| Media (sessionId : str) (k : kind) (t : ProxyType) (e : event).

Definition on_proxy (t : ProxyType) (f : RTPProxy -> cres (list datagram * RTPProxy)) (tu : RTPProxyTuple) : cres (list datagram * RTPProxyTuple) :=
  match t with
  | Data => '(out, p) ← f (data tu); Val (out, mkRTPProxyTuple p (control tu))
  | Control => '(out, p) ← f (control tu); Val (out, mkRTPProxyTuple (data tu) p)
  end.
Definition media_step (m : RTPProxyManager) (sessionId : str) (k : kind) (t : ProxyType) (e : event) : cres (RTPProxyManager * list datagram) :=
  match sessionList m !! sessionId with
  | None => Val (m, [])
  | Some s =>
      '(out, tu) ← on_proxy t (fun p => proxy_step junk stack cfg enc dec p e) (proxy s k);
      Val (m <| sessionList := <[sessionId := put_proxy k tu s]> (sessionList m) |>, out)
  end.

(** What a step gives back. *)
Inductive output :=
| Answered (sdp : str) (r : option manager_exn)
| Stopping (stopped : list RTPProxySession)
| Sent (out : list datagram)
| Done.
Definition manager_step (m : RTPProxyManager) (e : manager_event) : cres (RTPProxyManager * output) :=
  match e with
  | HandleSDP now lid sessionId route c sdp attr =>
      '(m, sdp, _, r) ← manager_handleSDP m now lid sessionId route c sdp attr; Val (m, Answered sdp r)
  | RemoveSession sessionId => let '(m, stopped) := removeSession m sessionId in Val (m, Stopping stopped)
  | ChangeState sessionId st => Val (changeSessionState m sessionId st, Done)
  | HouseKeeping now => let '(m, stopped) := collectInactiveSessions m now in Val (m, Stopping stopped)
  | SessionTimeout sessionId => Val (m <| sessionList := alter handleAuthStateTimeout sessionId (sessionList m) |>, Done)
  | Media sessionId k t e => '(m, out) ← media_step m sessionId k t e; Val (m, Sent out)
  end.

End manager.
