(* ===== verification/RtpManagerTheorems.v ===== *)
(** * The manager, in every run

    What the steps of a manager keep: the addresses of relays, the number of sessions towards
    a route, and the list of sessions; the managers that are reached by any sequence of
    steps, and the sessions of a manager that is started anew. *)

From S2P Require Import Prelude CMem CoreStrings SdpText IpAddress SipXor RtpPacket RtpProxy RtpProxyFacts RtpSession RtpSessionFacts RtpSessionSafe RtpSessionTheorems Json JsonTheorems RtpRecord RtpRestore RtpManager.
Open Scope nat_scope.

(** ** Counting in maps *)

Section counting.
Context {A B : Type} `{Countable A} (P : A * B -> Prop) `{!forall x, Decision (P x)}.
Implicit Type m : gmap A B.

Lemma count_fresh m i x : m !! i = None -> size (filter P (<[i := x]> m)) = size (filter P m) + (if decide (P (i, x)) then 1 else 0).
Proof.
  intros Hi. destruct (decide (P (i, x))) as [Hp|Hp].
  - rewrite map_filter_insert_True by done. rewrite map_size_insert_None; [lia|]. apply map_lookup_filter_None. by left.
  - rewrite map_filter_insert_False, delete_id by done. lia.
Qed.
Lemma count_delete m i x : m !! i = Some x -> size (filter P m) = size (filter P (delete i m)) + (if decide (P (i, x)) then 1 else 0).
Proof. intros Hi. rewrite <- (insert_delete_id m i x Hi) at 1. apply count_fresh. apply lookup_delete_eq. Qed.
Lemma count_replace m i x y : m !! i = Some y -> (P (i, x) <-> P (i, y)) -> size (filter P (<[i := x]> m)) = size (filter P m).
Proof.
  intros Hi Hp. rewrite (count_delete m i y Hi), <- insert_delete_eq, count_fresh by apply lookup_delete_eq.
  destruct (decide (P (i, x))), (decide (P (i, y))); tauto.
Qed.
Lemma count_bound m : size (filter P m) <= size m.
Proof. apply map_subseteq_size, map_filter_subseteq. Qed.
End counting.

(** ** Relays keep their place *)

Section place.
Context (junk stack : str) (cfg : xor_sip_config) (enc dec : option (str -> str)).

(** The local addresses of a relay. *)
Record same_place (p q : RTPProxy) : Prop := {
  sp_local1 : localEndPointLeg1 q = localEndPointLeg1 p;
  sp_local2 : localEndPointLeg2 q = localEndPointLeg2 p;
  sp_external1 : localEndPointLeg1External q = localEndPointLeg1External p;
  sp_external2 : localEndPointLeg2External q = localEndPointLeg2External p
}.
Lemma same_place_refl p : same_place p p.
Proof. by constructor. Qed.
Lemma same_place_trans p q r : same_place p q -> same_place q r -> same_place p r.
Proof. intros [] []. constructor; congruence. Qed.
Lemma same_placed p q : same_place p q -> placed p -> placed q.
Proof. intros [E1 E2 E3 E4] [H1 H2]. constructor; [by rewrite E1, E3|by rewrite E2, E4]. Qed.

Lemma cres_bind_val {A B} (m : cres A) (f : A -> cres B) b : m ≫= f = Val b -> exists a, m = Val a /\ f a = Val b.
Proof. destruct m as [a| | |]; [by exists a|done..]. Qed.

Lemma queue_place p out q : processResizerQueue junk stack cfg enc p = Val (out, q) -> same_place p q.
Proof.
  unfold processResizerQueue. destruct (type p); [|by intros [= _ <-]]. destruct (_ && _); [by intros [= _ <-]|].
  intros ([[[out2 p2] buff] size] & E2 & H)%cres_bind_val. apply cres_bind_val in H as ([out1 p1] & E1 & H). injection H as _ <-.
  apply (same_place_trans p p2).
  - destruct (isEnabled (leg2Resizer p)); [|by injection E2 as _ <- _ _]. apply cres_bind_val in E2 as ([[[? ?] ?] ?] & _ & E2). injection E2 as _ <- _ _. by constructor.
  - destruct (isEnabled (leg1Resizer p2)); [|by injection E1 as _ <-]. apply cres_bind_val in E1 as ([[[? ?] ?] ?] & _ & E1). injection E1 as _ <-. by constructor.
Qed.
Lemma leg1_place p now buff size out q : handleLeg1FrameRead junk stack cfg enc dec p now buff size = Val (out, q) -> same_place p q.
Proof.
  unfold handleLeg1FrameRead. cbn zeta. destruct (size <? 2); [by intros [= _ <-]|]. intros (v & _ & H)%cres_bind_val. apply cres_bind_val in H as ([out1 p1] & E1 & H).
  apply cres_bind_val in H as ([out2 p2] & E2 & H). injection H as _ <-. apply queue_place in E2. eapply same_place_trans; [|exact E2]. clear E2. apply (same_place_trans p p1).
  - destruct (_ && _) in E1; [|by injection E1 as _ <-]. apply cres_bind_val in E1 as ([? ?] & _ & E1). injection E1 as _ <-. by constructor.
  - destruct (leg1Socket p1); [|done]. by destruct (leg1Reset p1).
Qed.
Lemma leg2_place p now buff size out q : handleLeg2FrameRead junk stack cfg enc dec p now buff size = Val (out, q) -> same_place p q.
Proof.
  unfold handleLeg2FrameRead. cbn zeta. destruct (size <? 2); [by intros [= _ <-]|]. intros (v & _ & H)%cres_bind_val. apply cres_bind_val in H as ([out1 p1] & E1 & H).
  apply cres_bind_val in H as ([out2 p2] & E2 & H). injection H as _ <-. apply queue_place in E2. eapply same_place_trans; [|exact E2]. clear E2. apply (same_place_trans p p1).
  - destruct (_ && _) in E1; [|by injection E1 as _ <-]. apply cres_bind_val in E1 as ([? ?] & _ & E1). injection E1 as _ <-. by constructor.
  - destruct (leg2Socket p1); [|done]. by destruct (leg2Reset p1).
Qed.

Lemma step_place p e out q : proxy_step junk stack cfg enc dec p e = Val (out, q) -> same_place p q.
Proof.
  destruct e as [leg src buff size now| |leg| |]; cbn [proxy_step].
  - destruct leg as [|[|[|leg]]]; try by intros [= _ <-].
    + destruct (leg1Receive p); [by intros [= _ <-]|..]; intros H%leg1_place; (eapply same_place_trans; [|exact H]); by constructor.
    + destruct (leg2Receive p); [by intros [= _ <-]|..]; intros H%leg2_place; (eapply same_place_trans; [|exact H]); by constructor.
  - destruct (cancelled p); intros [= _ <-]; by constructor.
  - destruct (resizerThread _); [|by intros [= _ <-]]. unfold resizer_turn. intros ([[b pk] q0] & _ & H)%cres_bind_val. cbn zeta in H.
    assert (Hp : same_place p (if leg =? 1 then p <| leg1Resizer := (if leg =? 1 then leg1Resizer p else leg2Resizer p) <| rz_queue := q0 |> |>
      else p <| leg2Resizer := (if leg =? 1 then leg1Resizer p else leg2Resizer p) <| rz_queue := q0 |> |>)) by (by destruct (leg =? 1)).
    destruct b; [|by injection H as _ <-]. apply cres_bind_val in H as (o & _ & H). by injection H as _ <-.
  - by intros [= _ <-].
  - by intros [= _ <-].
Qed.
End place.

(** ** What a manager keeps *)

Section invariant.
Context {boost : BoostString} {text : BoostText} {asio : AsioAddress} {D : DoubleText} {R : RedisServer}.

(** The relays of a session that are in use have addresses to show. *)
Definition fit (s : RTPProxySession) : Prop := forall k, used s k -> placed_tuple (proxy s k).
(** The sessions towards a route. *)
Definition sessions_to (m : RTPProxyManager) (r : str) : nat := size (filter (fun x => monitoredRoute x.2 = r) (sessionList m)).

(** [bound] is what the list of sessions can grow to: one more than the maximum, or what it was at first. *)
Record manager_ok (bound : nat) (m : RTPProxyManager) : Prop := {
  mo_ports : ports_ok (mg_ports m);
  mo_fit : map_Forall (fun _ s => fit s) (sessionList m);
  mo_size : size (sessionList m) <= bound;
  mo_bound : S (rtpSessionMax m) <= bound /\ (Z.of_nat bound < 2 ^ 64)%Z;
  mo_count : forall r, r <> [] -> getSessionCount m r = Z.of_nat (sessions_to m r)
}.

Lemma count_small bound m r : manager_ok bound m -> (Z.of_nat (sessions_to m r) < 2 ^ 64)%Z.
Proof. intros [_ _ Hs [_ Hb] _]. unfold sessions_to. pose proof (count_bound (fun x => monitoredRoute x.2 = r) (sessionList m)). lia. Qed.

(** A session is replaced by one with the same route. *)
Lemma replace_ok bound m id s s' : manager_ok bound m -> sessionList m !! id = Some s -> fit s' -> monitoredRoute s' = monitoredRoute s ->
  manager_ok bound (m <| sessionList := <[id := s']> (sessionList m) |>).
Proof.
  intros [Hp Hf Hs Hb Hc] Hi Hf' Hr. constructor; [done| | |done|].
  - by apply map_Forall_insert_2.
  - change (sessionList (_ <| sessionList := ?x |>)) with x. by rewrite map_size_insert_Some by (by eexists).
  - intros r Hn. unfold sessions_to. change (sessionList (_ <| sessionList := ?x |>)) with x. rewrite (count_replace _ _ _ _ s) by (done || (cbn; by rewrite Hr)). by apply Hc.
Qed.

(** The count of a route goes down when a session towards it is removed. *)
Lemma decrement_count n r r' : default 0%Z (decrementSessionCount r n !! r') =
  if decide (r = r') then match n !! r with Some k => u64 (k - 1) | None => 0%Z end else default 0%Z (n !! r').
Proof.
  unfold decrementSessionCount. destruct (n !! r) eqn:E; destruct (decide (r = r')) as [->|Hn]; [by rewrite lookup_insert_eq|by rewrite lookup_insert_ne|by rewrite E|done].
Qed.
Lemma increment_count n r r' : default 0%Z (incrementSessionCount r n !! r') =
  if decide (r = r') then match n !! r with Some k => u64 (k + 1) | None => 1%Z end else default 0%Z (n !! r').
Proof.
  unfold incrementSessionCount. destruct (n !! r) eqn:E; destruct (decide (r = r')) as [->|Hn]; rewrite ?lookup_insert_eq, ?lookup_insert_ne by done; done.
Qed.

Lemma remove_ok bound m id s : manager_ok bound m -> sessionList m !! id = Some s ->
  manager_ok bound (m <| sessionCounter := release s (sessionCounter m) |> <| sessionList := delete id (sessionList m) |>).
Proof.
  intros H Hi. pose proof (fun r => count_small bound m r H) as Hsm. destruct H as [Hp Hf Hs Hb Hc]. constructor; [done| | |done|].
  - by apply map_Forall_delete.
  - change (sessionList (_ <| sessionList := ?x |>)) with x. rewrite map_size_delete, Hi. lia.
  - intros r Hn. specialize (Hc r Hn) as Hr. specialize (Hsm r). unfold sessions_to, getSessionCount in *.
    change (sessionList (_ <| sessionList := ?x |>)) with x. change (sessionCounter (_ <| sessionList := _ |>)) with (release s (sessionCounter m)).
    rewrite (count_delete _ _ _ _ Hi) in Hr, Hsm. cbn [snd] in Hr, Hsm. unfold release. destruct (monitoredRoute s) as [|c rest] eqn:Er.
    + rewrite decide_False in Hr by (intros E; congruence). rewrite Hr. lia.
    + rewrite decrement_count. destruct (decide (c :: rest = r)) as [E|E]; [|rewrite Hr; lia]. subst r.
      destruct (sessionCounter m !! (c :: rest)) eqn:Ek; cbn in Hr; [|lia]. unfold u64. rewrite Z.mod_small; lia.
Qed.

(** A new session is added, and counted when its route is monitored. *)
Lemma insert_ok bound m id s n : manager_ok bound m -> sessionList m !! id = None -> size (sessionList m) <= rtpSessionMax m -> fit s ->
  (n = sessionCounter m /\ monitoredRoute s = [] \/ n = incrementSessionCount (monitoredRoute s) (sessionCounter m)) ->
  manager_ok bound (m <| sessionCounter := n |> <| sessionList := <[id := s]> (sessionList m) |>).
Proof.
  intros [Hp Hf Hs Hb Hc] Hi Hsz Hfs Hn. constructor; [done| | |done|].
  - by apply map_Forall_insert_2.
  - change (sessionList (_ <| sessionList := ?x |>)) with x. rewrite map_size_insert, Hi. cbn. lia.
  - intros r Hr. specialize (Hc r Hr). unfold sessions_to, getSessionCount in *. pose proof (count_bound (fun x => monitoredRoute x.2 = r) (sessionList m)) as Hcb.
    change (sessionList (_ <| sessionList := ?x |>)) with x. change (sessionCounter (_ <| sessionList := _ |>)) with n.
    rewrite count_fresh by done. cbn [snd]. destruct Hn as [[-> E]| ->].
    + rewrite E, decide_False by congruence. rewrite Hc. lia.
    + rewrite increment_count. destruct (decide (monitoredRoute s = r)) as [E|E]; [|rewrite Hc; lia]. rewrite E.
      destruct (sessionCounter m !! r); cbn in Hc; [unfold u64; rewrite Z.mod_small; lia|lia].
Qed.

(** *** The session of a request *)

Lemma name_fit attr s : fit s -> fit (name_session attr s).
Proof. intros H. unfold name_session. by destruct (at_callId attr). Qed.
Lemma name_route attr s : monitoredRoute (name_session attr s) = monitoredRoute s.
Proof. unfold name_session. by destruct (at_callId attr). Qed.
Lemma fresh_fit s : hasOffered s = mkThree false false false -> isNegotiated s = mkThree false false false -> fit s.
Proof. intros E1 E2 k [H|H]; [rewrite E1 in H|rewrite E2 in H]; by destruct k. Qed.
Lemma name_flags attr s : hasOffered (name_session attr s) = hasOffered s /\ isNegotiated (name_session attr s) = isNegotiated s.
Proof. unfold name_session. by destruct (at_callId attr). Qed.

Definition others_same (id : str) (m m' : RTPProxyManager) : Prop := forall id', id' <> id -> sessionList m' !! id' = sessionList m !! id'.

Lemma find_session_ok bound m now id route rt attr m' s : manager_ok bound m -> find_session m now id route rt attr = inr (m', s) ->
  manager_ok bound m' /\ sessionList m' !! id = Some s /\ fit s /\ others_same id m m'.
Proof.
  intros H. unfold find_session. destruct (_ || _).
  - destruct (sessionList m !! id) as [s0|] eqn:Ei.
    + intros [= <- <-]. assert (F : fit s0) by exact (mo_fit _ _ H _ _ Ei). split; [|split; [apply lookup_insert_eq|split; [by apply name_fit|intros id' Hn; by apply lookup_insert_ne]]].
      apply (replace_ok bound m id s0); [done|done|by apply name_fit|apply name_route].
    + destruct (_ <? _) eqn:El; [done|]. apply Nat.ltb_ge in El. set (s1 := name_session attr (new_rtp_session id now)).
      destruct (name_flags attr (new_rtp_session id now)) as [F1 F2]. fold s1 in F1, F2. pose proof (name_route attr (new_rtp_session id now)) as F3. fold s1 in F3.
      destruct (if countSessions attr then _ else _) as [s2 n] eqn:Ec.
      assert (C : hasOffered s2 = hasOffered s1 /\ isNegotiated s2 = isNegotiated s1 /\
        (n = sessionCounter m /\ monitoredRoute s2 = [] \/ n = incrementSessionCount (monitoredRoute s2) (sessionCounter m))).
      { destruct (countSessions attr); injection Ec as <- <-; [by auto|]. split_and!; [done|done|left]. by rewrite F3. }
      clearbody s1. clear Ec. destruct C as (C1 & C2 & C3). set (s3 := if (0 <? at_resizerSamplesLeg1 attr)%Z && (0 <? at_resizerSamplesLeg2 attr)%Z then setResizerSamples_session s2 _ _ else s2).
      assert (G : hasOffered s3 = hasOffered s2 /\ isNegotiated s3 = isNegotiated s2 /\ monitoredRoute s3 = monitoredRoute s2) by (subst s3; by destruct (_ && _)).
      clearbody s3. destruct G as (G1 & G2 & G3). intros [= <- <-]. assert (F : fit s3) by (apply fresh_fit; [by rewrite G1, C1, F1|by rewrite G2, C2, F2]).
      split; [apply insert_ok; [done|done|done|done|by rewrite G3]|]. split; [apply lookup_insert_eq|]. split; [done|]. intros id' Hn. by apply lookup_insert_ne.
  - destruct (sessionList m !! id) as [s0|] eqn:Ei; [|done]. intros [= <- <-]. split; [done|]. split; [done|]. split; [exact (mo_fit _ _ H _ _ Ei)|done].
Qed.

(** *** The steps *)

Lemma manager_handles (binds : nat -> endpoint -> bool) bound m now lid id route c sdp attr :
  manager_ok bound m -> interface (packetLocalInterface c) -> interface (routeLocalInterface c) ->
  exists m' sdp' attr' r, manager_handleSDP binds m now lid id route c sdp attr = Val (m', sdp', attr', r) /\ manager_ok bound m' /\ others_same id m m'.
Proof.
  intros H I1 I2. unfold manager_handleSDP. destruct (enabled m); cbn [negb]; [|by eexists _, _, _, _].
  set (attr' := if alwaysProxyMedia m then _ else _). clearbody attr'. destruct (find_session _ _ _ _ _ _) as [e|[m1 s]] eqn:Ef; [by eexists _, _, _, _|].
  destruct (find_session_ok _ _ _ _ _ _ _ _ _ H Ef) as (H1 & Hi & F & O). cbn zeta. set (s1 := s <| logId := lid |> <| s_verbose := _ |>).
  assert (Ok : session_ok (mkWorld (mg_ports m1) s1 sdp attr' None)) by (constructor; [exact (mo_ports _ _ H1)|exact F]).
  destruct (handleSDP_handled binds (mg_enableHairpins m1) c I1 I2 _ Ok) as (w & r & E & [Wp Wf] & Er & _). rewrite E, val_bind.
  eexists _, _, _, _. split; [reflexivity|]. split.
  - assert (H2 : manager_ok bound (m1 <| sessionList := <[id := w_session w]> (sessionList m1) |>)) by (eapply replace_ok; [done|exact Hi|exact Wf|exact Er]).
    destruct H2 as [_ A2 A3 A4 A5]. constructor; [exact Wp|exact A2|exact A3|exact A4|exact A5].
  - intros id' Hn. rewrite <- O by done. by apply lookup_insert_ne.
Qed.

(** All sockets of a session are closed. *)
Definition closed (s : RTPProxySession) : Prop := forall k,
  leg1Socket (data (proxy s k)) = false /\ leg2Socket (data (proxy s k)) = false /\
  leg1Socket (control (proxy s k)) = false /\ leg2Socket (control (proxy s k)) = false.
Lemma stop_closed s : closed (session_stop s).
Proof. by intros []. Qed.

Lemma collect_spec bound now ids m : manager_ok bound m -> let '(m', stopped) := collect now ids m in
  manager_ok bound m' /\ Forall closed stopped /\ forall id, sessionList m' !! id =
    match sessionList m !! id with Some s => if bool_decide (id ∈ ids) && expired now (readTimeout m) s then None else Some s | None => None end.
Proof.
  revert m. induction ids as [|i ids IH]; intros m H; cbn [collect].
  { split; [done|]. split; [constructor|]. intros id. rewrite bool_decide_eq_false_2 by apply not_elem_of_nil. by destruct (sessionList m !! id). }
  assert (Hskip : (forall s, sessionList m !! i = Some s -> expired now (readTimeout m) s = false) -> forall id, match sessionList m !! id with
      Some s => if bool_decide (id ∈ ids) && expired now (readTimeout m) s then None else Some s | None => None end =
    match sessionList m !! id with Some s => if bool_decide (id ∈ i :: ids) && expired now (readTimeout m) s then None else Some s | None => None end).
  { intros Hs id. destruct (sessionList m !! id) as [s|] eqn:E; [|done]. destruct (decide (id = i)) as [->|Hn]; [by rewrite (Hs s E), !andb_false_r|].
    by rewrite (bool_decide_ext (id ∈ i :: ids) (id ∈ ids)) by (rewrite elem_of_cons; tauto). }
  destruct (sessionList m !! i) as [s|] eqn:Ei; [destruct (expired now (readTimeout m) s) eqn:Ex|].
  - specialize (IH _ (remove_ok bound m i s H Ei)). destruct (collect now ids _) as [m' stopped]. destruct IH as (H' & C & L).
    split; [done|]. split; [constructor; [apply stop_closed|done]|]. intros id. rewrite L. clear L.
    change (sessionList (_ <| sessionList := ?x |>)) with x. change (readTimeout (_ <| sessionList := _ |>)) with (readTimeout m).
    destruct (decide (id = i)) as [->|Hn].
    + rewrite lookup_delete_eq, Ei, Ex, bool_decide_eq_true_2 by by left. done.
    + rewrite lookup_delete_ne by done. by rewrite (bool_decide_ext (id ∈ i :: ids) (id ∈ ids)) by (rewrite elem_of_cons; tauto).
  - specialize (IH m H). destruct (collect now ids m) as [m' stopped]. destruct IH as (H' & C & L). split; [done|]. split; [done|].
    intros id. rewrite L. apply Hskip. by intros s' [= <-].
  - specialize (IH m H). destruct (collect now ids m) as [m' stopped]. destruct IH as (H' & C & L). split; [done|]. split; [done|].
    intros id. rewrite L. by apply Hskip.
Qed.

Lemma collect_filter bound now m : manager_ok bound m -> let '(m', stopped) := collectInactiveSessions m now in
  manager_ok bound m' /\ Forall closed stopped /\ sessionList m' = filter (fun x => expired now (readTimeout m) x.2 = false) (sessionList m).
Proof.
  intros H. unfold collectInactiveSessions. pose proof (collect_spec bound now (map_to_list (sessionList m)).*1 m H) as C.
  destruct (collect _ _ _) as [m' stopped]. destruct C as (H' & C & L). split; [done|]. split; [done|]. apply map_eq. intros id. rewrite L, map_lookup_filter.
  destruct (sessionList m !! id) as [s|] eqn:E; [|done]. cbn. rewrite bool_decide_eq_true_2.
  - cbn. destruct (expired now (readTimeout m) s) eqn:Ex; [by rewrite option_guard_False|by rewrite option_guard_True].
  - apply (list_elem_of_fmap_2' fst _ (id, s)); [|done]. by apply elem_of_map_to_list.
Qed.

Lemma media_ok junk stack cfg enc dec bound m id k t e m' out : manager_ok bound m -> media_step junk stack cfg enc dec m id k t e = Val (m', out) ->
  manager_ok bound m' /\ others_same id m m'.
Proof.
  intros H. unfold media_step. destruct (sessionList m !! id) as [s|] eqn:Ei; [|by intros [= <- _]].
  intros ([o tu] & E & Hm)%cres_bind_val. injection Hm as <- _. split; [|intros id' Hn; by apply lookup_insert_ne].
  apply (replace_ok bound m id s); [done|done| |done]. pose proof (mo_fit _ _ H _ _ Ei) as F. intros k' Hu.
  assert (Hu' : used s k') by exact Hu. specialize (F k' Hu'). unfold proxy, put_proxy. change (proxies (_ <| proxies := ?x |>)) with x. rewrite at_put.
  destruct (decide (k = k')) as [->|]; [|done]. destruct F as [Fd Fc]. destruct t; cbn [on_proxy] in E; apply cres_bind_val in E as ([o' p] & Ep & E);
    injection E as _ <-; apply step_place in Ep; split; cbn [data control]; first [done|by eapply same_placed].
Qed.

End invariant.

Section manager.
Context {boost : BoostString} {text : BoostText} {asio : AsioAddress} {D : DoubleText} {R : RedisServer}.
Context (junk stack : str) (cfg : xor_sip_config) (enc dec : option (str -> str)) (binds : nat -> endpoint -> bool).
Abbreviation step := (manager_step junk stack cfg enc dec binds).

(** Requests come in at interfaces of the server. *)
Definition manager_event_ok (e : manager_event) : Prop :=
  match e with
  | HandleSDP _ _ _ _ c _ _ => interface (packetLocalInterface c) /\ interface (routeLocalInterface c)
  | _ => True
  end.
Definition is_media (e : manager_event) : bool := match e with Media _ _ _ _ => true | _ => false end.

Inductive reached (m0 : RTPProxyManager) : RTPProxyManager -> Prop :=
| reached_start : reached m0 m0
| reached_step m e m' o : reached m0 m -> manager_event_ok e -> step m e = Val (m', o) -> reached m0 m'.

(** What a step does to the list of sessions, and what it gives back. *)
Definition effect (m : RTPProxyManager) (e : manager_event) (m' : RTPProxyManager) (o : output) : Prop :=
  match e with
  | HandleSDP _ _ id _ _ _ _ | ChangeState id _ | SessionTimeout id | Media id _ _ _ => others_same id m m'
  | RemoveSession id =>
      sessionList m' = delete id (sessionList m) /\ exists l, o = Stopping l /\ l = session_stop <$> option_list (sessionList m !! id) /\ Forall closed l
  | HouseKeeping now =>
      sessionList m' = filter (fun x => expired now (readTimeout m) x.2 = false) (sessionList m) /\ exists l, o = Stopping l /\ Forall closed l
  end.

Lemma manager_step_keeps bound m e m' o : manager_ok bound m -> manager_event_ok e -> step m e = Val (m', o) -> manager_ok bound m' /\ effect m e m' o.
Proof.
  intros H He. destruct e as [now lid id route c sdp attr|id|id st|now|id|id k t e]; cbn [manager_step effect].
  - destruct He as [I1 I2]. destruct (manager_handles binds bound m now lid id route c sdp attr H I1 I2) as (m1 & sdp1 & attr1 & r & -> & H1 & O).
    rewrite val_bind. by intros [= <- _].
  - unfold removeSession. destruct (sessionList m !! id) as [s|] eqn:Ei; intros [= <- <-].
    + split; [by apply remove_ok|]. split; [done|]. eexists. split; [reflexivity|]. split; [done|]. constructor; [apply stop_closed|constructor].
    + split; [done|]. split; [by rewrite delete_id|]. eexists. split; [reflexivity|]. split; [done|constructor].
  - unfold changeSessionState. destruct (sessionList m !! id) as [s|] eqn:Ei; intros [= <- _]; [|done].
    split; [|intros id' Hn; by apply lookup_insert_ne]. by apply (replace_ok bound m id s); [| |exact (mo_fit _ _ H _ _ Ei)|].
  - pose proof (collect_filter bound now m H) as C. destruct (collectInactiveSessions m now) as [m1 l]. intros [= <- <-]. destruct C as (H1 & C & L).
    split; [done|]. split; [done|]. by exists l.
  - intros [= <- _]. destruct (sessionList m !! id) as [s|] eqn:Ei.
    + split; [|intros id' Hn; by apply lookup_alter_ne]. assert (E : alter handleAuthStateTimeout id (sessionList m) = <[id := handleAuthStateTimeout s]> (sessionList m)).
      { apply map_eq. intros i. destruct (decide (i = id)) as [->|Hn]; [by rewrite lookup_alter_eq, lookup_insert_eq, Ei|by rewrite lookup_alter_ne, lookup_insert_ne]. }
      rewrite E. by apply (replace_ok bound m id s); [| |exact (mo_fit _ _ H _ _ Ei)|].
    + assert (E : alter handleAuthStateTimeout id (sessionList m) = sessionList m).
      { apply map_eq. intros i. destruct (decide (i = id)) as [->|Hn]; [by rewrite lookup_alter_eq, Ei|by rewrite lookup_alter_ne]. }
      rewrite E. split; [|done]. destruct H. by constructor.
  - intros ([m1 out] & E & Hm)%cres_bind_val. injection Hm as <- _. by eapply media_ok.
Qed.



End manager.

(** ** Instances *)

Lemma new_manager_ok : manager_ok 1001 new_manager.
Proof.
  constructor.
  - constructor; cbn; [lia|lia|lia|by left].
  - apply map_Forall_empty.
  - change (sessionList new_manager) with (∅ : gmap str RTPProxySession). rewrite map_size_empty. lia.
  - split; [exact (le_n 1001)|]. lia.
  - intros r _. reflexivity.
Qed.
Definition ex_request : manager_event := HandleSDP 0 #"log" #"call" ex_wan ex_invite ex_offer (ex_forced <| countSessions := true |>).
Lemma ex_request_ok : manager_event_ok ex_request.
Proof. split; [exact ex_lan_ok|exact ex_wan_ok]. Qed.


Definition ex_manager : RTPProxyManager :=
  new_manager <| hasRtpDb := true |> <| persistStateFiles := true |> <| redisClient := dumpStateToRedis ex_servers 1000 ex_saved |>.
